(* ===== verification/_CoqProject ===== *)
-Q . S2P
Prelude.v
Words.v
StrLib.v
Errors.v
Http.v
TypedHeaders.v
HeaderFacts.v
Response.v
Router.v
RouterFacts.v
Payload.v
PayloadHelper.v
PayloadReads.v
Multipart.v
MultipartSafe.v
MultipartFacts.v
WsMask.v
WsProto.v
WsFrame.v
WsStream.v
Decoder.v
Transfer.v
Pipeline.v
Route.v
Middlewares.v
MiddlewareFacts.v
Fs.v
FsFacts.v
App.v
CorsApp.v
H1Reader.v
PayloadType.v
SharedBytes.v
Decompress.v
ServerHelpers.v
ContentEncoder.v
H1Writer.v
Http1.v
H1Server.v
ClientParser.v
ClientWriter.v
ClientServer.v
Connector.v
ConnectorWorld.v
ConnectorFacts.v
Bodies.v
BodyFacts.v
With.v
WithFacts.v
De.v
Requests.v
Worker.v
WorkerFacts.v
Server.v
ServerFacts.v
Incoming.v
H2Writer.v
Http2.v
Http2Facts.v
ClientPipeline.v
ClientPipelineFacts.v
ClientExchange.v
ClientBuilder.v
Contexts.v
WsClient.v
Session.v
Logging.v
