(* ===== verification/Prelude.v ===== *)
(** * Verification of the actix-web server and client

    actix-web serves HTTP/1 requests: a connection ([Http1]) reads bytes from a socket,
    a [Reader] turns them into request heads and feeds the bodies into payload channels,
    an application finds the resource or handler for a request, a [Pipeline] runs it
    through middlewares and that handler, and an [H1Writer] renders the responses back
    to the socket.  Multipart bodies and WebSocket sessions run over the payload of a
    request; handlers may take arguments that are extracted from it.  HTTP/2 connections
    ([Http2]) run the same tasks over streams of the http2 crate.  The server binds
    sockets, accepts connections in threads of their own and hands them to workers, which
    tell the protocols apart.  A client builds requests, writes them to the connections of
    a pool and reads their responses, also to open WebSocket sessions.  This library models these parts of the sources under src/src
    as executable definitions and proves what makes them correct.

    ** Files, in the order of compilation

    - [Prelude]: results of Rust code ([run]: returned, panicked or out of fuel),
      [poll], [result], bytes, slices with machine-integer offsets, tactics and hints.
    - [Words]: machine words as bytes in either byte order, rotations.
    - [StrLib]: the functions of Rust's [str] and integer formatting that the code uses.
    - [Errors]: the error enumerations of error.rs, their conversions and statuses.
    - [Http]: httprequest.rs ([HttpInnerMessage], its reset), httpmessage.rs ([chunked]),
      the pool of request heads of server/helpers.rs, the interface [HeaderMap].
    - [TypedHeaders], [HeaderFacts]: header/mod.rs, the macro of header/common/mod.rs and
      the items of header/shared and header/common (entity tags, encodings, charsets,
      qualities, cache directives, content ranges), and their round trips.
    - [Response]: httpresponse.rs and body.rs: bodies, response heads, the builder, the
      pool of response heads.
    - [Router], [RouterFacts]: router.rs, param.rs and the requests of httprequest.rs:
      patterns, matching, generated urls, path parameters; what they mean.
    - [Payload]: payload.rs, the channel that carries a request body: the cell shared by
      [PayloadSender] and [Payload], its wake-ups, its executions as a step relation.
    - [PayloadHelper], [PayloadReads]: payload.rs, exact, copying and delimited reads over
      a queue of chunks; the specification is a reader over flat bytes.
    - [Multipart], [MultipartSafe], [MultipartFacts]: multipart.rs: streams, nested
      streams and fields over shared cells guarded by the [Safety] counter; exclusive
      access to the payload; delivery of the parts.
    - [WsMask], [WsProto], [WsFrame], [WsStream]: ws/mask.rs, ws/proto.rs, ws/frame.rs
      and ws/mod.rs: masking through unaligned word stores, codes, frames, the opening
      handshake and the stream of messages.
    - [Decoder]: server/h1.rs, [Decoder] and [ChunkedState]: the framing of bodies, with
      a byte-at-a-time reference decoder.
    - [Transfer]: server/encoding.rs, [TransferEncoding], the writer's side of framing.
    - [Pipeline]: pipeline.rs and the trait of middleware/mod.rs: the state machine of a
      request; the interface [Writer].
    - [Route]: pred.rs, handler.rs, route.rs and resource.rs: predicates, routes,
      resources, and the composition of a resource's middlewares with a handler.
    - [Middlewares], [MiddlewareFacts]: middleware/cors.rs with its builder, csrf.rs,
      defaultheaders.rs and errhandlers.rs.
    - [Fs], [FsFacts]: fs.rs: named files, conditional requests, streaming through the
      thread pool, directory listings, [StaticFiles].
    - [App]: application.rs and helpers.rs: building an application, dispatching a
      request, normalizing paths.
    - [CorsApp]: middleware/cors.rs, resources behind CORS and their registration with an
      application.
    - [H1Reader]: server/h1.rs [Reader] and server/utils.rs; the interfaces
      [PayloadWriter] and [HttpParsers].
    - [PayloadType]: server/encoding.rs, [PayloadType] and [EncodedPayload].
    - [SharedBytes]: server/shared.rs, output buffers with their spare capacity.
    - [Decompress]: server/encoding.rs, [PayloadStream] with [Wrapper] and [Writer]; the
      interfaces [WriteDecoder] and [GzDecoder].
    - [ServerHelpers]: server/helpers.rs, formatting through raw buffers and a table.
    - [ContentEncoder]: server/encoding.rs, [AcceptEncoding] and [ContentEncoder]; the
      interfaces [Compressor] and [F64FromStr].
    - [H1Writer]: server/h1writer.rs.
    - [Http1]: server/h1.rs [Http1]; the interface [HttpHandlerTask].
    - [H1Server]: [H1Writer] as the [Writer] of pipelines, [Pipeline] as the task of a
      connection, and whole connections executed.
    - [ClientParser], [ClientWriter], [ClientServer]: client/parser.rs, client/response.rs
      (the head), client/writer.rs and client/request.rs (the head); what one side of a
      connection reads of what the other side writes.
    - [Connector], [ConnectorWorld], [ConnectorFacts]: client/connector.rs, the pool of
      connections with its limits, waiters, timers and pauses, as handlers over one state
      and its events; who holds a ticket and what becomes of waiters; the books.
    - [ClientPipeline], [ClientPipelineFacts], [ClientExchange]: client/pipeline.rs and
      client/response.rs, sending a request and reading its response over one connection;
      the connection's end, and the exchange as a whole.
    - [ClientBuilder]: client/request.rs, the builder of requests, with the request that a
      sequence of calls gives as its specification.
    - [Contexts]: context.rs and ws/context.rs, the contexts to which actors write.
    - [WsClient]: ws/client.rs: asking for a session, verifying the answer, the reader and
      the writer; what the two sides of a session say to each other.
    - [Session]: the cookies of httprequest.rs and client/response.rs, and cookie sessions
      (middleware/session.rs).
    - [Logging]: info.rs and middleware/logger.rs.
    - [Bodies], [BodyFacts]: the body futures of httpmessage.rs and json.rs, the extractors
      of extractor.rs over them.
    - [With], [WithFacts]: with.rs, handlers of one to three extracted arguments.
    - [De]: de.rs and the extractors [Path] and [Query]: types and their visitors as
      dialogues with a deserializer of path parameters.
    - [Requests]: httprequest.rs, reading a request and its query; httpresponse.rs and
      body.rs, texts and bytes as responses; error.rs, errors with a response.
    - [Worker], [WorkerFacts]: server/settings.rs, server/channel.rs, server/worker.rs.
    - [Server], [ServerFacts]: server/srv.rs, accept threads and supervision as messages
      and effects.
    - [Incoming]: server/srv.rs [start_incoming], the server of a stream of connections.
    - [H2Writer], [Http2], [Http2Facts]: server/h2writer.rs and server/h2.rs; the
      interface [H2Task].

    ** How the code is modelled

    Definitions keep the names of the sources, with a prefix where two types have a
    method of one name ([rb_] for the response builder, [te_] and [ce_] for encodings,
    [h1_] for [H1Writer], [rh_] for resources, [hw_], [hc_] and the like for fields).  A
    method that takes [&mut self] maps the old state to its result and the new state;
    flags of [bitflags] types are boolean fields.  [Result] and [Poll] are values, never
    exceptions.

    - Integers are [Z]; where overflow matters the wrap of a release build is written
      out ([u64_wrap], [u16_wrap]).  A subtraction of [usize] below zero is a [Panic]
      ([usize_sub]) that is proved not to happen.  Debug assertions are off.  The [f32]
      of quality values is the binary32 format of the Standard Library's [SpecFloat].
    - [Bytes], [BytesMut] and [&str] are their contents; where the code relies on spare
      capacity ([SharedBytes], [H1Writer]) it is kept, and the allocator is a parameter.
      Raw pointer accesses outside of their buffer, undefined in Rust, are [Panic];
      uninitialized memory is a parameter.  Paths of files are lists of components.
    - Shared cells ([Rc<RefCell<_>>], the output buffer) are one value that the owners
      pass along, with reference counts where dropping matters; the cells of multipart
      streams, which are shared by handles of unknown lifetime, are a store ([World]).
    - Futures are known by how often they are not ready and by their result; sockets,
      streams, actors, thread pools and timers by the answers they give to successive
      calls.  A script that has run out blocks for ever, so all finite behaviours are
      covered.
    - Crates are interfaces: [HeaderMap] (http), [HttpParsers] and [HeaderBlocks]
      (httparse, http), [HeaderConv], [HttpNames] and [CookieJar] (http, cookie),
      [UriCrate] and [PercentEncoding] (http, percent_encoding), [RegexCrate] (regex),
      [MimeCrate] and [MimeGuess] (mime, mime_guess), [TimeCrate] (time), [FileSystem]
      (the system), [HashOrder] (the order in which a hash set is iterated), [ByteOrder]
      (byteorder), SHA-1 and base64, [UrlCrate] and [RequestCookies] (url, http, cookie),
      [CookieText], [SessionJars] and [StateJson] (cookie, serde_json), [ContextImpl]
      (actix), [WriteDecoder], [GzDecoder] and [Compressor] (flate2, brotli2),
      with the documented laws the proofs use and a concrete instance of each in the
      witnesses.  The streams of the http2 crate answer capacities from a script and keep
      the frames they were given; the TLS crates, the resolver and the system's clock are
      answers as well.  serde_json and serde_urlencoded are functions of the bytes; the
      types that serde deserializes are the questions they ask ([Seed]).
    - The threads and actors of the server exchange messages: each handler is a function
      of its actor's state that returns the messages it sends, and the theorems are about
      every order in which messages can arrive.

    ** Loops and fuel

    A Rust loop that is not structural is a [Fixpoint] on fuel that answers [Timeout]
    when it runs out; no theorem assumes that it does not.  Readers get one more than
    the number of reads or bytes at hand, every turn taking at least one.  The pipeline
    gets 8 turns, because every turn moves to a state of lower rank (7 ranks), and its
    inner loops as many as there are middlewares (fewer than 2^16, the width of the
    counter) or answers left in a body's script.  The polls of a multipart stream get
    turns by the bytes and answers left to it ([poll_turns]).  [Http1.poll_io] gets one
    turn per task, since it only recurses after tasks left the queue.  The outer loop of
    [Http1::poll], which tasks can keep busy, takes its bound as an argument; so does that
    of [Http2::poll], which is shown to need no more turns than the requests that arrived
    and the tasks that are not done.  The turns of the connector are bounded by the
    connections, waiters and hosts it holds, those of an accept thread by its workers.
    Writing a request takes the answers left in its body and two turns more, reading its
    response the bytes and reads at hand, and [SendRequest] has four states to go through.
    The gzip decoder is read once per byte of output that is left and once more.
    The visitor of a tuple asks once per element, that of a struct twice per parameter.
    [run_post bad Q m] says that [m] returns a result with [Q], or panics and [bad].

    ** What is shown

    - Requests: reads of any fragmentation decode to what the reference gives; reading
      never panics, loops or buffers an unbounded head; a request gets the framing its
      headers call for, and its body reaches the application whole and in order; of a
      gzip body it gets the decompressed text.
    - Payload channel: it is a byte queue with back-pressure, bounded for a polite
      sender, and a paused sender is woken; the chunked reads refine flat reads.
    - Multipart: the parts of a body arrive in order with their headers and contents;
      only the newest handle can touch the payload.
    - Routing: patterns match exactly the paths that their parts spell, the first
      matching resource wins, generated urls lead back, applications dispatch by
      prefix, resource and handler, resources answer by their first accepting route,
      path parameters cannot leave a directory.
    - Pipeline: the order of calls in every reachable state, from which middleware down a
      done pipeline has called [finish], the only causes of panics, completion for
      synchronous middlewares; the same for a resource's middlewares.
    - Middlewares: which preflight and simple requests CORS admits and what it answers,
      and what a resource without other middlewares does behind it, at once or later;
      which requests pass the CSRF filter, default headers.
    - Static files: they are streamed whole, confined to their directory, and validated
      by entity tag and date.
    - Typed headers: the texts of lists, entity tags, content ranges, cache directives
      and quality values are read back.
    - Responses: what a client decodes from the bytes of a binary or streamed response
      is its body and nothing else, however the socket delays its writes; encoders and
      decoders round-trip; formatted numbers are decimal; heads are rendered within the
      capacity of the buffer; recycled heads carry nothing over.
    - Connections: polling returns, connections are closed only without waiting
      requests, responses leave in the order of the requests.
    - WebSockets: masking is the bytewise XOR, frames and close codes round-trip, parsing
      is safe on every input, a session carries messages both ways in order, the handshake
      accepts exactly the requests of RFC 6455, and client and server agree on it.
    - Client: responses and requests go through between the client's and the server's
      code, in both directions; a request is sent whole while its response is read, and its
      connection is given up exactly once; builders give the request that was asked for;
      the books of the connection pool are right, its limit holds for http and https, and
      no one waits while a connection may be had.
    - Sessions, origins and logs: a session of the documented size comes back from the
      cookie it was written to;
      what is known of a connection follows the precedence of its headers; log formats are
      read as they are written.
    - Bodies and extractors: bodies are read whole and within their limits; extractors run
      one after the other and the handler once, after all of them; tuples and structs get
      the path's parameters by position and by name, integers exactly as they are written.
    - Server: every accepted connection reaches a live worker, in turn; dead workers are
      replaced; workers count their connections and stop in time; the protocol of a
      connection is told from its first bytes, none of which is lost; a server of a stream
      counts its connections.
    - HTTP/2: responses reach the client whole under every grant of capacity; polls
      return.
    - Defects that the model shows, each as a theorem or an evaluated example: panics of
      the pipeline with futures of [start] and [finish], of WebSocket sessions with empty
      close frames, of multipart streams with short boundaries, of the router with ill-
      formed paths and nested groups, of CORS without an origin; a finishing task that
      corrupts the next response; output lost at shutdown; missed and swallowed
      delimiters; chunk sizes modulo 2^64; signed content lengths; empty bodies failed
      at the end of a stream; ignored weights in content negotiation; urls without their
      last literal; concatenated origins; dates with nanoseconds that never validate;
      bodies of responses lost that end with the connection; a limit per host that is
      always one; forced shutdowns that close nothing; stale reports that drop a live
      worker; ends of HTTP/2 bodies that neither side is told of; responses waited for
      without a timeout; ends of requests that are never sent; decompression that parks a
      response; sessions lost for a semicolon or a percent sign, or dropped without an error
      for their size; error replies without the headers of CORS; websockets beyond the
      limit of connections; fragments taken for
      messages; percent signs that are never logged; synchronous reads that panic on a
      short chunk; maps that no path can fill; gzip bodies refused because of where they are
      cut; a date that stands still.

    ** What is not modelled

    [ServerSettings], the conversions of TLS streams and [Route::with] put modelled parts
    together or wrap other crates.  Formatting for debugging, backtraces and the extensions
    of requests carry no behaviour of their own.  Media types, language tags and dates
    belong to other crates.  test.rs is a server for tests.  The executors of actors and of
    futures, and the algorithms of compression, are libraries. *)
From stdpp Require Export base list list_numbers numbers strings option sets gmap.
From Stdlib Require Export ZArith Lia.

(** ** Results of Rust code

    [run A] is the result of a Rust function that may panic ([unwrap] on
    [None], an index out of range, an arithmetic overflow with overflow checks)
    or, for a loop whose iteration count is bounded by explicit fuel, exhaust
    that fuel.  Theorems of this library prove [Ret]: neither a panic nor an
    exhausted loop. *)
Inductive run (A : Type) : Type :=
| Ret (a : A)
| Panic
| Timeout.
Arguments Ret {A} a.
Arguments Panic {A}.
Arguments Timeout {A}.

(** [Poll<T, E>], that is [Result<Async<T>, E>]: [Ok(Async::Ready(t))],
    [Ok(Async::NotReady)], [Err(e)]. *)
Inductive poll (T E : Type) : Type :=
| Ready (t : T)
| NotReady
| PErr (e : E).
Arguments Ready {T E} t.
Arguments NotReady {T E}.
Arguments PErr {T E} e.

(** [Result<T, E>]. *)
Inductive result (T E : Type) : Type :=
| Ok (t : T)
| Err (e : E).
Arguments Ok {T E} t.
Arguments Err {T E} e.

#[export] Instance run_ret : MRet run := fun A a => Ret a.
#[export] Instance run_bind : MBind run := fun A B f m =>
  match m with
  | Ret a => f a
  | Panic => Panic
  | Timeout => Timeout
  end.
#[export] Instance run_fmap : FMap run := fun A B f m =>
  match m with
  | Ret a => Ret (f a)
  | Panic => Panic
  | Timeout => Timeout
  end.

#[export] Instance run_eq_dec `{EqDecision A} : EqDecision (run A).
Proof. solve_decision. Defined.
#[export] Instance poll_eq_dec `{EqDecision T, EqDecision E} : EqDecision (poll T E).
Proof. solve_decision. Defined.
#[export] Instance result_eq_dec `{EqDecision T, EqDecision E} : EqDecision (result T E).
Proof. solve_decision. Defined.

(** [Option::unwrap]. *)
Definition unwrap {A} (o : option A) : run A :=
  match o with Some a => Ret a | None => Panic end.

Lemma run_bind_Ret {A B} (m : run A) (f : A -> run B) b :
  m ≫= f = Ret b <-> exists a, m = Ret a /\ f a = Ret b.
Proof. destruct m; naive_solver. Qed.

(** [run_post bad Q m]: [m] returns a result that satisfies [Q], or it panics and
    [bad] holds; it never exhausts its fuel. *)
Definition run_post {A} (bad : Prop) (Q : A -> Prop) (m : run A) : Prop :=
  match m with
  | Ret a => Q a
  | Panic => bad
  | Timeout => False
  end.

Lemma run_post_bind {A B} bad (Q : B -> Prop) (m : run A) (f : A -> run B) :
  run_post bad (fun a => run_post bad Q (f a)) m -> run_post bad Q (m ≫= f).
Proof. by destruct m. Qed.

Lemma run_post_mono {A} bad (P Q : A -> Prop) m :
  run_post bad P m -> (forall a, P a -> Q a) -> run_post bad Q m.
Proof. destruct m; simpl; auto. Qed.

Lemma run_post_unwrap {A} bad (Q : A -> Prop) (o : option A) :
  (forall a, o = Some a -> Q a) -> (o = None -> bad) -> run_post bad Q (unwrap o).
Proof. destruct o; simpl; auto. Qed.

(** ** Bytes *)

(** A byte is an integer in [0, 256); a [Bytes], [BytesMut], [&[u8]] or [&str]
    (its UTF-8 encoding) is represented by its contents. *)
Notation bytes := (list Z).

Definition is_byte (b : Z) : Prop := (0 <= b < 256)%Z.
Notation is_bytes := (Forall is_byte).

#[export] Instance is_byte_dec b : Decision (is_byte b).
Proof. unfold is_byte. apply _. Defined.

(** Literals [b"..."]. *)
Fixpoint bytes_of_string (s : string) : bytes :=
  match s with
  | EmptyString => []
  | String a s' => Z.of_N (Ascii.N_of_ascii a) :: bytes_of_string s'
  end.

Declare Scope byte_scope.
Delimit Scope byte_scope with byte.
Notation "'b#' s" := (bytes_of_string s) (at level 0, s at level 0) : byte_scope.
Open Scope byte_scope.

Create HintDb actix.
Create Rewrite HintDb lenZ.

Lemma bytes_of_string_ok s : is_bytes (bytes_of_string s).
Proof.
  induction s as [|a s IH]; simpl; constructor; [|done].
  unfold is_byte. pose proof (Ascii.N_ascii_bounded a). lia.
Qed.

(** ** Machine integers *)
Open Scope Z_scope.

(** [usize] subtraction with overflow checks. *)
Definition usize_sub (a b : Z) : run Z := if b <=? a then Ret (a - b) else Panic.

Lemma usize_sub_ok a b : b <= a -> usize_sub a b = Ret (a - b).
Proof. intros H. unfold usize_sub. by rewrite (proj2 (Z.leb_le b a) H). Qed.

(** Slices by machine-integer offsets. *)
Definition takeZ {A} (n : Z) (l : list A) : list A := take (Z.to_nat n) l.
Definition dropZ {A} (n : Z) (l : list A) : list A := drop (Z.to_nat n) l.
Definition lenZ {A} (l : list A) : Z := Z.of_nat (length l).

Lemma lenZ_nonneg {A} (l : list A) : 0 <= lenZ l.
Proof. unfold lenZ; lia. Qed.
Lemma lenZ_app {A} (l k : list A) : lenZ (l ++ k) = lenZ l + lenZ k.
Proof. unfold lenZ. rewrite length_app. lia. Qed.
Lemma lenZ_nil {A} : lenZ (@nil A) = 0.
Proof. done. Qed.
Lemma lenZ_cons {A} (x : A) l : lenZ (x :: l) = 1 + lenZ l.
Proof. unfold lenZ. simpl. lia. Qed.
Lemma lenZ_takeZ {A} n (l : list A) : 0 <= n <= lenZ l -> lenZ (takeZ n l) = n.
Proof. unfold lenZ, takeZ. intros. rewrite length_take. lia. Qed.
Lemma lenZ_dropZ {A} n (l : list A) : 0 <= n <= lenZ l -> lenZ (dropZ n l) = lenZ l - n.
Proof. unfold lenZ, dropZ. intros. rewrite length_drop. lia. Qed.
Lemma takeZ_dropZ {A} n (l : list A) : takeZ n l ++ dropZ n l = l.
Proof. apply take_drop. Qed.
Lemma takeZ_app_l {A} n (l k : list A) : n <= lenZ l -> takeZ n (l ++ k) = takeZ n l.
Proof. unfold takeZ, lenZ. intros. apply take_app_le. lia. Qed.
Lemma dropZ_app_l {A} n (l k : list A) : n <= lenZ l -> dropZ n (l ++ k) = dropZ n l ++ k.
Proof. unfold dropZ, lenZ. intros. apply drop_app_le. lia. Qed.
Lemma takeZ_app_r {A} n (l k : list A) :
  lenZ l <= n -> takeZ n (l ++ k) = l ++ takeZ (n - lenZ l) k.
Proof.
  unfold takeZ, lenZ. intros. rewrite take_app_ge by lia. do 2 f_equal. lia.
Qed.
Lemma dropZ_app_r {A} n (l k : list A) :
  lenZ l <= n -> dropZ n (l ++ k) = dropZ (n - lenZ l) k.
Proof. unfold dropZ, lenZ. intros. rewrite drop_app_ge by lia. f_equal. lia. Qed.
Lemma takeZ_all {A} n (l : list A) : lenZ l <= n -> takeZ n l = l.
Proof. unfold takeZ, lenZ. intros. apply take_ge. lia. Qed.
Lemma dropZ_all {A} n (l : list A) : lenZ l <= n -> dropZ n l = [].
Proof. unfold dropZ, lenZ. intros. apply drop_ge. lia. Qed.
Lemma takeZ_0 {A} n (l : list A) : n <= 0 -> takeZ n l = [].
Proof. unfold takeZ. intros. by replace (Z.to_nat n) with 0%nat by lia. Qed.
Lemma dropZ_0 {A} n (l : list A) : n <= 0 -> dropZ n l = l.
Proof. unfold dropZ. intros. by replace (Z.to_nat n) with 0%nat by lia. Qed.
Lemma dropZ_dropZ {A} n m (l : list A) :
  0 <= n -> 0 <= m -> dropZ n (dropZ m l) = dropZ (m + n) l.
Proof. unfold dropZ. intros. rewrite drop_drop. f_equal. lia. Qed.
Lemma lenZ_nil_inv {A} (l : list A) : lenZ l <= 0 -> l = [].
Proof. unfold lenZ. destruct l; simpl; [done|lia]. Qed.

(** The chunks among the answers that a stream gives to successive polls. *)
Definition chunks {E} (rs : list (poll (option bytes) E)) : list bytes :=
  omap (fun r => match r with Ready (Some b) => Some b | _ => None end) rs.

Lemma chunks_cons {E} b (rs : list (poll (option bytes) E)) :
  concat (chunks (Ready (Some b) :: rs)) = b ++ concat (chunks rs).
Proof. done. Qed.

(** [&s[n..]] and [split_at(n).1]: slicing behind the end panics. *)
Definition slice_from (n : Z) (s : bytes) : run bytes := if n <=? lenZ s then Ret (dropZ n s) else Panic.
Lemma slice_from_ok n s : n <= lenZ s -> slice_from n s = Ret (dropZ n s).
Proof. intros Hn. unfold slice_from. by rewrite (proj2 (Z.leb_le _ _)). Qed.

#[export] Hint Resolve lenZ_nonneg : actix.
#[export] Hint Rewrite @lenZ_app @lenZ_nil @lenZ_cons : lenZ.

(** Arithmetic on lengths: expose every [lenZ] as a nonnegative integer. *)
Ltac lenZ_pose :=
  repeat match goal with
  | |- context [lenZ ?l] =>
      lazymatch goal with
      | _ : 0 <= lenZ l |- _ => fail
      | _ => pose proof (lenZ_nonneg l)
      end
  | _ : context [lenZ ?l] |- _ =>
      lazymatch goal with
      | _ : 0 <= lenZ l |- _ => fail
      | _ => pose proof (lenZ_nonneg l)
      end
  end.
Ltac lenZ_lia := autorewrite with lenZ in *; lenZ_pose; lia.

(** [Vec::swap_remove] and [VecDeque::swap_remove_back]. *)
Definition swap_remove {A} (i : nat) (l : list A) : list A :=
  match last l with
  | Some z => take (length l - 1) (<[i := z]> l)
  | None => l
  end.
Lemma swap_remove_length {A} i (l : list A) : l <> [] -> length (swap_remove i l) = (length l - 1)%nat.
Proof.
  intros Hl. unfold swap_remove. destruct (last l) eqn:He; [|by apply last_None in He].
  rewrite length_take, length_insert. lia.
Qed.

Lemma swap_remove_perm {A} i (l : list A) x :
  l !! i = Some x -> l ≡ₚ x :: swap_remove i l.
Proof.
  intros Hi. destruct (exists_last (l := l)) as (l' & z & ->); [by intros ->|].
  unfold swap_remove. rewrite last_snoc, length_app, Nat.add_sub. destruct (decide (i < length l')%nat) as [Hlt|Hge].
  - rewrite lookup_app_l in Hi by done. rewrite insert_app_l by done.
    rewrite take_app_le by (rewrite length_insert; done). rewrite take_ge by (rewrite length_insert; done).
    rewrite <-(take_drop_middle l' i x Hi) at 1. rewrite insert_take_drop by done.
    rewrite <-app_assoc. simpl. rewrite <-(Permutation_middle (take i l') (drop (S i) l' ++ [z]) x).
    apply perm_skip, Permutation_app_head. by rewrite Permutation_app_comm.
  - rewrite lookup_app_r in Hi by lia. destruct (i - length l')%nat as [|k] eqn:Hk; [|done].
    injection Hi as ->. assert (i = length l') as -> by lia.
    rewrite insert_app_r_alt, Nat.sub_diag by lia. simpl. rewrite take_app_length.
    by rewrite Permutation_app_comm.
Qed.
