(* ===== verification/Words.v ===== *)
(** * Machine words and their bytes in memory

    The value of a byte sequence in either byte order, the bytes of a word, and
    rotations.  The WebSocket mask code reads and writes words through byte
    pointers in the byte order of the target; the frame code uses big-endian
    lengths. *)
From S2P Require Import Prelude.
Open Scope Z_scope.

(** Byte [j] of a word, counted from the least significant one. *)
Definition byte_at (w : Z) (j : nat) : Z := Z.land (Z.shiftr w (8 * Z.of_nat j)) 255.

Definition le_bytes (n : nat) (w : Z) : bytes := map (byte_at w) (seq 0 n).
Fixpoint le_value (bs : bytes) : Z :=
  match bs with
  | [] => 0
  | b :: bs => Z.lor b (Z.shiftl (le_value bs) 8)
  end.

(** A word in memory: [big] is [cfg!(target_endian = "big")]. *)
Definition word_bytes (big : bool) (n : nat) (w : Z) : bytes :=
  if big then rev (le_bytes n w) else le_bytes n w.
Definition word_value (big : bool) (bs : bytes) : Z :=
  le_value (if big then rev bs else bs).

(** [u32::rotate_left] and [u32::rotate_right]. *)
Definition u32_rotate_left (w k : Z) : Z :=
  Z.lor (Z.land (Z.shiftl w k) (Z.ones 32)) (Z.shiftr w (32 - k)).
Definition u32_rotate_right (w k : Z) : Z :=
  Z.lor (Z.shiftr w k) (Z.land (Z.shiftl w (32 - k)) (Z.ones 32)).

Definition is_u16 (w : Z) : Prop := 0 <= w < 2 ^ 16.
Definition is_u32 (w : Z) : Prop := 0 <= w < 2 ^ 32.
Definition is_u64 (w : Z) : Prop := 0 <= w < 2 ^ 64.

(** ** Bits *)

Lemma testbit_lt w n i : 0 <= w < 2 ^ n -> n <= i -> Z.testbit w i = false.
Proof.
  intros Hw Hi. destruct (decide (w = 0)) as [->|]; [apply Z.testbit_0_l|].
  apply Z.bits_above_log2; [lia|]. apply Z.log2_lt_pow2; [lia|].
  pose proof (Z.pow_le_mono_r 2 n i). lia.
Qed.

Lemma testbit_byte_at w j i :
  0 <= i -> Z.testbit (byte_at w j) i = (i <? 8) && Z.testbit w (8 * Z.of_nat j + i).
Proof.
  intros Hi. unfold byte_at. change 255 with (Z.ones 8).
  rewrite Z.land_spec, Z.shiftr_spec by lia. destruct (Z.ltb_spec i 8).
  - rewrite Z.ones_spec_low by lia. rewrite andb_true_r. simpl. f_equal. lia.
  - rewrite Z.ones_spec_high by lia. by rewrite andb_false_r.
Qed.

Lemma byte_at_is_byte w j : is_byte (byte_at w j).
Proof.
  unfold is_byte, byte_at. change 255 with (Z.ones 8).
  rewrite Z.land_ones by lia. by apply Z.mod_pos_bound.
Qed.

Lemma byte_at_lxor a b j : byte_at (Z.lxor a b) j = Z.lxor (byte_at a j) (byte_at b j).
Proof.
  apply Z.bits_inj'. intros i Hi.
  rewrite Z.lxor_spec, !testbit_byte_at, Z.lxor_spec by lia. by destruct (i <? 8).
Qed.

Lemma is_byte_testbit b i : is_byte b -> 8 <= i -> Z.testbit b i = false.
Proof. intros Hb. by apply testbit_lt. Qed.

Lemma testbit_le_value_cons b bs i :
  is_byte b -> 0 <= i ->
  Z.testbit (le_value (b :: bs)) i = if i <? 8 then Z.testbit b i else Z.testbit (le_value bs) (i - 8).
Proof.
  intros Hb Hi. simpl. rewrite Z.lor_spec, Z.shiftl_spec by lia.
  destruct (Z.ltb_spec i 8).
  - rewrite (Z.testbit_neg_r _ (i - 8)) by lia. by rewrite orb_false_r.
  - by rewrite (is_byte_testbit b) by done.
Qed.

Lemma byte_at_le_value bs j :
  is_bytes bs -> (j < length bs)%nat -> bs !! j = Some (byte_at (le_value bs) j).
Proof.
  revert j. induction bs as [|b bs IH]; intros j Hbs Hj; simpl in Hj; [lia|].
  inversion_clear Hbs as [|?? Hb Hbs']. destruct j as [|j]; simpl lookup.
  - f_equal. apply Z.bits_inj'. intros i Hi.
    rewrite testbit_byte_at, Z.mul_0_r, Z.add_0_l by lia.
    rewrite testbit_le_value_cons by done.
    destruct (Z.ltb_spec i 8); [done|]. by rewrite (is_byte_testbit b) by done.
  - rewrite (IH j) by (done || lia). f_equal. apply Z.bits_inj'. intros i Hi.
    rewrite !testbit_byte_at by lia. rewrite testbit_le_value_cons by (done || lia).
    rewrite (proj2 (Z.ltb_ge (8 * Z.of_nat (S j) + i) 8)) by lia. do 2 f_equal. lia.
Qed.

Lemma le_bytes_value bs : is_bytes bs -> le_bytes (length bs) (le_value bs) = bs.
Proof.
  intros Hbs. apply list_eq. intros j. unfold le_bytes. rewrite list_lookup_fmap.
  destruct (decide (j < length bs)%nat) as [Hj|Hj].
  - rewrite lookup_seq_lt by lia. simpl. by rewrite byte_at_le_value by done.
  - rewrite lookup_seq_ge, lookup_ge_None_2 by lia. done.
Qed.

Lemma length_le_bytes n w : length (le_bytes n w) = n.
Proof. unfold le_bytes. by rewrite length_map, length_seq. Qed.
Lemma length_word_bytes big n w : length (word_bytes big n w) = n.
Proof. destruct big; simpl; rewrite ?length_rev; apply length_le_bytes. Qed.

Lemma le_bytes_ok n w : is_bytes (le_bytes n w).
Proof. unfold le_bytes. apply Forall_fmap, Forall_true. intros. apply byte_at_is_byte. Qed.
Lemma word_bytes_ok big n w : is_bytes (word_bytes big n w).
Proof. destruct big; [apply Forall_rev|]; apply le_bytes_ok. Qed.

Lemma le_value_bytes n w : 0 <= w < 2 ^ (8 * Z.of_nat n) -> le_value (le_bytes n w) = w.
Proof.
  unfold le_bytes. intros Hw. enough (forall k m,
    le_value (map (byte_at w) (seq k m)) =
    Z.land (Z.shiftr w (8 * Z.of_nat k)) (Z.ones (8 * Z.of_nat m))) as ->.
  { change (8 * Z.of_nat 0) with 0. rewrite Z.shiftr_0_r, Z.land_ones by lia.
    by apply Z.mod_small. }
  intros k m. revert k. induction m as [|m IH]; intros k.
  - simpl. by rewrite Z.land_0_r.
  - apply Z.bits_inj'. intros i Hi. cbn [seq map].
    rewrite testbit_le_value_cons by (done || apply byte_at_is_byte).
    rewrite IH, !Z.land_spec, (Z.shiftr_spec _ _ i), testbit_byte_at by lia.
    destruct (Z.ltb_spec i 8).
    + rewrite Z.ones_spec_low by lia. simpl. rewrite andb_true_r. f_equal. lia.
    + rewrite Z.shiftr_spec by lia. f_equal; [f_equal; lia|].
      destruct (decide (i < 8 * Z.of_nat (S m))).
      * rewrite !Z.ones_spec_low by lia. done.
      * rewrite !Z.ones_spec_high by lia. done.
Qed.

Lemma le_value_bound bs : is_bytes bs -> 0 <= le_value bs < 2 ^ (8 * lenZ bs).
Proof.
  induction 1 as [|b bs Hb _ IH]; simpl; [done|].
  rewrite lenZ_cons. unfold is_byte in Hb.
  assert (Z.lor b (Z.shiftl (le_value bs) 8) = b + le_value bs * 2 ^ 8) as ->.
  { rewrite <-Z.shiftl_mul_pow2 by lia. rewrite Z.add_nocarry_lxor, Z.lxor_lor; [done|..];
    apply Z.bits_inj'; intros i Hi; rewrite Z.land_spec, Z.shiftl_spec, Z.bits_0 by lia;
    (destruct (decide (i < 8));
     [rewrite (Z.testbit_neg_r _ (i - 8)) by lia; apply andb_false_r
     |rewrite (is_byte_testbit b) by (done || lia); done]). }
  replace (8 * (1 + lenZ bs)) with (8 * lenZ bs + 8) by lia.
  rewrite Z.pow_add_r by lenZ_lia. lia.
Qed.

(** ** Words as memory *)

Lemma le_bytes_lxor n bs w :
  is_bytes bs -> length bs = n ->
  le_bytes n (Z.lxor (le_value bs) w) = zip_with Z.lxor bs (le_bytes n w).
Proof.
  intros Hbs <-. apply list_eq. intros j. unfold le_bytes.
  rewrite lookup_zip_with, !list_lookup_fmap.
  destruct (decide (j < length bs)%nat) as [Hj|Hj].
  - rewrite lookup_seq_lt by lia. simpl. rewrite (byte_at_le_value bs j) by done. simpl.
    by rewrite byte_at_lxor.
  - rewrite lookup_seq_ge, (lookup_ge_None_2 bs) by lia. done.
Qed.

Lemma zip_with_rev {A B C} (f : A -> B -> C) l k :
  length l = length k -> zip_with f (rev l) (rev k) = rev (zip_with f l k).
Proof.
  revert k. induction l as [|x l IH]; intros [|y k] Hl; simplify_eq/=; [done|].
  rewrite zip_with_app by (by rewrite !length_rev). by rewrite IH.
Qed.

(** XOR-ing a word into memory XORs the bytes, in either byte order. *)
Lemma word_value_bytes big n w :
  0 <= w < 2 ^ (8 * Z.of_nat n) -> word_value big (word_bytes big n w) = w.
Proof.
  unfold word_value, word_bytes. intros Hw. destruct big; rewrite ?rev_involutive; by apply le_value_bytes.
Qed.

Lemma word_bytes_lxor big n bs w :
  is_bytes bs -> length bs = n ->
  word_bytes big n (Z.lxor (word_value big bs) w) = zip_with Z.lxor bs (word_bytes big n w).
Proof.
  intros Hbs Hn. unfold word_bytes, word_value. destruct big; [|by apply le_bytes_lxor].
  rewrite le_bytes_lxor by (done || by apply Forall_rev || by rewrite length_rev).
  rewrite <-zip_with_rev by (by rewrite length_rev, length_le_bytes).
  by rewrite rev_involutive.
Qed.

(** [bs] rotated left by [n] bytes. *)
Definition rot {A} (n : nat) (bs : list A) : list A := drop n bs ++ take n bs.

Lemma testbit_rotate_right w k i :
  is_u32 w -> 0 < k < 32 -> 0 <= i < 32 ->
  Z.testbit (u32_rotate_right w k) i =
  if i + k <? 32 then Z.testbit w (i + k) else Z.testbit w (i + k - 32).
Proof.
  intros Hw Hk Hi. unfold u32_rotate_right.
  rewrite Z.lor_spec, Z.land_spec, Z.shiftr_spec, Z.shiftl_spec, Z.ones_spec_low by lia.
  rewrite andb_true_r. destruct (Z.ltb_spec (i + k) 32).
  - rewrite (Z.testbit_neg_r w (i - (32 - k))) by lia. by rewrite orb_false_r.
  - rewrite (testbit_lt w 32) by (done || lia). simpl. f_equal. lia.
Qed.

Lemma testbit_rotate_left w k i :
  is_u32 w -> 0 < k < 32 -> 0 <= i < 32 ->
  Z.testbit (u32_rotate_left w k) i =
  if i <? k then Z.testbit w (i + (32 - k)) else Z.testbit w (i - k).
Proof.
  intros Hw Hk Hi. unfold u32_rotate_left.
  rewrite Z.lor_spec, Z.land_spec, Z.shiftr_spec, Z.shiftl_spec, Z.ones_spec_low by lia.
  rewrite andb_true_r. destruct (Z.ltb_spec i k).
  - rewrite (Z.testbit_neg_r w (i - k)) by lia. done.
  - rewrite (testbit_lt w 32 (i + _)) by (done || lia). by rewrite orb_false_r.
Qed.

Lemma byte_at_rotate_right w (n j : nat) :
  is_u32 w -> (0 < n < 4)%nat -> (j < 4)%nat ->
  byte_at (u32_rotate_right w (8 * Z.of_nat n)) j = byte_at w ((j + n) mod 4).
Proof.
  intros Hw Hn Hj. apply Z.bits_inj'. intros i Hi. rewrite !testbit_byte_at by lia.
  destruct (Z.ltb_spec i 8); [|done]. cbn [andb]. rewrite testbit_rotate_right by (done || lia).
  destruct (decide (j + n < 4)%nat).
  - rewrite Nat.mod_small, (proj2 (Z.ltb_lt _ _)) by lia. f_equal. lia.
  - rewrite (proj2 (Z.ltb_ge _ _)) by lia.
    replace ((j + n) mod 4)%nat with (j + n - 4)%nat; [f_equal; lia|].
    apply (Nat.mod_unique _ _ 1); lia.
Qed.

Lemma byte_at_rotate_left w (n j : nat) :
  is_u32 w -> (0 < n < 4)%nat -> (j < 4)%nat ->
  byte_at (u32_rotate_left w (8 * Z.of_nat n)) j = byte_at w ((j + (4 - n)) mod 4).
Proof.
  intros Hw Hn Hj. apply Z.bits_inj'. intros i Hi. rewrite !testbit_byte_at by lia.
  destruct (Z.ltb_spec i 8); [|done]. cbn [andb]. rewrite testbit_rotate_left by (done || lia).
  destruct (decide (j < n)%nat).
  - rewrite Nat.mod_small, (proj2 (Z.ltb_lt _ _)) by lia. f_equal. lia.
  - rewrite (proj2 (Z.ltb_ge _ _)) by lia.
    replace ((j + (4 - n)) mod 4)%nat with (j - n)%nat; [f_equal; lia|].
    apply (Nat.mod_unique _ _ 1); lia.
Qed.

(** Rotating a 32-bit word by whole bytes rotates its bytes in memory; the
    direction depends on the byte order. *)
Lemma word_bytes_rotate (big : bool) w (n : nat) :
  is_u32 w -> (0 < n < 4)%nat ->
  word_bytes big 4 (if big then u32_rotate_left w (8 * Z.of_nat n)
                    else u32_rotate_right w (8 * Z.of_nat n)) =
  rot n (word_bytes big 4 w).
Proof.
  intros Hw Hn. destruct big; unfold word_bytes, le_bytes; cbn [seq map].
  - rewrite !byte_at_rotate_left by (done || lia).
    destruct n as [|[|[|[|]]]]; try lia; reflexivity.
  - rewrite !byte_at_rotate_right by (done || lia).
    destruct n as [|[|[|[|]]]]; try lia; reflexivity.
Qed.

Lemma byte_at_double w j :
  is_u32 w -> (j < 4)%nat ->
  byte_at (Z.lor (Z.shiftl w 32) w) j = byte_at w j /\
  byte_at (Z.lor (Z.shiftl w 32) w) (4 + j) = byte_at w j.
Proof.
  intros Hw Hj. split; apply Z.bits_inj'; intros i Hi; rewrite !testbit_byte_at by lia;
    (destruct (Z.ltb_spec i 8); [cbn [andb]|done]); rewrite Z.lor_spec, Z.shiftl_spec by lia.
  - by rewrite (Z.testbit_neg_r w (_ - 32)) by lia.
  - rewrite (testbit_lt w 32 (8 * Z.of_nat (4 + j) + i)) by (done || lia).
    rewrite orb_false_r. f_equal. lia.
Qed.

(** The 64-bit mask [mask << 32 | mask] is the 32-bit mask twice in memory. *)
Lemma word_bytes_double big w :
  is_u32 w ->
  word_bytes big 8 (Z.lor (Z.shiftl w 32) w) = word_bytes big 4 w ++ word_bytes big 4 w.
Proof.
  intros Hw.
  assert (le_bytes 8 (Z.lor (Z.shiftl w 32) w) = le_bytes 4 w ++ le_bytes 4 w) as Hle.
  { unfold le_bytes. cbn [seq map app].
    destruct (byte_at_double w 0 Hw) as [H1 H2], (byte_at_double w 1 Hw) as [H3 H4],
      (byte_at_double w 2 Hw) as [H5 H6], (byte_at_double w 3 Hw) as [H7 H8]; try lia.
    cbn [Nat.add] in *. by rewrite H1, H2, H3, H4, H5, H6, H7, H8. }
  unfold word_bytes. destruct big; rewrite Hle; [apply rev_app_distr|done].
Qed.

Lemma bits_bound w n :
  0 <= n -> (forall i, n <= i -> Z.testbit w i = false) -> 0 <= w < 2 ^ n.
Proof.
  intros Hn Hb. replace w with (Z.land w (Z.ones n)).
  - rewrite Z.land_ones by done. apply Z.mod_pos_bound. lia.
  - apply Z.bits_inj'. intros i Hi. rewrite Z.land_spec. destruct (decide (i < n)).
    + by rewrite Z.ones_spec_low, andb_true_r by lia.
    + by rewrite Z.ones_spec_high, andb_false_r, Hb by lia.
Qed.

Lemma u32_rotate_right_u32 w k : is_u32 w -> 0 < k < 32 -> is_u32 (u32_rotate_right w k).
Proof.
  intros Hw Hk. apply bits_bound; [lia|]. intros i Hi. unfold u32_rotate_right.
  rewrite Z.lor_spec, Z.land_spec, Z.shiftr_spec, Z.ones_spec_high, andb_false_r by lia.
  by rewrite (testbit_lt w 32) by (done || lia).
Qed.

Lemma u32_rotate_left_u32 w k : is_u32 w -> 0 < k < 32 -> is_u32 (u32_rotate_left w k).
Proof.
  intros Hw Hk. apply bits_bound; [lia|]. intros i Hi. unfold u32_rotate_left.
  rewrite Z.lor_spec, Z.land_spec, Z.shiftr_spec, Z.ones_spec_high, andb_false_r by lia.
  by rewrite (testbit_lt w 32) by (done || lia).
Qed.
