(* ===== verification/StrLib.v ===== *)
(** * The string functions of the Rust standard library the server core uses

    Strings are the bytes of their UTF-8 encoding.  [to_lowercase] and [trim] are
    given for ASCII text, which is what [HeaderValue::to_str] lets through;
    UTF-8 validation and lossy decoding follow the standard library. *)
From S2P Require Import Prelude.
Open Scope Z_scope.

(** [str::to_lowercase] on ASCII text. *)
Definition lower_byte (b : Z) : Z := if (65 <=? b) && (b <=? 90) then b + 32 else b.
Definition to_lowercase (s : bytes) : bytes := map lower_byte s.

Fixpoint starts_with (p s : bytes) : bool :=
  match p, s with
  | [], _ => true
  | a :: p, b :: s => (a =? b) && starts_with p s
  | _ :: _, [] => false
  end.

(** [str::contains] of a string. *)
Fixpoint contains (s p : bytes) : bool :=
  starts_with p s ||
  match s with
  | [] => false
  | _ :: s => contains s p
  end.

(** [str::split] on one character: never empty. *)
Fixpoint split_on (sep : Z) (s : bytes) : list bytes :=
  match s with
  | [] => [[]]
  | b :: s =>
      if b =? sep then [] :: split_on sep s
      else match split_on sep s with
           | [] => [[b]]
           | w :: ws => (b :: w) :: ws
           end
  end.

(** White space of [str::trim] among ASCII characters. *)
Definition is_space (b : Z) : bool := (b =? 32) || ((9 <=? b) && (b <=? 13)).
Fixpoint trim_left (s : bytes) : bytes :=
  match s with
  | b :: s' => if is_space b then trim_left s' else s
  | [] => []
  end.
Definition trim (s : bytes) : bytes := rev (trim_left (rev (trim_left s))).

(** [str::trim_right_matches] of one character. *)
Fixpoint strip_left (c : Z) (s : bytes) : bytes :=
  match s with
  | b :: s' => if b =? c then strip_left c s' else s
  | [] => []
  end.
Definition trim_right_matches (c : Z) (s : bytes) : bytes := rev (strip_left c (rev s)).

(** [str::parse::<u64>]: an optional ['+'], then decimal digits without overflow. *)
Fixpoint parse_digits (acc : Z) (s : bytes) : option Z :=
  match s with
  | [] => Some acc
  | b :: s =>
      if (48 <=? b) && (b <=? 57) then
        let acc := acc * 10 + (b - 48) in
        if acc <? 2 ^ 64 then parse_digits acc s else None
      else None
  end.
Definition parse_u64 (s : bytes) : option Z :=
  let digits := match s with 43 :: s => s | _ => s end in
  match digits with [] => None | _ => parse_digits 0 digits end.

(** Decimal and upper-case hexadecimal formatting. *)
Definition digit_char (d : Z) : Z := if d <? 10 then 48 + d else 55 + d.
Fixpoint to_radix (fuel : nat) (radix n : Z) (acc : bytes) : bytes :=
  match fuel with
  | O => acc
  | S fuel =>
      let acc := digit_char (n mod radix) :: acc in
      if n <? radix then acc else to_radix fuel radix (n / radix) acc
  end.
Definition format_decimal (n : Z) : bytes := to_radix (S (Z.to_nat (Z.log2 n))) 10 n [].
Definition format_hex (n : Z) : bytes := to_radix (S (Z.to_nat (Z.log2 n))) 16 n [].

(** ** UTF-8 *)

Definition cont_byte (b : Z) : bool := (128 <=? b) && (b <=? 191).

(** The first character of [s]: [inl n] for a valid character of [n] bytes, [inr n]
    for an ill-formed sequence whose maximal prefix has [n] bytes. *)
Definition utf8_step (s : bytes) : nat + nat :=
  let at_ i := nth i s (-1) in
  let b := at_ 0%nat in
  let two lo hi := (lo <=? at_ 1%nat) && (at_ 1%nat <=? hi) in
  let three := cont_byte (at_ 2%nat) in
  let four := cont_byte (at_ 3%nat) in
  let seq3 lo hi := if two lo hi then if three then inl 3%nat else inr 2%nat else inr 1%nat in
  let seq4 lo hi :=
    if two lo hi then if three then if four then inl 4%nat else inr 3%nat else inr 2%nat
    else inr 1%nat in
  if b <? 128 then inl 1%nat
  else if (0xC2 <=? b) && (b <=? 0xDF) then if two 0x80 0xBF then inl 2%nat else inr 1%nat
  else if b =? 0xE0 then seq3 0xA0 0xBF
  else if ((0xE1 <=? b) && (b <=? 0xEC)) || ((0xEE <=? b) && (b <=? 0xEF)) then seq3 0x80 0xBF
  else if b =? 0xED then seq3 0x80 0x9F
  else if b =? 0xF0 then seq4 0x90 0xBF
  else if (0xF1 <=? b) && (b <=? 0xF3) then seq4 0x80 0xBF
  else if b =? 0xF4 then seq4 0x80 0x8F
  else inr 1%nat.

(** [String::from_utf8]. *)
Fixpoint utf8_valid (fuel : nat) (s : bytes) : bool :=
  match fuel with
  | O => true
  | S fuel =>
      match s with
      | [] => true
      | _ => match utf8_step s with
             | inl n => utf8_valid fuel (drop n s)
             | inr _ => false
             end
      end
  end.
Definition from_utf8 (s : bytes) : option bytes :=
  if utf8_valid (length s) s then Some s else None.

(** [String::from_utf8_lossy]: each ill-formed sequence becomes U+FFFD. *)
Fixpoint utf8_lossy (fuel : nat) (s : bytes) : bytes :=
  match fuel with
  | O => []
  | S fuel =>
      match s with
      | [] => []
      | _ => match utf8_step s with
             | inl n => take n s ++ utf8_lossy fuel (drop n s)
             | inr n => [0xEF; 0xBF; 0xBD] ++ utf8_lossy fuel (drop n s)
             end
      end
  end.
Definition from_utf8_lossy (s : bytes) : bytes := utf8_lossy (length s) s.

(** ** Lemmas *)

Lemma utf8_step_pos s : match utf8_step s with inl n | inr n => (0 < n)%nat end.
Proof. unfold utf8_step. repeat case_match; simplify_eq; lia. Qed.

(** On well-formed text lossy decoding is the identity. *)
Lemma from_utf8_lossy_valid s t : from_utf8 s = Some t -> from_utf8_lossy s = t.
Proof.
  unfold from_utf8, from_utf8_lossy. destruct (utf8_valid (length s) s) eqn:Hv; [|done].
  intros ?; simplify_eq.
  assert (forall fuel s, (length s <= fuel)%nat -> utf8_valid fuel s = true ->
    utf8_lossy fuel s = s) as Hgen; [|by apply Hgen].
  clear. induction fuel as [|fuel IH]; intros s Hl Hv; simpl in *.
  - destruct s; simpl in *; [done|lia].
  - destruct s as [|b s]; [done|]. pose proof (utf8_step_pos (b :: s)) as Hp.
    destruct (utf8_step (b :: s)) as [n|n]; [|done].
    rewrite IH; [apply take_drop| |done]. rewrite length_drop. simpl in *. lia.
Qed.

Lemma starts_with_app p s : starts_with p s = true <-> exists r, s = p ++ r.
Proof.
  revert s. induction p as [|a p IH]; intros s; simpl; [naive_solver|].
  destruct s as [|b s]; [split; [done|by intros []]|].
  rewrite andb_true_iff, Z.eqb_eq, IH. split.
  - intros [-> [r ->]]. by exists r.
  - intros [r ?]; simplify_eq/=. eauto.
Qed.

(** [split] and joining with the separator are inverse. *)
Fixpoint join (sep : Z) (ws : list bytes) : bytes :=
  match ws with
  | [] => []
  | [w] => w
  | w :: ws => w ++ sep :: join sep ws
  end.

Lemma split_on_nonempty sep s : split_on sep s <> [].
Proof. destruct s; simpl; [done|]. repeat case_match; done. Qed.

Lemma join_split sep s : join sep (split_on sep s) = s.
Proof.
  induction s as [|b s IH]; [done|]. simpl. pose proof (split_on_nonempty sep s) as Hne.
  destruct (Z.eqb_spec b sep) as [->|].
  - destruct (split_on sep s) as [|w ws]; [done|].
    change (join sep ([] :: w :: ws)) with (sep :: join sep (w :: ws)). by rewrite IH.
  - destruct (split_on sep s) as [|w [|w' ws]]; [done|..]; simpl in *; by rewrite IH.
Qed.

Lemma split_on_join sep ws :
  ws <> [] -> Forall (fun w => sep ∉ w) ws -> split_on sep (join sep ws) = ws.
Proof.
  intros Hn Hf. induction ws as [|w ws IH]; [done|]. inversion Hf as [|? ? Hw Hf']; subst.
  assert (forall s, split_on sep (w ++ sep :: s) = w :: split_on sep s) as Hsep.
  { intros s. clear -Hw. induction w as [|b w IHw]; simpl.
    - by rewrite Z.eqb_refl.
    - apply not_elem_of_cons in Hw as [Hb Hw]. rewrite IHw by done.
      by rewrite (proj2 (Z.eqb_neq b sep)) by done. }
  destruct ws as [|w' ws].
  - simpl. clear -Hw. induction w as [|b w IHw]; [done|]. apply not_elem_of_cons in Hw as [Hb Hw].
    simpl. rewrite IHw by done. by rewrite (proj2 (Z.eqb_neq b sep)) by done.
  - change (join sep (w :: w' :: ws)) with (w ++ sep :: join sep (w' :: ws)). by rewrite Hsep, IH.
Qed.
Lemma split_on_no_sep sep s : Forall (fun w => sep ∉ w) (split_on sep s).
Proof.
  induction s as [|b s IH]; simpl; [constructor; [set_solver|done]|].
  destruct (Z.eqb_spec b sep) as [->|]; [constructor; [set_solver|done]|].
  destruct (split_on sep s) as [|w ws]; [constructor; [set_solver|done]|].
  inversion_clear IH. constructor; [set_solver|done].
Qed.

(** ** Numerals *)
Definition from_digits (radix : Z) (ds : list Z) : Z := foldl (fun a d => a * radix + d) 0 ds.

Lemma to_radix_digits fuel radix n acc :
  2 <= radix -> 0 <= n < radix ^ Z.of_nat (S fuel) ->
  exists ds, to_radix (S fuel) radix n acc = map digit_char ds ++ acc /\
    Forall (fun d => 0 <= d < radix) ds /\ from_digits radix ds = n /\ ds <> [].
Proof.
  intros Hr. revert n acc. induction fuel as [|fuel IH]; intros n acc Hn.
  - exists [n mod radix]. rewrite Z.pow_1_r in Hn. cbn [to_radix].
    rewrite (proj2 (Z.ltb_lt _ _)), Z.mod_small by lia. unfold from_digits. simpl.
    split_and!; [done|apply Forall_singleton; lia|lia|done].
  - change (to_radix (S (S fuel)) radix n acc) with
      (if n <? radix then digit_char (n mod radix) :: acc
       else to_radix (S fuel) radix (n / radix) (digit_char (n mod radix) :: acc)).
    pose proof (Z.mod_pos_bound n radix ltac:(lia)).
    destruct (Z.ltb_spec n radix).
    + exists [n mod radix]. rewrite Z.mod_small by lia. unfold from_digits. simpl.
      split_and!; [done|apply Forall_singleton; lia|lia|done].
    + destruct (IH (n / radix) (digit_char (n mod radix) :: acc)) as (ds & -> & Hds & Hv & Hne).
      { split; [apply Z.div_pos; lia|]. apply Z.div_lt_upper_bound; [lia|].
        rewrite <-Z.pow_succ_r by lia. replace (Z.succ _) with (Z.of_nat (S (S fuel))) by lia. lia. }
      exists (ds ++ [n mod radix]). rewrite map_app, <-app_assoc. split; [done|].
      split; [apply Forall_app; split; [done|by constructor]|].
      split; [|by destruct ds]. unfold from_digits in *. rewrite foldl_app. simpl. rewrite Hv.
      rewrite (Z.div_mod n radix) at 3 by lia. lia.
Qed.

(** The fuel [1 + log2 n] of the formatters covers every digit. *)
Lemma format_digits radix n :
  2 <= radix -> 0 <= n ->
  exists ds, to_radix (S (Z.to_nat (Z.log2 n))) radix n [] = map digit_char ds /\
    Forall (fun d => 0 <= d < radix) ds /\ from_digits radix ds = n /\ ds <> [].
Proof.
  intros Hr Hn. destruct (to_radix_digits (Z.to_nat (Z.log2 n)) radix n []) as (ds & He & ?); [done| |].
  - split; [done|]. pose proof (Z.log2_nonneg n). destruct (decide (n = 0)) as [->|].
    { apply Z.pow_pos_nonneg; lia. }
    apply Z.lt_le_trans with (2 ^ Z.succ (Z.log2 n)); [apply Z.log2_spec; lia|].
    replace (Z.of_nat _) with (Z.succ (Z.log2 n)) by lia. apply Z.pow_le_mono_l. lia.
  - rewrite app_nil_r in He. eauto.
Qed.

Lemma digit_char_decimal d : 0 <= d < 10 -> digit_char d = 48 + d.
Proof. intros. unfold digit_char. by rewrite (proj2 (Z.ltb_lt _ _)) by lia. Qed.

Lemma parse_digits_app acc ds :
  0 <= acc -> Forall (fun d => 0 <= d < 10) ds -> foldl (fun a d => a * 10 + d) acc ds < 2 ^ 64 ->
  parse_digits acc (map digit_char ds) = Some (foldl (fun a d => a * 10 + d) acc ds).
Proof.
  revert acc. induction ds as [|d ds IH]; intros acc Ha Hds Hv; [done|].
  inversion_clear Hds as [|? ? Hd Hds']. cbn [map parse_digits foldl] in *.
  rewrite digit_char_decimal by done. rewrite (proj2 (Z.leb_le 48 _)), (proj2 (Z.leb_le _ 57)) by lia.
  cbn [andb]. replace (48 + d - 48) with d by lia.
  assert (forall b, 0 <= b -> b <= foldl (fun a d => a * 10 + d) b ds) as Hmono.
  { clear -Hds'. induction Hds' as [|d ds Hd Hds IH]; intros b Hb; [done|]. simpl.
    specialize (IH (b * 10 + d)). lia. }
  specialize (Hmono (acc * 10 + d)). rewrite (proj2 (Z.ltb_lt _ _)) by lia. by apply IH; [lia|..].
Qed.

(** Decimal formatting and parsing are inverse on [u64]. *)
Lemma parse_format_digits n :
  0 <= n < 2 ^ 64 ->
  match format_decimal n with [] => None | _ => parse_digits 0 (format_decimal n) end = Some n.
Proof.
  intros Hn. unfold format_decimal.
  destruct (format_digits 10 n) as (ds & -> & Hds & Hv & Hne); [lia..|].
  unfold from_digits in Hv. destruct ds as [|d ds]; [done|].
  rewrite <-Hv at 1. apply parse_digits_app; [lia|done|lia].
Qed.

Lemma parse_format_u64 n : 0 <= n < 2 ^ 64 -> parse_u64 (format_decimal n) = Some n.
Proof.
  intros Hn. pose proof (parse_format_digits n Hn) as Hp. unfold parse_u64.
  assert (forall b s, format_decimal n = b :: s -> b <> 43) as Hno.
  { unfold format_decimal. destruct (format_digits 10 n) as (ds & -> & Hds & _ & _); [lia..|].
    intros b s Hb. destruct Hds as [|d ds Hd _]; simplify_eq/=. rewrite digit_char_decimal by done. lia. }
  destruct (format_decimal n) as [|b s]; [done|]. specialize (Hno b s eq_refl).
  replace (match b with 43 => s | _ => b :: s end) with (b :: s); [done|].
  destruct b as [|q|q]; [done| |done]. repeat (destruct q as [q|q|]; try done).
Qed.

(** ** Decimal digits one at a time *)
Lemma parse_digits_bounds acc s n :
  0 <= acc < 2 ^ 64 -> parse_digits acc s = Some n -> 0 <= n < 2 ^ 64.
Proof.
  revert acc. induction s as [|b s IH]; intros acc Ha Hn; cbn [parse_digits] in Hn; [by simplify_eq|].
  destruct (_ && _) eqn:Hb; [|done]. apply andb_true_iff in Hb as [?%Z.leb_le _].
  destruct (Z.ltb_spec (acc * 10 + (b - 48)) (2 ^ 64)); [|done].
  eapply IH; [|exact Hn]. lia.
Qed.

Lemma parse_u64_bounds s n : parse_u64 s = Some n -> 0 <= n < 2 ^ 64.
Proof.
  unfold parse_u64. intros Hn. destruct (match s with 43 :: s => s | _ => s end); [done|].
  by apply parse_digits_bounds in Hn.
Qed.

Lemma to_radix_acc fuel radix n acc : to_radix fuel radix n acc = to_radix fuel radix n [] ++ acc.
Proof.
  revert n acc. induction fuel as [|fuel IH]; intros n acc; [done|]. simpl.
  destruct (n <? radix); [done|]. rewrite IH, (IH _ [_]), <-app_assoc. done.
Qed.

Lemma to_radix_fuel fuel fuel' radix n acc :
  2 <= radix -> 0 <= n -> n < radix ^ Z.of_nat (S fuel) -> n < radix ^ Z.of_nat (S fuel') ->
  to_radix (S fuel) radix n acc = to_radix (S fuel') radix n acc.
Proof.
  intros Hr. assert (forall f n, 0 <= n -> n < radix ^ Z.of_nat (S (S f)) ->
    n / radix < radix ^ Z.of_nat (S f)) as Hdiv.
  { intros f m Hm Hlt. apply Z.div_lt_upper_bound; [lia|]. rewrite <-Z.pow_succ_r by lia.
    by replace (Z.succ (Z.of_nat (S f))) with (Z.of_nat (S (S f))) by lia. }
  assert (forall m, 0 <= m -> m < radix ^ Z.of_nat 1 -> (m <? radix) = true) as Hone.
  { intros m _ Hm. rewrite Z.pow_1_r in Hm. by apply Z.ltb_lt. }
  revert fuel' n acc. induction fuel as [|fuel IH]; intros fuel' n acc Hn Hf Hf'.
  - simpl. rewrite (Hone n) by done. done.
  - destruct fuel' as [|fuel'].
    + cbn [to_radix]. by rewrite (Hone n).
    + change (to_radix (S (S fuel)) radix n acc) with
        (if n <? radix then digit_char (n mod radix) :: acc
         else to_radix (S fuel) radix (n / radix) (digit_char (n mod radix) :: acc)).
      change (to_radix (S (S fuel')) radix n acc) with
        (if n <? radix then digit_char (n mod radix) :: acc
         else to_radix (S fuel') radix (n / radix) (digit_char (n mod radix) :: acc)).
      destruct (n <? radix); [done|]. apply IH; [apply Z.div_pos; lia|by apply Hdiv..].
Qed.

Lemma log2_fuel n : 0 <= n -> n < 10 ^ Z.of_nat (S (Z.to_nat (Z.log2 n))).
Proof.
  intros Hn. pose proof (Z.log2_nonneg n). destruct (decide (n = 0)) as [->|]; [by vm_compute|].
  apply Z.lt_le_trans with (2 ^ Z.succ (Z.log2 n)); [apply Z.log2_spec; lia|].
  replace (Z.of_nat _) with (Z.succ (Z.log2 n)) by lia. apply Z.pow_le_mono_l. lia.
Qed.

Lemma format_decimal_digit n : 0 <= n < 10 -> format_decimal n = [48 + n].
Proof.
  intros Hn. unfold format_decimal. cbn [to_radix]. rewrite (proj2 (Z.ltb_lt n 10)) by lia.
  rewrite Z.mod_small, digit_char_decimal by lia. done.
Qed.

Lemma format_decimal_step n :
  10 <= n -> format_decimal n = format_decimal (n / 10) ++ [48 + n mod 10].
Proof.
  intros Hn. unfold format_decimal. cbn [to_radix]. rewrite (proj2 (Z.ltb_ge n 10)) by lia.
  pose proof (Z.mod_pos_bound n 10 ltac:(lia)). rewrite digit_char_decimal by lia.
  assert (1 <= Z.log2 n) as Hl by (apply Z.log2_le_pow2; simpl; lia).
  assert (0 < n / 10) as Hd by (apply Z.div_str_pos; lia).
  destruct (Z.to_nat (Z.log2 n)) as [|k] eqn:Hk; [lia|].
  rewrite to_radix_acc. f_equal. apply to_radix_fuel; [lia|lia| |apply log2_fuel; lia].
  apply Z.div_lt_upper_bound; [lia|]. rewrite <-Z.pow_succ_r by lia.
  pose proof (log2_fuel n ltac:(lia)) as Hf. rewrite Hk in Hf.
  by replace (Z.succ (Z.of_nat (S k))) with (Z.of_nat (S (S k))) by lia.
Qed.

(** The two digits of a number below 100. *)
Definition dec_pair (d : Z) : bytes := [48 + d / 10; 48 + d mod 10].

Lemma format_decimal_pair n :
  100 <= n -> format_decimal n = format_decimal (n / 100) ++ dec_pair (n mod 100).
Proof.
  intros Hn. rewrite format_decimal_step by lia.
  assert (10 <= n / 10) by (apply Z.div_le_lower_bound; lia). rewrite format_decimal_step by done.
  rewrite Z.div_div by lia. change (10 * 10) with 100. rewrite <-app_assoc. f_equal.
  unfold dec_pair. simpl. f_equal; [|f_equal].
  - f_equal. pose proof (Z.div_mod n 10). pose proof (Z.div_mod n 100). pose proof (Z.mod_pos_bound n 10).
    pose proof (Z.mod_pos_bound n 100). pose proof (Z.div_mod (n / 10) 10).
    pose proof (Z.mod_pos_bound (n / 10) 10). rewrite Z.div_div in * by lia. simpl in *.
    pose proof (Z.div_mod (n mod 100) 10). pose proof (Z.mod_pos_bound (n mod 100) 10). lia.
  - f_equal. rewrite <-(Z.mod_mod_divide n 100 10) at 1; [done|]. by exists 10.
Qed.

Lemma format_decimal_two n : 10 <= n < 100 -> format_decimal n = dec_pair n.
Proof.
  intros Hn. rewrite format_decimal_step, format_decimal_digit; [done| |lia].
  split; [apply Z.div_pos; lia|]. apply Z.div_lt_upper_bound; lia.
Qed.
