(* ===== verification/Errors.v ===== *)
(** * Errors of the server core (src/src/error.rs)

    The error enumerations that the modelled components return, the [From]
    conversions between them and the status code of the response each of them
    renders to ([ResponseError::error_response]). *)
From S2P Require Import Prelude.

(** [std::io::ErrorKind]: the kinds the server core tests for, and the rest. *)
Inductive ErrorKind : Type :=
| NotFound
| PermissionDenied
| WouldBlock
| InvalidInput
| WriteZero
| ConnectionRefused
| ConnectionAborted
| ConnectionReset
| OtherKind
| UnlistedKind (code : nat).

(** [std::io::Error]: its kind and its message. *)
Record IoError : Type := mkIoError { io_kind : ErrorKind; io_msg : string }.

Inductive PayloadError : Type :=
| PE_Incomplete
| PE_EncodingCorrupted
| PE_Overflow
| PE_UnknownLength
| PE_Io (e : IoError)
| PE_Http2 (code : nat).

Inductive ParseError : Type :=
| ParseE_Method
| ParseE_Uri (code : nat)
| ParseE_Version
| ParseE_Header
| ParseE_TooLarge
| ParseE_Incomplete
| ParseE_Status
| ParseE_Timeout
| ParseE_Io (e : IoError)
| ParseE_Utf8 (code : nat).

(** [httparse::Error], an external enumeration the source matches on. *)
Inductive HttparseError : Type :=
| Hp_HeaderName
| Hp_HeaderValue
| Hp_NewLine
| Hp_Token
| Hp_Status
| Hp_TooManyHeaders
| Hp_Version.

Inductive MultipartError : Type :=
| ME_NoContentType
| ME_ParseContentType
| ME_Boundary
| ME_Incomplete
| ME_Parse (e : ParseError)
| ME_Payload (e : PayloadError).

Inductive UriSegmentError : Type :=
| BadStart (c : Z)
| BadChar (c : Z)
| BadEnd (c : Z).

Inductive UrlGenerationError : Type :=
| ResourceNotFound
| NotEnoughElements
| RouterNotAvailable
| UrlParseError (code : nat).

#[export] Instance ErrorKind_eq_dec : EqDecision ErrorKind.
Proof. solve_decision. Defined.
#[export] Instance IoError_eq_dec : EqDecision IoError.
Proof. solve_decision. Defined.
#[export] Instance PayloadError_eq_dec : EqDecision PayloadError.
Proof. solve_decision. Defined.
#[export] Instance ParseError_eq_dec : EqDecision ParseError.
Proof. solve_decision. Defined.
#[export] Instance MultipartError_eq_dec : EqDecision MultipartError.
Proof. solve_decision. Defined.
#[export] Instance UriSegmentError_eq_dec : EqDecision UriSegmentError.
Proof. solve_decision. Defined.

(** The [From] conversions applied by [?] and [into()]. *)
Definition PayloadError_from_io (e : IoError) : PayloadError := PE_Io e.
Definition ParseError_from_io (e : IoError) : ParseError := ParseE_Io e.
Definition ParseError_from_httparse (e : HttparseError) : ParseError :=
  match e with
  | Hp_HeaderName | Hp_HeaderValue | Hp_NewLine | Hp_Token => ParseE_Header
  | Hp_Status => ParseE_Status
  | Hp_TooManyHeaders => ParseE_TooLarge
  | Hp_Version => ParseE_Version
  end.
Definition MultipartError_from_parse (e : ParseError) : MultipartError := ME_Parse e.
Definition MultipartError_from_payload (e : PayloadError) : MultipartError := ME_Payload e.

(** The trait [ResponseError], reduced to the status code of the response; the
    default method answers 500. *)
Class ResponseError (E : Type) := error_status : E -> Z.

#[export] Instance ResponseError_io : ResponseError IoError := fun e =>
  match io_kind e with
  | NotFound => 404%Z
  | PermissionDenied => 403%Z
  | _ => 500%Z
  end.
#[export] Instance ResponseError_parse : ResponseError ParseError := fun _ => 400%Z.
#[export] Instance ResponseError_payload : ResponseError PayloadError := fun _ => 500%Z.
#[export] Instance ResponseError_multipart : ResponseError MultipartError := fun _ => 400%Z.
#[export] Instance ResponseError_segment : ResponseError UriSegmentError := fun _ => 400%Z.
#[export] Instance ResponseError_url : ResponseError UrlGenerationError := fun _ => 500%Z.
