(* ===== verification/Http.v ===== *)
(** * HTTP messages (src/src/httprequest.rs [HttpInnerMessage], src/src/server/helpers.rs
      [SharedMessagePool], src/src/httpmessage.rs, src/src/header/mod.rs)

    The parsed request head, the header map it is kept in (an interface: the
    [http] crate is external), the decisions taken from its headers, and the pool
    that recycles request heads. *)
From S2P Require Import Prelude StrLib Errors.
Open Scope Z_scope.

(** [http::Version], in its order. *)
Inductive Version : Type := HTTP_09 | HTTP_10 | HTTP_11 | HTTP_2.
Definition version_rank (v : Version) : Z :=
  match v with HTTP_09 => 0 | HTTP_10 => 1 | HTTP_11 => 2 | HTTP_2 => 3 end.
#[export] Instance Version_eq_dec : EqDecision Version.
Proof. solve_decision. Defined.

(** The first value of a name in a list of headers. *)
Fixpoint alist_lookup (k : bytes) (h : list (bytes * bytes)) : option bytes :=
  match h with
  | [] => None
  | (k', v) :: h => if decide (k' = k) then Some v else alist_lookup k h
  end.

(** ** The [http] crate's header map

    Names are lower-case byte strings; [get] answers the first value, [insert]
    replaces all values of a name and [append] adds one; [to_str] refuses values
    with bytes other than visible ASCII. *)
Class HeaderMap (H : Type) := {
  hm_empty : H;
  hm_get : bytes -> H -> option bytes;
  hm_contains : bytes -> H -> bool;
  hm_insert : bytes -> bytes -> H -> H;
  hm_append : bytes -> bytes -> H -> H;
  hm_remove : bytes -> H -> H;
  hm_iter : H -> list (bytes * bytes);
  hv_to_str : bytes -> option bytes;
  hm_get_empty k : hm_get k hm_empty = None;
  hm_contains_get k h : hm_contains k h = bool_decide (is_Some (hm_get k h));
  hm_get_insert k v h k' :
    hm_get k' (hm_insert k v h) = if decide (k = k') then Some v else hm_get k' h;
  hm_get_append k v h k' :
    hm_get k' (hm_append k v h) =
      if decide (k = k') then Some (default v (hm_get k h)) else hm_get k' h;
  hm_get_remove k h k' :
    hm_get k' (hm_remove k h) = if decide (k = k') then None else hm_get k' h;
  hm_get_iter k h : hm_get k h = alist_lookup k (hm_iter h);
  hm_iter_insert k v h k' : k <> k' ->
    filter (fun kv => kv.1 = k') (hm_iter (hm_insert k v h)) = filter (fun kv => kv.1 = k') (hm_iter h);
  hv_to_str_id v s : hv_to_str v = Some s -> s = v;
}.

(** [get_all]: the values of a header, in order. *)
Definition values (k : bytes) (hs : list (bytes * bytes)) : list bytes :=
  map snd (filter (fun kv : bytes * bytes => kv.1 = k) hs).
Definition get_all {H} `{HeaderMap H} (k : bytes) (h : H) : list bytes := values k (hm_iter h).
Lemma hm_get_all {H} `{HeaderMap H} k h : hm_get k h = head (get_all k h).
Proof.
  rewrite hm_get_iter. unfold get_all, values. induction (hm_iter h) as [|[k' v] l IH]; [done|].
  cbn [alist_lookup]. rewrite filter_cons. simpl. by case_decide.
Qed.
Lemma get_all_insert {H} `{HeaderMap H} k v h k' : k <> k' -> get_all k' (hm_insert k v h) = get_all k' h.
Proof. intros Hk. unfold get_all, values. by rewrite hm_iter_insert. Qed.
Lemma values_app k hs hs' : values k (hs ++ hs') = values k hs ++ values k hs'.
Proof. unfold values. by rewrite filter_app, map_app. Qed.
Lemma values_cons k k' v hs : values k ((k', v) :: hs) = (if decide (k' = k) then [v] else []) ++ values k hs.
Proof. unfold values. rewrite filter_cons. simpl. by case_decide. Qed.

Definition CONNECTION : bytes := b#"connection".
Definition UPGRADE : bytes := b#"upgrade".
Definition TRANSFER_ENCODING : bytes := b#"transfer-encoding".
Definition CONTENT_LENGTH : bytes := b#"content-length".
Definition CONTENT_ENCODING : bytes := b#"content-encoding".
Definition CONTENT_TYPE : bytes := b#"content-type".
Definition SEC_WEBSOCKET_VERSION : bytes := b#"sec-websocket-version".
Definition SEC_WEBSOCKET_KEY : bytes := b#"sec-websocket-key".
Definition SEC_WEBSOCKET_ACCEPT : bytes := b#"sec-websocket-accept".
Definition DATE : bytes := b#"date".

(** Methods by name. *)
Definition GET : bytes := b#"GET".
Definition HEAD : bytes := b#"HEAD".
Definition CONNECT : bytes := b#"CONNECT".

(** [enum RouterResource]. *)
Inductive RouterResource : Type := Notset | Normal (idx : Z).

Section Messages.
Context {H : Type} `{HeaderMap H}.

(** The extensions, cookies, peer address and connection info are opaque to the
    server core; the payload is a handle on a channel. *)
Record HttpInnerMessage : Type := mkMsg {
  msg_version : Version;
  msg_method : bytes;
  msg_uri : bytes;
  msg_headers : H;
  msg_extensions : list nat;
  msg_params : list (bytes * bytes);
  msg_cookies : option (list bytes);
  msg_query : list (bytes * bytes);
  msg_query_loaded : bool;
  msg_addr : option nat;
  msg_payload : option nat;
  msg_info : option nat;
  msg_resource : RouterResource;
}.

Definition HttpInnerMessage_default : HttpInnerMessage :=
  {| msg_version := HTTP_11; msg_method := GET; msg_uri := b#"/"; msg_headers := hm_empty;
     msg_extensions := []; msg_params := []; msg_cookies := None; msg_query := [];
     msg_query_loaded := false; msg_addr := None; msg_payload := None; msg_info := None;
     msg_resource := Notset |}.

(** Checks if a connection should be kept alive. *)
Definition msg_keep_alive (m : HttpInnerMessage) : bool :=
  match hm_get CONNECTION (msg_headers m) with
  | Some conn =>
      match hv_to_str conn with
      | Some conn =>
          if bool_decide (msg_version m = HTTP_10) && contains conn (b#"keep-alive") then true
          else bool_decide (msg_version m = HTTP_11)
               && negb (contains conn (b#"close") || contains conn (b#"upgrade"))
      | None => false
      end
  | None => negb (bool_decide (msg_version m = HTTP_10))
  end.

Definition msg_reset (m : HttpInnerMessage) : HttpInnerMessage :=
  {| msg_version := msg_version m; msg_method := msg_method m; msg_uri := msg_uri m;
     msg_headers := hm_empty; msg_extensions := []; msg_params := []; msg_cookies := None;
     msg_query := []; msg_query_loaded := false; msg_addr := None; msg_payload := None;
     msg_info := None; msg_resource := Notset |}.

(** [HttpRequest::upgrade]. *)
Definition req_upgrade (m : HttpInnerMessage) : bool :=
  match (conn ← hm_get CONNECTION (msg_headers m); hv_to_str conn) with
  | Some s => contains (to_lowercase s) (b#"upgrade")
  | None => bool_decide (msg_method m = CONNECT)
  end.

(** [chunked] of src/src/server/h1.rs and [HttpMessage::chunked]. *)
Definition chunked (headers : H) : result bool ParseError :=
  match hm_get TRANSFER_ENCODING headers with
  | Some encodings =>
      match hv_to_str encodings with
      | Some s => Ok (contains (to_lowercase s) (b#"chunked"))
      | None => Err ParseE_Header
      end
  | None => Ok false
  end.

(** [HttpMessage::content_type]. *)
Definition content_type (headers : H) : bytes :=
  match (v ← hm_get CONTENT_TYPE headers; hv_to_str v) with
  | Some s => trim (default [] (head (split_on 59 s)))
  | None => []
  end.

(** ** The message pool

    [SharedMessagePool]: request heads released by [SharedHttpInnerMessage::drop]
    when it holds the last reference, at most 128 of them. *)
Definition MessagePool : Type := list HttpInnerMessage.

Definition pool_get (p : MessagePool) : HttpInnerMessage * MessagePool :=
  match p with
  | msg :: p => (msg, p)
  | [] => (HttpInnerMessage_default, [])
  end.

Definition pool_release (msg : HttpInnerMessage) (p : MessagePool) : MessagePool :=
  if (length p <? 128)%nat then msg_reset msg :: p else p.

(** [Drop for SharedHttpInnerMessage]: [strong] is the number of references to the
    message, [pooled] whether it came from a pool. *)
Definition shared_message_drop (pooled : bool) (strong : nat) (msg : HttpInnerMessage)
    (p : MessagePool) : MessagePool :=
  if pooled && (strong =? 1)%nat then pool_release msg p else p.

(** A head that carries nothing of an earlier request but the three fields the
    parser overwrites. *)
Definition msg_clean (m : HttpInnerMessage) : Prop :=
  m = {| msg_version := msg_version m; msg_method := msg_method m; msg_uri := msg_uri m;
         msg_headers := hm_empty; msg_extensions := []; msg_params := []; msg_cookies := None;
         msg_query := []; msg_query_loaded := false; msg_addr := None; msg_payload := None;
         msg_info := None; msg_resource := Notset |}.

(** Pools reachable by taking and dropping messages in any state. *)
Inductive pool_reachable : MessagePool -> Prop :=
| pool_new : pool_reachable []
| pool_taken p : pool_reachable p -> pool_reachable (pool_get p).2
| pool_dropped pooled strong msg p :
    pool_reachable p -> pool_reachable (shared_message_drop pooled strong msg p).

Lemma pool_reachable_inv p : pool_reachable p -> Forall msg_clean p /\ (length p <= 128)%nat.
Proof.
  induction 1 as [|p _ [IH1 IH2]|pooled strong msg p _ [IH1 IH2]].
  - split; [constructor|simpl; lia].
  - destruct p; simpl in *; [done|]. inversion_clear IH1. split; [done|lia].
  - unfold shared_message_drop, pool_release.
    destruct (pooled && _); [|done]. destruct (Nat.ltb_spec (length p) 128); [|done].
    split; [by constructor|simpl; lia].
Qed.

(** No state leaks between pooled requests: whatever was done to messages
    before they were dropped, a message taken from the pool has empty headers,
    parameters, query, cookies, extensions and no payload, peer address, connection
    info or resource; and the pool never holds more than 128 messages. *)
Theorem pooled_message_clean (p : MessagePool) :
  pool_reachable p -> msg_clean (pool_get p).1 /\ (length p <= 128)%nat.
Proof.
  intros [Hc Hl]%pool_reachable_inv. split; [|done].
  destruct p; simpl; [done|by inversion Hc].
Qed.
End Messages.
Arguments HttpInnerMessage : clear implicits.
Arguments MessagePool : clear implicits.

(** ** A concrete header map: the list of its entries in order *)
Definition visible_ascii (v : bytes) : bool :=
  forallb (fun b => ((32 <=? b) && (b <? 127)) || (b =? 9)) v.

Lemma alist_lookup_app k h h' :
  alist_lookup k (h ++ h') = match alist_lookup k h with Some v => Some v | None => alist_lookup k h' end.
Proof. induction h as [|[k' v] h IH]; simpl; [done|]. by case_decide. Qed.

Lemma alist_lookup_filter k h k' :
  alist_lookup k' (filter (fun e : bytes * bytes => e.1 <> k) h) =
  if decide (k = k') then None else alist_lookup k' h.
Proof.
  induction h as [|[k0 v] h IH]; [by case_decide|].
  rewrite filter_cons; simpl. destruct (decide (k0 <> k)) as [Hne|Heq]; simpl; rewrite IH;
    repeat case_decide; try done; try congruence.
  destruct Heq; congruence.
Qed.

Lemma alist_lookup_insert k v h k' :
  alist_lookup k' (filter (fun e : bytes * bytes => e.1 <> k) h ++ [(k, v)]) =
  if decide (k = k') then Some v else alist_lookup k' h.
Proof.
  rewrite alist_lookup_app, alist_lookup_filter. simpl.
  repeat case_decide; try done. by destruct (alist_lookup k' h).
Qed.

Lemma alist_lookup_append k v h k' :
  alist_lookup k' (h ++ [(k, v)]) =
  if decide (k = k') then Some (default v (alist_lookup k h)) else alist_lookup k' h.
Proof.
  rewrite alist_lookup_app. simpl. case_decide as Hk; [subst k'|].
  - by destruct (alist_lookup k h).
  - by destruct (alist_lookup k' h).
Qed.

#[export] Instance alist_headers : HeaderMap (list (bytes * bytes)).
Proof.
  refine {|
    hm_empty := [];
    hm_get := alist_lookup;
    hm_contains := fun k h => bool_decide (is_Some (alist_lookup k h));
    hm_insert := fun k v h => filter (fun e : bytes * bytes => e.1 <> k) h ++ [(k, v)];
    hm_append := fun k v h => h ++ [(k, v)];
    hm_remove := fun k h => filter (fun e : bytes * bytes => e.1 <> k) h;
    hm_iter := fun h => h;
    hv_to_str := fun v => if visible_ascii v then Some v else None |}.
  - done.
  - done.
  - apply alist_lookup_insert.
  - apply alist_lookup_append.
  - apply alist_lookup_filter.
  - done.
  - intros k v h k' Hk. rewrite filter_app, list_filter_filter, filter_cons_False, app_nil_r by done.
    apply list_filter_iff. intros [k2 v2]. simpl. naive_solver.
  - intros v s Hs. by destruct (visible_ascii v); simplify_eq/=.
Defined.

Definition used_message : HttpInnerMessage (list (bytes * bytes)) :=
  {| msg_version := HTTP_10; msg_method := HEAD; msg_uri := b#"/secret";
     msg_headers := [(b#"cookie", b#"a=b")]; msg_extensions := [1%nat];
     msg_params := [(b#"id", b#"7")]; msg_cookies := Some [b#"a=b"]; msg_query := [];
     msg_query_loaded := true; msg_addr := Some 3%nat; msg_payload := Some 0%nat;
     msg_info := None; msg_resource := Normal 2 |}.

Lemma pooled_message_clean_witness :
  let p := shared_message_drop true 1 used_message [] in
  msg_headers (pool_get p).1 = [] /\ msg_clean (pool_get p).1.
Proof.
  intros p. split; [reflexivity|].
  refine (proj1 (pooled_message_clean p _)). apply pool_dropped, pool_new.
Defined.
