(* ===== verification/TypedHeaders.v ===== *)
(** * Typed headers (src/src/header)

    Reading and writing of comma-separated headers (header/mod.rs), the forms of
    header that the macro [header!] makes (header/common/mod.rs), and the items that
    occur in them: entity tags, quality values, encodings, character sets, cache
    directives and content ranges.  [str::parse] and [Display] of an item type are the
    class [HeaderItem]. *)
From Stdlib Require Import SpecFloat.
From S2P Require Import Prelude StrLib Errors Http.
Open Scope Z_scope.

(** [FromStr], whose error the callers drop, and [Display]. *)
Class HeaderItem (T : Type) := {
  item_from_str : bytes -> option T;
  item_display : T -> bytes;
}.

(** [str::splitn(2, sep)] when it gives two parts. *)
Fixpoint split_in_two (sep : Z) (s : bytes) : option (bytes * bytes) :=
  match s with
  | [] => None
  | b :: s =>
      if b =? sep then Some ([], s)
      else '(l, r) ← split_in_two sep s; Some (b :: l, r)
  end.
(** [str::rsplitn(2, sep)] when it gives two parts: behind and before the last one. *)
Definition rsplit_in_two (sep : Z) (s : bytes) : option (bytes * bytes) :=
  '(l, r) ← split_in_two sep (rev s); Some (rev l, rev r).

Definition trim_matches (c : Z) (s : bytes) : bytes := trim_right_matches c (strip_left c s).

(** [str::parse::<u32>]. *)
Definition parse_u32 (s : bytes) : option Z :=
  n ← parse_u64 s; if n <? 2 ^ 32 then Some n else None.

(** ** Lists of items (header/mod.rs) *)

Section Lists.
Context {H : Type} `{HeaderMap H} {T : Type} `{HeaderItem T}.

(** The two [filter_map]s over [s.split(',')]. *)
Definition comma_items (s : bytes) : list T :=
  omap (fun x => match trim x with
                 | [] => None
                 | y => item_from_str (trim y)
                 end) (split_on 44 s).

Fixpoint from_comma_delimited (all : list bytes) : result (list T) ParseError :=
  match all with
  | [] => Ok []
  | h :: all =>
      match hv_to_str h with
      | None => Err ParseE_Header
      | Some s =>
          match from_comma_delimited all with
          | Ok rest => Ok (comma_items s ++ rest)
          | Err e => Err e
          end
      end
  end.

Definition from_one_raw_str (val : option bytes) : result T ParseError :=
  match val with
  | Some line =>
      match hv_to_str line with
      | None => Err ParseE_Header
      | Some line =>
          if bool_decide (line <> []) then
            match item_from_str line with Some t => Ok t | None => Err ParseE_Header end
          else Err ParseE_Header
      end
  | None => Err ParseE_Header
  end.

Definition fmt_comma_delimited (parts : list T) : bytes :=
  match parts with
  | [] => []
  | part :: iter => foldl (fun f part => f ++ b#", " ++ item_display part) (item_display part) iter
  end.

(** ** The forms of header (the macro [header!]) *)

(** Zero or more items, and one or more: the parser is the same. *)
Definition list_header_parse (name : bytes) (h : H) : result (list T) ParseError :=
  from_comma_delimited (get_all name h).
(** A single value. *)
Definition one_header_parse (name : bytes) (h : H) : result T ParseError :=
  from_one_raw_str (hm_get name h).

(** Items, or ["*"]. *)
Inductive AnyOr : Type := AO_Any | AO_Items (items : list T).
Definition any_header_parse (name : bytes) (h : H) : result AnyOr ParseError :=
  match (hdr ← hm_get name h; hdr ← hv_to_str hdr; Some (bool_decide (trim hdr = b#"*"))) with
  | Some true => Ok AO_Any
  | _ => match from_comma_delimited (get_all name h) with
         | Ok items => Ok (AO_Items items)
         | Err e => Err e
         end
  end.
Definition any_header_display (a : AnyOr) : bytes :=
  match a with AO_Any => b#"*" | AO_Items fields => fmt_comma_delimited fields end.

End Lists.
Arguments AnyOr T : clear implicits.

(** ** Entity tags (header/shared/entity.rs) *)

Definition etag_char (c : Z) : bool := (c =? 33) || ((35 <=? c) && (c <=? 126)) || (128 <=? c).
Definition check_slice_validity (s : bytes) : bool := forallb etag_char s.

Record EntityTag : Type := mkEtag { et_weak : bool; et_tag : bytes }.
#[export] Instance EntityTag_eq_dec : EqDecision EntityTag.
Proof. solve_decision. Defined.

Definition EntityTag_new (weak : bool) (tag : bytes) : run EntityTag :=
  if check_slice_validity tag then Ret (mkEtag weak tag) else Panic.
Definition EntityTag_weak := EntityTag_new true.
Definition EntityTag_strong := EntityTag_new false.
Definition EntityTag_set_tag (tag : bytes) (e : EntityTag) : run EntityTag :=
  if check_slice_validity tag then Ret (mkEtag (et_weak e) tag) else Panic.
Definition strong_eq (a b : EntityTag) : bool :=
  negb (et_weak a) && negb (et_weak b) && bool_decide (et_tag a = et_tag b).
Definition weak_eq (a b : EntityTag) : bool := bool_decide (et_tag a = et_tag b).
Definition strong_ne (a b : EntityTag) : bool := negb (strong_eq a b).
Definition weak_ne (a b : EntityTag) : bool := negb (weak_eq a b).

Definition EntityTag_display (e : EntityTag) : bytes :=
  if et_weak e then b#"W/" ++ [34] ++ et_tag e ++ [34] else [34] ++ et_tag e ++ [34].

Definition EntityTag_from_str (s : bytes) : option EntityTag :=
  let length := lenZ s in
  if negb (bool_decide (last s = Some 34)) || (length <? 2) then None
  else if (2 <=? length) && starts_with [34] s
          && check_slice_validity (takeZ (length - 2) (dropZ 1 s)) then
    Some (mkEtag false (takeZ (length - 2) (dropZ 1 s)))
  else if (4 <=? length) && starts_with (b#"W/" ++ [34]) s
          && check_slice_validity (takeZ (length - 4) (dropZ 3 s)) then
    Some (mkEtag true (takeZ (length - 4) (dropZ 3 s)))
  else None.

#[export] Instance EntityTag_item : HeaderItem EntityTag :=
  {| item_from_str := EntityTag_from_str; item_display := EntityTag_display |}.

(** [IfMatch], [IfNoneMatch] and [ETag]. *)
Definition IF_MATCH : bytes := b#"if-match".
Definition IF_NONE_MATCH : bytes := b#"if-none-match".
Definition ETAG : bytes := b#"etag".

(** ** Encodings (header/shared/encoding.rs) *)

Inductive Encoding : Type :=
| Chunked | Brotli | Gzip | Deflate | Compress | Identity | Trailers | EncodingExt (s : bytes).

Definition Encoding_display (e : Encoding) : bytes :=
  match e with
  | Chunked => b#"chunked" | Brotli => b#"br" | Gzip => b#"gzip" | Deflate => b#"deflate"
  | Compress => b#"compress" | Identity => b#"identity" | Trailers => b#"trailers"
  | EncodingExt s => s
  end.

(** A [match] on literals: the value of the first literal that is equal, else [d]. *)
Definition match_lit {A} (table : list (bytes * A)) (d : A) (s : bytes) : A :=
  foldr (fun '(lit, a) rest => if decide (s = lit) then a else rest) d table.

Definition Encoding_from_str (s : bytes) : Encoding :=
  match_lit [(b#"chunked", Chunked); (b#"br", Brotli); (b#"deflate", Deflate); (b#"gzip", Gzip);
    (b#"compress", Compress); (b#"identity", Identity); (b#"trailers", Trailers)] (EncodingExt s) s.

#[export] Instance Encoding_item : HeaderItem Encoding :=
  {| item_from_str := fun s => Some (Encoding_from_str s); item_display := Encoding_display |}.

(** ** Character sets (header/shared/charset.rs) *)

Inductive Charset : Type :=
| Us_Ascii | Iso_8859_1 | Iso_8859_2 | Iso_8859_3 | Iso_8859_4 | Iso_8859_5 | Iso_8859_6
| Iso_8859_7 | Iso_8859_8 | Iso_8859_9 | Iso_8859_10 | Shift_Jis | Euc_Jp | Iso_2022_Kr | Euc_Kr
| Iso_2022_Jp | Iso_2022_Jp_2 | Iso_8859_6_E | Iso_8859_6_I | Iso_8859_8_E | Iso_8859_8_I
| Gb2312 | Big5 | Koi8_R | Ext (s : bytes).

Definition Charset_name (c : Charset) : bytes :=
  match c with
  | Us_Ascii => b#"US-ASCII" | Iso_8859_1 => b#"ISO-8859-1" | Iso_8859_2 => b#"ISO-8859-2"
  | Iso_8859_3 => b#"ISO-8859-3" | Iso_8859_4 => b#"ISO-8859-4" | Iso_8859_5 => b#"ISO-8859-5"
  | Iso_8859_6 => b#"ISO-8859-6" | Iso_8859_7 => b#"ISO-8859-7" | Iso_8859_8 => b#"ISO-8859-8"
  | Iso_8859_9 => b#"ISO-8859-9" | Iso_8859_10 => b#"ISO-8859-10" | Shift_Jis => b#"Shift-JIS"
  | Euc_Jp => b#"EUC-JP" | Iso_2022_Kr => b#"ISO-2022-KR" | Euc_Kr => b#"EUC-KR"
  | Iso_2022_Jp => b#"ISO-2022-JP" | Iso_2022_Jp_2 => b#"ISO-2022-JP-2"
  | Iso_8859_6_E => b#"ISO-8859-6-E" | Iso_8859_6_I => b#"ISO-8859-6-I"
  | Iso_8859_8_E => b#"ISO-8859-8-E" | Iso_8859_8_I => b#"ISO-8859-8-I"
  | Gb2312 => b#"GB2312" | Big5 => b#"5" | Koi8_R => b#"KOI8-R" | Ext s => s
  end.

Definition upper_byte (b : Z) : Z := if (97 <=? b) && (b <=? 122) then b - 32 else b.
Definition to_ascii_uppercase (s : bytes) : bytes := map upper_byte s.

Definition Charset_from_str (s : bytes) : Charset :=
  let s := to_ascii_uppercase s in
  match_lit [(b#"US-ASCII", Us_Ascii); (b#"ISO-8859-1", Iso_8859_1); (b#"ISO-8859-2", Iso_8859_2);
    (b#"ISO-8859-3", Iso_8859_3); (b#"ISO-8859-4", Iso_8859_4); (b#"ISO-8859-5", Iso_8859_5);
    (b#"ISO-8859-6", Iso_8859_6); (b#"ISO-8859-7", Iso_8859_7); (b#"ISO-8859-8", Iso_8859_8);
    (b#"ISO-8859-9", Iso_8859_9); (b#"ISO-8859-10", Iso_8859_10); (b#"SHIFT-JIS", Shift_Jis);
    (b#"EUC-JP", Euc_Jp); (b#"ISO-2022-KR", Iso_2022_Kr); (b#"EUC-KR", Euc_Kr);
    (b#"ISO-2022-JP", Iso_2022_Jp); (b#"ISO-2022-JP-2", Iso_2022_Jp_2);
    (b#"ISO-8859-6-E", Iso_8859_6_E); (b#"ISO-8859-6-I", Iso_8859_6_I);
    (b#"ISO-8859-8-E", Iso_8859_8_E); (b#"ISO-8859-8-I", Iso_8859_8_I);
    (b#"GB2312", Gb2312); (b#"5", Big5); (b#"KOI8-R", Koi8_R)] (Ext s) s.

#[export] Instance Charset_item : HeaderItem Charset :=
  {| item_from_str := fun s => Some (Charset_from_str s); item_display := Charset_name |}.

(** ** Cache directives (header/common/cache_control.rs) *)

Inductive CacheDirective : Type :=
| NoCache | NoStore | NoTransform | OnlyIfCached
| MaxAge (secs : Z) | MaxStale (secs : Z) | MinFresh (secs : Z)
| MustRevalidate | Public | Private | ProxyRevalidate | SMaxAge (secs : Z)
| Extension (name : bytes) (arg : option bytes).

Definition CacheDirective_display (d : CacheDirective) : bytes :=
  match d with
  | NoCache => b#"no-cache" | NoStore => b#"no-store" | NoTransform => b#"no-transform"
  | OnlyIfCached => b#"only-if-cached"
  | MaxAge secs => b#"max-age=" ++ format_decimal secs
  | MaxStale secs => b#"max-stale=" ++ format_decimal secs
  | MinFresh secs => b#"min-fresh=" ++ format_decimal secs
  | MustRevalidate => b#"must-revalidate" | Public => b#"public" | Private => b#"private"
  | ProxyRevalidate => b#"proxy-revalidate"
  | SMaxAge secs => b#"s-maxage=" ++ format_decimal secs
  | Extension name None => name
  | Extension name (Some arg) => name ++ [61] ++ arg
  end.

(** The argument of [split_in_two] is not empty exactly when [idx + 1 < s.len()]. *)
Definition directive_with_arg (s : bytes) : option CacheDirective :=
  match split_in_two 61 s with
  | Some (lhs, rhs) =>
      if bool_decide (rhs <> []) then
        let rhs := trim_matches 34 rhs in
        match_lit [(b#"max-age", MaxAge <$> parse_u32 rhs); (b#"max-stale", MaxStale <$> parse_u32 rhs);
          (b#"min-fresh", MinFresh <$> parse_u32 rhs); (b#"s-maxage", SMaxAge <$> parse_u32 rhs)]
          (Some (Extension lhs (Some rhs))) lhs
      else None
  | None => Some (Extension s None)
  end.

Definition CacheDirective_from_str (s : bytes) : option CacheDirective :=
  match_lit [(b#"no-cache", Some NoCache); (b#"no-store", Some NoStore);
    (b#"no-transform", Some NoTransform); (b#"only-if-cached", Some OnlyIfCached);
    (b#"must-revalidate", Some MustRevalidate); (b#"public", Some Public);
    (b#"private", Some Private); (b#"proxy-revalidate", Some ProxyRevalidate); ([], None)]
    (directive_with_arg s) s.

#[export] Instance CacheDirective_item : HeaderItem CacheDirective :=
  {| item_from_str := CacheDirective_from_str; item_display := CacheDirective_display |}.

Definition CACHE_CONTROL : bytes := b#"cache-control".
Definition CacheControl_parse {H} `{HeaderMap H} (h : H) : result (list CacheDirective) ParseError :=
  match from_comma_delimited (get_all CACHE_CONTROL h) with
  | Ok directives => if bool_decide (directives <> []) then Ok directives else Err ParseE_Header
  | Err e => Err e
  end.
Definition CacheControl_display (c : list CacheDirective) : bytes := fmt_comma_delimited c.

(** ** Content ranges (header/common/content_range.rs) *)

Inductive ContentRangeSpec : Type :=
| CR_Bytes (range : option (Z * Z)) (instance_length : option Z)
| CR_Unregistered (unit resp : bytes).

Definition ContentRangeSpec_display (c : ContentRangeSpec) : bytes :=
  match c with
  | CR_Bytes range instance_length =>
      b#"bytes " ++
      match range with
      | Some (first_byte, last_byte) => format_decimal first_byte ++ [45] ++ format_decimal last_byte
      | None => b#"*"
      end ++ b#"/" ++
      match instance_length with Some v => format_decimal v | None => b#"*" end
  | CR_Unregistered unit resp => unit ++ b#" " ++ resp
  end.

Definition byte_range_from_str (range : bytes) : option (option (Z * Z)) :=
  if bool_decide (range = b#"*") then Some None
  else
    '(first_byte, last_byte) ← split_in_two 45 range;
    first_byte ← parse_u64 first_byte;
    last_byte ← parse_u64 last_byte;
    if last_byte <? first_byte then None else Some (Some (first_byte, last_byte)).

Definition ContentRangeSpec_from_str (s : bytes) : option ContentRangeSpec :=
  '(unit, resp) ← split_in_two 32 s;
  if bool_decide (unit = b#"bytes") then
    '(range, instance_length) ← split_in_two 47 resp;
    instance_length ← (if bool_decide (instance_length = b#"*") then Some None
                       else Some <$> parse_u64 instance_length);
    range ← byte_range_from_str range;
    Some (CR_Bytes range instance_length)
  else Some (CR_Unregistered unit resp).

#[export] Instance ContentRangeSpec_item : HeaderItem ContentRangeSpec :=
  {| item_from_str := ContentRangeSpec_from_str; item_display := ContentRangeSpec_display |}.

(** ** Single-precision numbers

    [f32] is IEEE 754 binary32: 24 bits of precision, exponents below 128. *)
Definition f32 : Type := spec_float.
Definition f32_mul : f32 -> f32 -> f32 := SFmul 24 128.
Definition f32_one : f32 := S754_finite false 8388608 (-23).
Definition f32_zero : f32 := S754_zero false.
Definition f32_le (a b : f32) : bool := SFleb a b.
(** [f as u16] of a number from 0 on: the fraction is dropped. *)
Definition f32_as_u16 (f : f32) : Z :=
  match f with S754_finite false m e => Z.shiftl (Zpos m) e | _ => 0 end.

(** The number [m * 10^e], rounded to the nearest [f32]. *)
Definition f32_of_decimal (neg : bool) (m e : Z) : f32 :=
  match m with
  | Zpos p =>
      if 0 <=? e then binary_normalize 24 128 (if neg then - (m * 10 ^ e) else m * 10 ^ e) 0 neg
      else SFdiv 24 128 (S754_finite neg p 0) (S754_finite false (Z.to_pos (10 ^ (- e))) 0)
  | _ => S754_zero neg
  end.

Definition all_digits (s : bytes) : bool := forallb (fun b => (48 <=? b) && (b <=? 57)) s.
Definition digits_value (s : bytes) : Z := foldl (fun a b => a * 10 + (b - 48)) 0 s.

(** An optional sign. *)
Definition take_sign (s : bytes) : bool * bytes :=
  match s with 45 :: s => (true, s) | 43 :: s => (false, s) | _ => (false, s) end.

(** [Digit+ | Digit+ '.' Digit* | Digit* '.' Digit+], as digits and the length of
    the fraction. *)
Definition parse_number (s : bytes) : option (bytes * Z) :=
  let '(int, frac) := match split_in_two 46 s with Some p => p | None => (s, []) end in
  if all_digits int && all_digits frac && bool_decide (int ++ frac <> [])
  then Some (int ++ frac, lenZ frac) else None.

(** [str::parse::<f32>]. *)
Definition f32_from_str (s : bytes) : option f32 :=
  let '(neg, s) := take_sign s in
  if bool_decide (s = b#"inf") then Some (S754_infinity neg)
  else if bool_decide (s = b#"NaN") then Some S754_nan
  else
    let '(num, exp) := match split_in_two 101 s with
                       | Some (n, e) => (n, Some e)
                       | None => match split_in_two 69 s with
                                 | Some (n, e) => (n, Some e)
                                 | None => (s, None)
                                 end
                       end in
    '(digits, fraclen) ← parse_number num;
    e ← match exp with
        | None => Some 0
        | Some e => let '(eneg, e) := take_sign e in
                    if all_digits e && bool_decide (e <> [])
                    then Some (if eneg then - digits_value e else digits_value e) else None
        end;
    Some (f32_of_decimal neg (digits_value digits) (e - fraclen)).

(** ** Quality values (header/shared/quality_item.rs) *)

(** [Quality(u16)]. *)
Definition Quality : Type := Z.
Definition Quality_default : Quality := 1000.
Record QualityItem (T : Type) : Type := mkQuality { qi_item : T; qi_quality : Quality }.
Arguments mkQuality {T}. Arguments qi_item {T}. Arguments qi_quality {T}.

Definition from_f32 (f : f32) : Quality := f32_as_u16 (f32_mul f (S754_finite false 16384000 (-14))).
Definition qitem {T} (item : T) : QualityItem T := mkQuality item Quality_default.
(** [q] of a [u16] and of an [f32]. *)
Definition q_u16 (v : Z) : run Quality := if v <=? 1000 then Ret v else Panic.
Definition q_f32 (f : f32) : run Quality :=
  if f32_le f32_zero f && f32_le f f32_one then Ret (from_f32 f) else Panic.

(** [format!("{:03}", x)]. *)
Definition pad3 (x : Z) : bytes :=
  let s := format_decimal x in repeat 48 (3 - length s) ++ s.

Section Quality.
Context {T : Type} `{HeaderItem T}.

Definition QualityItem_display (q : QualityItem T) : bytes :=
  item_display (qi_item q) ++
  (if qi_quality q =? 1000 then []
   else if qi_quality q =? 0 then b#"; q=0"
   else b#"; q=0." ++ trim_right_matches 48 (pad3 (qi_quality q))).

Definition is_ascii (s : bytes) : bool := forallb (fun b => b <? 128) s.

(** The parameter behind the last [';']: [Some None] when it is no quality. *)
Definition quality_param (part : bytes) : option (option f32) :=
  if lenZ part <? 2 then None
  else
    let start := takeZ 2 part in
    if bool_decide (start = b#"q=") || bool_decide (start = b#"Q=") then
      let q_part := dropZ 2 part in
      if 5 <? lenZ q_part then None
      else
        q_value ← f32_from_str q_part;
        if f32_le f32_zero q_value && f32_le q_value f32_one then Some (Some q_value) else None
    else Some None.

Definition QualityItem_from_str (s : bytes) : option (QualityItem T) :=
  if negb (is_ascii s) then None
  else
    '(raw_item, quality) ←
      match rsplit_in_two 59 s with
      | Some (behind, before) =>
          o ← quality_param (trim behind);
          Some (match o with
                | Some q_value => (trim before, q_value)
                | None => (s, f32_one)
                end)
      | None => Some (s, f32_one)
      end;
    item ← item_from_str raw_item;
    Some (mkQuality item (from_f32 quality)).

#[export] Instance QualityItem_item : HeaderItem (QualityItem T) :=
  {| item_from_str := QualityItem_from_str; item_display := QualityItem_display |}.

End Quality.
