(* ===== verification/HeaderFacts.v ===== *)
(** * Round trips of typed headers

    Printing a typed header and parsing the text gives the header back: for lists of
    items, entity tags, cache directives, content ranges, encodings, character sets,
    and for all but five of the quality values. *)
From S2P Require Import Prelude StrLib Errors Http TypedHeaders.
Open Scope Z_scope.

(** ** Text *)

Lemma split_in_two_app sep l r : sep ∉ l -> split_in_two sep (l ++ sep :: r) = Some (l, r).
Proof.
  induction l as [|b l IH]; intros Hl; simpl.
  - by rewrite Z.eqb_refl.
  - apply not_elem_of_cons in Hl as [Hb Hl]. rewrite (proj2 (Z.eqb_neq b sep)) by done.
    by rewrite IH.
Qed.
Lemma split_in_two_none sep s : sep ∉ s -> split_in_two sep s = None.
Proof.
  induction s as [|b s IH]; intros Hs; simpl; [done|].
  apply not_elem_of_cons in Hs as [Hb Hs]. rewrite (proj2 (Z.eqb_neq b sep)) by done. by rewrite IH.
Qed.
Lemma rsplit_in_two_app sep l r : sep ∉ r -> rsplit_in_two sep (l ++ sep :: r) = Some (r, l).
Proof.
  intros Hr. unfold rsplit_in_two. rewrite rev_app_distr. cbn [rev]. rewrite <-app_assoc.
  change ([sep] ++ rev l) with (sep :: rev l). rewrite split_in_two_app.
  - cbn. by rewrite !rev_involutive.
  - by rewrite list_elem_of_In, <-in_rev, <-list_elem_of_In.
Qed.

Lemma trim_space s : trim (32 :: s) = trim s.
Proof. done. Qed.

Lemma trim_left_id b s : is_space b = false -> trim_left (b :: s) = b :: s.
Proof. intros Hb. simpl. by rewrite Hb. Qed.

(** A text without spaces at its ends. *)
Lemma trim_id b s e : is_space b = false -> last (b :: s) = Some e -> is_space e = false ->
  trim (b :: s) = b :: s.
Proof.
  intros Hb Hl He. unfold trim. rewrite trim_left_id by done.
  apply last_Some in Hl as [l Hl]. rewrite Hl, rev_app_distr. cbn [rev app].
  rewrite trim_left_id by done. cbn [rev]. by rewrite rev_involutive.
Qed.

Lemma trim_id_all s : Forall (fun b => is_space b = false) s -> trim s = s.
Proof.
  intros Hs. destruct s as [|b s]; [done|]. pose proof Hs as Hs'. apply Forall_cons in Hs' as [Hb _].
  destruct (last (b :: s)) as [e|] eqn:Hl; [|by apply last_None in Hl].
  eapply trim_id; [done|exact Hl|]. rewrite Forall_forall in Hs. apply Hs.
  apply last_Some in Hl as [l ->]. apply elem_of_app. right. by left.
Qed.

(** ** Lists *)

Section ListFacts.
Context {H : Type} `{HeaderMap H} {T : Type} `{HeaderItem T}.

(** An item that can be listed: it is read back from its own text, which is not
    empty, has no comma and no spaces around it. *)
Definition listable (t : T) : Prop :=
  item_from_str (item_display t) = Some t /\ item_display t <> [] /\
  44 ∉ item_display t /\ trim (item_display t) = item_display t.

Lemma fmt_join t ts :
  fmt_comma_delimited (t :: ts) = join 44 (item_display t :: ((fun p => 32 :: item_display p) <$> ts)).
Proof.
  unfold fmt_comma_delimited. generalize (item_display t) as acc. clear t.
  induction ts as [|t ts IH]; intros acc; [done|]. cbn [foldl].
  rewrite IH. cbn [fmap list_fmap].
  destruct ((fun p => 32 :: item_display p) <$> ts) as [|w ws]; simpl; by rewrite <-?app_assoc.
Qed.

Lemma comma_items_listed t : listable t ->
  (match trim (item_display t) with [] => None | y => item_from_str (trim y) end) = Some t.
Proof.
  intros (Hp & Hne & _ & Ht). rewrite Ht. destruct (item_display t) as [|b s] eqn:Hd; [done|].
  by rewrite Ht.
Qed.

Lemma comma_items_fmt ts : Forall listable ts -> comma_items (fmt_comma_delimited ts) = ts.
Proof.
  intros Hts. unfold comma_items. destruct Hts as [|t ts Ht Hts]; [done|]. rewrite fmt_join, split_on_join.
  - cbn [omap list_omap]. rewrite comma_items_listed by done. f_equal. clear -Hts.
    induction Hts as [|t ts Ht Hts IH]; [done|]. cbn [fmap list_fmap omap list_omap].
    rewrite trim_space, comma_items_listed by done. by rewrite IH.
  - done.
  - constructor; [apply Ht|]. apply Forall_fmap. eapply Forall_impl; [exact Hts|].
    intros x Hx. simpl. apply not_elem_of_cons. split; [done|apply Hx].
Qed.

(** A list of items is read back from its text, for every type of items that are
    read back one by one. *)
Theorem list_header_roundtrip (ts : list T) :
  Forall listable ts -> hv_to_str (fmt_comma_delimited ts) = Some (fmt_comma_delimited ts) ->
  from_comma_delimited [fmt_comma_delimited ts] = Ok ts.
Proof.
  intros Hts Hv. cbn [from_comma_delimited]. rewrite Hv, app_nil_r, comma_items_fmt by done. done.
Qed.

End ListFacts.

(** ** Entity tags *)

(** The middle of a text between a prefix of [n] bytes and a quote. *)
Lemma quoted_slice (p tag : bytes) :
  takeZ (lenZ (p ++ tag ++ [34]) - (lenZ p + 1)) (dropZ (lenZ p) (p ++ tag ++ [34])) = tag.
Proof.
  rewrite dropZ_app_r, Z.sub_diag, dropZ_0 by lia.
  rewrite takeZ_app_l, takeZ_all by lenZ_lia. done.
Qed.

(** A text that ends with a quote and starts with [p]. *)
Lemma quoted_text (p s : bytes) :
  last s = Some 34 -> starts_with p s = true -> lenZ p + 1 <= lenZ s ->
  exists tag, s = p ++ tag ++ [34].
Proof.
  intros [l ->]%last_Some [r Hr]%starts_with_app Hlen.
  destruct r as [|x r _] using rev_ind; [rewrite app_nil_r in Hr; rewrite Hr in Hlen; lia|].
  rewrite app_assoc in Hr. apply app_inj_tail in Hr as [-> ->]. exists r. by rewrite app_assoc.
Qed.

Lemma lenZ_weak : lenZ (b#"W/" ++ [34]) = 3.
Proof. done. Qed.

Lemma entity_tag_sound s t :
  EntityTag_from_str s = Some t ->
  s = EntityTag_display t /\ check_slice_validity (et_tag t) = true.
Proof.
  unfold EntityTag_from_str. intros Hf.
  destruct (negb _ || _) eqn:Hl; [done|]. apply orb_false_iff in Hl as [Hlast Hlen].
  apply negb_false_iff, bool_decide_eq_true in Hlast. apply Z.ltb_ge in Hlen.
  destruct ((2 <=? lenZ s) && _ && _) eqn:Hs.
  - apply andb_true_iff in Hs as [[_ Hst]%andb_true_iff Hv].
    destruct (quoted_text [34] s Hlast Hst) as [tag ->]; [change (lenZ [34]) with 1; lia|].
    pose proof (quoted_slice [34] tag) as Hq.
    change (lenZ [34] + 1) with 2 in Hq. change (lenZ [34]) with 1 in Hq.
    rewrite Hq in *. by simplify_eq/=.
  - clear Hs. destruct ((4 <=? lenZ s) && _ && _) eqn:Hs; [|done].
    apply andb_true_iff in Hs as [[Hlen4%Z.leb_le Hst]%andb_true_iff Hv].
    destruct (quoted_text (b#"W/" ++ [34]) s Hlast Hst) as [tag ->]; [rewrite lenZ_weak; lia|].
    pose proof (quoted_slice (b#"W/" ++ [34]) tag) as Hq. rewrite lenZ_weak in Hq.
    change (3 + 1) with 4 in Hq. rewrite Hq in *. by simplify_eq/=.
Qed.

Lemma entity_tag_complete t :
  check_slice_validity (et_tag t) = true -> EntityTag_from_str (EntityTag_display t) = Some t.
Proof.
  intros Hv. destruct t as [w tag]. simpl in Hv. unfold EntityTag_from_str, EntityTag_display.
  cbn [et_weak et_tag]. destruct w; cbv iota.
  - set (s := b#"W/" ++ [34] ++ tag ++ [34]).
    assert (last s = Some 34) as Hlast by (unfold s; rewrite !app_assoc; apply last_snoc).
    assert (4 <= lenZ s) as Hlen by (unfold s; rewrite app_assoc, lenZ_app, lenZ_weak; lenZ_lia).
    pose proof (quoted_slice (b#"W/" ++ [34]) tag) as Hq.
    change ((b#"W/" ++ [34]) ++ tag ++ [34]) with s in Hq. rewrite lenZ_weak in Hq.
    change (3 + 1) with 4 in Hq.
    rewrite bool_decide_eq_true_2, (proj2 (Z.ltb_ge (lenZ s) 2)) by (done || lia).
    change (starts_with [34] s) with false. rewrite andb_false_r. cbn [negb orb andb].
    rewrite (proj2 (Z.leb_le 4 _)) by done.
    change (starts_with (b#"W/" ++ [34]) s) with true. by rewrite Hq, Hv.
  - set (s := [34] ++ tag ++ [34]).
    assert (last s = Some 34) as Hlast by (unfold s; rewrite !app_assoc; apply last_snoc).
    assert (2 <= lenZ s) as Hlen by (unfold s; lenZ_lia).
    pose proof (quoted_slice [34] tag) as Hq. change ([34] ++ tag ++ [34]) with s in Hq.
    change (lenZ [34] + 1) with 2 in Hq. change (lenZ [34]) with 1 in Hq.
    rewrite bool_decide_eq_true_2, (proj2 (Z.ltb_ge (lenZ s) 2)), (proj2 (Z.leb_le 2 _)) by (done || lia).
    change (starts_with [34] s) with true. cbn [negb orb andb]. by rewrite Hq, Hv.
Qed.

(** [EntityTag::from_str] accepts exactly the texts of entity tags with valid
    characters, and gives the tag that is written so. *)
Theorem entity_tag_roundtrip (s : bytes) (t : EntityTag) :
  EntityTag_from_str s = Some t <->
  s = EntityTag_display t /\ check_slice_validity (et_tag t) = true.
Proof.
  split; [apply entity_tag_sound|]. intros [-> Hv]. by apply entity_tag_complete.
Qed.

Lemma etag_listable t :
  check_slice_validity (et_tag t) = true -> 44 ∉ et_tag t -> listable t.
Proof.
  intros Hv Hc. split; [by apply entity_tag_complete|]. destruct t as [w tag]. simpl in *.
  unfold EntityTag_display. simpl. split_and!.
  - by destruct w.
  - destruct w; simpl; set_solver.
  - destruct w; (apply (trim_id _ _ 34); [done| |done]);
      [exact (last_snoc 34 (87 :: 47 :: 34 :: tag))|exact (last_snoc 34 (34 :: tag))].
Qed.

(** A tag with a comma is valid, but a list that holds it is not read back. *)
Example comma_tag_lost :
  let t := mkEtag false (b#"a,b") in
  EntityTag_from_str (EntityTag_display t) = Some t /\
  comma_items (T := EntityTag) (fmt_comma_delimited [t]) = [].
Proof. vm_compute. done. Qed.

(** ** Numbers in headers *)

Lemma digits_shape n :
  0 <= n -> exists d ds, format_decimal n = d :: ds /\ Forall (fun b => 48 <= b <= 57) (d :: ds).
Proof.
  intros Hn. destruct (format_digits 10 n ltac:(lia) Hn) as (ds & Hf & Hds & _ & Hne).
  unfold format_decimal. rewrite Hf. destruct ds as [|d ds]; [done|]. simpl.
  eexists _, _. split; [done|]. apply (Forall_fmap _ _ (d :: ds)).
  eapply Forall_impl; [exact Hds|]. intros x Hx. cbv beta in Hx. change (48 <= digit_char x <= 57). rewrite digit_char_decimal by lia. lia.
Qed.

Lemma digits_not_in n c : 0 <= n -> ~ (48 <= c <= 57) -> c ∉ format_decimal n.
Proof.
  intros Hn Hc Hin. destruct (digits_shape n Hn) as (d & ds & Hd & Hf). rewrite Hd in Hin.
  rewrite Forall_forall in Hf. by apply Hc, Hf.
Qed.

Lemma digits_no_space n : 0 <= n -> Forall (fun b => is_space b = false) (format_decimal n).
Proof.
  intros Hn. destruct (digits_shape n Hn) as (d & ds & -> & Hf). eapply Forall_impl; [exact Hf|].
  intros b Hb. cbv beta in Hb. unfold is_space. rewrite (proj2 (Z.eqb_neq b 32)), (proj2 (Z.leb_gt b 13)) by lia.
  by rewrite andb_false_r.
Qed.

(** ** Content ranges *)

Definition u64_ok (n : Z) : Prop := 0 <= n < 2 ^ 64.

Definition content_range_ok (c : ContentRangeSpec) : Prop :=
  match c with
  | CR_Bytes range len =>
      match range with Some (a, b) => u64_ok a /\ u64_ok b /\ a <= b | None => True end /\
      match len with Some l => u64_ok l | None => True end
  | CR_Unregistered unit _ => unit <> b#"bytes" /\ 32 ∉ unit
  end.

Lemma digits_not_star n : 0 <= n -> format_decimal n <> b#"*".
Proof.
  intros Hn Heq. apply (digits_not_in n 42 Hn); [lia|]. rewrite Heq. by left.
Qed.

Lemma byte_range_roundtrip range :
  match range with Some (a, b) => u64_ok a /\ u64_ok b /\ a <= b | None => True end ->
  let text := match range with
    | Some (a, b) => format_decimal a ++ [45] ++ format_decimal b | None => b#"*" end in
  byte_range_from_str text = Some range /\ 47 ∉ text /\ 32 ∉ text.
Proof.
  destruct range as [[a b]|]; [|intros _; vm_compute; split_and!; [done|set_solver..]].
  intros (Ha & Hb & Hab). pose proof (digits_not_in a 45 ltac:(apply Ha) ltac:(lia)).
  unfold byte_range_from_str. split_and!.
  - rewrite bool_decide_eq_false_2.
    + change ([45] ++ format_decimal b) with (45 :: format_decimal b).
      rewrite split_in_two_app by done. cbn [mbind option_bind].
      rewrite !parse_format_u64 by done. cbn [mbind option_bind].
      by rewrite (proj2 (Z.ltb_ge b a)) by done.
    + intros Heq. apply (f_equal (elem_of 45)) in Heq.
      assert (45 ∈ format_decimal a ++ [45] ++ format_decimal b) as Hin by set_solver.
      rewrite Heq in Hin. vm_compute in Hin. set_solver.
  - pose proof (digits_not_in a 47 ltac:(apply Ha) ltac:(lia)).
    pose proof (digits_not_in b 47 ltac:(apply Hb) ltac:(lia)). set_solver.
  - pose proof (digits_not_in a 32 ltac:(apply Ha) ltac:(lia)).
    pose proof (digits_not_in b 32 ltac:(apply Hb) ltac:(lia)). set_solver.
Qed.

(** A content range is read back from its text. *)
Theorem content_range_roundtrip (c : ContentRangeSpec) :
  content_range_ok c -> ContentRangeSpec_from_str (ContentRangeSpec_display c) = Some c.
Proof.
  intros Hok. destruct c as [range len|unit resp]; simpl in Hok.
  - destruct Hok as [Hr Hl]. destruct (byte_range_roundtrip range Hr) as (Hp & Hslash & _).
    cbv zeta in Hp, Hslash. unfold ContentRangeSpec_from_str, ContentRangeSpec_display.
    revert Hp Hslash. generalize (match range with
      | Some (a, b) => format_decimal a ++ [45] ++ format_decimal b | None => b#"*" end) as text.
    intros text Hp Hslash.
    change (b#"bytes ") with (b#"bytes" ++ [32]). rewrite <-app_assoc.
    change ([32] ++ ?x) with (32 :: x). rewrite split_in_two_app by (vm_compute; set_solver).
    cbn [mbind option_bind]. rewrite bool_decide_eq_true_2 by done.
    change (b#"/" ++ ?x) with (47 :: x). rewrite split_in_two_app by done.
    cbn [mbind option_bind]. destruct len as [l|].
    + rewrite bool_decide_eq_false_2 by (apply digits_not_star, Hl).
      rewrite parse_format_u64 by done. cbn. by rewrite Hp.
    + rewrite bool_decide_eq_true_2 by done. cbn. by rewrite Hp.
  - destruct Hok as [Hu Hs]. unfold ContentRangeSpec_from_str, ContentRangeSpec_display.
    change (b#" " ++ resp) with (32 :: resp). rewrite split_in_two_app by done.
    cbn [mbind option_bind]. by rewrite bool_decide_eq_false_2 by done.
Qed.

(** ** Cache directives *)

Definition keywords : list bytes :=
  [b#"no-cache"; b#"no-store"; b#"no-transform"; b#"only-if-cached"; b#"must-revalidate";
   b#"public"; b#"private"; b#"proxy-revalidate"].
Definition arg_keywords : list bytes := [b#"max-age"; b#"max-stale"; b#"min-fresh"; b#"s-maxage"].

Definition u32_ok (n : Z) : Prop := 0 <= n < 2 ^ 32.
(** Directives as the grammar has them: an extension is not a known directive, and its
    argument has no quotes around it. *)
Definition directive_ok (d : CacheDirective) : Prop :=
  match d with
  | MaxAge n | MaxStale n | MinFresh n | SMaxAge n => u32_ok n
  | Extension name None => name <> [] /\ 61 ∉ name /\ name ∉ keywords
  | Extension name (Some arg) =>
      61 ∉ name /\ name ∉ arg_keywords /\ arg <> [] /\ trim_matches 34 arg = arg
  | _ => True
  end.

Lemma match_lit_other {A} (table : list (bytes * A)) d s :
  s ∉ table.*1 -> match_lit table d s = d.
Proof.
  induction table as [|[lit a] table IH]; [done|]. intros Hs. apply not_elem_of_cons in Hs as [Hl Hs].
  simpl in Hl |- *. rewrite decide_False by done. by apply IH.
Qed.

Lemma parse_u32_format n : u32_ok n -> parse_u32 (format_decimal n) = Some n.
Proof.
  intros Hn. unfold parse_u32. rewrite parse_format_u64 by (unfold u32_ok in Hn; lia). cbn.
  by rewrite (proj2 (Z.ltb_lt _ _)) by apply Hn.
Qed.

Lemma strip_left_id c s : c ∉ s -> strip_left c s = s.
Proof.
  intros Hc. destruct s as [|b s]; [done|]. apply not_elem_of_cons in Hc as [Hb _]. simpl.
  by rewrite (proj2 (Z.eqb_neq b c)) by done.
Qed.

Lemma trim_matches_digits n : 0 <= n -> trim_matches 34 (format_decimal n) = format_decimal n.
Proof.
  intros Hn. pose proof (digits_not_in n 34 Hn ltac:(lia)) as Hq.
  unfold trim_matches, trim_right_matches. rewrite (strip_left_id 34 (format_decimal n)) by done.
  rewrite strip_left_id; [by rewrite rev_involutive|].
  by rewrite list_elem_of_In, <-in_rev, <-list_elem_of_In.
Qed.

(** A text with ['='] in it is no keyword. *)
Lemma eq_sign_no_keyword l r : l ++ 61 :: r ∉ keywords /\ l ++ 61 :: r <> [].
Proof.
  split; [|by destruct l]. intros Hin.
  assert (61 ∈ l ++ 61 :: r) as H61 by set_solver.
  assert (Forall (fun w => 61 ∉ w) keywords) as Hk by (repeat constructor; vm_compute; set_solver).
  rewrite Forall_forall in Hk. by apply (Hk _ Hin).
Qed.

Lemma directive_arg_parse name arg :
  61 ∉ name -> arg <> [] ->
  CacheDirective_from_str (name ++ 61 :: arg) =
  match_lit [(b#"max-age", MaxAge <$> parse_u32 (trim_matches 34 arg));
      (b#"max-stale", MaxStale <$> parse_u32 (trim_matches 34 arg));
      (b#"min-fresh", MinFresh <$> parse_u32 (trim_matches 34 arg));
      (b#"s-maxage", SMaxAge <$> parse_u32 (trim_matches 34 arg))]
    (Some (Extension name (Some (trim_matches 34 arg)))) name.
Proof.
  intros Hn Ha. destruct (eq_sign_no_keyword name arg) as [Hk Hne].
  unfold CacheDirective_from_str. rewrite match_lit_other.
  - unfold directive_with_arg. rewrite split_in_two_app by done.
    by rewrite bool_decide_eq_true_2 by done.
  - intros Hin. apply Hk. unfold keywords. cbn [fmap list_fmap fst] in Hin. set_solver.
Qed.

(** A cache directive is read back from its text. *)
Theorem cache_directive_roundtrip (d : CacheDirective) :
  directive_ok d -> CacheDirective_from_str (CacheDirective_display d) = Some d.
Proof.
  intros Hok.
  assert (forall name n, name ∈ arg_keywords -> u32_ok n ->
    CacheDirective_from_str (name ++ 61 :: format_decimal n) =
    match_lit [(b#"max-age", Some (MaxAge n)); (b#"max-stale", Some (MaxStale n));
      (b#"min-fresh", Some (MinFresh n)); (b#"s-maxage", Some (SMaxAge n))] None name) as Hnum.
  { intros name n Hname Hn. assert (0 <= n) as Hpos by apply Hn.
    assert (format_decimal n <> []) by (by destruct (digits_shape n Hpos) as (? & ? & -> & _)).
    assert (61 ∉ name) as H61 by (clear -Hname; unfold arg_keywords in Hname; set_unfold in Hname;
      destruct Hname as [->|[->|[->|[->|[]]]]]; vm_compute; set_solver).
    rewrite directive_arg_parse, trim_matches_digits, parse_u32_format by done.
    clear -Hname. unfold arg_keywords in Hname. set_unfold in Hname.
    by destruct Hname as [->|[->|[->|[->|[]]]]]. }
  destruct d as [| | | |n|n|n| | | | |n|name [arg|]]; try reflexivity.
  - by apply (Hnum (b#"max-age")); [set_solver|].
  - by apply (Hnum (b#"max-stale")); [set_solver|].
  - by apply (Hnum (b#"min-fresh")); [set_solver|].
  - by apply (Hnum (b#"s-maxage")); [set_solver|].
  - destruct Hok as (Hn & Hk & Hne & Ht). change (CacheDirective_display _) with (name ++ 61 :: arg).
    rewrite directive_arg_parse, match_lit_other, Ht by done. done.
  - destruct Hok as (Hne & Hn & Hk). change (CacheDirective_display _) with name.
    unfold CacheDirective_from_str. rewrite match_lit_other.
    + unfold directive_with_arg. by rewrite split_in_two_none.
    + intros Hin. cbn [fmap list_fmap fst] in Hin. unfold keywords in Hk. set_solver.
Qed.

(** ** Encodings and character sets *)

Definition encoding_ok (e : Encoding) : Prop :=
  match e with
  | EncodingExt s => s ∉ [b#"chunked"; b#"br"; b#"deflate"; b#"gzip"; b#"compress"; b#"identity"; b#"trailers"]
  | _ => True
  end.

Theorem encoding_roundtrip e : encoding_ok e -> Encoding_from_str (Encoding_display e) = e.
Proof.
  destruct e as [| | | | | | |s]; try reflexivity. intros Hs. apply match_lit_other.
  cbn [fmap list_fmap fst]. exact Hs.
Qed.

Theorem charset_roundtrip c : (forall s, c <> Ext s) -> Charset_from_str (Charset_name c) = c.
Proof.
  intros Hc. destruct c as [| | | | | | | | | | | | | | | | | | | | | | | |s]; try reflexivity.
  by destruct (Hc s).
Qed.

(** The registered name of Big5 is not recognized, and it is written as ["5"]. *)
Example big5_name :
  Charset_from_str (b#"Big5") = Ext (b#"BIG5") /\ Charset_name Big5 = b#"5".
Proof. vm_compute. done. Qed.

(** ** Quality values *)

(** Values that single precision does not carry through: [0.251f32 * 1000f32] is just
    below 251, and so on. *)
Definition lossy_values : list Z := [251; 253; 502; 506; 511].

(** What a value is read back as. *)
Definition read_quality (x : Z) : Z := if bool_decide (x ∈ lossy_values) then x - 1 else x.

(** The parameter behind [';'] of a value below 1000, and what is checked of it. *)
Definition quality_text (x : Z) : bytes :=
  if x =? 0 then b#"q=0" else b#"q=0." ++ trim_right_matches 48 (pad3 x).
Definition quality_text_ok (x : Z) : bool :=
  let t := quality_text x in
  bool_decide (trim (32 :: t) = t) && forallb (fun b => negb (b =? 59)) t && is_ascii t &&
  match quality_param t with
  | Some (Some f) => from_f32 f =? read_quality x
  | _ => false
  end.

(** Checked for each of the thousand values, in the arithmetic of [f32]. *)
Lemma quality_texts_ok : forallb quality_text_ok (map Z.of_nat (seq 0 1000)) = true.
Proof. vm_compute. reflexivity. Qed.

Lemma quality_text_spec x :
  0 <= x < 1000 ->
  exists f, trim (32 :: quality_text x) = quality_text x /\ 59 ∉ quality_text x /\
    is_ascii (quality_text x) = true /\ quality_param (quality_text x) = Some (Some f) /\
    from_f32 f = read_quality x.
Proof.
  intros Hx. pose proof quality_texts_ok as Hok. rewrite forallb_forall in Hok.
  specialize (Hok x). unfold quality_text_ok in Hok.
  assert (In x (map Z.of_nat (seq 0 1000))) as Hin.
  { apply in_map_iff. exists (Z.to_nat x). split; [lia|]. apply in_seq. lia. }
  apply Hok in Hin. clear Hok.
  apply andb_true_iff in Hin as [[[Ht%bool_decide_eq_true Hs]%andb_true_iff Ha]%andb_true_iff Hq].
  destruct (quality_param (quality_text x)) as [[f|]|]; try done. exists f.
  split_and!; [done| |done|done|by apply Z.eqb_eq in Hq].
  rewrite forallb_forall in Hs. intros Hin. apply list_elem_of_In, Hs in Hin. done.
Qed.

Section QualityFacts.
Context {T : Type} `{HeaderItem T}.

(** An item without parameters of its own. *)
Definition plain_item (t : T) : Prop :=
  item_from_str (item_display t) = Some t /\ 59 ∉ item_display t /\
  is_ascii (item_display t) = true /\ trim (item_display t) = item_display t.

(** Quality values and single precision: an item with a quality is read back from
    its text with the same quality, for every quality but five; 0.251, 0.253, 0.502,
    0.506 and 0.511 come back one thousandth lower. *)
Theorem quality_roundtrip (t : T) (x : Z) :
  plain_item t -> 0 <= x <= 1000 ->
  QualityItem_from_str (QualityItem_display (mkQuality t x)) =
  Some (mkQuality t (if bool_decide (x ∈ lossy_values) then x - 1 else x)).
Proof.
  intros (Hp & Hs & Ha & Ht) Hx. unfold QualityItem_from_str, QualityItem_display. cbn [qi_item qi_quality].
  destruct (Z.eqb_spec x 1000) as [->|Hne].
  { rewrite app_nil_r, Ha. cbn [negb]. unfold rsplit_in_two.
    rewrite split_in_two_none by (by rewrite list_elem_of_In, <-in_rev, <-list_elem_of_In).
    cbn [mbind option_bind]. rewrite Hp. reflexivity. }
  destruct (quality_text_spec x ltac:(lia)) as (f & Htrim & H59 & Hascii & Hq & Hf).
  assert ((if x =? 0 then b#"; q=0" else b#"; q=0." ++ trim_right_matches 48 (pad3 x)) =
    59 :: 32 :: quality_text x) as -> by (unfold quality_text; by destruct (x =? 0)).
  assert (is_ascii (item_display t ++ 59 :: 32 :: quality_text x) = true) as ->.
  { unfold is_ascii in *. rewrite forallb_app. cbn [forallb]. by rewrite Ha, Hascii. }
  cbn [negb]. rewrite rsplit_in_two_app by set_solver. cbn [mbind option_bind].
  rewrite Htrim, Hq. cbn [mbind option_bind]. rewrite Ht, Hp. cbn [mbind option_bind]. by rewrite Hf.
Qed.

End QualityFacts.

(** ** Witnesses *)

Lemma list_header_roundtrip_witness :
  from_comma_delimited (H := list (bytes * bytes))
    [fmt_comma_delimited [mkEtag true (b#"a"); mkEtag false (b#"b")]] =
  Ok [mkEtag true (b#"a"); mkEtag false (b#"b")].
Proof.
  apply (list_header_roundtrip (H := list (bytes * bytes)) [mkEtag true (b#"a"); mkEtag false (b#"b")]).
  - repeat constructor; apply etag_listable; try reflexivity; by apply (bool_decide_unpack _).
  - reflexivity.
Defined.

Lemma content_range_roundtrip_witness :
  ContentRangeSpec_from_str (ContentRangeSpec_display (CR_Bytes (Some (0, 499)) (Some 1234))) =
  Some (CR_Bytes (Some (0, 499)) (Some 1234)).
Proof.
  apply (content_range_roundtrip (CR_Bytes (Some (0, 499)) (Some 1234))).
  cbn. unfold u64_ok. lia.
Defined.

Lemma cache_directive_roundtrip_witness :
  CacheDirective_from_str (CacheDirective_display (MaxAge 3600)) = Some (MaxAge 3600).
Proof. apply (cache_directive_roundtrip (MaxAge 3600)). cbn. unfold u32_ok. lia. Defined.

Lemma quality_roundtrip_witness :
  QualityItem_from_str (QualityItem_display (mkQuality Gzip 251)) = Some (mkQuality Gzip 250).
Proof.
  apply (quality_roundtrip Gzip 251); [|lia]. split; [reflexivity|].
  split; [by apply (bool_decide_unpack _)|]. split; reflexivity.
Defined.
