(* ===== verification/Response.v ===== *)
(** * Responses (src/src/httpresponse.rs, src/src/body.rs)

    Bodies, the response head, the builder and the pool that recycles heads.  The
    streams and actors a body may carry are opaque handles here; the header map,
    the conversions into header names and values, the cookie jar and the JSON
    serializer are external. *)
From S2P Require Import Prelude StrLib Errors Http.
Open Scope Z_scope.

(** ** Bodies (src/src/body.rs) *)
Inductive Binary : Type :=
| Bin_Bytes (b : bytes)
| Bin_Slice (b : bytes)
| Bin_SharedString (b : bytes)
| Bin_ArcSharedString (b : bytes)
| Bin_SharedVec (b : bytes).

Inductive Body : Type :=
| Body_Empty
| Body_Binary (b : Binary)
| Body_Streaming (stream : nat)
| Body_Actor (ctx : nat).

#[export] Instance Binary_eq_dec : EqDecision Binary.
Proof. solve_decision. Defined.
#[export] Instance Body_eq_dec : EqDecision Body.
Proof. solve_decision. Defined.

Definition is_streaming (b : Body) : bool :=
  match b with Body_Streaming _ | Body_Actor _ => true | _ => false end.
Definition is_binary (b : Body) : bool :=
  match b with Body_Binary _ => true | _ => false end.

(** [AsRef<[u8]>] and [Into<Bytes>]. *)
Definition Binary_as_ref (b : Binary) : bytes :=
  match b with
  | Bin_Bytes b | Bin_Slice b | Bin_SharedString b | Bin_ArcSharedString b | Bin_SharedVec b => b
  end.
Definition Binary_len (b : Binary) : Z :=
  match b with
  | Bin_Bytes b => lenZ b
  | Bin_Slice b => lenZ b
  | Bin_SharedString b => lenZ b
  | Bin_ArcSharedString b => lenZ b
  | Bin_SharedVec b => lenZ b
  end.
Definition Binary_is_empty (b : Binary) : bool := Binary_len b =? 0.
(** [Binary::take]: the bytes, and the empty slice left behind. *)
Definition Binary_take (b : Binary) : bytes * Binary := (Binary_as_ref b, Bin_Slice []).
Definition Binary_clone (b : Binary) : Binary :=
  match b with Bin_Slice s => Bin_Bytes s | b => b end.

Lemma Binary_len_as_ref b : Binary_len b = lenZ (Binary_as_ref b).
Proof. by destruct b. Qed.

(** [PartialEq for Body]: streaming bodies are equal to nothing. *)
Definition Body_eq (a b : Body) : bool :=
  match a with
  | Body_Empty => match b with Body_Empty => true | _ => false end
  | Body_Binary x => match b with Body_Binary y => bool_decide (x = y) | _ => false end
  | Body_Streaming _ | Body_Actor _ => false
  end.

(** ** Response heads *)
Inductive ConnectionType : Type := Conn_Close | Conn_KeepAlive | Conn_Upgrade.
Inductive ContentEncoding : Type := Enc_Auto | Enc_Br | Enc_Deflate | Enc_Gzip | Enc_Identity.

#[export] Instance ConnectionType_eq_dec : EqDecision ConnectionType.
Proof. solve_decision. Defined.
#[export] Instance ContentEncoding_eq_dec : EqDecision ContentEncoding.
Proof. solve_decision. Defined.

Definition MAX_WRITE_BUFFER_SIZE : Z := 65536.

(** The general [Error]: a boxed [ResponseError], known by the status of the
    response it renders to. *)
Record Error : Type := mkError { cause_status : Z }.
Definition Error_from {E} `{ResponseError E} (e : E) : Error := mkError (error_status e).

(** [http::Error], as the conversions into header names and values give it. *)
Inductive HttpError : Type := HE_HeaderName | HE_HeaderValue | HE_Uri.
#[export] Instance ResponseError_http : ResponseError HttpError := fun _ => 500.
Inductive InvalidHeaderValue : Type := InvalidValue.
#[export] Instance ResponseError_header_value : ResponseError InvalidHeaderValue := fun _ => 400.
Inductive JsonError : Type := JsonErr.
#[export] Instance ResponseError_json : ResponseError JsonError := fun _ => 500.

(** Conversions of the [http] crate: a name is lower-cased and checked; a value is
    taken as it is when its bytes are visible ASCII, horizontal tabs or opaque
    bytes from 128 on. *)
Definition value_byte (b : Z) : bool := ((32 <=? b) && (b <? 256) && negb (b =? 127)) || (b =? 9).
Class HeaderConv := {
  hn_try_from : bytes -> option bytes;
  hv_try_from : bytes -> option bytes;
  hv_try_from_ok v : forallb value_byte v = true -> hv_try_from v = Some v;
  hv_try_from_bad v : forallb value_byte v = false -> hv_try_from v = None;
}.

(** A decimal number is a header value. *)
Lemma decimal_header_value n : 0 <= n -> forallb value_byte (format_decimal n) = true.
Proof.
  intros Hn. apply forallb_forall. intros x Hx%list_elem_of_In.
  unfold format_decimal in Hx. destruct (format_digits 10 n) as (ds & Heq & Hds & _ & _); [lia..|]. rewrite Heq in Hx.
  apply list_elem_of_fmap in Hx as (d & -> & Hd). rewrite Forall_forall in Hds. specialize (Hds d Hd). simpl in Hds.
  rewrite digit_char_decimal by lia. unfold value_byte. lia.
Qed.

(** The [cookie] crate's jar; [jar_delta] gives the changed cookies as rendered. *)
Class CookieJar (J C : Type) := {
  jar_new : J;
  jar_add : C -> J -> J;
  jar_add_original : C -> J -> J;
  jar_remove : C -> J -> J;
  jar_delta : J -> list bytes;
}.

Definition SET_COOKIE : bytes := b#"set-cookie".

Section Responses.
Context {H : Type} `{HeaderMap H} `{HeaderConv} {J C : Type} `{CookieJar J C}.

Record InnerHttpResponse : Type := mkResp {
  r_version : option Version;
  r_headers : H;
  r_status : Z;
  r_reason : option bytes;
  r_body : Body;
  r_chunked : option bool;
  r_encoding : option ContentEncoding;
  r_connection_type : option ConnectionType;
  r_write_capacity : Z;
  r_response_size : Z;
  r_error : option Error;
}.

Definition InnerHttpResponse_new (status : Z) (body : Body) : InnerHttpResponse :=
  {| r_version := None; r_headers := hm_empty; r_status := status; r_reason := None;
     r_body := body; r_chunked := None; r_encoding := None; r_connection_type := None;
     r_write_capacity := MAX_WRITE_BUFFER_SIZE; r_response_size := 0; r_error := None |}.

Definition set_r_version v r := mkResp v (r_headers r) (r_status r) (r_reason r) (r_body r)
  (r_chunked r) (r_encoding r) (r_connection_type r) (r_write_capacity r) (r_response_size r) (r_error r).
Definition set_r_headers v r := mkResp (r_version r) v (r_status r) (r_reason r) (r_body r)
  (r_chunked r) (r_encoding r) (r_connection_type r) (r_write_capacity r) (r_response_size r) (r_error r).
Definition set_r_status v r := mkResp (r_version r) (r_headers r) v (r_reason r) (r_body r)
  (r_chunked r) (r_encoding r) (r_connection_type r) (r_write_capacity r) (r_response_size r) (r_error r).
Definition set_r_reason v r := mkResp (r_version r) (r_headers r) (r_status r) v (r_body r)
  (r_chunked r) (r_encoding r) (r_connection_type r) (r_write_capacity r) (r_response_size r) (r_error r).
Definition set_r_body v r := mkResp (r_version r) (r_headers r) (r_status r) (r_reason r) v
  (r_chunked r) (r_encoding r) (r_connection_type r) (r_write_capacity r) (r_response_size r) (r_error r).
Definition set_r_chunked v r := mkResp (r_version r) (r_headers r) (r_status r) (r_reason r) (r_body r)
  v (r_encoding r) (r_connection_type r) (r_write_capacity r) (r_response_size r) (r_error r).
Definition set_r_encoding v r := mkResp (r_version r) (r_headers r) (r_status r) (r_reason r) (r_body r)
  (r_chunked r) v (r_connection_type r) (r_write_capacity r) (r_response_size r) (r_error r).
Definition set_r_connection_type v r := mkResp (r_version r) (r_headers r) (r_status r) (r_reason r)
  (r_body r) (r_chunked r) (r_encoding r) v (r_write_capacity r) (r_response_size r) (r_error r).
Definition set_r_write_capacity v r := mkResp (r_version r) (r_headers r) (r_status r) (r_reason r)
  (r_body r) (r_chunked r) (r_encoding r) (r_connection_type r) v (r_response_size r) (r_error r).
Definition set_r_response_size v r := mkResp (r_version r) (r_headers r) (r_status r) (r_reason r)
  (r_body r) (r_chunked r) (r_encoding r) (r_connection_type r) (r_write_capacity r) v (r_error r).
Definition set_r_error v r := mkResp (r_version r) (r_headers r) (r_status r) (r_reason r)
  (r_body r) (r_chunked r) (r_encoding r) (r_connection_type r) (r_write_capacity r) (r_response_size r) v.

(** [HttpResponse::upgrade], [keep_alive], [reason], [replace_body]. *)
Definition resp_upgrade (r : InnerHttpResponse) : bool :=
  bool_decide (r_connection_type r = Some Conn_Upgrade).
Definition resp_keep_alive (r : InnerHttpResponse) : option bool :=
  match r_connection_type r with
  | Some ct => match ct with
               | Conn_KeepAlive => Some true
               | Conn_Close | Conn_Upgrade => Some false
               end
  | None => None
  end.
Definition resp_reason (canonical_reason : Z -> option bytes) (r : InnerHttpResponse) : bytes :=
  match r_reason r with
  | Some reason => reason
  | None => default (b#"<unknown status code>") (canonical_reason (r_status r))
  end.
Definition resp_replace_body (b : Body) (r : InnerHttpResponse) : Body * InnerHttpResponse :=
  (r_body r, set_r_body b r).

(** ** The pool of response heads *)
Definition ResponsePool : Type := list InnerHttpResponse.

(** [response] and [pool] are [None] once the builder has been used. *)
Record HttpResponseBuilder : Type := mkBuilder {
  rb_response : option InnerHttpResponse;
  rb_pool : bool;
  rb_err : option HttpError;
  rb_cookies : option J;
}.

Definition get_builder (p : ResponsePool) (status : Z) : HttpResponseBuilder * ResponsePool :=
  match p with
  | msg :: p => (mkBuilder (Some (set_r_status status msg)) true None None, p)
  | [] => (mkBuilder (Some (InnerHttpResponse_new status Body_Empty)) true None None, [])
  end.

Definition get_response (p : ResponsePool) (status : Z) (body : Body)
  : InnerHttpResponse * ResponsePool :=
  match p with
  | msg :: p => (set_r_body body (set_r_status status msg), p)
  | [] => (InnerHttpResponse_new status body, [])
  end.

(** [HttpResponsePool::release]: the body is the one field that is kept. *)
Definition response_release (inner : InnerHttpResponse) (p : ResponsePool) : ResponsePool :=
  if (length p <? 128)%nat then
    {| r_version := None; r_headers := hm_empty; r_status := r_status inner; r_reason := None;
       r_body := r_body inner; r_chunked := None; r_encoding := None; r_connection_type := None;
       r_write_capacity := MAX_WRITE_BUFFER_SIZE; r_response_size := 0; r_error := None |} :: p
  else p.

(** [HttpResponse::from_error], over the thread's pool. *)
Definition from_error (p : ResponsePool) (e : Error) : InnerHttpResponse * ResponsePool :=
  let '(r, p) := get_response p (cause_status e) Body_Empty in (set_r_error (Some e) r, p).

(** ** The builder *)
Definition parts (b : HttpResponseBuilder) : option InnerHttpResponse :=
  match rb_err b with Some _ => None | None => rb_response b end.

Definition with_parts (f : InnerHttpResponse -> InnerHttpResponse) (b : HttpResponseBuilder)
  : HttpResponseBuilder :=
  match parts b with
  | Some r => mkBuilder (Some (f r)) (rb_pool b) (rb_err b) (rb_cookies b)
  | None => b
  end.
Definition set_rb_err (e : HttpError) (b : HttpResponseBuilder) : HttpResponseBuilder :=
  mkBuilder (rb_response b) (rb_pool b) (Some e) (rb_cookies b).
Definition set_rb_cookies (j : J) (b : HttpResponseBuilder) : HttpResponseBuilder :=
  mkBuilder (rb_response b) (rb_pool b) (rb_err b) (Some j).

Definition rb_status (status : Z) := with_parts (set_r_status status).
Definition rb_version (v : Version) := with_parts (set_r_version (Some v)).
Definition rb_reason (reason : bytes) := with_parts (set_r_reason (Some reason)).
Definition rb_content_encoding (enc : ContentEncoding) := with_parts (set_r_encoding (Some enc)).
Definition rb_connection_type (c : ConnectionType) := with_parts (set_r_connection_type (Some c)).
Definition rb_upgrade := rb_connection_type Conn_Upgrade.
Definition rb_force_close := rb_connection_type Conn_Close.
Definition rb_chunked := with_parts (set_r_chunked (Some true)).
Definition rb_no_chunking := with_parts (set_r_chunked (Some false)).
Definition rb_write_buffer_capacity (cap : Z) := with_parts (set_r_write_capacity cap).

(** [set]: a typed header, [name] with the value it renders to. *)
Definition rb_set (name : bytes) (value : option bytes) (b : HttpResponseBuilder)
  : HttpResponseBuilder :=
  match parts b with
  | Some _ =>
      match value with
      | Some value => with_parts (fun r => set_r_headers (hm_append name value (r_headers r)) r) b
      | None => set_rb_err HE_HeaderValue b
      end
  | None => b
  end.

Definition rb_header (key value : bytes) (b : HttpResponseBuilder) : HttpResponseBuilder :=
  match parts b with
  | Some _ =>
      match hn_try_from key with
      | Some key =>
          match hv_try_from value with
          | Some value => with_parts (fun r => set_r_headers (hm_append key value (r_headers r)) r) b
          | None => set_rb_err HE_HeaderValue b
          end
      | None => set_rb_err HE_HeaderName b
      end
  | None => b
  end.

Definition rb_content_type (value : bytes) (b : HttpResponseBuilder) : HttpResponseBuilder :=
  match parts b with
  | Some _ =>
      match hv_try_from value with
      | Some value =>
          with_parts (fun r => set_r_headers (hm_insert CONTENT_TYPE value (r_headers r)) r) b
      | None => set_rb_err HE_HeaderValue b
      end
  | None => b
  end.

Definition rb_content_length (len : Z) : HttpResponseBuilder -> HttpResponseBuilder :=
  rb_header CONTENT_LENGTH (format_decimal len).

Definition rb_cookie (c : C) (b : HttpResponseBuilder) : HttpResponseBuilder :=
  match rb_cookies b with
  | None => set_rb_cookies (jar_add c jar_new) b
  | Some jar => set_rb_cookies (jar_add c jar) b
  end.

Definition rb_del_cookie (c : C) (b : HttpResponseBuilder) : HttpResponseBuilder :=
  let jar := default jar_new (rb_cookies b) in
  set_rb_cookies (jar_remove c (jar_add_original c jar)) b.

Definition rb_if_true (value : bool) (f : HttpResponseBuilder -> HttpResponseBuilder)
    (b : HttpResponseBuilder) : HttpResponseBuilder := if value then f b else b.
Definition rb_if_some {T} (value : option T) (f : T -> HttpResponseBuilder -> HttpResponseBuilder)
    (b : HttpResponseBuilder) : HttpResponseBuilder :=
  match value with Some v => f v b | None => b end.

(** The [Set-Cookie] loop of [body]: [None] for a cookie that is no header value. *)
Fixpoint append_cookies (cookies : list bytes) (headers : H) : option H :=
  match cookies with
  | [] => Some headers
  | c :: cookies =>
      match hv_try_from c with
      | Some v => append_cookies cookies (hm_append SET_COOKIE v headers)
      | None => None
      end
  end.

(** [HttpResponseBuilder::body]: the response, the builder behind it, and the
    thread's pool [tl], from which error responses are taken. *)
Definition rb_body (body : Body) (b : HttpResponseBuilder) (tl : ResponsePool)
  : run (InnerHttpResponse * HttpResponseBuilder * ResponsePool) :=
  match rb_err b with
  | Some e =>
      let '(r, tl) := from_error tl (Error_from e) in
      Ret (r, mkBuilder (rb_response b) (rb_pool b) None (rb_cookies b), tl)
  | None =>
      response ← unwrap (rb_response b);
      let b' := mkBuilder None (rb_pool b) None (rb_cookies b) in
      let headers := match rb_cookies b with
                     | Some jar => append_cookies (jar_delta jar) (r_headers response)
                     | None => Some (r_headers response)
                     end in
      match headers with
      | None => let '(r, tl) := from_error tl (Error_from InvalidValue) in Ret (r, b', tl)
      | Some headers =>
          if rb_pool b then
            Ret (set_r_body body (set_r_headers headers response),
                 mkBuilder None false None (rb_cookies b), tl)
          else Panic
      end
  end.

Definition rb_streaming (stream : nat) := rb_body (Body_Streaming stream).
Definition rb_finish := rb_body Body_Empty.

(** [json], with the outcome of [serde_json::to_string]. *)
Definition rb_json (value : option bytes) (b : HttpResponseBuilder) (tl : ResponsePool)
  : run (InnerHttpResponse * HttpResponseBuilder * ResponsePool) :=
  match value with
  | Some body =>
      let contains := match parts b with
                      | Some parts => hm_contains CONTENT_TYPE (r_headers parts)
                      | None => true
                      end in
      let b := if negb contains then rb_header CONTENT_TYPE (b#"application/json") b else b in
      rb_body (Body_Binary (Bin_Bytes body)) b tl
  | None => let '(r, tl) := from_error tl (Error_from JsonErr) in Ret (r, b, tl)
  end.

(** [take]: the new builder and what is left of the old one. *)
Definition rb_take (b : HttpResponseBuilder) : HttpResponseBuilder * HttpResponseBuilder :=
  (b, mkBuilder None false None None).

(** ** Sequences of builder calls *)
Inductive builder_op : Type :=
| B_status (s : Z) | B_version (v : Version) | B_reason (s : bytes)
| B_content_encoding (e : ContentEncoding) | B_connection_type (c : ConnectionType)
| B_chunked | B_no_chunking | B_write_buffer_capacity (cap : Z)
| B_set (name : bytes) (value : option bytes) | B_header (key value : bytes)
| B_content_type (value : bytes) | B_content_length (len : Z)
| B_cookie (c : C) | B_del_cookie (c : C).

Definition builder_step (o : builder_op) : HttpResponseBuilder -> HttpResponseBuilder :=
  match o with
  | B_status s => rb_status s
  | B_version v => rb_version v
  | B_reason s => rb_reason s
  | B_content_encoding e => rb_content_encoding e
  | B_connection_type c => rb_connection_type c
  | B_chunked => rb_chunked
  | B_no_chunking => rb_no_chunking
  | B_write_buffer_capacity cap => rb_write_buffer_capacity cap
  | B_set n v => rb_set n v
  | B_header k v => rb_header k v
  | B_content_type v => rb_content_type v
  | B_content_length l => rb_content_length l
  | B_cookie c => rb_cookie c
  | B_del_cookie c => rb_del_cookie c
  end.
Definition builder_run (ops : list builder_op) (b : HttpResponseBuilder) : HttpResponseBuilder :=
  foldl (fun b o => builder_step o b) b ops.

(** Pools reachable from the empty one by building, answering and dropping. *)
Inductive response_pool_reachable : ResponsePool -> Prop :=
| rpool_new : response_pool_reachable []
| rpool_builder p status :
    response_pool_reachable p -> response_pool_reachable (get_builder p status).2
| rpool_response p status body :
    response_pool_reachable p -> response_pool_reachable (get_response p status body).2
| rpool_drop p inner :
    response_pool_reachable p -> response_pool_reachable (response_release inner p).
(** ** Pooled heads behave as fresh ones

    [same_head]: equal up to the body, the one field the pool does not reset. *)
Definition same_head (r r' : InnerHttpResponse) : Prop :=
  set_r_body Body_Empty r = set_r_body Body_Empty r'.
Definition same_builder (b b' : HttpResponseBuilder) : Prop :=
  option_Forall2 same_head (rb_response b) (rb_response b') /\
  rb_pool b = rb_pool b' /\ rb_err b = rb_err b' /\ rb_cookies b = rb_cookies b'.

Definition fresh_builder (status : Z) : HttpResponseBuilder :=
  mkBuilder (Some (InnerHttpResponse_new status Body_Empty)) true None None.

#[local] Instance same_head_equiv : Equivalence same_head.
Proof. unfold same_head. split; [done|by intros ???|intros ????; congruence]. Qed.
#[local] Instance same_builder_equiv : Equivalence same_builder.
Proof.
  unfold same_builder. split.
  - by intros b.
  - intros b b' (? & ? & ? & ?). by repeat split.
  - intros b1 b2 b3 (? & ? & ? & ?) (? & ? & ? & ?). repeat split; try congruence. by etrans.
Qed.

Lemma same_builder_parts b b' :
  same_builder b b' -> option_Forall2 same_head (parts b) (parts b').
Proof.
  intros (Hr & _ & He & _). unfold parts. rewrite He.
  destruct (rb_err b'); [constructor|done].
Qed.

(** An update that treats heads equal up to the body alike. *)
Notation head_proper f := (forall r r', same_head r r' -> same_head (f r) (f r')).

Lemma with_parts_proper f b b' :
  head_proper f -> same_builder b b' -> same_builder (with_parts f b) (with_parts f b').
Proof.
  intros Hf Hb. unfold with_parts. destruct (same_builder_parts _ _ Hb); [|done].
  destruct Hb as (? & ? & ? & ?). repeat split; simpl; try done. constructor. auto.
Qed.

Lemma set_rb_err_proper e b b' :
  same_builder b b' -> same_builder (set_rb_err e b) (set_rb_err e b').
Proof. by intros (? & ? & ? & ?). Qed.

Lemma set_rb_cookies_proper j b b' :
  same_builder b b' -> same_builder (set_rb_cookies j b) (set_rb_cookies j b').
Proof. by intros (? & ? & ? & ?). Qed.

Lemma set_headers_proper (f : H -> H) :
  head_proper (fun r => set_r_headers (f (r_headers r)) r).
Proof. intros [] [] E. injection E; intros; simplify_eq/=; done. Qed.

Ltac head_solve :=
  let r := fresh in let r' := fresh in let E := fresh in
  intros r r' E; unfold same_head in *; destruct r, r'; injection E; intros; simplify_eq/=; done.

(** Every builder call sends builders equal up to the body to such builders. *)
#[local] Instance builder_step_proper o : Proper (same_builder ==> same_builder) (builder_step o).
Proof.
  intros b b' Hb. pose proof (same_builder_parts _ _ Hb) as Hp.
  destruct o; simpl;
    try (apply with_parts_proper; [head_solve|done]);
    unfold rb_set, rb_content_length, rb_header, rb_content_type, rb_cookie, rb_del_cookie;
    try (destruct Hp as [r r' Hh|]; [|done]; repeat case_match; try done;
         first [apply set_rb_err_proper | apply with_parts_proper; [apply set_headers_proper|]]; done).
  all: pose proof Hb as (_ & _ & _ & ->); try destruct (rb_cookies b'); by apply set_rb_cookies_proper.
Qed.

Lemma builder_run_proper ops : Proper (same_builder ==> same_builder) (builder_run ops).
Proof.
  induction ops as [|o ops IH]; intros b b' Hb; [done|]. simpl. apply IH. by rewrite Hb.
Qed.

Lemma builder_step_ready o b :
  is_Some (rb_response b) -> rb_pool b = true ->
  is_Some (rb_response (builder_step o b)) /\ rb_pool (builder_step o b) = true.
Proof.
  intros Hr Hp. destruct o; simpl;
    unfold rb_status, rb_version, rb_reason, rb_content_encoding, rb_connection_type, rb_chunked,
      rb_no_chunking, rb_write_buffer_capacity, rb_set, rb_content_length, rb_header,
      rb_content_type, rb_cookie, rb_del_cookie, with_parts, set_rb_err, set_rb_cookies;
    repeat case_match; simpl; auto.
Qed.

Lemma builder_run_ready ops b :
  is_Some (rb_response b) -> rb_pool b = true ->
  is_Some (rb_response (builder_run ops b)) /\ rb_pool (builder_run ops b) = true.
Proof.
  revert b. induction ops as [|o ops IH]; intros b Hr Hp; [done|]. simpl.
  apply IH; by apply builder_step_ready.
Qed.

(** A released head is fresh up to its body and status. *)
Definition pool_fresh (r : InnerHttpResponse) : Prop :=
  same_head r (InnerHttpResponse_new (r_status r) Body_Empty).

Lemma response_pool_inv p :
  response_pool_reachable p -> Forall pool_fresh p /\ (length p <= 128)%nat.
Proof.
  induction 1 as [|p s _ [IH1 IH2]|p s b _ [IH1 IH2]|p inner _ [IH1 IH2]].
  - split; [constructor|simpl; lia].
  - destruct p; simpl in *; [done|]. inversion_clear IH1. split; [done|lia].
  - destruct p; simpl in *; [done|]. inversion_clear IH1. split; [done|lia].
  - unfold response_release. destruct (Nat.ltb_spec (length p) 128); [|done].
    split; [by constructor|simpl; lia].
Qed.

Lemma get_builder_fresh p status :
  response_pool_reachable p -> same_builder (get_builder p status).1 (fresh_builder status).
Proof.
  intros [Hp _]%response_pool_inv. destruct p as [|r p]; simpl; [done|].
  inversion_clear Hp as [|? ? Hr _]. repeat split. constructor.
  unfold pool_fresh, same_head in *. destruct r; injection Hr as -> -> -> -> -> -> -> -> ->. done.
Qed.

Lemma rb_body_proper body tl b b' :
  same_builder b b' -> is_Some (rb_response b) -> rb_pool b = true ->
  exists r b1 b1' tl', rb_body body b tl = Ret (r, b1, tl') /\ rb_body body b' tl = Ret (r, b1', tl').
Proof.
  intros (Hr & Hp & He & Hc) [r1 Hr1] Hp1. unfold rb_body. rewrite Hp1 in Hp.
  rewrite <-Hp, Hp1, He, Hc. destruct (rb_err b') as [e|].
  { destruct (from_error tl (Error_from e)). eauto 6. }
  rewrite Hr1 in Hr. inversion Hr as [? r2 Hh Heq1 Heq2|]; subst. rewrite Hr1. simpl.
  assert (r_headers r1 = r_headers r2) as -> by by (destruct r1, r2; injection Hh).
  destruct (match rb_cookies b' with Some _ => _ | None => _ end) as [h|].
  - eexists _, _, _, _. split; [done|]. do 3 f_equal.
    destruct r1, r2. injection Hh as -> -> -> -> -> -> -> -> -> ->. done.
  - destruct (from_error tl (Error_from InvalidValue)). eauto 6.
Qed.

(** The response built on a recycled head is the one built on a fresh head. *)
Lemma builder_body_fresh p tl status ops body :
  response_pool_reachable p ->
  exists r b b' tl',
    rb_body body (builder_run ops (get_builder p status).1) tl = Ret (r, b, tl') /\
    rb_body body (builder_run ops (fresh_builder status)) tl = Ret (r, b', tl').
Proof.
  intros Hp.
  assert (is_Some (rb_response (get_builder p status).1) /\ rb_pool (get_builder p status).1 = true)
    as [Hr Hpool] by (destruct p; simpl; eauto).
  apply rb_body_proper.
  - apply builder_run_proper. by apply get_builder_fresh.
  - by apply builder_run_ready.
  - by apply builder_run_ready.
Qed.

(** Recycling of response heads is invisible: whatever responses were built and
    dropped before, any sequence of builder calls ending in [body] gives on a
    recycled head the response it gives on a newly allocated one (the body a
    released head still carries never shows), it never panics, and the pool holds at
    most 128 heads. *)
Theorem pooled_response_fresh (p tl : ResponsePool) (status : Z) (ops : list builder_op) (body : Body) :
  response_pool_reachable p ->
  (length p <= 128)%nat /\
  exists r b b' tl',
    rb_body body (builder_run ops (get_builder p status).1) tl = Ret (r, b, tl') /\
    rb_body body (builder_run ops (fresh_builder status)) tl = Ret (r, b', tl').
Proof.
  intros Hp. split; [by apply response_pool_inv|by apply builder_body_fresh].
Qed.

(** ** Header errors are sticky *)
Lemma builder_step_err o b e :
  rb_err b = Some e ->
  rb_err (builder_step o b) = Some e /\ rb_response (builder_step o b) = rb_response b.
Proof.
  intros He. assert (parts b = None) as Hp by (unfold parts; by rewrite He).
  destruct o; simpl;
    unfold rb_status, rb_version, rb_reason, rb_content_encoding, rb_connection_type, rb_chunked,
      rb_no_chunking, rb_write_buffer_capacity, rb_set, rb_content_length, rb_header,
      rb_content_type, rb_cookie, rb_del_cookie, with_parts; rewrite ?Hp; try done.
  by destruct (rb_cookies b).
Qed.

Lemma builder_run_err ops b e : rb_err b = Some e -> rb_err (builder_run ops b) = Some e.
Proof.
  revert b. induction ops as [|o ops IH]; intros b He; [done|]. simpl.
  apply IH. by apply builder_step_err.
Qed.

(** A header that cannot be sent is never sent: once [header] is given a value
    with a control character, every later call is ignored and [body] answers 500 with
    none of the headers given. *)
Theorem bad_header_is_500 (key value : bytes) (ops ops' : list builder_op) (b : HttpResponseBuilder)
    (body : Body) (tl : ResponsePool) :
  is_Some (parts (builder_run ops b)) -> forallb value_byte value = false ->
  response_pool_reachable tl ->
  exists r b' tl', rb_body body (builder_run (ops ++ B_header key value :: ops') b) tl =
    Ret (r, b', tl') /\ r_status r = 500 /\ r_headers r = hm_empty /\ r_body r = Body_Empty.
Proof.
  intros [r0 Hp] Hv [Htl _]%response_pool_inv.
  assert (exists e, rb_err (rb_header key value (builder_run ops b)) = Some e) as [e He].
  { unfold rb_header. rewrite Hp, hv_try_from_bad by done. destruct (hn_try_from key); simpl; eauto. }
  assert (rb_err (builder_run (ops ++ B_header key value :: ops') b) = Some e) as He'.
  { unfold builder_run in *. rewrite foldl_app. simpl. by apply builder_run_err. }
  unfold rb_body. rewrite He'. unfold from_error, get_response.
  destruct tl as [|r1 tl]; [by eexists _, _, _|]. eexists _, _, _. split; [done|]. simpl.
  inversion_clear Htl as [|? ? Hf _]. by destruct r1; injection Hf.
Qed.

(** ** Builders without errors

    A builder that holds a response, and the headers added to it. *)
Definition builder_of (r : InnerHttpResponse) : HttpResponseBuilder := mkBuilder (Some r) true None None.
Definition add_header (name v : bytes) (r : InnerHttpResponse) : InnerHttpResponse :=
  set_r_headers (hm_append name v (r_headers r)) r.
Definition add_header_if (name : bytes) (o : option bytes) (r : InnerHttpResponse) : InnerHttpResponse :=
  match o with Some v => add_header name v r | None => r end.

Lemma get_add_header_if name o r k :
  hm_get k (r_headers (add_header_if name o r)) =
  if decide (name = k) then match hm_get k (r_headers r) with Some v => Some v | None => o end
  else hm_get k (r_headers r).
Proof.
  destruct o as [v|]; simpl.
  - rewrite hm_get_append. case_decide as Hk; [|done]. subst. by destruct (hm_get k _).
  - by case_decide; [destruct (hm_get k _)|].
Qed.

Lemma add_header_if_body name o r : r_body (add_header_if name o r) = r_body r.
Proof. by destruct o. Qed.
Lemma add_header_if_status name o r : r_status (add_header_if name o r) = r_status r.
Proof. by destruct o. Qed.

Lemma body_builder body r tl :
  rb_body body (builder_of r) tl = Ret (set_r_body body r, mkBuilder None false None None, tl).
Proof. by destruct r. Qed.
Lemma finish_builder r :
  r_body r = Body_Empty ->
  rb_finish (builder_of r) [] = Ret (r, mkBuilder None false None None, []).
Proof. destruct r. simpl. by intros ->. Qed.

End Responses.

Arguments InnerHttpResponse : clear implicits.
Arguments ResponsePool : clear implicits.
Arguments HttpResponseBuilder : clear implicits.
Arguments builder_op : clear implicits.

(** ** Concrete conversions and cookie jar *)
Definition token_byte (b : Z) : bool :=
  ((48 <=? b) && (b <=? 57)) || ((97 <=? b) && (b <=? 122)) || (b =? 45).
Definition ascii_conv : HeaderConv.
Proof.
  refine {| hn_try_from := fun k => let k := to_lowercase k in
              if (0 <? length k)%nat && forallb token_byte k then Some k else None;
            hv_try_from := fun v => if forallb value_byte v then Some v else None |}.
  - by intros v ->.
  - by intros v ->.
Defined.
#[export] Instance list_jar : CookieJar (list bytes) bytes :=
  {| jar_new := []; jar_add := fun c j => j ++ [c]; jar_add_original := fun _ j => j;
     jar_remove := fun c j => j ++ [c ++ b#"; Max-Age=0"]; jar_delta := fun j => j |}.

(** A pool with the head of an earlier response in it, body included. *)
Definition used_pool : ResponsePool (list (bytes * bytes)) :=
  response_release
    {| r_version := Some HTTP_10; r_headers := [(b#"x-secret", b#"1")]; r_status := 404;
       r_reason := Some (b#"gone"); r_body := Body_Binary (Bin_Bytes (b#"old body"));
       r_chunked := Some true; r_encoding := Some Enc_Gzip; r_connection_type := Some Conn_Upgrade;
       r_write_capacity := 1; r_response_size := 99; r_error := Some (mkError 500) |} [].

Lemma used_pool_reachable : response_pool_reachable (J := list bytes) used_pool.
Proof. apply rpool_drop, rpool_new. Qed.

Lemma pooled_response_fresh_witness :
  exists r b tl', @rb_body (list (bytes * bytes)) _ ascii_conv (list bytes) bytes _ Body_Empty
      (@builder_run (list (bytes * bytes)) _ ascii_conv (list bytes) bytes _
         [B_header (b#"X-Test") (b#"v"); B_cookie (b#"a=b")]
         (get_builder used_pool 200).1) [] = Ret (r, b, tl') /\
    r_headers r = [(b#"x-test", b#"v"); (b#"set-cookie", b#"a=b")] /\ r_body r = Body_Empty.
Proof.
  destruct (@pooled_response_fresh (list (bytes * bytes)) _ ascii_conv (list bytes) bytes _
      used_pool [] 200 [B_header (b#"X-Test") (b#"v"); B_cookie (b#"a=b")] Body_Empty
      used_pool_reachable) as (_ & r & b & b' & tl' & Hr & Hf).
  exists r, b, tl'. split; [exact Hr|]. vm_compute in Hf. injection Hf as <- _ _. done.
Defined.

Lemma bad_header_is_500_witness :
  exists r b' tl', @rb_body (list (bytes * bytes)) _ ascii_conv (list bytes) bytes _ Body_Empty
      (@builder_run (list (bytes * bytes)) _ ascii_conv (list bytes) bytes _
         ([B_header (b#"x-a") (b#"1")] ++ B_header (b#"x-b") [13; 10] :: [B_status 200])
         (fresh_builder 200)) used_pool = Ret (r, b', tl') /\ r_status r = 500.
Proof.
  destruct (@bad_header_is_500 (list (bytes * bytes)) _ ascii_conv (list bytes) bytes _
      (b#"x-b") [13; 10] [B_header (b#"x-a") (b#"1")] [B_status 200] (fresh_builder 200)
      Body_Empty used_pool) as (r & b' & tl' & Hr & Hs & _).
  - vm_compute. eauto.
  - reflexivity.
  - apply used_pool_reachable.
  - eauto.
Defined.
