(* ===== verification/Router.v ===== *)
(** * The router (src/src/router.rs) and path parameters (src/src/param.rs)

    Path patterns are compiled to regular expressions, a request is matched against the
    patterns in order of registration, and the captured segments become its parameters.
    The [regex] and [percent_encoding] crates are interfaces. *)
From S2P Require Import Prelude StrLib Errors Http.
Open Scope Z_scope.

(** ** Parameters (param.rs) *)

(** [Params]: names and values in the order they were added. *)
Definition Params : Type := list (bytes * bytes).
Definition params_new : Params := [].
Definition params_clear (p : Params) : Params := [].
Definition params_add (name value : bytes) (p : Params) : Params := p ++ [(name, value)].
Definition params_is_empty (p : Params) : bool := bool_decide (p = []).
Definition params_len (p : Params) : Z := lenZ p.
Fixpoint params_get (key : bytes) (p : Params) : option bytes :=
  match p with
  | [] => None
  | (name, value) :: p => if decide (key = name) then Some value else params_get key p
  end.

(** The trait [FromParam]. *)
Class FromParam (T E : Type) := from_param : bytes -> result T E.
Definition params_query {T E} `{FromParam T E} (key : bytes) (p : Params) : result T E :=
  match params_get key p with
  | Some s => from_param s
  | None => from_param []
  end.

(** The two [Index] implementations; both panic on a missing parameter. *)
Definition params_index (name : bytes) (p : Params) : run bytes := unwrap (params_get name p).
Definition params_index_usize (idx : Z) (p : Params) : run bytes :=
  '(_, value) ← unwrap (p !! Z.to_nat idx); Ret value.

(** A relative [PathBuf] is the list of its components; the target is Unix, where
    pushing a name without a slash appends it. *)
Definition PathBuf : Type := list bytes.
Definition pathbuf_push (seg : bytes) (buf : PathBuf) : PathBuf := buf ++ [seg].
Definition pathbuf_pop (buf : PathBuf) : PathBuf := take (length buf - 1) buf.
Definition cfg_windows : bool := false.

Definition ends_with (c : Z) (s : bytes) : bool := bool_decide (last s = Some c).

(** The loop of [PathBuf::from_param] over [val.split('/')]. *)
Fixpoint from_param_loop (segments : list bytes) (buf : PathBuf) : result PathBuf UriSegmentError :=
  match segments with
  | [] => Ok buf
  | segment :: rest =>
      if bool_decide (segment = b#"..") then from_param_loop rest (pathbuf_pop buf)
      else if starts_with (b#".") segment then Err (BadStart 46)
      else if starts_with (b#"*") segment then Err (BadStart 42)
      else if ends_with 58 segment then Err (BadEnd 58)
      else if ends_with 62 segment then Err (BadEnd 62)
      else if ends_with 60 segment then Err (BadEnd 60)
      else if bool_decide (segment = []) then from_param_loop rest buf
      else if cfg_windows && contains segment [92] then Err (BadChar 92)
      else from_param_loop rest (pathbuf_push segment buf)
  end.
#[export] Instance PathBuf_from_param : FromParam PathBuf UriSegmentError := fun val =>
  from_param_loop (split_on 47 val) [].

(** [FROM_STR!]: parsing failures become a 400 response. *)
Record InternalError (E : Type) : Type := mkInternal { ie_cause : E; ie_status : Z }.
Arguments mkInternal {E}. Arguments ie_cause {E}. Arguments ie_status {E}.
Definition from_str_param {T E} (from_str : bytes -> result T E) (val : bytes)
  : result T (InternalError E) :=
  match from_str val with
  | Ok t => Ok t
  | Err e => Err (mkInternal e 400)
  end.

(** ** The regex crate

    [parts]: the fragment of the syntax that ordinary patterns compile to, literals and
    named groups over runs of non-slash or of any characters.  [seg_match] is the
    documented leftmost-first meaning of an anchored sequence of them: groups are
    greedy, a longer capture is tried before a shorter one, and captures end at
    character boundaries. *)
Inductive GroupKind : Type := Re_segment | Re_tail.
Inductive part : Type := Lit (s : bytes) | Group (name : bytes) (kind : GroupKind).

Definition group_char (k : GroupKind) (b : Z) : bool :=
  match k with Re_segment => negb (b =? 47) | Re_tail => negb (b =? 10) end.
Definition group_min (k : GroupKind) : nat := match k with Re_segment => 1 | Re_tail => 0 end.
Definition group_source (k : GroupKind) : bytes :=
  match k with Re_segment => b#"[^/]+" | Re_tail => b#".*" end.

Fixpoint run_length (f : Z -> bool) (s : bytes) : nat :=
  match s with b :: s => if f b then S (run_length f s) else O | [] => O end.
Definition at_boundary (s : bytes) : bool := match s with b :: _ => negb (cont_byte b) | [] => true end.

(** The longest capture of at least [min] and at most [n] bytes that lets [rest] match. *)
Fixpoint try_lengths (rest : bytes -> option (list bytes)) (min n : nat) (s : bytes)
  : option (list bytes) :=
  if (n <? min)%nat then None
  else
    match (if at_boundary (drop n s) then rest (drop n s) else None) with
    | Some vs => Some (take n s :: vs)
    | None => match n with O => None | S n => try_lengths rest min n s end
    end.

Fixpoint seg_match (parts : list part) (s : bytes) : option (list bytes) :=
  match parts with
  | [] => if bool_decide (s = []) then Some [] else None
  | Lit l :: parts => if starts_with l s then seg_match parts (drop (length l) s) else None
  | Group _ k :: parts => try_lengths (seg_match parts) (group_min k) (run_length (group_char k) s) s
  end.

Definition part_names (parts : list part) : list bytes :=
  omap (fun p => match p with Group n _ => Some n | Lit _ => None end) parts.

(** Names of groups: letters, digits and underscores, not starting with a digit. *)
Definition is_letter (b : Z) : bool := ((65 <=? b) && (b <=? 90)) || ((97 <=? b) && (b <=? 122)) || (b =? 95).
Definition is_digit (b : Z) : bool := (48 <=? b) && (b <=? 57).
Definition name_ok (n : bytes) : bool :=
  match n with
  | [] => false
  | b :: n => is_letter b && forallb (fun b => is_letter b || is_digit b) n
  end.

(** [str::chars], each character as its bytes. *)
Fixpoint chars_fuel (fuel : nat) (s : bytes) : list bytes :=
  match fuel, s with
  | S fuel, _ :: _ =>
      let n := match utf8_step s with inl n | inr n => n end in
      take n s :: chars_fuel fuel (drop n s)
  | _, _ => []
  end.
Definition chars (s : bytes) : list bytes := chars_fuel (length s) s.

Definition part_source (escape : bytes -> bytes) (p : part) : bytes :=
  match p with
  | Lit s => concat (map escape (chars s))
  | Group n k => b#"(?P<" ++ n ++ b#">" ++ group_source k ++ b#")"
  end.

Definition is_ascii (s : bytes) : bool := forallb (fun b => (0 <=? b) && (b <? 128)) s.
Definition part_ascii (p : part) : bool := match p with Lit s => is_ascii s | Group n _ => name_ok n end.

(** The characters with a meaning of their own, which [escape] protects. *)
Definition re_metas : bytes := b#"\.+*?()|[]{}^$#&-~".

Class RegexCrate (R : Type) := {
  re_new : bytes -> option R;
  re_capture_names : R -> list (option bytes);
  re_captures : R -> bytes -> option (list (option bytes));
  re_is_match : R -> bytes -> bool;
  re_escape : bytes -> bytes;
  re_escape_plain b : 0 <= b < 128 -> b ∉ re_metas -> re_escape [b] = [b];
  re_is_match_captures r s : re_is_match r s = bool_decide (is_Some (re_captures r s));
  re_parts parts :
    forallb part_ascii parts = true -> NoDup (part_names parts) ->
    exists r, re_new (b#"^" ++ concat (map (part_source re_escape) parts) ++ b#"$") = Some r /\
      re_capture_names r = None :: map Some (part_names parts) /\
      forall s, from_utf8 s = Some s ->
        re_captures r s = (fun vs => Some s :: map Some vs) <$> seg_match parts s;
}.

(** The percent_encoding crate: bytes other than the percent sign stand for themselves. *)
Class PercentEncoding := {
  percent_decode : bytes -> bytes;
  percent_decode_plain s : 37 ∉ s -> percent_decode s = s;
}.

(** [http::Uri]: its path, ASCII text, and its query. *)
Class UriCrate := { uri_path : bytes -> bytes; uri_query : bytes -> option bytes }.

(** ** Resources and their patterns *)
Inductive PatternElement : Type := PE_Str (s : bytes) | PE_Var (s : bytes).

Inductive ResourceType : Type := RT_Normal | RT_Default | RT_External | RT_Unset.
#[export] Instance ResourceType_eq_dec : EqDecision ResourceType.
Proof. solve_decision. Defined.

Definition DEFAULT_PATTERN : bytes := b#"[^/]+".

(** The variables of the loop of [Resource::parse]. *)
Record ParseState : Type := mkParse {
  ps_re1 : bytes;
  ps_re2 : bytes;
  ps_el : bytes;
  ps_in_param : bool;
  ps_in_param_pattern : bool;
  ps_param_name : bytes;
  ps_param_pattern : bytes;
  ps_is_dynamic : bool;
  ps_elems : list PatternElement;
}.

Section Routers.
Context {R : Type} `{Hre : RegexCrate R}.

Inductive PatternType : Type := PT_Static (s : bytes) | PT_Dynamic (re : R) (names : list bytes).

Record Resource : Type := mkResource {
  res_tp : PatternType;
  res_rtp : ResourceType;
  res_name : bytes;
  res_pattern : bytes;
  res_elements : list PatternElement;
}.

(** One turn of the loop, behind the test for a leading slash. *)
Definition parse_char (ch : bytes) (st : ParseState) : ParseState :=
  let '(mkParse re1 re2 el in_param in_param_pattern name pat dyn elems) := st in
  if in_param then
    if bool_decide (ch = b#"}") then
      mkParse (re1 ++ b#"(?P<" ++ name ++ b#">" ++ pat ++ b#")") re2 el false false
        [] DEFAULT_PATTERN dyn (elems ++ [PE_Var name])
    else if bool_decide (ch = b#":") then
      mkParse re1 re2 el in_param true name [] dyn elems
    else if in_param_pattern then
      if negb (bool_decide (ch = b#" ") && bool_decide (pat = [])) then
        mkParse re1 re2 el in_param in_param_pattern name (pat ++ ch) dyn elems
      else st
    else mkParse re1 re2 el in_param in_param_pattern (name ++ ch) pat dyn elems
  else if bool_decide (ch = b#"{") then
    mkParse re1 re2 [] true in_param_pattern name pat true (elems ++ [PE_Str el])
  else mkParse (re1 ++ re_escape ch) (re2 ++ ch) (el ++ ch) in_param in_param_pattern name pat dyn elems.

Fixpoint parse_loop (index : nat) (chs : list bytes) (st : ParseState) : ParseState :=
  match chs with
  | [] => st
  | ch :: chs =>
      if (index =? 0)%nat && bool_decide (ch = b#"/") then parse_loop (S index) chs st
      else parse_loop (S index) chs (parse_char ch st)
  end.

Definition resource_parse (pattern prefix : bytes) : bytes * list PatternElement * bool :=
  let st := parse_loop 0 (chars pattern)
              (mkParse (b#"^" ++ prefix) prefix [] false false [] DEFAULT_PATTERN false []) in
  let re := if ps_is_dynamic st then ps_re1 st ++ b#"$" else ps_re2 st in
  (re, ps_elems st, ps_is_dynamic st).

(** A pattern that is no regular expression is a panic. *)
Definition resource_with_prefix (name path prefix : bytes) : run Resource :=
  let '(pattern, elements, is_dynamic) := resource_parse path prefix in
  tp ← (if is_dynamic then
          re ← unwrap (re_new pattern);
          Ret (PT_Dynamic re (omap id (re_capture_names re)))
        else Ret (PT_Static pattern));
  Ret (mkResource tp RT_Normal name path elements).

Definition resource_new (name path : bytes) : run Resource := resource_with_prefix name path (b#"/").

Definition resource_external (name path : bytes) : run Resource :=
  r ← resource_with_prefix name path (b#"/");
  Ret (mkResource (res_tp r) RT_External (res_name r) (res_pattern r) (res_elements r)).

Definition resource_unset : Resource := mkResource (PT_Static []) RT_Unset [] [] [].

(** [PartialEq for Resource]. *)
Definition resource_eq (r r' : Resource) : bool := bool_decide (res_pattern r = res_pattern r').

Definition is_match (r : Resource) (path : bytes) : bool :=
  match res_tp r with
  | PT_Static s => bool_decide (s = path)
  | PT_Dynamic re _ => re_is_match re path
  end.

(** The loop over the captures: groups that took no part in the match are skipped
    without counting, the first one is the whole match. *)
Fixpoint add_captures (names : list bytes) (idx : nat) (captures : list (option bytes)) (p : Params)
  : run Params :=
  match captures with
  | [] => Ret p
  | None :: captures => add_captures names idx captures p
  | Some m :: captures =>
      p ← (match idx with
           | O => Ret p
           | S i => name ← unwrap (names !! i); Ret (params_add name m p)
           end);
      add_captures names (S idx) captures p
  end.

Definition match_with_params (r : Resource) (path : bytes) (p : Params) : run (bool * Params) :=
  match res_tp r with
  | PT_Static s => Ret (bool_decide (s = path), p)
  | PT_Dynamic re names =>
      match re_captures re path with
      | Some captures => p ← add_captures names 0 captures p; Ret (true, p)
      | None => Ret (false, p)
      end
  end.

(** The loop of [Resource::resource_path]. *)
Fixpoint push_elements (els : list PatternElement) (iter : list bytes) (path : bytes)
  : result bytes UrlGenerationError :=
  match els with
  | [] => Ok path
  | PE_Str s :: els => push_elements els iter (path ++ s)
  | PE_Var _ :: els =>
      match iter with
      | val :: iter => push_elements els iter (path ++ val)
      | [] => Err NotEnoughElements
      end
  end.
Definition resource_path (r : Resource) (prefix : bytes) (elements : list bytes)
  : result bytes UrlGenerationError :=
  push_elements (res_elements r) elements
    (if decide (res_rtp r = RT_External) then [] else prefix ++ b#"/").

(** ** The router *)
Record Router : Type := mkRouter {
  rt_prefix : bytes;
  rt_prefix_len : Z;
  rt_named : gmap bytes (Resource * bool);
  rt_patterns : list Resource;
}.

(** The loop of [Router::new]: names, patterns and resource handlers. *)
Fixpoint router_loop {T} (map : list (Resource * option T))
    (named : gmap bytes (Resource * bool)) (patterns : list Resource) (resources : list T)
  : gmap bytes (Resource * bool) * list Resource * list T :=
  match map with
  | [] => (named, patterns, resources)
  | (pattern, resource) :: map =>
      let named := if negb (bool_decide (res_name pattern = [])) then
                     <[res_name pattern := (pattern, match resource with None => true | Some _ => false end)]> named
                   else named in
      match resource with
      | Some resource => router_loop map named (patterns ++ [pattern]) (resources ++ [resource])
      | None => router_loop map named patterns resources
      end
  end.

Definition router_new {T} (prefix : bytes) (map : list (Resource * option T))
  : Router * list T :=
  let prefix := trim_right_matches 47 (trim prefix) in
  let '(named, patterns, resources) := router_loop map ∅ [] [] in
  (mkRouter prefix (lenZ prefix) named patterns, resources).

Definition get_resource (r : Router) (idx : Z) : run Resource := unwrap (rt_patterns r !! Z.to_nat idx).

Definition has_route (r : Router) (path : bytes) : bool :=
  let path := if bool_decide (path = []) then b#"/" else path in
  existsb (fun pattern => is_match pattern path) (rt_patterns r).

Definition router_resource_path (r : Router) (name : bytes) (elements : list bytes)
  : result bytes UrlGenerationError :=
  match rt_named r !! name with
  | Some (pattern, _) => resource_path pattern (rt_prefix r) elements
  | None => Err ResourceNotFound
  end.

(** ** Requests (httprequest.rs): the shared head, the state, the router *)
Context {H : Type} `{Hhm : HeaderMap H} {St : Type} `{Huri : UriCrate} `{Hpct : PercentEncoding}.
Notation Msg := (HttpInnerMessage H).

Record HttpRequest : Type := mkReq {
  rq_msg : Msg;
  rq_state : option St;
  rq_router : option Router;
}.

Definition set_msg_params (p : Params) (m : Msg) : Msg :=
  {| msg_version := msg_version m; msg_method := msg_method m; msg_uri := msg_uri m;
     msg_headers := msg_headers m; msg_extensions := msg_extensions m; msg_params := p;
     msg_cookies := msg_cookies m; msg_query := msg_query m;
     msg_query_loaded := msg_query_loaded m; msg_addr := msg_addr m;
     msg_payload := msg_payload m; msg_info := msg_info m; msg_resource := msg_resource m |}.
Definition set_msg_resource (r : RouterResource) (m : Msg) : Msg :=
  {| msg_version := msg_version m; msg_method := msg_method m; msg_uri := msg_uri m;
     msg_headers := msg_headers m; msg_extensions := msg_extensions m;
     msg_params := msg_params m; msg_cookies := msg_cookies m; msg_query := msg_query m;
     msg_query_loaded := msg_query_loaded m; msg_addr := msg_addr m;
     msg_payload := msg_payload m; msg_info := msg_info m; msg_resource := r |}.
Definition set_rq_msg (m : Msg) (rq : HttpRequest) : HttpRequest := mkReq m (rq_state rq) (rq_router rq).

Definition req_with_state (m : Msg) (state : St) (router : Router) : HttpRequest :=
  mkReq m (Some state) (Some router).
Definition req_path (rq : HttpRequest) : bytes := uri_path (msg_uri (rq_msg rq)).
Definition req_query_string (rq : HttpRequest) : bytes :=
  match uri_query (msg_uri (rq_msg rq)) with Some query => query | None => [] end.
Definition req_match_info (rq : HttpRequest) : Params := msg_params (rq_msg rq).
Definition req_add_param (name value : bytes) (rq : HttpRequest) : HttpRequest :=
  set_rq_msg (set_msg_params (params_add name value (req_match_info rq)) (rq_msg rq)) rq.
Definition req_prefix_len (rq : HttpRequest) : Z :=
  match rq_router rq with Some router => lenZ (rt_prefix router) | None => 0 end.

(** [set_resource]: the index is cut to 16 bits. *)
Definition req_set_resource (res : Z) (rq : HttpRequest) : HttpRequest :=
  set_rq_msg (set_msg_resource (Normal (res mod 2 ^ 16)) (rq_msg rq)) rq.
Definition req_resource (rq : HttpRequest) : run Resource :=
  match rq_router rq with
  | Some router =>
      match msg_resource (rq_msg rq) with
      | Normal idx => get_resource router idx
      | Notset => Ret resource_unset
      end
  | None => Ret resource_unset
  end.

(** [url_for], up to [Url::parse] of the text it renders; [scheme] and [host] are those
    of the connection info. *)
Definition url_for (scheme host : bytes) (rq : HttpRequest) (name : bytes) (elements : list bytes)
  : result bytes UrlGenerationError :=
  match rq_router rq with
  | None => Err RouterNotAvailable
  | Some router =>
      match router_resource_path router name elements with
      | Err e => Err e
      | Ok path =>
          if starts_with (b#"/") path then Ok (scheme ++ b#"://" ++ host ++ path) else Ok path
      end
  end.

(** The loop of [Router::recognize] over the patterns. *)
Fixpoint recognize_loop (idx : Z) (patterns : list Resource) (p : bytes) (rq : HttpRequest)
  : run (option Z * HttpRequest) :=
  match patterns with
  | [] => Ret (None, rq)
  | pattern :: patterns =>
      '(matched, params) ← match_with_params pattern p (req_match_info rq);
      let rq := set_rq_msg (set_msg_params params (rq_msg rq)) rq in
      if (matched : bool) then Ret (Some idx, req_set_resource idx rq)
      else recognize_loop (idx + 1) patterns p rq
  end.

Definition recognize (r : Router) (rq : HttpRequest) : run (option Z * HttpRequest) :=
  if lenZ (req_path rq) <? rt_prefix_len r then Ret (None, rq)
  else
    let path := dropZ (rt_prefix_len r) (req_path rq) in
    let route_path := if bool_decide (path = []) then b#"/" else path in
    p ← unwrap (from_utf8 (percent_decode route_path));
    recognize_loop 0 (rt_patterns r) p rq.
End Routers.
Arguments Resource : clear implicits.
Arguments Router : clear implicits.
Arguments HttpRequest : clear implicits.

(** ** Safety of path parameters *)

(** A component that stays below the directory it is appended to. *)
Definition plain_component (seg : bytes) : Prop :=
  seg <> [] /\ (47 ∉ seg) /\ starts_with (b#".") seg = false /\ starts_with (b#"*") seg = false /\
  Forall (fun c => ends_with c seg = false) [58; 62; 60].

Lemma from_param_loop_safe segments buf out :
  Forall (fun s => 47 ∉ s) segments -> Forall plain_component buf ->
  from_param_loop segments buf = Ok out -> Forall plain_component out.
Proof.
  intros Hs. revert buf. induction Hs as [|seg rest Hseg Hrest IH]; cbn [from_param_loop]; intros buf Hbuf Hout.
  - by simplify_eq.
  - repeat case_match; simplify_eq; try (by eapply IH).
    + eapply IH; [|done]. by apply Forall_take.
    + eapply IH; [|done]. apply Forall_app; split; [done|]. apply Forall_singleton.
      repeat match goal with Hd : bool_decide _ = false |- _ => apply bool_decide_eq_false in Hd end.
      split_and!; try done. by repeat constructor.
Qed.

