(* ===== verification/RouterFacts.v ===== *)
(** * Meaning of path patterns and recognition of requests (src/src/router.rs)

    The pattern compiler against a declarative meaning of patterns, URL generation, the
    first-match rule, and a concrete regular-expression engine for the fragment of the
    syntax that patterns compile to. *)
From S2P Require Import Prelude StrLib Errors Http Router.
Open Scope Z_scope.

(** ** Patterns of literals and variables

    The text of a pattern, the condition under which it is read back as it was meant,
    and the declarative meaning of its matches. *)
Definition print_part (p : part) : bytes :=
  match p with
  | Lit s => s
  | Group n Re_segment => b#"{" ++ n ++ b#"}"
  | Group n Re_tail => b#"{" ++ n ++ b#":.*}"
  end.
Definition print_parts (parts : list part) : bytes := concat (map print_part parts).
Definition is_group (p : part) : bool := match p with Group _ _ => true | Lit _ => false end.
Definition part_wf (p : part) : Prop :=
  match p with Lit s => is_ascii s = true /\ 123 ∉ s | Group n _ => name_ok n = true end.
Definition pattern_wf (parts : list part) : Prop :=
  Forall part_wf parts /\ NoDup (part_names parts) /\ existsb is_group parts = true.

(** The path of a pattern: its leading slash may be left out. *)
Definition pattern_text (slash : bool) (parts : list part) : bytes :=
  (if slash then b#"/" else []) ++ print_parts parts.

Inductive parts_match : list part -> bytes -> list bytes -> Prop :=
| pm_end : parts_match [] [] []
| pm_lit l parts s vs : parts_match parts s vs -> parts_match (Lit l :: parts) (l ++ s) vs
| pm_group n k parts v s vs :
    forallb (group_char k) v = true -> (group_min k <= length v)%nat -> at_boundary s = true ->
    parts_match parts s vs -> parts_match (Group n k :: parts) (v ++ s) (v :: vs).

Lemma forallb_run_length f v s : forallb f v = true -> (length v <= run_length f (v ++ s))%nat.
Proof.
  induction v as [|b v IH]; simpl; [lia|]. intros [Hb Hv]%andb_prop. rewrite Hb. specialize (IH Hv). lia.
Qed.
Lemma run_length_take f s n : (n <= run_length f s)%nat -> forallb f (take n s) = true /\ (n <= length s)%nat.
Proof.
  revert n. induction s as [|b s IH]; intros n; simpl.
  - intros Hn. assert (n = 0%nat) as -> by lia. done.
  - destruct (f b) eqn:Hb; intros Hn; [|assert (n = 0%nat) as -> by lia; simpl; split; [done|lia]].
    destruct n as [|n]; simpl; [split; [done|lia]|]. rewrite Hb. destruct (IH n); [lia|]. split; [done|lia].
Qed.

Lemma try_lengths_sound rest min n s vs :
  try_lengths rest min n s = Some vs ->
  exists m vs', (min <= m <= n)%nat /\ vs = take m s :: vs' /\
    at_boundary (drop m s) = true /\ rest (drop m s) = Some vs'.
Proof.
  induction n as [|n IH]; cbn [try_lengths]; intros Hv;
    match type of Hv with context [(?n <? min)%nat] => destruct (Nat.ltb_spec n min) as [|Hm]; [done|] end.
  - destruct (if at_boundary (drop 0 s) then _ else _) eqn:Hr; simplify_eq.
    exists 0%nat. destruct (at_boundary (drop 0 s)) eqn:Hb; [|done]. eauto with lia.
  - destruct (if at_boundary (drop (S n) s) then _ else _) eqn:Hr.
    + simplify_eq. exists (S n). destruct (at_boundary (drop (S n) s)) eqn:Hb; [|done]. eauto with lia.
    + destruct (IH Hv) as (m & vs' & ? & ?). exists m, vs'. split; [lia|done].
Qed.

Lemma try_lengths_complete rest min n s m :
  (min <= m <= n)%nat -> at_boundary (drop m s) = true -> is_Some (rest (drop m s)) ->
  is_Some (try_lengths rest min n s).
Proof.
  intros Hm Hb [vs Hr]. induction n as [|n IH].
  - assert (m = 0%nat) as -> by lia. simpl. rewrite (proj2 (Nat.ltb_ge 0 min)) by lia.
    rewrite Hb, Hr. eauto.
  - cbn [try_lengths]. rewrite (proj2 (Nat.ltb_ge (S n) min)) by lia.
    destruct (if at_boundary (drop (S n) s) then _ else _) eqn:Hx; [eauto|].
    destruct (decide (m = S n)) as [->|]; [by rewrite Hb, Hr in Hx|]. apply IH; lia.
Qed.

(** [seg_match] finds a match exactly when there is one. *)
Lemma seg_match_sound parts s vs : seg_match parts s = Some vs -> parts_match parts s vs.
Proof.
  revert s vs. induction parts as [|[l|n k] parts IH]; intros s vs; cbn [seg_match].
  - case_bool_decide; intros ?; simplify_eq. constructor.
  - destruct (starts_with l s) eqn:Hl; [|done]. apply starts_with_app in Hl as [r ->].
    rewrite drop_app_length. intros ?. by constructor; apply IH.
  - intros (m & vs' & Hm & -> & Hb & Hr)%try_lengths_sound.
    destruct (run_length_take (group_char k) s m) as [Hf Hl]; [lia|].
    rewrite <-(take_drop m s) at 1. constructor; [done| |done|by apply IH].
    rewrite length_take. lia.
Qed.
Lemma seg_match_complete parts s vs : parts_match parts s vs -> is_Some (seg_match parts s).
Proof.
  induction 1 as [|l parts s vs _ IH|n k parts v s vs Hf Hl Hb _ IH]; cbn [seg_match].
  - by eexists.
  - rewrite (proj2 (starts_with_app _ _)) by eauto. by rewrite drop_app_length.
  - apply (try_lengths_complete _ _ _ _ (length v)).
    + split; [done|]. by apply forallb_run_length.
    + by rewrite drop_app_length.
    + by rewrite drop_app_length.
Qed.
Lemma parts_match_length parts s vs : parts_match parts s vs -> length vs = length (part_names parts).
Proof. induction 1; simpl; congruence. Qed.

Lemma is_ascii_app s t : is_ascii (s ++ t) = is_ascii s && is_ascii t.
Proof. apply forallb_app. Qed.

Lemma ascii_step b s : 0 <= b < 128 -> utf8_step (b :: s) = inl 1%nat.
Proof. intros Hb. unfold utf8_step. cbn [nth]. by rewrite (proj2 (Z.ltb_lt b 128)) by lia. Qed.

Lemma is_ascii_cons b s : is_ascii (b :: s) = true <-> 0 <= b < 128 /\ is_ascii s = true.
Proof. cbn [is_ascii forallb]. rewrite !andb_true_iff, Z.leb_le, Z.ltb_lt. naive_solver. Qed.

Lemma chars_ascii s : is_ascii s = true -> chars s = map (fun b => [b]) s.
Proof.
  unfold chars. induction s as [|b s IH]; [done|]. intros [Hb Hs]%is_ascii_cons.
  cbn [length chars_fuel map]. rewrite ascii_step by done.
  change (take 1 (b :: s)) with [b]. change (drop 1 (b :: s)) with s. by rewrite IH.
Qed.

Lemma from_utf8_ascii s : is_ascii s = true -> from_utf8 s = Some s.
Proof.
  intros Hs. unfold from_utf8. assert (utf8_valid (length s) s = true) as ->; [|done].
  induction s as [|b s IH]; [done|]. apply is_ascii_cons in Hs as [Hb Hs].
  cbn [length utf8_valid]. rewrite ascii_step by done. by apply IH.
Qed.

Lemma name_ok_ascii n : name_ok n = true -> is_ascii n = true /\ (125 ∉ n) /\ (58 ∉ n) /\ (62 ∉ n).
Proof.
  assert (forall b, is_letter b || is_digit b = true ->
    (0 <= b < 128) /\ b <> 125 /\ b <> 58 /\ b <> 62) as Hc.
  { unfold is_letter, is_digit. intros b. rewrite !orb_true_iff, !andb_true_iff, !Z.leb_le, Z.eqb_eq. lia. }
  assert (forall m, forallb (fun b => is_letter b || is_digit b) m = true ->
    is_ascii m = true /\ (125 ∉ m) /\ (58 ∉ m) /\ (62 ∉ m)) as Hg.
  { induction m as [|b m IH]; [set_solver|]. intros [Hb Hm]%andb_prop.
    destruct (Hc b Hb) as (? & ? & ? & ?). destruct (IH Hm) as (? & ? & ? & ?).
    rewrite is_ascii_cons, !not_elem_of_cons. naive_solver. }
  intros Hn. apply Hg. destruct n as [|b n]; [done|]. apply andb_prop in Hn as [Hb Hn].
  cbn [forallb]. by rewrite Hb, Hn.
Qed.

Section PatternFacts.
Context {R : Type} `{Hre : RegexCrate R}.

Definition parse_run (s : bytes) (st : ParseState) : ParseState :=
  foldl (fun st ch => parse_char ch st) st (map (fun b => [b]) s).

Lemma parse_loop_run i s st : parse_loop (S i) (map (fun b => [b]) s) st = parse_run s st.
Proof. revert i st. induction s as [|b s IH]; intros i st; [done|]. apply IH. Qed.
Lemma parse_run_app s t st : parse_run (s ++ t) st = parse_run t (parse_run s st).
Proof. unfold parse_run. by rewrite map_app, foldl_app. Qed.

(** What a part contributes to the variables of the loop. *)
Definition part_effect (p : part) (st : ParseState) : ParseState :=
  match p with
  | Lit s => mkParse (ps_re1 st ++ part_source re_escape p) (ps_re2 st ++ s) (ps_el st ++ s) false false []
      DEFAULT_PATTERN (ps_is_dynamic st) (ps_elems st)
  | Group n k => mkParse (ps_re1 st ++ part_source re_escape p) (ps_re2 st) [] false false []
      DEFAULT_PATTERN true (ps_elems st ++ [PE_Str (ps_el st); PE_Var n])
  end.
Definition outside (st : ParseState) : Prop :=
  ps_in_param st = false /\ ps_in_param_pattern st = false /\ ps_param_name st = [] /\
  ps_param_pattern st = DEFAULT_PATTERN.

Lemma parse_literal s st :
  is_ascii s = true -> 123 ∉ s -> outside st -> parse_run s st = part_effect (Lit s) st.
Proof.
  intros Ha Hs Ho. unfold part_effect, part_source. rewrite chars_ascii by done.
  revert st Ho. induction s as [|b s IH]; intros st (H1 & H2 & H3 & H4).
  - destruct st; simpl in *; subst. by rewrite !app_nil_r.
  - apply is_ascii_cons in Ha as [Hb Ha]. apply not_elem_of_cons in Hs as [Hne Hs].
    change (parse_run (b :: s) st) with (parse_run s (parse_char [b] st)).
    destruct st as [re1 re2 el ip ipp nm pt dy els]; simpl in *; subst.
    rewrite bool_decide_eq_false_2 by (intros ?; simplify_eq/=). rewrite IH by done. simpl.
    by rewrite <-!app_assoc.
Qed.

Lemma parse_name n re1 re2 el nm pt dy els :
  125 ∉ n -> 58 ∉ n ->
  parse_run n (mkParse re1 re2 el true false nm pt dy els) =
  mkParse re1 re2 el true false (nm ++ n) pt dy els.
Proof.
  revert nm. induction n as [|b n IH]; intros nm Hn Hn'; [by rewrite app_nil_r|].
  apply not_elem_of_cons in Hn as [? Hn]. apply not_elem_of_cons in Hn' as [? Hn'].
  change (parse_run (b :: n) ?st) with (parse_run n (parse_char [b] st)). simpl.
  rewrite !bool_decide_eq_false_2 by (intros ?; simplify_eq/=). rewrite IH by done.
  by rewrite <-app_assoc.
Qed.

Lemma parse_part p st : part_wf p -> outside st -> parse_run (print_part p) st = part_effect p st.
Proof.
  destruct p as [s|n k]; [intros [Ha Hs]; by apply parse_literal|].
  intros Hn (H1 & H2 & H3 & H4). destruct (name_ok_ascii n Hn) as (_ & Hc & Hd & _).
  assert (print_part (Group n k) =
    [123] ++ n ++ match k with Re_segment => [125] | Re_tail => b#":.*}" end) as -> by by destruct k.
  rewrite !parse_run_app. destruct st as [re1 re2 el ip ipp nm pt dy els]; simpl in *; subst.
  change (parse_run [123] ?st) with (parse_char [123] st). simpl. rewrite parse_name by done.
  destruct k; unfold parse_run; cbv -[app]; f_equal; by rewrite <-?app_assoc.
Qed.
Lemma part_effect_outside p st : outside (part_effect p st).
Proof. by destruct p. Qed.

(** The pieces of a URL that [resource_path] fills in: a literal is only recorded when
    a variable follows it. *)
Fixpoint url_elements (el : bytes) (parts : list part) : list PatternElement :=
  match parts with
  | [] => []
  | Lit s :: parts => url_elements (el ++ s) parts
  | Group n _ :: parts => PE_Str el :: PE_Var n :: url_elements [] parts
  end.

Lemma parse_parts parts st :
  Forall part_wf parts -> outside st ->
  exists re2 el, parse_run (print_parts parts) st =
    mkParse (ps_re1 st ++ concat (map (part_source re_escape) parts)) re2 el false false []
      DEFAULT_PATTERN (ps_is_dynamic st || existsb is_group parts)
      (ps_elems st ++ url_elements (ps_el st) parts).
Proof.
  intros Hw. revert st. induction Hw as [|p parts Hp Hw IH]; intros st Ho.
  - destruct st as [re1 re2 el ip ipp nm pt dy els], Ho as (? & ? & ? & ?). simpl in *; subst.
    exists re2, el. by rewrite orb_false_r, !app_nil_r.
  - unfold print_parts. cbn [map concat]. rewrite parse_run_app, parse_part by done.
    destruct (IH (part_effect p st) (part_effect_outside p st)) as (re2 & el & Heq).
    exists re2, el. unfold print_parts in Heq. rewrite Heq.
    destruct p as [s|n k];
      cbn [part_effect ps_re1 ps_elems ps_el ps_is_dynamic map concat existsb is_group url_elements orb];
      by rewrite <-?app_assoc, ?orb_true_r.
Qed.

Lemma print_parts_ascii parts : Forall part_wf parts -> is_ascii (print_parts parts) = true.
Proof.
  induction 1 as [|p parts Hp Hw IH]; [done|]. unfold print_parts. cbn [map concat].
  rewrite is_ascii_app. apply andb_true_intro. split; [|done].
  destruct p as [s|n k]; [by destruct Hp|]. destruct (name_ok_ascii n Hp) as (Hn & _).
  destruct k; cbn [print_part]; by rewrite !is_ascii_app, Hn.
Qed.

(** A pattern with a variable is compiled to the expression it stands for, whether or
    not it is written with its leading slash. *)
Lemma resource_parse_parts slash parts :
  pattern_wf parts -> slash || negb (starts_with (b#"/") (print_parts parts)) = true ->
  resource_parse (pattern_text slash parts) (b#"/") =
  (b#"^" ++ concat (map (part_source re_escape) (Lit (b#"/") :: parts)) ++ b#"$",
   url_elements [] parts, true).
Proof.
  intros (Hw & _ & Hg) Hs. set (st := mkParse (b#"^/") (b#"/") [] false false [] DEFAULT_PATTERN false []).
  assert (parse_loop 0 (chars (pattern_text slash parts)) st = parse_run (print_parts parts) st) as Hl.
  { pose proof (print_parts_ascii parts Hw) as Ha. unfold pattern_text. destruct slash; simpl in Hs.
    - rewrite chars_ascii by (cbn; done). apply (parse_loop_run 0).
    - cbn [app]. rewrite chars_ascii by done. destruct (print_parts parts) as [|b s]; [done|].
      cbn [map parse_loop Nat.eqb andb]. rewrite bool_decide_eq_false_2.
      + exact (parse_loop_run 0 s (parse_char [b] st)).
      + intros ?; simplify_eq/=. }
  destruct (parse_parts parts st Hw) as (re2 & el & Heq); [done|].
  unfold resource_parse. change (b#"^" ++ b#"/") with (b#"^/"). fold st. rewrite Hl, Heq, Hg. simpl.
  rewrite re_escape_plain; [by rewrite <-?app_assoc|lia|]. apply (bool_decide_unpack _). by vm_compute.
Qed.

Lemma add_captures_all names i vs p :
  (length vs <= length names - i)%nat ->
  add_captures names (S i) (map Some vs) p = Ret (p ++ zip (drop i names) vs).
Proof.
  revert i p. induction vs as [|v vs IH]; intros i p Hl.
  - by rewrite zip_with_nil_r, app_nil_r.
  - simpl in Hl. cbn [map add_captures]. destruct (lookup_lt_is_Some_2 names i) as [n Hn]; [lia|].
    rewrite Hn. simpl. rewrite IH by lia. rewrite (drop_S names n i Hn). simpl.
    unfold params_add. by rewrite <-app_assoc.
Qed.

(** A pattern with a variable compiles, and its captures are those of its parts. *)
Lemma resource_new_dynamic name slash parts :
  pattern_wf parts -> slash || negb (starts_with (b#"/") (print_parts parts)) = true ->
  exists re, resource_new name (pattern_text slash parts) =
      Ret (mkResource (PT_Dynamic re (part_names parts)) RT_Normal name (pattern_text slash parts)
             (url_elements [] parts)) /\
    forall s, from_utf8 s = Some s ->
      re_captures re s = (fun vs => Some s :: map Some vs) <$> seg_match (Lit (b#"/") :: parts) s.
Proof.
  intros Hp Hs. pose proof Hp as (Hw & Hnd & Hg).
  destruct (re_parts (Lit (b#"/") :: parts)) as (re & Hnew & Hnames & Hcap); [|done|].
  { cbn [forallb]. apply andb_true_intro; split; [done|]. clear -Hw.
    induction Hw as [|[s|n k] parts Hx _ IH]; [done|..]; cbn [forallb]; rewrite IH, andb_true_r; [|done].
    by destruct Hx. }
  exists re. split; [|done]. unfold resource_new, resource_with_prefix.
  rewrite resource_parse_parts, Hnew by done. cbn [mbind run_bind unwrap].
  do 3 f_equal. rewrite Hnames.
  change (part_names (Lit (b#"/") :: parts)) with (part_names parts).
  change (omap id (None :: map Some (part_names parts))) with (omap id (map Some (part_names parts))).
  clear. induction (part_names parts) as [|n l IH]; [done|]. simpl. by f_equal.
Qed.

(** What its matches bind. *)
Lemma resource_new_parts name slash parts :
  pattern_wf parts -> slash || negb (starts_with (b#"/") (print_parts parts)) = true ->
  exists r, resource_new name (pattern_text slash parts) = Ret r /\
    res_elements r = url_elements [] parts /\ res_rtp r = RT_Normal /\
    forall s p, from_utf8 s = Some s ->
      match_with_params r s p =
      Ret (match seg_match (Lit (b#"/") :: parts) s with
           | Some vs => (true, p ++ zip (part_names parts) vs)
           | None => (false, p)
           end).
Proof.
  intros Hp Hs. destruct (resource_new_dynamic name slash parts Hp Hs) as (re & Hr & Hcap).
  eexists. split; [exact Hr|]. split; [done|]. split; [done|]. intros s p Hu.
  unfold match_with_params. cbn [res_tp]. rewrite Hcap by done.
  destruct (seg_match (Lit (b#"/") :: parts) s) as [vs|] eqn:Hm; [|reflexivity].
  apply seg_match_sound, parts_match_length in Hm.
  change (part_names (Lit (b#"/") :: parts)) with (part_names parts) in Hm.
  cbn [fmap option_fmap option_map add_captures mbind run_bind].
  rewrite add_captures_all; [reflexivity|lia].
Qed.

(** C21. Patterns mean what they say: a pattern of literals and variables compiles to a
    resource that matches exactly the paths that split into a slash, the literals and a
    value for each variable (a non-empty run without slashes, or any tail for [.*]), and
    a match binds the variables, in order, to the values of such a splitting, adding
    nothing else to the parameters; a path that does not match leaves them alone. *)
Theorem pattern_match_correct name slash parts :
  pattern_wf parts -> slash || negb (starts_with (b#"/") (print_parts parts)) = true ->
  exists r, resource_new name (pattern_text slash parts) = Ret r /\
    forall s p, from_utf8 s = Some s ->
      (exists vs, parts_match (Lit (b#"/") :: parts) s vs /\
         match_with_params r s p = Ret (true, p ++ zip (part_names parts) vs)) \/
      ((forall vs, ~ parts_match (Lit (b#"/") :: parts) s vs) /\
         match_with_params r s p = Ret (false, p)).
Proof.
  intros Hp Hs. destruct (resource_new_parts name slash parts Hp Hs) as (r & Hr & _ & _ & Hm).
  exists r. split; [done|]. intros s p Hu. rewrite (Hm s p Hu).
  destruct (seg_match (Lit (b#"/") :: parts) s) as [vs|] eqn:He.
  - left. exists vs. split; [by apply seg_match_sound|done].
  - right. split; [|done]. intros vs [vs' Hv]%seg_match_complete. congruence.
Qed.

(** ** URL generation *)
Fixpoint fill (parts : list part) (vals : list bytes) : bytes :=
  match parts with
  | [] => []
  | Lit s :: parts => s ++ fill parts vals
  | Group _ _ :: parts => match vals with v :: vals => v ++ fill parts vals | [] => [] end
  end.

(** Every variable is a segment and is followed by a slash or by the end. *)
Fixpoint separated (parts : list part) : bool :=
  match parts with
  | [] => true
  | Lit _ :: parts => separated parts
  | Group _ k :: parts =>
      match k with Re_segment => true | Re_tail => false end &&
      match parts with
      | [] => true
      | Lit l :: _ => starts_with (b#"/") l
      | Group _ _ :: _ => false
      end && separated parts
  end.
Definition ends_in_group (parts : list part) : bool :=
  match last parts with Some p => is_group p | None => true end.
Definition segment_value (v : bytes) : Prop := v <> [] /\ 47 ∉ v /\ is_ascii v = true.

Lemma url_elements_trailing el init tail :
  url_elements el (init ++ map Lit tail) = url_elements el init.
Proof.
  revert el. induction init as [|[s|n k] init IH]; intros el; simpl; [|apply IH|by rewrite IH].
  revert el. induction tail as [|s tail IH]; intros el; simpl; [done|apply IH].
Qed.

Lemma push_elements_fill parts vals el path :
  ends_in_group parts = true -> (parts = [] -> el = []) -> length vals = length (part_names parts) ->
  push_elements (url_elements el parts) vals path = Ok (path ++ el ++ fill parts vals).
Proof.
  revert el vals path. induction parts as [|p parts IH]; intros el vals path He Hn Hl.
  - rewrite Hn by done. by rewrite !app_nil_r.
  - assert (ends_in_group parts = true) as He'.
    { unfold ends_in_group in *. destruct parts; [done|]. exact He. }
    destruct p as [s|n k].
    + simpl. rewrite IH; [by rewrite <-!app_assoc|done| |done].
      intros ->. done.
    + destruct vals as [|v vals]; [done|]. simpl in Hl. simpl.
      rewrite IH; [by rewrite <-!app_assoc|done|done|]. injection Hl as Hl. exact Hl.
Qed.

Lemma app_slash_inj (v v' s s' : bytes) :
  47 ∉ v -> 47 ∉ v' -> starts_with (b#"/") s || bool_decide (s = []) = true ->
  starts_with (b#"/") s' || bool_decide (s' = []) = true -> v ++ s = v' ++ s' -> v = v' /\ s = s'.
Proof.
  assert (forall s w : bytes, starts_with (b#"/") s || bool_decide (s = []) = true ->
    47 ∉ w -> forall b t, s = b :: w ++ t -> b = 47) as Hb.
  { intros [|c x] w Hs _ b t ?; simplify_eq. rewrite orb_true_iff in Hs.
    destruct Hs as [[r Hr]%starts_with_app|?%bool_decide_eq_true]; [by simplify_eq/=|done]. }
  intros Hv Hv' Hs Hs'. revert v' Hv'. induction v as [|b v IH]; intros [|b' v'] Hv' He; simplify_eq/=.
  - done.
  - apply not_elem_of_cons in Hv' as [Hn Hv']. destruct Hn. symmetry. by eapply (Hb (b' :: v' ++ s') v').
  - apply not_elem_of_cons in Hv as [Hn Hv]. destruct Hn. symmetry. by eapply (Hb (b :: v ++ s) v).
  - apply not_elem_of_cons in Hv as [_ Hv]. apply not_elem_of_cons in Hv' as [_ Hv'].
    match goal with E : _ ++ s = _ ++ s' |- _ => destruct (IH Hv v' Hv' E) as [-> ->] end. done.
Qed.

Lemma separated_rest parts s vs :
  match parts with [] => true | Lit l :: _ => starts_with (b#"/") l | Group _ _ :: _ => false end = true ->
  parts_match parts s vs -> starts_with (b#"/") s || bool_decide (s = []) = true.
Proof.
  intros Hp Hm. destruct Hm as [|l parts s vs Hm|]; [by rewrite bool_decide_eq_true_2, orb_true_r| |done].
  apply starts_with_app in Hp as [r ->]. apply orb_true_iff. left. apply starts_with_app.
  exists (r ++ s). by rewrite app_assoc.
Qed.

Lemma segment_no_slash v : forallb (group_char Re_segment) v = true -> 47 ∉ v.
Proof.
  induction v as [|b v IH]; [set_solver|]. simpl. intros [Hb Hv]%andb_prop.
  apply not_elem_of_cons; split; [|by apply IH]. intros <-. done.
Qed.
Lemma no_slash_segment v : 47 ∉ v -> forallb (group_char Re_segment) v = true.
Proof.
  induction v as [|b v IH]; [done|]. intros [Hb Hv]%not_elem_of_cons. cbn [forallb].
  rewrite IH by done. unfold group_char. by rewrite (proj2 (Z.eqb_neq b 47)) by done.
Qed.

Lemma separated_unique parts s vs vs' :
  separated parts = true -> parts_match parts s vs -> parts_match parts s vs' -> vs = vs'.
Proof.
  intros Hs Hm. revert Hs vs'.
  induction Hm as [|l parts s vs Hm IH|n k parts v s vs Hf Hl Hb Hm IH]; intros Hs vs' Hm';
    inversion Hm' as [|l' parts' s' ws Hm2 E1 E2 E3|n' k' parts' v' s' ws Hf' Hl' Hb' Hm2]; subst; [done|..].
  - apply app_inj_1 in E2 as [_ ->]; [|done]. by apply IH.
  - cbn [separated] in Hs. apply andb_prop in Hs as [[Hk Hn]%andb_prop Hs]. destruct k; [|done].
    destruct (app_slash_inj v v' s s' (segment_no_slash _ Hf) (segment_no_slash _ Hf')
      (separated_rest _ _ _ Hn Hm) (separated_rest _ _ _ Hn Hm2)) as [-> ->]; [done|].
    f_equal. by apply IH.
Qed.

Lemma fill_match parts vals :
  separated parts = true -> length vals = length (part_names parts) -> Forall segment_value vals ->
  parts_match parts (fill parts vals) vals.
Proof.
  revert vals. induction parts as [|[l|n k] parts IH]; intros vals Hs Hl Hv.
  - destruct vals; [constructor|done].
  - constructor. by apply IH.
  - destruct vals as [|v vals]; [done|]. inversion Hv as [|? ? (Hne & Hsl & Ha) Hv']; subst.
    cbn [separated] in Hs. apply andb_prop in Hs as [[Hk Hn]%andb_prop Hs]. destruct k; [|done].
    assert (parts_match parts (fill parts vals) vals) as Hm by (apply IH; [done|by injection Hl|done]).
    cbn [fill]. constructor; [by apply no_slash_segment| | |done].
    + destruct v; [done|simpl; lia].
    + pose proof (separated_rest _ _ _ Hn Hm) as Hr. destruct (fill parts vals) as [|b s]; [done|].
      rewrite orb_true_iff in Hr. destruct Hr as [[r Hr]%starts_with_app|?%bool_decide_eq_true]; [|done].
      by simplify_eq/=.
Qed.

Lemma fill_ascii parts vals :
  Forall part_wf parts -> Forall segment_value vals -> is_ascii (fill parts vals) = true.
Proof.
  intros Hw. revert vals. induction Hw as [|[l|n k] parts Hp Hw IH]; intros vals Hv; [done|..]; cbn [fill].
  - destruct Hp as [Hp _]. by rewrite is_ascii_app, Hp, IH.
  - destruct Hv as [|v vals (_ & _ & Ha) Hv]; [done|]. by rewrite is_ascii_app, Ha, IH.
Qed.

(** Generated URLs lead back to their resource: for a pattern that ends in a
    variable and whose variables are followed by slashes, the path that [resource_path]
    builds from non-empty values without slashes is, behind the prefix, matched by the
    same resource, which binds the variables to exactly those values. *)
Theorem url_roundtrip name slash parts prefix vals :
  pattern_wf parts -> slash || negb (starts_with (b#"/") (print_parts parts)) = true ->
  separated parts = true -> ends_in_group parts = true ->
  length vals = length (part_names parts) -> Forall segment_value vals ->
  exists r s, resource_new name (pattern_text slash parts) = Ret r /\
    resource_path r prefix vals = Ok (prefix ++ s) /\
    match_with_params r s [] = Ret (true, zip (part_names parts) vals).
Proof.
  intros Hp Hs Hsep He Hl Hv. destruct (resource_new_parts name slash parts Hp Hs) as (r & Hr & Hels & Hrt & Hm).
  exists r, (b#"/" ++ fill parts vals). split; [done|]. split.
  - unfold resource_path. rewrite Hels, Hrt. simpl. rewrite push_elements_fill by done.
    simpl. by rewrite <-app_assoc.
  - destruct Hp as (Hw & _). rewrite Hm.
    2: { apply from_utf8_ascii. rewrite is_ascii_app, fill_ascii by done. done. }
    assert (parts_match (Lit (b#"/") :: parts) (b#"/" ++ fill parts vals) vals) as Hmatch.
    { constructor. by apply fill_match. }
    destruct (seg_match_complete _ _ _ Hmatch) as [ws Hws]. rewrite Hws.
    rewrite (separated_unique (Lit (b#"/") :: parts) _ _ _ Hsep (seg_match_sound _ _ _ Hws) Hmatch). done.
Qed.

(** The literals behind the last variable are missing from generated URLs, so a path
    pattern without variables always generates the bare prefix. *)
Theorem url_drops_trailing_literal name slash init tail prefix vals :
  pattern_wf (init ++ map Lit tail) ->
  slash || negb (starts_with (b#"/") (print_parts (init ++ map Lit tail))) = true ->
  ends_in_group init = true -> length vals = length (part_names init) ->
  exists r, resource_new name (pattern_text slash (init ++ map Lit tail)) = Ret r /\
    resource_path r prefix vals = Ok (prefix ++ b#"/" ++ fill init vals).
Proof.
  intros Hp Hs He Hl. destruct (resource_new_parts name slash _ Hp Hs) as (r & Hr & Hels & Hrt & _).
  exists r. split; [done|]. unfold resource_path. rewrite Hels, Hrt, url_elements_trailing. simpl.
  rewrite push_elements_fill by done. simpl. by rewrite <-app_assoc.
Qed.
End PatternFacts.

(** ** Recognizing requests *)
Lemma from_utf8_idem s t : from_utf8 s = Some t -> from_utf8 t = Some t.
Proof. unfold from_utf8. destruct (utf8_valid (length s) s) eqn:Hs; [|done]. intros ?; simplify_eq. by rewrite Hs. Qed.

Section Recognize.
Context {R : Type} `{Hre : RegexCrate R} {H : Type} `{Hhm : HeaderMap H} {St : Type}.
Context `{Huri : UriCrate} `{Hpct : PercentEncoding}.
Notation Rq := (HttpRequest R H St).

(** No more groups take part in a match than the pattern has names. *)
Definition aligned (r : Resource R) : Prop :=
  match res_tp r with
  | PT_Static _ => True
  | PT_Dynamic re names =>
      forall s caps, from_utf8 s = Some s -> re_captures re s = Some caps -> (length (omap id caps) <= S (length names))%nat
  end.

(** What a match binds: names with the groups that took part, in order. *)
Definition bound (r : Resource R) (s : bytes) : Params :=
  match res_tp r with
  | PT_Static _ => []
  | PT_Dynamic re names =>
      match re_captures re s with Some caps => zip names (tail (omap id caps)) | None => [] end
  end.

Lemma add_captures_omap names idx caps p :
  add_captures names idx caps p = add_captures names idx (map Some (omap id caps)) p.
Proof.
  revert idx p. induction caps as [|[m|] caps IH]; intros idx p; simpl; [done| |apply IH].
  destruct (match idx with O => _ | S _ => _ end); simpl; [apply IH|done..].
Qed.

Lemma match_with_params_aligned r s p :
  aligned r -> from_utf8 s = Some s ->
  match_with_params r s p = Ret (is_match r s, if is_match r s then p ++ bound r s else p).
Proof.
  unfold aligned, match_with_params, is_match, bound. destruct (res_tp r) as [t|re names]; intros Ha Hu.
  - case_bool_decide; by rewrite ?app_nil_r.
  - rewrite re_is_match_captures. destruct (re_captures re s) as [caps|] eqn:Hc; [|done].
    rewrite add_captures_omap. specialize (Ha s caps Hu Hc). destruct (omap id caps) as [|m vs]; simpl.
    + by rewrite zip_with_nil_r, app_nil_r.
    + simpl in Ha. rewrite add_captures_all by lia. done.
Qed.

(** Static patterns and patterns of literals and variables are aligned. *)
Lemma resource_static_aligned r s : res_tp r = PT_Static s -> aligned r.
Proof. unfold aligned. by intros ->. Qed.
Lemma resource_new_aligned name slash parts r :
  pattern_wf parts -> slash || negb (starts_with (b#"/") (print_parts parts)) = true ->
  resource_new name (pattern_text slash parts) = Ret r -> aligned r.
Proof.
  intros Hp Hs Hr. destruct (resource_new_dynamic name slash parts Hp Hs) as (re & Hr' & Hcap).
  rewrite Hr in Hr'. simplify_eq. intros s caps Hu. rewrite Hcap by done.
  destruct (seg_match (Lit (b#"/") :: parts) s) as [vs|] eqn:Hm; [|done]. intros Hc.
  injection Hc as <-. apply seg_match_sound, parts_match_length in Hm. change (length (part_names (Lit (b#"/") :: parts)))
    with (length (part_names parts)) in Hm. rewrite <-Hm. cbn. apply le_n_S. clear.
  induction vs; simpl; [lia|]. by apply le_n_S.
Qed.

(** More groups than names: the index of the name is out of range. *)
Theorem misaligned_captures_panic re names rtp name pat els s p caps :
  re_captures re s = Some caps -> (S (length names) < length (omap id caps))%nat ->
  match_with_params (mkResource (PT_Dynamic re names) rtp name pat els) s p = Panic.
Proof.
  intros Hc Hl. unfold match_with_params. cbn [res_tp]. rewrite Hc, add_captures_omap.
  destruct (omap id caps) as [|m vs]; simpl in *; [lia|]. apply Nat.succ_lt_mono in Hl.
  assert (forall i p, (i <= length names < i + length vs)%nat ->
    add_captures names (S i) (map Some vs) p = Panic) as Hg; [|rewrite (Hg 0%nat p) by lia; done].
  clear. induction vs as [|v vs IH]; intros i p Hi; simpl in *; [lia|].
  destruct (names !! i) as [n|] eqn:Hn; simpl; [|done]. apply lookup_lt_Some in Hn.
  apply IH. lia.
Qed.

Lemma set_params_same (rq : Rq) : set_rq_msg (set_msg_params (req_match_info rq) (rq_msg rq)) rq = rq.
Proof. by destruct rq as [[]]. Qed.

Lemma recognize_loop_spec patterns idx p (rq : Rq) :
  Forall aligned patterns -> from_utf8 p = Some p ->
  recognize_loop idx patterns p rq =
  Ret (match list_find (fun r => is_match r p = true) patterns with
       | Some (i, r) =>
           (Some (idx + Z.of_nat i),
            req_set_resource (idx + Z.of_nat i)
              (set_rq_msg (set_msg_params (req_match_info rq ++ bound r p) (rq_msg rq)) rq))
       | None => (None, rq)
       end).
Proof.
  intros Ha Hu. revert idx. induction Ha as [|r patterns Hr Ha IH]; intros idx; [done|].
  cbn [recognize_loop list_find]. rewrite match_with_params_aligned by done. cbn [mbind run_bind].
  destruct (is_match r p) eqn:Hm; simpl.
  - by rewrite Z.add_0_r.
  - rewrite set_params_same, IH. destruct (list_find _ patterns) as [[i r']|]; simpl; [|done].
    by replace (idx + 1 + Z.of_nat i) with (idx + Z.of_nat (S i)) by lia.
Qed.

(** The part of the path that is matched. *)
Definition route_path (rt : Router R) (rq : Rq) : bytes :=
  let path := dropZ (rt_prefix_len rt) (req_path rq) in
  percent_decode (if bool_decide (path = []) then b#"/" else path).

Lemma recognize_spec (rt : Router R) (rq : Rq) p :
  Forall aligned (rt_patterns rt) -> rt_prefix_len rt <= lenZ (req_path rq) ->
  from_utf8 (route_path rt rq) = Some p ->
  recognize rt rq = recognize_loop 0 (rt_patterns rt) p rq.
Proof.
  intros _ Hl Hp. unfold recognize. rewrite (proj2 (Z.ltb_ge _ _)) by done.
  unfold route_path in Hp. by rewrite Hp.
Qed.

(** C9. The first matching pattern wins: for a path below the prefix that decodes to
    text, [recognize] answers the least index of a matching pattern, appends what the
    match binds to the request's parameters, and [HttpRequest::resource] is then that
    resource (for the first 65536 patterns); if no pattern matches the request is
    unchanged and [has_route] agrees that there is none. *)
Theorem route_recognition (rt : Router R) (rq : Rq) p :
  Forall aligned (rt_patterns rt) -> rt_prefix_len rt <= lenZ (req_path rq) ->
  from_utf8 (route_path rt rq) = Some p ->
  (exists i r rq', recognize rt rq = Ret (Some (Z.of_nat i), rq') /\
     rt_patterns rt !! i = Some r /\ is_match r p = true /\
     (forall j r', (j < i)%nat -> rt_patterns rt !! j = Some r' -> is_match r' p = false) /\
     req_match_info rq' = req_match_info rq ++ bound r p /\
     (Z.of_nat i < 2 ^ 16 -> rq_router rq = Some rt -> req_resource rq' = Ret r)) \/
  (recognize rt rq = Ret (None, rq) /\ Forall (fun r => is_match r p = false) (rt_patterns rt) /\
   (p <> [] -> has_route rt p = false)).
Proof.
  intros Ha Hl Hp. rewrite (recognize_spec rt rq p), recognize_loop_spec by eauto using from_utf8_idem.
  destruct (list_find _ (rt_patterns rt)) as [[i r]|] eqn:Hf.
  - apply list_find_Some in Hf as (Hi & Hm & Hlt). left.
    eexists i, r, _. split; [done|]. split; [done|]. split; [done|].
    split; [|split; [done|]].
    + intros j r' Hj Hr'. destruct (is_match r' p) eqn:E; [|done]. by destruct (Hlt j r' Hr' Hj).
    + intros Hi16 Hrt. unfold req_resource, req_set_resource.
      cbn [rq_msg set_rq_msg rq_router msg_resource set_msg_resource]. rewrite Hrt.
      unfold get_resource. rewrite Z.mod_small, Z.add_0_l, Nat2Z.id by lia. by rewrite Hi.
  - right. split; [done|]. apply list_find_None in Hf. split.
    + eapply Forall_impl; [exact Hf|]. intros r Hr. by apply not_true_is_false.
    + intros Hne. unfold has_route. rewrite bool_decide_eq_false_2 by done.
      induction Hf as [|r patterns Hr Hf IH]; [done|]. inversion_clear Ha.
      cbn [existsb]. rewrite (not_true_is_false _ Hr). by apply IH.
Qed.

(** A path that does not decode to UTF-8 panics. *)
Theorem invalid_utf8_path_panics (rt : Router R) (rq : Rq) :
  rt_prefix_len rt <= lenZ (req_path rq) -> from_utf8 (route_path rt rq) = None ->
  recognize rt rq = Panic.
Proof.
  intros Hl Hp. unfold recognize. rewrite (proj2 (Z.ltb_ge _ _)) by done.
  unfold route_path in Hp. by rewrite Hp.
Qed.
End Recognize.

(** ** A concrete instance: the fragment of literals and named groups

    An expression is read into parts and matched with [seg_match]. *)
Fixpoint take_until (c : Z) (s : bytes) : bytes * bytes :=
  match s with
  | [] => ([], [])
  | b :: s => if b =? c then ([], s) else let '(w, r) := take_until c s in (b :: w, r)
  end.
Definition strip (p s : bytes) : option bytes :=
  if starts_with p s then Some (drop (length p) s) else None.

Fixpoint mini_parse (fuel : nat) (s : bytes) : option (list part) :=
  match fuel with
  | O => None
  | S fuel =>
      match strip (b#"(?P<") s with
      | Some s =>
          let '(name, s) := take_until 62 s in
          match strip (b#"[^/]+)") s, strip (b#".*)") s with
          | Some s, _ => cons (Group name Re_segment) <$> mini_parse fuel s
          | None, Some s => cons (Group name Re_tail) <$> mini_parse fuel s
          | None, None => None
          end
      | None =>
          match s with
          | [] => None
          | b :: s =>
              if b =? 36 then if bool_decide (s = []) then Some [] else None
              else if b =? 92 then
                match s with c :: s => cons (Lit [c]) <$> mini_parse fuel s | [] => None end
              else if decide (b ∈ re_metas) then None else cons (Lit [b]) <$> mini_parse fuel s
          end
      end
  end.
Definition mini_new (s : bytes) : option (list part) :=
  match s with 94 :: s => mini_parse (length s) s | _ => None end.
Definition mini_escape (s : bytes) : bytes :=
  concat (map (fun b => if decide (b ∈ re_metas) then [92; b] else [b]) s).

Definition explode (p : part) : list part :=
  match p with Lit s => map (fun b => Lit [b]) s | Group n k => [Group n k] end.

Lemma strip_app p s : strip p (p ++ s) = Some s.
Proof.
  unfold strip. rewrite (proj2 (starts_with_app _ _)) by eauto. by rewrite drop_app_length.
Qed.
Lemma take_until_app c w s : c ∉ w -> take_until c (w ++ c :: s) = (w, s).
Proof.
  induction w as [|b w IH]; simpl; [by rewrite Z.eqb_refl|]. intros [Hb Hw]%not_elem_of_cons.
  rewrite (proj2 (Z.eqb_neq b c)) by done. by rewrite IH.
Qed.

(** One more literal character is read back. *)
Lemma mini_parse_byte fuel b s :
  mini_parse (S fuel) (mini_escape [b] ++ s) = cons (Lit [b]) <$> mini_parse fuel s.
Proof.
  assert (mini_escape [b] = if decide (b ∈ re_metas) then [92; b] else [b]) as ->.
  { unfold mini_escape. cbn [map concat]. by rewrite app_nil_r. }
  destruct (decide (b ∈ re_metas)) as [Hm|Hm]; [done|].
  assert (forall m, m ∈ re_metas -> b <> m) as Hne by (by intros m ? ->).
  assert (b <> 40 /\ b <> 36 /\ b <> 92) as (H1 & H2 & H3).
  { split_and!; apply Hne; apply (bool_decide_unpack _); by vm_compute. }
  cbn [app mini_parse].
  assert (strip (b#"(?P<") (b :: s) = None) as ->.
  { unfold strip. cbn [starts_with bytes_of_string].
    match goal with |- context [?c =? b] => change c with 40 end.
    by rewrite (proj2 (Z.eqb_neq 40 b)) by done. }
  rewrite (proj2 (Z.eqb_neq b 36)), (proj2 (Z.eqb_neq b 92)) by done.
  by destruct (decide (b ∈ re_metas)).
Qed.

Lemma mini_parse_literal w fuel s :
  mini_parse (length w + fuel) (concat (map mini_escape (map (fun b => [b]) w)) ++ s) =
  app (map (fun b => Lit [b]) w) <$> mini_parse fuel s.
Proof.
  induction w as [|b w IH]; cbn [length Nat.add map concat].
  { cbn [app]. by destruct (mini_parse fuel s). }
  rewrite <-app_assoc, mini_parse_byte, IH. by destruct (mini_parse fuel s).
Qed.

Lemma mini_parse_group n k fuel s :
  62 ∉ n ->
  mini_parse (S fuel) (part_source mini_escape (Group n k) ++ s) = cons (Group n k) <$> mini_parse fuel s.
Proof.
  intros Hn. unfold part_source. rewrite <-app_assoc. cbn [mini_parse]. rewrite strip_app.
  rewrite <-!app_assoc. change (b#">" ++ ?x) with (62 :: x). rewrite take_until_app by done.
  destruct k; cbn [group_source].
  - change (b#"[^/]+" ++ b#")" ++ s) with (b#"[^/]+)" ++ s). by rewrite strip_app.
  - change (b#".*" ++ b#")" ++ s) with (b#".*)" ++ s). by rewrite strip_app.
Qed.

Definition part_steps (p : part) : nat := match p with Lit s => length s | Group _ _ => 1 end.

Lemma mini_parse_parts parts fuel :
  forallb part_ascii parts = true ->
  mini_parse (list_sum (map part_steps parts) + S fuel)
    (concat (map (part_source mini_escape) parts) ++ b#"$") = Some (concat (map explode parts)).
Proof.
  induction parts as [|p parts IH]; [done|]. intros [Hp Ha]%andb_prop. specialize (IH Ha).
  cbn [map concat list_sum]. rewrite <-app_assoc.
  change (list_sum (part_steps p :: ?l)) with (part_steps p + list_sum l)%nat.
  rewrite <-Nat.add_assoc. destruct p as [w|n k].
  - unfold part_source at 1. rewrite chars_ascii by done. cbn [part_steps].
    rewrite mini_parse_literal, IH. done.
  - cbn [part_steps Nat.add]. rewrite mini_parse_group, IH; [done|]. by apply name_ok_ascii.
Qed.

(** Fuel beyond what is needed changes nothing. *)
Lemma mini_parse_mono fuel fuel' s ps :
  mini_parse fuel s = Some ps -> (fuel <= fuel')%nat -> mini_parse fuel' s = Some ps.
Proof.
  revert fuel' s ps. induction fuel as [|fuel IH]; intros [|fuel'] s ps Hp Hf; try done; [lia|].
  assert (forall x t, cons x <$> mini_parse fuel t = Some ps -> cons x <$> mini_parse fuel' t = Some ps) as Hc.
  { intros x t. destruct (mini_parse fuel t) as [qs|] eqn:Hq; [|done].
    rewrite (IH fuel' t qs Hq) by lia. done. }
  cbn [mini_parse] in *. destruct (strip (b#"(?P<") s) as [r|].
  - destruct (take_until 62 r) as [name t].
    destruct (strip (b#"[^/]+)") t), (strip (b#".*)") t); auto.
  - destruct s as [|b s]; [done|]. repeat case_match; auto.
Qed.

Lemma source_length parts :
  forallb part_ascii parts = true ->
  (list_sum (map part_steps parts) <= length (concat (map (part_source mini_escape) parts)))%nat.
Proof.
  induction parts as [|p parts IH]; [simpl; lia|]. intros [Hp Ha]%andb_prop. specialize (IH Ha).
  cbn [map concat]. rewrite length_app.
  change (list_sum (part_steps p :: ?l)) with (part_steps p + list_sum l)%nat.
  enough (part_steps p <= length (part_source mini_escape p))%nat by lia. clear IH Ha.
  destruct p as [w|n k]; [|simpl; lia]. cbn [part_steps part_source]. rewrite chars_ascii by done.
  clear Hp. induction w as [|b w IH]; [simpl; lia|]. cbn [map concat length]. rewrite length_app.
  enough (1 <= length (mini_escape [b]))%nat by lia. unfold mini_escape. simpl.
  destruct (decide (b ∈ re_metas)); simpl; lia.
Qed.

Lemma seg_match_literal w parts s :
  seg_match (map (fun b => Lit [b]) w ++ parts) s =
  if starts_with w s then seg_match parts (drop (length w) s) else None.
Proof.
  revert s. induction w as [|b w IH]; intros s; [done|].
  cbn [map app seg_match]. destruct s as [|c s]; [done|]. cbn [starts_with].
  rewrite andb_true_r. destruct (b =? c); [|done]. apply IH.
Qed.
Lemma try_lengths_ext f g min n s : (forall t, f t = g t) -> try_lengths f min n s = try_lengths g min n s.
Proof. intros Hfg. induction n as [|n IH]; simpl; rewrite Hfg; [done|]. by rewrite IH. Qed.
Lemma seg_match_explode parts s : seg_match (concat (map explode parts)) s = seg_match parts s.
Proof.
  revert s. induction parts as [|[w|n k] parts IH]; intros s; [done|..]; cbn [map concat explode].
  - rewrite seg_match_literal. cbn [seg_match]. by destruct (starts_with w s).
  - cbn [app seg_match]. by apply try_lengths_ext.
Qed.
Lemma part_names_explode parts : part_names (concat (map explode parts)) = part_names parts.
Proof.
  unfold part_names. induction parts as [|[w|n k] parts IH]; [done|..]; cbn [map concat explode].
  - rewrite omap_app, IH. replace (omap _ (map (fun b => Lit [b]) w)) with (@nil bytes); [done|].
    induction w as [|b w IHw]; [done|]. exact IHw.
  - simpl. by f_equal.
Qed.

#[export] Instance mini_regex : RegexCrate (list part).
Proof.
  refine {|
    re_new := mini_new;
    re_capture_names := fun ps => None :: map Some (part_names ps);
    re_captures := fun ps s => (fun vs => Some s :: map Some vs) <$> seg_match ps s;
    re_is_match := fun ps s => bool_decide (is_Some ((fun vs : list bytes => Some s :: map Some vs) <$> seg_match ps s));
    re_escape := mini_escape |}.
  - intros b _ Hb. unfold mini_escape. simpl. by destruct (decide (b ∈ re_metas)).
  - done.
  - intros parts Ha _. exists (concat (map explode parts)). split; [|split].
    + change (b#"^" ++ ?x) with (94 :: x). cbn [mini_new].
      eapply mini_parse_mono; [by apply (mini_parse_parts parts 0)|].
      rewrite length_app. simpl. pose proof (source_length parts Ha). lia.
    + by rewrite part_names_explode.
    + intros s _. by rewrite seg_match_explode.
Defined.

Lemma mini_aligned (r : Resource (list part)) :
  match res_tp r with PT_Static _ => True | PT_Dynamic ps names => names = part_names ps end -> aligned r.
Proof.
  unfold aligned. destruct (res_tp r) as [s|ps names]; [done|]. intros -> s caps _. cbn.
  destruct (seg_match ps s) as [vs|] eqn:Hm; [|done]. intros [= <-].
  apply seg_match_sound, parts_match_length in Hm. rewrite <-Hm. cbn. apply le_n_S. clear.
  induction vs; simpl; [lia|]. by apply le_n_S.
Qed.

(** Percent decoding and the parts of a URI. *)
Definition hex_value (b : Z) : option Z :=
  if (48 <=? b) && (b <=? 57) then Some (b - 48)
  else if (65 <=? b) && (b <=? 70) then Some (b - 55)
  else if (97 <=? b) && (b <=? 102) then Some (b - 87) else None.
Fixpoint pct_decode (s : bytes) : bytes :=
  match s with
  | [] => []
  | b :: s' =>
      if b =? 37 then
        match s' with
        | h :: l :: r => match hex_value h, hex_value l with
                         | Some h, Some l => h * 16 + l :: pct_decode r
                         | _, _ => b :: pct_decode s'
                         end
        | _ => b :: pct_decode s'
        end
      else b :: pct_decode s'
  end.
#[export] Instance pct_encoding : PercentEncoding.
Proof.
  refine {| percent_decode := pct_decode |}.
  induction s as [|b s IH]; [done|]. intros [Hb Hs]%not_elem_of_cons. cbn [pct_decode].
  rewrite (proj2 (Z.eqb_neq b 37)) by done. by rewrite IH.
Defined.
#[export] Instance plain_uri : UriCrate :=
  {| uri_path := fun u => (take_until 63 u).1;
     uri_query := fun u => if decide (63 ∈ u) then Some (take_until 63 u).2 else None |}.

(** ** Witnesses *)
Definition item_parts : list part :=
  [Lit (b#"user/"); Group (b#"name") Re_segment; Lit (b#"/item/"); Group (b#"id") Re_segment].
Lemma item_pattern_wf : pattern_wf item_parts.
Proof.
  split; [|split; [|done]]; [|by apply (bool_decide_unpack _); vm_compute].
  repeat constructor; try done; apply (bool_decide_unpack _); by vm_compute.
Qed.

Lemma pattern_match_correct_witness :
  exists r, resource_new [] (b#"/user/{name}/item/{id}") = Ret r /\
    match_with_params r (b#"/user/joe/item/7") [] = Ret (true, [(b#"name", b#"joe"); (b#"id", b#"7")]).
Proof.
  destruct (pattern_match_correct [] true item_parts item_pattern_wf eq_refl) as (r & Hr & Hm).
  exists r. split; [exact Hr|].
  assert (from_utf8 (b#"/user/joe/item/7") = Some (b#"/user/joe/item/7")) as Hu by done.
  destruct (Hm (b#"/user/joe/item/7") [] Hu) as [(vs & Hv & He)|[_ He]]; rewrite He;
    vm_compute in Hr; injection Hr as <-; vm_compute in He; [|done].
  injection He as He. do 2 f_equal. exact (eq_sym He).
Defined.

Lemma url_roundtrip_witness :
  exists r s, resource_new (b#"item") (b#"/user/{name}/item/{id}") = Ret r /\
    resource_path r (b#"/app") [b#"joe"; b#"7"] = Ok (b#"/app" ++ s) /\
    match_with_params r s [] = Ret (true, [(b#"name", b#"joe"); (b#"id", b#"7")]).
Proof.
  refine (url_roundtrip (b#"item") true item_parts (b#"/app") [b#"joe"; b#"7"] item_pattern_wf
    eq_refl eq_refl eq_refl eq_refl _).
  repeat constructor; try done; apply (bool_decide_unpack _); by vm_compute.
Defined.

Definition demo_router : run (Router (list part)) :=
  r0 ← resource_new (b#"index") (b#"/index.html");
  r1 ← resource_new (b#"item") (b#"/user/{name}/item/{id}");
  Ret (fst (router_new (b#"/app/") [(r0, Some tt); (r1, Some tt)])).
Definition demo_request (rt : Router (list part)) (uri : bytes)
  : HttpRequest (list part) (list (bytes * bytes)) unit :=
  req_with_state {| msg_version := HTTP_11; msg_method := GET; msg_uri := uri;
    msg_headers := hm_empty; msg_extensions := []; msg_params := []; msg_cookies := None;
    msg_query := []; msg_query_loaded := false; msg_addr := None; msg_payload := None;
    msg_info := None; msg_resource := Notset |} tt rt.

Lemma route_recognition_witness :
  exists rt rq', demo_router = Ret rt /\
    recognize rt (demo_request rt (b#"/app/user/joe/item/7?x=1")) = Ret (Some 1, rq') /\
    req_match_info rq' = [(b#"name", b#"joe"); (b#"id", b#"7")].
Proof.
  destruct demo_router as [rt| |] eqn:Hd; [|by vm_compute in Hd..]. exists rt.
  assert (Forall aligned (rt_patterns rt)) as Ha.
  { unfold demo_router in Hd. apply run_bind_Ret in Hd as (r0 & H0 & Hd).
    apply run_bind_Ret in Hd as (r1 & H1 & Hd).
    assert (rt_patterns rt = [r0; r1]) as -> by (injection Hd as <-; reflexivity).
    constructor; [|constructor; [|constructor]].
    - apply (resource_static_aligned _ (b#"/index.html")). vm_compute in H0. injection H0 as <-. reflexivity.
    - exact (resource_new_aligned (b#"item") true item_parts r1 item_pattern_wf eq_refl H1). }
  destruct (route_recognition rt (demo_request rt (b#"/app/user/joe/item/7?x=1"))
    (b#"/user/joe/item/7") Ha) as [(i & r & rq' & Hr & Hi & _ & _ & Hp & _)|[Hr _]];
    [vm_compute in Hd; injection Hd as <-; by vm_compute..| |].
  - exists rq'. split; [done|]. vm_compute in Hd. injection Hd as <-.
    destruct i as [|[|i]]; [by vm_compute in Hr| |discriminate Hi].
    split; [exact Hr|]. rewrite Hp. injection Hi as <-. reflexivity.
  - vm_compute in Hd. injection Hd as <-. by vm_compute in Hr.
Defined.
