(* ===== verification/Payload.v ===== *)
(** * The payload channel (src/src/payload.rs, [Inner], [Payload], [PayloadSender])

    A request body travels from the HTTP/1 reader (the sender side) to the
    request handler (the receiver side) through a buffer that both sides share
    by [Rc<RefCell<Inner>>]; the sender only holds a weak reference.  The model
    keeps the shared cell with its strong count, and makes the task
    notifications an explicit output. *)
From S2P Require Import Prelude Errors.
Open Scope Z_scope.

(** A handle on a futures task, compared only by identity. *)
Notation Task := nat.

Definition MAX_BUFFER_SIZE : Z := 32768.

Inductive PayloadStatus : Type := PS_Read | PS_Pause | PS_Dropped.
#[export] Instance PayloadStatus_eq_dec : EqDecision PayloadStatus.
Proof. solve_decision. Defined.

Record Inner : Type := mkInner {
  in_len : Z;
  in_eof : bool;
  in_err : option PayloadError;
  in_need_read : bool;
  in_items : list bytes;
  in_capacity : Z;
  in_task : option Task;
  in_io_task : option Task;
}.

Definition Inner_new (eof : bool) : Inner :=
  {| in_len := 0; in_eof := eof; in_err := None; in_need_read := true;
     in_items := []; in_capacity := MAX_BUFFER_SIZE;
     in_task := None; in_io_task := None |}.

Definition Inner_set_error (err : PayloadError) (s : Inner) : Inner :=
  {| in_len := in_len s; in_eof := in_eof s; in_err := Some err;
     in_need_read := in_need_read s; in_items := in_items s;
     in_capacity := in_capacity s; in_task := in_task s; in_io_task := in_io_task s |}.

Definition Inner_feed_eof (s : Inner) : Inner :=
  {| in_len := in_len s; in_eof := true; in_err := in_err s;
     in_need_read := in_need_read s; in_items := in_items s;
     in_capacity := in_capacity s; in_task := in_task s; in_io_task := in_io_task s |}.

(** Returns the new state and the tasks notified. *)
Definition Inner_feed_data (data : bytes) (s : Inner) : Inner * list Task :=
  let len := in_len s + lenZ data in
  ({| in_len := len; in_eof := in_eof s; in_err := in_err s;
      in_need_read := len <? in_capacity s; in_items := in_items s ++ [data];
      in_capacity := in_capacity s; in_task := None; in_io_task := in_io_task s |},
   option_list (in_task s)).

Definition Inner_eof (s : Inner) : bool := bool_decide (in_items s = []) && in_eof s.

(** [current] is the task [current_task()] answers. *)
Definition Inner_readany (current : Task) (s : Inner)
  : poll (option bytes) PayloadError * Inner * list Task :=
  match in_items s with
  | data :: items =>
      let len := in_len s - lenZ data in
      let need_read := len <? in_capacity s in
      let task := if need_read && bool_decide (in_task s = None)
                  then Some current else in_task s in
      (Ready (Some data),
       {| in_len := len; in_eof := in_eof s; in_err := in_err s;
          in_need_read := need_read; in_items := items;
          in_capacity := in_capacity s; in_task := task; in_io_task := None |},
       option_list (in_io_task s))
  | [] =>
      match in_err s with
      | Some err =>
          (PErr err,
           {| in_len := in_len s; in_eof := in_eof s; in_err := None;
              in_need_read := in_need_read s; in_items := [];
              in_capacity := in_capacity s; in_task := in_task s;
              in_io_task := in_io_task s |}, [])
      | None =>
          if in_eof s then (Ready None, s, [])
          else
            let task := if bool_decide (in_task s = None)
                        then Some current else in_task s in
            (NotReady,
             {| in_len := in_len s; in_eof := in_eof s; in_err := None;
                in_need_read := true; in_items := [];
                in_capacity := in_capacity s; in_task := task; in_io_task := None |},
             option_list (in_io_task s))
      end
  end.

Definition Inner_unread_data (data : bytes) (s : Inner) : Inner :=
  {| in_len := in_len s + lenZ data; in_eof := in_eof s; in_err := in_err s;
     in_need_read := in_need_read s; in_items := data :: in_items s;
     in_capacity := in_capacity s; in_task := in_task s; in_io_task := in_io_task s |}.

Definition set_read_buffer_capacity (cap : Z) (s : Inner) : Inner :=
  {| in_len := in_len s; in_eof := in_eof s; in_err := in_err s;
     in_need_read := in_need_read s; in_items := in_items s;
     in_capacity := cap; in_task := in_task s; in_io_task := in_io_task s |}.

(** ** The shared cell

    [Payload] values are strong references to the cell, [PayloadSender] is the
    one weak reference; the cell is dropped with the last strong reference. *)
Record Chan : Type := mkChan { ch_strong : nat; ch_cell : Inner }.

Definition Payload_new (eof : bool) : Chan :=
  {| ch_strong := 1; ch_cell := Inner_new eof |}.

Definition Payload_clone (c : Chan) : Chan :=
  {| ch_strong := S (ch_strong c); ch_cell := ch_cell c |}.

Definition Payload_drop (c : Chan) : Chan :=
  {| ch_strong := pred (ch_strong c); ch_cell := ch_cell c |}.

(** [Weak::upgrade] succeeds while a strong reference is left. *)
Definition upgrade (c : Chan) : option Inner :=
  if decide (ch_strong c = 0%nat) then None else Some (ch_cell c).

Definition put_cell (c : Chan) (s : Inner) : Chan :=
  {| ch_strong := ch_strong c; ch_cell := s |}.

Definition Sender_set_error (err : PayloadError) (c : Chan) : Chan :=
  match upgrade c with
  | Some shared => put_cell c (Inner_set_error err shared)
  | None => c
  end.

Definition Sender_feed_eof (c : Chan) : Chan :=
  match upgrade c with
  | Some shared => put_cell c (Inner_feed_eof shared)
  | None => c
  end.

Definition Sender_feed_data (data : bytes) (c : Chan) : Chan * list Task :=
  match upgrade c with
  | Some shared => let '(s, woken) := Inner_feed_data data shared in (put_cell c s, woken)
  | None => (c, [])
  end.

Definition Sender_need_read (current : Task) (c : Chan) : PayloadStatus * Chan :=
  match upgrade c with
  | Some s =>
      if in_need_read s then (PS_Read, c)
      else
        (PS_Pause,
         put_cell c
           {| in_len := in_len s; in_eof := in_eof s; in_err := in_err s;
              in_need_read := in_need_read s; in_items := in_items s;
              in_capacity := in_capacity s; in_task := in_task s;
              in_io_task := if bool_decide (in_io_task s = None)
                            then Some current else in_io_task s |})
  | None => (PS_Dropped, c)
  end.

(** ** Executions of the channel

    The calls either side may make.  The receiver's calls need a live [Payload];
    [unread_data] puts back bytes that were read, and a capacity is positive. *)
Inductive chan_op : Type :=
| OpFeedData (data : bytes)
| OpFeedEof
| OpSetError (err : PayloadError)
| OpNeedRead (t : Task)
| OpRead (t : Task)
| OpUnread (data : bytes)
| OpSetCapacity (cap : Z)
| OpClone
| OpDrop.

(** The cell, with what the sender has fed into a live channel and what the
    receiver holds. *)
Record chan_trace : Type := mkTrace { tr_chan : Chan; tr_fed : bytes; tr_got : bytes }.

Definition trace_new : chan_trace :=
  {| tr_chan := Payload_new false; tr_fed := []; tr_got := [] |}.

Definition got_by (r : poll (option bytes) PayloadError) : bytes :=
  match r with Ready (Some d) => d | _ => [] end.

(** One call: the tasks it notifies and the state after it. *)
Inductive chan_step : chan_op -> chan_trace -> list Task -> chan_trace -> Prop :=
| step_feed_data d x c w :
    Sender_feed_data d (tr_chan x) = (c, w) ->
    chan_step (OpFeedData d) x w
      (mkTrace c (tr_fed x ++ match upgrade (tr_chan x) with Some _ => d | None => [] end) (tr_got x))
| step_feed_eof x :
    chan_step OpFeedEof x [] (mkTrace (Sender_feed_eof (tr_chan x)) (tr_fed x) (tr_got x))
| step_set_error e x :
    chan_step (OpSetError e) x []
      (mkTrace (Sender_set_error e (tr_chan x)) (tr_fed x) (tr_got x))
| step_need_read t x st c :
    Sender_need_read t (tr_chan x) = (st, c) ->
    chan_step (OpNeedRead t) x [] (mkTrace c (tr_fed x) (tr_got x))
| step_read t x s r s' w :
    upgrade (tr_chan x) = Some s ->
    Inner_readany t s = (r, s', w) ->
    chan_step (OpRead t) x w
      (mkTrace (put_cell (tr_chan x) s') (tr_fed x) (tr_got x ++ got_by r))
| step_unread d x s g :
    upgrade (tr_chan x) = Some s ->
    tr_got x = g ++ d ->
    chan_step (OpUnread d) x []
      (mkTrace (put_cell (tr_chan x) (Inner_unread_data d s)) (tr_fed x) g)
| step_set_capacity cap x s :
    upgrade (tr_chan x) = Some s -> 0 < cap ->
    chan_step (OpSetCapacity cap) x []
      (mkTrace (put_cell (tr_chan x) (set_read_buffer_capacity cap s)) (tr_fed x) (tr_got x))
| step_clone x s :
    upgrade (tr_chan x) = Some s ->
    chan_step OpClone x [] (mkTrace (Payload_clone (tr_chan x)) (tr_fed x) (tr_got x))
| step_drop x s :
    upgrade (tr_chan x) = Some s ->
    chan_step OpDrop x [] (mkTrace (Payload_drop (tr_chan x)) (tr_fed x) (tr_got x)).

Inductive chan_reachable : chan_trace -> Prop :=
| reach_new : chan_reachable trace_new
| reach_step op x w x' :
    chan_reachable x -> chan_step op x w x' -> chan_reachable x'.

(** The same steps as a function: [None] where the call needs a live receiver, a
    positive capacity or bytes that were read. *)
Definition chan_exec (op : chan_op) (x : chan_trace) : option (list Task * chan_trace) :=
  let c := tr_chan x in
  match op with
  | OpFeedData d =>
      let '(c', w) := Sender_feed_data d c in
      Some (w, mkTrace c' (tr_fed x ++ match upgrade c with Some _ => d | None => [] end)
                 (tr_got x))
  | OpFeedEof => Some ([], mkTrace (Sender_feed_eof c) (tr_fed x) (tr_got x))
  | OpSetError e => Some ([], mkTrace (Sender_set_error e c) (tr_fed x) (tr_got x))
  | OpNeedRead t => Some ([], mkTrace (Sender_need_read t c).2 (tr_fed x) (tr_got x))
  | OpRead t =>
      s ← upgrade c;
      let '(r, s', w) := Inner_readany t s in
      Some (w, mkTrace (put_cell c s') (tr_fed x) (tr_got x ++ got_by r))
  | OpUnread d =>
      s ← upgrade c;
      let n := (length (tr_got x) - length d)%nat in
      if decide (tr_got x = take n (tr_got x) ++ d)
      then Some ([], mkTrace (put_cell c (Inner_unread_data d s)) (tr_fed x)
                       (take n (tr_got x)))
      else None
  | OpSetCapacity cap =>
      s ← upgrade c;
      if decide (0 < cap)
      then Some ([], mkTrace (put_cell c (set_read_buffer_capacity cap s))
                       (tr_fed x) (tr_got x))
      else None
  | OpClone => s ← upgrade c; Some ([], mkTrace (Payload_clone c) (tr_fed x) (tr_got x))
  | OpDrop => s ← upgrade c; Some ([], mkTrace (Payload_drop c) (tr_fed x) (tr_got x))
  end.

Fixpoint chan_exec_all (ops : list chan_op) (x : chan_trace) : option chan_trace :=
  match ops with
  | [] => Some x
  | op :: ops => y ← chan_exec op x; chan_exec_all ops y.2
  end.

Lemma chan_exec_step op x w x' : chan_exec op x = Some (w, x') -> chan_step op x w x'.
Proof.
  destruct op as [d| | |t| | | | |]; simpl; intros He.
  { destruct (Sender_feed_data d (tr_chan x)) eqn:?. simplify_eq. by constructor. }
  3: { simplify_eq. eapply step_need_read. apply surjective_pairing. }
  all: repeat (case_match || simplify_option_eq); eauto using chan_step.
Qed.

Lemma chan_exec_all_reachable ops x y :
  chan_reachable x -> chan_exec_all ops x = Some y -> chan_reachable y.
Proof.
  revert x. induction ops as [|op ops IH]; simpl; intros x Hx He; [by simplify_eq|].
  apply bind_Some in He as [[w z] [Hz He]].
  eapply IH, He. eapply reach_step, chan_exec_step, Hz. done.
Qed.

(** The representation invariant of the cell: [len] counts the buffered bytes,
    and reading is only paused while something is buffered. *)
Definition Inner_wf (s : Inner) : Prop :=
  in_len s = lenZ (concat (in_items s)) /\
  0 < in_capacity s /\
  (in_need_read s = false -> in_items s <> []).

(** A sender that respects the back-pressure signal: it feeds chunks of at most
    [m] bytes, and only while [need_read] is set. *)
Definition polite (m : Z) (op : chan_op) (x : chan_trace) : Prop :=
  match op with
  | OpFeedData d => in_need_read (ch_cell (tr_chan x)) = true /\ lenZ d <= m
  | OpUnread _ | OpSetCapacity _ => False
  | _ => True
  end.

Inductive polite_reachable (m : Z) : chan_trace -> Prop :=
| polite_new : polite_reachable m trace_new
| polite_step op x w x' :
    polite_reachable m x -> polite m op x -> chan_step op x w x' ->
    polite_reachable m x'.

(** [n] successive reads by task [t]. *)
Fixpoint read_seq (t : Task) (n : nat) (s : Inner) : list (poll (option bytes) PayloadError) :=
  match n with
  | O => []
  | S n => let '(r, s', _) := Inner_readany t s in r :: read_seq t n s'
  end.

(** ** Lemmas *)

Lemma upgrade_Some c s : upgrade c = Some s -> s = ch_cell c /\ ch_strong c <> 0%nat.
Proof. unfold upgrade. case_decide; naive_solver. Qed.

Lemma Inner_new_wf eof : Inner_wf (Inner_new eof).
Proof. unfold Inner_wf, MAX_BUFFER_SIZE; simpl; split_and!; done. Qed.

Lemma Inner_feed_data_wf d s : Inner_wf s -> Inner_wf (Inner_feed_data d s).1.
Proof.
  intros (Hl & Hc & Hn). unfold Inner_wf; simpl.
  rewrite concat_app, lenZ_app, Hl; simpl. rewrite app_nil_r.
  split_and!; [lia|done|]. intros _. by destruct (in_items s).
Qed.

Lemma Inner_readany_wf t s r s' w :
  Inner_wf s -> Inner_readany t s = (r, s', w) -> Inner_wf s'.
Proof.
  intros (Hl & Hc & Hn) Hr. unfold Inner_readany in Hr.
  destruct (in_items s) as [|d items] eqn:Hi; simpl in Hl.
  - destruct (in_err s), (in_eof s); simplify_eq/=;
      unfold Inner_wf; simpl; rewrite ?Hi; naive_solver.
  - simplify_eq/=. rewrite lenZ_app in Hl. unfold Inner_wf; simpl.
    split_and!; [lia|done|].
    intros Hlt%Z.ltb_ge ->. simpl in *. rewrite lenZ_nil in *. lia.
Qed.

(** The bytes a read delivers are the head of the buffered bytes. *)
Lemma Inner_readany_content t s r s' w :
  Inner_readany t s = (r, s', w) ->
  concat (in_items s) = got_by r ++ concat (in_items s').
Proof.
  unfold Inner_readany. intros Hr.
  destruct (in_items s) as [|d items] eqn:Hi;
    [destruct (in_err s), (in_eof s)|]; simplify_eq/=; by rewrite ?Hi.
Qed.

(** ** The channel invariant *)

Definition trace_inv (x : chan_trace) : Prop :=
  let s := ch_cell (tr_chan x) in
  Inner_wf s /\ tr_fed x = tr_got x ++ concat (in_items s).

Lemma chan_step_inv op x w x' : trace_inv x -> chan_step op x w x' -> trace_inv x'.
Proof.
  intros [Hwf Hfifo] Hst. unfold trace_inv in *.
  destruct Hst as [d x c w Hf|x|e x|t x st c Hn|t x s r s' w Hu Hr
                  |d x s g Hu Hg|cap x s Hu Hcap|x s Hu|x s Hu]; simpl;
    try (apply upgrade_Some in Hu as [-> Hs]).
  - unfold Sender_feed_data in Hf. destruct (upgrade (tr_chan x)) as [s|] eqn:Hu;
      simplify_eq/=; [|rewrite app_nil_r; by split].
    apply upgrade_Some in Hu as [-> Hs].
    split; [by apply Inner_feed_data_wf|].
    rewrite concat_app, Hfifo; simpl. by rewrite app_nil_r, <-app_assoc.
  - unfold Sender_feed_eof. by destruct (upgrade (tr_chan x)) eqn:Hu;
      [apply upgrade_Some in Hu as [-> ?]|].
  - unfold Sender_set_error. by destruct (upgrade (tr_chan x)) eqn:Hu;
      [apply upgrade_Some in Hu as [-> ?]|].
  - unfold Sender_need_read in Hn. destruct (upgrade (tr_chan x)) eqn:Hu;
      [apply upgrade_Some in Hu as [-> ?]|]; [|naive_solver].
    destruct (in_need_read (ch_cell (tr_chan x))) eqn:Hb; simplify_eq/=; [done|].
    unfold Inner_wf in *; simpl. by rewrite Hb in *.
  - split; [by eapply Inner_readany_wf|].
    rewrite Hfifo, (Inner_readany_content _ _ _ _ _ Hr). by rewrite app_assoc.
  - destruct Hwf as (Hl & Hc & Hn). split.
    + unfold Inner_wf; simpl. rewrite lenZ_app. split_and!; [lia|done|done].
    + simpl. rewrite Hfifo, Hg. by rewrite <-app_assoc.
  - destruct Hwf as (Hl & Hc & Hn). done.
  - done.
  - done.
Qed.

Lemma chan_reachable_inv x : chan_reachable x -> trace_inv x.
Proof.
  induction 1 as [|op x w x' _ IH Hst]; [|by eapply chan_step_inv].
  split; [apply Inner_new_wf|done].
Qed.

(** ** Back-pressure *)

Definition polite_inv (m : Z) (x : chan_trace) : Prop :=
  let s := ch_cell (tr_chan x) in
  in_capacity s = MAX_BUFFER_SIZE /\
  (in_need_read s = true -> in_len s < MAX_BUFFER_SIZE) /\
  in_len s < MAX_BUFFER_SIZE + m.

Lemma readany_len t s r s' w :
  Inner_wf s -> Inner_readany t s = (r, s', w) ->
  0 <= in_len s' <= in_len s /\ in_capacity s' = in_capacity s /\
  (in_need_read s' = true ->
     in_need_read s = true /\ in_len s' = in_len s \/ in_len s' < in_capacity s).
Proof.
  intros (Hl & Hc & _) Hr. pose proof (lenZ_nonneg (concat (in_items s))).
  unfold Inner_readany in Hr. destruct (in_items s) as [|d items] eqn:Hi.
  - change (lenZ (concat [])) with 0 in Hl.
    destruct (in_err s), (in_eof s); simplify_eq/=; split_and!; auto; lia.
  - simplify_eq/=. rewrite lenZ_app in Hl.
    pose proof (lenZ_nonneg d). pose proof (lenZ_nonneg (concat items)).
    split_and!; try lia.
Qed.

Lemma polite_step_inv m op x w x' :
  0 < m -> trace_inv x -> polite_inv m x -> polite m op x -> chan_step op x w x' ->
  polite_inv m x'.
Proof.
  intros Hm [Hwf _] (Hc & Hn & Hl) Hp Hst. unfold polite_inv in *.
  destruct Hst as [d x c w Hf|x|e x|t x st c Hnr|t x s r s' w Hu Hr
                  |d x s g Hu Hg|cap x s Hu Hcap|x s Hu|x s Hu]; simpl in *;
    try done; try (apply upgrade_Some in Hu as [-> Hs]).
  - unfold Sender_feed_data in Hf. destruct (upgrade (tr_chan x)) as [s|] eqn:Hu;
      simplify_eq/=; [|done].
    apply upgrade_Some in Hu as [-> Hs]. destruct Hp as [Hb Hd].
    specialize (Hn Hb). split_and!; [done| |lia]. rewrite Hc. lia.
  - unfold Sender_feed_eof. by destruct (upgrade (tr_chan x)) eqn:Hu;
      [apply upgrade_Some in Hu as [-> ?]|].
  - unfold Sender_set_error. by destruct (upgrade (tr_chan x)) eqn:Hu;
      [apply upgrade_Some in Hu as [-> ?]|].
  - unfold Sender_need_read in Hnr. destruct (upgrade (tr_chan x)) eqn:Hu;
      [apply upgrade_Some in Hu as [-> ?]|]; [|naive_solver].
    destruct (in_need_read (ch_cell (tr_chan x))) eqn:Hb; simplify_eq/=; auto.
  - destruct (readany_len _ _ _ _ _ Hwf Hr) as (Hle & -> & Hor).
    split_and!; [done| |lia]. intros Hb. destruct (Hor Hb) as [[? ->]|?]; lia || auto.
Qed.

Lemma polite_reachable_inv m x :
  0 < m -> polite_reachable m x -> trace_inv x /\ polite_inv m x.
Proof.
  intros Hm. induction 1 as [|op x w x' _ [IH1 IH2] Hp Hst].
  - split; [apply chan_reachable_inv; constructor|].
    unfold polite_inv, MAX_BUFFER_SIZE; simpl; simpl; split_and!; try lia; done.
  - split; [by eapply chan_step_inv|by eapply polite_step_inv].
Qed.

(** ** Properties *)

(** The payload channel is a faithful byte queue: along every sequence of
    calls by the sender and the receiver, the bytes fed while the receiver is
    alive are exactly the bytes the receiver holds followed by the bytes still
    buffered, in order, and [len] counts the buffered bytes. *)
Theorem payload_fifo (x : chan_trace) :
  chan_reachable x ->
  let s := ch_cell (tr_chan x) in
  tr_fed x = tr_got x ++ concat (in_items s) /\
  in_len s = lenZ (concat (in_items s)).
Proof. intros H%chan_reachable_inv. destruct H as [(Hl & _) Hf]. by split. Qed.

Definition example_ops : list chan_op :=
  [OpFeedData [1; 2]; OpFeedData [3]; OpRead 7; OpUnread [2]; OpDrop; OpFeedData [9]].

Lemma payload_fifo_witness :
  exists x, chan_exec_all example_ops trace_new = Some x /\ chan_reachable x /\
            tr_fed x = [1] ++ [2; 3].
Proof.
  eexists. split; [vm_compute; reflexivity|].
  match goal with |- chan_reachable ?x /\ _ => assert (chan_reachable x) as H end.
  { apply (chan_exec_all_reachable example_ops trace_new); [constructor|by vm_compute]. }
  split; [exact H|]. exact (proj1 (payload_fifo _ H)).
Defined.

(** No lost wake-up for a paused sender: once the sender was told to pause
    and its task is registered, no call but a read of the payload removes the
    registration, and the next read delivers data and notifies exactly that
    task. *)
Theorem paused_sender_woken (x : chan_trace) (t : Task) :
  chan_reachable x ->
  in_need_read (ch_cell (tr_chan x)) = false ->
  in_io_task (ch_cell (tr_chan x)) = Some t ->
  forall op w x', chan_step op x w x' ->
  match op with
  | OpRead _ => w = [t] /\ exists d, tr_got x' = tr_got x ++ d /\
                              d :: in_items (ch_cell (tr_chan x')) = in_items (ch_cell (tr_chan x))
  | _ => in_io_task (ch_cell (tr_chan x')) = Some t
  end.
Proof.
  intros Hre%chan_reachable_inv Hp Ht op w x' Hst. destruct Hre as [(_ & _ & Hne) _].
  specialize (Hne Hp).
  destruct Hst as [d x c w Hf|x|e x|u x st c Hn|u x s r s' w Hu Hr
                  |d x s g Hu Hg|cap x s Hu Hcap|x s Hu|x s Hu]; simpl;
    try (apply upgrade_Some in Hu as [-> Hs]); simpl; try done.
  - unfold Sender_feed_data in Hf. destruct (upgrade (tr_chan x)) eqn:Hu;
      [apply upgrade_Some in Hu as [-> ?]|]; by simplify_eq/=.
  - unfold Sender_feed_eof. by destruct (upgrade (tr_chan x)) eqn:Hu;
      [apply upgrade_Some in Hu as [-> ?]|].
  - unfold Sender_set_error. by destruct (upgrade (tr_chan x)) eqn:Hu;
      [apply upgrade_Some in Hu as [-> ?]|].
  - unfold Sender_need_read in Hn.
    destruct (upgrade (tr_chan x)) eqn:Hu; [apply upgrade_Some in Hu as [-> ?]|];
      rewrite ?Hp, ?Ht in Hn; by simplify_eq/=.
  - unfold Inner_readany in Hr. rewrite Ht in Hr.
    destruct (in_items (ch_cell (tr_chan x))) as [|d items] eqn:Hi; [done|].
    simplify_eq/=. eauto.
Qed.

Definition paused_ops : list chan_op :=
  [OpSetCapacity 2; OpFeedData [1; 2; 3]; OpNeedRead 5].
Definition paused_trace : chan_trace :=
  default trace_new (chan_exec_all paused_ops trace_new).

Lemma paused_sender_woken_witness :
  match chan_exec (OpRead 7) paused_trace with
  | Some (w, _) => w = [5%nat]
  | None => False
  end.
Proof.
  assert (chan_reachable paused_trace) as Hr.
  { apply (chan_exec_all_reachable paused_ops trace_new); [constructor|reflexivity]. }
  destruct (chan_exec (OpRead 7) paused_trace) as [[w x']|] eqn:E;
    [|vm_compute in E; discriminate].
  exact (proj1 (paused_sender_woken paused_trace 5%nat Hr eq_refl eq_refl (OpRead 7) w x'
                  (chan_exec_step _ _ _ _ E))).
Defined.

(** Back-pressure bounds the buffer: a sender that feeds chunks of at most
    [m] bytes and only while [need_read] is set never makes the channel hold
    [MAX_BUFFER_SIZE + m] bytes. *)
Theorem payload_buffer_bounded (m : Z) (x : chan_trace) :
  0 < m -> polite_reachable m x ->
  lenZ (concat (in_items (ch_cell (tr_chan x)))) < MAX_BUFFER_SIZE + m.
Proof.
  intros Hm Hx. destruct (polite_reachable_inv m x Hm Hx) as [[(<- & _) _] (_ & _ & H)].
  exact H.
Qed.

Lemma payload_buffer_bounded_witness :
  let x := default trace_new (chan_exec_all [OpFeedData [1; 2; 3]] trace_new) in
  polite_reachable 4 x /\ lenZ (concat (in_items (ch_cell (tr_chan x)))) < 32772.
Proof.
  intros x. assert (polite_reachable 4 x) as H.
  { eapply (polite_step 4 (OpFeedData [1; 2; 3]) trace_new).
    - constructor.
    - split; [reflexivity|]. vm_compute; discriminate.
    - apply chan_exec_step. vm_compute. reflexivity. }
  split; [exact H|]. apply (payload_buffer_bounded 4 _ ltac:(lia) H).
Defined.

(** Successive reads of a channel nobody writes to. *)
Lemma read_seq_drain t s e n :
  in_err s = e ->
  read_seq t (length (in_items s) + length (option_list e) + n) s =
  map (fun d => Ready (Some d)) (in_items s) ++ map PErr (option_list e) ++
  replicate n (if in_eof s then Ready None else NotReady).
Proof.
  intros <-. remember (in_items s) as items eqn:Hi. revert s Hi.
  induction items as [|d items IH]; intros s Hi; simpl.
  - destruct s as [l eof err nr its cap tk io]; simpl in *; subst its.
    assert (Hn : forall l nr tk io, read_seq t n (mkInner l eof None nr [] cap tk io) =
                   replicate n (if eof then Ready None else NotReady)).
    { induction n as [|n IHn]; intros; [done|]. simpl. unfold Inner_readany; simpl.
      destruct eof; simpl; by rewrite IHn. }
    destruct err; simpl; [|apply Hn]. unfold Inner_readany; simpl. by rewrite Hn.
  - destruct s as [l eof err nr its cap tk io]; simpl in *; subst its.
    unfold Inner_readany; simpl. f_equal.
    match goal with |- read_seq _ _ ?s' = _ => apply (IH s'); reflexivity end.
Qed.

(** Delivery order at the end of a body: successive reads return the buffered
    chunks in order, then a pending error exactly once, and then the end of the
    stream (after [feed_eof]) or [NotReady]. *)
Theorem payload_drain (t : Task) (s : Inner) (e : option PayloadError) (n : nat) :
  in_err s = e ->
  read_seq t (length (in_items s) + length (option_list e) + n) s =
  map (fun d => Ready (Some d)) (in_items s) ++ map PErr (option_list e) ++
  replicate n (if in_eof s then Ready None else NotReady).
Proof. apply read_seq_drain. Qed.

Lemma payload_drain_witness :
  read_seq 3 4 (Inner_set_error PE_Incomplete (Inner_feed_data [1] (Inner_feed_data [2; 3] (Inner_new true)).1).1)
  = [Ready (Some [2; 3]); Ready (Some [1]); PErr PE_Incomplete; Ready None].
Proof.
  apply (payload_drain 3 (Inner_set_error PE_Incomplete
           (Inner_feed_data [1] (Inner_feed_data [2; 3] (Inner_new true)).1).1)
           (Some PE_Incomplete) 1 eq_refl).
Defined.
