(* ===== verification/PayloadHelper.v ===== *)
(** * Buffered reading of a byte stream (src/src/payload.rs, [PayloadHelper])

    [PayloadHelper] queues the chunks of an underlying stream and offers exact
    reads, copies and line reads that cross chunk borders.  The stream is an
    interface ([Stream]); the specification is a reader over one flat byte
    string, and every operation is proved to refine it for every stream and every
    way the bytes are cut into chunks. *)
From S2P Require Import Prelude Errors Payload.
Open Scope Z_scope.

(** ** The stream interface

    [Stream<Item = Bytes, Error = PayloadError>].  [stream_avail] bounds the items
    the stream can deliver before it next answers something else; it is what makes
    the recursive calls of the readers end. *)
Class Stream (S : Type) := {
  stream_poll : S -> poll (option bytes) PayloadError * S;
  stream_avail : S -> nat;
  stream_progress s d s' :
    stream_poll s = (Ready (Some d), s') -> (stream_avail s' < stream_avail s)%nat;
}.

(** A scripted stream: the answers to the successive polls, then [NotReady]. *)
Definition script : Type := list (poll (option bytes) PayloadError).

#[export] Program Instance script_stream : Stream script := {|
  stream_poll := fun s => match s with [] => (NotReady, []) | r :: s' => (r, s') end;
  stream_avail := length;
|}.
Next Obligation. intros [|r s] d s' H; simplify_eq/=; lia. Qed.

(** The receiving side of the payload channel is a stream: [Payload::poll] by
    the task that owns the request. *)
Record payload_rx : Type := mkRx { rx_task : Task; rx_cell : Inner; rx_woken : list Task }.

#[export] Program Instance payload_stream : Stream payload_rx := {|
  stream_poll := fun p =>
    let '(r, s, w) := Inner_readany (rx_task p) (rx_cell p) in
    (r, mkRx (rx_task p) s (rx_woken p ++ w));
  stream_avail := fun p => length (in_items (rx_cell p));
|}.
Next Obligation.
  intros [t s w] d s' H; simpl in *. unfold Inner_readany in H.
  destruct (in_items s) as [|c items] eqn:Hi; simpl in *.
  - destruct (in_err s), (in_eof s); simplify_eq/=.
  - simplify_eq/=. lia.
Qed.

(** ** The operations *)
Record PayloadHelper (S : Type) : Type := mkPH {
  ph_len : Z;
  ph_items : list bytes;
  ph_stream : S;
}.
Arguments mkPH {S} _ _ _.
Arguments ph_len {S} _.
Arguments ph_items {S} _.
Arguments ph_stream {S} _.

Section Operations.
Context {S : Type} `{Stream S}.
Implicit Types pl : PayloadHelper S.

Definition PayloadHelper_new (stream : S) : PayloadHelper S := mkPH 0 [] stream.

Definition poll_stream pl : poll bool PayloadError * PayloadHelper S :=
  let '(r, s) := stream_poll (ph_stream pl) in
  match r with
  | Ready (Some data) =>
      (Ready true, mkPH (ph_len pl + lenZ data) (ph_items pl ++ [data]) s)
  | Ready None => (Ready false, mkPH (ph_len pl) (ph_items pl) s)
  | NotReady => (NotReady, mkPH (ph_len pl) (ph_items pl) s)
  | PErr e => (PErr e, mkPH (ph_len pl) (ph_items pl) s)
  end.

(** The recursion shared by the readers: answer from the buffered chunks when
    [attempt] can, else poll the stream; on a new chunk, call the reader again. *)
Fixpoint poll_loop {X} (fuel : nat)
    (attempt : PayloadHelper S -> option (run (X * PayloadHelper S))) pl
    : run (poll (option X) PayloadError * PayloadHelper S) :=
  match attempt pl with
  | Some r => '(x, pl') ← r; Ret (Ready (Some x), pl')
  | None =>
      match fuel with
      | O => Timeout
      | Datatypes.S fuel =>
          match poll_stream pl with
          | (Ready true, pl') => poll_loop fuel attempt pl'
          | (Ready false, pl') => Ret (Ready None, pl')
          | (NotReady, pl') => Ret (NotReady, pl')
          | (PErr e, pl') => Ret (PErr e, pl')
          end
      end
  end.

Definition poll_fuel pl : nat := Datatypes.S (stream_avail (ph_stream pl)).

Definition readany pl : run (poll (option bytes) PayloadError * PayloadHelper S) :=
  poll_loop (poll_fuel pl)
    (fun pl => match ph_items pl with
     | data :: items =>
         Some (len ← usize_sub (ph_len pl) (lenZ data);
               Ret (data, mkPH len items (ph_stream pl)))
     | [] => None
     end) pl.

Definition can_read (size : Z) pl : run (poll (option bool) PayloadError * PayloadHelper S) :=
  poll_loop (poll_fuel pl)
    (fun pl => if size <=? ph_len pl then Some (Ret (true, pl)) else None) pl.

Definition get_chunk pl : poll (option bytes) PayloadError * PayloadHelper S :=
  let front pl := match ph_items pl with
                  | chunk :: _ => (Ready (Some chunk), pl)
                  | [] => (NotReady, pl)
                  end in
  match ph_items pl with
  | [] =>
      match poll_stream pl with
      | (Ready true, pl') => front pl'
      | (Ready false, pl') => (Ready None, pl')
      | (NotReady, pl') => (NotReady, pl')
      | (PErr e, pl') => (PErr e, pl')
      end
  | _ => front pl
  end.

(** [while buf.len() < size] of [read_exact]. *)
Fixpoint read_exact_loop (fuel : nat) (size : Z) (buf : bytes) (items : list bytes)
    : run (bytes * list bytes) :=
  if lenZ buf <? size then
    match fuel with
    | O => Timeout
    | Datatypes.S fuel =>
        match items with
        | [] => Panic
        | chunk :: items =>
            let rem := Z.min (size - lenZ buf) (lenZ chunk) in
            let buf := buf ++ takeZ rem chunk in
            let chunk := dropZ rem chunk in
            read_exact_loop fuel size buf
              (if bool_decide (chunk = []) then items else chunk :: items)
        end
    end
  else Ret (buf, items).

Definition read_exact_ready (size : Z) pl : option (run (bytes * PayloadHelper S)) :=
  if size <=? ph_len pl then
    Some (
      len ← usize_sub (ph_len pl) size;
      match ph_items pl with
      | [] => Panic
      | chunk :: items =>
          if size <? lenZ chunk then
            Ret (takeZ size chunk, mkPH len (dropZ size chunk :: items) (ph_stream pl))
          else if size =? lenZ chunk then Ret (chunk, mkPH len items (ph_stream pl))
          else
            '(buf, items) ← read_exact_loop (Datatypes.S (length items)) size chunk items;
            Ret (buf, mkPH len items (ph_stream pl))
      end)
  else None.

Definition read_exact (size : Z) pl : run (poll (option bytes) PayloadError * PayloadHelper S) :=
  poll_loop (poll_fuel pl) (read_exact_ready size) pl.

(** [while len < size] of [drop_payload]. *)
Fixpoint drop_payload_loop (fuel : nat) (size len : Z) (items : list bytes) : run (list bytes) :=
  if len <? size then
    match fuel with
    | O => Timeout
    | Datatypes.S fuel =>
        match items with
        | [] => Panic
        | chunk :: items =>
            let rem := Z.min (size - len) (lenZ chunk) in
            drop_payload_loop fuel size (len + rem)
              (if rem <? lenZ chunk then dropZ rem chunk :: items else items)
        end
    end
  else Ret items.

Definition drop_payload (size : Z) pl : run (PayloadHelper S) :=
  if size <=? ph_len pl then
    len ← usize_sub (ph_len pl) size;
    items ← drop_payload_loop (Datatypes.S (length (ph_items pl))) size 0 (ph_items pl);
    Ret (mkPH len items (ph_stream pl))
  else Ret pl.

(** [for chunk in &self.items] of [copy]: [None] when the loop falls through. *)
Fixpoint copy_loop (size : Z) (buf : bytes) (items : list bytes) : option bytes :=
  match items with
  | [] => None
  | chunk :: items =>
      let buf := if lenZ buf <? size
                 then buf ++ takeZ (Z.min (size - lenZ buf) (lenZ chunk)) chunk
                 else buf in
      if lenZ buf =? size then Some buf else copy_loop size buf items
  end.

Definition copy (size : Z) pl : run (poll (option bytes) PayloadError * PayloadHelper S) :=
  poll_loop (poll_fuel pl)
    (fun pl => if size <=? ph_len pl
               then buf ← copy_loop size [] (ph_items pl); Some (Ret (buf, pl))
               else None) pl.

(** The inner [for (pos, ch)] of [read_until]: the offset behind the match, or the
    matcher state at the end of the chunk.  [line[idx]] is an index access. *)
Fixpoint scan_chunk (line : bytes) (idx : nat) (pos : Z) (chunk : bytes) : run (Z + nat) :=
  match chunk with
  | [] => Ret (inr idx)
  | ch :: chunk =>
      c ← unwrap (line !! idx);
      if ch =? c then
        if decide (Datatypes.S idx = length line) then Ret (inl (pos + 1))
        else scan_chunk line (Datatypes.S idx) (pos + 1) chunk
      else scan_chunk line 0 (pos + 1) chunk
  end.

(** The outer [for no in 0..self.items.len()]: [num], [offset] and [length] of the
    match. *)
Fixpoint scan_items (line : bytes) (idx : nat) (no : nat) (len : Z) (items : list bytes)
    : run (option (nat * Z * Z)) :=
  match items with
  | [] => Ret None
  | chunk :: items =>
      r ← scan_chunk line idx 0 chunk;
      match r with
      | inl offset => Ret (Some (no, offset, len + offset))
      | inr idx => scan_items line idx (Datatypes.S no) (len + lenZ chunk) items
      end
  end.

(** [for _ in 0..num { buf.extend(pop_front().unwrap()) }]. *)
Fixpoint pop_chunks (num : nat) (buf : bytes) (items : list bytes) : run (bytes * list bytes) :=
  match num with
  | O => Ret (buf, items)
  | Datatypes.S num =>
      match items with
      | [] => Panic
      | chunk :: items => pop_chunks num (buf ++ chunk) items
      end
  end.

Definition read_until_ready (line : bytes) pl : option (run (bytes * PayloadHelper S)) :=
  match scan_items line 0 0 0 (ph_items pl) with
  | Panic => Some Panic
  | Timeout => Some Timeout
  | Ret None => None
  | Ret (Some (num, offset, length)) =>
      Some (
        '(buf, items) ← pop_chunks num [] (ph_items pl);
        '(buf, items) ←
          (if 0 <? offset then
             match items with
             | [] => Panic
             | chunk :: items =>
                 let rest := dropZ offset chunk in
                 Ret (buf ++ takeZ offset chunk,
                      if bool_decide (rest = []) then items else rest :: items)
             end
           else Ret (buf, items));
        len ← usize_sub (ph_len pl) length;
        Ret (buf, mkPH len items (ph_stream pl)))
  end.

Definition read_until (line : bytes) pl
  : run (poll (option bytes) PayloadError * PayloadHelper S) :=
  poll_loop (poll_fuel pl) (read_until_ready line) pl.

Definition readline pl : run (poll (option bytes) PayloadError * PayloadHelper S) :=
  read_until [10] pl.

Definition unread_data (data : bytes) pl : PayloadHelper S :=
  mkPH (ph_len pl + lenZ data) (data :: ph_items pl) (ph_stream pl).

Definition remaining pl : bytes := foldl app [] (ph_items pl).

(** ** The specification: a reader over one flat byte string *)

Definition content pl : bytes := concat (ph_items pl).

(** The representation invariant: [len] counts the queued bytes. *)
Definition ph_wf pl : Prop := ph_len pl = lenZ (content pl).

(** A flat reader tries to answer from the bytes at hand; while it cannot, it
    appends what the stream delivers. *)
Inductive flat_reads {X} (attempt : bytes -> option (X * bytes))
  : bytes -> S -> poll (option X) PayloadError -> bytes -> S -> Prop :=
| fr_done buf s x buf' :
    attempt buf = Some (x, buf') -> flat_reads attempt buf s (Ready (Some x)) buf' s
| fr_more buf s d s' r buf' s'' :
    attempt buf = None -> stream_poll s = (Ready (Some d), s') ->
    flat_reads attempt (buf ++ d) s' r buf' s'' ->
    flat_reads attempt buf s r buf' s''
| fr_eof buf s s' :
    attempt buf = None -> stream_poll s = (Ready None, s') ->
    flat_reads attempt buf s (Ready None) buf s'
| fr_not_ready buf s s' :
    attempt buf = None -> stream_poll s = (NotReady, s') ->
    flat_reads attempt buf s NotReady buf s'
| fr_err buf s e s' :
    attempt buf = None -> stream_poll s = (PErr e, s') ->
    flat_reads attempt buf s (PErr e) buf s'.

Definition flat_exact (size : Z) (buf : bytes) : option (bytes * bytes) :=
  if size <=? lenZ buf then Some (takeZ size buf, dropZ size buf) else None.
Definition flat_can_read (size : Z) (buf : bytes) : option (bool * bytes) :=
  if size <=? lenZ buf then Some (true, buf) else None.
Definition flat_copy (size : Z) (buf : bytes) : option (bytes * bytes) :=
  if size <=? lenZ buf then Some (takeZ size buf, buf) else None.

(** The matcher of [read_until] over a flat string: how many bytes up to the end
    of the first match it finds. *)
Fixpoint find_end (line : bytes) (idx : nat) (buf : bytes) : option nat :=
  match buf with
  | [] => None
  | ch :: buf =>
      if bool_decide (line !! idx = Some ch) then
        if decide (Datatypes.S idx = length line) then Some 1%nat
        else Datatypes.S <$> find_end line (Datatypes.S idx) buf
      else Datatypes.S <$> find_end line 0 buf
  end.
Definition flat_until (line : bytes) (buf : bytes) : option (bytes * bytes) :=
  n ← find_end line 0 buf; Some (take n buf, drop n buf).

(** [attempt] answers from the chunks as [fattempt] does from their contents. *)
Definition attempt_refines {X} (attempt : PayloadHelper S -> option (run (X * PayloadHelper S)))
    (fattempt : bytes -> option (X * bytes)) : Prop :=
  forall pl, ph_wf pl ->
  match fattempt (content pl) with
  | None => attempt pl = None
  | Some (x, buf') =>
      exists pl', attempt pl = Some (Ret (x, pl')) /\ ph_wf pl' /\
                  content pl' = buf' /\ ph_stream pl' = ph_stream pl
  end.

(** What a reader is proved to do: no panic, no exhausted loop, the invariant
    kept, and the answer and remaining bytes of the flat reader. *)
Definition reader_refines {X}
    (reader : PayloadHelper S -> run (poll (option X) PayloadError * PayloadHelper S))
    (fattempt : bytes -> option (X * bytes)) : Prop :=
  forall pl, ph_wf pl ->
  exists r pl', reader pl = Ret (r, pl') /\ ph_wf pl' /\
    flat_reads fattempt (content pl) (ph_stream pl) r (content pl') (ph_stream pl').

(** ** Lemmas *)

Lemma poll_stream_wf pl r pl' : ph_wf pl -> poll_stream pl = (r, pl') -> ph_wf pl'.
Proof.
  unfold ph_wf, content, poll_stream. intros Hwf Hp.
  destruct (stream_poll _) as [[[d|]| |e] s]; simplify_eq/=; try done.
  rewrite concat_app; simpl. rewrite app_nil_r, lenZ_app. lia.
Qed.

Lemma poll_loop_refines {X} attempt (fattempt : bytes -> option (X * bytes)) fuel pl :
  attempt_refines attempt fattempt ->
  ph_wf pl -> (stream_avail (ph_stream pl) < fuel)%nat ->
  exists r pl', poll_loop fuel attempt pl = Ret (r, pl') /\ ph_wf pl' /\
    flat_reads fattempt (content pl) (ph_stream pl) r (content pl') (ph_stream pl').
Proof.
  intros Hat. revert pl. induction fuel as [|fuel IH]; intros pl Hwf Hfuel; [lia|].
  simpl. pose proof (Hat pl Hwf) as Ha.
  destruct (fattempt (content pl)) as [[x buf']|] eqn:Hf.
  - destruct Ha as (pl' & -> & Hwf' & Hc & Hs). simpl.
    eexists _, pl'. split; [done|]. split; [done|]. rewrite Hs, Hc. by constructor.
  - rewrite Ha. destruct (poll_stream pl) as [r pl1] eqn:Hp.
    pose proof (poll_stream_wf _ _ _ Hwf Hp) as Hwf1. unfold poll_stream in Hp.
    destruct (stream_poll (ph_stream pl)) as [[[d|]| |e] s] eqn:Hs; simplify_eq/=.
    + apply stream_progress in Hs as Hlt.
      destruct (IH _ Hwf1) as (r & pl' & -> & Hwf' & Hfr); [simpl; lia|].
      eexists _, _. split; [done|]. split; [done|].
      eapply fr_more; [done|done|]. unfold content in *. simpl in Hfr.
      rewrite concat_app in Hfr. simpl in Hfr. by rewrite app_nil_r in Hfr.
    + eexists _, _. do 2 (split; [done|]). by apply fr_eof.
    + eexists _, _. do 2 (split; [done|]). by apply fr_not_ready.
    + eexists _, _. do 2 (split; [done|]). by apply fr_err.
Qed.

(** Every reader built on [poll_loop] refines the flat reader of its attempt. *)
Lemma reader_refines_of_attempt {X} attempt (fattempt : bytes -> option (X * bytes)) :
  attempt_refines attempt fattempt ->
  reader_refines (fun pl => poll_loop (poll_fuel pl) attempt pl) fattempt.
Proof.
  intros Hat pl Hwf. apply poll_loop_refines; [done..|]. unfold poll_fuel. lia.
Qed.

Lemma read_exact_loop_ok fuel size buf items :
  lenZ buf <= size <= lenZ (buf ++ concat items) -> (length items < fuel)%nat ->
  exists items', read_exact_loop fuel size buf items =
                   Ret (takeZ size (buf ++ concat items), items') /\
                 concat items' = dropZ size (buf ++ concat items).
Proof.
  revert buf items. induction fuel as [|fuel IH]; intros buf items Hsz Hf; [lia|].
  simpl. destruct (Z.ltb_spec (lenZ buf) size) as [Hlt|Hge].
  - destruct items as [|chunk items]; simpl in *; [lenZ_lia|].
    set (rem := Z.min (size - lenZ buf) (lenZ chunk)).
    pose proof (lenZ_nonneg chunk). pose proof (takeZ_dropZ rem chunk) as Hsplit.
    assert (lenZ (takeZ rem chunk) = rem) as Hrem by (apply lenZ_takeZ; lenZ_lia).
    replace (buf ++ chunk ++ concat items)
      with ((buf ++ takeZ rem chunk) ++ concat (dropZ rem chunk :: items)) in *
      by (simpl; rewrite <-!app_assoc, (app_assoc (takeZ _ _)), Hsplit; done).
    case_bool_decide as Hd.
    + simpl in *. rewrite Hd in *. simpl in *. apply IH; [|lia]. lenZ_lia.
    + assert (rem = size - lenZ buf) as Hr.
      { destruct (decide (rem = lenZ chunk)) as [E|E]; [|unfold rem in *; lia].
        exfalso; apply Hd. apply dropZ_all. lia. }
      exists (dropZ rem chunk :: items).
      assert (lenZ (buf ++ takeZ rem chunk) = size) as Hlen by lenZ_lia.
      rewrite takeZ_app_l, dropZ_app_l, (takeZ_all size), (dropZ_all size) by lia.
      destruct fuel; simpl;
        rewrite (proj2 (Z.ltb_ge _ _)) by lia; done.
  - exists items. assert (size = lenZ buf) as -> by lia.
    by rewrite takeZ_app_l, dropZ_app_l, takeZ_all, dropZ_all by lia.
Qed.
Lemma read_exact_ready_refines size :
  0 < size -> attempt_refines (read_exact_ready size) (flat_exact size).
Proof.
  intros Hsz pl Hwf. unfold flat_exact, read_exact_ready. rewrite Hwf.
  destruct (Z.leb_spec size (lenZ (content pl))) as [Hle|]; [|done].
  rewrite usize_sub_ok by done; simpl. unfold ph_wf, content in *.
  destruct pl as [len [|chunk items] s]; simpl in *; [lenZ_lia|].
  destruct (Z.ltb_spec size (lenZ chunk)).
  { eexists. split; [by rewrite takeZ_app_l by lia|]. simpl. split_and!; [|by rewrite dropZ_app_l by lia|done].
    pose proof (lenZ_dropZ size chunk). lenZ_lia. }
  destruct (Z.eqb_spec size (lenZ chunk)) as [->|].
  { eexists. rewrite takeZ_app_l, takeZ_all, dropZ_app_l, dropZ_all by lia.
    split; [done|]. simpl. split_and!; [lenZ_lia|done|done]. }
  destruct (read_exact_loop_ok (Datatypes.S (length items)) size chunk items)
    as (items' & Hl & Hc); [lenZ_lia|lia|]. simpl in Hl. rewrite Hl; simpl.
  eexists. split; [done|]. simpl. split_and!; [|done|done].
  rewrite Hc, lenZ_dropZ by lia. done.
Qed.

Lemma can_read_refines size :
  attempt_refines (fun pl => if size <=? ph_len pl then Some (Ret (true, pl)) else None)
    (flat_can_read size).
Proof.
  intros pl Hwf. unfold flat_can_read. rewrite Hwf.
  destruct (size <=? _); eauto 10.
Qed.

Lemma copy_loop_ok size buf items :
  0 < size -> lenZ buf < size <= lenZ (buf ++ concat items) ->
  copy_loop size buf items = Some (takeZ size (buf ++ concat items)).
Proof.
  intros Hsz. revert buf. induction items as [|chunk items IH]; intros buf Hb; simpl in *;
    [lenZ_lia|].
  rewrite (proj2 (Z.ltb_lt _ _)) by lia.
  pose proof (lenZ_nonneg chunk).
  set (rem := Z.min (size - lenZ buf) (lenZ chunk)).
  assert (lenZ (takeZ rem chunk) = rem) as Hrem by (apply lenZ_takeZ; lia).
  rewrite lenZ_app, Hrem, app_assoc.
  destruct (Z.eqb_spec (lenZ buf + rem) size) as [Heq|Hne].
  - rewrite takeZ_app_l by lenZ_lia. rewrite (takeZ_app_r size buf) by lia.
    do 3 f_equal. unfold rem in *. lia.
  - rewrite takeZ_all by (unfold rem in *; lia).
    apply IH. unfold rem in *. lenZ_lia.
Qed.

Lemma copy_refines size :
  0 < size ->
  attempt_refines
    (fun pl => if size <=? ph_len pl
               then buf ← copy_loop size [] (ph_items pl); Some (Ret (buf, pl))
               else None) (flat_copy size).
Proof.
  intros Hsz pl Hwf. unfold flat_copy. rewrite Hwf.
  destruct (Z.leb_spec size (lenZ (content pl))); [|done].
  rewrite copy_loop_ok by (simpl; rewrite ?lenZ_nil; auto with lia). simpl. eauto 10.
Qed.

Lemma drop_payload_loop_ok fuel size len items :
  0 <= size - len <= lenZ (concat items) -> (length items < fuel)%nat ->
  exists items', drop_payload_loop fuel size len items = Ret items' /\
                 concat items' = dropZ (size - len) (concat items).
Proof.
  revert len items. induction fuel as [|fuel IH]; intros len items Hsz Hf; [lia|].
  simpl. destruct (Z.ltb_spec len size) as [Hlt|Hge].
  - destruct items as [|chunk items]; simpl in *; [lenZ_lia|].
    pose proof (lenZ_nonneg chunk).
    set (rem := Z.min (size - len) (lenZ chunk)).
    destruct (Z.ltb_spec rem (lenZ chunk)) as [Hr|Hr].
    + exists (dropZ rem chunk :: items). assert (size - len = rem) as -> by lia.
      split; [|simpl; by rewrite dropZ_app_l by lia].
      destruct fuel; simpl; rewrite (proj2 (Z.ltb_ge _ _)) by lia; done.
    + rewrite dropZ_app_r by lia.
      destruct (IH (len + rem) items) as (items' & -> & Hc); [lenZ_lia|lia|].
      exists items'. split; [done|]. rewrite Hc. f_equal. lia.
  - exists items. split; [done|]. by rewrite dropZ_0 by lia.
Qed.

Lemma drop_payload_ok size pl :
  ph_wf pl -> 0 <= size ->
  exists pl', drop_payload size pl = Ret pl' /\ ph_wf pl' /\
    ph_stream pl' = ph_stream pl /\
    content pl' = if size <=? lenZ (content pl) then dropZ size (content pl) else content pl.
Proof.
  intros Hwf Hsz. unfold drop_payload. rewrite Hwf.
  destruct (Z.leb_spec size (lenZ (content pl))); [|eauto].
  rewrite usize_sub_ok by done; simpl.
  destruct (drop_payload_loop_ok (Datatypes.S (length (ph_items pl))) size 0 (ph_items pl))
    as (items' & Hl & Hc); [unfold content in *; lia|lia|].
  simpl in Hl. rewrite Hl; simpl. eexists. split; [done|].
  unfold ph_wf, content in *; simpl. rewrite Hc, Z.sub_0_r, lenZ_dropZ by lia. done.
Qed.

(** ** The matcher *)

Lemma scan_chunk_spec line idx pos chunk rest :
  (idx < length line)%nat ->
  match find_end line idx chunk with
  | Some n => scan_chunk line idx pos chunk = Ret (inl (pos + Z.of_nat n)) /\
              find_end line idx (chunk ++ rest) = Some n /\ (0 < n <= length chunk)%nat
  | None => exists idx', scan_chunk line idx pos chunk = Ret (inr idx') /\
              (idx' < length line)%nat /\
              find_end line idx (chunk ++ rest) =
                Nat.add (length chunk) <$> find_end line idx' rest
  end.
Proof.
  revert idx pos. induction chunk as [|ch chunk IH]; intros idx pos Hidx; simpl.
  - exists idx. split_and!; [done..|]. by destruct (find_end line idx rest).
  - destruct (lookup_lt_is_Some_2 line idx Hidx) as [c Hc]. rewrite Hc; simpl.
    assert (Hstep : forall i, (i < length line)%nat ->
      match Datatypes.S <$> find_end line i chunk with
      | Some n => scan_chunk line i (pos + 1) chunk = Ret (inl (pos + Z.of_nat n)) /\
                  Datatypes.S <$> find_end line i (chunk ++ rest) = Some n /\
                  (0 < n <= Datatypes.S (length chunk))%nat
      | None => exists idx', scan_chunk line i (pos + 1) chunk = Ret (inr idx') /\
                  (idx' < length line)%nat /\
                  Datatypes.S <$> find_end line i (chunk ++ rest) =
                    Nat.add (Datatypes.S (length chunk)) <$> find_end line idx' rest
      end).
    { intros i Hi. specialize (IH i (pos + 1) Hi).
      destruct (find_end line i chunk) as [n|]; simpl.
      - destruct IH as (-> & -> & ?). split_and!; [|done|lia..]. do 2 f_equal. lia.
      - destruct IH as (i' & -> & ? & ->). exists i'. split_and!; [done..|].
        by destruct (find_end line i' rest). }
    case_bool_decide as Hb.
    + simplify_eq. rewrite Z.eqb_refl. destruct (decide _).
      * split_and!; [done|done|lia..].
      * apply Hstep. lia.
    + rewrite (proj2 (Z.eqb_neq _ _)) by congruence. apply Hstep. lia.
Qed.

Lemma scan_items_spec line idx no len items :
  (idx < length line)%nat ->
  match find_end line idx (concat items) with
  | None => scan_items line idx no len items = Ret None
  | Some n =>
      exists pre chunk post off,
        items = pre ++ chunk :: post /\
        scan_items line idx no len items =
          Ret (Some ((no + length pre)%nat, off, len + Z.of_nat n)) /\
        Z.of_nat n = lenZ (concat pre) + off /\ 0 < off <= lenZ chunk
  end.
Proof.
  revert idx no len. induction items as [|chunk items IH]; intros idx no len Hidx; simpl;
    [done|].
  pose proof (scan_chunk_spec line idx 0 chunk (concat items) Hidx) as Hs.
  destruct (find_end line idx chunk) as [n|].
  - destruct Hs as (-> & -> & Hn). simpl. exists [], chunk, items, (Z.of_nat n).
    rewrite Nat.add_0_r. split_and!; [done|do 2 f_equal; f_equal; lia|done|lia|unfold lenZ; lia].
  - destruct Hs as (idx' & -> & Hi & ->). simpl.
    specialize (IH idx' (Datatypes.S no) (len + lenZ chunk) Hi).
    destruct (find_end line idx' (concat items)) as [n|]; simpl; [|done].
    destruct IH as (pre & c & post & off & -> & -> & Hn & Hoff).
    exists (chunk :: pre), c, post, off. simpl.
    split_and!; [done| |rewrite lenZ_app; unfold lenZ in *; lia|lia..].
    do 3 f_equal; [f_equal; lia|unfold lenZ in *; lia].
Qed.

Lemma pop_chunks_app pre buf items :
  pop_chunks (length pre) buf (pre ++ items) = Ret (buf ++ concat pre, items).
Proof.
  revert buf. induction pre as [|c pre IH]; intros buf; simpl; [by rewrite app_nil_r|].
  by rewrite IH, app_assoc.
Qed.

Lemma read_until_ready_refines line :
  line <> [] -> attempt_refines (read_until_ready line) (flat_until line).
Proof.
  intros Hline pl Hwf. unfold flat_until, read_until_ready.
  pose proof (scan_items_spec line 0 0 0 (ph_items pl)) as Hs.
  fold (content pl) in Hs. destruct (find_end line 0 (content pl)) as [n|]; simpl.
  2: { rewrite Hs; [done|]. destruct line; [done|simpl; lia]. }
  destruct Hs as (pre & chunk & post & off & Hi & -> & Hn & Hoff);
    [destruct line; [done|simpl; lia]|].
  rewrite Hi. simpl. rewrite pop_chunks_app; simpl. rewrite (proj2 (Z.ltb_lt 0 off)) by lia; simpl.
  unfold ph_wf, content in *. rewrite Hwf, Hi, concat_app; simpl.
  rewrite usize_sub_ok by lenZ_lia; simpl.
  pose proof (takeZ_dropZ off chunk) as Hsp.
  assert (Hn' : n = (length (concat pre) + Z.to_nat off)%nat) by (unfold lenZ in *; lia).
  eexists. split; [|split].
  - do 3 f_equal. rewrite Hn', take_app_add. f_equal.
    unfold takeZ. rewrite take_app_le by (unfold lenZ in *; lia). reflexivity.
  - simpl. case_bool_decide as Hd; simpl; pose proof (lenZ_dropZ off chunk);
      rewrite ?Hd, ?lenZ_nil in *; lenZ_lia.
  - simpl. split; [|done]. rewrite Hn', drop_app_add, drop_app_le by (unfold lenZ in *; lia).
    unfold dropZ. case_bool_decide as Hd; simpl; by rewrite ?Hd.
Qed.

(** A match of the matcher is an occurrence: the bytes read end with [line]. *)
Lemma find_end_sound line idx buf n :
  (idx < length line)%nat -> find_end line idx buf = Some n ->
  exists pre, take idx line ++ take n buf = pre ++ line \/ take n buf = pre ++ line.
Proof.
  revert idx n. induction buf as [|ch buf IH]; intros idx n Hidx Hf; simpl in *; [done|].
  case_bool_decide as Hb.
  - destruct (decide _) as [Hl|Hl].
    + simplify_eq. exists []. left. simpl.
      transitivity (take (Datatypes.S idx) line); [symmetry; by apply take_S_r|].
      rewrite Hl. apply firstn_all.
    + apply fmap_Some in Hf as (m & Hf & ->).
      destruct (IH (Datatypes.S idx) m) as [pre Hpre]; [lia|done|].
      destruct Hpre as [Hp|Hp].
      * exists pre. left. simpl. by rewrite (take_S_r line idx ch Hb), <-app_assoc in Hp.
      * exists (ch :: pre). right. simpl. by rewrite Hp.
  - apply fmap_Some in Hf as (m & Hf & ->).
    destruct (IH 0%nat m) as [pre Hpre]; [lia|done|].
    exists (ch :: pre). right. simpl. destruct Hpre as [Hp|Hp]; simpl in Hp; by rewrite Hp.
Qed.

(** For a single byte the matcher finds the first occurrence. *)
Lemma find_end_byte c buf n :
  find_end [c] 0 buf = Some n <->
  exists pre post, buf = pre ++ c :: post /\ n = Datatypes.S (length pre) /\ c ∉ pre.
Proof.
  revert n. induction buf as [|ch buf IH]; intros n; simpl.
  - split; [done|]. by intros ([|? ?] & post & ? & _).
  - case_bool_decide as Hb; simplify_eq/=.
    + split.
      * intros ?; simplify_eq. exists [], buf. split_and!; [done..|]. set_solver.
      * intros ([|x pre] & post & Heq & -> & Hni); simplify_eq/=; [done|set_solver].
    + rewrite fmap_Some. setoid_rewrite IH. split.
      * intros (m & (pre & post & -> & -> & Hni) & ->).
        exists (ch :: pre), post. split_and!; [done..|]. set_solver.
      * intros ([|x pre] & post & Heq & -> & Hni); simplify_eq/=.
        exists (Datatypes.S (length pre)). split; [|done].
        exists pre, post. split_and!; [done..|]. set_solver.
Qed.

(** ** Bytes still to come

    What a reader will eventually see without waiting: the queued bytes and those
    the stream delivers before it next answers anything else. *)
Fixpoint stream_bytes (fuel : nat) (s : S) : bytes :=
  match fuel with
  | O => []
  | Datatypes.S fuel =>
      match stream_poll s with
      | (Ready (Some d), s') => d ++ stream_bytes fuel s'
      | _ => []
      end
  end.
Definition deliverable (s : S) : bytes := stream_bytes (Datatypes.S (stream_avail s)) s.
Definition pending pl : bytes := content pl ++ deliverable (ph_stream pl).

Lemma stream_bytes_fuel s n m :
  (stream_avail s < n)%nat -> (stream_avail s < m)%nat -> stream_bytes n s = stream_bytes m s.
Proof.
  revert s m. induction n as [|n IH]; intros s [|m] Hn Hm; try lia. simpl.
  destruct (stream_poll s) as [[[d|]| |e] s'] eqn:Hp; try done.
  apply stream_progress in Hp. f_equal. apply IH; lia.
Qed.

Lemma deliverable_data s d s' :
  stream_poll s = (Ready (Some d), s') -> deliverable s = d ++ deliverable s'.
Proof.
  intros Hp. unfold deliverable at 1. simpl. rewrite Hp. f_equal.
  apply stream_progress in Hp. apply stream_bytes_fuel; lia.
Qed.

Lemma deliverable_none s r s' :
  stream_poll s = (r, s') -> (forall d, r <> Ready (Some d)) -> deliverable s = [].
Proof.
  intros Hp Hr. unfold deliverable. simpl. rewrite Hp.
  destruct r as [[d|]| |e]; [by destruct (Hr d)|done..].
Qed.

(** A reader that answers from a prefix of [size] bytes and consumes [k] of them
    succeeds as soon as [size] bytes are pending. *)
Lemma flat_prefix_pending {X} (attempt : bytes -> option (X * bytes)) size k f :
  k <= size ->
  (forall buf, attempt buf =
     if size <=? lenZ buf then Some (f (takeZ size buf), dropZ k buf) else None) ->
  forall buf s r buf' s', flat_reads attempt buf s r buf' s' ->
  size <= lenZ (buf ++ deliverable s) ->
  r = Ready (Some (f (takeZ size (buf ++ deliverable s)))) /\
  buf' ++ deliverable s' = dropZ k (buf ++ deliverable s) /\
  (k <= 0 -> size <= lenZ buf').
Proof.
  intros Hk Hat buf s r buf' s' Hfr. induction Hfr as
    [buf s x buf' Ha|buf s d s1 r buf' s' Ha Hp Hfr IH|buf s s1 Ha Hp|buf s s1 Ha Hp|buf s e s1 Ha Hp];
    intros Hsz; rewrite Hat in Ha; destruct (Z.leb_spec size (lenZ buf)); simplify_eq/=.
  - rewrite takeZ_app_l, dropZ_app_l by lia. split_and!; [done..|].
    intros. by rewrite dropZ_0 by lia.
  - rewrite (deliverable_data _ _ _ Hp), app_assoc in *. by apply IH.
  - rewrite (deliverable_none _ _ _ Hp) in Hsz by done. rewrite app_nil_r in Hsz. lia.
  - rewrite (deliverable_none _ _ _ Hp) in Hsz by done. rewrite app_nil_r in Hsz. lia.
  - rewrite (deliverable_none _ _ _ Hp) in Hsz by done. rewrite app_nil_r in Hsz. lia.
Qed.

Lemma read_exact_pending size pl :
  ph_wf pl -> 0 < size <= lenZ (pending pl) ->
  exists pl', read_exact size pl = Ret (Ready (Some (takeZ size (pending pl))), pl') /\
    ph_wf pl' /\ pending pl' = dropZ size (pending pl).
Proof.
  intros Hwf Hsz.
  destruct (reader_refines_of_attempt _ _ (read_exact_ready_refines size ltac:(lia)) pl Hwf)
    as (r & pl' & Hr & Hwf' & Hfr).
  destruct (flat_prefix_pending (flat_exact size) size size id ltac:(lia) ltac:(done)
              _ _ _ _ _ Hfr) as (-> & Hp & _); [unfold pending in *; lia|].
  exists pl'. split_and!; [exact Hr|done|exact Hp].
Qed.

Lemma copy_pending size pl :
  ph_wf pl -> 0 < size <= lenZ (pending pl) ->
  exists pl', copy size pl = Ret (Ready (Some (takeZ size (pending pl))), pl') /\
    ph_wf pl' /\ pending pl' = pending pl.
Proof.
  intros Hwf Hsz.
  destruct (reader_refines_of_attempt _ _ (copy_refines size ltac:(lia)) pl Hwf)
    as (r & pl' & Hr & Hwf' & Hfr).
  destruct (flat_prefix_pending (flat_copy size) size 0 id ltac:(lia) ltac:(done)
              _ _ _ _ _ Hfr) as (-> & Hp & _); [unfold pending in *; lia|].
  exists pl'. split_and!; [exact Hr|done|exact Hp].
Qed.

Lemma can_read_pending size pl :
  ph_wf pl -> 0 <= size <= lenZ (pending pl) ->
  exists pl', can_read size pl = Ret (Ready (Some true), pl') /\
    ph_wf pl' /\ pending pl' = pending pl /\ size <= lenZ (content pl').
Proof.
  intros Hwf Hsz.
  destruct (reader_refines_of_attempt _ _ (can_read_refines size) pl Hwf)
    as (r & pl' & Hr & Hwf' & Hfr).
  destruct (flat_prefix_pending (flat_can_read size) size 0 (fun _ => true) ltac:(lia) ltac:(done)
              _ _ _ _ _ Hfr) as (-> & Hp & Hle); [unfold pending in *; lia|].
  exists pl'. split_and!; [exact Hr|done|exact Hp|by apply Hle].
Qed.

Lemma drop_payload_pending size pl :
  ph_wf pl -> 0 <= size <= lenZ (content pl) ->
  exists pl', drop_payload size pl = Ret pl' /\ ph_wf pl' /\
    content pl' = dropZ size (content pl) /\ ph_stream pl' = ph_stream pl /\
    pending pl' = dropZ size (pending pl).
Proof.
  intros Hwf Hsz. destruct (drop_payload_ok size pl Hwf) as (pl' & Hd & Hwf' & Hs & Hc); [lia|].
  rewrite (proj2 (Z.leb_le _ _)) in Hc by lia.
  exists pl'. split_and!; [done..|]. unfold pending. rewrite Hc, Hs.
  by rewrite dropZ_app_l by lia.
Qed.

Lemma get_chunk_pending pl :
  ph_wf pl -> pending pl <> [] ->
  exists c pl' rest, get_chunk pl = (Ready (Some c), pl') /\ ph_wf pl' /\
    pending pl' = pending pl /\ pending pl = c ++ rest.
Proof.
  intros Hwf Hne. unfold get_chunk, pending, content in *.
  destruct pl as [len [|c items] s]; simpl in *.
  - unfold poll_stream; simpl. destruct (stream_poll s) as [r s'] eqn:Hp.
    destruct r as [[d|]| |e]; try (by rewrite (deliverable_none _ _ _ Hp) in Hne by done).
    eexists _, _, _. split; [done|]. rewrite (deliverable_data _ _ _ Hp). simpl.
    rewrite app_nil_r. split_and!; [|done|done].
    unfold ph_wf, content in *; simpl in *. rewrite app_nil_r. lenZ_lia.
  - eexists _, _, _. split_and!; [done..|by rewrite <-app_assoc].
Qed.

(** Reads that consume nothing keep the queued bytes, and append what they polled. *)
Definition grows pl pl' : Prop := exists polled, content pl' = content pl ++ polled.

Lemma grows_refl pl : grows pl pl.
Proof. exists []. by rewrite app_nil_r. Qed.
Lemma grows_trans pl1 pl2 pl3 : grows pl1 pl2 -> grows pl2 pl3 -> grows pl1 pl3.
Proof. intros [p Hp] [q Hq]. exists (p ++ q). by rewrite Hq, Hp, app_assoc. Qed.

Lemma flat_reads_grow {X} (attempt : bytes -> option (X * bytes)) buf s r buf' s' :
  (forall b x b', attempt b = Some (x, b') -> b' = b) ->
  flat_reads attempt buf s r buf' s' -> exists polled, buf' = buf ++ polled.
Proof.
  intros Hat. induction 1 as [buf s x buf' Ha|buf s d s1 r buf' s' Ha Hp Hfr [p IH]| | |];
    try (exists []; by rewrite app_nil_r).
  - exists []. by rewrite app_nil_r, (Hat _ _ _ Ha).
  - exists (d ++ p). by rewrite IH, app_assoc.
Qed.

Lemma copy_total size pl :
  ph_wf pl -> 0 < size ->
  exists r pl', copy size pl = Ret (r, pl') /\ ph_wf pl' /\ grows pl pl' /\
    (forall buf, r = Ready (Some buf) -> lenZ buf = size).
Proof.
  intros Hwf Hsz.
  destruct (reader_refines_of_attempt _ _ (copy_refines size Hsz) pl Hwf)
    as (r & pl' & Hr & Hwf' & Hfr).
  exists r, pl'. split_and!; [exact Hr|done| |].
  - eapply flat_reads_grow, Hfr. intros b x b' Ha. unfold flat_copy in Ha. by case_match; simplify_eq.
  - intros buf ->. clear -Hfr Hsz. remember (Ready (Some buf)) as r eqn:Hr.
    induction Hfr as [b s x b' Ha| | | |]; simplify_eq; auto.
    unfold flat_copy in Ha. destruct (Z.leb_spec size (lenZ b)); simplify_eq.
    apply lenZ_takeZ. lia.
Qed.

Lemma can_read_total size pl :
  ph_wf pl ->
  exists r pl', can_read size pl = Ret (r, pl') /\ ph_wf pl' /\ grows pl pl' /\
    (forall b, r = Ready (Some b) -> size <= lenZ (content pl')).
Proof.
  intros Hwf.
  destruct (reader_refines_of_attempt _ _ (can_read_refines size) pl Hwf)
    as (r & pl' & Hr & Hwf' & Hfr).
  exists r, pl'. split_and!; [exact Hr|done| |].
  - eapply flat_reads_grow, Hfr. intros b x b' Ha. unfold flat_can_read in Ha.
    by case_match; simplify_eq.
  - intros v ->. clear -Hfr. remember (Ready (Some v)) as r eqn:Hr.
    induction Hfr as [b s x b' Ha| | | |]; simplify_eq; auto.
    unfold flat_can_read in Ha. destruct (Z.leb_spec size (lenZ b)); by simplify_eq.
Qed.

Lemma get_chunk_total pl :
  ph_wf pl ->
  exists r pl', get_chunk pl = (r, pl') /\ ph_wf pl' /\ grows pl pl'.
Proof.
  intros Hwf. unfold get_chunk. destruct (ph_items pl) as [|c items] eqn:Hi.
  - destruct (poll_stream pl) as [r pl1] eqn:Hp.
    pose proof (poll_stream_wf _ _ _ Hwf Hp) as Hwf1.
    assert (grows pl pl1) as Hg.
    { unfold poll_stream in Hp. unfold grows, content.
      destruct (stream_poll (ph_stream pl)) as [[[d|]| |e] s]; simplify_eq/=;
        rewrite ?Hi; try (by exists []). exists d. simpl. by rewrite app_nil_r. }
    destruct r as [[]| |]; [destruct (ph_items pl1)|..]; eauto 10.
  - eexists _, _. split; [done|]. split; [done|]. apply grows_refl.
Qed.

(** ** Properties *)

(** Exact reads do not depend on how the stream cuts the bytes: for every
    stream and every queue of chunks, [read_exact], [copy] and [can_read] answer
    what a reader over the concatenated bytes answers, [drop_payload] removes
    exactly the requested prefix, none of them panics or loops, and the byte
    count stays right. *)
Theorem helper_reads_refine_flat (size : Z) :
  0 < size ->
  reader_refines (read_exact size) (flat_exact size) /\
  reader_refines (copy size) (flat_copy size) /\
  reader_refines (can_read size) (flat_can_read size) /\
  forall pl, ph_wf pl ->
    exists pl', drop_payload size pl = Ret pl' /\ ph_wf pl' /\
      ph_stream pl' = ph_stream pl /\
      content pl' = if size <=? lenZ (content pl) then dropZ size (content pl) else content pl.
Proof.
  intros Hsz. split_and!.
  - by apply reader_refines_of_attempt, read_exact_ready_refines.
  - by apply reader_refines_of_attempt, copy_refines.
  - apply reader_refines_of_attempt, can_read_refines.
  - intros pl Hwf. apply drop_payload_ok; [done|lia].
Qed.

(** [read_until] refines the flat matcher for every stream and chunking; what
    it returns ends with the delimiter, and for a one-byte delimiter (as in
    [readline]) the delimiter occurs nowhere else in it. *)
Theorem read_until_refines_flat (line : bytes) :
  line <> [] ->
  reader_refines (read_until line) (flat_until line) /\
  forall buf l rest, flat_until line buf = Some (l, rest) ->
    buf = l ++ rest /\ (exists pre, l = pre ++ line) /\
    (forall c, line = [c] -> exists pre, l = pre ++ [c] /\ c ∉ pre).
Proof.
  intros Hline. split; [by apply reader_refines_of_attempt, read_until_ready_refines|].
  intros buf l rest Hf. unfold flat_until in Hf.
  apply bind_Some in Hf as (n & Hn & Hf). simplify_eq.
  split; [by rewrite take_drop|]. split.
  - destruct (find_end_sound line 0 buf n) as (pre & [Hp|Hp]);
      [destruct line; [done|simpl; lia]|done|..]; eauto.
  - intros c ->. apply find_end_byte in Hn as (pre & post & -> & -> & Hni).
    exists pre. split; [|done]. rewrite cons_middle, app_assoc, take_app_le by
      (rewrite length_app; simpl; lia). apply take_ge. rewrite length_app; simpl; lia.
Qed.

End Operations.

Definition two_chunks : script := [Ready (Some (b#"ab")); Ready (Some (b#"cde")); Ready None].

Lemma helper_reads_refine_flat_witness :
  exists pl', read_exact 4 (PayloadHelper_new two_chunks) =
                Ret (Ready (Some (b#"abcd")), pl') /\ content pl' = b#"e".
Proof.
  destruct (proj1 (helper_reads_refine_flat (S := script) 4 ltac:(lia))
              (PayloadHelper_new two_chunks) eq_refl) as (r & pl' & Hr & _ & _).
  vm_compute in Hr. simplify_eq. eexists. split; [vm_compute; reflexivity|reflexivity].
Defined.

Lemma read_until_refines_flat_witness :
  reader_refines (S := script) (read_until [10]) (flat_until [10]) /\
  exists pl', readline (PayloadHelper_new [Ready (Some (b#"ab")); Ready (Some [99; 10; 120])]) =
                Ret (Ready (Some [97; 98; 99; 10]), pl').
Proof.
  split; [exact (proj1 (read_until_refines_flat (S := script) [10] ltac:(discriminate)))|].
  eexists. vm_compute. reflexivity.
Defined.

(** The matcher of [read_until] restarts behind the byte that broke a partial
    match, so it can miss a delimiter that is there: in ["\r\r\n\r\n"] it does not
    find ["\r\n\r\n"], and reads on to the end of the stream. *)
Theorem read_until_misses_delimiter :
  let data := [13; 13; 10; 13; 10] in
  let line := [13; 10; 13; 10] in
  (exists pre, data = pre ++ line) /\
  read_until line (PayloadHelper_new [Ready (Some data); Ready None]) =
    Ret (Ready None, mkPH 5 [data] []).
Proof. split; [by exists [13]|vm_compute; reflexivity]. Qed.

(** [read_exact 0] on an empty queue pops a chunk that is not there; the callers
    only ask for a positive number of bytes. *)
Example read_exact_zero_panics :
  read_exact 0 (PayloadHelper_new ([] : script)) = Panic.
Proof. reflexivity. Qed.
