(* ===== verification/PayloadReads.v ===== *)
(** * More on buffered reads (src/src/payload.rs, [PayloadHelper])

    What the clients of [PayloadHelper] that read lines and put data back rely on:
    reads over the bytes that are still to come ([pending]), and a measure of the
    work left in a reader that every read keeps or lowers, for streams that hold
    finitely many bytes. *)
From S2P Require Import Prelude Errors Payload PayloadHelper.
Open Scope Z_scope.

(** ** Streams with finitely many bytes *)

(** [stream_total] bounds the bytes a stream can still deliver; neither it nor
    [stream_avail] grows, whatever the stream answers. *)
Class FiniteStream (S : Type) `{Stream S} := {
  stream_total : S -> nat;
  stream_total_data s d s' :
    stream_poll s = (Ready (Some d), s') -> (stream_total s' + length d <= stream_total s)%nat;
  stream_total_other s r s' :
    stream_poll s = (r, s') -> (stream_total s' <= stream_total s)%nat;
  stream_avail_other s r s' :
    stream_poll s = (r, s') -> (stream_avail s' <= stream_avail s)%nat;
}.

Definition answer_bytes (r : poll (option bytes) PayloadError) : nat :=
  match r with Ready (Some d) => length d | _ => 0 end.

#[export] Program Instance script_finite : FiniteStream script := {|
  stream_total := fun s => sum_list (map answer_bytes s);
|}.
Next Obligation. intros [|r s] d s' H; simplify_eq/=; lia. Qed.
Next Obligation. intros [|r s] r' s' H; simplify_eq/=; lia. Qed.
Next Obligation. intros [|r s] r' s' H; simplify_eq/=; lia. Qed.

Lemma Inner_readany_items t s r s' w :
  Inner_readany t s = (r, s', w) ->
  match r with
  | Ready (Some d) => in_items s = d :: in_items s'
  | _ => in_items s' = in_items s
  end.
Proof.
  unfold Inner_readany. intros Hr.
  destruct (in_items s) as [|c items] eqn:Hi; simpl in *.
  - destruct (in_err s), (in_eof s); simplify_eq/=; auto.
  - by simplify_eq/=.
Qed.

#[export] Program Instance payload_finite : FiniteStream payload_rx := {|
  stream_total := fun p => length (concat (in_items (rx_cell p)));
|}.
Next Obligation.
  intros [t s w] d s' H; simpl in *.
  destruct (Inner_readany t s) as [[r s1] w1] eqn:Hr. simplify_eq/=.
  rewrite (Inner_readany_items _ _ _ _ _ Hr). simpl. rewrite length_app. lia.
Qed.
Next Obligation.
  intros [t s w] r s' H; simpl in *.
  destruct (Inner_readany t s) as [[r1 s1] w1] eqn:Hr. simplify_eq/=.
  apply Inner_readany_items in Hr.
  destruct r as [[d|]| |e]; rewrite Hr; simpl; rewrite ?length_app; lia.
Qed.
Next Obligation.
  intros [t s w] r s' H; simpl in *.
  destruct (Inner_readany t s) as [[r1 s1] w1] eqn:Hr. simplify_eq/=.
  apply Inner_readany_items in Hr. destruct r as [[d|]| |e]; rewrite Hr; simpl; lia.
Qed.

Section Reads.
Context {S : Type} `{Stream S}.
Implicit Types pl : PayloadHelper S.

(** ** Reads of the bytes to come *)

Lemma unread_data_wf data pl : ph_wf pl -> ph_wf (unread_data data pl).
Proof. unfold ph_wf, content; simpl. intros ->. lenZ_lia. Qed.
Lemma unread_data_content data pl : content (unread_data data pl) = data ++ content pl.
Proof. done. Qed.
Lemma unread_data_pending data pl : pending (unread_data data pl) = data ++ pending pl.
Proof. unfold pending. simpl. by rewrite app_assoc. Qed.

(** A delimiter that was found is found again when more bytes follow. *)
Lemma find_end_app line idx buf more n :
  find_end line idx buf = Some n -> find_end line idx (buf ++ more) = Some n.
Proof.
  revert idx n. induction buf as [|ch buf IH]; intros idx n Hf; simpl in *; [done|].
  case_bool_decide; [case_decide; [done|]|];
    apply fmap_Some in Hf as (m & Hf & ->); by rewrite (IH _ _ Hf).
Qed.

Lemma find_end_len line idx buf n : find_end line idx buf = Some n -> (0 < n <= length buf)%nat.
Proof.
  revert idx n. induction buf as [|ch buf IH]; intros idx n Hf; simpl in *; [done|].
  case_bool_decide; [case_decide; [simplify_eq; lia|]|];
    apply fmap_Some in Hf as (m & Hf & ->); apply IH in Hf; lia.
Qed.

Lemma flat_until_pending line n buf s r buf' s' :
  flat_reads (flat_until line) buf s r buf' s' ->
  find_end line 0 (buf ++ deliverable s) = Some n ->
  r = Ready (Some (take n (buf ++ deliverable s))) /\
  buf' ++ deliverable s' = drop n (buf ++ deliverable s).
Proof.
  induction 1 as [buf s x buf' Ha|buf s d s1 r buf' s' Ha Hp Hfr IH|buf s s1 Ha Hp|buf s s1 Ha Hp
    |buf s e s1 Ha Hp]; intros Hf; unfold flat_until in Ha.
  - destruct (find_end line 0 buf) as [m|] eqn:Hm; simplify_eq/=.
    rewrite (find_end_app _ _ _ _ _ Hm) in Hf. simplify_eq.
    apply find_end_len in Hm. by rewrite take_app_le, drop_app_le by lia.
  - rewrite (deliverable_data _ _ _ Hp), app_assoc in *. auto.
  - rewrite (deliverable_none _ _ _ Hp), app_nil_r in Hf by done. by rewrite Hf in Ha.
  - rewrite (deliverable_none _ _ _ Hp), app_nil_r in Hf by done. by rewrite Hf in Ha.
  - rewrite (deliverable_none _ _ _ Hp), app_nil_r in Hf by done. by rewrite Hf in Ha.
Qed.

Lemma read_until_pending line pl n :
  ph_wf pl -> line <> [] -> find_end line 0 (pending pl) = Some n ->
  exists pl', read_until line pl = Ret (Ready (Some (take n (pending pl))), pl') /\
    ph_wf pl' /\ pending pl' = drop n (pending pl).
Proof.
  intros Hwf Hl Hf.
  destruct (reader_refines_of_attempt _ _ (read_until_ready_refines line Hl) pl Hwf)
    as (r & pl' & Hr & Hwf' & Hfr).
  destruct (flat_until_pending _ _ _ _ _ _ _ Hfr Hf) as [-> Hp]. by exists pl'.
Qed.

(** A one-byte delimiter behind [pre], which does not contain it. *)
Lemma read_byte_pending c pre rest pl :
  ph_wf pl -> c ∉ pre -> pending pl = pre ++ c :: rest ->
  exists pl', read_until [c] pl = Ret (Ready (Some (pre ++ [c])), pl') /\
    ph_wf pl' /\ pending pl' = rest.
Proof.
  intros Hwf Hc Hp.
  assert (find_end [c] 0 (pending pl) = Some (Datatypes.S (length pre))) as Hf.
  { apply find_end_byte. eauto. }
  destruct (read_until_pending [c] pl _ Hwf ltac:(done) Hf) as (pl' & Hr & Hwf' & Hp').
  exists pl'. rewrite cons_middle, app_assoc in Hp. rewrite Hp in Hr, Hp'.
  rewrite take_app_length' in Hr by (rewrite length_app; simpl; lia).
  rewrite drop_app_length' in Hp' by (rewrite length_app; simpl; lia). done.
Qed.

Lemma readline_pending pre rest pl :
  ph_wf pl -> 10 ∉ pre -> pending pl = pre ++ 10 :: rest ->
  exists pl', readline pl = Ret (Ready (Some (pre ++ [10])), pl') /\
    ph_wf pl' /\ pending pl' = rest.
Proof. apply read_byte_pending. Qed.

(** What [readany] answers, by the first queued or delivered chunk. *)
Lemma readany_spec pl :
  ph_wf pl ->
  exists r pl', readany pl = Ret (r, pl') /\ ph_wf pl' /\
    match r with
    | Ready (Some d) => pending pl = d ++ pending pl'
    | _ => content pl = [] /\ ph_items pl' = [] /\ deliverable (ph_stream pl) = []
    end.
Proof.
  intros Hwf. unfold readany, poll_fuel, ph_wf, pending, content in *.
  destruct pl as [len [|c items] s]; simpl in *.
  - unfold poll_stream; simpl. destruct (stream_poll s) as [[[d|]| |e] s'] eqn:Hp; simpl.
    + assert (0 < stream_avail s)%nat as Ha by (apply stream_progress in Hp; lia).
      destruct (stream_avail s) as [|n]; [lia|]. simpl.
      rewrite usize_sub_ok by lenZ_lia. simpl. eexists _, _. split; [done|].
      simpl. split; [lenZ_lia|]. by apply deliverable_data.
    + eexists _, _. split; [done|]. simpl. split_and!; [done..|]. by eapply deliverable_none.
    + eexists _, _. split; [done|]. simpl. split_and!; [done..|]. by eapply deliverable_none.
    + eexists _, _. split; [done|]. simpl. split_and!; [done..|]. by eapply deliverable_none.
  - rewrite usize_sub_ok by lenZ_lia. simpl. eexists _, _. split; [done|]. simpl.
    split; [lenZ_lia|]. by rewrite <-app_assoc.
Qed.

(** ** The measure *)

Context `{!FiniteStream S}.

Definition empties (items : list bytes) : nat := length (filter (fun c => c = []) items).
Definition work pl : nat :=
  (2 * (length (content pl) + stream_total (ph_stream pl)) + empties (ph_items pl)
   + stream_avail (ph_stream pl))%nat.

Lemma empties_app a b : empties (a ++ b) = (empties a + empties b)%nat.
Proof. unfold empties. by rewrite filter_app, length_app. Qed.
Lemma empties_cons c items :
  empties (c :: items) = ((if decide (c = []) then 1 else 0) + empties items)%nat.
Proof. unfold empties. rewrite filter_cons. by case_decide. Qed.
Lemma empties_cons_le c items : (empties items <= empties (c :: items))%nat.
Proof. rewrite empties_cons. lia. Qed.

Lemma unread_data_work data pl :
  data <> [] -> work (unread_data data pl) = (2 * length data + work pl)%nat.
Proof.
  intros Hd. unfold work. rewrite unread_data_content. simpl.
  rewrite empties_cons, decide_False by done. rewrite length_app. lia.
Qed.

Lemma poll_stream_work pl r pl' : poll_stream pl = (r, pl') -> (work pl' <= work pl)%nat.
Proof.
  unfold poll_stream, work, content. destruct pl as [len items s]; simpl.
  destruct (stream_poll s) as [[[d|]| |e] s'] eqn:Hp; intros; simplify_eq/=;
    try (apply stream_total_other in Hp as ?; apply stream_avail_other in Hp; lia).
  apply stream_total_data in Hp as Ht. apply stream_progress in Hp.
  rewrite concat_app, length_app, empties_app, empties_cons. simpl. rewrite app_nil_r.
  case_decide; simpl; unfold empties at 2; simpl; lia.
Qed.

(** A reader that shortens the queue by [cost] keeps doing so behind polls. *)
Lemma poll_loop_work {X} fuel (attempt : PayloadHelper S -> option (run (X * PayloadHelper S)))
    (cost : X -> nat) pl r pl' :
  (forall p x p', attempt p = Some (Ret (x, p')) -> (work p' + cost x <= work p)%nat) ->
  poll_loop fuel attempt pl = Ret (r, pl') ->
  (work pl' + match r with Ready (Some x) => cost x | _ => 0 end <= work pl)%nat.
Proof.
  intros Hat. revert pl. induction fuel as [|fuel IH]; intros pl Hr; simpl in Hr;
    destruct (attempt pl) as [[[x p']| |]|] eqn:Ha; simplify_eq/=; eauto.
  destruct (poll_stream pl) as [[[]| |e] p1] eqn:Hp; apply poll_stream_work in Hp; simplify_eq/=;
    try lia. apply IH in Hr. lia.
Qed.

Lemma readany_work pl r pl' :
  readany pl = Ret (r, pl') ->
  (work pl' + match r with Ready (Some d) => Nat.max 1 (2 * length d) | _ => 0 end
   <= work pl)%nat.
Proof.
  apply poll_loop_work. intros p x p' Ha.
  destruct p as [len [|c items] s]; simpl in *; [done|].
  destruct (usize_sub len (lenZ c)); simplify_eq/=.
  unfold work, content; simpl. rewrite empties_cons, length_app.
  case_decide as Hd; [rewrite Hd; simpl|destruct x; simpl in *]; try done; lia.
Qed.

Lemma read_exact_loop_work fuel size buf items buf' items' :
  read_exact_loop fuel size buf items = Ret (buf', items') ->
  (empties items' <= empties items)%nat.
Proof.
  revert buf items. induction fuel as [|fuel IH]; intros buf items Hr; simpl in Hr;
    destruct (_ <? _); simplify_eq; try done.
  destruct items as [|c items]; [done|]. apply IH in Hr.
  etransitivity; [exact Hr|]. case_bool_decide as Hd; [apply empties_cons_le|].
  rewrite !empties_cons. rewrite decide_False by done. lia.
Qed.

(** An attempt that refines a flat one, takes [cost] bytes off the queue and leaves
    no new empty chunk on it. *)
Lemma poll_loop_refines_work {X} fuel attempt (fattempt : bytes -> option (X * bytes))
    (cost : X -> nat) pl r pl' :
  attempt_refines attempt fattempt ->
  (forall buf x buf', fattempt buf = Some (x, buf') -> (length buf' + cost x <= length buf)%nat) ->
  (forall p x p', attempt p = Some (Ret (x, p')) ->
     (empties (ph_items p') <= empties (ph_items p))%nat) ->
  ph_wf pl -> poll_loop fuel attempt pl = Ret (r, pl') ->
  (work pl' + match r with Ready (Some x) => 2 * cost x | _ => 0 end <= work pl)%nat.
Proof.
  intros Hat Hcost Hemp. revert pl. induction fuel as [|fuel IH]; intros pl Hwf Hr; simpl in Hr;
    pose proof (Hat pl Hwf) as Ha; destruct (fattempt (content pl)) as [[x buf']|] eqn:Hf.
  1, 3: destruct Ha as (p1 & Ha & _ & Hc & Hs); rewrite Ha in Hr; simplify_eq/=;
    apply Hcost in Hf; apply Hemp in Ha; unfold work; rewrite Hs; lia.
  all: rewrite Ha in Hr; simplify_eq.
  destruct (poll_stream pl) as [[[]| |e] p1] eqn:Hp; pose proof (poll_stream_wf _ _ _ Hwf Hp);
    apply poll_stream_work in Hp; simplify_eq/=; try lia.
  apply IH in Hr; [|done]. lia.
Qed.

Lemma read_exact_work size pl r pl' :
  0 < size -> ph_wf pl -> read_exact size pl = Ret (r, pl') ->
  (work pl' + match r with Ready (Some _) => 2 * Z.to_nat size | _ => 0 end <= work pl)%nat.
Proof.
  intros Hsz Hwf Hr.
  apply (poll_loop_refines_work _ _ (flat_exact size) (fun _ => Z.to_nat size)) in Hr; auto.
  - by apply read_exact_ready_refines.
  - intros buf x buf' Ha. unfold flat_exact in Ha.
    destruct (Z.leb_spec size (lenZ buf)); simplify_eq/=.
    unfold dropZ, lenZ in *. rewrite length_drop. lia.
  - intros [len items s] x p' Ha. unfold read_exact_ready in Ha. cbn [ph_len ph_items ph_stream] in *.
    destruct (_ <=? len); [|done]. apply (inj Some) in Ha.
    apply run_bind_Ret in Ha as (l & _ & Ha). destruct items as [|c items]; [done|].
    destruct (Z.ltb_spec size (lenZ c)).
    { simplify_eq/=. rewrite !empties_cons, decide_False; [lia|]. intros Hd.
      apply (f_equal lenZ) in Hd. rewrite lenZ_dropZ, lenZ_nil in Hd; lia. }
    destruct (size =? lenZ c); [simplify_eq/=; apply empties_cons_le|].
    apply run_bind_Ret in Ha as ([b i] & Hl & Ha).
    apply read_exact_loop_work in Hl. simplify_eq/=. pose proof (empties_cons_le c items). lia.
Qed.

Lemma pop_chunks_work num buf items buf' items' :
  pop_chunks num buf items = Ret (buf', items') -> (empties items' <= empties items)%nat.
Proof.
  revert buf items. induction num as [|num IH]; intros buf items Hr; simplify_eq/=; [done|].
  destruct items as [|c items]; [done|]. apply IH in Hr. pose proof (empties_cons_le c items). lia.
Qed.

Lemma read_until_work line pl r pl' :
  line <> [] -> ph_wf pl -> read_until line pl = Ret (r, pl') ->
  (work pl' + match r with Ready (Some l) => 2 * length l | _ => 0 end <= work pl)%nat.
Proof.
  intros Hl Hwf Hr.
  apply (poll_loop_refines_work _ _ (flat_until line) length) in Hr; auto.
  - by apply read_until_ready_refines.
  - intros buf x buf' Ha. unfold flat_until in Ha. apply bind_Some in Ha as (n & Hn & Ha).
    simplify_eq. rewrite length_take, length_drop. lia.
  - intros p x p' Ha. unfold read_until_ready in Ha.
    destruct (scan_items _ _ _ _ _) as [[[[num off] len]|]| |]; simplify_eq.
    destruct (pop_chunks _ _ _) as [[b i]| |] eqn:Hp; simplify_eq/=. apply pop_chunks_work in Hp.
    destruct (0 <? off); [destruct i as [|c i]|]; simplify_eq/=;
      destruct (usize_sub _ _); simplify_eq/=; [|done].
    pose proof (empties_cons_le c i). case_bool_decide as Hd; [lia|].
    rewrite empties_cons, decide_False in * by done. lia.
Qed.

(** ** Totality of the reads *)

Lemma readany_total pl :
  ph_wf pl ->
  exists r pl', readany pl = Ret (r, pl') /\ ph_wf pl' /\
    (work pl' + match r with Ready (Some d) => Nat.max 1 (2 * length d) | _ => 0 end
     <= work pl)%nat.
Proof.
  intros Hwf. destruct (readany_spec pl Hwf) as (r & pl' & Hr & Hwf' & _).
  exists r, pl'. split_and!; [done..|]. by apply readany_work.
Qed.

Lemma read_exact_total size pl :
  0 < size -> ph_wf pl ->
  exists r pl', read_exact size pl = Ret (r, pl') /\ ph_wf pl' /\
    match r with
    | Ready (Some d) => lenZ d = size /\ (work pl' + 2 * length d <= work pl)%nat
    | _ => (work pl' <= work pl)%nat
    end.
Proof.
  intros Hsz Hwf.
  destruct (reader_refines_of_attempt _ _ (read_exact_ready_refines size Hsz) pl Hwf)
    as (r & pl' & Hr & Hwf' & Hfr).
  exists r, pl'. split_and!; [exact Hr|done|].
  apply read_exact_work in Hr; [|done..].
  destruct r as [[d|]| |e]; try lia.
  assert (lenZ d = size) as Hd; [|split; [done|unfold lenZ in *; lia]].
  clear -Hfr Hsz. remember (Ready (Some d)) as r eqn:Hr.
  induction Hfr as [b s x b' Ha| | | |]; simplify_eq; auto.
  unfold flat_exact in Ha. destruct (Z.leb_spec size (lenZ b)); simplify_eq.
  apply lenZ_takeZ. lia.
Qed.

Lemma read_until_total line pl :
  line <> [] -> ph_wf pl ->
  exists r pl', read_until line pl = Ret (r, pl') /\ ph_wf pl' /\
    match r with
    | Ready (Some l) => (exists pre, l = pre ++ line) /\ (work pl' + 2 * length l <= work pl)%nat
    | _ => (work pl' <= work pl)%nat
    end.
Proof.
  intros Hl Hwf.
  destruct (reader_refines_of_attempt _ _ (read_until_ready_refines line Hl) pl Hwf)
    as (r & pl' & Hr & Hwf' & Hfr).
  exists r, pl'. split_and!; [exact Hr|done|].
  apply read_until_work in Hr; [|done..].
  destruct r as [[d|]| |e]; try lia. split; [|done].
  clear -Hfr Hl. remember (Ready (Some d)) as r eqn:Hr.
  induction Hfr as [b s x b' Ha| | | |]; simplify_eq; auto.
  apply bind_Some in Ha as (n & Hn & Ha). simplify_eq.
  destruct (find_end_sound line 0 b n) as (pre & [Hp|Hp]);
    [destruct line; [done|simpl; lia]|done|..]; eauto.
Qed.

End Reads.
