(* ===== verification/Multipart.v ===== *)
(** * Multipart bodies (src/src/multipart.rs)

    A [Multipart] reads the parts of a body from a [PayloadHelper] that it shares
    with the [Field]s and nested [Multipart]s it hands out; the counter of [Safety]
    gives access to the payload to the handle that was created last.  The cells
    behind [Rc<RefCell<_>>] live in a store ([World]), because the parent and the
    handle of a part refer to the same cell. *)
From S2P Require Import Prelude StrLib Errors Http Response Payload PayloadHelper PayloadReads.
Open Scope Z_scope.

(** ** External crates *)

(** [httparse::parse_headers] with room for [MAX_HEADERS] headers: the names and
    values of a complete block, [None] for a partial one. *)
Definition MAX_HEADERS : Z := 32.
Class HeaderBlocks := {
  parse_headers : Z -> bytes -> result (option (list (bytes * bytes))) HttparseError;
}.

(** The [mime] crate. *)
Class MimeCrate (Mime : Type) := {
  mime_parse : bytes -> option Mime;
  mime_type_ : Mime -> bytes;
  mime_boundary : Mime -> option bytes;
  APPLICATION_OCTET_STREAM : Mime;
  octet_stream_type : mime_type_ APPLICATION_OCTET_STREAM = b#"application";
}.
Definition MULTIPART : bytes := b#"multipart".

Definition CRLF : bytes := [13; 10].
Definition DASHES : bytes := [45; 45].

(** [&chunk[a..b]]; a range that is out of order or out of bounds panics. *)
Definition slice (a b : Z) (chunk : bytes) : run bytes :=
  if (0 <=? a) && (a <=? b) && (b <=? lenZ chunk) then Ret (takeZ (b - a) (dropZ a chunk))
  else Panic.

(** [&chunk[a..b] == text]. *)
Definition slice_is (a b : Z) (chunk text : bytes) : run bool :=
  s ← slice a b chunk; Ret (bool_decide (s = text)).

(** [a && b] where [b] may panic. *)
Definition and_then (a : run bool) (b : run bool) : run bool :=
  x ← a; if (x : bool) then b else Ret false.

Inductive InnerState : Type := Eof | FirstBoundary | Boundary | Headers.
#[export] Instance InnerState_eq_dec : EqDecision InnerState.
Proof. solve_decision. Defined.

Section Parts.
Context {S : Type} `{Stm : Stream S} {H : Type} `{HeaderMap H} `{HeaderConv} `{HeaderBlocks}.
Context {Mime : Type} `{MimeCrate Mime}.
Notation PH := (PayloadHelper S).

(** [Multipart::boundary]. *)
Definition boundary_of (headers : H) : result bytes MultipartError :=
  match hm_get CONTENT_TYPE headers with
  | Some content_type =>
      match hv_to_str content_type with
      | Some content_type =>
          match mime_parse content_type with
          | Some ct =>
              match mime_boundary ct with
              | Some boundary => Ok boundary
              | None => Err ME_Boundary
              end
          | None => Err ME_ParseContentType
          end
      | None => Err ME_ParseContentType
      end
  | None => Err ME_NoContentType
  end.

(** ** Reading the structure of the body *)

(** [for h in hdrs] of [read_headers]. *)
Fixpoint convert_headers (hdrs : list (bytes * bytes)) (headers : H) : result H MultipartError :=
  match hdrs with
  | [] => Ok headers
  | (name, value) :: hdrs =>
      match hn_try_from name with
      | Some name =>
          match hv_try_from value with
          | Some value => convert_headers hdrs (hm_append name value headers)
          | None => Err (MultipartError_from_parse ParseE_Header)
          end
      | None => Err (MultipartError_from_parse ParseE_Header)
      end
  end.

Definition read_headers (payload : PH) : run (poll H MultipartError * PH) :=
  '(r, payload) ← read_until [13; 10; 13; 10] payload;
  match r with
  | PErr e => Ret (PErr (MultipartError_from_payload e), payload)
  | NotReady => Ret (NotReady, payload)
  | Ready None => Ret (PErr ME_Incomplete, payload)
  | Ready (Some bytes) =>
      match parse_headers MAX_HEADERS bytes with
      | Ok (Some hdrs) =>
          match convert_headers hdrs hm_empty with
          | Ok headers => Ret (Ready headers, payload)
          | Err e => Ret (PErr e, payload)
          end
      | Ok None => Ret (PErr (MultipartError_from_parse ParseE_Header), payload)
      | Err err => Ret (PErr (MultipartError_from_parse (ParseError_from_httparse err)), payload)
      end
  end.

(** The tests of [read_boundary] on a line: [Some eof], or [None] for an error. *)
Definition boundary_line (boundary chunk : bytes) : run (option bool) :=
  let n := lenZ boundary in
  next ← (if lenZ chunk =? n + 4
          then and_then (slice_is 0 2 chunk DASHES) (slice_is 2 (n + 2) chunk boundary)
          else Ret false);
  if (next : bool) then Ret (Some false) else
  last ← (if lenZ chunk =? n + 6
          then and_then (slice_is 0 2 chunk DASHES)
                 (and_then (slice_is 2 (n + 2) chunk boundary)
                    (slice_is (n + 2) (n + 4) chunk DASHES))
          else Ret false);
  Ret (if (last : bool) then Some true else None).

Definition read_boundary (payload : PH) (boundary : bytes) : run (poll bool MultipartError * PH) :=
  '(r, payload) ← readline payload;
  match r with
  | PErr e => Ret (PErr (MultipartError_from_payload e), payload)
  | NotReady => Ret (NotReady, payload)
  | Ready None => Ret (PErr ME_Incomplete, payload)
  | Ready (Some chunk) =>
      o ← boundary_line boundary chunk;
      match o with
      | Some eof => Ret (Ready eof, payload)
      | None => Ret (PErr ME_Boundary, payload)
      end
  end.

(** The tests of [skip_until_boundary] on a line: [Some eof] to stop, [None] to go
    on with the next line. *)
Definition skip_line (boundary chunk : bytes) : run (option bool) :=
  let n := lenZ boundary in
  if lenZ chunk <? n then Ret None else
  first ← and_then (slice_is 0 2 chunk DASHES) (slice_is 2 (lenZ chunk - 2) chunk boundary);
  if (first : bool) then Ret (Some false) else
  if lenZ chunk <? n + 2 then Ret None else
  last ← and_then (slice_is 0 n chunk boundary) (slice_is n (n + 2) chunk DASHES);
  Ret (if (last : bool) then Some true else None).

Fixpoint skip_loop (fuel : nat) (payload : PH) (boundary : bytes)
  : run (poll bool MultipartError * PH) :=
  match fuel with
  | O => Timeout
  | Datatypes.S fuel =>
      '(r, payload) ← readline payload;
      match r with
      | PErr e => Ret (PErr (MultipartError_from_payload e), payload)
      | NotReady => Ret (NotReady, payload)
      | Ready None => Ret (PErr ME_Incomplete, payload)
      | Ready (Some chunk) =>
          o ← skip_line boundary chunk;
          match o with
          | Some eof => Ret (Ready eof, payload)
          | None => skip_loop fuel payload boundary
          end
      end
  end.

(** Every turn takes a line from the bytes at hand. *)
Context `{!FiniteStream S}.
Definition skip_until_boundary (payload : PH) (boundary : bytes)
  : run (poll bool MultipartError * PH) :=
  skip_loop (Datatypes.S (work payload)) payload boundary.

(** ** Fields *)

Record InnerField : Type := mkInnerField {
  if_payload : bool;
  if_boundary : bytes;
  if_eof : bool;
  if_length : option Z;
}.

Definition InnerField_new (boundary : bytes) (headers : H) : result InnerField PayloadError :=
  match hm_get CONTENT_LENGTH headers with
  | Some len =>
      match hv_to_str len with
      | Some s =>
          match parse_u64 s with
          | Some len => Ok (mkInnerField true boundary false (Some len))
          | None => Err PE_Incomplete
          end
      | None => Err PE_Incomplete
      end
  | None => Ok (mkInnerField true boundary false None)
  end.

Definition read_len (payload : PH) (size : Z)
  : run (poll (option bytes) MultipartError * Z * PH) :=
  if size =? 0 then Ret (Ready None, size, payload) else
  '(r, payload) ← readany payload;
  match r with
  | NotReady => Ret (NotReady, size, payload)
  | Ready None => Ret (PErr ME_Incomplete, size, payload)
  | Ready (Some chunk) =>
      let len := Z.min (lenZ chunk) size in
      let ch := takeZ len chunk in
      let chunk := dropZ len chunk in
      Ret (Ready (Some ch), size - len,
           if bool_decide (chunk = []) then payload else unread_data chunk payload)
  | PErr e => Ret (PErr (MultipartError_from_payload e), size, payload)
  end.

Definition read_stream (payload : PH) (boundary : bytes)
  : run (poll (option bytes) MultipartError * PH) :=
  '(r, payload) ← read_until [13] payload;
  match r with
  | PErr e => Ret (PErr (MultipartError_from_payload e), payload)
  | NotReady => Ret (NotReady, payload)
  | Ready None => Ret (PErr ME_Incomplete, payload)
  | Ready (Some chunk) =>
      if lenZ chunk =? 1 then
        let payload := unread_data chunk payload in
        '(r, payload) ← read_exact (lenZ boundary + 4) payload;
        match r with
        | PErr e => Ret (PErr (MultipartError_from_payload e), payload)
        | NotReady => Ret (NotReady, payload)
        | Ready None => Ret (PErr ME_Incomplete, payload)
        | Ready (Some chunk) =>
            eof ← and_then (slice_is 0 2 chunk CRLF)
                    (and_then (slice_is 2 4 chunk DASHES)
                       (slice_is 4 (lenZ chunk) chunk boundary));
            if (eof : bool) then Ret (Ready None, unread_data chunk payload)
            else Ret (Ready (Some chunk), payload)
        end
      else
        to ← usize_sub (lenZ chunk) 1;
        Ret (Ready (Some (takeZ to chunk)), unread_data (dropZ to chunk) payload)
  end.

(** [InnerField::poll]; [current] is what [PayloadRef::get_mut] asks of the
    [Safety] of the caller. *)
Definition InnerField_poll (current : bool) (f : InnerField) (payload : PH)
  : run (poll (option bytes) MultipartError * InnerField * PH) :=
  if negb (if_payload f) then Ret (Ready None, f, payload)
  else if negb current then Ret (NotReady, f, payload) else
  '(res, f, payload) ←
    match if_length f with
    | Some len =>
        '(r, len, payload) ← read_len payload len;
        Ret (r, mkInnerField (if_payload f) (if_boundary f) (if_eof f) (Some len), payload)
    | None =>
        '(r, payload) ← read_stream payload (if_boundary f);
        Ret (r, f, payload)
    end;
  match res with
  | PErr e => Ret (PErr e, f, payload)
  | NotReady => Ret (NotReady, f, payload)
  | Ready (Some bytes) => Ret (Ready (Some bytes), f, payload)
  | Ready None =>
      let f := mkInnerField (if_payload f) (if_boundary f) true (if_length f) in
      '(r, payload) ← readline payload;
      match r with
      | PErr e => Ret (PErr (MultipartError_from_payload e), f, payload)
      | NotReady => Ret (NotReady, f, payload)
      | Ready _ =>
          Ret (Ready None, mkInnerField false (if_boundary f) (if_eof f) (if_length f), payload)
      end
  end.

(** ** The shared store *)

Inductive InnerMultipartItem : Type :=
| Item_None
| Item_Field (loc : nat)
| Item_Multipart (loc : nat).
Record InnerMultipart : Type := mkInnerMultipart {
  im_boundary : bytes;
  im_state : InnerState;
  im_item : InnerMultipartItem;
}.

(** What a reference-counted cell holds. *)
Inductive Cell : Type :=
| FieldCell (f : InnerField)
| MultipartCell (m : InnerMultipart).

(** The payload behind every [PayloadRef], the strong count of the counter that the
    [Safety] values share, and the cells. *)
Record World : Type := mkWorld {
  w_payload : PH;
  w_count : Z;
  w_cells : list Cell;
}.

Definition set_payload (p : PH) (w : World) : World := mkWorld p (w_count w) (w_cells w).
Definition set_cell (loc : nat) (c : Cell) (w : World) : World :=
  mkWorld (w_payload w) (w_count w) (<[loc := c]> (w_cells w)).
Definition alloc_cell (c : Cell) (w : World) : nat * World :=
  (length (w_cells w), mkWorld (w_payload w) (w_count w) (w_cells w ++ [c])).
Definition get_field (loc : nat) (w : World) : run InnerField :=
  match w_cells w !! loc with Some (FieldCell f) => Ret f | _ => Panic end.
Definition get_multipart (loc : nat) (w : World) : run InnerMultipart :=
  match w_cells w !! loc with Some (MultipartCell m) => Ret m | _ => Panic end.

(** [Safety], by its level. *)
Definition safety_current (level : Z) (w : World) : bool := w_count w =? level.
Definition safety_clone (w : World) : Z * World :=
  (w_count w + 1, mkWorld (w_payload w) (w_count w + 1) (w_cells w)).
Definition safety_drop (level : Z) (w : World) : run World :=
  if w_count w =? level then Ret (mkWorld (w_payload w) (w_count w - 1) (w_cells w)) else Panic.

(** ** Handles *)

Record Multipart : Type := mkMultipart {
  mp_safety : Z;
  mp_error : option MultipartError;
  mp_inner : option nat;
}.
Record Field : Type := mkField {
  fd_ct : Mime;
  fd_headers : H;
  fd_inner : nat;
  fd_safety : Z;
}.
Inductive MultipartItem : Type :=
| MI_Field (f : Field)
| MI_Nested (m : Multipart).

Definition item_level (it : MultipartItem) : Z :=
  match it with MI_Field f => fd_safety f | MI_Nested m => mp_safety m end.
(** Dropping a handle drops its [Safety]; the cell stays with the parent. *)
Definition item_drop (it : MultipartItem) (w : World) : run World := safety_drop (item_level it) w.

(** [Multipart::new]. *)
Definition Multipart_new (boundary : result bytes MultipartError) (stream : S)
  : Multipart * World :=
  let pl := PayloadHelper_new stream in
  match boundary with
  | Ok boundary =>
      (mkMultipart 1 None (Some 0%nat),
       mkWorld pl 1 [MultipartCell (mkInnerMultipart boundary FirstBoundary Item_None)])
  | Err err => (mkMultipart 1 (Some err) None, mkWorld pl 1 [])
  end.

(** [InnerField::poll] through its cell. *)
Definition field_cell_poll (loc : nat) (level : Z) (w : World)
  : run (poll (option bytes) MultipartError * World) :=
  f ← get_field loc w;
  '(r, f, payload) ← InnerField_poll (safety_current level w) f (w_payload w);
  Ret (r, set_cell loc (FieldCell f) (set_payload payload w)).

(** [<Field as Stream>::poll]. *)
Definition Field_poll (f : Field) (w : World) : run (poll (option bytes) MultipartError * World) :=
  if safety_current (fd_safety f) w then field_cell_poll (fd_inner f) (fd_safety f) w
  else Ret (NotReady, w).

(** The content type of a part. *)
Definition part_mime (headers : H) : Mime :=
  default APPLICATION_OCTET_STREAM
    (v ← hm_get CONTENT_TYPE headers; s ← hv_to_str v; mime_parse s).

Definition im_set_state (st : InnerState) (m : InnerMultipart) : InnerMultipart :=
  mkInnerMultipart (im_boundary m) st (im_item m).
Definition im_set_item (it : InnerMultipartItem) (m : InnerMultipart) : InnerMultipart :=
  mkInnerMultipart (im_boundary m) (im_state m) it.

(** The headers of the next part: the match on [self.state] and the read behind it.
    [Ready None] is the end of the body. *)
Definition im_headers (m : InnerMultipart) (payload : PH)
  : run (poll (option H) MultipartError * InnerMultipart * PH) :=
  '(r, payload) ←
    match im_state m with
    | FirstBoundary => skip_until_boundary payload (im_boundary m)
    | Boundary => read_boundary payload (im_boundary m)
    | _ => Ret (Ready (bool_decide (im_state m = Eof)), payload)
    end;
  match r with
  | PErr e => Ret (PErr e, m, payload)
  | NotReady => Ret (NotReady, m, payload)
  | Ready true =>
      if bool_decide (im_state m = Eof) then Panic
      else Ret (Ready None, im_set_state Eof m, payload)
  | Ready false =>
      let m := im_set_state Headers m in
      '(r, payload) ← read_headers payload;
      match r with
      | PErr e => Ret (PErr e, m, payload)
      | NotReady => Ret (NotReady, m, payload)
      | Ready headers => Ret (Ready (Some headers), im_set_state Boundary m, payload)
      end
  end.

(** The rest of [InnerMultipart::poll], once the previous part is released. *)
Definition im_next (loc : nat) (level : Z) (w : World)
  : run (poll (option MultipartItem) MultipartError * World) :=
  m ← get_multipart loc w;
  if negb (safety_current level w) then Ret (NotReady, w) else
  '(r, m, payload) ← im_headers m (w_payload w);
  let w := set_cell loc (MultipartCell m) (set_payload payload w) in
  match r with
  | PErr e => Ret (PErr e, w)
  | NotReady => Ret (NotReady, w)
  | Ready None => Ret (Ready None, w)
  | Ready (Some headers) =>
      let mt := part_mime headers in
      if bool_decide (mime_type_ mt = MULTIPART) then
        match mime_boundary mt with
        | Some boundary =>
            let '(inner, w) :=
              alloc_cell (MultipartCell (mkInnerMultipart boundary FirstBoundary Item_None)) w in
            let w := set_cell loc (MultipartCell (im_set_item (Item_Multipart inner) m)) w in
            let '(l, w) := safety_clone w in
            Ret (Ready (Some (MI_Nested (mkMultipart l None (Some inner)))), w)
        | None => Ret (PErr ME_Boundary, w)
        end
      else
        match InnerField_new (im_boundary m) headers with
        | Ok f =>
            let '(field, w) := alloc_cell (FieldCell f) w in
            let w := set_cell loc (MultipartCell (im_set_item (Item_Field field) m)) w in
            let '(l, w) := safety_clone w in
            Ret (Ready (Some (MI_Field (mkField mt headers field l))), w)
        | Err e => Ret (PErr (MultipartError_from_payload e), w)
        end
  end.

(** [InnerMultipart::poll], and its loop that drains what is left of the previous
    part.  The loop spins when the caller is not the current one. *)
Fixpoint InnerMultipart_poll (fuel : nat) (loc : nat) (level : Z) (w : World)
  : run (poll (option MultipartItem) MultipartError * World) :=
  match fuel with
  | O => Timeout
  | Datatypes.S fuel =>
      m ← get_multipart loc w;
      if bool_decide (im_state m = Eof) then Ret (Ready None, w)
      else release_loop fuel loc level w
  end
with release_loop (fuel : nat) (loc : nat) (level : Z) (w : World)
  : run (poll (option MultipartItem) MultipartError * World) :=
  match fuel with
  | O => Timeout
  | Datatypes.S fuel =>
      if negb (safety_current level w) then release_loop fuel loc level w else
      m ← get_multipart loc w;
      match im_item m with
      | Item_None => im_next loc level w
      | Item_Field f =>
          '(r, w) ← field_cell_poll f level w;
          match r with
          | PErr e => Ret (PErr e, w)
          | NotReady => Ret (NotReady, w)
          | Ready (Some _) => release_loop fuel loc level w
          | Ready None => im_next loc level (set_cell loc (MultipartCell (im_set_item Item_None m)) w)
          end
      | Item_Multipart c =>
          '(r, w) ← InnerMultipart_poll fuel c level w;
          match r with
          | PErr e => Ret (PErr e, w)
          | NotReady => Ret (NotReady, w)
          | Ready (Some it) => w ← item_drop it w; release_loop fuel loc level w
          | Ready None => im_next loc level (set_cell loc (MultipartCell (im_set_item Item_None m)) w)
          end
      end
  end.

(** Enough for every poll: each turn reads something or moves to a later cell. *)
Definition poll_turns (w : World) : nat :=
  (2 * (work (w_payload w) + length (w_cells w)) + 2)%nat.

(** [<Multipart as Stream>::poll]. *)
Definition Multipart_poll (mp : Multipart) (w : World)
  : run (poll (option MultipartItem) MultipartError * Multipart * World) :=
  match mp_error mp with
  | Some err => Ret (PErr err, mkMultipart (mp_safety mp) None (mp_inner mp), w)
  | None =>
      if safety_current (mp_safety mp) w then
        inner ← unwrap (mp_inner mp);
        '(r, w) ← InnerMultipart_poll (poll_turns w) inner (mp_safety mp) w;
        Ret (r, mp, w)
      else Ret (NotReady, mp, w)
  end.

End Parts.

(** ** Concrete crates, for the examples *)

(** A header block by its lines: [name ": " value]; the empty line ends it. *)
Definition header_line (l : bytes) : bytes * bytes :=
  let name := default [] (head (split_on 58 l)) in
  (name, trim (drop (S (length name)) l)).
Definition block_lines (b : bytes) : list bytes :=
  filter (fun l => l <> []) (trim <$> split_on 10 b).
Definition line_blocks : HeaderBlocks := {|
  parse_headers := fun max b =>
    let hs := header_line <$> block_lines b in
    if lenZ hs <=? max then Ok (Some hs) else Err Hp_TooManyHeaders;
|}.

(** A media type by its type and its boundary. *)
Definition mini_mime_parse (s : bytes) : option (bytes * option bytes) :=
  match split_on 47 s with
  | ty :: rest :: _ =>
      Some (ty, match split_on 61 rest with _ :: b :: _ => Some b | _ => None end)
  | _ => None
  end.
Definition mini_mime : MimeCrate (bytes * option bytes).
Proof.
  refine {| mime_parse := mini_mime_parse; mime_type_ := fst; mime_boundary := snd;
            APPLICATION_OCTET_STREAM := (b#"application", None) |}.
  reflexivity.
Defined.

(** One part, announced and delimited by ["--bound"]. *)
Definition demo_body : bytes :=
  b#"--bound" ++ CRLF ++ b#"a: b" ++ CRLF ++ CRLF ++ b#"data" ++ CRLF ++
  b#"--bound--" ++ CRLF.
Definition demo_stream : script := [Ready (Some (take 20 demo_body)); Ready (Some (drop 20 demo_body)); Ready None].
