(* ===== verification/MultipartSafe.v ===== *)
(** * Safety of multipart readers (src/src/multipart.rs)

    Polling a [Multipart] or a [Field] returns, for every stream of finitely many
    bytes: the loops end, and the only panics are the slices of
    [skip_until_boundary] with a boundary of fewer than four bytes.  The counter of
    [Safety] gives access to the shared payload to exactly one live handle. *)
From S2P Require Import Prelude StrLib Errors Http Response Payload PayloadHelper PayloadReads Multipart.
Open Scope Z_scope.

Lemma slice_is_post bad a b chunk text :
  0 <= a <= b -> b <= lenZ chunk -> run_post bad (fun _ => True) (slice_is a b chunk text).
Proof.
  intros. unfold slice_is, slice. rewrite !(proj2 (Z.leb_le _ _)) by lia. done.
Qed.

Lemma and_then_post bad (a b : run bool) :
  run_post bad (fun _ => True) a -> run_post bad (fun _ => True) b ->
  run_post bad (fun _ => True) (and_then a b).
Proof. destruct a as [[]| |]; simpl; auto. Qed.

(** A comparison with a prefix, in the order of evaluation. *)
Lemma and_then_slice_post bad a b chunk text (m : run bool) :
  0 <= a <= b -> b <= lenZ chunk ->
  (takeZ (b - a) (dropZ a chunk) = text -> run_post bad (fun _ => True) m) ->
  run_post bad (fun _ => True) (and_then (slice_is a b chunk text) m).
Proof.
  intros ? ? Hm. unfold slice_is, slice. rewrite !(proj2 (Z.leb_le _ _)) by lia.
  simpl. case_bool_decide; simpl; auto.
Qed.

Lemma bind_assoc_run {A B C} (m : run A) (f : A -> run B) (g : B -> run C) :
  (m ≫= f) ≫= g = m ≫= (fun x => f x ≫= g).
Proof. by destruct m. Qed.

Lemma run_post_true {A} bad (m : run A) (Q : A -> Prop) :
  run_post bad (fun _ => True) m -> (forall a, Q a) -> run_post bad Q m.
Proof. destruct m; simpl; auto. Qed.

Section Safe.
Context {S : Type} `{Stm : Stream S} `{!FiniteStream S}.
Context {H : Type} `{HeaderMap H} `{HeaderConv} `{HeaderBlocks} {Mime : Type} `{MimeCrate Mime}.
Notation PH := (PayloadHelper S).
Notation World := (World (S := S)).

(** ** Reads *)

(** The reader is well formed and at least [cost] of the work is done. *)
Definition reads (cost : nat) (pl pl' : PH) : Prop :=
  ph_wf pl' /\ (work pl' + cost <= work pl)%nat.

Lemma read_until_reads bad {A} line (pl : PH) (Q : A -> Prop) k :
  line <> [] -> ph_wf pl ->
  (forall r pl', reads (match r with Ready (Some l) => 2 * length l | _ => 0 end) pl pl' ->
     (forall l, r = Ready (Some l) -> exists pre, l = pre ++ line) ->
     run_post bad Q (k (r, pl'))) ->
  run_post bad Q (x ← read_until line pl; k x).
Proof.
  intros Hl Hwf Hk. destruct (read_until_total line pl Hl Hwf) as (r & pl' & -> & Hwf' & Hr). simpl.
  apply Hk; [split; [done|]|]; destruct r as [[l|]| |]; try lia; naive_solver.
Qed.

Lemma readline_reads bad {A} (pl : PH) (Q : A -> Prop) k :
  ph_wf pl ->
  (forall r pl', reads (match r with Ready (Some l) => 2 * length l | _ => 0 end) pl pl' ->
     (forall l, r = Ready (Some l) -> exists pre, l = pre ++ [10]) ->
     run_post bad Q (k (r, pl'))) ->
  run_post bad Q (x ← readline pl; k x).
Proof. by apply read_until_reads. Qed.

Lemma read_headers_post bad (pl : PH) :
  ph_wf pl ->
  run_post bad (fun '(r, pl') => reads (match r with Ready _ => 8 | _ => 0 end) pl pl')
    (read_headers (H := H) pl).
Proof.
  intros Hwf. apply read_until_reads; [done..|]. intros r pl' [Hwf' Hw] Hpre.
  destruct r as [[l|]| |e]; try (split; [done|simpl in *; lia]).
  destruct (Hpre l eq_refl) as [pre ->]. rewrite length_app in Hw. simpl in Hw.
  destruct (parse_headers _ _) as [[hdrs|]|e]; [destruct (convert_headers _ _)|..];
    (split; [done|lia]).
Qed.

Lemma boundary_line_post bad boundary chunk :
  run_post bad (fun _ => True) (boundary_line boundary chunk).
Proof.
  unfold boundary_line. pose proof (lenZ_nonneg boundary).
  assert (forall m : run bool, run_post bad (fun _ => True) m ->
    run_post bad (fun _ => True) (x ← m; Ret (if (x : bool) then Some true else None))) as Hlast
    by (by intros [?| |]).
  apply run_post_bind.
  eapply run_post_mono with (P := fun _ => True).
  - destruct (Z.eqb_spec (lenZ chunk) (lenZ boundary + 4)); [|done].
    apply and_then_post; apply slice_is_post; lia.
  - intros [] _; [done|]. apply Hlast.
    destruct (Z.eqb_spec (lenZ chunk) (lenZ boundary + 6)); [|done].
    apply and_then_post; [|apply and_then_post]; apply slice_is_post; lia.
Qed.

Lemma read_boundary_post bad (pl : PH) boundary :
  ph_wf pl -> run_post bad (fun '(_, pl') => reads 0 pl pl') (read_boundary pl boundary).
Proof.
  intros Hwf. apply readline_reads; [done..|]. intros r pl' [Hwf' Hw] _.
  destruct r as [[l|]| |e]; try (split; [done|simpl in *; lia]).
  apply run_post_bind. eapply run_post_mono; [apply boundary_line_post|].
  intros [eof|] _; (split; [done|simpl in *; lia]).
Qed.

(** The line tests of [skip_until_boundary] are within the line for a boundary of
    four bytes or more. *)
Lemma skip_line_post (bad : Prop) boundary chunk :
  (lenZ boundary < 4 -> bad) ->
  run_post bad (fun _ => True) (skip_line boundary chunk).
Proof.
  intros Hb. destruct (Z.ltb_spec (lenZ boundary) 4) as [Hlt|Hge].
  { (* any outcome but an exhausted loop *)
    specialize (Hb Hlt). unfold skip_line, slice_is, slice, and_then.
    repeat (case_match; simplify_eq/=; try done). }
  clear Hb. unfold skip_line. destruct (Z.ltb_spec (lenZ chunk) (lenZ boundary)); [done|].
  apply run_post_bind. eapply run_post_mono with (P := fun _ => True).
  - apply and_then_post; apply slice_is_post; lia.
  - intros [] _; [done|]. destruct (Z.ltb_spec (lenZ chunk) (lenZ boundary + 2)); [done|].
    apply run_post_bind. eapply run_post_mono with (P := fun _ => True); [|done].
    apply and_then_post; apply slice_is_post; lia.
Qed.

Lemma skip_loop_post (bad : Prop) fuel (pl : PH) boundary :
  (lenZ boundary < 4 -> bad) -> ph_wf pl -> (work pl < fuel)%nat ->
  run_post bad (fun '(_, pl') => reads 0 pl pl') (skip_loop fuel pl boundary).
Proof.
  intros Hb. revert pl. induction fuel as [|fuel IH]; intros pl Hwf Hf; [lia|]. simpl.
  apply readline_reads; [done..|]. intros r pl' [Hwf' Hw] Hpre.
  destruct r as [[l|]| |e]; try (split; [done|simpl in *; lia]).
  apply run_post_bind. eapply run_post_mono; [by apply skip_line_post|].
  intros [eof|] _; [split; [done|simpl in *; lia]|].
  destruct (Hpre l eq_refl) as [pre ->]. rewrite length_app in Hw. simpl in Hw.
  eapply run_post_mono; [apply IH; [done|lia]|]. intros [r pl2] [Hwf2 Hw2]. split; [done|lia].
Qed.

Lemma skip_until_boundary_post (bad : Prop) (pl : PH) boundary :
  (lenZ boundary < 4 -> bad) -> ph_wf pl ->
  run_post bad (fun '(_, pl') => reads 0 pl pl') (skip_until_boundary pl boundary).
Proof. intros. apply skip_loop_post; auto. Qed.

Lemma read_len_post bad (pl : PH) size :
  0 <= size -> ph_wf pl ->
  run_post bad (fun '(r, size', pl') =>
      0 <= size' <= size /\ reads (match r with Ready (Some _) => 1 | _ => 0 end) pl pl')
    (read_len pl size).
Proof.
  intros Hs Hwf. unfold read_len.
  destruct (Z.eqb_spec size 0); [split; [lia|split; [done|lia]]|].
  destruct (readany_total pl Hwf) as (r & pl' & -> & Hwf' & Hw). simpl.
  destruct r as [[chunk|]| |e]; try (split; [lia|split; [done|simpl in *; lia]]).
  pose proof (lenZ_nonneg chunk).
  split; [lia|]. split.
  - case_bool_decide; [done|]. by apply unread_data_wf.
  - case_bool_decide as Hd; [simpl; lia|]. rewrite unread_data_work by done.
    unfold dropZ in *. assert (length (drop (Z.to_nat (Z.min (lenZ chunk) size)) chunk)
      < length chunk)%nat; [|lia].
    destruct chunk; [by rewrite drop_nil in Hd|]. rewrite length_drop. unfold lenZ in *. simpl. lia.
Qed.

Lemma read_stream_post bad (pl : PH) boundary :
  ph_wf pl ->
  run_post bad (fun '(r, pl') => reads (match r with Ready (Some _) => 1 | _ => 0 end) pl pl')
    (read_stream pl boundary).
Proof.
  intros Hwf. apply read_until_reads; [done..|]. intros r pl' [Hwf' Hw] Hpre.
  destruct r as [[l|]| |e]; try (split; [done|simpl in *; lia]).
  destruct (Hpre l eq_refl) as [pre ->]. pose proof (lenZ_nonneg pre). pose proof (lenZ_nonneg boundary).
  cbv beta iota zeta. destruct (Z.eqb_spec (lenZ (pre ++ [13])) 1) as [Hl|Hl].
  - destruct (read_exact_total (lenZ boundary + 4) (unread_data (pre ++ [13]) pl'))
      as (r2 & pl2 & -> & Hwf2 & Hr2); [lia|by apply unread_data_wf|]. simpl.
    rewrite unread_data_work in Hr2 by (by destruct pre).
    destruct r2 as [[c|]| |e]; try (split; [done|simpl in *; lia]).
    destruct Hr2 as [Hc Hr2]. apply run_post_bind. eapply run_post_mono with (P := fun _ => True).
    + apply and_then_post; [|apply and_then_post]; apply slice_is_post; lia.
    + assert (0 < length c)%nat by (unfold lenZ in *; lia).
      intros [] _; split; try done; [by apply unread_data_wf| |lia].
      rewrite unread_data_work by (intros ->; simpl in *; lia). lia.
  - rewrite usize_sub_ok by lenZ_lia. simpl.
    assert (dropZ (lenZ (pre ++ [13]) - 1) (pre ++ [13]) = [13]) as ->.
    { rewrite lenZ_app, dropZ_app_r by (rewrite lenZ_cons, lenZ_nil; lia).
      by rewrite lenZ_cons, lenZ_nil, dropZ_0 by lia. }
    assert (0 < length pre)%nat by (unfold lenZ in *; destruct pre; simpl in *; lia).
    split; [by apply unread_data_wf|]. rewrite unread_data_work by done.
    rewrite length_app in Hw. simpl in *. lia.
Qed.

Definition field_ok (f : InnerField) : Prop := forall len, if_length f = Some len -> 0 <= len.

Lemma InnerField_poll_post bad current f (pl : PH) :
  field_ok f -> ph_wf pl ->
  run_post bad (fun '(r, f', pl') =>
      field_ok f' /\ reads (match r with Ready (Some _) => 1 | _ => 0 end) pl pl')
    (InnerField_poll current f pl).
Proof.
  intros Hf Hwf. assert (reads 0 pl pl) as Hrefl by (split; [done|lia]).
  unfold InnerField_poll. destruct (if_payload f); [|done]. destruct current; [|done]. simpl.
  apply run_post_bind. eapply run_post_mono with (P := fun '(r, f', pl') =>
      field_ok f' /\ reads (match r with Ready (Some _) => 1 | _ => 0 end) pl pl').
  - destruct (if_length f) as [len|] eqn:Hl; apply run_post_bind.
    + eapply run_post_mono; [apply (read_len_post bad pl len); [by apply Hf|done]|].
      intros [[r len'] pl'] [Hlen Hr]. split; [|done]. intros l. simpl. intros; simplify_eq; lia.
    + eapply run_post_mono; [by apply (read_stream_post bad pl)|]. intros [r pl'] Hr. done.
  - intros [[r f'] pl'] [Hf' [Hwf' Hw]].
    destruct r as [[b|]| |e]; try (split; [done|split; [done|simpl in *; lia]]).
    apply readline_reads; [done|]. intros r pl2 [Hwf2 Hw2] _.
    destruct r as [o| |e]; (split; [done|split; [done|simpl in *; lia]]).
Qed.

(** ** The store *)

Definition kind (c : Cell) : bool := match c with FieldCell _ => false | MultipartCell _ => true end.
Definition kinds (w : World) : list bool := kind <$> w_cells w.

(** The item of a multipart is a later cell of the right kind. *)
Definition item_ok (ks : list bool) (loc : nat) (it : InnerMultipartItem) : Prop :=
  match it with
  | Item_None => True
  | Item_Field f => (loc < f)%nat /\ ks !! f = Some false
  | Item_Multipart c => (loc < c)%nat /\ ks !! c = Some true
  end.

(** [bad] stands for a boundary of fewer than four bytes. *)
Definition cell_ok (bad : Prop) (ks : list bool) (loc : nat) (c : Cell) : Prop :=
  match c with
  | FieldCell f => field_ok f
  | MultipartCell m => (lenZ (im_boundary m) < 4 -> bad) /\ item_ok ks loc (im_item m)
  end.

Definition world_ok (bad : Prop) (w : World) : Prop :=
  ph_wf (w_payload w) /\
  forall loc c, w_cells w !! loc = Some c -> cell_ok bad (kinds w) loc c.

Lemma item_ok_prefix ks ks' loc it : ks `prefix_of` ks' -> item_ok ks loc it -> item_ok ks' loc it.
Proof.
  intros Hp. destruct it; simpl; intuition eauto using prefix_lookup_Some.
Qed.
Lemma cell_ok_prefix bad ks ks' loc c :
  ks `prefix_of` ks' -> cell_ok bad ks loc c -> cell_ok bad ks' loc c.
Proof. destruct c; simpl; intuition eauto using item_ok_prefix. Qed.

Lemma kinds_set_cell loc c w :
  kinds w !! loc = Some (kind c) -> kinds (set_cell loc c w) = kinds w.
Proof.
  intros Hk. unfold kinds. simpl. rewrite list_fmap_insert. by apply list_insert_id.
Qed.

Lemma world_ok_set_cell bad loc c w :
  world_ok bad w -> kinds w !! loc = Some (kind c) -> cell_ok bad (kinds w) loc c ->
  world_ok bad (set_cell loc c w).
Proof.
  intros [Hwf Hc] Hk Hok. split; [done|]. rewrite kinds_set_cell by done. simpl.
  intros l c' Hl. apply list_lookup_insert_Some in Hl as [(-> & <- & _)|[_ Hl]]; auto.
Qed.

Lemma world_ok_set_payload bad p w :
  world_ok bad w -> ph_wf p -> world_ok bad (set_payload p w).
Proof. intros [_ Hc] Hp. split; done. Qed.

Lemma world_ok_count bad p k cells k' :
  world_ok bad (mkWorld p k cells) -> world_ok bad (mkWorld p k' cells).
Proof. done. Qed.

Lemma world_ok_alloc bad c w :
  world_ok bad w -> cell_ok bad (kinds w) (length (w_cells w)) c ->
  world_ok bad (snd (alloc_cell c w)).
Proof.
  intros [Hwf Hc] Hok. split; [done|]. simpl. unfold kinds; simpl. rewrite fmap_app.
  intros l c' Hl. eapply cell_ok_prefix; [by apply prefix_app_r|].
  apply lookup_app_Some in Hl as [Hl|[Hle Hl]]; [auto|].
  apply list_lookup_singleton_Some in Hl as [Hd <-]. by replace l with (length (w_cells w)) by lia.
Qed.

Lemma get_multipart_post bad (w : World) loc (Q : InnerMultipart -> Prop) :
  world_ok bad w -> kinds w !! loc = Some true ->
  (forall m, w_cells w !! loc = Some (MultipartCell m) ->
     cell_ok bad (kinds w) loc (MultipartCell m) -> Q m) ->
  run_post bad Q (get_multipart loc w).
Proof.
  intros [_ Hc] Hk HQ. unfold kinds in Hk. apply list_lookup_fmap_Some in Hk as ([f|m] & Hk & Hl);
    [done|]. unfold get_multipart. rewrite Hl. simpl. auto.
Qed.

Lemma get_field_post bad (w : World) loc (Q : InnerField -> Prop) :
  world_ok bad w -> kinds w !! loc = Some false ->
  (forall f, field_ok f -> Q f) -> run_post bad Q (get_field loc w).
Proof.
  intros [_ Hc] Hk HQ. unfold kinds in Hk. apply list_lookup_fmap_Some in Hk as ([f|m] & Hk & Hl);
    [|done]. unfold get_field. rewrite Hl. apply HQ, (Hc _ _ Hl).
Qed.

(** What a poll of the cell [lo] leaves: a world that is well formed, with at least
    [cost] of the work done and [k] handles more, in which the cells there were keep
    their kinds, and those before [lo] their contents. *)
Record stepped (bad : Prop) (lo : nat) (k : Z) (cost : nat) (w w' : World) : Prop := {
  st_ok : world_ok bad w';
  st_kinds : kinds w `prefix_of` kinds w';
  st_count : w_count w' = w_count w + k;
  st_work : (work (w_payload w') + length (w_cells w') + cost
             <= work (w_payload w) + length (w_cells w))%nat;
  st_frame l : (l < lo)%nat -> w_cells w' !! l = w_cells w !! l;
}.

Lemma stepped_trans bad lo k1 k2 c1 c2 w1 w2 w3 :
  stepped bad lo k1 c1 w1 w2 -> stepped bad lo k2 c2 w2 w3 ->
  stepped bad lo (k1 + k2) (c1 + c2) w1 w3.
Proof.
  intros [? ? ? ? Hf1] [? ? ? ? Hf2]. split; [done|by etrans|lia|lia|].
  intros l Hl. by rewrite Hf2, Hf1.
Qed.
Lemma stepped_weaken bad lo lo' k c c' w w' :
  (c' <= c)%nat -> (lo' <= lo)%nat -> stepped bad lo k c w w' -> stepped bad lo' k c' w w'.
Proof. intros ? ? [? ? ? ? Hf]. split; [done..|lia|]. intros l Hl. apply Hf. lia. Qed.
Lemma stepped_refl bad lo w : world_ok bad w -> stepped bad lo 0 0 w w.
Proof. intros. split; [done..|lia|lia|done]. Qed.

Lemma stepped_current bad lo c level w w' :
  stepped bad lo 0 c w w' -> safety_current level w = true -> safety_current level w' = true.
Proof. unfold safety_current. intros [_ _ -> _ _]. by rewrite Z.add_0_r. Qed.
Lemma stepped_kind bad lo k c w w' loc b :
  stepped bad lo k c w w' -> kinds w !! loc = Some b -> kinds w' !! loc = Some b.
Proof. intros [_ Hp _ _ _] Hk. by eapply prefix_lookup_Some. Qed.
(** A poll of a later cell leaves the state of [loc] alone. *)
Lemma stepped_not_eof bad lo k c w w' loc :
  stepped bad lo k c w w' -> (loc < lo)%nat ->
  (forall m, w_cells w !! loc = Some (MultipartCell m) -> im_state m <> Eof) ->
  forall m, w_cells w' !! loc = Some (MultipartCell m) -> im_state m <> Eof.
Proof. intros [_ _ _ _ Hf] Hl He m Hm. apply He. by rewrite <-Hf. Qed.

(** A handle on a part: its cell has its kind, its level is the count. *)
Definition item_handle_ok (w : World) (it : MultipartItem (H := H) (Mime := Mime)) : Prop :=
  item_level it = w_count w /\
  match it with
  | MI_Field f => kinds w !! fd_inner f = Some false
  | MI_Nested m => mp_error m = None /\ exists loc, mp_inner m = Some loc /\ kinds w !! loc = Some true
  end.

Definition poll_post (bad : Prop) (lo : nat) (w : World)
    : poll (option (MultipartItem (H := H) (Mime := Mime))) MultipartError * World -> Prop :=
  fun '(r, w') =>
  match r with
  | Ready (Some it) => stepped bad lo 1 1 w w' /\ item_handle_ok w' it
  | _ => stepped bad lo 0 0 w w'
  end.

Lemma field_cell_poll_post bad loc level (w : World) :
  world_ok bad w -> kinds w !! loc = Some false ->
  run_post bad (fun '(r, w') => stepped bad loc 0 (match r with Ready (Some _) => 1 | _ => 0 end) w w')
    (field_cell_poll loc level w).
Proof.
  intros Hok Hk. apply run_post_bind. apply get_field_post; [done..|]. intros f Hf.
  apply run_post_bind. eapply run_post_mono; [apply InnerField_poll_post; [done|apply Hok]|].
  intros [[r f'] pl'] [Hf' [Hwf' Hw]]. simpl.
  assert (kinds (set_cell loc (FieldCell f') (set_payload pl' w)) = kinds w) as Hks
    by (by rewrite kinds_set_cell).
  split; [|by rewrite Hks|simpl; lia|simpl; rewrite length_insert; lia|
    intros l Hl; simpl; apply list_lookup_insert_ne; lia].
  apply world_ok_set_cell; [by apply world_ok_set_payload|done|done].
Qed.

Lemma im_headers_post (bad : Prop) m (pl : PH) :
  (lenZ (im_boundary m) < 4 -> bad) -> im_state m <> Eof -> ph_wf pl ->
  run_post bad (fun '(r, m', pl') =>
      im_boundary m' = im_boundary m /\ im_item m' = im_item m /\
      reads (match r with Ready (Some _) => 8 | _ => 0 end) pl pl')
    (im_headers (H := H) m pl).
Proof.
  intros Hb Hst Hwf. unfold im_headers. apply run_post_bind.
  eapply run_post_mono with (P := fun '(r, pl') => reads 0 pl pl').
  { destruct (im_state m); [done|by apply skip_until_boundary_post|by apply read_boundary_post|].
    split; [done|lia]. }
  intros [r pl'] [Hwf' Hw]. destruct r as [[]| |e].
  - rewrite bool_decide_eq_false_2 by done. split_and!; [done..|split; [done|lia]].
  - apply run_post_bind. eapply run_post_mono; [by apply (read_headers_post bad pl')|].
    intros [r pl2] [Hwf2 Hw2]. destruct r as [h| |e]; split_and!; try done; split; try done; lia.
  - split_and!; [done..|split; [done|lia]].
  - split_and!; [done..|split; [done|lia]].
Qed.

(** What [im_next] does with the headers of a part: a new cell and a new handle. *)
Lemma attach_post bad loc m (w : World) c it (mk : Z -> nat -> MultipartItem (H := H) (Mime := Mime)) :
  world_ok bad w -> kinds w !! loc = Some true -> (loc < length (w_cells w))%nat ->
  (lenZ (im_boundary m) < 4 -> bad) -> cell_ok bad (kinds w) (length (w_cells w)) c ->
  (forall f, it f = if kind c then Item_Multipart f else Item_Field f) ->
  (forall w' l, kinds w' !! length (w_cells w) = Some (kind c) -> w_count w' = l ->
     item_handle_ok w' (mk l (length (w_cells w)))) ->
  forall w0, stepped bad loc 0 8 w0 w ->
  poll_post bad loc w0
    (let '(inner, w1) := alloc_cell c w in
     let w2 := set_cell loc (MultipartCell (im_set_item (it inner) m)) w1 in
     let '(l, w3) := safety_clone w2 in
     (Ready (Some (mk l inner)), w3)).
Proof.
  intros Hok Hk Hlen Hb Hc Hit Hmk w0 Hst. simpl.
  set (w1 := snd (alloc_cell c w)).
  set (w2 := set_cell loc (MultipartCell (im_set_item (it (length (w_cells w))) m)) w1).
  pose proof (world_ok_alloc bad c w Hok Hc) as Hok1. fold w1 in Hok1.
  assert (kinds w1 = kinds w ++ [kind c]) as Hk1 by (unfold kinds, w1; simpl; by rewrite fmap_app).
  assert (kinds w1 !! loc = Some true) as Hkl by (rewrite Hk1; by apply lookup_app_l_Some).
  assert (length (kinds w) = length (w_cells w)) as Hlk by (unfold kinds; by rewrite length_fmap).
  assert (kinds w1 !! length (w_cells w) = Some (kind c)) as Hnew
    by (rewrite Hk1, lookup_app_r, <-Hlk, Nat.sub_diag by lia; done).
  assert (world_ok bad w2) as Hok2.
  { apply world_ok_set_cell; [done..|]. split; [done|]. simpl. rewrite Hit.
    destruct (kind c); simpl; (split; [lia|done]). }
  assert (kinds w2 = kinds w1) as Hk2 by (by apply kinds_set_cell).
  destruct Hst as [_ Hpre Hcnt Hw Hfr].
  split; [split|].
  - done.
  - change (kinds w0 `prefix_of` kinds w2). rewrite Hk2, Hk1. by apply prefix_app_r.
  - simpl. lia.
  - simpl. rewrite length_insert, length_app. simpl. lia.
  - intros l Hl. simpl. rewrite list_lookup_insert_ne, lookup_app_l by lia. auto.
  - apply Hmk; [|done]. change (kinds w2 !! length (w_cells w) = Some (kind c)). by rewrite Hk2.
Qed.

Lemma InnerField_new_ok boundary (headers : H) f :
  InnerField_new boundary headers = Ok f -> field_ok f.
Proof.
  unfold InnerField_new, field_ok. intros Hf len Hl. repeat case_match; simplify_eq/=.
  match goal with Hp : parse_u64 _ = Some _ |- _ => apply parse_u64_bounds in Hp end. lia.
Qed.

(** Boundaries shorter than four bytes that the [mime] crate may give. *)
Definition mime_bad (bad : Prop) : Prop :=
  forall (mt : Mime) b, mime_boundary mt = Some b -> lenZ b < 4 -> bad.

Lemma im_next_post bad loc level (w : World) :
  mime_bad bad -> world_ok bad w -> kinds w !! loc = Some true ->
  (forall m, w_cells w !! loc = Some (MultipartCell m) -> im_state m <> Eof) ->
  safety_current level w = true ->
  run_post bad (poll_post bad loc w) (im_next loc level w).
Proof.
  intros Hmime Hok Hk Heof Hcur. unfold im_next. apply run_post_bind.
  apply get_multipart_post; [done..|]. intros m Hm [Hb Hi]. rewrite Hcur. simpl.
  apply run_post_bind. eapply run_post_mono; [apply im_headers_post; [done|by eauto|apply Hok]|].
  intros [[r m'] pl'] (Hb' & Hi' & Hwf' & Hw).
  set (w1 := set_cell loc (MultipartCell m') (set_payload pl' w)).
  assert (world_ok bad w1) as Hok1.
  { apply world_ok_set_cell; [by apply world_ok_set_payload|done|].
    split; [by rewrite Hb'|by rewrite Hi']. }
  assert (kinds w1 = kinds w) as Hks by (unfold w1; by rewrite kinds_set_cell).
  assert (stepped bad loc 0 (match r with Ready (Some _) => 8 | _ => 0 end) w w1) as Hst.
  { split; [done|by rewrite Hks|simpl; lia|simpl; rewrite length_insert; lia|].
    intros l Hl. simpl. apply list_lookup_insert_ne. lia. }
  destruct r as [[h|]| |e]; try exact Hst.
  assert (loc < length (w_cells w1))%nat as Hlen.
  { simpl. rewrite length_insert. by eapply lookup_lt_Some. }
  rewrite <-Hks in Hk. case_bool_decide.
  - destruct (mime_boundary _) as [b|] eqn:Hmb; [|by eapply stepped_weaken; [| |exact Hst]; lia].
    pose proof (attach_post bad loc m' w1 (MultipartCell (mkInnerMultipart b FirstBoundary Item_None))
      Item_Multipart (fun l inner => MI_Nested (mkMultipart l None (Some inner)))) as Ha.
    apply Ha; try done.
    + intros Hlt. apply Hb. by rewrite <-Hb'.
    + split; [|done]. by apply (Hmime (part_mime h)).
    + intros w' l Hl Hl'. repeat split; eauto.
  - destruct (InnerField_new _ h) as [f|e] eqn:Hf; [|by eapply stepped_weaken; [| |exact Hst]; lia].
    pose proof (attach_post bad loc m' w1 (FieldCell f) Item_Field
      (fun l inner => MI_Field (mkField (part_mime h) h inner l))) as Ha.
    apply Ha; try done.
    + intros Hlt. apply Hb. by rewrite <-Hb'.
    + by eapply InnerField_new_ok.
Qed.

(** ** Polling *)

(** The work and the cells that a poll of [loc] has ahead of it. *)
Definition ahead (loc : nat) (w : World) : nat :=
  (work (w_payload w) + length (w_cells w) - loc)%nat.

Lemma ahead_stepped bad lo k c loc w w' :
  stepped bad lo k c w w' -> (loc <= length (w_cells w))%nat -> (ahead loc w' + c <= ahead loc w)%nat.
Proof.
  intros [_ Hks _ Hw _] Hl. unfold ahead. apply prefix_length in Hks. unfold kinds in Hks.
  rewrite !length_fmap in Hks. lia.
Qed.

(** Releasing the item of [loc] when the poll of that item is over. *)
Lemma released_post bad loc level m (w w' : World) :
  mime_bad bad -> world_ok bad w -> w_cells w !! loc = Some (MultipartCell m) ->
  im_state m <> Eof -> cell_ok bad (kinds w) loc (MultipartCell m) ->
  safety_current level w = true -> stepped bad loc 0 0 w w' ->
  run_post bad (poll_post bad loc w)
    (im_next loc level (set_cell loc (MultipartCell (im_set_item Item_None m)) w')).
Proof.
  intros Hmime Hok Hm Heof [Hb _] Hcur Hst.
  set (w2 := set_cell loc _ w').
  assert (kinds w' !! loc = Some true) as Hk.
  { eapply prefix_lookup_Some; [|apply Hst]. unfold kinds. by rewrite list_lookup_fmap, Hm. }
  assert (kinds w2 = kinds w') as Hks by (by apply kinds_set_cell).
  assert (stepped bad loc 0 0 w w2) as Hst2.
  { destruct Hst as [Hok' Hpre Hc Hw Hfr].
    split; [|by rewrite Hks|done|simpl; rewrite length_insert; lia|].
    - by apply world_ok_set_cell.
    - intros l Hl. simpl. rewrite list_lookup_insert_ne by lia. auto. }
  eapply run_post_mono; [apply (im_next_post bad loc level w2); try done|].
  - apply Hst2.
  - by rewrite Hks.
  - intros m2. simpl. rewrite list_lookup_insert_eq; [by intros; simplify_eq|].
    unfold kinds in Hk. apply lookup_lt_Some in Hk. by rewrite length_fmap in Hk.
  - by eapply stepped_current.
  - intros [[[it|]| |e] w3]; simpl; [intros [Hst3 Hit]; split; [|done]|intros Hst3..];
      exact (stepped_trans _ _ _ _ _ _ _ _ _ Hst2 Hst3).
Qed.

Lemma poll_post_trans bad lo c w w' x :
  stepped bad lo 0 c w w' -> poll_post bad lo w' x -> poll_post bad lo w x.
Proof.
  destruct x as [[[it|]| |e] w2]; simpl; intros Hst;
    [intros [Hst2 Hit]; split; [|done]|intros Hst2..];
    (eapply stepped_weaken; [| |exact (stepped_trans _ _ _ _ _ _ _ _ _ Hst Hst2)]); lia.
Qed.

Lemma InnerMultipart_poll_post bad fuel level :
  mime_bad bad -> forall loc (w : World),
  world_ok bad w -> kinds w !! loc = Some true -> safety_current level w = true ->
  ((2 * ahead loc w + 2 <= fuel)%nat ->
   run_post bad (poll_post bad loc w) (InnerMultipart_poll fuel loc level w)) /\
  ((2 * ahead loc w + 1 <= fuel)%nat ->
   (forall m, w_cells w !! loc = Some (MultipartCell m) -> im_state m <> Eof) ->
   run_post bad (poll_post bad loc w) (release_loop fuel loc level w)).
Proof.
  intros Hmime. induction fuel as [|fuel IH]; intros loc w Hok Hk Hcur; [split; lia|].
  assert (loc < length (w_cells w))%nat as Hlen.
  { unfold kinds in Hk. apply lookup_lt_Some in Hk. by rewrite length_fmap in Hk. }
  split; intros Hfuel; simpl.
  - apply run_post_bind, get_multipart_post; [done..|]. intros m Hm _.
    case_bool_decide as He; [by apply stepped_refl|].
    apply (IH loc w Hok Hk Hcur); [lia|]. intros m' Hm'. by simplify_eq.
  - intros Heof. rewrite Hcur. simpl.
    apply run_post_bind, get_multipart_post; [done..|]. intros m Hm Hcell. pose proof Hcell as [Hb Hi].
    destruct (im_item m) as [|f|c] eqn:Hitem; simpl in Hi; [by apply im_next_post|..].
    + apply run_post_bind. destruct Hi as [Hlt Hf].
      eapply run_post_mono; [by apply (field_cell_poll_post bad f level w)|].
      intros [r w'] Hst. apply (stepped_weaken _ _ loc _ _ _ _ _ (le_n _)) in Hst as Hst'; [|lia].
      destruct r as [[b|]| |e]; [|eapply released_post; eauto|done..].
      pose proof (ahead_stepped _ _ _ _ loc _ _ Hst ltac:(lia)).
      eapply run_post_mono; [|intros x; exact (poll_post_trans _ _ _ _ _ x Hst')].
      apply IH; [apply Hst|eapply stepped_kind; eauto|eapply stepped_current; eauto|lia|].
      exact (stepped_not_eof _ _ _ _ _ _ _ Hst Hlt Heof).
    + destruct Hi as [Hlt Hc]. apply run_post_bind. eapply run_post_mono.
      { apply (IH c w); [done..|]. unfold ahead in *. apply lookup_lt_Some in Hc as Hcl.
        unfold kinds in Hcl. rewrite length_fmap in Hcl. lia. }
      intros [r w'] Hst.
      destruct r as [[it|]| |e]; simpl in Hst.
      2: eapply released_post; eauto.
      2, 3, 4: eapply stepped_weaken; [| |exact Hst]; lia.
      destruct Hst as [Hst [Hlvl Hh]]. unfold item_drop, safety_drop.
      rewrite Hlvl, Z.eqb_refl. simpl. set (w2 := mkWorld _ _ _).
      assert (stepped bad c 0 1 w w2) as Hst2.
      { destruct Hst as [? ? Hcnt ? ?]. split; [done..| |done|done]. simpl. lia. }
      pose proof (ahead_stepped _ _ _ _ loc _ _ Hst2 ltac:(lia)).
      apply (stepped_weaken _ _ loc _ _ _ _ _ (le_n _)) in Hst2 as Hst3; [|lia].
      eapply run_post_mono; [|intros x; exact (poll_post_trans _ _ _ _ _ x Hst3)].
      apply IH; [apply Hst2|eapply stepped_kind; eauto|eapply stepped_current; eauto|lia|].
      exact (stepped_not_eof _ _ _ _ _ _ _ Hst2 Hlt Heof).
Qed.

(** ** Programs that use multipart handles *)

Notation Item := (MultipartItem (H := H) (Mime := Mime)).

Definition poll_map {A B E} (f : A -> B) (r : poll (option A) E) : poll (option B) E :=
  match r with
  | Ready (Some a) => Ready (Some (f a))
  | Ready None => Ready None
  | NotReady => NotReady
  | PErr e => PErr e
  end.

(** Polling a handle: chunks of a field, or the items of a multipart stream. *)
Definition handle_poll (it : Item) (w : World)
  : run (poll (option (bytes + Item)) MultipartError * Item * World) :=
  match it with
  | MI_Field f => '(r, w) ← Field_poll f w; Ret (poll_map inl r, it, w)
  | MI_Nested m => '(r, m, w) ← Multipart_poll m w; Ret (poll_map inr r, MI_Nested m, w)
  end.

Definition new_handles (r : poll (option (bytes + Item)) MultipartError) : list Item :=
  match r with Ready (Some (inr it)) => [it] | _ => [] end.

(** A program holds handles, the newest first; it polls or drops any of them. *)
Inductive handles_step : list Item * World -> list Item * World -> Prop :=
| hs_poll pre it post w r it' w' :
    handle_poll it w = Ret (r, it', w') ->
    handles_step (pre ++ it :: post, w) (new_handles r ++ pre ++ it' :: post, w')
| hs_drop pre it post w w' :
    item_drop it w = Ret w' ->
    handles_step (pre ++ it :: post, w) (pre ++ post, w').

Definition handles_start (boundary : bytes) (stream : S) : list Item * World :=
  let '(mp, w) := Multipart_new (Ok boundary) stream in ([MI_Nested mp], w).

(** The levels of the handles count down from [n] to 1. *)
Fixpoint stacked (n : Z) (hs : list Item) : Prop :=
  match hs with
  | [] => n = 0
  | it :: hs => item_level it = n /\ stacked (n - 1) hs
  end.

Definition handle_ok (ks : list bool) (it : Item) : Prop :=
  match it with
  | MI_Field f => ks !! fd_inner f = Some false
  | MI_Nested m => mp_error m = None /\ exists loc, mp_inner m = Some loc /\ ks !! loc = Some true
  end.

Definition handles_inv (bad : Prop) (hw : list Item * World) : Prop :=
  let '(hs, w) := hw in
  world_ok bad w /\ stacked (w_count w) hs /\ Forall (handle_ok (kinds w)) hs.

Lemma stacked_lookup n hs i it :
  stacked n hs -> hs !! i = Some it -> item_level it = n - Z.of_nat i /\ 0 < item_level it.
Proof.
  revert n i. induction hs as [|it' hs IH]; intros n i Hs Hi; [done|]. destruct Hs as [Hl Hs].
  assert (forall m h, stacked m h -> 0 <= m) as Hpos.
  { clear. intros m h. revert m. induction h as [|x h IH]; intros m Hm; simpl in Hm; [lia|].
    destruct Hm as [_ Hm]. apply IH in Hm. lia. }
  destruct i as [|i]; simplify_eq/=; [apply Hpos in Hs; lia|].
  destruct (IH _ _ Hs Hi). lia.
Qed.

Lemma handle_ok_prefix ks ks' it : ks `prefix_of` ks' -> handle_ok ks it -> handle_ok ks' it.
Proof.
  intros Hp. destruct it as [f|m]; simpl; [eauto using prefix_lookup_Some|].
  intros (? & loc & ? & ?). eauto 6 using prefix_lookup_Some.
Qed.

(** A handle that is not the newest gets nothing and changes nothing. *)
Lemma handle_poll_stale ks it w :
  handle_ok ks it -> item_level it <> w_count w -> handle_poll it w = Ret (NotReady, it, w).
Proof.
  intros Hok Hl. destruct it as [f|m]; simpl in *.
  - unfold Field_poll, safety_current. by rewrite (proj2 (Z.eqb_neq _ _)).
  - unfold Multipart_poll, safety_current. destruct Hok as [-> _].
    by rewrite (proj2 (Z.eqb_neq _ _)).
Qed.

(** The newest handle: the poll returns, and a new handle is the newest one. *)
Lemma handle_poll_current bad it w :
  mime_bad bad -> world_ok bad w -> handle_ok (kinds w) it -> item_level it = w_count w ->
  run_post bad (fun '(r, it', w') =>
      it' = it /\ world_ok bad w' /\ kinds w `prefix_of` kinds w' /\
      w_count w' = w_count w + lenZ (new_handles r) /\
      forall n, n ∈ new_handles r -> item_level n = w_count w' /\ handle_ok (kinds w') n)
    (handle_poll it w).
Proof.
  intros Hm Hw Hok Hl. destruct it as [f|m]; simpl in *.
  - unfold Field_poll, safety_current. rewrite Hl, Z.eqb_refl. apply run_post_bind.
    eapply run_post_mono; [by apply (field_cell_poll_post bad)|].
    intros [r w'] [Hw' Hks Hc _ _].
    assert (new_handles (poll_map inl r) = []) as Hn by (by destruct r as [[]| |]).
    simpl. rewrite Hn. split_and!; [done..|lenZ_lia|]. set_solver.
  - destruct Hok as (He & loc & Hi & Hk). unfold Multipart_poll.
    assert (safety_current (mp_safety m) w = true) as Hcur
      by (unfold safety_current; by rewrite Hl, Z.eqb_refl).
    rewrite He, Hcur, Hi. simpl. rewrite bind_assoc_run. apply run_post_bind.
    eapply run_post_mono.
    { apply (InnerMultipart_poll_post bad _ (mp_safety m)); [done..|]. unfold poll_turns, ahead. lia. }
    intros [r w'] Hst. destruct r as [[n|]| |e]; simpl in *;
      [destruct Hst as [[Hw' Hks Hc _ _] [Hlv Hn]]|destruct Hst as [Hw' Hks Hc _ _]..];
      (split_and!; [done..|lenZ_lia|]); intros x Hx; [|set_solver..].
    by apply list_elem_of_singleton in Hx as ->.
Qed.

Lemma stacked_current n pre it post :
  stacked n (pre ++ it :: post) -> item_level it = n -> pre = [].
Proof.
  intros Hs Hl. destruct (stacked_lookup _ _ (length pre) it Hs) as [Hi _].
  { rewrite lookup_app_r, Nat.sub_diag by lia. done. }
  destruct pre; [done|simpl in Hi; lia].
Qed.

Lemma handles_step_inv bad hw hw' :
  mime_bad bad -> handles_inv bad hw -> handles_step hw hw' -> handles_inv bad hw'.
Proof.
  intros Hm Hinv Hstep. destruct Hstep as [pre it post w r it' w' Hp|pre it post w w' Hd];
    destruct Hinv as (Hw & Hs & Hf).
  - assert (handle_ok (kinds w) it) as Hok.
    { rewrite Forall_app, Forall_cons in Hf. tauto. }
    destruct (decide (item_level it = w_count w)) as [Hl|Hl].
    + assert (pre = []) as -> by (by eapply stacked_current). simpl in *.
      pose proof (handle_poll_current bad it w Hm Hw Hok Hl) as Hpost. rewrite Hp in Hpost.
      destruct Hpost as (-> & Hw' & Hks & Hc & Hn). split; [done|].
      assert (Forall (handle_ok (kinds w')) (it :: post)) as Hf'.
      { eapply Forall_impl; [exact Hf|]. intros x. by apply handle_ok_prefix. }
      destruct r as [[[b|n]|]| |e]; simpl in *;
        unfold lenZ in Hc; simpl in Hc; try (replace (w_count w') with (w_count w) by lia; done).
      destruct (Hn n) as [Hln Hokn]; [by left|].
      split; [|by constructor]. split; [done|].
      by replace (w_count w' - 1) with (w_count w) by lia.
    + rewrite (handle_poll_stale _ _ _ Hok Hl) in Hp. simplify_eq. done.
  - unfold item_drop, safety_drop in Hd. destruct (Z.eqb_spec (w_count w) (item_level it)) as [Hl|];
      simplify_eq. assert (pre = []) as -> by (by eapply stacked_current). simpl in *.
    split; [done|]. split; [apply Hs|]. by apply Forall_cons in Hf as [_ Hf].
Qed.

(** The boundary, or one that the [mime] crate may give, has fewer than four bytes. *)
Definition short_boundary (boundary : bytes) : Prop :=
  lenZ boundary < 4 \/ exists (mt : Mime) b, mime_boundary mt = Some b /\ lenZ b < 4.

(** C22. The counter of [Safety] makes access to the payload exclusive, whatever a
    program does with the handles it holds: the newest handle can be polled, the
    poll returns (no loop runs for ever, and a panic needs a boundary of fewer than
    four bytes), and it can be dropped; every other handle is not ready and changes
    nothing when it is polled, and panics when it is dropped. *)
Theorem multipart_access (boundary : bytes) (stream : S) (hs : list Item) (w : World) :
  rtc handles_step (handles_start boundary stream) (hs, w) ->
  forall i it, hs !! i = Some it ->
  if decide (i = 0%nat) then
    run_post (short_boundary boundary) (fun _ => True) (handle_poll it w) /\
    exists w', item_drop it w = Ret w'
  else handle_poll it w = Ret (NotReady, it, w) /\ item_drop it w = Panic.
Proof.
  intros Hr i it Hi.
  assert (mime_bad (short_boundary boundary)) as Hm by (intros mt b Hb Hlt; right; eauto).
  assert (handles_inv (short_boundary boundary) (hs, w)) as (Hw & Hs & Hf).
  { eapply rtc_ind_r; [|intros ? ? _ Hstep Hinv; by eapply handles_step_inv|exact Hr].
    simpl. repeat split; try (by repeat constructor).
    - intros [|loc] c Hc; simplify_eq/=. split; [by left|done].
    - constructor; [|done]. split; [done|]. by exists 0%nat. }
  destruct (stacked_lookup _ _ _ _ Hs Hi) as [Hl _].
  pose proof (proj1 (Forall_lookup _ _) Hf _ _ Hi) as Hok.
  unfold item_drop, safety_drop. case_decide as Hi0.
  - split; [|rewrite (proj2 (Z.eqb_eq _ _)) by lia; eauto].
    eapply run_post_mono; [apply handle_poll_current; try done; lia|done].
  - rewrite (proj2 (Z.eqb_neq (w_count w) _)) by lia. split; [|done].
    eapply handle_poll_stale; [done|lia].
Qed.

End Safe.

(** ** An execution *)

Section Demo.
#[local] Existing Instances ascii_conv line_blocks mini_mime.
Notation Item := (MultipartItem (H := list (bytes * bytes)) (Mime := bytes * option bytes)).

(** The handles after the first poll of a multipart stream: a field and its parent. *)
Definition demo_start : list Item * World := handles_start (b#"bound") demo_stream.
Definition demo_root : Item := MI_Nested (mkMultipart 1 None (Some 0%nat)).
Definition demo_handles : list Item * World (S := script) :=
  match handle_poll demo_root demo_start.2 with
  | Ret (r, mp, w) => (new_handles r ++ [mp], w)
  | _ => demo_start
  end.

Lemma multipart_access_witness :
  rtc handles_step (handles_start (b#"bound") demo_stream) demo_handles /\
  exists f root, demo_handles.1 = [MI_Field f; root] /\
    handle_poll root demo_handles.2 = Ret (NotReady, root, demo_handles.2) /\
    item_drop root demo_handles.2 = Panic.
Proof.
  assert (rtc handles_step (handles_start (b#"bound") demo_stream)
            (demo_handles.1, demo_handles.2)) as Hr.
  { unfold demo_handles. destruct (handle_poll demo_root demo_start.2) as [[[r it] w]| |] eqn:E;
      [|done..]. exact (rtc_once _ _ (hs_poll [] _ [] _ _ _ _ E)). }
  split; [by destruct demo_handles|].
  assert (exists f root, demo_handles.1 = [MI_Field f; root]) as (f & root & Hd)
    by (eexists _, _; vm_compute; reflexivity).
  exists f, root. split; [done|].
  apply (multipart_access _ _ _ _ Hr 1%nat root). by rewrite Hd.
Defined.

(** A boundary of one byte and a body that starts with an empty line: the slice
    [&chunk[..2]] of [skip_until_boundary] panics. *)
Example short_boundary_panics :
  let '(mp, w) := Multipart_new (Ok (b#"x")) ([Ready (Some [10])] : script) in
  Multipart_poll (H := list (bytes * bytes)) mp w = Panic.
Proof. vm_compute. reflexivity. Qed.

(** A stream without a boundary reports its error once; the next poll unwraps the
    missing cell. *)
Example poll_after_error_panics :
  let '(mp, w) := Multipart_new (Err ME_NoContentType) ([] : script) in
  let mp' := mkMultipart 1 None None in
  Multipart_poll (H := list (bytes * bytes)) mp w = Ret (PErr ME_NoContentType, mp', w) /\
  Multipart_poll (H := list (bytes * bytes)) mp' w = Panic.
Proof. split; reflexivity. Qed.

End Demo.
