(* ===== verification/MultipartFacts.v ===== *)
(** * What a multipart reader delivers (src/src/multipart.rs)

    A body rendered from parts is read back as these parts, however the stream cuts
    it into chunks: with a [Content-Length] any contents, without one any contents
    in which no carriage return comes too close to the end.  That last condition is
    needed: [InnerField::read_stream] hands out the bytes behind a carriage return
    without looking for the delimiter in them. *)
From S2P Require Import Prelude StrLib Errors Http Response Payload PayloadHelper PayloadReads Multipart MultipartSafe.
Open Scope Z_scope.

Section Delivery.
Context {S : Type} `{Stm : Stream S} `{!FiniteStream S}.
Context {H : Type} `{HeaderMap H} `{HeaderConv} `{HeaderBlocks} {Mime : Type} `{MimeCrate Mime}.
Notation PH := (PayloadHelper S).
Notation World := (World (S := S)).

(** ** Bodies *)

Record Part : Type := mkPart { part_block : bytes; part_headers : H; part_data : bytes }.

Definition delimiter (boundary : bytes) : bytes := CRLF ++ DASHES ++ boundary.

(** Contents that [read_stream] reads to their end: behind every carriage return at
    which it looks there are as many bytes as in a delimiter, and they are not the
    delimiter. *)
Inductive stream_ok (boundary : bytes) : bytes -> Prop :=
| so_plain data : 13 ∉ data -> stream_ok boundary data
| so_jump pre blk data :
    13 ∉ pre -> length (13 :: blk) = length (delimiter boundary) ->
    13 :: blk <> delimiter boundary -> stream_ok boundary data ->
    stream_ok boundary (pre ++ (13 :: blk) ++ data).

(** The header block ends at its first empty line and parses to the headers, which
    announce no nested stream; the contents have the announced length, or can be
    delimited. *)
Definition part_ok (boundary : bytes) (p : Part) : Prop :=
  find_end [13; 10; 13; 10] 0 (part_block p) = Some (length (part_block p)) /\
  (exists hdrs, parse_headers MAX_HEADERS (part_block p) = Ok (Some hdrs) /\
     convert_headers hdrs hm_empty = Ok (part_headers p)) /\
  mime_type_ (part_mime (part_headers p)) <> MULTIPART /\
  match InnerField_new boundary (part_headers p) with
  | Ok f => match if_length f with
            | Some len => len = lenZ (part_data p)
            | None => stream_ok boundary (part_data p)
            end
  | Err _ => False
  end.

Definition render_part (boundary : bytes) (p : Part) : bytes :=
  DASHES ++ boundary ++ CRLF ++ part_block p ++ part_data p ++ CRLF.
Definition render_end (boundary : bytes) : bytes := DASHES ++ boundary ++ DASHES ++ CRLF.
Definition render_parts (boundary : bytes) (ps : list Part) : bytes :=
  concat (render_part boundary <$> ps) ++ render_end boundary.

(** Lines before the first boundary. *)
Definition preamble_ok (boundary : bytes) (lines : list bytes) : Prop :=
  Forall (fun l => 10 ∉ l /\ skip_line boundary (l ++ [10]) = Ret None) lines.
Definition render_preamble (lines : list bytes) : bytes := concat ((fun l => l ++ [10]) <$> lines).

(** ** Reading a stream to its end *)

Inductive field_reads (f : Field (H := H) (Mime := Mime)) : World -> bytes -> World -> Prop :=
| fld_end w w' : Field_poll f w = Ret (Ready None, w') -> field_reads f w [] w'
| fld_chunk w b w' d w'' :
    Field_poll f w = Ret (Ready (Some b), w') -> field_reads f w' d w'' ->
    field_reads f w (b ++ d) w''.

(** The application takes the fields in turn, reads each to its end and drops it. *)
Inductive stream_reads (mp : Multipart) : World -> list (H * bytes) -> World -> Prop :=
| str_end w w' :
    Multipart_poll mp w = Ret (Ready None, mp, w') -> stream_reads mp w [] w'
| str_field w f w1 d w2 w3 ps w4 :
    Multipart_poll mp w = Ret (Ready (Some (MI_Field f)), mp, w1) ->
    field_reads f w1 d w2 -> item_drop (MI_Field f) w2 = Ret w3 ->
    stream_reads mp w3 ps w4 -> stream_reads mp w ((fd_headers f, d) :: ps) w4.

(** ** Fields *)

(** Successive polls of a field until it ends. *)
Inductive inner_reads : InnerField -> PH -> bytes -> InnerField -> PH -> Prop :=
| inr_end f pl f' pl' :
    InnerField_poll true f pl = Ret (Ready None, f', pl') -> inner_reads f pl [] f' pl'
| inr_chunk f pl b f1 pl1 d f' pl' :
    InnerField_poll true f pl = Ret (Ready (Some b), f1, pl1) ->
    inner_reads f1 pl1 d f' pl' -> inner_reads f pl (b ++ d) f' pl'.

(** The end of a field takes the line break behind its contents. *)
Lemma read_crlf (pl : PH) rest :
  ph_wf pl -> pending pl = CRLF ++ rest ->
  exists pl', readline pl = Ret (Ready (Some CRLF), pl') /\ ph_wf pl' /\ pending pl' = rest.
Proof.
  intros Hwf Hp. apply (readline_pending [13] rest pl); [done|set_solver|done].
Qed.

Lemma read_len_pending body more (pl : PH) :
  ph_wf pl -> body <> [] -> pending pl = body ++ more ->
  exists k pl', 0 <= k <= lenZ body /\
    read_len pl (lenZ body) = Ret (Ready (Some (takeZ k body)), lenZ (dropZ k body), pl') /\
    ph_wf pl' /\ pending pl' = dropZ k body ++ more.
Proof.
  intros Hwf Hne Hp.
  assert (0 < lenZ body) by (destruct body; [done|lenZ_lia]).
  destruct (readany_spec pl Hwf) as (r & pl1 & Hr & Hwf1 & Hspec).
  destruct r as [[c|]| |e].
  2, 3, 4: destruct Hspec as (Hc & _ & Hd); unfold pending in Hp; rewrite Hc, Hd in Hp;
    by destruct body.
  pose proof (lenZ_nonneg c). set (k := Z.min (lenZ c) (lenZ body)).
  assert (takeZ k c = takeZ k body /\ dropZ k c ++ pending pl1 = dropZ k body ++ more) as [Ht Hd].
  { rewrite <-(takeZ_app_l k c (pending pl1)), <-(takeZ_app_l k body more),
      <-(dropZ_app_l k c (pending pl1)), <-(dropZ_app_l k body more) by lia.
    rewrite <-Hspec, <-Hp. done. }
  eexists k, _. split; [lia|]. unfold read_len. rewrite (proj2 (Z.eqb_neq _ _)) by lia.
  rewrite Hr. simpl. fold k. rewrite Ht, lenZ_dropZ by lia. split; [done|].
  case_bool_decide as Hnil; [rewrite Hnil in Hd; done|].
  split; [by apply unread_data_wf|]. by rewrite unread_data_pending.
Qed.

(** A field with its length. *)
Lemma sized_field_reads boundary eof data rest (pl : PH) :
  ph_wf pl -> pending pl = data ++ CRLF ++ rest ->
  exists f' pl', inner_reads (mkInnerField true boundary eof (Some (lenZ data))) pl data f' pl' /\
    if_payload f' = false /\ ph_wf pl' /\ pending pl' = rest.
Proof.
  remember (work pl) as n eqn:Hn. revert data pl Hn.
  induction (lt_wf n) as [n _ IH]. intros data pl -> Hwf Hp.
  destruct (decide (data = [])) as [->|Hne].
  { destruct (read_crlf pl rest Hwf Hp) as (pl' & Hr & Hwf' & Hp').
    exists (mkInnerField false boundary true (Some 0)), pl'. split; [|done].
    constructor. unfold InnerField_poll. simpl. by rewrite Hr. }
  destruct (read_len_pending data (CRLF ++ rest) pl Hwf Hne Hp) as (k & pl1 & Hk & Hr & Hwf1 & Hp1).
  pose proof (read_len_post False pl (lenZ data) (lenZ_nonneg _) Hwf) as Hpost.
  rewrite Hr in Hpost. destruct Hpost as [_ [_ Hw]].
  destruct (IH (work pl1) ltac:(lia) (dropZ k data) pl1 eq_refl Hwf1 Hp1)
    as (f' & pl' & Hreads & Hend).
  exists f', pl'. split; [|done]. rewrite <-(takeZ_dropZ k data) at 2.
  eapply inr_chunk; [|exact Hreads]. unfold InnerField_poll. simpl. by rewrite Hr.
Qed.

(** A field that ends at its delimiter. *)
Lemma read_stream_plain boundary pre more (pl : PH) :
  ph_wf pl -> 13 ∉ pre -> pre <> [] -> pending pl = pre ++ 13 :: more ->
  exists pl', read_stream pl boundary = Ret (Ready (Some pre), pl') /\
    ph_wf pl' /\ pending pl' = 13 :: more.
Proof.
  intros Hwf Hpre Hne Hp.
  destruct (read_byte_pending 13 pre more pl Hwf Hpre Hp) as (pl1 & Hr & Hwf1 & Hp1).
  assert (0 < lenZ pre) by (destruct pre; [done|lenZ_lia]).
  exists (unread_data [13] pl1). unfold read_stream. rewrite Hr. simpl.
  rewrite (proj2 (Z.eqb_neq _ _)) by lenZ_lia. rewrite usize_sub_ok by lenZ_lia. simpl.
  replace (lenZ (pre ++ [13]) - 1) with (lenZ pre) by lenZ_lia.
  rewrite takeZ_app_l, dropZ_app_r, takeZ_all, Z.sub_diag, dropZ_0 by lia.
  split; [done|]. split; [by apply unread_data_wf|]. rewrite unread_data_pending. by rewrite Hp1.
Qed.

Lemma slice_is_delimiter boundary c :
  lenZ c = lenZ boundary + 4 ->
  and_then (slice_is 0 2 c CRLF)
    (and_then (slice_is 2 4 c DASHES) (slice_is 4 (lenZ c) c boundary)) =
  Ret (bool_decide (c = delimiter boundary)).
Proof.
  intros Hl. pose proof (lenZ_nonneg boundary). unfold slice_is, slice, and_then.
  rewrite !(proj2 (Z.leb_le _ _)) by lia. simpl.
  destruct c as [|c0 [|c1 [|c2 [|c3 c]]]];
    try (rewrite ?lenZ_cons, ?lenZ_nil in Hl; lia).
  assert (takeZ (lenZ (c0 :: c1 :: c2 :: c3 :: c) - 4) (dropZ 4 (c0 :: c1 :: c2 :: c3 :: c)) = c) as Hc.
  { change (dropZ 4 (c0 :: c1 :: c2 :: c3 :: c)) with c. apply takeZ_all. rewrite !lenZ_cons. lia. }
  rewrite Hc. unfold delimiter, CRLF, DASHES, takeZ, dropZ. simpl.
  repeat case_bool_decide; simplify_eq/=; try done; f_equal; naive_solver.
Qed.

Lemma read_stream_cr boundary blk more (pl : PH) :
  ph_wf pl -> lenZ (13 :: blk) = lenZ boundary + 4 -> pending pl = (13 :: blk) ++ more ->
  exists pl', ph_wf pl' /\
    if decide (13 :: blk = delimiter boundary)
    then read_stream pl boundary = Ret (Ready None, pl') /\ pending pl' = pending pl
    else read_stream pl boundary = Ret (Ready (Some (13 :: blk)), pl') /\ pending pl' = more.
Proof.
  intros Hwf Hl Hp.
  destruct (read_byte_pending 13 [] (blk ++ more) pl Hwf ltac:(set_solver) Hp)
    as (pl1 & Hr & Hwf1 & Hp1). simpl in Hr.
  pose proof (unread_data_wf [13] pl1 Hwf1) as Hwf2.
  assert (pending (unread_data [13] pl1) = (13 :: blk) ++ more) as Hp2
    by (by rewrite unread_data_pending, Hp1).
  destruct (read_exact_pending (lenZ boundary + 4) _ Hwf2) as (pl3 & Hr3 & Hwf3 & Hp3).
  { rewrite Hp2, lenZ_app. pose proof (lenZ_nonneg boundary). pose proof (lenZ_nonneg more). lia. }
  rewrite Hp2, <-Hl, takeZ_app_l, takeZ_all in Hr3 by lia.
  rewrite Hp2, <-Hl, dropZ_app_r, Z.sub_diag, dropZ_0 in Hp3 by lia.
  assert (read_stream pl boundary =
    if bool_decide (13 :: blk = delimiter boundary)
    then Ret (Ready None, unread_data (13 :: blk) pl3)
    else Ret (Ready (Some (13 :: blk)), pl3)) as Hstream.
  { unfold read_stream. rewrite Hr. cbn [mbind run_bind]. cbv beta iota zeta.
    change (lenZ [13] =? 1) with true. cbv iota. rewrite <-Hl, Hr3.
    cbn [mbind run_bind]. rewrite slice_is_delimiter by done. simpl. by case_bool_decide. }
  case_decide as Hd; rewrite Hstream.
  - exists (unread_data (13 :: blk) pl3). split; [by apply unread_data_wf|].
    rewrite bool_decide_eq_true_2 by done. split; [done|]. by rewrite unread_data_pending, Hp3.
  - exists pl3. rewrite bool_decide_eq_false_2 by done. done.
Qed.

Lemma inner_chunk boundary eof (pl pl1 : PH) b d f' pl' :
  read_stream pl boundary = Ret (Ready (Some b), pl1) ->
  inner_reads (mkInnerField true boundary eof None) pl1 d f' pl' ->
  inner_reads (mkInnerField true boundary eof None) pl (b ++ d) f' pl'.
Proof.
  intros Hr. eapply inr_chunk. unfold InnerField_poll. simpl. by rewrite Hr.
Qed.

(** Bytes before a carriage return come out first. *)
Lemma inner_plain boundary eof pre more (pl : PH) d (P : InnerField -> PH -> Prop) :
  ph_wf pl -> 13 ∉ pre -> pending pl = pre ++ 13 :: more ->
  (forall pl1 : PH, ph_wf pl1 -> pending pl1 = 13 :: more ->
     exists f' pl', inner_reads (mkInnerField true boundary eof None) pl1 d f' pl' /\ P f' pl') ->
  exists f' pl', inner_reads (mkInnerField true boundary eof None) pl (pre ++ d) f' pl' /\ P f' pl'.
Proof.
  intros Hwf Hpre Hp Hk. destruct (decide (pre = [])) as [->|Hne]; [by apply Hk|].
  destruct (read_stream_plain boundary pre more pl Hwf Hpre Hne Hp) as (pl1 & Hr & Hwf1 & Hp1).
  destruct (Hk pl1 Hwf1 Hp1) as (f' & pl' & Hreads & HP).
  exists f', pl'. split; [|done]. by eapply inner_chunk.
Qed.

Lemma lenZ_delimiter boundary : lenZ (delimiter boundary) = lenZ boundary + 4.
Proof. unfold delimiter, CRLF, DASHES. lenZ_lia. Qed.

Lemma stream_field_reads boundary eof data rest (pl : PH) :
  ph_wf pl -> stream_ok boundary data ->
  pending pl = data ++ delimiter boundary ++ rest ->
  exists f' pl', inner_reads (mkInnerField true boundary eof None) pl data f' pl' /\
    if_payload f' = false /\ ph_wf pl' /\ pending pl' = DASHES ++ boundary ++ rest.
Proof.
  intros Hwf Hok. revert pl Hwf. induction Hok as [data Hd|pre blk data Hpre Hl Hne Hok IH];
    intros pl Hwf Hp.
  - rewrite <-(app_nil_r data). eapply inner_plain; [done|exact Hd|exact Hp|].
    intros pl1 Hwf1 Hp1.
    destruct (read_stream_cr boundary (10 :: DASHES ++ boundary) rest pl1 Hwf1) as (pl2 & Hwf2 & Hr).
    { apply lenZ_delimiter. } { exact Hp1. }
    rewrite decide_True in Hr by done. destruct Hr as [Hr Hp2]. rewrite Hp1 in Hp2.
    destruct (read_crlf pl2 (DASHES ++ boundary ++ rest) Hwf2) as (pl' & Hr' & Hwf' & Hp').
    { rewrite Hp2. done. }
    exists (mkInnerField false boundary true None), pl'. split; [|done].
    constructor. unfold InnerField_poll. cbn [if_payload if_length negb if_boundary].
    rewrite Hr. cbn [mbind run_bind]. by rewrite Hr'.
  - rewrite <-!app_assoc in Hp. eapply inner_plain; [done|exact Hpre|exact Hp|].
    intros pl1 Hwf1 Hp1.
    destruct (read_stream_cr boundary blk (data ++ delimiter boundary ++ rest) pl1 Hwf1)
      as (pl2 & Hwf2 & Hr).
    { rewrite <-lenZ_delimiter. unfold lenZ. by rewrite Hl. } { exact Hp1. }
    rewrite decide_False in Hr by done. destruct Hr as [Hr Hp2].
    destruct (IH pl2 Hwf2 Hp2) as (f' & pl' & Hreads & Hend).
    exists f', pl'. split; [|done]. by eapply inner_chunk.
Qed.

(** Either way, the contents are read and the next line is a boundary. *)
Lemma part_field_reads boundary (p : Part) f rest (pl : PH) :
  ph_wf pl -> part_ok boundary p -> InnerField_new boundary (part_headers p) = Ok f ->
  pending pl = part_data p ++ delimiter boundary ++ rest ->
  exists f' pl', inner_reads f pl (part_data p) f' pl' /\
    if_payload f' = false /\ ph_wf pl' /\ pending pl' = DASHES ++ boundary ++ rest.
Proof.
  intros Hwf (_ & _ & _ & Hlen) Hf Hp. rewrite Hf in Hlen.
  assert (f = mkInnerField true boundary false (if_length f)) as Heq.
  { clear Hlen. unfold InnerField_new in Hf. repeat case_match; by simplify_eq. }
  rewrite Heq. destruct (if_length f) as [len|].
  - rewrite Hlen. apply sized_field_reads; [done|]. rewrite Hp. done.
  - by apply stream_field_reads.
Qed.

(** ** Boundary lines *)

Lemma slice_is_mid x y z chunk text a b :
  chunk = x ++ y ++ z -> a = lenZ x -> b = lenZ x + lenZ y ->
  slice_is a b chunk text = Ret (bool_decide (y = text)).
Proof.
  intros -> -> ->. unfold slice_is, slice. pose proof (lenZ_nonneg x). pose proof (lenZ_nonneg y).
  pose proof (lenZ_nonneg z). rewrite !(proj2 (Z.leb_le _ _)) by lenZ_lia. simpl.
  rewrite dropZ_app_r, Z.sub_diag, dropZ_0 by lia.
  replace (lenZ x + lenZ y - lenZ x) with (lenZ y) by lia.
  by rewrite takeZ_app_l, takeZ_all by lia.
Qed.

Definition next_line (boundary : bytes) : bytes := DASHES ++ boundary ++ CRLF.

Lemma lenZ_next_line boundary : lenZ (next_line boundary) = lenZ boundary + 4.
Proof. unfold next_line, CRLF, DASHES. lenZ_lia. Qed.

Lemma boundary_line_next boundary : boundary_line boundary (next_line boundary) = Ret (Some false).
Proof.
  unfold boundary_line. rewrite lenZ_next_line, Z.eqb_refl.
  rewrite (slice_is_mid [] DASHES (boundary ++ CRLF) _ DASHES 0 2) by done.
  rewrite (slice_is_mid DASHES boundary CRLF _ boundary 2) by (done || (unfold DASHES; lenZ_lia)).
  by rewrite !bool_decide_eq_true_2 by done.
Qed.

Lemma boundary_line_end boundary : boundary_line boundary (render_end boundary) = Ret (Some true).
Proof.
  unfold boundary_line.
  assert (lenZ (render_end boundary) = lenZ boundary + 6) as ->
    by (unfold render_end, CRLF, DASHES; lenZ_lia).
  rewrite (proj2 (Z.eqb_neq (lenZ boundary + 6) (lenZ boundary + 4))), Z.eqb_refl by lia. simpl.
  rewrite (slice_is_mid [] DASHES (boundary ++ DASHES ++ CRLF) _ DASHES 0 2) by done.
  rewrite (slice_is_mid DASHES boundary (DASHES ++ CRLF) _ boundary 2) by (done || (unfold DASHES; lenZ_lia)).
  rewrite (slice_is_mid (DASHES ++ boundary) DASHES CRLF)
    by ((unfold render_end; by rewrite <-app_assoc) || (unfold DASHES; lenZ_lia)).
  by rewrite !bool_decide_eq_true_2 by done.
Qed.

Lemma skip_line_next boundary : skip_line boundary (next_line boundary) = Ret (Some false).
Proof.
  unfold skip_line. rewrite lenZ_next_line. rewrite (proj2 (Z.ltb_ge _ _)) by lia.
  rewrite (slice_is_mid [] DASHES (boundary ++ CRLF) _ DASHES 0 2) by done.
  rewrite (slice_is_mid DASHES boundary CRLF _ boundary 2) by (done || (unfold DASHES; lenZ_lia)).
  by rewrite !bool_decide_eq_true_2 by done.
Qed.

Lemma readline_text text more (pl : PH) :
  ph_wf pl -> 10 ∉ text -> pending pl = text ++ CRLF ++ more ->
  exists pl', readline pl = Ret (Ready (Some (text ++ CRLF)), pl') /\
    ph_wf pl' /\ pending pl' = more.
Proof.
  intros Hwf Hn Hp.
  replace (text ++ CRLF) with ((text ++ [13]) ++ [10]) by (by rewrite <-app_assoc).
  apply readline_pending; [done|set_solver|]. rewrite Hp. by rewrite <-app_assoc.
Qed.

Lemma dashes_no_lf x : 10 ∉ x -> 10 ∉ DASHES ++ x.
Proof. unfold DASHES. set_solver. Qed.

Lemma skip_until_first boundary lines more (pl : PH) :
  ph_wf pl -> 10 ∉ boundary -> preamble_ok boundary lines ->
  pending pl = render_preamble lines ++ next_line boundary ++ more ->
  exists pl', skip_until_boundary pl boundary = Ret (Ready false, pl') /\
    ph_wf pl' /\ pending pl' = more.
Proof.
  intros Hwf Hb Hl. unfold skip_until_boundary. generalize (le_n (Datatypes.S (work pl))).
  generalize (Datatypes.S (work pl)) at 2 3 as fuel. intros fuel. revert fuel pl Hwf.
  induction Hl as [|l lines [Hnl Hskip] Hl IH]; intros [|fuel] pl Hwf Hfuel Hp;
    try lia; cbn [skip_loop].
  - destruct (readline_text (DASHES ++ boundary) more pl Hwf) as (pl' & -> & Hwf' & Hp').
    { by apply dashes_no_lf. } { rewrite Hp. unfold next_line, render_preamble. by rewrite <-!app_assoc. }
    cbn [mbind run_bind]. exists pl'. rewrite <-app_assoc. change (DASHES ++ boundary ++ CRLF) with (next_line boundary).
    by rewrite skip_line_next.
  - change (render_preamble (l :: lines)) with ((l ++ [10]) ++ render_preamble lines) in Hp.
    rewrite <-!app_assoc in Hp.
    destruct (readline_pending l _ pl Hwf Hnl Hp) as (pl1 & Hr & Hwf1 & Hp1).
    assert (read_until [10] pl = Ret (Ready (Some (l ++ [10])), pl1)) as Hr' by exact Hr.
    apply read_until_work in Hr'; [|done..]. rewrite length_app in Hr'. simpl in Hr'.
    rewrite Hr. simpl. rewrite Hskip. simpl. apply IH; [done|lia|done].
Qed.

Lemma read_boundary_next boundary more (pl : PH) :
  ph_wf pl -> 10 ∉ boundary -> pending pl = next_line boundary ++ more ->
  exists pl', read_boundary pl boundary = Ret (Ready false, pl') /\
    ph_wf pl' /\ pending pl' = more.
Proof.
  intros Hwf Hb Hp. destruct (readline_text (DASHES ++ boundary) more pl Hwf) as (pl' & Hr & Hwf' & Hp').
  { by apply dashes_no_lf. } { rewrite Hp. unfold next_line. by rewrite <-!app_assoc. }
  exists pl'. unfold read_boundary. rewrite Hr. cbn [mbind run_bind]. rewrite <-app_assoc.
  change (DASHES ++ boundary ++ CRLF) with (next_line boundary). by rewrite boundary_line_next.
Qed.

Lemma read_boundary_end boundary more (pl : PH) :
  ph_wf pl -> 10 ∉ boundary -> pending pl = render_end boundary ++ more ->
  exists pl', read_boundary pl boundary = Ret (Ready true, pl') /\
    ph_wf pl' /\ pending pl' = more.
Proof.
  intros Hwf Hb Hp.
  destruct (readline_text (DASHES ++ boundary ++ DASHES) more pl Hwf) as (pl' & Hr & Hwf' & Hp').
  { unfold DASHES. set_solver. } { rewrite Hp. unfold render_end. by rewrite <-!app_assoc. }
  exists pl'. unfold read_boundary. rewrite Hr. cbn [mbind run_bind]. rewrite <-!app_assoc.
  change (DASHES ++ boundary ++ DASHES ++ CRLF) with (render_end boundary).
  by rewrite boundary_line_end.
Qed.

Lemma read_headers_part boundary p more (pl : PH) :
  ph_wf pl -> part_ok boundary p -> pending pl = part_block p ++ more ->
  exists pl', read_headers pl = Ret (Ready (part_headers p), pl') /\
    ph_wf pl' /\ pending pl' = more.
Proof.
  intros Hwf (Hf & (hdrs & Hp & Hc) & _) Hpend.
  destruct (read_until_pending [13; 10; 13; 10] pl (length (part_block p)) Hwf) as
    (pl' & Hr & Hwf' & Hp').
  { done. } { rewrite Hpend. by apply find_end_app. }
  rewrite Hpend in Hr, Hp'. rewrite take_app_length in Hr. rewrite drop_app_length in Hp'.
  exists pl'. unfold read_headers. rewrite Hr. cbn [mbind run_bind]. by rewrite Hp, Hc.
Qed.

(** ** The stream of parts *)

Lemma field_reads_lift (f : Field (H := H) (Mime := Mime)) fi pl d fi' pl' (w : World) :
  inner_reads fi pl d fi' pl' -> w_payload w = pl ->
  w_cells w !! fd_inner f = Some (FieldCell fi) -> fd_safety f = w_count w ->
  field_reads f w d (set_cell (fd_inner f) (FieldCell fi') (set_payload pl' w)).
Proof.
  intros Hr. revert w. induction Hr as [fi pl fi' pl' Hp|fi pl b fi1 pl1 d fi' pl' Hp Hr IH];
    intros w <- Hc Hs.
  - constructor. unfold Field_poll, field_cell_poll, get_field, safety_current.
    rewrite Hs, Z.eqb_refl, Hc. simpl. by rewrite Hp.
  - eapply fld_chunk.
    { unfold Field_poll, field_cell_poll, get_field, safety_current.
      rewrite Hs, Z.eqb_refl, Hc. cbn [mbind run_bind]. rewrite Hp. reflexivity. }
    set (w1 := set_cell (fd_inner f) (FieldCell fi1) (set_payload pl1 w)).
    replace (set_cell (fd_inner f) (FieldCell fi') (set_payload pl' w))
      with (set_cell (fd_inner f) (FieldCell fi') (set_payload pl' w1)).
    + apply IH; [done| |done]. simpl. apply list_lookup_insert_eq. by eapply lookup_lt_Some.
    + unfold w1, set_cell, set_payload. simpl. by rewrite list_insert_insert_eq.
Qed.

Definition released (cells : list Cell) (it : InnerMultipartItem) : Prop :=
  match it with
  | Item_None => True
  | Item_Field k => exists f, cells !! k = Some (FieldCell f) /\ if_payload f = false
  | Item_Multipart _ => False
  end.

(** Between two parts: the bytes still to come, and the last field read to its end. *)
Record at_rest (boundary : bytes) (st : InnerState) (rest : bytes) (w : World) : Prop := {
  ar_wf : ph_wf (w_payload w);
  ar_pending : pending (w_payload w) = rest;
  ar_count : w_count w = 1;
  ar_root : exists it, w_cells w !! 0%nat = Some (MultipartCell (mkInnerMultipart boundary st it)) /\
              released (w_cells w) it;
}.

Definition root : Multipart := mkMultipart 1 None (Some 0%nat).

(** The root stream with nothing in flight. *)
Definition idle_root (boundary : bytes) (st : InnerState) : Cell :=
  MultipartCell (mkInnerMultipart boundary st Item_None).

(** A poll at rest goes on to the next part. *)
Lemma poll_at_rest boundary st rest w :
  at_rest boundary st rest w -> st <> Eof ->
  exists w', at_rest boundary st rest w' /\ w_cells w' !! 0%nat = Some (idle_root boundary st) /\
    Multipart_poll root w = '(r, w) ← im_next 0 1 w'; Ret (r, root, w).
Proof.
  intros [Hwf Hp Hc (it & Hit & Hrel)] Hst.
  assert (0 < length (w_cells w))%nat as Hlen by (by eapply lookup_lt_Some).
  assert (Multipart_poll root w =
    '(r, w) ← InnerMultipart_poll (poll_turns w) 0 1 w; Ret (r, root, w)) as ->.
  { unfold Multipart_poll, safety_current. simpl. by rewrite Hc. }
  assert (exists n, poll_turns w = Datatypes.S (Datatypes.S n)) as [n ->]
    by (unfold poll_turns; eexists; rewrite Nat.add_comm; reflexivity).
  cbn [InnerMultipart_poll release_loop]. unfold get_multipart, safety_current. rewrite Hit.
  cbn [mbind run_bind im_state im_item]. rewrite bool_decide_eq_false_2, Hc by done. simpl.
  destruct it as [|k|k]; [| |done].
  - exists w. split; [|done]. split; [done..|]. eauto.
  - destruct Hrel as (f & Hk & Hf).
    assert (field_cell_poll k 1 w = Ret (Ready None, set_cell k (FieldCell f) (set_payload (w_payload w) w)))
      as -> by (unfold field_cell_poll, get_field; rewrite Hk; simpl; unfold InnerField_poll; by rewrite Hf).
    assert (set_cell k (FieldCell f) (set_payload (w_payload w) w) = w) as ->.
    { destruct w. unfold set_cell, set_payload. simpl in *. by rewrite list_insert_id. }
    simpl. eexists. split; [|split; [|reflexivity]].
    + split; [done..|]. exists Item_None. split; [|done]. simpl. by apply list_lookup_insert_eq.
    + simpl. by apply list_lookup_insert_eq.
Qed.

(** What comes before the boundary line, by the state of the stream. *)
Definition lead_ok (boundary : bytes) (st : InnerState) (lines : list bytes) : Prop :=
  match st with
  | FirstBoundary => preamble_ok boundary lines
  | Boundary => lines = []
  | _ => False
  end.

Lemma im_headers_part boundary st lines p more (pl : PH) :
  ph_wf pl -> 10 ∉ boundary -> lead_ok boundary st lines -> part_ok boundary p ->
  pending pl = render_preamble lines ++ next_line boundary ++ part_block p ++ more ->
  exists pl', im_headers (mkInnerMultipart boundary st Item_None) pl =
      Ret (Ready (Some (part_headers p)), mkInnerMultipart boundary Boundary Item_None, pl') /\
    ph_wf pl' /\ pending pl' = more.
Proof.
  intros Hwf Hb Hlead Hok Hp.
  assert (exists pl1, match st with
    | FirstBoundary => skip_until_boundary pl boundary
    | _ => read_boundary pl boundary end = Ret (Ready false, pl1) /\
    ph_wf pl1 /\ pending pl1 = part_block p ++ more) as (pl1 & Hr & Hwf1 & Hp1).
  { destruct st; try done; [by eapply skip_until_first|]. simpl in Hlead. subst lines.
    by apply read_boundary_next. }
  destruct (read_headers_part boundary p more pl1 Hwf1 Hok Hp1) as (pl2 & Hr2 & Hwf2 & Hp2).
  exists pl2. split; [|done]. unfold im_headers. cbn [im_state im_boundary].
  destruct st; try done; rewrite Hr; cbn [mbind run_bind]; by rewrite Hr2.
Qed.

Lemma next_part boundary st lines p more (w : World) :
  10 ∉ boundary -> lead_ok boundary st lines -> part_ok boundary p ->
  at_rest boundary st (render_preamble lines ++ render_part boundary p ++ more) w ->
  exists f fi w1,
    Multipart_poll root w = Ret (Ready (Some (MI_Field f)), root, w1) /\
    fd_headers f = part_headers p /\ InnerField_new boundary (part_headers p) = Ok fi /\
    fd_safety f = 2 /\ (0 < fd_inner f)%nat /\ w_cells w1 !! fd_inner f = Some (FieldCell fi) /\
    w_cells w1 !! 0%nat = Some (MultipartCell (mkInnerMultipart boundary Boundary (Item_Field (fd_inner f)))) /\
    w_count w1 = 2 /\ ph_wf (w_payload w1) /\
    pending (w_payload w1) = part_data p ++ CRLF ++ more.
Proof.
  intros Hb Hlead Hok Hrest.
  destruct (poll_at_rest _ _ _ _ Hrest) as (w' & [Hwf Hp Hc _] & Hroot & ->).
  { by destruct st. }
  assert (0 < length (w_cells w'))%nat as Hlen by (by eapply lookup_lt_Some).
  destruct (im_headers_part boundary st lines p (part_data p ++ CRLF ++ more) (w_payload w'))
    as (pl & Hh & Hwf' & Hp'); [done..| |].
  { rewrite Hp. unfold render_part, next_line. by rewrite <-!app_assoc. }
  unfold im_next, get_multipart, safety_current. rewrite Hroot. cbn [mbind run_bind idle_root].
  rewrite Hc. cbn [Z.eqb Pos.eqb negb]. rewrite Hh. cbn [mbind run_bind].
  destruct Hok as (_ & _ & Hmime & Hf).
  rewrite bool_decide_eq_false_2 by done. cbn [im_boundary].
  destruct (InnerField_new boundary (part_headers p)) as [fi|e] eqn:Hfi; [|done].
  eexists _, fi, _. split; [reflexivity|]. cbn. rewrite length_insert.
  split_and!; try done; try lia.
  - rewrite list_lookup_insert_ne by lia. rewrite lookup_app_r by (rewrite length_insert; lia).
    by rewrite length_insert, Nat.sub_diag.
  - rewrite list_lookup_insert_eq; [done|]. rewrite length_app, length_insert. lia.
Qed.

Lemma at_end boundary more (w : World) :
  10 ∉ boundary -> at_rest boundary Boundary (render_end boundary ++ more) w ->
  exists w', Multipart_poll (H := H) root w = Ret (Ready None, root, w').
Proof.
  intros Hb Hrest.
  destruct (poll_at_rest _ _ _ _ Hrest) as (w' & [Hwf Hp Hc _] & Hroot & ->); [done|].
  destruct (read_boundary_end boundary more (w_payload w') Hwf Hb Hp) as (pl & Hr & _ & _).
  unfold im_next, get_multipart, safety_current. rewrite Hroot. cbn [mbind run_bind idle_root].
  rewrite Hc. cbn [Z.eqb Pos.eqb negb]. unfold im_headers. cbn [im_state im_boundary].
  rewrite Hr. simpl. eauto.
Qed.

Lemma render_parts_head boundary ps more :
  exists tail, render_parts boundary ps ++ more = DASHES ++ boundary ++ tail.
Proof.
  unfold render_parts, render_end. destruct ps as [|p ps]; simpl;
    [|unfold render_part]; rewrite <-?app_assoc; eauto.
Qed.

Lemma parts_read boundary more ps : 10 ∉ boundary -> Forall (part_ok boundary) ps ->
  forall st lines (w : World), lead_ok boundary st lines -> (ps = [] -> st = Boundary) ->
  at_rest boundary st (render_preamble lines ++ render_parts boundary ps ++ more) w ->
  exists w', stream_reads root w ((fun p => (part_headers p, part_data p)) <$> ps) w'.
Proof.
  intros Hb Hps. induction Hps as [|p ps Hok Hps IH]; intros st lines w Hlead Hst Hrest.
  - rewrite (Hst eq_refl) in *. simpl in Hlead. subst lines.
    destruct (at_end boundary more w Hb Hrest) as [w' Hw']. exists w'. by constructor.
  - assert (render_parts boundary (p :: ps) ++ more =
      render_part boundary p ++ render_parts boundary ps ++ more) as Hcons
      by (unfold render_parts; simpl; by rewrite <-!app_assoc).
    rewrite Hcons in Hrest.
    destruct (next_part _ _ _ _ _ _ Hb Hlead Hok Hrest) as
      (f & fi & w1 & Hpoll & Hh & Hfi & Hs & Hpos & Hcell & Hroot & Hcnt & Hwf & Hp).
    destruct (render_parts_head boundary ps more) as [tail Htail].
    destruct (part_field_reads boundary p fi tail (w_payload w1) Hwf Hok Hfi) as
      (fi' & pl' & Hreads & Hend & Hwf' & Hp').
    { rewrite Hp, Htail. unfold delimiter. by rewrite <-!app_assoc. }
    set (w2 := set_cell (fd_inner f) (FieldCell fi') (set_payload pl' w1)).
    set (w3 := mkWorld (w_payload w2) 1 (w_cells w2)).
    destruct (IH Boundary [] w3) as [w4 Hrec]; [done..| |].
    { simpl. rewrite Htail. split; [done..|]. exists (Item_Field (fd_inner f)). simpl. split.
      - rewrite list_lookup_insert_ne by lia. done.
      - exists fi'. split; [|done]. apply list_lookup_insert_eq. by eapply lookup_lt_Some. }
    exists w4. simpl. rewrite <-Hh. eapply str_field; [exact Hpoll| | |exact Hrec].
    + eapply field_reads_lift; [exact Hreads|done..|]. by rewrite Hcnt.
    + unfold item_drop, safety_drop. simpl. rewrite Hs, Hcnt. done.
Qed.

(** C10. A multipart body is read back as its parts: for every stream that delivers
    a rendered body, cut into chunks in any way, an application that takes the parts
    in turn gets the headers and the contents of each, in order, then the end of the
    stream.  A part may hold any contents when it announces its length, and contents
    without a carriage return close to their end otherwise; lines before the first
    boundary and bytes behind the last one do not matter. *)
Theorem multipart_delivered (boundary : bytes) (lines : list bytes) (ps : list Part)
    (epilogue : bytes) (stream : S) :
  10 ∉ boundary -> preamble_ok boundary lines -> ps <> [] -> Forall (part_ok boundary) ps ->
  deliverable stream = render_preamble lines ++ render_parts boundary ps ++ epilogue ->
  let '(mp, w) := Multipart_new (Ok boundary) stream in
  exists w', stream_reads mp w ((fun p => (part_headers p, part_data p)) <$> ps) w'.
Proof.
  intros Hb Hlines Hne Hps Hd. simpl.
  apply (parts_read boundary epilogue ps Hb Hps FirstBoundary lines); [done..|].
  split; [done|done|done|]. by exists Item_None.
Qed.

End Delivery.

Section Demo.
#[local] Existing Instances ascii_conv line_blocks mini_mime.

Definition demo_part : Part := {|
  part_block := b#"a: b" ++ CRLF ++ CRLF;
  part_headers := [(b#"a", b#"b")];
  part_data := b#"data";
|}.

Lemma multipart_delivered_witness :
  let '(mp, w) := Multipart_new (Ok (b#"bound")) demo_stream in
  exists w', stream_reads mp w [([(b#"a", b#"b")], b#"data")] w'.
Proof.
  apply (multipart_delivered (b#"bound") [] [demo_part] [] demo_stream).
  - by apply (bool_decide_unpack _).
  - constructor.
  - discriminate.
  - constructor; [|done]. split; [reflexivity|]. split; [by eexists|]. split; [discriminate|].
    apply so_plain. by apply (bool_decide_unpack _).
  - reflexivity.
Defined.

(** A part without [Content-Length] whose contents end with a line break. *)
Definition text_stream : script :=
  [Ready (Some (b#"--bound" ++ CRLF ++ b#"a: b" ++ CRLF ++ CRLF ++ b#"text" ++ CRLF ++ CRLF ++
                b#"--bound--" ++ CRLF)); Ready None].

(** The answers to [n] polls of the first field of a stream. *)
Fixpoint field_polls (n : nat) (f : Field (H := list (bytes * bytes)) (Mime := bytes * option bytes))
    (w : World (S := script)) : list (run (poll (option bytes) MultipartError)) :=
  match n with
  | O => []
  | S n => match Field_poll f w with
           | Ret (r, w) => Ret r :: field_polls n f w
           | Panic => [Panic]
           | Timeout => [Timeout]
           end
  end.
Definition first_field_polls (n : nat) (boundary : bytes) (s : script)
  : list (run (poll (option bytes) MultipartError)) :=
  let '(mp, w) := Multipart_new (Ok boundary) s in
  match Multipart_poll mp w with
  | Ret (Ready (Some (MI_Field f)), _, w) => field_polls n f w
  | _ => []
  end.

(** A part whose contents end with a line break, such as an uploaded text file,
    is not read back when it does not announce its length: the carriage return makes
    [read_stream] hand out a block as long as a delimiter, which reaches into the
    delimiter itself; the rest of the delimiter is not recognized, and the field ends
    with an error instead of its last byte. *)
Theorem delimiter_swallowed :
  first_field_polls 4 (b#"bound") text_stream =
  [Ret (Ready (Some (b#"text"))); Ret (Ready (Some (CRLF ++ CRLF ++ b#"--bou")));
   Ret (Ready (Some (b#"nd--"))); Ret (PErr ME_Incomplete)].
Proof. vm_compute. reflexivity. Qed.

(** A body without parts ends with an error: the closing line is compared with the
    boundary without its leading dashes. *)
Example empty_body_incomplete :
  let '(mp, w) := Multipart_new (Ok (b#"bound"))
    ([Ready (Some (b#"--bound--" ++ CRLF)); Ready None] : script) in
  exists w', Multipart_poll (H := list (bytes * bytes)) mp w = Ret (PErr ME_Incomplete, mp, w').
Proof. eexists. reflexivity. Qed.

End Demo.
