(* ===== verification/WsMask.v ===== *)
(** * WebSocket masking (src/src/ws/mask.rs)

    [apply_mask_fast32] XORs the 4-byte mask over a buffer through unaligned,
    32-bit and 64-bit stores.  The buffer is its contents with its address; the
    byte order of the target, the address and the uninitialized word of
    [xor_mem] are parameters, and the result is proved to be that of the bytewise
    loop for all of them. *)
From S2P Require Import Prelude Words.
Open Scope Z_scope.

(** The safe bytewise loop, [*byte ^= mask[i & 3]]. *)
Definition apply_mask_fallback (buf mask : bytes) : bytes :=
  imap (fun i byte => Z.lxor byte (nth (Nat.land i 3) mask 0)) buf.

Section Fast.
Context (big : bool).        (* cfg!(target_endian = "big") *)
Context (uninit : Z).        (* mem::uninitialized::<u32>() *)

(** Stores [bs] at offset [ptr] of the buffer. *)
Definition store (buf : bytes) (ptr : Z) (bs : bytes) : bytes :=
  takeZ ptr buf ++ bs ++ dropZ (ptr + lenZ bs) buf.

(** [*(ptr as *mut uN) ^= mask] for a word of [n] bytes. *)
Definition xor_word (n : nat) (buf : bytes) (ptr mask : Z) : bytes :=
  let old := word_value big (take n (dropZ ptr buf)) in
  store buf ptr (word_bytes big n (Z.lxor old mask)).

Definition xor_mem (buf : bytes) (ptr mask len : Z) : bytes :=
  let b := word_value big (takeZ len (dropZ ptr buf) ++ dropZ len (word_bytes big 4 uninit)) in
  let b := Z.lxor b mask in
  store buf ptr (takeZ len (word_bytes big 4 b)).

Record mask_state : Type := mkMask { mk_buf : bytes; mk_ptr : Z; mk_len : Z }.

(** [while len >= n { *(ptr as *mut uN) ^= mask; ptr += n; len -= n }]. *)
Fixpoint xor_words (fuel : nat) (n : nat) (mask : Z) (s : mask_state) : mask_state :=
  match fuel with
  | O => s
  | S fuel =>
      if Z.of_nat n <=? mk_len s then
        xor_words fuel n mask
          (mkMask (xor_word n (mk_buf s) (mk_ptr s) mask)
                  (mk_ptr s + Z.of_nat n) (mk_len s - Z.of_nat n))
      else s
  end.

(** The properly aligned middle of the data and the possible last block. *)
Definition apply_mask_aligned (fuel : nat) (mask_u32 : Z) (s : mask_state) : bytes :=
  let s :=
    if 8 <=? mk_len s then
      let mask_u64 := Z.lor (Z.shiftl mask_u32 32) mask_u32 in
      xor_words fuel 8 mask_u64 s
    else s in
  let s := xor_words fuel 4 mask_u32 s in
  if 0 <? mk_len s then xor_mem (mk_buf s) (mk_ptr s) mask_u32 (mk_len s)
  else mk_buf s.

Definition apply_mask_fast32 (addr : Z) (buf : bytes) (mask_u32 : Z) : bytes :=
  let ptr := 0 in
  let len := lenZ buf in
  (* possible first unaligned block *)
  let head := Z.min len (Z.land (8 - Z.land addr 7) 3) in
  let '(s, mask_u32) :=
    if 0 <? head then
      let n := if 4 <? head then head - 4 else head in
      let '(s, mask_u32) :=
        if 0 <? n then
          (mkMask (xor_mem buf ptr mask_u32 n) (ptr + head) (len - n),
           if big then u32_rotate_left mask_u32 (8 * n)
           else u32_rotate_right mask_u32 (8 * n))
        else (mkMask buf ptr len, mask_u32) in
      if 4 <? head then
        (mkMask (xor_word 4 (mk_buf s) (mk_ptr s) mask_u32) (mk_ptr s + 4) (mk_len s - 4),
         mask_u32)
      else (s, mask_u32)
    else (mkMask buf ptr len, mask_u32) in
  apply_mask_aligned (length buf) mask_u32 s.

(** [apply_mask]. *)
Definition apply_mask (addr : Z) (buf : bytes) (mask : Z) : bytes :=
  apply_mask_fast32 addr buf mask.

(** ** Lemmas *)

Lemma nth_rot (m : bytes) (n i : nat) :
  length m = 4%nat -> (n < 4)%nat ->
  nth (Nat.land i 3) (rot n m) 0 = nth (Nat.land (n + i) 3) m 0.
Proof.
  intros Hm Hn. change 3%nat with (Nat.ones 2). rewrite !Nat.land_ones.
  change (2 ^ 2)%nat with 4%nat.
  destruct m as [|m0 [|m1 [|m2 [|m3 [|]]]]]; try discriminate Hm.
  assert (i mod 4 < 4)%nat as Hi by (by apply Nat.mod_upper_bound).
  rewrite <-(Nat.Div0.add_mod_idemp_r n i 4).
  destruct (i mod 4)%nat as [|[|[|[|]]]]; try lia;
    destruct n as [|[|[|[|]]]]; try lia; reflexivity.
Qed.

Lemma fallback_app (a b m : bytes) (n : nat) :
  length m = 4%nat -> (length a mod 4)%nat = n ->
  apply_mask_fallback (a ++ b) m =
  apply_mask_fallback a m ++ apply_mask_fallback b (rot n m).
Proof.
  intros Hm <-. unfold apply_mask_fallback. rewrite imap_app. f_equal.
  apply imap_ext. intros i x _. unfold compose. f_equal.
  rewrite nth_rot by (done || by apply Nat.mod_upper_bound). f_equal.
  change 3%nat with (Nat.ones 2). rewrite !Nat.land_ones. change (2 ^ 2)%nat with 4%nat.
  by rewrite Nat.Div0.add_mod_idemp_l.
Qed.

Lemma fallback_short (a m : bytes) :
  length m = 4%nat -> (length a <= 4)%nat -> apply_mask_fallback a m = zip_with Z.lxor a m.
Proof.
  intros Hm Ha. destruct m as [|m0 [|m1 [|m2 [|m3 [|]]]]]; simplify_eq/=.
  destruct a as [|a0 [|a1 [|a2 [|a3 [|]]]]]; simpl in *; try lia; reflexivity.
Qed.

Lemma length_fallback a m : length (apply_mask_fallback a m) = length a.
Proof. apply length_imap. Qed.

Lemma fallback_word (a b m : bytes) :
  length m = 4%nat -> length a = 4%nat ->
  apply_mask_fallback (a ++ b) m = zip_with Z.lxor a m ++ apply_mask_fallback b m.
Proof.
  intros Hm Ha. rewrite (fallback_app a b m 0) by (done || by rewrite Ha).
  rewrite fallback_short by (done || lia). f_equal. f_equal. apply app_nil_r.
Qed.
Lemma store_app (a c c' d : bytes) :
  length c = length c' -> store (a ++ c ++ d) (lenZ a) c' = a ++ c' ++ d.
Proof.
  intros Hc. unfold store. rewrite takeZ_app_l, takeZ_all by lia.
  rewrite dropZ_app_r by lenZ_lia. rewrite dropZ_app_r by (unfold lenZ; lia).
  rewrite dropZ_0 by (unfold lenZ; lia). done.
Qed.

Lemma xor_word_app (n : nat) (a c d : bytes) mask :
  is_bytes c -> length c = n ->
  xor_word n (a ++ c ++ d) (lenZ a) mask = a ++ zip_with Z.lxor c (word_bytes big n mask) ++ d.
Proof.
  intros Hc Hn. unfold xor_word.
  rewrite dropZ_app_r, dropZ_0, take_app_le, take_ge by lia.
  rewrite word_bytes_lxor by done. apply store_app.
  rewrite length_zip_with, length_word_bytes. lia.
Qed.

Lemma xor_mem_app (a c d : bytes) mask :
  is_bytes c -> (length c <= 4)%nat ->
  xor_mem (a ++ c ++ d) (lenZ a) mask (lenZ c) =
  a ++ zip_with Z.lxor c (word_bytes big 4 mask) ++ d.
Proof.
  intros Hc Hn. unfold xor_mem.
  rewrite (dropZ_app_r (lenZ a)), (dropZ_0 (_ - _)), (takeZ_app_l (lenZ c)), (takeZ_all (lenZ c) c)
    by lia.
  set (junk := dropZ (lenZ c) (word_bytes big 4 uninit)).
  assert (length (c ++ junk) = 4%nat) as Hl.
  { unfold junk, dropZ. rewrite length_app, length_drop, length_word_bytes. unfold lenZ. lia. }
  rewrite word_bytes_lxor; [|apply Forall_app; split; [done|apply Forall_drop, word_bytes_ok]|done].
  assert (takeZ (lenZ c) (zip_with Z.lxor (c ++ junk) (word_bytes big 4 mask)) =
          zip_with Z.lxor c (word_bytes big 4 mask)) as ->.
  { unfold takeZ, lenZ. rewrite Nat2Z.id, zip_with_take.
    rewrite take_app_le, take_ge by lia.
    by rewrite zip_with_take_r by lia. }
  apply store_app. rewrite length_zip_with, length_word_bytes. lia.
Qed.

(** A store loop over a buffer [a ++ b] with [ptr] at [b]: whole words of [b] are
    masked, and fewer than [n] bytes are left. *)
Lemma xor_words_ok (n k : nat) mask (m : bytes) fuel (a b : bytes) :
  length m = 4%nat -> n = (4 * k)%nat -> (0 < k <= 2)%nat ->
  word_bytes big n mask = concat (replicate k m) ->
  is_bytes b -> (length b <= fuel)%nat ->
  exists c d, b = c ++ d /\ (length d < n)%nat /\ (4 | lenZ c) /\
    xor_words fuel n mask (mkMask (a ++ b) (lenZ a) (lenZ b)) =
      mkMask (a ++ apply_mask_fallback c m ++ d) (lenZ (a ++ apply_mask_fallback c m)) (lenZ d).
Proof.
  intros Hm Hn Hk Hw. revert a b. induction fuel as [|fuel IH]; intros a b Hb Hf; simpl.
  { exists [], b. destruct b; simpl in *; [|lia]. split_and!; [done|lia|by exists 0|].
    by rewrite !app_nil_r. }
  destruct (Z.leb_spec (Z.of_nat n) (lenZ b)) as [Hle|Hlt].
  2: { exists [], b. split_and!; [done|unfold lenZ in *; lia|by exists 0|].
       simpl. by rewrite app_nil_r. }
  rewrite <-(take_drop n b) in Hb |- *.
  set (w := take n b) in *. set (b' := drop n b) in *.
  assert (length w = n) as Hwl by (unfold w; rewrite length_take; unfold lenZ in *; lia).
  apply Forall_app in Hb as [Hbw Hb'].
  rewrite xor_word_app by done. rewrite Hw.
  assert (zip_with Z.lxor w (concat (replicate k m)) = apply_mask_fallback w m) as Hz.
  { destruct k as [|[|[|]]]; try lia; simpl; rewrite app_nil_r.
    - rewrite fallback_short by (done || lia). done.
    - assert (w = take 4 w ++ drop 4 w) as Hsp by (by rewrite take_drop).
      rewrite Hsp. rewrite zip_with_app by (rewrite length_take; lia).
      rewrite fallback_word, (fallback_short (drop 4 w)) by
        (rewrite ?length_take, ?length_drop; lia). done. }
  rewrite Hz. destruct (IH (a ++ apply_mask_fallback w m) b') as (c & d & Hcd & Hd & Hdiv & He).
  { done. }
  { unfold b'. rewrite length_drop. lia. }
  exists (w ++ c), d. split_and!.
  - by rewrite <-app_assoc, <-Hcd.
  - done.
  - rewrite lenZ_app. apply Z.divide_add_r; [|done]. exists (Z.of_nat k). unfold lenZ. lia.
  - rewrite app_assoc. replace (lenZ a + Z.of_nat n) with (lenZ (a ++ apply_mask_fallback w m))
      by (rewrite lenZ_app; unfold lenZ; rewrite length_fallback; lia).
    replace (lenZ (w ++ b') - Z.of_nat n) with (lenZ b') by (rewrite lenZ_app; unfold lenZ; lia).
    rewrite He. rewrite (fallback_app w c m 0); [|done|by rewrite Hwl, Hn; destruct k as [|[|[|]]]; try lia].
    replace (rot 0 m) with m by (unfold rot; simpl; by rewrite app_nil_r).
    by rewrite <-!app_assoc.
Qed.

Lemma apply_mask_aligned_ok fuel w (a b : bytes) :
  is_u32 w -> is_bytes b -> (length b <= fuel)%nat ->
  apply_mask_aligned fuel w (mkMask (a ++ b) (lenZ a) (lenZ b)) =
  a ++ apply_mask_fallback b (word_bytes big 4 w).
Proof.
  intros Hw Hb Hf. set (m := word_bytes big 4 w).
  assert (length m = 4%nat) as Hm by apply length_word_bytes.
  assert (H4 : forall a b, is_bytes b -> (length b <= fuel)%nat ->
    let s := xor_words fuel 4 w (mkMask (a ++ b) (lenZ a) (lenZ b)) in
    (if 0 <? mk_len s then xor_mem (mk_buf s) (mk_ptr s) w (mk_len s) else mk_buf s) =
    a ++ apply_mask_fallback b m).
  { clear a b Hb Hf. intros a b Hb Hf.
    destruct (xor_words_ok 4 1 w m fuel a b) as (c & d & -> & Hd & [q Hdiv] & ->);
      [done|lia|lia|by rewrite <-(app_nil_r (word_bytes _ _ _))|done|done|].
    apply Forall_app in Hb as [_ Hbd]. simpl.
    rewrite (fallback_app c d m 0);
      [|done|by unfold lenZ in Hdiv; rewrite (Nat.Lcm0.mod_divide _ 4); exists (Z.to_nat q); lia].
    replace (rot 0 m) with m by (unfold rot; simpl; by rewrite app_nil_r).
    rewrite (fallback_short d) by (done || lia). rewrite app_assoc.
    destruct (Z.ltb_spec 0 (lenZ d)).
    - rewrite <-(app_nil_r d) at 1. rewrite xor_mem_app by (done || lia).
      by rewrite app_nil_r, <-app_assoc.
    - rewrite (lenZ_nil_inv d) by done. simpl. by rewrite !app_nil_r. }
  unfold apply_mask_aligned. cbn [mk_len].
  destruct (Z.leb_spec 8 (lenZ b)) as [H8|H8]; [|by apply H4].
  destruct (xor_words_ok 8 2 (Z.lor (Z.shiftl w 32) w) m fuel a b)
    as (c & d & -> & Hd & [q Hdiv] & ->); [done|lia|lia| |done|done|].
  { rewrite word_bytes_double by done. simpl. by rewrite app_nil_r. }
  apply Forall_app in Hb as [_ Hbd]. rewrite length_app in Hf.
  rewrite app_assoc. rewrite H4 by (done || lia).
  rewrite (fallback_app c d m 0);
    [|done|by unfold lenZ in Hdiv; rewrite (Nat.Lcm0.mod_divide _ 4); exists (Z.to_nat q); lia].
  replace (rot 0 m) with m by (unfold rot; simpl; by rewrite app_nil_r).
  by rewrite <-app_assoc.
Qed.

Lemma apply_mask_fast32_eq (addr : Z) (buf : bytes) (mask : Z) :
  is_bytes buf -> is_u32 mask ->
  apply_mask_fast32 addr buf mask = apply_mask_fallback buf (word_bytes big 4 mask).
Proof.
  intros Hbuf Hmask. unfold apply_mask_fast32.
  set (head := Z.min (lenZ buf) (Z.land (8 - Z.land addr 7) 3)).
  assert (0 <= head <= 3 /\ head <= lenZ buf) as [Hh Hl].
  { unfold head. assert (0 <= Z.land (8 - Z.land addr 7) 3 <= 3); [|lenZ_lia].
    assert (Z.land (8 - Z.land addr 7) 3 = (8 - Z.land addr 7) mod 4) as ->
      by (by rewrite <-(Z.land_ones _ 2)).
    pose proof (Z.mod_pos_bound (8 - Z.land addr 7) 4). lia. }
  rewrite (proj2 (Z.ltb_ge 4 head)) by lia.
  destruct (Z.ltb_spec 0 head) as [Hpos|Hz]; [|by apply (apply_mask_aligned_ok _ _ [] buf)].
  rewrite <-(takeZ_dropZ head buf) in Hbuf.
  assert (lenZ (takeZ head buf) = head) as Ht by (apply lenZ_takeZ; lia).
  set (a := takeZ head buf) in *. set (b := dropZ head buf) in *.
  assert (buf = a ++ b) as Hab by (symmetry; apply takeZ_dropZ).
  apply Forall_app in Hbuf as [Ha Hb].
  assert (xor_mem buf 0 mask head = apply_mask_fallback a (word_bytes big 4 mask) ++ b) as ->.
  { rewrite Hab, <-Ht. rewrite (xor_mem_app [] a b) by (done || unfold lenZ in *; lia).
    by rewrite fallback_short by (apply length_word_bytes || unfold lenZ in *; lia). }
  set (n := Z.to_nat head). assert (head = Z.of_nat n) as Hn by lia.
  rewrite Z.add_0_l, Hn.
  replace (lenZ buf - Z.of_nat n) with (lenZ b) by (rewrite Hab; lenZ_lia).
  replace (mkMask (apply_mask_fallback a (word_bytes big 4 mask) ++ b) (Z.of_nat n) (lenZ b))
    with (mkMask (apply_mask_fallback a (word_bytes big 4 mask) ++ b)
            (lenZ (apply_mask_fallback a (word_bytes big 4 mask))) (lenZ b))
    by (f_equal; unfold lenZ in *; rewrite length_fallback; lia).
  assert (is_u32 (if big then u32_rotate_left mask (8 * Z.of_nat n)
                  else u32_rotate_right mask (8 * Z.of_nat n))) as Hu.
  { destruct big; [apply u32_rotate_left_u32|apply u32_rotate_right_u32]; done || lia. }
  rewrite apply_mask_aligned_ok; [|done|done|rewrite Hab, length_app; lia].
  rewrite word_bytes_rotate by (done || lia). rewrite Hab.
  symmetry. apply fallback_app; [apply length_word_bytes|].
  rewrite Nat.mod_small; unfold lenZ in *; lia.
Qed.
End Fast.

Lemma lxor_is_byte a b : is_byte a -> is_byte b -> is_byte (Z.lxor a b).
Proof.
  intros Ha Hb. apply (bits_bound _ 8); [lia|]. intros i Hi.
  rewrite Z.lxor_spec, !is_byte_testbit by done. done.
Qed.

Lemma fallback_is_bytes buf m : is_bytes buf -> is_bytes m -> is_bytes (apply_mask_fallback buf m).
Proof.
  intros Hb Hm. apply Forall_lookup. intros i x Hx. unfold apply_mask_fallback in Hx.
  rewrite list_lookup_imap in Hx. apply fmap_Some in Hx as (y & Hy & ->).
  rewrite Forall_lookup in Hb. apply lxor_is_byte; [by eapply Hb|].
  destruct (nth_in_or_default (Nat.land i 3) m 0) as [Hin| ->]; [|unfold is_byte; lia].
  rewrite Forall_forall in Hm. by apply Hm, list_elem_of_In.
Qed.

(** Masking twice with the same mask is the identity. *)
Lemma fallback_involutive (buf m : bytes) :
  apply_mask_fallback (apply_mask_fallback buf m) m = buf.
Proof.
  unfold apply_mask_fallback. apply list_eq. intros i. rewrite !list_lookup_imap.
  destruct (buf !! i) as [x|]; simpl; [|done].
  by rewrite Z.lxor_assoc, Z.lxor_nilpotent, Z.lxor_0_r.
Qed.

(** The word-wise masking routine is the bytewise XOR with the repeated mask:
    for every buffer address, byte order and content of uninitialized memory,
    [apply_mask] on a buffer gives what the safe loop gives; masking again, at any
    other address, restores the buffer. *)
Theorem apply_mask_correct (big : bool) (uninit uninit' addr addr' : Z) (buf : bytes) (mask : Z) :
  is_bytes buf -> is_u32 mask ->
  apply_mask big uninit addr buf mask = apply_mask_fallback buf (word_bytes big 4 mask) /\
  apply_mask big uninit' addr' (apply_mask big uninit addr buf mask) mask = buf.
Proof.
  intros Hb Hm. unfold apply_mask. rewrite (apply_mask_fast32_eq big uninit) by done.
  split; [done|].
  rewrite apply_mask_fast32_eq; [apply fallback_involutive| |done].
  apply fallback_is_bytes; [done|apply word_bytes_ok].
Qed.

Definition example_mask_buf : bytes := [0; 1; 2; 3; 4; 5; 6; 7; 8; 9; 10; 11; 12; 13; 14; 15; 16].

Lemma apply_mask_correct_witness :
  apply_mask false 77 5 example_mask_buf 0x0d0c0b0a =
  apply_mask_fallback example_mask_buf [0x0a; 0x0b; 0x0c; 0x0d].
Proof.
  refine (proj1 (apply_mask_correct false 77 0 5 3 example_mask_buf 0x0d0c0b0a _ _)).
  - unfold example_mask_buf. repeat constructor; lia || (vm_compute; discriminate).
  - vm_compute. split; [discriminate|reflexivity].
Defined.
