(* ===== verification/WsProto.v ===== *)
(** * WebSocket protocol codes (src/src/ws/proto.rs, error types of src/src/ws/mod.rs)

    Operation codes, close codes and their wire values, the protocol and
    handshake errors, and the accept key of the opening handshake. *)
From S2P Require Import Prelude Words Errors.
Open Scope Z_scope.

Inductive OpCode : Type :=
| Op_Continue | Op_Text | Op_Binary | Op_Close | Op_Ping | Op_Pong | Op_Bad.

#[export] Instance OpCode_eq_dec : EqDecision OpCode.
Proof. solve_decision. Defined.

(** [Display for OpCode]. *)
Definition OpCode_fmt (op : OpCode) : string :=
  match op with
  | Op_Continue => "CONTINUE"
  | Op_Text => "TEXT"
  | Op_Binary => "BINARY"
  | Op_Close => "CLOSE"
  | Op_Ping => "PING"
  | Op_Pong => "PONG"
  | Op_Bad => "BAD"
  end.

(** [Into<u8>], with debug assertions off: [Bad] is sent as a close frame. *)
Definition OpCode_into_u8 (op : OpCode) : Z :=
  match op with
  | Op_Continue => 0
  | Op_Text => 1
  | Op_Binary => 2
  | Op_Close => 8
  | Op_Ping => 9
  | Op_Pong => 10
  | Op_Bad => 8
  end.

Definition OpCode_from_u8 (byte : Z) : OpCode :=
  match byte with
  | 0 => Op_Continue
  | 1 => Op_Text
  | 2 => Op_Binary
  | 8 => Op_Close
  | 9 => Op_Ping
  | 10 => Op_Pong
  | _ => Op_Bad
  end.

Inductive CloseCode : Type :=
| Cc_Normal | Cc_Away | Cc_Protocol | Cc_Unsupported | Cc_Status | Cc_Abnormal
| Cc_Invalid | Cc_Policy | Cc_Size | Cc_Extension | Cc_Error | Cc_Restart
| Cc_Again | Cc_Tls | Cc_Empty | Cc_Other (code : Z).

#[export] Instance CloseCode_eq_dec : EqDecision CloseCode.
Proof. solve_decision. Defined.

Definition CloseCode_into_u16 (c : CloseCode) : Z :=
  match c with
  | Cc_Normal => 1000
  | Cc_Away => 1001
  | Cc_Protocol => 1002
  | Cc_Unsupported => 1003
  | Cc_Status => 1005
  | Cc_Abnormal => 1006
  | Cc_Invalid => 1007
  | Cc_Policy => 1008
  | Cc_Size => 1009
  | Cc_Extension => 1010
  | Cc_Error => 1011
  | Cc_Restart => 1012
  | Cc_Again => 1013
  | Cc_Tls => 1015
  | Cc_Empty => 0
  | Cc_Other code => code
  end.

Definition CloseCode_from_u16 (code : Z) : CloseCode :=
  match code with
  | 1000 => Cc_Normal
  | 1001 => Cc_Away
  | 1002 => Cc_Protocol
  | 1003 => Cc_Unsupported
  | 1005 => Cc_Status
  | 1006 => Cc_Abnormal
  | 1007 => Cc_Invalid
  | 1008 => Cc_Policy
  | 1009 => Cc_Size
  | 1010 => Cc_Extension
  | 1011 => Cc_Error
  | 1012 => Cc_Restart
  | 1013 => Cc_Again
  | 1015 => Cc_Tls
  | 0 => Cc_Empty
  | _ => Cc_Other code
  end.

Inductive ProtocolError : Type :=
| WsE_UnmaskedFrame
| WsE_MaskedFrame
| WsE_InvalidOpcode (op : Z)
| WsE_InvalidLength (len : Z)
| WsE_BadOpCode
| WsE_Overflow
| WsE_NoContinuation
| WsE_BadEncoding
| WsE_Payload (e : PayloadError).

Definition ProtocolError_from_payload (e : PayloadError) : ProtocolError := WsE_Payload e.

#[export] Instance ProtocolError_eq_dec : EqDecision ProtocolError.
Proof. solve_decision. Defined.

#[export] Instance ResponseError_protocol : ResponseError ProtocolError := fun _ => 500.

Inductive HandshakeError : Type :=
| HsE_GetMethodRequired
| HsE_NoWebsocketUpgrade
| HsE_NoConnectionUpgrade
| HsE_NoVersionHeader
| HsE_UnsupportedVersion
| HsE_BadWebsocketKey.

#[export] Instance HandshakeError_eq_dec : EqDecision HandshakeError.
Proof. solve_decision. Defined.

(** [error_response]: 405 with [Allow: GET] for a wrong method, 400 otherwise. *)
#[export] Instance ResponseError_handshake : ResponseError HandshakeError := fun e =>
  match e with
  | HsE_GetMethodRequired => 405
  | HsE_NoWebsocketUpgrade => 400
  | HsE_NoConnectionUpgrade => 400
  | HsE_NoVersionHeader => 400
  | HsE_UnsupportedVersion => 400
  | HsE_BadWebsocketKey => 400
  end.

Definition WS_GUID : bytes := b#"258EAFA5-E914-47DA-95CA-C5AB0DC85B11".

(** [hash_key], over the external SHA-1 digest and base64 encoder. *)
Definition hash_key (sha1 : bytes -> bytes) (base64 : bytes -> bytes) (key : bytes) : bytes :=
  base64 (sha1 (key ++ WS_GUID)).

(** ** Lemmas *)

Lemma OpCode_into_from op : op <> Op_Bad -> OpCode_from_u8 (OpCode_into_u8 op) = op.
Proof. by destruct op. Qed.

Lemma OpCode_into_range op : 0 <= OpCode_into_u8 op < 16.
Proof. destruct op; simpl; lia. Qed.

(** Close codes survive the wire: every code decodes to a [CloseCode] that
    encodes back to it, and every [CloseCode] decodes back to itself, except an
    [Other] that spells out one of the listed values. *)
Theorem close_code_roundtrip :
  (forall n, CloseCode_into_u16 (CloseCode_from_u16 n) = n) /\
  (forall c, CloseCode_from_u16 (CloseCode_into_u16 c) = c \/
             exists k, c = Cc_Other k /\ CloseCode_from_u16 k <> Cc_Other k).
Proof.
  split.
  - intros n. unfold CloseCode_from_u16. repeat case_match; reflexivity.
  - intros c. destruct c as [| | | | | | | | | | | | | | |k]; try (by left). simpl.
    destruct (decide (CloseCode_from_u16 k = Cc_Other k)); eauto.
Qed.
