(* ===== verification/WsFrame.v ===== *)
(** * WebSocket frames (src/src/ws/frame.rs)

    Parsing a frame from a [PayloadHelper] and rendering one.  The header is read
    from the first queued chunk when that chunk holds all of it, and otherwise
    from a copy of the bytes that spans chunks. *)
From S2P Require Import Prelude Words Errors PayloadHelper WsMask WsProto.
Open Scope Z_scope.

(** ** The byteorder crate

    [NetworkEndian::read_uint] reads [n] bytes as a big-endian integer and panics
    when the slice is shorter (on bytes the reduction to 64 bits changes nothing);
    [BigEndian::write_u16] and [write_u64] render a length. *)
Class ByteOrder := {
  bo_read_uint : bytes -> nat -> run Z;
  bo_write_u16 : Z -> bytes;
  bo_write_u64 : Z -> bytes;
  bo_read_uint_ok bs n :
    (1 <= n <= 8)%nat -> (n <= length bs)%nat ->
    bo_read_uint bs n = Ret (word_value true (take n bs) mod 2 ^ 64);
  bo_read_uint_short bs n : (length bs < n)%nat -> bo_read_uint bs n = Panic;
  bo_write_u16_ok w : is_u16 w -> bo_write_u16 w = word_bytes true 2 w;
  bo_write_u64_ok w : is_u64 w -> bo_write_u64 w = word_bytes true 8 w;
}.

Record Frame : Type := mkFrame { fr_finished : bool; fr_opcode : OpCode; fr_payload : bytes }.

Definition Frame_unpack (f : Frame) : bool * OpCode * bytes :=
  (fr_finished f, fr_opcode f, fr_payload f).

(** [impl Default for Frame]. *)
Definition Frame_default : Frame := mkFrame true Op_Close [].

(** What the header of a frame says: the offset behind it, [finished], the
    operation code, the payload length and the mask. *)
Definition frame_md : Type := Z * bool * OpCode * Z * option Z.

Section Frames.
Context `{ByteOrder}.
Context (big : bool).       (* byte order of the target *)
Context (uninit : Z).       (* uninitialized stack word of [xor_mem] *)
Context (addr : Z).         (* address of the payload buffer *)

Definition read_chunk_md (chunk : bytes) (server : bool) (max_size : Z)
  : run (poll frame_md ProtocolError) :=
  let chunk_len := lenZ chunk in
  let idx := 2 in
  if chunk_len <? 2 then Ret NotReady else
  let first := nth 0 chunk 0 in
  let second := nth 1 chunk 0 in
  let finished := negb (Z.land first 0x80 =? 0) in
  (* check masking *)
  let masked := negb (Z.land second 0x80 =? 0) in
  if negb masked && server then Ret (PErr WsE_UnmaskedFrame)
  else if masked && negb server then Ret (PErr WsE_MaskedFrame)
  else
  (* Op code *)
  let opcode := OpCode_from_u8 (Z.land first 0x0F) in
  if decide (opcode = Op_Bad) then Ret (PErr (WsE_InvalidOpcode (Z.land first 0x0F))) else
  let len := Z.land second 0x7F in
  let with_length idx length :=
    (* check for max allowed size *)
    if max_size <? length then Ret (PErr WsE_Overflow)
    else if server then
      if chunk_len <? idx + 4 then Ret NotReady
      else
        let mask := word_value big (takeZ 4 (dropZ idx chunk)) in
        Ret (Ready (idx + 4, finished, opcode, length, Some mask))
    else Ret (Ready (idx, finished, opcode, length, None)) in
  if len =? 126 then
    if chunk_len <? 4 then Ret NotReady
    else l ← bo_read_uint (dropZ idx chunk) 2; with_length (idx + 2) l
  else if len =? 127 then
    if chunk_len <? 10 then Ret NotReady
    else l ← bo_read_uint (dropZ idx chunk) 8; with_length (idx + 8) l
  else with_length idx len.

Context {S : Type} `{Stream S}.
Notation PH := (PayloadHelper S).

(** [match pl.copy(size)? { Ready(Some(buf)) => k(buf), Ready(None) => return
    Ok(Ready(None)), NotReady => return Ok(NotReady) }]. *)
Definition with_copy {X} (size : Z) (pl : PH)
    (k : bytes -> PH -> run (poll (option X) ProtocolError * PH))
  : run (poll (option X) ProtocolError * PH) :=
  '(r, pl) ← copy size pl;
  match r with
  | Ready (Some buf) => k buf pl
  | Ready None => Ret (Ready None, pl)
  | NotReady => Ret (NotReady, pl)
  | PErr e => Ret (PErr (ProtocolError_from_payload e), pl)
  end.

Definition read_copy_md (pl : PH) (server : bool) (max_size : Z)
  : run (poll (option frame_md) ProtocolError * PH) :=
  let idx := 2 in
  with_copy 2 pl (fun buf pl =>
  let first := nth 0 buf 0 in
  let second := nth 1 buf 0 in
  let finished := negb (Z.land first 0x80 =? 0) in
  (* check masking *)
  let masked := negb (Z.land second 0x80 =? 0) in
  if negb masked && server then Ret (PErr WsE_UnmaskedFrame, pl)
  else if masked && negb server then Ret (PErr WsE_MaskedFrame, pl)
  else
  (* Op code *)
  let opcode := OpCode_from_u8 (Z.land first 0x0F) in
  if decide (opcode = Op_Bad) then Ret (PErr (WsE_InvalidOpcode (Z.land first 0x0F)), pl) else
  let len := Z.land second 0x7F in
  let with_length idx length pl :=
    (* check for max allowed size *)
    if max_size <? length then Ret (PErr WsE_Overflow, pl)
    else if server then
      with_copy (idx + 4) pl (fun buf pl =>
        let mask := word_value big (takeZ 4 (dropZ idx buf)) in
        Ret (Ready (Some (idx + 4, finished, opcode, length, Some mask)), pl))
    else Ret (Ready (Some (idx, finished, opcode, length, None)), pl) in
  if len =? 126 then
    with_copy 4 pl (fun buf pl =>
      l ← bo_read_uint (dropZ idx buf) 2; with_length (idx + 2) l pl)
  else if len =? 127 then
    with_copy 10 pl (fun buf pl =>
      l ← bo_read_uint (dropZ idx buf) 8; with_length (idx + 8) l pl)
  else with_length idx len pl).

(** The part of [parse] behind the header. *)
Definition parse_body (pl : PH) (md : frame_md) : run (poll (option Frame) ProtocolError * PH) :=
  let '(idx, finished, opcode, length, mask) := md in
  '(r, pl) ← can_read (idx + length) pl;
  match r with
  | PErr e => Ret (PErr (ProtocolError_from_payload e), pl)
  | Ready None => Ret (Ready None, pl)
  | Ready (Some false) | NotReady => Ret (NotReady, pl)
  | Ready (Some true) =>
      (* remove prefix *)
      pl ← drop_payload idx pl;
      (* no need for body *)
      if length =? 0 then Ret (Ready (Some (mkFrame finished opcode [])), pl) else
      '(r, pl) ← read_exact length pl;
      match r with
      | PErr e => Ret (PErr (ProtocolError_from_payload e), pl)
      | Ready None => Ret (Ready None, pl)
      | NotReady => Panic
      | Ready (Some data) =>
          (* control frames must have length <= 125 *)
          if (bool_decide (opcode = Op_Ping) || bool_decide (opcode = Op_Pong)) && (125 <? length)
          then Ret (PErr (WsE_InvalidLength length), pl)
          else if bool_decide (opcode = Op_Close) && (125 <? length)
          then Ret (Ready (Some Frame_default), pl)
          else
            (* unmask *)
            let data := match mask with
                        | Some mask => apply_mask big uninit addr data mask
                        | None => data
                        end in
            Ret (Ready (Some (mkFrame finished opcode data)), pl)
      end
  end.

Definition parse (pl : PH) (server : bool) (max_size : Z)
  : run (poll (option Frame) ProtocolError * PH) :=
  (* try to parse ws frame md from one chunk *)
  match get_chunk pl with
  | (PErr e, pl) => Ret (PErr (ProtocolError_from_payload e), pl)
  | (NotReady, pl) => Ret (NotReady, pl)
  | (Ready None, pl) => Ret (Ready None, pl)
  | (Ready (Some chunk), pl) =>
      result ← read_chunk_md chunk server max_size;
      match result with
      | PErr e => Ret (PErr e, pl)
      | Ready md => parse_body pl md
      (* we may need to join several chunks *)
      | NotReady =>
          '(r, pl) ← read_copy_md pl server max_size;
          match r with
          | PErr e => Ret (PErr e, pl)
          | NotReady => Ret (NotReady, pl)
          | Ready None => Ret (Ready None, pl)
          | Ready (Some md) => parse_body pl md
          end
      end
  end.

(** Binary representation.  [genmask] carries the value of [rand::random] when a
    mask is generated; [slack] is what the buffer holds behind the payload, which
    the mask is applied to as well before the length is set. *)
Definition message (slack : bytes) (payload : bytes) (code : OpCode) (finished : bool)
    (genmask : option Z) : bytes :=
  let one := if finished then Z.lor 0x80 (OpCode_into_u8 code) else OpCode_into_u8 code in
  let payload_len := lenZ payload in
  let two := match genmask with Some _ => 0x80 | None => 0 end in
  let buf :=
    if payload_len <? 126 then [one; Z.lor two payload_len]
    else if payload_len <=? 65535 then [one; Z.lor two 126] ++ bo_write_u16 payload_len
    else [one; Z.lor two 127] ++ bo_write_u64 payload_len in
  match genmask with
  | Some mask =>
      buf ++ takeZ (payload_len + 4)
               (word_bytes big 4 mask ++ apply_mask big uninit addr (payload ++ slack) mask)
  | None => buf ++ payload
  end.

(** [Frame::close]. *)
Definition close (slack : bytes) (code : CloseCode) (reason : bytes) (genmask : option Z) : bytes :=
  let raw := word_bytes true 2 (CloseCode_into_u16 code) in
  let payload := match code with Cc_Empty => [] | _ => raw ++ reason end in
  message slack payload Op_Close true genmask.
(** ** The layout of a rendered frame *)

Definition op_byte (finished : bool) (code : OpCode) : Z :=
  if finished then Z.lor 0x80 (OpCode_into_u8 code) else OpCode_into_u8 code.

(** The 7-bit length field and the extended length behind it. *)
Definition len7 (len : Z) : Z := if len <? 126 then len else if len <=? 65535 then 126 else 127.
Definition len_ext (len : Z) : bytes :=
  if len <? 126 then [] else if len <=? 65535 then word_bytes true 2 len else word_bytes true 8 len.

Definition mask_bytes (genmask : option Z) : bytes :=
  match genmask with Some mask => word_bytes big 4 mask | None => [] end.
Definition masked_by (genmask : option Z) (payload : bytes) : bytes :=
  match genmask with
  | Some mask => apply_mask_fallback payload (word_bytes big 4 mask)
  | None => payload
  end.
Definition is_masked (genmask : option Z) : bool :=
  match genmask with Some _ => true | None => false end.

(** The bytes of a frame whose payload section starts with [tail]. *)
Definition frame_bytes (finished : bool) (code : OpCode) (len : Z) (genmask : option Z)
    (tail : bytes) : bytes :=
  [op_byte finished code; Z.lor (if is_masked genmask then 0x80 else 0) (len7 len)] ++
  len_ext len ++ mask_bytes genmask ++ tail.

Definition header_len (len : Z) (genmask : option Z) : Z :=
  2 + lenZ (len_ext len) + lenZ (mask_bytes genmask).

Lemma op_byte_bits finished code :
  code <> Op_Bad ->
  negb (Z.land (op_byte finished code) 0x80 =? 0) = finished /\
  OpCode_from_u8 (Z.land (op_byte finished code) 0x0F) = code.
Proof. destruct finished, code; done. Qed.

Lemma len7_range len : 0 <= len -> 0 <= len7 len < 128.
Proof. unfold len7. destruct (Z.ltb_spec len 126), (len <=? 65535); lia. Qed.

Lemma length_byte_bits (masked : bool) l :
  0 <= l < 128 ->
  negb (Z.land (Z.lor (if masked then 0x80 else 0) l) 0x80 =? 0) = masked /\
  Z.land (Z.lor (if masked then 0x80 else 0) l) 0x7F = l.
Proof.
  intros Hl.
  assert (forallb (fun l =>
    Bool.eqb (negb (Z.land (Z.lor (if masked then 0x80 else 0) l) 0x80 =? 0)) masked &&
    (Z.land (Z.lor (if masked then 0x80 else 0) l) 0x7F =? l)) (seqZ 0 128) = true) as Hall
    by (destruct masked; vm_compute; reflexivity).
  rewrite forallb_forall in Hall. specialize (Hall l).
  rewrite <-list_elem_of_In, elem_of_seqZ in Hall. specialize (Hall ltac:(lia)).
  apply andb_true_iff in Hall as [Hm%Bool.eqb_prop Hl'%Z.eqb_eq]. done.
Qed.

(** Slices of a prefix are slices of the whole. *)
Lemma slice_prefix (c r : bytes) i k :
  0 <= i -> 0 <= k -> i + k <= lenZ c -> takeZ k (dropZ i (c ++ r)) = takeZ k (dropZ i c).
Proof.
  intros Hi Hk Hc. rewrite dropZ_app_l by lia. apply takeZ_app_l.
  rewrite lenZ_dropZ by lia. lia.
Qed.

Lemma nth_prefix (c r : bytes) i : (i < length c)%nat -> nth i (c ++ r) 0 = nth i c 0.
Proof. intros. by apply app_nth1. Qed.

Lemma len_ext_value len :
  is_u64 len ->
  (126 <= len <= 65535 -> word_value true (len_ext len) = len) /\
  (65535 < len -> word_value true (len_ext len) = len).
Proof.
  intros Hu. unfold len_ext, word_value, word_bytes, is_u64 in *.
  split; intros; rewrite (proj2 (Z.ltb_ge len 126)) by lia.
  - rewrite (proj2 (Z.leb_le _ _)) by lia. rewrite rev_involutive.
    apply le_value_bytes. simpl. lia.
  - rewrite (proj2 (Z.leb_gt _ _)) by lia. rewrite rev_involutive.
    apply le_value_bytes. simpl. lia.
Qed.

Lemma lenZ_len_ext len :
  lenZ (len_ext len) = if len <? 126 then 0 else if len <=? 65535 then 2 else 8.
Proof.
  unfold len_ext, lenZ. destruct (len <? 126), (len <=? 65535); try done;
    by rewrite length_word_bytes.
Qed.

Lemma lenZ_mask_bytes genmask : lenZ (mask_bytes genmask) = if is_masked genmask then 4 else 0.
Proof. destruct genmask; simpl; [|done]. unfold lenZ. by rewrite length_word_bytes. Qed.

(** Header offsets as literals. *)
Ltac fold_lengths :=
  repeat (progress (
    change (2 + 0 + 4) with 6 in *; change (2 + 2 + 4) with 8 in *;
    change (2 + 8 + 4) with 14 in *; change (2 + 0 + 0) with 2 in *;
    change (2 + 2 + 0) with 4 in *; change (2 + 8 + 0) with 10 in *;
    change (2 + 0) with 2 in *; change (2 + 2) with 4 in *; change (2 + 8) with 10 in *;
    change (2 + 4) with 6 in *; change (4 + 4) with 8 in *; change (10 + 4) with 14 in *;
    change (4 + 0) with 4 in *; change (10 + 0) with 10 in *)).

(** What a prefix [c] of a frame lets the header reader see. *)
Section Prefix.
Context (finished : bool) (code : OpCode) (len : Z) (genmask : option Z) (tail : bytes).
Context (Hcode : code <> Op_Bad) (Hlen : is_u64 len).
Context (Hmask : forall m, genmask = Some m -> is_u32 m).
Notation full := (frame_bytes finished code len genmask tail).

Lemma prefix_first c r : c ++ r = full -> 2 <= lenZ c ->
  nth 0 c 0 = op_byte finished code /\
  nth 1 c 0 = Z.lor (if is_masked genmask then 0x80 else 0) (len7 len).
Proof.
  intros Hc Hl. rewrite <-(nth_prefix c r 0), <-(nth_prefix c r 1) by (unfold lenZ in Hl; lia).
  by rewrite Hc.
Qed.

Lemma prefix_ext c r : c ++ r = full -> 126 <= len -> 2 + lenZ (len_ext len) <= lenZ c ->
  bo_read_uint (dropZ 2 c) (if len <=? 65535 then 2 else 8) = Ret len.
Proof.
  intros Hc Hge Hl. rewrite bo_read_uint_ok.
  - f_equal. pose proof (len_ext_value len Hlen) as [H1 H2].
    rewrite <-(Z.mod_small len (2 ^ 64)) at 2 by done. f_equal.
    transitivity (word_value true (len_ext len));
      [f_equal|destruct (decide (len <= 65535)); [apply H1|apply H2]; lia].
    transitivity (takeZ (lenZ (len_ext len)) (dropZ 2 c)).
    { unfold takeZ. f_equal. rewrite lenZ_len_ext, (proj2 (Z.ltb_ge len 126)) by lia.
      by destruct (len <=? 65535). }
    rewrite <-(slice_prefix c r) by lenZ_lia. rewrite Hc. unfold frame_bytes.
    rewrite dropZ_app_r, dropZ_0, takeZ_app_l, takeZ_all by lenZ_lia. done.
  - destruct (len <=? 65535); lia.
  - rewrite lenZ_len_ext, (proj2 (Z.ltb_ge len 126)) in Hl by lia.
    unfold dropZ. rewrite length_drop. unfold lenZ in Hl. destruct (len <=? 65535); lia.
Qed.

Lemma prefix_mask c r m : c ++ r = full -> genmask = Some m ->
  2 + lenZ (len_ext len) + 4 <= lenZ c ->
  word_value big (takeZ 4 (dropZ (2 + lenZ (len_ext len)) c)) = m.
Proof.
  intros Hc Hm Hl. rewrite <-(slice_prefix c r) by lenZ_lia. rewrite Hc.
  unfold frame_bytes. rewrite Hm, app_assoc. rewrite dropZ_app_r by lenZ_lia.
  rewrite dropZ_0 by lenZ_lia. cbn [mask_bytes].
  assert (lenZ (word_bytes big 4 m) = 4) as H4 by (unfold lenZ; by rewrite length_word_bytes).
  rewrite takeZ_app_l, takeZ_all by lia.
  unfold word_value, word_bytes. destruct big; rewrite ?rev_involutive;
    apply le_value_bytes; by apply Hmask.
Qed.
Lemma header_len_eq :
  header_len len genmask = 2 + (if len <? 126 then 0 else if len <=? 65535 then 2 else 8)
                             + (if is_masked genmask then 4 else 0).
Proof. unfold header_len. by rewrite lenZ_len_ext, lenZ_mask_bytes. Qed.

(** A chunk that is a prefix of a frame: [read_chunk_md] answers [NotReady] while
    the header is incomplete, and the header otherwise. *)
Lemma read_chunk_md_frame c r max_size :
  c ++ r = full -> len <= max_size ->
  read_chunk_md c (is_masked genmask) max_size =
  Ret (if lenZ c <? header_len len genmask then NotReady
       else Ready (header_len len genmask, finished, code, len, genmask)).
Proof.
  intros Hc Hmax. unfold read_chunk_md. cbv zeta. rewrite header_len_eq.
  destruct (Z.ltb_spec (lenZ c) 2) as [Hs|Hs].
  { rewrite (proj2 (Z.ltb_lt _ _)); [done|]. repeat case_match; lia. }
  destruct (prefix_first c r Hc Hs) as [-> ->].
  destruct (op_byte_bits finished code Hcode) as [-> ->].
  destruct (length_byte_bits (is_masked genmask) (len7 len) (len7_range len (proj1 Hlen)))
    as [-> ->].
  replace (negb (is_masked genmask) && is_masked genmask) with false by (by destruct genmask).
  replace (is_masked genmask && negb (is_masked genmask)) with false by (by destruct genmask).
  rewrite decide_False by done.
  pose proof (prefix_ext c r Hc) as Hext. pose proof (prefix_mask c r) as Hm.
  rewrite lenZ_len_ext in Hext. rewrite lenZ_len_ext in Hm.
  unfold len7. destruct (Z.ltb_spec len 126) as [H126|H126].
  - rewrite (proj2 (Z.eqb_neq len 126)), (proj2 (Z.eqb_neq len 127)) by lia.
    rewrite (proj2 (Z.ltb_ge max_size len)) by lia. fold_lengths.
    destruct genmask as [m|]; simpl in *; fold_lengths.
    + destruct (Z.ltb_spec (lenZ c) 6); [done|]. by rewrite (Hm m) by done.
    + by rewrite (proj2 (Z.ltb_ge _ _)) by lia.
  - destruct (Z.leb_spec len 65535) as [H64k|H64k]; simpl; fold_lengths.
    + destruct (Z.ltb_spec (lenZ c) 4) as [Hc4|Hc4].
      { rewrite (proj2 (Z.ltb_lt _ _)); [done|]. case_match; lia. }
      rewrite Hext by lia. simpl. rewrite (proj2 (Z.ltb_ge max_size len)) by lia.
      destruct genmask as [m|]; simpl in *; fold_lengths.
      * destruct (Z.ltb_spec (lenZ c) 8); [done|]. by rewrite (Hm m) by done.
      * by rewrite (proj2 (Z.ltb_ge _ _)) by lia.
    + destruct (Z.ltb_spec (lenZ c) 10) as [Hc10|Hc10].
      { rewrite (proj2 (Z.ltb_lt _ _)); [done|]. case_match; lia. }
      rewrite Hext by lia. simpl. rewrite (proj2 (Z.ltb_ge max_size len)) by lia.
      destruct genmask as [m|]; simpl in *; fold_lengths.
      * destruct (Z.ltb_spec (lenZ c) 14); [done|]. by rewrite (Hm m) by done.
      * by rewrite (proj2 (Z.ltb_ge _ _)) by lia.
Qed.

Lemma with_copy_pending {X} size (pl : PH) (k : bytes -> PH -> run (poll (option X) ProtocolError * PH)) :
  ph_wf pl -> 0 < size <= lenZ (pending pl) ->
  exists pl', ph_wf pl' /\ pending pl' = pending pl /\
    with_copy size pl k = k (takeZ size (pending pl)) pl'.
Proof.
  intros Hwf Hsz. destruct (copy_pending size pl Hwf Hsz) as (pl' & Hc & Hwf' & Hp).
  exists pl'. split_and!; [done..|]. unfold with_copy. by rewrite Hc.
Qed.

(** With the whole header pending, [read_copy_md] reads it from however many
    chunks it spans, and consumes nothing. *)
(** The end of [read_copy_md]: the limit and the mask. *)
Lemma read_copy_tail (pl1 : PH) max_size i :
  ph_wf pl1 -> pending pl1 = full -> len <= max_size -> i = 2 + lenZ (len_ext len) ->
  exists pl', ph_wf pl' /\ pending pl' = full /\
    (if max_size <? len then Ret (PErr WsE_Overflow, pl1)
     else if is_masked genmask then
       with_copy (i + 4) pl1 (fun buf pl =>
         Ret (Ready (Some (i + 4, finished, code, len,
                           Some (word_value big (takeZ 4 (dropZ i buf))))), pl))
     else Ret (Ready (Some (i, finished, code, len, None)), pl1)) =
    Ret (Ready (Some (header_len len genmask, finished, code, len, genmask)), pl').
Proof.
  intros Hwf1 Hp1 Hmax Hi.
  assert (Hfull : header_len len genmask <= lenZ full)
    by (unfold header_len, frame_bytes; lenZ_lia).
  pose proof header_len_eq as Hh.
  assert (Htl : forall n, 0 <= n <= header_len len genmask -> lenZ (takeZ n full) = n)
    by (intros; apply lenZ_takeZ; lia).
  rewrite (proj2 (Z.ltb_ge max_size len)) by lia.
  pose proof (fun m => prefix_mask (takeZ (i + 4) full) _ m (takeZ_dropZ _ full)) as Hm.
  rewrite lenZ_len_ext in Hi, Hm. rewrite <-Hi in Hm.
  destruct genmask as [m|] eqn:Hg; simpl in *.
  - edestruct (with_copy_pending (X := frame_md) (i + 4) pl1) as (pl' & Hwf' & Hp' & ->);
      [done|rewrite Hp1; repeat case_match; lia|].
    exists pl'. split_and!; [done|by rewrite Hp'|].
    rewrite Hp1, (Hm m) by (done || rewrite Htl; repeat case_match; lia).
    by replace (header_len len (Some m)) with (i + 4) by lia.
  - exists pl1. split_and!; [done..|]. by replace (header_len len None) with i by lia.
Qed.

Lemma read_copy_md_frame (pl : PH) max_size :
  ph_wf pl -> pending pl = full -> len <= max_size ->
  exists pl', ph_wf pl' /\ pending pl' = full /\
    read_copy_md pl (is_masked genmask) max_size =
    Ret (Ready (Some (header_len len genmask, finished, code, len, genmask)), pl').
Proof.
  intros Hwf Hp Hmax. unfold read_copy_md. cbv zeta.
  assert (Hfull : header_len len genmask <= lenZ full)
    by (unfold header_len, frame_bytes; lenZ_lia).
  pose proof header_len_eq as Hh.
  assert (Hpre : forall n, takeZ n full ++ dropZ n full = full) by (intros; apply takeZ_dropZ).
  assert (Htl : forall n, 0 <= n <= header_len len genmask -> lenZ (takeZ n full) = n)
    by (intros; apply lenZ_takeZ; lia).
  assert (Hh2 : 2 + lenZ (len_ext len) <= header_len len genmask)
    by (unfold header_len; lenZ_lia).
  edestruct (with_copy_pending (X := frame_md) 2 pl) as (pl1 & Hwf1 & Hp1 & ->);
    [done|rewrite Hp; lenZ_lia|].
  rewrite Hp in Hp1 |- *.
  destruct (prefix_first (takeZ 2 full) _ (Hpre 2)) as [-> ->]; [rewrite Htl; lenZ_lia|].
  destruct (op_byte_bits finished code Hcode) as [-> ->].
  destruct (length_byte_bits (is_masked genmask) (len7 len) (len7_range len (proj1 Hlen)))
    as [-> ->].
  replace (negb (is_masked genmask) && is_masked genmask) with false by (by destruct genmask).
  replace (is_masked genmask && negb (is_masked genmask)) with false by (by destruct genmask).
  rewrite decide_False by done.
  pose proof (fun n => prefix_ext (takeZ n full) _ (Hpre n)) as Hext.
  rewrite lenZ_len_ext in *. unfold len7. destruct (Z.ltb_spec len 126) as [H126|H126].
  - rewrite (proj2 (Z.eqb_neq len 126)), (proj2 (Z.eqb_neq len 127)) by lia.
    apply read_copy_tail; try done;
        rewrite lenZ_len_ext; repeat case_match; lia.
  - destruct (Z.leb_spec len 65535) as [H64k|H64k]; simpl.
    + edestruct (with_copy_pending (X := frame_md) 4 pl1) as (pl2 & Hwf2 & Hp2 & ->);
        [done|rewrite Hp1; lia|].
      rewrite Hp1 in Hp2 |- *. rewrite Hext by (rewrite ?Htl; lia). apply read_copy_tail; try done;
        rewrite lenZ_len_ext; repeat case_match; lia.
    + edestruct (with_copy_pending (X := frame_md) 10 pl1) as (pl2 & Hwf2 & Hp2 & ->);
        [done|rewrite Hp1; lia|].
      rewrite Hp1 in Hp2 |- *. rewrite Hext by (rewrite ?Htl; lia). apply read_copy_tail; try done;
        rewrite lenZ_len_ext; repeat case_match; lia.
Qed.
End Prefix.

(** The rendered frame is its header followed by the masked payload. *)
Lemma message_frame_bytes slack payload code finished genmask :
  is_bytes payload -> is_bytes slack -> is_u64 (lenZ payload) ->
  (forall m, genmask = Some m -> is_u32 m) ->
  message slack payload code finished genmask =
  frame_bytes finished code (lenZ payload) genmask (masked_by genmask payload).
Proof.
  intros Hp Hs Hl Hm. unfold message, frame_bytes. cbv zeta.
  assert (Hhdr : (if lenZ payload <? 126
     then [op_byte finished code; Z.lor (match genmask with Some _ => 128 | None => 0 end) (lenZ payload)]
     else if lenZ payload <=? 65535
          then [op_byte finished code; Z.lor (match genmask with Some _ => 128 | None => 0 end) 126]
               ++ bo_write_u16 (lenZ payload)
          else [op_byte finished code; Z.lor (match genmask with Some _ => 128 | None => 0 end) 127]
               ++ bo_write_u64 (lenZ payload)) =
    [op_byte finished code; Z.lor (if is_masked genmask then 128 else 0) (len7 (lenZ payload))]
      ++ len_ext (lenZ payload)).
  { unfold len7, len_ext. pose proof (lenZ_nonneg payload).
    destruct (Z.ltb_spec (lenZ payload) 126); [by destruct genmask|].
    destruct (Z.leb_spec (lenZ payload) 65535).
    - rewrite bo_write_u16_ok by (unfold is_u16; lia). by destruct genmask.
    - rewrite bo_write_u64_ok by done. by destruct genmask. }
  fold (op_byte finished code). rewrite Hhdr.
  destruct genmask as [m|]; cbn [mask_bytes masked_by is_masked]; [|by rewrite <-app_assoc].
  assert (lenZ (word_bytes big 4 m) = 4) as H4 by (unfold lenZ; by rewrite length_word_bytes).
  rewrite takeZ_app_r by lenZ_lia. rewrite <-app_assoc. do 3 f_equal.
  unfold apply_mask. rewrite apply_mask_fast32_eq by (by apply Hm || by apply Forall_app).
  unfold apply_mask_fallback. rewrite imap_app.
  rewrite takeZ_app_l, takeZ_all; [done|..]; unfold lenZ in *; rewrite length_imap; lia.
Qed.

Lemma parse_body_ok (pl : PH) finished code genmask payload rest :
  is_bytes payload -> is_u64 (lenZ payload) -> (forall m, genmask = Some m -> is_u32 m) ->
  (code = Op_Ping \/ code = Op_Pong \/ code = Op_Close -> lenZ payload <= 125) ->
  ph_wf pl ->
  pending pl = frame_bytes finished code (lenZ payload) genmask (masked_by genmask payload ++ rest) ->
  exists pl', parse_body pl (header_len (lenZ payload) genmask, finished, code, lenZ payload, genmask) =
    Ret (Ready (Some (mkFrame finished code payload)), pl') /\ ph_wf pl' /\ pending pl' = rest.
Proof.
  intros Hb Hl Hm Hctl Hwf Hp. unfold parse_body.
  set (len := lenZ payload) in *.
  assert (lenZ (masked_by genmask payload) = len) as Hml.
  { destruct genmask; simpl; unfold len, lenZ; by rewrite ?length_fallback. }
  assert (Hh : 0 <= header_len len genmask) by (unfold header_len; lenZ_lia).
  set (hd := [op_byte finished code; Z.lor (if is_masked genmask then 128 else 0) (len7 len)]
       ++ len_ext len ++ mask_bytes genmask).
  assert (Hhd : lenZ hd = header_len len genmask)
    by (unfold hd, header_len; lenZ_lia).
  assert (pending pl = hd ++ masked_by genmask payload ++ rest) as Hp'.
  { rewrite Hp. unfold hd, frame_bytes. by rewrite <-!app_assoc. }
  assert (lenZ (masked_by genmask payload ++ rest) = len + lenZ rest) as Hmr by lenZ_lia.
  destruct (can_read_pending (header_len len genmask + len) pl Hwf)
    as (pl1 & -> & Hwf1 & Hp1 & Hc1).
  { rewrite Hp', lenZ_app. subst len. lenZ_lia. }
  simpl. destruct (drop_payload_pending (header_len len genmask) pl1 Hwf1)
    as (pl2 & -> & Hwf2 & Hc2 & Hs2 & Hp2); [subst len; lenZ_lia|].
  assert (pending pl2 = masked_by genmask payload ++ rest) as Hp2'.
  { rewrite Hp2, Hp1, Hp'. rewrite dropZ_app_r, dropZ_0 by lia. done. }
  simpl. destruct (Z.eqb_spec len 0) as [H0len|H0len].
  { exists pl2. assert (payload = []) as -> by (apply lenZ_nil_inv; subst len; lia).
    split_and!; [done..|]. rewrite Hp2'. by destruct genmask. }
  destruct (read_exact_pending len pl2 Hwf2) as (pl3 & -> & Hwf3 & Hp3).
  { rewrite Hp2'. subst len. lenZ_lia. }
  rewrite Hp2' in Hp3 |- *. rewrite takeZ_app_l, takeZ_all by lia. simpl.
  rewrite dropZ_app_r, dropZ_0 in Hp3 by lia.
  rewrite (proj2 (andb_false_iff _ _)), (proj2 (andb_false_iff _ _)).
  - exists pl3. split_and!; [|done..]. do 4 f_equal.
    destruct genmask as [m|]; simpl; [|done]. unfold apply_mask.
    rewrite apply_mask_fast32_eq;
      [|apply fallback_is_bytes; [done|apply word_bytes_ok]|by apply Hm].
    by rewrite fallback_involutive.
  - case_bool_decide; [right; apply Z.ltb_ge; naive_solver|by left].
  - destruct code; simpl; try (by left); right; apply Z.ltb_ge; naive_solver.
Qed.

(** ** Parsing arbitrary bytes *)

(** A header as the readers return it: the offset is behind the first two bytes
    and the length is not negative. *)
Definition md_ok (md : frame_md) : Prop :=
  let '(idx, _, _, length, _) := md in 2 <= idx /\ 0 <= length.

Lemma bo_read_uint_total bs n :
  (1 <= n <= 8)%nat -> Z.of_nat n <= lenZ bs -> exists v, bo_read_uint bs n = Ret v /\ is_u64 v.
Proof.
  intros Hn Hl. eexists. split; [apply bo_read_uint_ok; [done|unfold lenZ in Hl; lia]|].
  by apply Z.mod_pos_bound.
Qed.

Lemma read_chunk_md_total chunk server max_size :
  exists r, read_chunk_md chunk server max_size = Ret r /\ forall md, r = Ready md -> md_ok md.
Proof.
  unfold read_chunk_md. cbv zeta.
  assert (Htail : forall idx length fin code (l : Z), 2 <= idx -> 0 <= length ->
    exists r, (if max_size <? length then Ret (PErr WsE_Overflow)
      else if server then
        if lenZ chunk <? idx + 4 then Ret NotReady
        else Ret (Ready (idx + 4, fin, code, length,
                         Some (word_value big (takeZ 4 (dropZ idx chunk)))))
      else Ret (Ready (idx, fin, code, length, None))) = Ret r /\
      forall md : frame_md, r = Ready md -> md_ok md).
  { intros idx length fin code l Hi Hl. repeat case_match; eexists; (split; [done|]);
      intros md ?; simplify_eq; unfold md_ok; lia. }
  assert (0 <= Z.land (nth 1 chunk 0) 127) as Hpos by (apply Z.land_nonneg; lia).
  destruct (Z.ltb_spec (lenZ chunk) 2); [by eexists|].
  destruct (_ && server); [by eexists|]. destruct (_ && negb server); [by eexists|].
  destruct (decide _); [by eexists|].
  destruct (Z.eqb_spec (Z.land (nth 1 chunk 0) 127) 126) as [_|].
  { destruct (Z.ltb_spec (lenZ chunk) 4); [by eexists|].
    destruct (bo_read_uint_total (dropZ 2 chunk) 2) as (v & -> & [Hv _]);
      [lia|rewrite lenZ_dropZ; lia|]. simpl. apply Htail; [exact 0|lia..]. }
  destruct (Z.eqb_spec (Z.land (nth 1 chunk 0) 127) 127) as [_|].
  { destruct (Z.ltb_spec (lenZ chunk) 10); [by eexists|].
    destruct (bo_read_uint_total (dropZ 2 chunk) 8) as (v & -> & [Hv _]);
      [lia|rewrite lenZ_dropZ; lia|]. simpl. apply Htail; [exact 0|lia..]. }
  apply Htail; [exact 0|lia|done].
Qed.

Lemma with_copy_total {X} size (pl : PH) (k : bytes -> PH -> run (poll (option X) ProtocolError * PH))
    (P : X -> Prop) :
  ph_wf pl -> 0 < size ->
  (forall buf pl1, ph_wf pl1 -> grows pl pl1 -> lenZ buf = size ->
     exists r pl', k buf pl1 = Ret (r, pl') /\ ph_wf pl' /\ grows pl pl' /\
       (forall x, r = Ready (Some x) -> P x)) ->
  exists r pl', with_copy size pl k = Ret (r, pl') /\ ph_wf pl' /\ grows pl pl' /\
    (forall x, r = Ready (Some x) -> P x).
Proof.
  intros Hwf Hsz Hk. unfold with_copy.
  destruct (copy_total size pl Hwf Hsz) as (r & pl1 & -> & Hwf1 & Hg & Hl). simpl.
  destruct r as [[buf|]| |e]; [by apply Hk; auto|eexists _, _; split_and!; done..].
Qed.

Lemma read_copy_md_total (pl : PH) server max_size :
  ph_wf pl ->
  exists r pl', read_copy_md pl server max_size = Ret (r, pl') /\ ph_wf pl' /\ grows pl pl' /\
    (forall md, r = Ready (Some md) -> md_ok md).
Proof.
  intros Hwf. unfold read_copy_md. cbv zeta.
  assert (Htail : forall pl0 pl1 idx length fin code, ph_wf pl1 -> grows pl0 pl1 ->
    2 <= idx -> 0 <= length ->
    exists r pl', (if max_size <? length then Ret (PErr WsE_Overflow, pl1)
      else if server then
        with_copy (idx + 4) pl1 (fun buf pl =>
          Ret (Ready (Some (idx + 4, fin, code, length,
                            Some (word_value big (takeZ 4 (dropZ idx buf))))), pl))
      else Ret (Ready (Some (idx, fin, code, length, None)), pl1)) = Ret (r, pl') /\
      ph_wf pl' /\ grows pl0 pl' /\ forall md : frame_md, r = Ready (Some md) -> md_ok md).
  { intros pl0 pl1 idx length fin code Hwf1 Hg1 Hi Hl.
    destruct (max_size <? length); [by eexists _, _|]. destruct server.
    - destruct (with_copy_total (idx + 4) pl1 (fun buf pl =>
          Ret (Ready (Some (idx + 4, fin, code, length,
                            Some (word_value big (takeZ 4 (dropZ idx buf))))), pl)) md_ok Hwf1)
        as (r & pl' & Hr & Hwf' & Hg' & Hmd); [lia| |eauto 10 using grows_trans].
      intros buf pl2 Hwf2 Hg2 _. eexists _, _. split_and!; [done..|].
      intros md ?; simplify_eq. unfold md_ok. lia.
    - eexists _, _. split_and!; [done..|]. intros md ?; simplify_eq. unfold md_ok. lia. }
  apply with_copy_total; [done|lia|]. intros buf pl1 Hwf1 Hg1 Hb.
  destruct (_ && server); [by eexists _, _|]. destruct (_ && negb server); [by eexists _, _|].
  destruct (decide _) as [|_]; [by eexists _, _|].
  assert (Hext : forall n size, (1 <= n <= 8)%nat -> size = 2 + Z.of_nat n ->
    forall fin code idx, 2 <= idx ->
    exists r pl', with_copy size pl1 (fun buf pl =>
      l ← bo_read_uint (dropZ 2 buf) n;
      (if max_size <? l then Ret (PErr WsE_Overflow, pl)
      else if server then
        with_copy (idx + 4) pl (fun buf pl =>
          Ret (Ready (Some (idx + 4, fin, code, l,
                            Some (word_value big (takeZ 4 (dropZ idx buf))))), pl))
      else Ret (Ready (Some (idx, fin, code, l, None)), pl))) = Ret (r, pl') /\
      ph_wf pl' /\ grows pl pl' /\ forall md : frame_md, r = Ready (Some md) -> md_ok md).
  { intros n size Hn Hsz fin code idx Hi. edestruct (with_copy_total (X := frame_md) size pl1)
      with (P := md_ok) as (r & pl' & Hr & Hwf' & Hg' & Hmd);
      [done|lia| |eexists r, pl'; split_and!; [exact Hr|done|by eapply grows_trans|done]].
    intros b2 pl2 Hwf2 Hg2 Hb2.
    destruct (bo_read_uint_total (dropZ 2 b2) n) as (v & -> & [Hv _]);
      [lia|rewrite lenZ_dropZ; lia|]. simpl.
    by apply Htail. }
  destruct (Z.eqb_spec (Z.land (nth 1 buf 0) 127) 126) as [_|]; [apply Hext; lia|].
  destruct (Z.eqb_spec (Z.land (nth 1 buf 0) 127) 127) as [_|]; [apply Hext; lia|].
  apply Htail; [done..|lia|apply Z.land_nonneg; lia].
Qed.

(** Whether the answer of [parse] consumed input: a frame, or the error for an
    over-long control frame. *)
Definition consumed (r : poll (option Frame) ProtocolError) : bool :=
  match r with
  | Ready (Some _) | PErr (WsE_InvalidLength _) => true
  | _ => false
  end.

Lemma parse_body_total (pl : PH) md :
  ph_wf pl -> md_ok md ->
  exists r pl', parse_body pl md = Ret (r, pl') /\ ph_wf pl' /\
    (consumed r = false -> grows pl pl').
Proof.
  destruct md as [[[[idx fin] code] length] mask]. intros Hwf [Hi Hl]. unfold parse_body.
  destruct (can_read_total (idx + length) pl Hwf) as (r & pl1 & -> & Hwf1 & Hg1 & Hc). simpl.
  destruct r as [[[]|]| |e]; try (by eexists _, _).
  specialize (Hc true eq_refl).
  destruct (drop_payload_pending idx pl1 Hwf1) as (pl2 & -> & Hwf2 & Hc2 & Hs2 & Hp2); [lia|].
  simpl. destruct (Z.eqb_spec length 0); [by eexists _, _|].
  destruct (read_exact_pending length pl2 Hwf2) as (pl3 & -> & Hwf3 & Hp3).
  { unfold pending. rewrite Hc2, lenZ_app, lenZ_dropZ by lia. lenZ_lia. }
  simpl. repeat case_match; by eexists _, _.
Qed.

Lemma parse_total (pl : PH) (server : bool) (max_size : Z) :
  ph_wf pl ->
  exists r pl', parse pl server max_size = Ret (r, pl') /\ ph_wf pl' /\
    (consumed r = false -> grows pl pl').
Proof.
  intros Hwf. unfold parse.
  destruct (get_chunk_total pl Hwf) as (r & pl1 & -> & Hwf1 & Hg1).
  destruct r as [[chunk|]| |e]; try (by eexists _, _).
  assert (Hbody : forall pl2 md, ph_wf pl2 -> grows pl pl2 -> md_ok md ->
    exists r pl', parse_body pl2 md = Ret (r, pl') /\ ph_wf pl' /\
      (consumed r = false -> grows pl pl')).
  { intros pl2 md Hwf2 Hg2 Hmd. destruct (parse_body_total pl2 md Hwf2 Hmd)
      as (r & pl' & ? & ? & ?). eexists _, _. split_and!; [done..|]. eauto using grows_trans. }
  destruct (read_chunk_md_total chunk server max_size) as (r & -> & Hmd). simpl.
  destruct r as [md| |e]; [by apply Hbody; auto| |by eexists _, _].
  destruct (read_copy_md_total pl1 server max_size Hwf1)
    as (r & pl2 & -> & Hwf2 & Hg2 & Hmd2). simpl.
  pose proof (grows_trans _ _ _ Hg1 Hg2).
  destruct r as [[md|]| |e]; [by apply Hbody; auto|by eexists _, _..].
Qed.

(** A frame laid out in the pending bytes is parsed and consumed. *)
Lemma parse_frame (payload rest : bytes) (code : OpCode) (finished : bool)
    (genmask : option Z) (max_size : Z) (pl : PH) :
  code <> Op_Bad -> is_bytes payload -> is_u64 (lenZ payload) -> lenZ payload <= max_size ->
  (code = Op_Ping \/ code = Op_Pong \/ code = Op_Close -> lenZ payload <= 125) ->
  (forall m, genmask = Some m -> is_u32 m) ->
  ph_wf pl ->
  pending pl = frame_bytes finished code (lenZ payload) genmask (masked_by genmask payload) ++ rest ->
  exists pl', parse pl (is_masked genmask) max_size =
    Ret (Ready (Some (mkFrame finished code payload)), pl') /\ ph_wf pl' /\ pending pl' = rest.
Proof.
  intros Hcode Hb Hl Hmax Hctl Hm Hwf Hp.
  assert (pending pl = frame_bytes finished code (lenZ payload) genmask
            (masked_by genmask payload ++ rest)) as Hp'.
  { rewrite Hp. unfold frame_bytes. by rewrite <-!app_assoc. }
  unfold parse. destruct (get_chunk_pending pl Hwf) as (c & pl1 & r & -> & Hwf1 & Hp1 & Hc).
  { by rewrite Hp'. }
  rewrite Hp' in Hp1, Hc. symmetry in Hc.
  rewrite (read_chunk_md_frame finished code (lenZ payload) genmask _ Hcode Hl Hm c r max_size Hc Hmax).
  simpl. destruct (lenZ c <? header_len (lenZ payload) genmask).
  - destruct (read_copy_md_frame finished code (lenZ payload) genmask _ Hcode Hl Hm pl1 max_size Hwf1 Hp1 Hmax)
      as (pl2 & Hwf2 & Hp2 & ->). simpl. by apply parse_body_ok.
  - by apply parse_body_ok.
Qed.

(** Frames survive the wire: whatever the chunking of the stream, when the
    bytes at hand are a rendered frame followed by [rest], [parse] returns the
    frame with its flag, code and payload, consumes exactly the frame, and neither
    panics nor waits. *)
Theorem frame_roundtrip (slack payload rest : bytes) (code : OpCode) (finished : bool)
    (genmask : option Z) (max_size : Z) (pl : PH) :
  code <> Op_Bad -> is_bytes payload -> is_bytes slack -> is_u64 (lenZ payload) ->
  lenZ payload <= max_size ->
  (code = Op_Ping \/ code = Op_Pong \/ code = Op_Close -> lenZ payload <= 125) ->
  (forall m, genmask = Some m -> is_u32 m) ->
  ph_wf pl -> pending pl = message slack payload code finished genmask ++ rest ->
  exists pl', parse pl (is_masked genmask) max_size =
    Ret (Ready (Some (mkFrame finished code payload)), pl') /\ ph_wf pl' /\ pending pl' = rest.
Proof.
  intros Hcode Hb Hs Hl Hmax Hctl Hm Hwf Hp.
  rewrite message_frame_bytes in Hp by done. by apply parse_frame.
Qed.

(** Parsing is safe on every input: for any stream, any queued bytes and any
    limit, [parse] returns without a panic (the [panic!()] of its last read, the
    integer reads and the chunk pops included), and unless it returns a frame or
    rejects an over-long control frame it keeps every queued byte. *)
Theorem parse_safe (pl : PH) (server : bool) (max_size : Z) :
  ph_wf pl ->
  exists r pl', parse pl server max_size = Ret (r, pl') /\ ph_wf pl' /\
    (consumed r = false -> grows pl pl').
Proof. apply parse_total. Qed.
End Frames.

(** ** The byteorder crate on concrete bytes *)
Definition be_byteorder : ByteOrder.
Proof.
  refine {| bo_read_uint := fun bs n =>
              if decide (n <= length bs)%nat
              then Ret (word_value true (take n bs) mod 2 ^ 64) else Panic;
            bo_write_u16 := word_bytes true 2;
            bo_write_u64 := word_bytes true 8 |}.
  - intros bs n _ Hn. by rewrite decide_True.
  - intros bs n Hn. rewrite decide_False by lia. done.
  - done.
  - done.
Defined.

Definition hello : bytes := b#"Hello".
Definition hello_frame : bytes :=
  @message be_byteorder false 9 3 [1; 2] hello Op_Text true (Some 0x04030201).
(** The frame in three pieces, the first one shorter than the header. *)
Definition hello_stream : script :=
  [Ready (Some (take 1 hello_frame)); Ready (Some (take 6 (drop 1 hello_frame)));
   Ready (Some (drop 7 hello_frame ++ [42]))].

Lemma frame_roundtrip_witness :
  exists pl', @parse be_byteorder false 9 3 script _ (PayloadHelper_new hello_stream) true 65536 =
    Ret (Ready (Some (mkFrame true Op_Text hello)), pl') /\ pending pl' = [42].
Proof.
  destruct (@frame_roundtrip be_byteorder false 9 3 script _ [1; 2] hello [42] Op_Text true
              (Some 0x04030201) 65536 (PayloadHelper_new hello_stream))
    as (pl' & Hp & _ & Hr).
  - discriminate.
  - apply bytes_of_string_ok.
  - repeat constructor; vm_compute; discriminate.
  - vm_compute. split; [discriminate|reflexivity].
  - vm_compute. discriminate.
  - intros [?|[?|?]]; discriminate.
  - intros m Hm. simplify_eq. vm_compute. split; [discriminate|reflexivity].
  - reflexivity.
  - vm_compute. reflexivity.
  - eauto.
Defined.

Lemma parse_safe_witness :
  exists r pl', @parse be_byteorder false 0 0 script _
      (PayloadHelper_new [Ready (Some [0x81]); Ready (Some [0xFF; 1; 2])]) true 10 = Ret (r, pl') /\
    consumed r = false /\ content pl' = [0x81; 0xFF; 1; 2].
Proof.
  destruct (@parse_safe be_byteorder false 0 0 script _
      (PayloadHelper_new [Ready (Some [0x81]); Ready (Some [0xFF; 1; 2])]) true 10 eq_refl)
    as (r & pl' & Hp & _).
  vm_compute in Hp. injection Hp as <- <-. eexists _, _. split; [vm_compute; reflexivity|done].
Defined.
