(* ===== verification/WsStream.v ===== *)
(** * WebSocket sessions (src/src/ws/mod.rs)

    The opening handshake and the stream of messages read from a request's
    payload: frames are parsed with [WsFrame.parse], control frames and text are
    decoded, fragmented messages are refused. *)
From S2P Require Import Prelude Words StrLib Errors Http Response PayloadHelper WsMask WsProto WsFrame.
Open Scope Z_scope.

Inductive Message : Type :=
| Msg_Text (s : bytes)
| Msg_Binary (b : Binary)
| Msg_Ping (s : bytes)
| Msg_Pong (s : bytes)
| Msg_Close (code : CloseCode).

#[export] Instance Message_eq_dec : EqDecision Message.
Proof. solve_decision. Defined.

(** ** The opening handshake *)
Section Handshake.
Context {H : Type} `{HeaderMap H} `{HeaderConv} {J C : Type} `{CookieJar J C}.
Context (sha1 base64 : bytes -> bytes).

(** [handshake], on the thread's pool of response heads. *)
Definition handshake (req : HttpInnerMessage H) (tl : ResponsePool H)
  : result (HttpResponseBuilder H J * ResponsePool H) HandshakeError :=
  (* WebSocket accepts only GET *)
  if negb (bool_decide (msg_method req = GET)) then Err HsE_GetMethodRequired else
  (* Check for "UPGRADE" to websocket header *)
  let has_hdr :=
    match hm_get UPGRADE (msg_headers req) with
    | Some hdr => match hv_to_str hdr with
                  | Some s => contains (to_lowercase s) (b#"websocket")
                  | None => false
                  end
    | None => false
    end in
  if negb has_hdr then Err HsE_NoWebsocketUpgrade else
  (* Upgrade connection *)
  if negb (req_upgrade req) then Err HsE_NoConnectionUpgrade else
  (* check supported version *)
  if negb (hm_contains SEC_WEBSOCKET_VERSION (msg_headers req)) then Err HsE_NoVersionHeader else
  let supported_ver :=
    match hm_get SEC_WEBSOCKET_VERSION (msg_headers req) with
    | Some hdr => bool_decide (hdr = b#"13") || bool_decide (hdr = b#"8") || bool_decide (hdr = b#"7")
    | None => false
    end in
  if negb supported_ver then Err HsE_UnsupportedVersion else
  (* check client handshake for validity: [contains_key], then [get] and [unwrap] *)
  match hm_get SEC_WEBSOCKET_KEY (msg_headers req) with
  | None => Err HsE_BadWebsocketKey
  | Some key =>
      let key := hash_key sha1 base64 key in
      let '(b, tl) := get_builder tl 101 in
      let b := rb_connection_type Conn_Upgrade b in
      let b := rb_header UPGRADE (b#"websocket") b in
      let b := rb_header TRANSFER_ENCODING (b#"chunked") b in
      let b := rb_header SEC_WEBSOCKET_ACCEPT key b in
      Ok ((rb_take b).1, tl)
  end.

(** [start]: [ctx] is the context of the actor, to which the stream of messages was added. *)
Definition ws_start (req : HttpInnerMessage H) (ctx : nat) (tl : ResponsePool H)
  : run (result (InnerHttpResponse H) Error * ResponsePool H) :=
  match handshake req tl with
  | Err e => Ret (Err (Error_from e), tl)
  | Ok (resp, tl) => '(r, _, tl) ← rb_body (Body_Actor ctx) resp tl; Ret (Ok r, tl)
  end.

(** What a client must send. *)
Definition handshake_request_ok (req : HttpInnerMessage H) (key : bytes) : Prop :=
  msg_method req = GET /\
  (exists v, hm_get UPGRADE (msg_headers req) = Some v /\ is_Some (hv_to_str v) /\
             contains (to_lowercase v) (b#"websocket") = true) /\
  (exists v, hm_get CONNECTION (msg_headers req) = Some v /\ is_Some (hv_to_str v) /\
             contains (to_lowercase v) (b#"upgrade") = true) /\
  (exists v, hm_get SEC_WEBSOCKET_VERSION (msg_headers req) = Some v /\
             v ∈ [b#"13"; b#"8"; b#"7"]) /\
  hm_get SEC_WEBSOCKET_KEY (msg_headers req) = Some key.

Lemma req_upgrade_get (req : HttpInnerMessage H) :
  msg_method req = GET ->
  req_upgrade req = true <->
  exists v, hm_get CONNECTION (msg_headers req) = Some v /\ is_Some (hv_to_str v) /\
            contains (to_lowercase v) (b#"upgrade") = true.
Proof.
  intros Hm. unfold req_upgrade. destruct (hm_get CONNECTION (msg_headers req)) as [v|]; simpl.
  - destruct (hv_to_str v) as [s|] eqn:Hs.
    + apply hv_to_str_id in Hs as Heq. subst s. split; [by eauto 6|]. intros (v' & Hv & _ & Hc). congruence.
    + rewrite Hm. split; [done|]. intros (v' & Hv & [s Hs'] & _). congruence.
  - rewrite Hm. split; [done|]. by intros (v' & Hv & _).
Qed.

Lemma websocket_hdr_get (req : HttpInnerMessage H) :
  match hm_get UPGRADE (msg_headers req) with
  | Some hdr => match hv_to_str hdr with
                | Some s => contains (to_lowercase s) (b#"websocket")
                | None => false
                end
  | None => false
  end = true <->
  exists v, hm_get UPGRADE (msg_headers req) = Some v /\ is_Some (hv_to_str v) /\
            contains (to_lowercase v) (b#"websocket") = true.
Proof.
  destruct (hm_get UPGRADE (msg_headers req)) as [v|].
  - destruct (hv_to_str v) as [s|] eqn:Hs.
    + apply hv_to_str_id in Hs as Heq. subst s. split; [by eauto 6|]. intros (v' & Hv & _ & Hc). congruence.
    + split; [done|]. intros (v' & Hv & [s Hs'] & _). congruence.
  - split; [done|]. by intros (v' & Hv & _).
Qed.

Lemma handshake_ok (req : HttpInnerMessage H) tl key :
  handshake_request_ok req key ->
  exists b tl', handshake req tl = Ok (b, tl') /\
    b = rb_header SEC_WEBSOCKET_ACCEPT (hash_key sha1 base64 key)
          (rb_header TRANSFER_ENCODING (b#"chunked")
             (rb_header UPGRADE (b#"websocket")
                (rb_connection_type Conn_Upgrade (get_builder tl 101).1))).
Proof.
  intros (Hm & Hu & Hc & (v & Hv & Hin) & Hk). unfold handshake.
  rewrite bool_decide_true by done. cbn [negb].
  rewrite (proj2 (websocket_hdr_get req) Hu). cbn [negb].
  rewrite (proj2 (req_upgrade_get req Hm) Hc). cbn [negb].
  rewrite hm_contains_get, Hv, bool_decide_true by eauto. cbn [negb].
  assert (bool_decide (v = b#"13") || bool_decide (v = b#"8") || bool_decide (v = b#"7") = true) as ->.
  { rewrite !orb_true_iff, !bool_decide_eq_true. set_solver. }
  cbn [negb]. rewrite Hk. destruct (get_builder tl 101) as [b tl']. by eexists _, _.
Qed.

Lemma handshake_ok_inv (req : HttpInnerMessage H) tl b tl' :
  handshake req tl = Ok (b, tl') -> exists key, handshake_request_ok req key.
Proof.
  unfold handshake. case_bool_decide as Hm; [cbn [negb]|done].
  destruct (match hm_get UPGRADE (msg_headers req) with Some _ => _ | None => _ end) eqn:Hu; [|done].
  destruct (req_upgrade req) eqn:Hc; [|done]. cbn [negb].
  destruct (negb (hm_contains _ _)); [done|].
  destruct (hm_get SEC_WEBSOCKET_VERSION (msg_headers req)) as [v|] eqn:Hv; [|done].
  destruct (bool_decide (v = b#"13") || bool_decide (v = b#"8") || bool_decide (v = b#"7")) eqn:Hin;
    [|done].
  rewrite !orb_true_iff, !bool_decide_eq_true in Hin. cbn [negb].
  destruct (hm_get SEC_WEBSOCKET_KEY (msg_headers req)) as [key|] eqn:Hk; [|done].
  intros _. exists key. split; [done|]. split; [by apply websocket_hdr_get|].
  split; [by apply req_upgrade_get|]. split; [|done]. exists v. split; [done|]. set_solver.
Qed.

(** The handshake accepts exactly the requests RFC 6455 (and its drafts 7 and 8)
    ask for: [GET], [Upgrade] naming websocket, [Connection] naming upgrade, version
    13, 8 or 7, and a key; and then the response that is sent is 101, upgraded,
    with the [Sec-WebSocket-Accept] value computed from the key. *)
Theorem handshake_accepts (req : HttpInnerMessage H) (tl : ResponsePool H) (body : Body) :
  response_pool_reachable (J := J) tl ->
  (forall x, forallb value_byte (base64 x) = true) ->
  (forall k, k ∈ [UPGRADE; TRANSFER_ENCODING; SEC_WEBSOCKET_ACCEPT] -> hn_try_from k = Some k) ->
  ((exists b tl', handshake req tl = Ok (b, tl')) <-> exists key, handshake_request_ok req key) /\
  (forall b tl' key, handshake req tl = Ok (b, tl') -> handshake_request_ok req key ->
     exists r b' tl'', rb_body body b tl' = Ret (r, b', tl'') /\ r_status r = 101 /\
       resp_upgrade r = true /\
       hm_get UPGRADE (r_headers r) = Some (b#"websocket") /\
       hm_get TRANSFER_ENCODING (r_headers r) = Some (b#"chunked") /\
       hm_get SEC_WEBSOCKET_ACCEPT (r_headers r) = Some (base64 (sha1 (key ++ WS_GUID)))).
Proof.
  intros Htl Hb64 Hnames. split; [split|].
  - intros (b & tl' & Hh). by eapply handshake_ok_inv.
  - intros [key Hreq]. destruct (handshake_ok req tl key Hreq) as (b & tl' & Hh & _). eauto.
  - intros b tl' key Hh Hreq. destruct (handshake_ok req tl key Hreq) as (b0 & tl0 & Hh' & Hb).
    rewrite Hh in Hh'. simplify_eq.
    set (ops := [B_connection_type Conn_Upgrade; B_header UPGRADE (b#"websocket");
                 B_header TRANSFER_ENCODING (b#"chunked");
                 B_header SEC_WEBSOCKET_ACCEPT (hash_key sha1 base64 key)] : list (builder_op C)).
    change (rb_header SEC_WEBSOCKET_ACCEPT _ _) with (builder_run ops (get_builder tl 101).1).
    destruct (builder_body_fresh tl tl0 101 ops body Htl) as (r & b & b' & tl' & Hr & Hf).
    exists r, b, tl'. split; [done|]. clear Hr. revert Hf. unfold ops. clear ops. simpl.
    unfold rb_header. simpl.
    repeat (rewrite ?Hnames by set_solver; rewrite ?hv_try_from_ok by (done || apply Hb64); simpl).
    intros Hf. injection Hf as <- _ _. simpl.
    rewrite !hm_get_append. repeat (case_decide; [try discriminate|]); rewrite ?hm_get_empty; done.
Qed.
End Handshake.

(** ** The stream of messages *)
Section Messages.
Context `{ByteOrder} (big : bool) (uninit addr : Z) {S : Type} `{Stream S}.

Record WsStream : Type := mkWs {
  ws_rx : PayloadHelper S;
  ws_closed : bool;
  ws_max_size : Z;
}.

Definition WsStream_new (stream : S) : WsStream := mkWs (PayloadHelper_new stream) false 65536.
Definition WsStream_max_size (size : Z) (w : WsStream) : WsStream := mkWs (ws_rx w) (ws_closed w) size.
Definition set_ws_rx (rx : PayloadHelper S) (w : WsStream) : WsStream :=
  mkWs rx (ws_closed w) (ws_max_size w).
Definition set_ws_closed (w : WsStream) : WsStream := mkWs (ws_rx w) true (ws_max_size w).

(** [impl Stream for WsStream]. *)
Definition ws_poll (w : WsStream) : run (poll (option Message) ProtocolError * WsStream) :=
  if ws_closed w then Ret (Ready None, w) else
  '(r, rx) ← parse big uninit addr (ws_rx w) true (ws_max_size w);
  let w := set_ws_rx rx w in
  match r with
  | Ready (Some frame) =>
      let '(finished, opcode, payload) := Frame_unpack frame in
      (* continuation is not supported *)
      if negb finished then Ret (PErr WsE_NoContinuation, set_ws_closed w) else
      match opcode with
      | Op_Continue => Ret (PErr WsE_NoContinuation, w)
      | Op_Bad => Ret (PErr WsE_BadOpCode, set_ws_closed w)
      | Op_Close =>
          let w := set_ws_closed w in
          code ← bo_read_uint payload 2;
          Ret (Ready (Some (Msg_Close (CloseCode_from_u16 (code mod 2 ^ 16)))), w)
      | Op_Ping => Ret (Ready (Some (Msg_Ping (from_utf8_lossy payload))), w)
      | Op_Pong => Ret (Ready (Some (Msg_Pong (from_utf8_lossy payload))), w)
      | Op_Binary => Ret (Ready (Some (Msg_Binary (Bin_Bytes payload))), w)
      | Op_Text =>
          match from_utf8 payload with
          | Some s => Ret (Ready (Some (Msg_Text s)), w)
          | None => Ret (PErr WsE_BadEncoding, set_ws_closed w)
          end
      end
  | Ready None => Ret (Ready None, w)
  | NotReady => Ret (NotReady, w)
  | PErr e => Ret (PErr e, set_ws_closed w)
  end.

(** The operation code and payload by which a client sends a message, as
    [ws/client.rs] and [ws/context.rs] render them. *)
Definition message_frame (m : Message) : OpCode * bytes :=
  match m with
  | Msg_Text s => (Op_Text, s)
  | Msg_Binary b => (Op_Binary, Binary_as_ref b)
  | Msg_Ping s => (Op_Ping, s)
  | Msg_Pong s => (Op_Pong, s)
  | Msg_Close c => (Op_Close, word_bytes true 2 (CloseCode_into_u16 c))
  end.

(** Messages a server can be sent: valid UTF-8 text, close codes in their normal
    form. *)
Definition message_ok (m : Message) : Prop :=
  match m with
  | Msg_Text s | Msg_Ping s | Msg_Pong s => from_utf8 s = Some s
  | Msg_Binary b => b = Bin_Bytes (Binary_as_ref b)
  | Msg_Close c => is_u16 (CloseCode_into_u16 c) /\ CloseCode_from_u16 (CloseCode_into_u16 c) = c
  end.
Definition is_close (m : Message) : bool := match m with Msg_Close _ => true | _ => false end.

Lemma read_close_code c reason :
  is_u16 c -> bo_read_uint (word_bytes true 2 c ++ reason) 2 = Ret c.
Proof.
  intros Hc. assert (length (word_bytes true 2 c) = 2)%nat as Hl by apply length_word_bytes.
  rewrite bo_read_uint_ok by (rewrite ?length_app; lia).
  rewrite take_app_le, firstn_all2 by lia. rewrite word_value_bytes by (unfold is_u16 in Hc; simpl; lia).
  unfold is_u16 in Hc. rewrite Z.mod_small by lia. done.
Qed.

Lemma ws_poll_frame w f rx :
  ws_closed w = false -> parse big uninit addr (ws_rx w) true (ws_max_size w) = Ret (Ready (Some f), rx) ->
  fr_finished f = true ->
  forall m, message_ok m -> fr_opcode f = (message_frame m).1 ->
  (exists reason, fr_payload f = (message_frame m).2 ++ reason /\ (is_close m = false -> reason = [])) ->
  ws_poll w = Ret (Ready (Some m), mkWs rx (is_close m) (ws_max_size w)).
Proof.
  intros Hc Hp Hf m Hm Hop (reason & Hpl & Hr). unfold ws_poll. rewrite Hc, Hp. simpl.
  destruct f as [fin op payload]; simpl in *. subst. simpl. unfold set_ws_rx, set_ws_closed. simpl.
  rewrite Hc. destruct m as [s|b|s|s|c]; simpl in *; try rewrite (Hr eq_refl), app_nil_r.
  - by rewrite Hm.
  - by rewrite <-Hm.
  - by rewrite (from_utf8_lossy_valid _ _ Hm).
  - by rewrite (from_utf8_lossy_valid _ _ Hm).
  - destruct Hm as [Hu Hcc].
    change (bo_read_uint _ 2) with (bo_read_uint (word_bytes true 2 (CloseCode_into_u16 c) ++ reason) 2).
    rewrite read_close_code by done. simpl.
    rewrite Z.mod_small by (unfold is_u16 in Hu; lia). by rewrite Hcc.
Qed.

(** Messages reach the application: when the bytes at hand are the masked
    frame of a message, however they were cut into chunks, [poll] yields that message,
    consumes exactly its frame, and closes the stream exactly for a close message
    (with any close reason). *)
Theorem ws_message_delivered (slack reason rest : bytes) (m : Message) (mask : Z) (w : WsStream) :
  message_ok m -> (is_close m = false -> reason = []) ->
  is_bytes ((message_frame m).2 ++ reason) -> is_bytes slack -> is_u32 mask ->
  is_u64 (lenZ ((message_frame m).2 ++ reason)) ->
  lenZ ((message_frame m).2 ++ reason) <= ws_max_size w ->
  ((message_frame m).1 <> Op_Text -> (message_frame m).1 <> Op_Binary ->
   lenZ ((message_frame m).2 ++ reason) <= 125) ->
  ws_closed w = false -> ph_wf (ws_rx w) ->
  pending (ws_rx w) =
    message big uninit addr slack ((message_frame m).2 ++ reason) (message_frame m).1 true (Some mask)
    ++ rest ->
  exists w', ws_poll w = Ret (Ready (Some m), w') /\ ws_closed w' = is_close m /\
    ph_wf (ws_rx w') /\ pending (ws_rx w') = rest.
Proof.
  intros Hm Hr Hb Hs Hk Hu Hmax Hctl Hc Hwf Hp.
  assert ((message_frame m).1 <> Op_Bad) as Hbad by by destruct m.
  rewrite message_frame_bytes in Hp by (done || intros ??; by simplify_eq).
  destruct (parse_frame big uninit addr _ rest _ true (Some mask) (ws_max_size w) (ws_rx w) Hbad Hb Hu Hmax)
    as (rx & Hparse & Hwf' & Hrest); [|intros ??; by simplify_eq|done|done|].
  { intros [E|[E|E]]; apply Hctl; by rewrite E. }
  exists (mkWs rx (is_close m) (ws_max_size w)).
  split; [|done]. eapply ws_poll_frame; eauto.
Qed.

(** Sessions end in order: a closed stream answers [None] for ever and reads
    nothing more; a protocol error closes the stream, with the one exception of an
    unfragmented continuation frame, which is refused and leaves the stream open. *)
Theorem ws_error_closes (w w' : WsStream) (r : poll (option Message) ProtocolError) :
  ws_poll w = Ret (r, w') ->
  (ws_closed w = true -> r = Ready None /\ w' = w) /\
  (forall e, r = PErr e ->
     ws_closed w' = true \/
     (e = WsE_NoContinuation /\
      exists p rx, parse big uninit addr (ws_rx w) true (ws_max_size w) =
        Ret (Ready (Some (mkFrame true Op_Continue p)), rx))).
Proof.
  intros Hp. unfold ws_poll in Hp. destruct (ws_closed w) eqn:Hc; [naive_solver|].
  split; [done|]. intros e ->.
  destruct (parse big uninit addr (ws_rx w) true (ws_max_size w)) as [[r rx]| |]; simpl in Hp; [|done..].
  destruct r as [[[fin op p]|]| |e']; simpl in Hp; simplify_eq; [|by left].
  destruct fin; simpl in Hp; simplify_eq; [|by left].
  destruct op; simpl in Hp; try done; simplify_eq.
  - right. eauto.
  - destruct (from_utf8 p); simplify_eq. by left.
  - by destruct (bo_read_uint p 2).
  - by left.
Qed.

Lemma ws_poll_panic_inv w :
  ph_wf (ws_rx w) -> ws_poll w = Panic ->
  ws_closed w = false /\
  exists p rx, parse big uninit addr (ws_rx w) true (ws_max_size w) =
    Ret (Ready (Some (mkFrame true Op_Close p)), rx) /\ lenZ p < 2.
Proof.
  intros Hwf. unfold ws_poll. destruct (ws_closed w); [done|].
  destruct (parse_total big uninit addr (ws_rx w) true (ws_max_size w) Hwf) as (r & rx & Hp & _).
  rewrite Hp. simpl. destruct r as [[[fin op p]|]| |e']; simpl; try done.
  destruct fin; simpl; [|done]. destruct op; simpl; try done; [by destruct (from_utf8 p)|].
  intros Hpanic. split; [done|]. exists p, rx. split; [done|].
  destruct (decide (2 <= lenZ p)) as [Hl|]; [|lia].
  rewrite bo_read_uint_ok in Hpanic by (unfold lenZ in Hl; lia). done.
Qed.

(** Reading messages panics exactly when a close frame carries less than the two
    bytes of a close code, whatever the bytes received; and such frames are what
    [Frame::close] renders for [CloseCode::Empty], so a peer of the same library
    that closes without a code aborts the reader. *)
Theorem ws_close_without_code_panics (w : WsStream) :
  ph_wf (ws_rx w) ->
  (ws_poll w = Panic <->
   ws_closed w = false /\
   exists p rx, parse big uninit addr (ws_rx w) true (ws_max_size w) =
     Ret (Ready (Some (mkFrame true Op_Close p)), rx) /\ lenZ p < 2) /\
  (forall slack mask reason rest, is_bytes slack -> is_u32 mask -> 0 <= ws_max_size w ->
   ws_closed w = false ->
   pending (ws_rx w) = close big uninit addr slack Cc_Empty reason (Some mask) ++ rest ->
   ws_poll w = Panic).
Proof.
  intros Hwf.
  assert (forall p rx, ws_closed w = false ->
    parse big uninit addr (ws_rx w) true (ws_max_size w) = Ret (Ready (Some (mkFrame true Op_Close p)), rx) ->
    lenZ p < 2 -> ws_poll w = Panic) as Hpanic.
  { intros p rx Hc Hp Hl. unfold ws_poll. rewrite Hc, Hp. simpl.
    by rewrite bo_read_uint_short by (unfold lenZ in Hl; lia). }
  split; [split; [by apply ws_poll_panic_inv|naive_solver]|].
  intros slack mask reason rest Hs Hk Hmax Hc Hp. unfold close in Hp.
  assert (forall m, Some mask = Some m -> is_u32 m) as Hmask by (intros ??; by simplify_eq).
  rewrite message_frame_bytes in Hp by (done || constructor).
  destruct (parse_frame big uninit addr [] rest Op_Close true (Some mask) (ws_max_size w) (ws_rx w))
    as (rx & Hparse & _); try done.
  by apply (Hpanic [] rx).
Qed.
End Messages.
Arguments WsStream : clear implicits.

(** ** Witnesses *)
Definition upgrade_request : HttpInnerMessage (list (bytes * bytes)) :=
  {| msg_version := HTTP_11; msg_method := GET; msg_uri := b#"/ws";
     msg_headers := [(UPGRADE, b#"WebSocket"); (CONNECTION, b#"keep-alive, Upgrade");
                     (SEC_WEBSOCKET_VERSION, b#"13"); (SEC_WEBSOCKET_KEY, b#"abcd")];
     msg_extensions := []; msg_params := []; msg_cookies := None; msg_query := [];
     msg_query_loaded := false; msg_addr := None; msg_payload := None; msg_info := None;
     msg_resource := Notset |}.

Lemma upgrade_request_ok : handshake_request_ok upgrade_request (b#"abcd").
Proof.
  split; [done|]. split; [|split; [|split; [|done]]].
  - exists (b#"WebSocket"). split; [reflexivity|]. split; [by eexists|reflexivity].
  - exists (b#"keep-alive, Upgrade"). split; [reflexivity|]. split; [by eexists|reflexivity].
  - exists (b#"13"). split; [reflexivity|]. set_solver.
Qed.

(** Stand-ins for the digest and the encoder. *)
Definition toy_sha1 (s : bytes) : bytes := [lenZ s mod 256].
Definition toy_base64 (s : bytes) : bytes := map (fun b => 65 + b mod 26) s.

Lemma toy_base64_ok x : forallb value_byte (toy_base64 x) = true.
Proof.
  induction x as [|b x IH]; [done|]. simpl. rewrite IH, andb_true_r. unfold value_byte.
  pose proof (Z.mod_pos_bound b 26 eq_refl).
  rewrite !orb_true_iff, !andb_true_iff, negb_true_iff, !Z.leb_le, Z.ltb_lt, Z.eqb_neq. lia.
Qed.

Lemma handshake_accepts_witness :
  exists b tl' r b' tl'',
    @handshake (list (bytes * bytes)) _ ascii_conv (list bytes) toy_sha1 toy_base64
      upgrade_request used_pool = Ok (b, tl') /\
    @rb_body (list (bytes * bytes)) _ ascii_conv (list bytes) bytes _ (Body_Actor 0) b tl' =
      Ret (r, b', tl'') /\ r_status r = 101 /\
    hm_get SEC_WEBSOCKET_ACCEPT (r_headers r) = Some [65 + 40 mod 26].
Proof.
  destruct (@handshake_accepts (list (bytes * bytes)) _ ascii_conv (list bytes) bytes _
              toy_sha1 toy_base64 upgrade_request used_pool (Body_Actor 0)) as [Hiff Hresp].
  - apply used_pool_reachable.
  - apply toy_base64_ok.
  - intros k Hk. repeat (apply elem_of_cons in Hk as [->|Hk]; [reflexivity|]). set_solver.
  - destruct (proj2 Hiff (ex_intro _ _ upgrade_request_ok)) as (b & tl' & Hh).
    destruct (Hresp b tl' _ Hh upgrade_request_ok) as (r & b' & tl'' & Hr & Hs & _ & _ & _ & Ha).
    exists b, tl', r, b', tl''. repeat split; [exact Hh|exact Hr|exact Hs|].
    rewrite Ha. vm_compute. reflexivity.
Defined.

Definition ping_frame : bytes :=
  @message be_byteorder false 9 3 [] (b#"hi") Op_Ping true (Some 0x04030201).
Definition ping_stream_all : WsStream script :=
  WsStream_new [Ready (Some (take 3 ping_frame)); Ready (Some (drop 3 ping_frame ++ [7]))].

Lemma ws_message_delivered_witness :
  exists w', @ws_poll be_byteorder false 9 3 script _ ping_stream_all =
    Ret (Ready (Some (Msg_Ping (b#"hi"))), w') /\ ws_closed w' = false /\ pending (ws_rx w') = [7].
Proof.
  destruct (@ws_message_delivered be_byteorder false 9 3 script _ [] [] [7] (Msg_Ping (b#"hi"))
              0x04030201 ping_stream_all) as (w' & Hp & Hc & _ & Hr).
  - reflexivity.
  - reflexivity.
  - rewrite app_nil_r. apply bytes_of_string_ok.
  - constructor.
  - vm_compute. split; [discriminate|reflexivity].
  - vm_compute. split; [discriminate|reflexivity].
  - vm_compute. discriminate.
  - intros _ _. vm_compute. discriminate.
  - reflexivity.
  - reflexivity.
  - vm_compute. reflexivity.
  - eauto.
Defined.

(** An unmasked frame is an error and closes the stream. *)
Definition unmasked_stream : WsStream script := WsStream_new [Ready (Some [0x81; 0x00])].

Lemma ws_error_closes_witness :
  exists w', @ws_poll be_byteorder false 9 3 script _ unmasked_stream =
    Ret (PErr WsE_UnmaskedFrame, w') /\ ws_closed w' = true.
Proof.
  destruct (@ws_poll be_byteorder false 9 3 script _ unmasked_stream) as [[r w']| |] eqn:Hp;
    [|vm_compute in Hp; discriminate..].
  assert (r = PErr WsE_UnmaskedFrame) as -> by (vm_compute in Hp; congruence).
  exists w'. split; [reflexivity|].
  destruct (@ws_error_closes be_byteorder false 9 3 script _ unmasked_stream _ _ Hp) as [_ He].
  destruct (He _ eq_refl) as [Hc|[Habs _]]; [exact Hc|discriminate].
Defined.

Definition empty_close : bytes := @close be_byteorder false 9 3 [] Cc_Empty [] (Some 5).
Definition empty_close_stream : WsStream script := WsStream_new [Ready (Some empty_close)].

Lemma ws_close_without_code_panics_witness :
  @ws_poll be_byteorder false 9 3 script _ empty_close_stream = Panic.
Proof.
  destruct (@ws_close_without_code_panics be_byteorder false 9 3 script _ empty_close_stream eq_refl)
    as [_ Hp].
  apply (Hp [] 5 [] []).
  - constructor.
  - vm_compute. split; [discriminate|reflexivity].
  - vm_compute. discriminate.
  - reflexivity.
  - vm_compute. reflexivity.
Defined.
