(* ===== verification/Decoder.v ===== *)
(** * Body decoders (src/src/server/h1.rs, [Decoder] and [ChunkedState])

    The three ways a request body is delimited, decoded from whatever part of it
    is in the read buffer.  [u64] arithmetic wraps, as it does in release builds. *)
From S2P Require Import Prelude StrLib Errors.
Open Scope Z_scope.

Inductive ChunkedState : Type :=
| Size | SizeLws | Extension | SizeLf | ChunkBody | BodyCr | BodyLf | EndCr | EndLf | ChunkEnd.

Inductive Kind : Type :=
| Length (remaining : Z)
| Chunked (state : ChunkedState) (size : Z)
| Eof (is_eof : bool).

#[export] Instance ChunkedState_eq_dec : EqDecision ChunkedState.
Proof. solve_decision. Defined.
#[export] Instance Kind_eq_dec : EqDecision Kind.
Proof. solve_decision. Defined.

Definition Decoder_length (x : Z) : Kind := Length x.
Definition Decoder_chunked : Kind := Chunked Size 0.
Definition Decoder_eof : Kind := Eof false.

Definition Decoder_is_eof (k : Kind) : bool :=
  match k with
  | Length 0 | Chunked ChunkEnd _ | Eof true => true
  | _ => false
  end.

(** [u64] arithmetic of a release build. *)
Definition u64_wrap (n : Z) : Z := n mod 2 ^ 64.

Definition invalid_input (msg : string) : IoError := mkIoError InvalidInput msg.

(** A step of the machine: the answer, the rest of the buffer, [size] and [buf]. *)
Definition step_result : Type := poll ChunkedState IoError * bytes * Z * option bytes.

(** [byte!]: answers [NotReady] on an empty buffer and takes one byte otherwise. *)
Definition with_byte (rdr : bytes) (size : Z) (k : Z -> bytes -> step_result) : step_result :=
  match rdr with
  | b :: rdr => k b rdr
  | [] => (NotReady, [], size, None)
  end.

Definition read_size (rdr : bytes) (size : Z) : step_result :=
  let radix := 16 in
  with_byte rdr size (fun b rdr =>
    if (48 <=? b) && (b <=? 57) then
      (Ready Size, rdr, u64_wrap (u64_wrap (size * radix) + (b - 48)), None)
    else if (97 <=? b) && (b <=? 102) then
      (Ready Size, rdr, u64_wrap (u64_wrap (size * radix) + (b + 10 - 97)), None)
    else if (65 <=? b) && (b <=? 70) then
      (Ready Size, rdr, u64_wrap (u64_wrap (size * radix) + (b + 10 - 65)), None)
    else if (b =? 9) || (b =? 32) then (Ready SizeLws, rdr, size, None)
    else if b =? 59 then (Ready Extension, rdr, size, None)
    else if b =? 13 then (Ready SizeLf, rdr, size, None)
    else (PErr (invalid_input "Invalid chunk size line: Invalid Size"), rdr, size, None)).

Definition read_size_lws (rdr : bytes) (size : Z) : step_result :=
  with_byte rdr size (fun b rdr =>
    (* LWS can follow the chunk size, but no more digits can come *)
    if (b =? 9) || (b =? 32) then (Ready SizeLws, rdr, size, None)
    else if b =? 59 then (Ready Extension, rdr, size, None)
    else if b =? 13 then (Ready SizeLf, rdr, size, None)
    else (PErr (invalid_input "Invalid chunk size linear white space"), rdr, size, None)).

Definition read_extension (rdr : bytes) (size : Z) : step_result :=
  with_byte rdr size (fun b rdr =>
    if b =? 13 then (Ready SizeLf, rdr, size, None)
    else (Ready Extension, rdr, size, None)).  (* no supported extensions *)

Definition read_size_lf (rdr : bytes) (size : Z) : step_result :=
  with_byte rdr size (fun b rdr =>
    if (b =? 10) && (0 <? size) then (Ready ChunkBody, rdr, size, None)
    else if (b =? 10) && (size =? 0) then (Ready EndCr, rdr, size, None)
    else (PErr (invalid_input "Invalid chunk size LF"), rdr, size, None)).

Definition read_body (rdr : bytes) (rem : Z) : step_result :=
  let len := lenZ rdr in
  if len =? 0 then (Ready ChunkBody, rdr, rem, None)
  else
    let '(slice, rdr, rem) :=
      if len <? rem then (rdr, [], rem - len)
      else (takeZ rem rdr, dropZ rem rdr, 0) in
    if 0 <? rem then (Ready ChunkBody, rdr, rem, Some slice)
    else (Ready BodyCr, rdr, rem, Some slice).

Definition expect_byte (c : Z) (next : ChunkedState) (msg : string) (rdr : bytes) (size : Z)
  : step_result :=
  with_byte rdr size (fun b rdr =>
    if b =? c then (Ready next, rdr, size, None)
    else (PErr (invalid_input msg), rdr, size, None)).

Definition read_body_cr := expect_byte 13 BodyLf "Invalid chunk body CR".
Definition read_body_lf := expect_byte 10 Size "Invalid chunk body LF".
Definition read_end_cr := expect_byte 13 EndLf "Invalid chunk end CR".
Definition read_end_lf := expect_byte 10 ChunkEnd "Invalid chunk end LF".

Definition step (state : ChunkedState) (body : bytes) (size : Z) : step_result :=
  match state with
  | Size => read_size body size
  | SizeLws => read_size_lws body size
  | Extension => read_extension body size
  | SizeLf => read_size_lf body size
  | ChunkBody => read_body body size
  | BodyCr => read_body_cr body size
  | BodyLf => read_body_lf body size
  | EndCr => read_end_cr body size
  | EndLf => read_end_lf body size
  | ChunkEnd => (Ready ChunkEnd, body, size, None)
  end.

Definition decode_result : Type := poll (option bytes) IoError * Kind * bytes.

(** The loop of [decode] for chunked bodies; every turn but the last takes a byte. *)
Fixpoint chunked_loop (fuel : nat) (state : ChunkedState) (size : Z) (body : bytes)
  : run decode_result :=
  match fuel with
  | O => Timeout
  | S fuel =>
      (* advances the chunked state *)
      match step state body size with
      | (NotReady, body, size, _) => Ret (NotReady, Chunked state size, body)
      | (PErr e, body, size, _) => Ret (PErr e, Chunked state size, body)
      | (Ready state, body, size, buf) =>
          if decide (state = ChunkEnd) then Ret (Ready None, Chunked state size, body)
          else match buf with
               | Some buf => Ret (Ready (Some buf), Chunked state size, body)
               | None =>
                   match body with
                   | [] => Ret (NotReady, Chunked state size, body)
                   | _ => chunked_loop fuel state size body
                   end
               end
      end
  end.

Definition decode (k : Kind) (body : bytes) : run decode_result :=
  match k with
  | Length remaining =>
      if remaining =? 0 then Ret (Ready None, k, body)
      else match body with
           | [] => Ret (NotReady, k, body)
           | _ =>
               let len := lenZ body in
               if len <? remaining then Ret (Ready (Some body), Length (remaining - len), [])
               else Ret (Ready (Some (takeZ remaining body)), Length 0, dropZ remaining body)
           end
  | Chunked state size => chunked_loop (S (length body)) state size body
  | Eof is_eof =>
      if is_eof then Ret (Ready None, k, body)
      else match body with
           | _ :: _ => Ret (Ready (Some body), k, [])
           | [] => Ret (NotReady, k, body)
           end
  end.

(** Decoding until the decoder asks for more input, ends, or fails: what the loops
    of [Reader::decode] and [Reader::parse] do with one buffer. *)
Inductive outcome : Type := More | Done | Failed (e : IoError).

Fixpoint drain (fuel : nat) (k : Kind) (body : bytes) : run (bytes * outcome * Kind * bytes) :=
  match fuel with
  | O => Timeout
  | S fuel =>
      '(r, k, body) ← decode k body;
      match r with
      | Ready (Some data) =>
          if Decoder_is_eof k then Ret (data, Done, k, body)
          else '(more, o, k, body) ← drain fuel k body; Ret (data ++ more, o, k, body)
      | Ready None => Ret ([], Done, k, body)
      | NotReady => Ret ([], More, k, body)
      | PErr e => Ret ([], Failed e, k, body)
      end
  end.

(** ** Reference decoder

    One byte at a time: the data byte it contributes, and the next state. *)
Definition chunk_byte (state : ChunkedState) (size : Z) (b : Z)
  : result (ChunkedState * Z * bytes) IoError :=
  match state with
  | ChunkBody => Ok (if size =? 1 then BodyCr else ChunkBody, size - 1, [b])
  | ChunkEnd => Ok (ChunkEnd, size, [])
  | _ =>
      match step state [b] size with
      | (Ready state, _, size, _) => Ok (state, size, [])
      | (PErr e, _, _, _) => Err e
      | (NotReady, _, _, _) => Ok (state, size, [])
      end
  end.

Fixpoint chunk_spec (state : ChunkedState) (size : Z) (body : bytes)
  : bytes * outcome * Kind * bytes :=
  match state with
  | ChunkEnd => ([], Done, Chunked ChunkEnd size, body)
  | _ =>
      match body with
      | [] => ([], More, Chunked state size, [])
      | b :: body =>
          match chunk_byte state size b with
          | Err e => ([], Failed e, Chunked state size, body)
          | Ok (state, size, data) =>
              let '(more, o, k, rest) := chunk_spec state size body in (data ++ more, o, k, rest)
          end
      end
  end.

Definition body_spec (k : Kind) (body : bytes) : bytes * outcome * Kind * bytes :=
  match k with
  | Length n =>
      if lenZ body <? n then (body, More, Length (n - lenZ body), [])
      else (takeZ n body, Done, Length 0, dropZ n body)
  | Chunked state size => chunk_spec state size body
  | Eof true => ([], Done, k, body)
  | Eof false => (body, More, k, [])
  end.

(** Decoder states of a live decoder. *)
Definition kind_wf (k : Kind) : Prop :=
  match k with
  | Length n => 0 <= n
  | Chunked state size => 0 <= size /\ (state = ChunkBody -> 0 < size)
  | Eof _ => True
  end.

(** ** The decoder implements the reference *)
Lemma u64_wrap_nonneg n : 0 <= u64_wrap n.
Proof. unfold u64_wrap. apply Z.mod_pos_bound. lia. Qed.
#[export] Hint Resolve u64_wrap_nonneg : actix.

(** Outside of chunk data a step consumes one byte as the reference does. *)
Lemma step_byte state size b body :
  state <> ChunkBody -> state <> ChunkEnd ->
  step state (b :: body) size =
  match chunk_byte state size b with
  | Ok (state', size', _) => (Ready state', body, size', None)
  | Err e => (PErr e, body, size, None)
  end.
Proof.
  intros HB HE. unfold chunk_byte. destruct state; try done; simpl;
    unfold read_size, read_size_lws, read_extension, read_size_lf, read_body_cr, read_body_lf,
      read_end_cr, read_end_lf, expect_byte; simpl;
    repeat match goal with |- context [if ?c then _ else _] => destruct c eqn:?; simpl end; done.
Qed.

Lemma step_empty state size :
  state <> ChunkBody -> state <> ChunkEnd -> step state [] size = (NotReady, [], size, None).
Proof. by destruct state. Qed.

(** Only the end of a size line leads into chunk data, and only for a positive size. *)
Lemma chunk_byte_wf state size b state' size' data :
  kind_wf (Chunked state size) -> chunk_byte state size b = Ok (state', size', data) ->
  kind_wf (Chunked state' size').
Proof.
  intros [Hs Hb]. unfold chunk_byte. destruct state; simpl;
    unfold read_size, read_size_lws, read_extension, read_size_lf, read_body_cr, read_body_lf,
      read_end_cr, read_end_lf, expect_byte; simpl; intros E;
    repeat match type of E with
    | context [if ?c then _ else _] => destruct c eqn:?; simpl in E
    end; simplify_eq/=; try (split; [auto with actix|done]).

  - apply andb_true_iff in Heqb0 as [_ ?%Z.ltb_lt]. split; [done|]. lia.
  - apply Z.eqb_eq in Heqb0. lia.
  - apply Z.eqb_neq in Heqb0. specialize (Hb eq_refl). split; lia.
Qed.

(** Chunk data, in bulk. *)
Lemma chunk_spec_body size body :
  0 < size ->
  chunk_spec ChunkBody size body =
  if lenZ body <? size then (body, More, Chunked ChunkBody (size - lenZ body), [])
  else let '(more, o, k, rest) := chunk_spec BodyCr 0 (dropZ size body) in
       (takeZ size body ++ more, o, k, rest).
Proof.
  revert size. induction body as [|b body IH]; intros size Hs.
  { rewrite lenZ_nil, (proj2 (Z.ltb_lt 0 size)) by done. simpl. by rewrite Z.sub_0_r. }
  rewrite lenZ_cons. cbn [chunk_spec chunk_byte].
  destruct (Z.eqb_spec size 1) as [->|Hne].
  - pose proof (lenZ_nonneg body). rewrite (proj2 (Z.ltb_ge _ _)) by lia.
    change (dropZ 1 (b :: body)) with body. change (takeZ 1 (b :: body)) with [b].
    change (1 - 1) with 0. by destruct (chunk_spec BodyCr 0 body) as [[[??]?]?].
  - rewrite IH by lia. destruct (Z.ltb_spec (lenZ body) (size - 1)).
    + rewrite (proj2 (Z.ltb_lt _ _)) by lia.
      by replace (size - 1 - lenZ body) with (size - (1 + lenZ body)) by lia.
    + rewrite (proj2 (Z.ltb_ge _ _)) by lia.
      assert (dropZ size (b :: body) = dropZ (size - 1) body) as ->.
      { unfold dropZ. by replace (Z.to_nat size) with (S (Z.to_nat (size - 1))) by lia. }
      assert (takeZ size (b :: body) = b :: takeZ (size - 1) body) as ->.
      { unfold takeZ. by replace (Z.to_nat size) with (S (Z.to_nat (size - 1))) by lia. }
      by destruct (chunk_spec BodyCr 0 _) as [[[??]?]?].
Qed.

(** What one call of [decode] says about the reference. *)
Definition decode_sound (k : Kind) (body : bytes) (res : decode_result) : Prop :=
  let '(r, k', body') := res in
  match r with
  | Ready (Some data) =>
      kind_wf k' /\ (length body' < length body)%nat /\
      if Decoder_is_eof k' then body_spec k body = (data, Done, k', body')
      else body_spec k body =
           let '(more, o, k2, rest) := body_spec k' body' in (data ++ more, o, k2, rest)
  | Ready None => body_spec k body = ([], Done, k', body')
  | NotReady => body_spec k body = ([], More, k', body')
  | PErr e => body_spec k body = ([], Failed e, k', body')
  end.

Lemma read_body_sound size body :
  0 < size -> body <> [] ->
  exists state' data body' size',
    step ChunkBody body size = (Ready state', body', size', Some data) /\
    state' <> ChunkEnd /\
    decode_sound (Chunked ChunkBody size) body (Ready (Some data), Chunked state' size', body').
Proof.
  intros Hs Hne. assert (0 < lenZ body) as Hl.
  { destruct body; [done|]. rewrite lenZ_cons. pose proof (lenZ_nonneg body). lia. }
  unfold step, read_body. rewrite (proj2 (Z.eqb_neq (lenZ body) 0)) by lia.
  unfold decode_sound. cbn [body_spec]. rewrite (chunk_spec_body size body Hs).
  destruct (Z.ltb_spec (lenZ body) size).
  - rewrite (proj2 (Z.ltb_lt 0 (size - lenZ body))) by lia. eexists _, _, _, _.
    split; [done|]. split; [done|]. split; [simpl; lia|].
    split; [destruct body; simpl; [done|lia]|]. simpl. by rewrite app_nil_r.
  - simpl. eexists _, _, _, _. split; [done|]. split; [done|]. split; [by split|].
    split; [|done]. unfold dropZ, lenZ in *. rewrite length_drop. lia.
Qed.

Lemma chunked_loop_sound fuel state size body :
  (length body < fuel)%nat -> kind_wf (Chunked state size) ->
  exists res, chunked_loop fuel state size body = Ret res /\
    decode_sound (Chunked state size) body res.
Proof.
  revert state size body. induction fuel as [|fuel IH]; intros state size body Hf Hwf; [lia|].
  cbn [chunked_loop]. destruct (decide (state = ChunkEnd)) as [->|HE].
  { simpl. eexists. split; [done|]. by destruct body. }
  destruct body as [|b body].
  { destruct (decide (state = ChunkBody)) as [->|HB].
    - simpl. eexists. split; [done|]. done.
    - rewrite step_empty by done. eexists. split; [done|]. by destruct state. }
  destruct (decide (state = ChunkBody)) as [->|HB].
  { destruct (read_body_sound size (b :: body)) as (st & data & body' & size' & -> & Hst & Hs);
      [by apply Hwf|done|]. rewrite decide_False by done. eauto. }
  rewrite step_byte by done.
  assert (forall X : bytes * outcome * Kind * bytes,
    (match chunk_byte state size b with
     | Err e => ([], Failed e, Chunked state size, body)
     | Ok (state, size, data) =>
         let '(more, o, k, rest) := chunk_spec state size body in (data ++ more, o, k, rest)
     end) = X -> chunk_spec state size (b :: body) = X) as Hspec by (by destruct state).
  destruct (chunk_byte state size b) as [[[st sz] data]|e] eqn:Hb.
  2: { eexists. split; [done|]. by apply Hspec. }
  assert (data = []) as ->.
  { destruct state; try done; unfold chunk_byte in Hb;
      repeat match type of Hb with context [match ?x with _ => _ end] => destruct x end;
      by simplify_eq. }
  assert (chunk_spec state size (b :: body) = chunk_spec st sz body) as Hrew.
  { apply Hspec. by destruct (chunk_spec st sz body) as [[[??]?]?]. }
  apply chunk_byte_wf in Hb as Hwf'; [|done].
  destruct (decide (st = ChunkEnd)) as [->|HE'].
  { eexists. split; [done|]. unfold decode_sound, body_spec. rewrite Hrew. by destruct body. }
  destruct body as [|b' body].
  { eexists. split; [done|]. unfold decode_sound, body_spec. rewrite Hrew. by destruct st. }
  destruct (IH st sz (b' :: body)) as ([[r k'] body'] & -> & Hs); [simpl in *; lia|done|].
  eexists. split; [done|]. unfold decode_sound in *. cbn [body_spec] in *. rewrite Hrew.
  destruct r as [[d|]| |]; try done. destruct Hs as (? & ? & ?). split; [done|].
  split; [simpl in *; lia|done].
Qed.

Lemma decode_sound_ok k body :
  kind_wf k -> exists res, decode k body = Ret res /\ decode_sound k body res.
Proof.
  intros Hwf. destruct k as [n|state size|[]]; simpl in Hwf.
  - simpl. destruct (Z.eqb_spec n 0) as [->|Hn].
    { eexists. split; [done|]. simpl. rewrite (proj2 (Z.ltb_ge _ _)) by apply lenZ_nonneg. done. }
    destruct body as [|b body].
    { eexists. split; [done|]. simpl. rewrite lenZ_nil, (proj2 (Z.ltb_lt 0 n)), Z.sub_0_r by lia. done. }
    destruct (Z.ltb_spec (lenZ (b :: body)) n) as [Hlt|Hge].
    + eexists. split; [done|]. unfold decode_sound. split; [simpl; lia|]. split; [simpl; lia|].
      assert (Decoder_is_eof (Length (n - lenZ (b :: body))) = false) as ->.
      { unfold Decoder_is_eof. destruct (n - lenZ (b :: body)) eqn:E; try done; lia. }
      cbn [body_spec]. rewrite (proj2 (Z.ltb_lt _ _)) by done. rewrite lenZ_nil.
      rewrite (proj2 (Z.ltb_lt 0 _)) by lia. by rewrite app_nil_r, Z.sub_0_r.
    + eexists. split; [done|]. simpl. rewrite (proj2 (Z.ltb_ge _ _)) by done.
      split; [lia|]. split; [|done]. unfold dropZ, lenZ in *. rewrite length_drop. simpl in *. lia.
  - apply chunked_loop_sound; [lia|done].
  - simpl. by eexists.
  - simpl. destruct body as [|b body]; (eexists; split; [done|]); simpl; [done|].
    split; [done|]. split; [lia|]. by rewrite app_nil_r.
Qed.

Lemma drain_spec fuel k body :
  kind_wf k -> (length body < fuel)%nat -> drain fuel k body = Ret (body_spec k body).
Proof.
  revert k body. induction fuel as [|fuel IH]; intros k body Hwf Hf; [lia|].
  cbn [drain]. destruct (decode_sound_ok k body Hwf) as ([[r k'] body'] & -> & Hs). simpl.
  unfold decode_sound in Hs. destruct r as [[data|]| |]; try by rewrite Hs.
  destruct Hs as (Hwf' & Hlt & Hs). destruct (Decoder_is_eof k'); rewrite Hs; [done|].
  rewrite IH by (done || lia). simpl. by destruct (body_spec k' body') as [[[??]?]?].
Qed.

(** ** Independence of how the body arrives *)

(** The reference on an input cut in two. *)
Lemma chunk_spec_app state size a b d o k r :
  chunk_spec state size a = (d, o, k, r) ->
  chunk_spec state size (a ++ b) =
  match o with
  | More => let '(more, o, k, rest) := body_spec k b in (d ++ more, o, k, rest)
  | _ => (d, o, k, r ++ b)
  end.
Proof.
  revert state size d o k r. induction a as [|x a IH]; intros state size d o k r Ha.
  - simpl. assert (forall t : bytes * outcome * Kind * bytes,
      t = let '(more, o, k, rest) := t in ([] ++ more, o, k, rest)) as Hid
      by by intros [[[??]?]?].
    destruct state; simpl in Ha; simplify_eq; solve [apply Hid|by destruct b].
  - destruct (decide (state = ChunkEnd)) as [->|HE]; [by simplify_eq/=|].
    assert (forall y l, chunk_spec state size (y :: l) =
      match chunk_byte state size y with
      | Err e => ([], Failed e, Chunked state size, l)
      | Ok (state, size, data) =>
          let '(more, o, k, rest) := chunk_spec state size l in (data ++ more, o, k, rest)
      end) as Hcons by by destruct state.
    simpl app. rewrite Hcons in *. destruct (chunk_byte state size x) as [[[st sz] data]|e]; [|by simplify_eq].
    destruct (chunk_spec st sz a) as [[[d' o'] k'] r'] eqn:Hs. simplify_eq.
    rewrite (IH _ _ _ _ _ _ Hs). destruct o; [|done..].
    destruct (body_spec k b) as [[[??]?]?]. by rewrite app_assoc.
Qed.

Lemma body_spec_app k a b d o k' r :
  kind_wf k -> body_spec k a = (d, o, k', r) ->
  body_spec k (a ++ b) =
  match o with
  | More => let '(more, o, k, rest) := body_spec k' b in (d ++ more, o, k, rest)
  | _ => (d, o, k', r ++ b)
  end.
Proof.
  intros Hwf Ha. destruct k as [n|state size|[]]; simpl in Ha, Hwf.
  - destruct (Z.ltb_spec (lenZ a) n); simplify_eq; cbn [body_spec]; rewrite lenZ_app.
    + destruct (Z.ltb_spec (lenZ b) (n - lenZ d)).
      * rewrite (proj2 (Z.ltb_lt _ _)) by lia.
        by replace (n - (lenZ d + lenZ b)) with (n - lenZ d - lenZ b) by lia.
      * rewrite (proj2 (Z.ltb_ge _ _)) by lia. by rewrite takeZ_app_r, dropZ_app_r by lia.
    + rewrite (proj2 (Z.ltb_ge _ _)) by (pose proof (lenZ_nonneg b); lia).
      by rewrite takeZ_app_l, dropZ_app_l by lia.
  - by apply chunk_spec_app.
  - by simplify_eq.
  - by simplify_eq.
Qed.

Lemma chunk_spec_more state size a d k r :
  chunk_spec state size a = (d, More, k, r) ->
  r = [] /\ (kind_wf (Chunked state size) -> kind_wf k) /\ body_spec k [] = ([], More, k, []).
Proof.
  revert state size d k r. induction a as [|x a IH]; intros state size d k r Ha.
  - destruct state; by simplify_eq/=.
  - destruct (decide (state = ChunkEnd)) as [->|HE]; [by simplify_eq/=|].
    assert (match chunk_byte state size x with
      | Err e => ([], Failed e, Chunked state size, a)
      | Ok (state, size, data) =>
          let '(more, o, k, rest) := chunk_spec state size a in (data ++ more, o, k, rest)
      end = (d, More, k, r)) as Hx by by destruct state.
    destruct (chunk_byte state size x) as [[[st sz] data]|e] eqn:Hb; [|done].
    destruct (chunk_spec st sz a) as [[[d' o'] k'] r'] eqn:Hs. simplify_eq.
    destruct (IH _ _ _ _ _ Hs) as (-> & Hwf & Hk). split_and!; [done| |done].
    intros Hw. apply Hwf. by eapply chunk_byte_wf.
Qed.

Lemma chunk_spec_wf state size a d o k r :
  kind_wf (Chunked state size) -> chunk_spec state size a = (d, o, k, r) -> kind_wf k.
Proof.
  revert state size d o k r. induction a as [|x a IH]; intros state size d o k r Hwf Ha.
  - destruct state; simplify_eq/=; done.
  - destruct (decide (state = ChunkEnd)) as [->|HE]; [by simplify_eq/=|].
    assert (match chunk_byte state size x with
      | Err e => ([], Failed e, Chunked state size, a)
      | Ok (state, size, data) =>
          let '(more, o, k, rest) := chunk_spec state size a in (data ++ more, o, k, rest)
      end = (d, o, k, r)) as Hx by by destruct state.
    destruct (chunk_byte state size x) as [[[st sz] data]|e] eqn:Hb; [|by simplify_eq].
    destruct (chunk_spec st sz a) as [[[d' o'] k'] r'] eqn:Hs. simplify_eq.
    eapply IH; [|done]. by eapply chunk_byte_wf.
Qed.

Lemma body_spec_rest k body : (length (body_spec k body).2 <= length body)%nat.
Proof.
  destruct k as [n|state size|[]]; simpl; [|clear|lia|lia].
  - destruct (_ <? _); simpl; [lia|]. unfold dropZ. rewrite length_drop. lia.
  - revert state size. induction body as [|b body IH]; intros state size; [by destruct state|].
    cbn [chunk_spec]. repeat case_match; simplify_eq/=; try lia.
    all: match goal with Heq : chunk_spec ?st ?sz _ = _ |- _ => specialize (IH st sz); rewrite Heq in IH; simpl in IH; lia end.
Qed.

Lemma body_spec_wf k a d o k' r : kind_wf k -> body_spec k a = (d, o, k', r) -> kind_wf k'.
Proof.
  intros Hwf Ha. destruct k as [n|state size|[]]; simpl in Ha.
  - destruct (Z.ltb_spec (lenZ a) n); simplify_eq; simpl; lia.
  - by eapply chunk_spec_wf.
  - by simplify_eq.
  - by simplify_eq.
Qed.

Lemma body_spec_more k a d k' r :
  kind_wf k -> body_spec k a = (d, More, k', r) ->
  r = [] /\ kind_wf k' /\ body_spec k' [] = ([], More, k', []).
Proof.
  intros Hwf Ha. destruct k as [n|state size|[]]; simpl in Ha.
  - destruct (Z.ltb_spec (lenZ a) n); simplify_eq. split_and!; [done|simpl; lia|].
    cbn [body_spec]. rewrite lenZ_nil, (proj2 (Z.ltb_lt 0 _)), Z.sub_0_r by lia. done.
  - destruct (chunk_spec_more _ _ _ _ _ _ Ha) as (-> & Hw & Hk). auto.
  - done.
  - by simplify_eq.
Qed.

(** The body as the connection delivers it: each piece is appended to what the
    decoder left in the buffer and drained. *)
Fixpoint feed (k : Kind) (buf : bytes) (pieces : list bytes) : run (bytes * outcome * Kind * bytes) :=
  match pieces with
  | [] => Ret ([], More, k, buf)
  | p :: pieces =>
      let buf := buf ++ p in
      '(d, o, k, buf) ← drain (S (length buf)) k buf;
      match o with
      | More => '(more, o, k, buf) ← feed k buf pieces; Ret (d ++ more, o, k, buf)
      | _ => Ret (d, o, k, buf ++ concat pieces)
      end
  end.

Lemma feed_spec k p pieces :
  kind_wf k -> feed k [] (p :: pieces) = Ret (body_spec k (p ++ concat pieces)).
Proof.
  revert k p. induction pieces as [|p' pieces IH]; intros k p Hwf.
  - cbn [feed concat app]. rewrite drain_spec by (done || lia). simpl. rewrite app_nil_r.
    destruct (body_spec k p) as [[[d o] k'] r] eqn:Hs. destruct o; simpl; rewrite ?app_nil_r; done.
  - remember (p' :: pieces) as ps. cbn [feed app]. rewrite drain_spec by (done || lia). simpl.
    destruct (body_spec k p) as [[[d o] k'] r] eqn:Hs.
    rewrite (body_spec_app _ _ (concat ps) _ _ _ _ Hwf Hs). destruct o; [|done..].
    destruct (body_spec_more _ _ _ _ _ Hwf Hs) as (-> & Hwf' & _). subst ps.
    rewrite IH by done. simpl. by destruct (body_spec k' _) as [[[??]?]?].
Qed.

(** C17. Decoding a body does not depend on how it is cut into reads: for every
    decoder state and every non-empty sequence of reads, feeding them one after the
    other returns (no panic, no endless loop) the data, the end-of-body decision, the
    decoder state and the unread rest that the one-byte-at-a-time reference gives on
    the whole input. *)
Theorem decode_fragmentation (k : Kind) (p : bytes) (pieces : list bytes) :
  kind_wf k -> feed k [] (p :: pieces) = Ret (body_spec k (p ++ concat pieces)).
Proof. apply feed_spec. Qed.

(** ** Witnesses *)
Definition wiki_body : bytes :=
  b#"4;ext=1" ++ [13; 10] ++ b#"wiki" ++ [13; 10] ++ b#"5 " ++ [13; 10] ++ b#"pedia" ++ [13; 10] ++
  b#"0" ++ [13; 10; 13; 10] ++ b#"GET".

Lemma decode_fragmentation_witness :
  feed Decoder_chunked [] [take 10 wiki_body; []; take 7 (drop 10 wiki_body); drop 17 wiki_body] =
  Ret (b#"wikipedia", Done, Chunked ChunkEnd 0, b#"GET").
Proof.
  refine (eq_trans (decode_fragmentation Decoder_chunked (take 10 wiki_body)
    [[]; take 7 (drop 10 wiki_body); drop 17 wiki_body] _) _).
  - simpl. split; [lia|discriminate].
  - vm_compute. reflexivity.
Defined.
