(* ===== verification/Transfer.v ===== *)
(** * Transfer encodings of responses (src/src/server/encoding.rs, [TransferEncoding])

    The writer's side of body framing: chunked, by content length, or until the
    connection closes; and the round trip with the decoders of [Decoder]. *)
From S2P Require Import Prelude StrLib Errors Http Response Decoder.
Open Scope Z_scope.

Inductive TransferEncodingKind : Type :=
| TE_Chunked (eof : bool)
| TE_Length (remaining : Z)
| TE_Eof.

(** [buffer] is shared with the connection's writer. *)
Record TransferEncoding : Type := mkTE { te_kind : TransferEncodingKind; te_buffer : bytes }.

Definition TransferEncoding_eof (buffer : bytes) : TransferEncoding := mkTE TE_Eof buffer.
Definition TransferEncoding_chunked (buffer : bytes) : TransferEncoding :=
  mkTE (TE_Chunked false) buffer.
Definition TransferEncoding_length (len : Z) (buffer : bytes) : TransferEncoding :=
  mkTE (TE_Length len) buffer.

Definition te_is_eof (t : TransferEncoding) : bool :=
  match te_kind t with
  | TE_Eof => true
  | TE_Chunked eof => eof
  | TE_Length remaining => remaining =? 0
  end.

Definition CRLF : bytes := [13; 10].
Definition last_chunk : bytes := b#"0" ++ CRLF ++ CRLF.

(** [encode]: the end-of-stream state of the encoder.  The formatting of the size
    line goes to an inline buffer of 31 bytes, which it always fits. *)
Definition te_encode (t : TransferEncoding) (msg : Binary) : result bool IoError * TransferEncoding :=
  match te_kind t with
  | TE_Eof =>
      let eof := Binary_is_empty msg in
      (Ok eof, mkTE TE_Eof (te_buffer t ++ Binary_as_ref msg))
  | TE_Chunked eof =>
      if eof then (Ok true, t)
      else if Binary_is_empty msg then
        (Ok true, mkTE (TE_Chunked true) (te_buffer t ++ last_chunk))
      else
        let buf := format_hex (Binary_len msg) ++ CRLF in
        (Ok false, mkTE (TE_Chunked false) (te_buffer t ++ buf ++ Binary_as_ref msg ++ CRLF))
  | TE_Length remaining =>
      if 0 <? remaining then
        if Binary_is_empty msg then (Ok (remaining =? 0), t)
        else
          let len := Z.min remaining (Binary_len msg) in
          let '(data, _) := Binary_take msg in
          (Ok (remaining - len =? 0),
           mkTE (TE_Length (remaining - len)) (te_buffer t ++ takeZ len data))
      else (Ok true, t)
  end.

Definition te_encode_eof (t : TransferEncoding) : TransferEncoding :=
  match te_kind t with
  | TE_Eof | TE_Length _ => t
  | TE_Chunked eof => if eof then t else mkTE (TE_Chunked true) (te_buffer t ++ last_chunk)
  end.

(** [io::Write::write], used by the content encoders. *)
Definition te_write (t : TransferEncoding) (buf : bytes) : result Z IoError * TransferEncoding :=
  match te_encode t (Bin_Bytes buf) with
  | (Ok _, t) => (Ok (lenZ buf), t)
  | (Err e, t) => (Err e, t)
  end.

(** Messages encoded one after the other. *)
Definition te_encode_all (t : TransferEncoding) (msgs : list Binary) : TransferEncoding :=
  foldl (fun t m => (te_encode t m).2) t msgs.

(** ** Chunked bodies *)

(** The messages up to the first empty one, which ends the body. *)
Fixpoint chunked_data (msgs : list Binary) : bytes :=
  match msgs with
  | [] => []
  | m :: msgs => if Binary_is_empty m then [] else Binary_as_ref m ++ chunked_data msgs
  end.

Lemma chunked_after_end buf msgs :
  te_encode_eof (te_encode_all (mkTE (TE_Chunked true) buf) msgs) = mkTE (TE_Chunked true) buf.
Proof. unfold te_encode_all. induction msgs as [|m msgs IH]; [done|]. simpl. apply IH. Qed.

(** A size line, as the decoder reads it: the value modulo 2^64. *)
Lemma chunk_spec_digits size ds rest :
  0 <= size < 2 ^ 64 -> Forall (fun d => 0 <= d < 16) ds ->
  chunk_spec Size size (map digit_char ds ++ rest) =
  chunk_spec Size (foldl (fun a d => a * 16 + d) size ds mod 2 ^ 64) rest.
Proof.
  intros Hs Hds. revert size Hs. induction Hds as [|d ds Hd Hds IH]; intros size Hs.
  { simpl foldl. rewrite Z.mod_small by lia. done. }
  assert (chunk_byte Size size (digit_char d) = Ok (Size, (size * 16 + d) mod 2 ^ 64, [])) as Hb.
  { unfold chunk_byte, step, read_size, with_byte, digit_char, u64_wrap.
    cbv zeta. destruct (Z.ltb_spec d 10).
    - rewrite (proj2 (Z.leb_le 48 _)), (proj2 (Z.leb_le _ 57)) by lia. cbn [andb].
      rewrite Zplus_mod_idemp_l. by replace (48 + d - 48) with d by lia.
    - rewrite (proj2 (Z.leb_gt _ 57)) by lia. rewrite andb_false_r.
      rewrite (proj2 (Z.leb_gt 97 _)) by lia. rewrite andb_false_l.
      rewrite (proj2 (Z.leb_le 65 _)), (proj2 (Z.leb_le _ 70)) by lia. cbn [andb].
      rewrite Zplus_mod_idemp_l. by replace (55 + d + 10 - 65) with d by lia. }
  simpl map. simpl app. cbn [chunk_spec]. rewrite Hb. rewrite IH by (apply Z.mod_pos_bound; lia).
  assert (foldl (fun a d => a * 16 + d) ((size * 16 + d) mod 2 ^ 64) ds mod 2 ^ 64 =
          foldl (fun a d => a * 16 + d) (size * 16 + d) ds mod 2 ^ 64) as Hfold.
  { generalize (size * 16 + d). clear. induction ds as [|d ds IH]; intros v.
    - simpl. by rewrite Zmod_mod.
    - simpl. rewrite <-IH. rewrite <-(IH (v * 16 + d)). do 2 f_equal.
      rewrite <-Zplus_mod_idemp_l, Zmult_mod_idemp_l, Zplus_mod_idemp_l. done. }
  simpl foldl. rewrite Hfold. by destruct (chunk_spec Size _ rest) as [[[??]?]?].
Qed.

Lemma chunk_spec_size_line n rest :
  0 <= n ->
  chunk_spec Size 0 (format_hex n ++ CRLF ++ rest) =
  if n mod 2 ^ 64 =? 0 then chunk_spec EndCr 0 rest else chunk_spec ChunkBody (n mod 2 ^ 64) rest.
Proof.
  intros Hn. unfold format_hex. destruct (format_digits 16 n) as (ds & -> & Hds & Hv & _); [lia..|].
  rewrite chunk_spec_digits by (done || lia). unfold from_digits in Hv. rewrite Hv.
  pose proof (Z.mod_pos_bound n (2 ^ 64) ltac:(lia)).
  assert (forall v, 0 <= v -> chunk_byte SizeLf v 10 =
    Ok (if v =? 0 then EndCr else ChunkBody, v, [])) as Hlf.
  { intros v Hv0. unfold chunk_byte, step, read_size_lf, with_byte.
    destruct (Z.ltb_spec 0 v), (Z.eqb_spec v 0); try lia; done. }
  unfold CRLF. cbn [app chunk_spec].
  change (chunk_byte Size (n mod 2 ^ 64) 13) with (@Ok _ IoError (SizeLf, n mod 2 ^ 64, @nil Z)).
  cbv iota. rewrite Hlf by lia.
  destruct (Z.eqb_spec (n mod 2 ^ 64) 0) as [->|].
  - by destruct (chunk_spec EndCr 0 rest) as [[[??]?]?].
  - by destruct (chunk_spec ChunkBody _ rest) as [[[??]?]?].
Qed.

Lemma chunk_spec_crlf rest :
  chunk_spec BodyCr 0 (CRLF ++ rest) = chunk_spec Size 0 rest.
Proof. simpl. by destruct (chunk_spec Size 0 rest) as [[[??]?]?]. Qed.

(** One chunk with a declared size that is the length of its data modulo 2^64. *)
Lemma chunk_spec_chunk n data rest :
  0 <= n -> 0 < lenZ data -> n mod 2 ^ 64 = lenZ data ->
  chunk_spec Size 0 (format_hex n ++ CRLF ++ data ++ CRLF ++ rest) =
  let '(more, o, k, r) := chunk_spec Size 0 rest in (data ++ more, o, k, r).
Proof.
  intros Hn Hd Hmod. rewrite chunk_spec_size_line, Hmod by done.
  rewrite (proj2 (Z.eqb_neq _ 0)) by lia. rewrite chunk_spec_body by done.
  rewrite (proj2 (Z.ltb_ge _ _)) by lenZ_lia.
  rewrite takeZ_app_l, dropZ_app_l, takeZ_all, dropZ_all, app_nil_l by lia.
  rewrite chunk_spec_crlf. by destruct (chunk_spec Size 0 rest) as [[[??]?]?].
Qed.

Lemma chunk_spec_last rest :
  chunk_spec Size 0 (last_chunk ++ rest) = ([], Done, Chunked ChunkEnd 0, rest).
Proof. by destruct rest. Qed.

(** The encoder's output, message by message. *)
Lemma te_encode_chunked buf m :
  (te_encode (mkTE (TE_Chunked false) buf) m).2 =
  if Binary_is_empty m then mkTE (TE_Chunked true) (buf ++ last_chunk)
  else mkTE (TE_Chunked false)
         (buf ++ (format_hex (Binary_len m) ++ CRLF) ++ Binary_as_ref m ++ CRLF).
Proof. unfold te_encode. simpl. by destruct (Binary_is_empty m). Qed.

Lemma chunked_encode_spec buf msgs :
  Forall (fun m => Binary_len m < 2 ^ 64) msgs ->
  exists enc, te_encode_eof (te_encode_all (TransferEncoding_chunked buf) msgs) =
    mkTE (TE_Chunked true) (buf ++ enc) /\
  forall rest, chunk_spec Size 0 (enc ++ rest) = (chunked_data msgs, Done, Chunked ChunkEnd 0, rest).
Proof.
  intros Hm. revert buf. induction Hm as [|m msgs Hl Hm IH]; intros buf.
  { exists last_chunk. split; [done|apply chunk_spec_last]. }
  unfold TransferEncoding_chunked in *. cbn [te_encode_all foldl chunked_data].
  rewrite te_encode_chunked. unfold Binary_is_empty. rewrite Binary_len_as_ref in *.
  destruct (Z.eqb_spec (lenZ (Binary_as_ref m)) 0) as [Hz|Hnz].
  { exists last_chunk. split; [apply chunked_after_end|apply chunk_spec_last]. }
  edestruct IH as (enc & He & Henc). unfold te_encode_all in He. rewrite He. clear He.
  exists ((format_hex (lenZ (Binary_as_ref m)) ++ CRLF) ++ Binary_as_ref m ++ CRLF ++ enc).
  split; [by rewrite <-!app_assoc|]. intros rest. rewrite <-!app_assoc.
  pose proof (lenZ_nonneg (Binary_as_ref m)).
  rewrite chunk_spec_chunk, Henc by (rewrite ?Z.mod_small; lia). done.
Qed.

(** Chunked responses decode to what was written: any sequence of messages,
    encoded and closed, is decoded by the request-side decoder as the concatenation
    of the messages up to the first empty one (which ends the body), followed by the
    untouched rest of the connection. *)
Theorem chunked_roundtrip (buf rest : bytes) (msgs : list Binary) :
  Forall (fun m => Binary_len m < 2 ^ 64) msgs ->
  exists enc, te_buffer (te_encode_eof (te_encode_all (TransferEncoding_chunked buf) msgs)) = buf ++ enc /\
    drain (S (length (enc ++ rest))) Decoder_chunked (enc ++ rest) =
    Ret (chunked_data msgs, Done, Chunked ChunkEnd 0, rest).
Proof.
  intros Hm. destruct (chunked_encode_spec buf msgs Hm) as (enc & Henc & Hdec).
  exists enc. rewrite Henc. split; [done|].
  rewrite drain_spec by (lia || by split). by rewrite <-Hdec.
Qed.

(** ** Bodies of declared length *)
Lemma te_encode_length n buf m :
  0 <= n ->
  (te_encode (TransferEncoding_length n buf) m).2 =
  TransferEncoding_length (n - Z.min n (Binary_len m)) (buf ++ takeZ n (Binary_as_ref m)).
Proof.
  intros Hn. unfold te_encode, TransferEncoding_length, Binary_is_empty. simpl.
  rewrite Binary_len_as_ref. pose proof (lenZ_nonneg (Binary_as_ref m)).
  destruct (Z.ltb_spec 0 n).
  - destruct (Z.eqb_spec (lenZ (Binary_as_ref m)) 0) as [Hz|]; simpl.
    + rewrite Hz, Z.min_r by lia. rewrite (lenZ_nil_inv (Binary_as_ref m)) by lia.
      unfold takeZ. by rewrite take_nil, app_nil_r, Z.sub_0_r.
    + f_equal. f_equal. destruct (Z.min_spec n (lenZ (Binary_as_ref m))) as [[? ->]|[? ->]]; [done|].
      by rewrite !takeZ_all by lia.
  - assert (n = 0) as -> by lia. simpl. rewrite takeZ_0, app_nil_r, Z.min_l by lia. done.
Qed.

Lemma te_encode_all_length n buf msgs :
  0 <= n ->
  te_encode_all (TransferEncoding_length n buf) msgs =
  TransferEncoding_length (n - Z.min n (lenZ (concat (map Binary_as_ref msgs))))
    (buf ++ takeZ n (concat (map Binary_as_ref msgs))).
Proof.
  unfold te_encode_all. revert n buf. induction msgs as [|m msgs IH]; intros n buf Hn.
  - simpl. unfold takeZ. rewrite take_nil, app_nil_r, lenZ_nil, Z.min_r, Z.sub_0_r by lia. done.
  - cbn [foldl map concat]. rewrite te_encode_length by done.
    rewrite IH by lia. rewrite Binary_len_as_ref, lenZ_app, <-app_assoc.
    pose proof (lenZ_nonneg (Binary_as_ref m)).
    pose proof (lenZ_nonneg (concat (map Binary_as_ref msgs))).
    f_equal; [lia|]. f_equal. destruct (Z.le_ge_cases n (lenZ (Binary_as_ref m))).
    + rewrite Z.min_l by done. rewrite (takeZ_app_l n) by done.
      rewrite (takeZ_0 (n - n)) by lia. by rewrite app_nil_r.
    + rewrite Z.min_r by done. rewrite (takeZ_app_r n) by done. by rewrite takeZ_all by done.
Qed.

Lemma drain_length n data rest :
  0 <= n -> n <= lenZ data ->
  drain (S (length (takeZ n data ++ rest))) (Decoder_length n) (takeZ n data ++ rest) =
  Ret (takeZ n data, Done, Length 0, rest).
Proof.
  intros Hn Hle.
  rewrite drain_spec by (done || lia). cbn [Decoder_length body_spec].
  assert (lenZ (takeZ n data) = n) as Hlt by (apply lenZ_takeZ; lia).
  rewrite lenZ_app, Hlt. pose proof (lenZ_nonneg rest). rewrite (proj2 (Z.ltb_ge _ _)) by lia.
  rewrite takeZ_app_l, dropZ_app_l by lia. by rewrite takeZ_all, dropZ_all by lia.
Qed.

(** What is encoded does not depend on what the buffer held before. *)
Lemma te_encode_prefix k a b m :
  te_encode (mkTE k (a ++ b)) m =
  let '(r, t) := te_encode (mkTE k b) m in (r, mkTE (te_kind t) (a ++ te_buffer t)).
Proof. unfold te_encode. simpl. repeat case_match; simplify_eq/=; rewrite <-?app_assoc; done. Qed.

Lemma te_encode_all_prefix k a b ms :
  te_encode_all (mkTE k (a ++ b)) ms =
  mkTE (te_kind (te_encode_all (mkTE k b) ms)) (a ++ te_buffer (te_encode_all (mkTE k b) ms)).
Proof.
  revert k b. induction ms as [|m ms IH]; intros k b; [done|].
  change (te_encode_all (te_encode (mkTE k (a ++ b)) m).2 ms = mkTE
    (te_kind (te_encode_all (te_encode (mkTE k b) m).2 ms)) (a ++ te_buffer (te_encode_all (te_encode (mkTE k b) m).2 ms))).
  rewrite te_encode_prefix. destruct (te_encode (mkTE k b) m) as [r [k1 b1]]. simpl. apply IH.
Qed.

Lemma te_encode_eof_prefix k a b :
  te_encode_eof (mkTE k (a ++ b)) =
  mkTE (te_kind (te_encode_eof (mkTE k b))) (a ++ te_buffer (te_encode_eof (mkTE k b))).
Proof. unfold te_encode_eof. simpl. repeat case_match; simplify_eq/=; rewrite <-?app_assoc; done. Qed.

(** A response of declared length never sends more than it declared: whatever is
    written, the bytes sent are the first [n] bytes written, the encoder reports the
    end exactly when all [n] have been sent, and then the peer's decoder recovers
    exactly them and leaves the next message untouched. *)
Theorem content_length_exact (n : Z) (buf rest : bytes) (msgs : list Binary) :
  0 <= n ->
  let data := concat (map Binary_as_ref msgs) in
  let t := te_encode_all (TransferEncoding_length n buf) msgs in
  te_buffer (te_encode_eof t) = buf ++ takeZ n data /\
  te_is_eof t = (n <=? lenZ data) /\
  (te_is_eof t = true ->
   drain (S (length (takeZ n data ++ rest))) (Decoder_length n) (takeZ n data ++ rest) =
   Ret (takeZ n data, Done, Length 0, rest)).
Proof.
  intros Hn data t. unfold t. rewrite te_encode_all_length by done. fold data.
  assert (te_is_eof (TransferEncoding_length (n - Z.min n (lenZ data)) (buf ++ takeZ n data)) =
          (n <=? lenZ data)) as Heof.
  { unfold te_is_eof. simpl. destruct (Z.leb_spec n (lenZ data)), (Z.eqb_spec (n - Z.min n (lenZ data)) 0); lia. }
  split; [done|]. split; [done|]. rewrite Heof. intros Hle%Z.leb_le.
  by apply drain_length; lia.
Qed.

(** Chunk sizes are read modulo 2^64: a chunk that declares [2^64 * k] bytes more
    than it carries is accepted as if it declared its real length, instead of being
    refused as too large. *)
Theorem chunk_size_wraps (k : Z) (data rest : bytes) :
  0 <= k -> 0 < lenZ data < 2 ^ 64 ->
  let wire := format_hex (2 ^ 64 * k + lenZ data) ++ CRLF ++ data ++ CRLF ++ last_chunk ++ rest in
  drain (S (length wire)) Decoder_chunked wire = Ret (data, Done, Chunked ChunkEnd 0, rest).
Proof.
  intros Hk Hd wire. rewrite drain_spec by (lia || by split). unfold wire. cbn [Decoder_chunked body_spec].
  rewrite chunk_spec_chunk.
  - rewrite chunk_spec_last. by rewrite app_nil_r.
  - lia.
  - lia.
  - rewrite Z.add_comm, Z.mul_comm, Z_mod_plus_full. apply Z.mod_small. lia.
Qed.

(** ** Witnesses *)
Definition two_messages : list Binary := [Bin_Slice (b#"Hello, "); Bin_Bytes (b#"world!")].

Lemma chunked_roundtrip_witness :
  exists enc, te_buffer (te_encode_eof (te_encode_all (TransferEncoding_chunked [9]) two_messages)) = [9] ++ enc /\
    drain (S (length (enc ++ [1; 2]))) Decoder_chunked (enc ++ [1; 2]) =
    Ret (b#"Hello, world!", Done, Chunked ChunkEnd 0, [1; 2]).
Proof.
  apply (chunked_roundtrip [9] [1; 2] two_messages).
  repeat (constructor; [reflexivity|]). constructor.
Defined.

Lemma content_length_exact_witness :
  te_buffer (te_encode_eof (te_encode_all (TransferEncoding_length 9 [7]) two_messages)) =
    [7] ++ b#"Hello, wo" /\
  te_is_eof (te_encode_all (TransferEncoding_length 9 [7]) two_messages) = true.
Proof.
  destruct (content_length_exact 9 [7] [] two_messages ltac:(lia)) as (Hb & He & _).
  split; [exact Hb|exact He].
Defined.

Lemma chunk_size_wraps_witness :
  drain 100 Decoder_chunked (b#"10000000000000005" ++ CRLF ++ b#"hello" ++ CRLF ++ last_chunk) =
  Ret (b#"hello", Done, Chunked ChunkEnd 0, []).
Proof.
  refine (eq_trans _ (chunk_size_wraps 1 (b#"hello") [] ltac:(lia) ltac:(vm_compute; split; reflexivity))).
  vm_compute. reflexivity.
Defined.
