(* ===== verification/Pipeline.v ===== *)
(** * The request pipeline (src/src/pipeline.rs, src/src/middleware/mod.rs)

    A request runs through the [start] methods of the middlewares, the handler, the
    [response] methods, the writing of the response and its body, and the [finish]
    methods in reverse order.  The pipeline is a state machine advanced by
    [poll_io] and [poll].

    A future is known by how often it answers [NotReady] and by its result; a
    streaming body or actor by the answers it gives to successive polls.  The trace
    of calls made to the middlewares and the handler is kept beside the state. *)
From S2P Require Import Prelude Errors Http Response.
Open Scope Z_scope.

(** A boxed future: [NotReady] [fut_wait] times ([None]: for ever), then its result. *)
Record Fut (T : Type) : Type := mkFut { fut_wait : option nat; fut_result : result T Error }.
Arguments mkFut {T}. Arguments fut_wait {T}. Arguments fut_result {T}.

Definition fut_poll {T} (f : Fut T) : poll T Error * Fut T :=
  match fut_wait f with
  | None => (NotReady, f)
  | Some (S n) => (NotReady, mkFut (Some n) (fut_result f))
  | Some O => (match fut_result f with Ok t => Ready t | Err e => PErr e end, f)
  end.

Inductive HandlerType : Type := HT_Normal (idx : Z) | HT_Handler (idx : Z) | HT_Default.

(** Frames of an actor body ([context::Frame]); a drain is known by its receiver. *)
Inductive ActorFrame : Type := Frame_Chunk (c : option Binary) | Frame_Drain (rx : nat).

(** [BodyStream] and [ActorHttpContext]: the answers to successive polls. *)
Definition BodyStream : Type := list (poll (option bytes) Error).
Record ActorContext : Type := mkCtx {
  ctx_script : list (poll (option (list ActorFrame)) Error);
  ctx_is_disconnected : bool;
}.

Definition stream_poll (s : BodyStream) : poll (option bytes) Error * BodyStream :=
  match s with
  | x :: s => (x, s)
  | [] => (NotReady, [])
  end.
Definition ctx_poll (c : ActorContext) : poll (option (list ActorFrame)) Error * ActorContext :=
  match ctx_script c with
  | x :: s => (x, mkCtx s (ctx_is_disconnected c))
  | [] => (NotReady, c)
  end.
Definition ctx_disconnected (c : ActorContext) : ActorContext := mkCtx (ctx_script c) true.

Inductive WriterState : Type := WS_Done | WS_Pause.

Inductive RunningState : Type := Running | Paused | RDone.
#[export] Instance RunningState_eq_dec : EqDecision RunningState.
Proof. solve_decision. Defined.
Definition pause (r : RunningState) : RunningState := if decide (r = RDone) then r else Paused.
Definition resume (r : RunningState) : RunningState := if decide (r = RDone) then r else Running.

Inductive IOState : Type :=
| IO_Response | IO_Payload (body : BodyStream) | IO_Actor (ctx : ActorContext) | IO_Done.

(** Calls made on the way. *)
Inductive call : Type := Call_start (i : Z) | Call_handler | Call_response (i : Z) | Call_finish (i : Z).
#[export] Instance call_eq_dec : EqDecision call.
Proof. solve_decision. Defined.

Section Pipelines.
Context {H : Type} `{HeaderMap H} {Rq : Type}.
Notation Resp := (InnerHttpResponse H).

(** ** Middlewares (src/src/middleware/mod.rs) *)
Inductive Started : Type :=
| Started_Done | Started_Response (r : Resp) | Started_Future (f : Fut (option Resp)).
Inductive MwResponse : Type := Resp_Done (r : Resp) | Resp_Future (f : Fut Resp).
Inductive Finished : Type := Finished_Done | Finished_Future (f : Fut unit).

Record Middleware : Type := mkMw {
  mw_start : Rq -> result Started Error * Rq;
  mw_response : Rq -> Resp -> result MwResponse Error * Rq;
  mw_finish : Rq -> Resp -> Finished * Rq;
}.

(** The default methods of the trait. *)
Definition Middleware_default : Middleware :=
  mkMw (fun rq => (Ok Started_Done, rq)) (fun rq r => (Ok (Resp_Done r), rq))
       (fun rq _ => (Finished_Done, rq)).

Inductive ReplyItem : Type := Reply_Message (r : Resp) | Reply_Future (f : Fut Resp).

(** The response of an error; recycling of heads is invisible ([Response]). *)
Definition error_response (e : Error) : Resp :=
  set_r_error (Some e) (InnerHttpResponse_new (cause_status e) Body_Empty).

(** The trait [Writer].  [start] may take the body of the response or replace it by
    encoded bytes, but it never brings in another stream or actor. *)
Class Writer (W : Type) := {
  wr_written : W -> Z;
  wr_start : Rq -> Resp -> ContentEncoding -> W -> result WriterState IoError * Rq * Resp * W;
  wr_write : Binary -> W -> result WriterState IoError * W;
  wr_write_eof : W -> result WriterState IoError * W;
  wr_poll_completed : bool -> W -> poll unit IoError * W;
  wr_start_body rq resp enc w r rq' resp' w' :
    wr_start rq resp enc w = (r, rq', resp', w') ->
    r_body resp' = r_body resp \/ is_streaming (r_body resp') = false;
}.

Record PipelineInfo : Type := mkInfo {
  p_req : Rq;
  p_count : Z;
  p_mws : list Middleware;
  p_context : option ActorContext;
  p_error : option Error;
  p_disconnected : option bool;
  p_encoding : ContentEncoding;
  p_trace : list call;
  p_drained : list nat;
}.

Definition set_p_req v i := mkInfo v (p_count i) (p_mws i) (p_context i) (p_error i)
  (p_disconnected i) (p_encoding i) (p_trace i) (p_drained i).
Definition set_p_count v i := mkInfo (p_req i) v (p_mws i) (p_context i) (p_error i)
  (p_disconnected i) (p_encoding i) (p_trace i) (p_drained i).
Definition set_p_context v i := mkInfo (p_req i) (p_count i) (p_mws i) v (p_error i)
  (p_disconnected i) (p_encoding i) (p_trace i) (p_drained i).
Definition set_p_error v i := mkInfo (p_req i) (p_count i) (p_mws i) (p_context i) v
  (p_disconnected i) (p_encoding i) (p_trace i) (p_drained i).
Definition set_p_disconnected v i := mkInfo (p_req i) (p_count i) (p_mws i) (p_context i) (p_error i)
  v (p_encoding i) (p_trace i) (p_drained i).
Definition add_p_call c i := mkInfo (p_req i) (p_count i) (p_mws i) (p_context i) (p_error i)
  (p_disconnected i) (p_encoding i) (p_trace i ++ [c]) (p_drained i).
Definition add_p_drained rx i := mkInfo (p_req i) (p_count i) (p_mws i) (p_context i) (p_error i)
  (p_disconnected i) (p_encoding i) (p_trace i) (p_drained i ++ [rx]).

Record ProcessResponse : Type := mkPR {
  pr_resp : Resp;
  pr_iostate : IOState;
  pr_running : RunningState;
  pr_drain : option nat;
}.
Definition set_pr_iostate v p := mkPR (pr_resp p) v (pr_running p) (pr_drain p).
Definition set_pr_running v p := mkPR (pr_resp p) (pr_iostate p) v (pr_drain p).
Definition set_pr_drain v p := mkPR (pr_resp p) (pr_iostate p) (pr_running p) v.
Definition set_pr_resp v p := mkPR v (pr_iostate p) (pr_running p) (pr_drain p).

Inductive PipelineState : Type :=
| PS_None
| PS_Error
| PS_Starting (f : Fut (option Resp))
| PS_Handler (f : Fut Resp)
| PS_RunMiddlewares (curr : Z) (f : Fut Resp)
| PS_Response (p : ProcessResponse)
| PS_Finishing (resp : Resp) (f : option (Fut unit))
| PS_Completed.

(** A [poll] of a state: [Some(state)], or [None] with the state as it was left. *)
Inductive step_out : Type := Moved (st : PipelineState) | Waiting (st : PipelineState).

(** [info.mws[i]]. *)
Definition mws_at (info : PipelineInfo) (i : Z) : run Middleware :=
  unwrap (p_mws info !! Z.to_nat i).

(** [info.mws.len() as u16] and [u16] arithmetic. *)
Definition u16_wrap (n : Z) : Z := n mod 2 ^ 16.
Definition mws_len16 (info : PipelineInfo) : Z := u16_wrap (lenZ (p_mws info)).
Definition incr_count (info : PipelineInfo) : PipelineInfo :=
  set_p_count (u16_wrap (p_count info + 1)) info.

Definition start_mw (mw : Middleware) (i : Z) (info : PipelineInfo)
  : result Started Error * PipelineInfo :=
  let '(r, rq) := mw_start mw (p_req info) in (r, add_p_call (Call_start i) (set_p_req rq info)).
Definition response_mw (mw : Middleware) (i : Z) (resp : Resp) (info : PipelineInfo)
  : result MwResponse Error * PipelineInfo :=
  let '(r, rq) := mw_response mw (p_req info) resp in
  (r, add_p_call (Call_response i) (set_p_req rq info)).
Definition finish_mw (mw : Middleware) (i : Z) (resp : Resp) (info : PipelineInfo)
  : Finished * PipelineInfo :=
  let '(r, rq) := mw_finish mw (p_req info) resp in
  (r, add_p_call (Call_finish i) (set_p_req rq info)).

(** ** Running the response methods *)
Definition ProcessResponse_init (resp : Resp) : PipelineState :=
  PS_Response (mkPR resp IO_Response Running None).

Fixpoint run_init_loop (fuel : nat) (curr : Z) (resp : Resp) (info : PipelineInfo)
  : run (PipelineState * PipelineInfo) :=
  match fuel with
  | O => Timeout
  | S fuel =>
      mw ← mws_at info curr;
      match response_mw mw curr resp info with
      | (Err err, info) =>
          Ret (ProcessResponse_init (error_response err), set_p_count (u16_wrap (curr + 1)) info)
      | (Ok (Resp_Done r), info) =>
          let curr := curr + 1 in
          if curr =? lenZ (p_mws info) then Ret (ProcessResponse_init r, info)
          else run_init_loop fuel curr r info
      | (Ok (Resp_Future fut), info) => Ret (PS_RunMiddlewares curr fut, info)
      end
  end.

Definition RunMiddlewares_init (info : PipelineInfo) (resp : Resp)
  : run (PipelineState * PipelineInfo) :=
  if p_count info =? 0 then Ret (ProcessResponse_init resp, info)
  else run_init_loop (S (length (p_mws info))) 0 resp info.

(** The inner loop of [RunMiddlewares::poll]: a next state, or a next future. *)
Fixpoint run_poll_inner (fuel : nat) (curr : Z) (resp : Resp) (info : PipelineInfo)
  : run ((PipelineState + Z * Fut Resp) * PipelineInfo) :=
  match fuel with
  | O => Timeout
  | S fuel =>
      if curr =? lenZ (p_mws info) then Ret (inl (ProcessResponse_init resp), info)
      else
        mw ← mws_at info curr;
        match response_mw mw curr resp info with
        | (Err err, info) => Ret (inl (ProcessResponse_init (error_response err)), info)
        | (Ok (Resp_Done r), info) => run_poll_inner fuel (curr + 1) r info
        | (Ok (Resp_Future fut), info) => Ret (inr (curr, fut), info)
        end
  end.

Fixpoint RunMiddlewares_poll_loop (fuel : nat) (curr : Z) (f : Fut Resp) (info : PipelineInfo)
  : run (step_out * PipelineInfo) :=
  match fuel with
  | O => Timeout
  | S fuel =>
      (* poll latest fut *)
      match fut_poll f with
      | (NotReady, f) => Ret (Waiting (PS_RunMiddlewares curr f), info)
      | (PErr err, _) => Ret (Moved (ProcessResponse_init (error_response err)), info)
      | (Ready resp, _) =>
          '(r, info) ← run_poll_inner (S (length (p_mws info))) (curr + 1) resp info;
          match r with
          | inl st => Ret (Moved st, info)
          | inr (curr, f) => RunMiddlewares_poll_loop fuel curr f info
          end
      end
  end.
Definition RunMiddlewares_poll (curr : Z) (f : Fut Resp) (info : PipelineInfo)
  : run (step_out * PipelineInfo) :=
  RunMiddlewares_poll_loop (S (length (p_mws info))) curr f info.

(** ** Waiting for the handler *)
Definition WaitingResponse_init (info : PipelineInfo) (reply : ReplyItem)
  : run (PipelineState * PipelineInfo) :=
  match reply with
  | Reply_Message resp => RunMiddlewares_init info resp
  | Reply_Future fut => Ret (PS_Handler fut, info)
  end.

Definition WaitingResponse_poll (f : Fut Resp) (info : PipelineInfo) : run (step_out * PipelineInfo) :=
  match fut_poll f with
  | (NotReady, f) => Ret (Waiting (PS_Handler f), info)
  | (Ready response, _) => '(st, info) ← RunMiddlewares_init info response; Ret (Moved st, info)
  | (PErr err, _) => Ret (Moved (ProcessResponse_init (error_response err)), info)
  end.

(** ** Running the start methods *)
Section Start.
Context (handle : Rq -> HandlerType -> ReplyItem) (htype : HandlerType).

Definition call_handler (info : PipelineInfo) : run (PipelineState * PipelineInfo) :=
  let reply := handle (p_req info) htype in
  WaitingResponse_init (add_p_call Call_handler info) reply.

Fixpoint start_init_loop (fuel : nat) (info : PipelineInfo) : run (PipelineState * PipelineInfo) :=
  match fuel with
  | O => Timeout
  | S fuel =>
      if p_count info =? mws_len16 info then call_handler info
      else
        mw ← mws_at info (p_count info);
        match start_mw mw (p_count info) info with
        | (Ok Started_Done, info) => start_init_loop fuel (incr_count info)
        | (Ok (Started_Response resp), info) => RunMiddlewares_init info resp
        | (Ok (Started_Future fut), info) =>
            match fut_poll fut with
            | (NotReady, fut) => Ret (PS_Starting fut, info)
            | (Ready (Some resp), _) => RunMiddlewares_init info resp
            | (Ready None, _) => start_init_loop fuel (incr_count info)
            | (PErr err, _) => Ret (ProcessResponse_init (error_response err), info)
            end
        | (Err err, info) => Ret (ProcessResponse_init (error_response err), info)
        end
  end.
Definition StartMiddlewares_init (info : PipelineInfo) : run (PipelineState * PipelineInfo) :=
  start_init_loop (S (length (p_mws info))) info.

(** The inner loop of [StartMiddlewares::poll], which has no test for the end of the
    middlewares. *)
Fixpoint start_poll_inner (fuel : nat) (info : PipelineInfo)
  : run ((PipelineState + Fut (option Resp)) * PipelineInfo) :=
  match fuel with
  | O => Timeout
  | S fuel =>
      mw ← mws_at info (p_count info);
      match start_mw mw (p_count info) info with
      | (Ok Started_Done, info) => start_poll_inner fuel (incr_count info)
      | (Ok (Started_Response resp), info) =>
          '(st, info) ← RunMiddlewares_init info resp; Ret (inl st, info)
      | (Ok (Started_Future fut), info) => Ret (inr fut, info)
      | (Err err, info) => Ret (inl (ProcessResponse_init (error_response err)), info)
      end
  end.

Fixpoint start_poll_loop (fuel : nat) (f : Fut (option Resp)) (info : PipelineInfo)
  : run (step_out * PipelineInfo) :=
  match fuel with
  | O => Timeout
  | S fuel =>
      match fut_poll f with
      | (NotReady, f) => Ret (Waiting (PS_Starting f), info)
      | (Ready resp, _) =>
          let info := incr_count info in
          match resp with
          | Some resp => '(st, info) ← RunMiddlewares_init info resp; Ret (Moved st, info)
          | None =>
              if p_count info =? mws_len16 info then
                '(st, info) ← call_handler info; Ret (Moved st, info)
              else
                '(r, info) ← start_poll_inner (S (length (p_mws info))) info;
                match r with
                | inl st => Ret (Moved st, info)
                | inr f => start_poll_loop fuel f info
                end
          end
      | (PErr err, _) => Ret (Moved (ProcessResponse_init (error_response err)), info)
      end
  end.
Definition StartMiddlewares_poll (f : Fut (option Resp)) (info : PipelineInfo)
  : run (step_out * PipelineInfo) :=
  start_poll_loop (S (length (p_mws info))) f info.
End Start.

(** ** Running the finish methods *)
Definition Completed_init (info : PipelineInfo) : PipelineState :=
  match p_context info with None => PS_None | Some _ => PS_Completed end.

Definition poll_context (info : PipelineInfo) : poll unit Error * PipelineInfo :=
  match p_context info with
  | Some ctx =>
      let '(r, ctx) := ctx_poll ctx in
      let info := set_p_context (Some ctx) info in
      match r with
      | PErr err => (PErr err, info)
      | NotReady => (NotReady, info)
      | Ready _ => (Ready tt, info)
      end
  | None => (Ready tt, info)
  end.

Definition Completed_poll (info : PipelineInfo) : step_out * PipelineInfo :=
  match poll_context info with
  | (NotReady, info) => (Waiting PS_Completed, info)
  | (Ready _, info) => (Moved PS_None, info)
  | (PErr _, info) => (Moved PS_Error, info)
  end.

(** [info.count -= 1] wraps below zero; the index that follows is then out of range. *)
Fixpoint finish_loop (fuel : nat) (resp : Resp) (f : option (Fut unit)) (info : PipelineInfo)
  : run (step_out * PipelineInfo) :=
  match fuel with
  | O => Timeout
  | S fuel =>
      (* poll latest fut; errors are only logged *)
      match match f with
            | Some fut => match fut_poll fut with
                          | (NotReady, fut) => Some fut
                          | (Ready _, _) | (PErr _, _) => None
                          end
            | None => None
            end with
      | Some fut => Ret (Waiting (PS_Finishing resp (Some fut)), info)
      | None =>
          let info := set_p_count (u16_wrap (p_count info - 1)) info in
          mw ← mws_at info (p_count info);
          match finish_mw mw (p_count info) resp info with
          | (Finished_Done, info) =>
              if p_count info =? 0 then Ret (Moved (Completed_init info), info)
              else finish_loop fuel resp None info
          | (Finished_Future fut, info) => finish_loop fuel resp (Some fut) info
          end
      end
  end.
Definition FinishingMiddlewares_poll (resp : Resp) (f : option (Fut unit)) (info : PipelineInfo)
  : run (step_out * PipelineInfo) :=
  finish_loop (S (S (length (p_mws info)))) resp f info.

Definition FinishingMiddlewares_init (info : PipelineInfo) (resp : Resp)
  : run (PipelineState * PipelineInfo) :=
  if p_count info =? 0 then Ret (Completed_init info, info)
  else
    '(r, info) ← FinishingMiddlewares_poll resp None info;
    Ret (match r with Moved st | Waiting st => st end, info).

(** ** Writing the response *)
Section Output.
Context {W : Type} `{Writer W}.
Context (streams : nat -> BodyStream) (actors : nat -> ActorContext).

(** How a turn of the inner loop ends: [break], [return Ok(state)], or with the
    state of the writer. *)
Inductive turn_out : Type :=
| Turn_break (p : ProcessResponse) (io : W) (info : PipelineInfo)
| Turn_return (st : PipelineState) (io : W) (info : PipelineInfo)
| Turn_continue (p : ProcessResponse) (io : W) (info : PipelineInfo)
| Turn_result (r : WriterState) (p : ProcessResponse) (io : W) (info : PipelineInfo).

(** [info.error = Some(err); return Ok(FinishingMiddlewares::init(info, self.resp))]. *)
Definition fail_turn (err : Error) (p : ProcessResponse) (io : W) (info : PipelineInfo)
  : run turn_out :=
  '(st, info) ← FinishingMiddlewares_init (set_p_error (Some err) info) (pr_resp p);
  Ret (Turn_return st io info).

(** The frames of an actor, in order; [res] is the last writer state. *)
Fixpoint write_frames (frames : list ActorFrame) (res : option WriterState) (ctx : ActorContext)
    (p : ProcessResponse) (io : W) (info : PipelineInfo) : run turn_out :=
  match frames with
  | [] =>
      let p := set_pr_iostate (IO_Actor ctx) p in
      match pr_drain p with
      | Some _ => Ret (Turn_break (set_pr_running (resume (pr_running p)) p) io info)
      | None => res ← unwrap res; Ret (Turn_result res p io info)
      end
  | Frame_Chunk None :: _ =>
      let info := set_p_context (Some ctx) info in
      match wr_write_eof io with
      | (Err err, io) => fail_turn (Error_from err) p io info
      | (Ok _, io) => Ret (Turn_break p io info)
      end
  | Frame_Chunk (Some chunk) :: frames =>
      match wr_write chunk io with
      | (Err err, io) => fail_turn (Error_from err) p io info
      | (Ok result, io) => write_frames frames (Some result) ctx p io info
      end
  | Frame_Drain fut :: frames => write_frames frames res ctx (set_pr_drain (Some fut) p) io info
  end.

(** One turn of the inner loop of [ProcessResponse::poll_io]. *)
Definition io_turn (p : ProcessResponse) (io : W) (info : PipelineInfo) : run turn_out :=
  let iostate := pr_iostate p in
  let p := set_pr_iostate IO_Done p in
  match iostate with
  | IO_Response =>
      let encoding := default (p_encoding info) (r_encoding (pr_resp p)) in
      match wr_start (p_req info) (pr_resp p) encoding io with
      | (Err err, rq, resp, io) =>
          fail_turn (Error_from err) (set_pr_resp resp p) io (set_p_req rq info)
      | (Ok result, rq, resp, io) =>
          let info := set_p_req rq info in
          (* always poll stream or actor for the first time *)
          let '(body, resp) := resp_replace_body Body_Empty resp in
          let p := set_pr_resp resp p in
          match body with
          | Body_Streaming s => Ret (Turn_continue (set_pr_iostate (IO_Payload (streams s)) p) io info)
          | Body_Actor a => Ret (Turn_continue (set_pr_iostate (IO_Actor (actors a)) p) io info)
          | _ => Ret (Turn_result result p io info)
          end
      end
  | IO_Payload body =>
      match stream_poll body with
      | (Ready None, _) =>
          match wr_write_eof io with
          | (Err err, io) => fail_turn (Error_from err) p io info
          | (Ok _, io) => Ret (Turn_break p io info)
          end
      | (Ready (Some chunk), body) =>
          let p := set_pr_iostate (IO_Payload body) p in
          match wr_write (Bin_Bytes chunk) io with
          | (Err err, io) => fail_turn (Error_from err) p io info
          | (Ok result, io) => Ret (Turn_result result p io info)
          end
      | (NotReady, body) => Ret (Turn_break (set_pr_iostate (IO_Payload body) p) io info)
      | (PErr err, _) => fail_turn err p io info
      end
  | IO_Actor ctx =>
      let '(ctx, info) := match p_disconnected info with
                          | Some _ => (ctx_disconnected ctx, set_p_disconnected None info)
                          | None => (ctx, info)
                          end in
      match ctx_poll ctx with
      | (Ready (Some []), ctx) => Ret (Turn_break (set_pr_iostate (IO_Actor ctx) p) io info)
      | (Ready (Some vec), ctx) => write_frames vec None ctx p io info
      | (Ready None, _) => Ret (Turn_break p io info)
      | (NotReady, ctx) => Ret (Turn_break (set_pr_iostate (IO_Actor ctx) p) io info)
      | (PErr err, _) => fail_turn err p io info
      end
  | IO_Done => Ret (Turn_break p io info)
  end.

(** The inner loop: the state behind it, or the state returned. *)
Fixpoint io_inner (fuel : nat) (p : ProcessResponse) (io : W) (info : PipelineInfo)
  : run ((ProcessResponse + PipelineState) * W * PipelineInfo) :=
  match fuel with
  | O => Timeout
  | S fuel =>
      t ← io_turn p io info;
      match t with
      | Turn_break p io info => Ret (inl p, io, info)
      | Turn_return st io info => Ret (inr st, io, info)
      | Turn_continue p io info => io_inner fuel p io info
      | Turn_result WS_Pause p io info =>
          Ret (inl (set_pr_running (pause (pr_running p)) p), io, info)
      | Turn_result WS_Done p io info =>
          io_inner fuel (set_pr_running (resume (pr_running p)) p) io info
      end
  end.

(** The number of polls an i/o state can still answer. *)
Definition body_weight (b : Body) : nat :=
  match b with
  | Body_Streaming s => length (streams s)
  | Body_Actor a => length (ctx_script (actors a))
  | _ => 0
  end.
Definition io_weight (p : ProcessResponse) : nat :=
  match pr_iostate p with
  | IO_Response => 2 + body_weight (r_body (pr_resp p))
  | IO_Payload s => 1 + length s
  | IO_Actor c => 1 + length (ctx_script c)
  | IO_Done => 0
  end.

(** [response is completed]: what follows the loops. *)
Definition poll_io_end (p : ProcessResponse) (io : W) (info : PipelineInfo)
  : run (step_out * W * PipelineInfo) :=
  match pr_iostate p with
  | IO_Done =>
      match wr_write_eof io with
      | (Ok _, io) =>
          '(st, info) ← FinishingMiddlewares_init info (set_r_response_size (wr_written io) (pr_resp p));
          Ret (Moved st, io, info)
      | (Err err, io) =>
          '(st, info) ← FinishingMiddlewares_init (set_p_error (Some (Error_from err)) info) (pr_resp p);
          Ret (Moved st, io, info)
      end
  | _ => Ret (Waiting (PS_Response p), io, info)
  end.

Fixpoint poll_io_loop (fuel : nat) (p : ProcessResponse) (io : W) (info : PipelineInfo)
  : run (step_out * W * PipelineInfo) :=
  match fuel with
  | O => Timeout
  | S fuel =>
      '(r, io, info) ←
        (if bool_decide (pr_drain p = None) && negb (bool_decide (pr_running p = Paused))
         then io_inner (S (io_weight p)) p io info
         else Ret (inl p, io, info));
      match r with
      | inr st => Ret (Moved st, io, info)
      | inl p =>
          (* flush io but only if we need to *)
          if bool_decide (pr_running p = Paused) || negb (bool_decide (pr_drain p = None)) then
            match wr_poll_completed false io with
            | (Ready _, io) =>
                let p := set_pr_running (resume (pr_running p)) p in
                (* resolve drain futures *)
                let info := match pr_drain p with
                            | Some tx => add_p_drained tx info
                            | None => info
                            end in
                (* restart io processing *)
                poll_io_loop fuel (set_pr_drain None p) io info
            | (NotReady, io) => Ret (Waiting (PS_Response p), io, info)
            | (PErr err, io) =>
                '(st, info) ← FinishingMiddlewares_init (set_p_error (Some (Error_from err)) info)
                                (pr_resp p);
                Ret (Moved st, io, info)
            end
          else poll_io_end p io info
      end
  end.
Definition ProcessResponse_poll_io (p : ProcessResponse) (io : W) (info : PipelineInfo)
  : run (step_out * W * PipelineInfo) :=
  poll_io_loop (S (S (io_weight p))) p io info.

(** ** The pipeline *)
Context (handle : Rq -> HandlerType -> ReplyItem) (htype : HandlerType).

Record Pipeline : Type := mkPipe { pipe_info : PipelineInfo; pipe_state : PipelineState }.

Definition PipelineInfo_new (req : Rq) (mws : list Middleware) (encoding : ContentEncoding)
  : PipelineInfo := mkInfo req 0 mws None None None encoding [] [].

Definition Pipeline_new (req : Rq) (mws : list Middleware) (encoding : ContentEncoding)
  : run Pipeline :=
  '(st, info) ← StartMiddlewares_init handle htype (PipelineInfo_new req mws encoding);
  Ret (mkPipe info st).

(** [Pipeline::error]. *)
Definition Pipeline_error (req : Rq) (resp : Resp) : Pipeline :=
  mkPipe (PipelineInfo_new req [] Enc_Auto) (ProcessResponse_init resp).

Definition is_done (st : PipelineState) : bool :=
  match st with
  | PS_None | PS_Error | PS_Starting _ | PS_Handler _ | PS_RunMiddlewares _ _ | PS_Response _ => true
  | PS_Finishing _ _ | PS_Completed => false
  end.

(** [PipelineState::poll]. *)
Definition state_poll (st : PipelineState) (info : PipelineInfo) : run (step_out * PipelineInfo) :=
  match st with
  | PS_Starting f => StartMiddlewares_poll handle htype f info
  | PS_Handler f => WaitingResponse_poll f info
  | PS_RunMiddlewares curr f => RunMiddlewares_poll curr f info
  | PS_Finishing resp f => FinishingMiddlewares_poll resp f info
  | PS_Completed => Ret (Completed_poll info)
  | PS_Response _ | PS_None | PS_Error => Ret (Waiting st, info)
  end.

Definition Pipeline_disconnected (p : Pipeline) : Pipeline :=
  mkPipe (set_p_disconnected (Some true) (pipe_info p)) (pipe_state p).

Definition internal_error : Error := Error_from (mkIoError OtherKind "Internal error").

(** [HttpHandlerTask::poll_io]. *)
Fixpoint Pipeline_poll_io_loop (fuel : nat) (io : W) (p : Pipeline)
  : run (poll bool Error * W * Pipeline) :=
  match fuel with
  | O => Timeout
  | S fuel =>
      match pipe_state p with
      | PS_Response st =>
          '(r, io, info) ← ProcessResponse_poll_io st io (pipe_info p);
          match r with
          | Moved state =>
              match p_error info with
              | Some error => Ret (PErr error, io, mkPipe (set_p_error None info) state)
              | None => Ret (Ready (is_done state), io, mkPipe info state)
              end
          | Waiting state => Ret (NotReady, io, mkPipe info state)
          end
      | PS_None => Ret (Ready true, io, p)
      | PS_Error => Ret (PErr internal_error, io, p)
      | st =>
          '(r, info) ← state_poll st (pipe_info p);
          match r with
          | Moved st => Pipeline_poll_io_loop fuel io (mkPipe info st)
          | Waiting st => Ret (NotReady, io, mkPipe info st)
          end
      end
  end.

(** [HttpHandlerTask::poll]. *)
Fixpoint Pipeline_poll_loop (fuel : nat) (p : Pipeline) : run (poll unit Error * Pipeline) :=
  match fuel with
  | O => Timeout
  | S fuel =>
      match pipe_state p with
      | PS_None | PS_Error => Ret (Ready tt, p)
      | st =>
          '(r, info) ← state_poll st (pipe_info p);
          match r with
          | Moved st => Pipeline_poll_loop fuel (mkPipe info st)
          | Waiting st => Ret (NotReady, mkPipe info st)
          end
      end
  end.

(** Eight states in a row: every turn leads to a later one. *)
Definition Pipeline_poll_io (io : W) (p : Pipeline) : run (poll bool Error * W * Pipeline) :=
  Pipeline_poll_io_loop 8 io p.
Definition Pipeline_poll (p : Pipeline) : run (poll unit Error * Pipeline) := Pipeline_poll_loop 8 p.
End Output.

(** ** Invariants of the pipeline *)
Section Invariants.
Context (mws : list Middleware) (handle : Rq -> HandlerType -> ReplyItem) (htype : HandlerType).
Context (mws_small : lenZ mws < 2 ^ 16).

(** The two ways in which middlewares can make the pipeline panic. *)
Definition may_finish_later (i : Z) : Prop :=
  exists mw rq resp f rq', mws !! Z.to_nat i = Some mw /\
    mw_finish mw rq resp = (Finished_Future f, rq').
Definition may_start_later (i : Z) : Prop :=
  exists mw rq f rq', mws !! Z.to_nat i = Some mw /\ mw_start mw rq = (Ok (Started_Future f), rq').
Definition may_start_now (i : Z) : Prop :=
  exists mw rq rq', mws !! Z.to_nat i = Some mw /\ mw_start mw rq = (Ok Started_Done, rq').

Definition panics : Prop :=
  may_finish_later 0 \/
  (exists i, 0 <= i < lenZ mws - 1 /\ may_start_later i /\ may_start_now (lenZ mws - 1)).

(** Calls before the response is written, and the calls of [finish]. *)
Definition calls (s : Z) (h : bool) (r : Z) : list call :=
  map Call_start (seqZ 0 s) ++ (if h then [Call_handler] else []) ++ map Call_response (seqZ 0 r).
Definition finishes (hi lo : Z) : list call := map Call_finish (rev (seqZ lo (hi - lo))).

Definition info_wf (info : PipelineInfo) : Prop :=
  p_mws info = mws /\ 0 <= p_count info <= lenZ mws.
Definition started_ok (s : Z) (h : bool) : Prop :=
  0 <= s <= lenZ mws /\ (h = true -> s = lenZ mws).

(** How many middlewares are to be finished when [s] were started, the handler was called
    or not ([h]), and [r] were shown the response: all of them behind a handler; else all
    but the one that ended the starts, or that one too if it did so with a future; or, if a
    middleware refuses the response, those up to this one. *)
Definition may_fail (i : Z) : Prop :=
  exists mw rq resp e rq', mws !! Z.to_nat i = Some mw /\ mw_response mw rq resp = (Err e, rq').
Definition counted (s : Z) (h : bool) (c : Z) : Prop :=
  if h then c = lenZ mws else c = s - 1 \/ (c = s /\ may_start_later (s - 1)).
Definition finish_from (s : Z) (h : bool) (r c : Z) : Prop :=
  counted s h c \/ (c = r /\ may_fail (r - 1)).

(** Where a pipeline in state [st] is in the sequence of calls. *)
Definition state_inv (st : PipelineState) (info : PipelineInfo) : Prop :=
  info_wf info /\
  match st with
  | PS_Starting _ =>
      p_trace info = calls (p_count info + 1) false 0 /\ p_count info < lenZ mws /\
      may_start_later (p_count info)
  | PS_Handler _ => p_trace info = calls (lenZ mws) true 0 /\ p_count info = lenZ mws
  | PS_RunMiddlewares curr _ =>
      exists s h, started_ok s h /\ counted s h (p_count info) /\ 0 <= curr < lenZ mws /\
        p_trace info = calls s h (curr + 1)
  | PS_Response _ =>
      exists s h r, started_ok s h /\ finish_from s h r (p_count info) /\ 0 <= r <= lenZ mws /\
        p_trace info = calls s h r
  | PS_Finishing _ f =>
      exists s h r hi, started_ok s h /\ finish_from s h r hi /\ 0 <= r <= lenZ mws /\ p_count info < hi <= lenZ mws /\
        p_trace info = calls s h r ++ finishes hi (p_count info) /\ is_Some f /\
        (p_count info = 0 -> may_finish_later 0)
  | PS_None | PS_Error | PS_Completed =>
      exists s h r hi, started_ok s h /\ finish_from s h r hi /\ 0 <= r <= lenZ mws /\ 0 <= hi <= lenZ mws /\
        p_trace info = calls s h r ++ finishes hi 0
  end.
Notation inv_out := (fun '(st, info) => state_inv st info).
Notation step_inv := (fun '(o, info) => match o with Moved st | Waiting st => state_inv st info end).

Lemma calls_start s : 0 <= s -> calls s false 0 ++ [Call_start s] = calls (s + 1) false 0.
Proof.
  intros Hs. unfold calls. simpl. rewrite !app_nil_r, seqZ_app by lia.
  by rewrite map_app.
Qed.
Lemma calls_handler s : calls s false 0 ++ [Call_handler] = calls s true 0.
Proof. unfold calls. simpl. by rewrite app_nil_r. Qed.
Lemma calls_response s h r : 0 <= r -> calls s h r ++ [Call_response r] = calls s h (r + 1).
Proof.
  intros Hr. unfold calls. rewrite (seqZ_app 0 r 1) by lia. by rewrite map_app, <-!app_assoc.
Qed.
Lemma finishes_snoc hi c : c <= hi -> finishes hi c ++ [Call_finish (c - 1)] = finishes hi (c - 1).
Proof.
  intros Hc. unfold finishes. replace (hi - (c - 1)) with (Z.succ (hi - c)) by lia.
  rewrite (seqZ_cons (c - 1)) by lia. simpl. rewrite map_app. simpl.
  by replace (Z.succ (c - 1)) with c by lia; replace (Z.pred (Z.succ (hi - c))) with (hi - c) by lia.
Qed.
Lemma finishes_nil c : finishes c c = [].
Proof. unfold finishes. by rewrite Z.sub_diag. Qed.

Lemma u16_small n : 0 <= n < 2 ^ 16 -> u16_wrap n = n.
Proof. apply Z.mod_small. Qed.

Lemma mws_at_post bad info i (Q : Middleware -> Prop) :
  p_mws info = mws -> 0 <= i -> (i < lenZ mws \/ bad) ->
  (forall mw, mws !! Z.to_nat i = Some mw -> Q mw) -> run_post bad Q (mws_at info i).
Proof.
  intros Hm Hi Hb HQ. unfold mws_at. rewrite Hm. apply run_post_unwrap; [done|].
  intros Hn%lookup_ge_None. unfold lenZ in *. destruct Hb as [Hb|Hb]; [lia|done].
Qed.

(** The response stage. *)
Lemma run_init_loop_inv fuel curr resp info s h :
  info_wf info -> started_ok s h -> counted s h (p_count info) -> 0 <= curr < lenZ mws ->
  p_trace info = calls s h curr -> lenZ mws - curr < Z.of_nat fuel ->
  run_post panics inv_out (run_init_loop fuel curr resp info).
Proof.
  revert curr resp info. induction fuel as [|fuel IH]; intros curr resp info Hwf Hs Hk Hc Ht Hf; [lia|].
  cbn [run_init_loop]. destruct Hwf as [Hm Hcnt].
  apply run_post_bind, mws_at_post; [done|lia|by left; lia|]. intros mw Hmw.
  unfold response_mw. destruct (mw_response mw (p_req info) resp) as [r rq] eqn:Hresp.
  destruct r as [[r|f]|e].
  - cbn [p_mws add_p_call set_p_req]. rewrite Hm. destruct (Z.eqb_spec (curr + 1) (lenZ mws)) as [He|].
    + split; [done|]. exists s, h, (curr + 1). split_and!; [done|by left|lia|lia|].
      simpl. rewrite Ht. apply calls_response. lia.
    + apply IH; try done; [lia| |lia]. simpl. rewrite Ht. apply calls_response. lia.
  - split; [done|]. exists s, h. split_and!; [done|done|lia|lia|]. simpl. rewrite Ht.
    apply calls_response. lia.
  - split; [split; [done|]; simpl; rewrite u16_small by lia; lia|].
    exists s, h, (curr + 1). split_and!; [done| |lia|lia|simpl; rewrite Ht].
    + right. simpl. split; [apply u16_small; lia|]. exists mw, (p_req info), resp, e, rq.
      by replace (curr + 1 - 1) with curr by lia.
    +
    apply calls_response. lia.
Qed.

Lemma RunMiddlewares_init_inv resp info s h :
  info_wf info -> started_ok s h -> counted s h (p_count info) -> p_trace info = calls s h 0 ->
  run_post panics inv_out (RunMiddlewares_init info resp).
Proof.
  intros Hwf Hs Hk Ht. unfold RunMiddlewares_init. pose proof Hwf as [Hm Hc].
  destruct (Z.eqb_spec (p_count info) 0).
  - split; [done|]. exists s, h, 0. split_and!; [done|by left|lia..|done].
  - apply (run_init_loop_inv _ _ _ _ s h); try done; [lia|]. rewrite Hm. unfold lenZ. lia.
Qed.

Lemma run_poll_inner_inv fuel curr resp info s h :
  info_wf info -> started_ok s h -> counted s h (p_count info) -> 0 <= curr <= lenZ mws -> p_trace info = calls s h curr ->
  lenZ mws - curr < Z.of_nat fuel ->
  run_post panics (fun '(r, info) =>
    match r with
    | inl st => state_inv st info
    | inr (curr', f) => curr <= curr' /\ state_inv (PS_RunMiddlewares curr' f) info
    end) (run_poll_inner fuel curr resp info).
Proof.
  revert curr resp info. induction fuel as [|fuel IH]; intros curr resp info Hwf Hs Hk Hc Ht Hf; [lia|].
  cbn [run_poll_inner]. destruct Hwf as [Hm Hcnt]. rewrite Hm.
  destruct (Z.eqb_spec curr (lenZ mws)).
  { split; [done|]. exists s, h, curr. split_and!; [done|by left|lia..|done]. }
  apply run_post_bind, mws_at_post; [done|lia|by left; lia|]. intros mw _.
  unfold response_mw. destruct (mw_response mw (p_req info) resp) as [r rq].
  assert (p_trace info ++ [Call_response curr] = calls s h (curr + 1)) as Ht'.
  { rewrite Ht. apply calls_response. lia. }
  destruct r as [[r|f]|e].
  - eapply run_post_mono; [apply IH; try done; lia|].
    intros [[st|[c f]] info'] Hst; [done|]. destruct Hst. split; [lia|done].
  - split; [lia|]. split; [done|]. exists s, h. split_and!; [done|done|lia|lia|done].
  - split; [done|]. exists s, h, (curr + 1). split_and!; [done|by left|lia|lia|done].
Qed.

Lemma RunMiddlewares_poll_inv curr f info :
  state_inv (PS_RunMiddlewares curr f) info ->
  run_post panics step_inv (RunMiddlewares_poll curr f info).
Proof.
  intros Hinv. unfold RunMiddlewares_poll.
  assert (lenZ mws - curr < Z.of_nat (S (length (p_mws info)))) as Hf.
  { destruct Hinv as [[-> _] (s & h & _ & _ & Hc & _)]. unfold lenZ in *. lia. }
  revert Hf. generalize (S (length (p_mws info))) as fuel. intros fuel. revert curr f info Hinv.
  induction fuel as [|fuel IH]; intros curr f info Hinv Hf.
  { destruct Hinv as [_ (s & h & _ & _ & Hc & _)]. lia. }
  cbn [RunMiddlewares_poll_loop]. unfold fut_poll.
  destruct Hinv as [Hwf (s & h & Hs & Hk & Hc & Ht)].
  destruct (fut_wait f) as [[|n]|].
  - destruct (fut_result f) as [resp|e].
    + apply run_post_bind. eapply run_post_mono.
      { apply (run_poll_inner_inv _ _ _ _ s h); try done; [lia|].
        pose proof Hwf as [-> _]. unfold lenZ in *. lia. }
      intros [[st|[c f']] info'] Hst; [done|]. destruct Hst as [Hle Hst].
      apply IH; [done|lia].
    + split; [done|]. exists s, h, (curr + 1). split_and!; [done|by left|lia|lia|done].
  - split; [done|]. exists s, h. done.
  - split; [done|]. exists s, h. done.
Qed.

(** The handler. *)
Lemma WaitingResponse_init_inv info reply :
  info_wf info -> p_count info = lenZ mws -> p_trace info = calls (lenZ mws) true 0 ->
  run_post panics inv_out (WaitingResponse_init info reply).
Proof.
  intros Hwf Hk Ht. assert (started_ok (lenZ mws) true) as Hs.
  { pose proof (lenZ_nonneg mws). split; [lia|done]. }
  destruct reply; [by eapply RunMiddlewares_init_inv|done].
Qed.

Lemma call_handler_inv info :
  info_wf info -> p_count info = lenZ mws -> p_trace info = calls (lenZ mws) false 0 ->
  run_post panics inv_out (call_handler handle htype info).
Proof.
  intros Hwf Hk Ht. apply WaitingResponse_init_inv; [done|done|]. simpl. rewrite Ht. apply calls_handler.
Qed.

Lemma WaitingResponse_poll_inv f info :
  state_inv (PS_Handler f) info -> run_post panics step_inv (WaitingResponse_poll f info).
Proof.
  intros [Hwf [Ht Hk]]. assert (started_ok (lenZ mws) true) as Hs.
  { pose proof (lenZ_nonneg mws). split; [lia|done]. }
  unfold WaitingResponse_poll, fut_poll. destruct (fut_wait f) as [[|n]|]; [|done..].
  destruct (fut_result f) as [resp|e].
  - apply run_post_bind. eapply run_post_mono; [by eapply RunMiddlewares_init_inv|].
    by intros [st info'].
  - split; [done|]. exists (lenZ mws), true, 0. pose proof (lenZ_nonneg mws). split_and!; [done|by left|lia..|done].
Qed.

(** The start stage. *)
Lemma mws_len16_eq info : p_mws info = mws -> mws_len16 info = lenZ mws.
Proof. intros Hm. unfold mws_len16. rewrite Hm. pose proof (lenZ_nonneg mws). by apply u16_small. Qed.

Lemma incr_count_eq info :
  info_wf info -> p_count info < lenZ mws ->
  info_wf (incr_count info) /\ p_count (incr_count info) = p_count info + 1 /\
  p_trace (incr_count info) = p_trace info.
Proof.
  intros [Hm Hc] Hlt. unfold info_wf, incr_count. simpl. rewrite u16_small by lia.
  split_and!; [done|lia|lia|done..].
Qed.

Lemma started_resp_inv e info s :
  info_wf info -> 0 <= s <= lenZ mws -> counted s false (p_count info) -> p_trace info = calls s false 0 ->
  state_inv (ProcessResponse_init (error_response e)) info.
Proof. intros Hwf Hs Hk Ht. split; [done|]. exists s, false, 0. split; [by split|]. split; [by left|]. split_and!; [lia..|done]. Qed.

Lemma start_init_loop_inv fuel info :
  info_wf info -> p_trace info = calls (p_count info) false 0 ->
  lenZ mws - p_count info < Z.of_nat fuel ->
  run_post panics inv_out (start_init_loop handle htype fuel info).
Proof.
  revert info. induction fuel as [|fuel IH]; intros info Hwf Ht Hf; [destruct Hwf; lia|].
  cbn [start_init_loop]. rewrite mws_len16_eq by apply Hwf.
  destruct (Z.eqb_spec (p_count info) (lenZ mws)) as [He|Hne].
  { apply call_handler_inv; [done|done|]. by rewrite <-He. }
  pose proof Hwf as [Hm Hc]. assert (p_count info < lenZ mws) as Hlt by lia.
  apply run_post_bind, mws_at_post; [done|lia|by left|]. intros mw Hmw.
  unfold start_mw. destruct (mw_start mw (p_req info)) as [r rq] eqn:Hstart.
  set (info1 := add_p_call (Call_start (p_count info)) (set_p_req rq info)).
  assert (info_wf info1) as Hwf1 by done.
  assert (p_trace info1 = calls (p_count info + 1) false 0) as Ht1.
  { simpl. rewrite Ht. apply calls_start. lia. }
  destruct (incr_count_eq info1 Hwf1 Hlt) as (Hwf2 & Hc2 & Ht2).
  assert (run_post panics inv_out (start_init_loop handle htype fuel (incr_count info1))) as Hnext.
  { apply IH; [done|by rewrite Ht2, Hc2|rewrite Hc2; simpl; lia]. }
  assert (started_ok (p_count info + 1) false) as Hs by (split; [lia|done]).
  assert (counted (p_count info + 1) false (p_count info)) as Hk by (left; lia).
  destruct r as [[|resp|f]|e].
  - done.
  - by eapply RunMiddlewares_init_inv.
  - assert (may_start_later (p_count info)) as Hmay by (by exists mw, (p_req info), f, rq).
    unfold fut_poll. destruct (fut_wait f) as [[|n]|]; [|done..].
    destruct (fut_result f) as [[resp|]|e]; [by eapply RunMiddlewares_init_inv|done|].
    by eapply started_resp_inv; [|apply Hs|exact Hk|].
  - by eapply started_resp_inv; [|apply Hs|exact Hk|].
Qed.

Lemma StartMiddlewares_init_inv req encoding :
  run_post panics inv_out (StartMiddlewares_init handle htype (PipelineInfo_new req mws encoding)).
Proof.
  pose proof (lenZ_nonneg mws). apply start_init_loop_inv; [done|done|]. unfold lenZ. simpl. lia.
Qed.

Lemma start_poll_inner_inv fuel info i :
  info_wf info -> p_trace info = calls (p_count info) false 0 ->
  lenZ mws - p_count info < Z.of_nat fuel ->
  0 <= i < lenZ mws - 1 -> may_start_later i ->
  (p_count info < lenZ mws \/ may_start_now (lenZ mws - 1)) ->
  run_post panics (fun '(r, info') =>
    match r with
    | inl st => state_inv st info'
    | inr f => p_count info <= p_count info' /\ state_inv (PS_Starting f) info'
    end) (start_poll_inner fuel info).
Proof.
  revert info. induction fuel as [|fuel IH]; intros info Hwf Ht Hf Hi Hlater Hnow; [destruct Hwf; lia|].
  cbn [start_poll_inner]. pose proof Hwf as [Hm Hc].
  apply run_post_bind, mws_at_post; [done|lia| |].
  { destruct Hnow as [Hlt|Hnow]; [by left|]. right. right. by exists i. }
  intros mw Hmw. assert (p_count info < lenZ mws) as Hlt.
  { apply lookup_lt_Some in Hmw. unfold lenZ. lia. }
  unfold start_mw. destruct (mw_start mw (p_req info)) as [r rq] eqn:Hstart.
  set (info1 := add_p_call (Call_start (p_count info)) (set_p_req rq info)).
  assert (info_wf info1) as Hwf1 by done.
  assert (p_trace info1 = calls (p_count info + 1) false 0) as Ht1.
  { simpl. rewrite Ht. apply calls_start. lia. }
  destruct (incr_count_eq info1 Hwf1 Hlt) as (Hwf2 & Hc2 & Ht2).
  assert (started_ok (p_count info + 1) false) as Hs by (split; [lia|done]).
  assert (counted (p_count info + 1) false (p_count info)) as Hk by (left; lia).
  destruct r as [[|resp|f]|e].
  - eapply run_post_mono.
    + apply IH; [done|by rewrite Ht2, Hc2|rewrite Hc2; simpl; lia|done|done|].
      rewrite Hc2. simpl. destruct (decide (p_count info + 1 < lenZ mws)); [by left|right].
      exists mw, (p_req info), rq. by replace (lenZ mws - 1) with (p_count info) by lia.
    + intros [[st|f] info'] Hst; [done|]. rewrite Hc2 in Hst. simpl in Hst. destruct Hst; split; [lia|done].
  - apply run_post_bind. eapply run_post_mono; [by eapply RunMiddlewares_init_inv|]. by intros [st info'].
  - split; [done|]. split; [done|]. split_and!; [done|done|]. by exists mw, (p_req info), f, rq.
  - by eapply started_resp_inv; [|apply Hs|exact Hk|].
Qed.

Lemma StartMiddlewares_poll_inv f info :
  state_inv (PS_Starting f) info -> run_post panics step_inv (StartMiddlewares_poll handle htype f info).
Proof.
  intros Hinv. unfold StartMiddlewares_poll.
  assert (lenZ mws - p_count info < Z.of_nat (S (length (p_mws info)))) as Hf.
  { destruct Hinv as [[-> ?] _]. unfold lenZ in *. lia. }
  revert Hf. generalize (S (length (p_mws info))) as fuel. intros fuel. revert f info Hinv.
  induction fuel as [|fuel IH]; intros f info Hinv Hf; [destruct Hinv as [_ (_ & ? & _)]; lia|].
  cbn [start_poll_loop]. pose proof Hinv as [Hwf (Ht & Hlt & Hlater)]. unfold fut_poll.
  destruct (fut_wait f) as [[|n]|]; [|done..].
  destruct (incr_count_eq info Hwf Hlt) as (Hwf2 & Hc2 & Ht2). pose proof Hwf as [Hm Hc].
  rewrite Ht in Ht2. assert (started_ok (p_count info + 1) false) as Hs by (split; [lia|done]).
  assert (counted (p_count info + 1) false (p_count info)) as Hk by (left; lia).
  assert (counted (p_count info + 1) false (p_count (incr_count info))) as Hk2.
  { right. split; [done|]. by replace (p_count info + 1 - 1) with (p_count info) by lia. }
  destruct (fut_result f) as [[resp|]|e].
  - apply run_post_bind. eapply run_post_mono; [by eapply RunMiddlewares_init_inv|]. by intros [st info'].
  - cbv zeta. rewrite mws_len16_eq by apply Hwf2.
    destruct (Z.eqb_spec (p_count (incr_count info)) (lenZ mws)) as [He|Hne].
    + apply run_post_bind. eapply run_post_mono.
      { apply call_handler_inv; [done|done|]. by rewrite Ht2, <-Hc2, He. }
      by intros [st info'].
    + apply run_post_bind. eapply run_post_mono.
      { apply (start_poll_inner_inv _ _ (p_count info)); try done; [by rewrite Ht2, Hc2| |lia|left; lia].
        destruct Hwf2 as [-> ?]. unfold lenZ in *. lia. }
      intros [[st|f'] info'] Hst; [done|]. destruct Hst as [Hle Hst]. apply IH; [done|lia].
  - by eapply started_resp_inv; [|apply Hs|exact Hk|].
Qed.

(** The finish stage. *)
Lemma Completed_init_inv info s h r hi :
  info_wf info -> started_ok s h -> finish_from s h r hi -> 0 <= r <= lenZ mws -> 0 <= hi <= lenZ mws ->
  p_trace info = calls s h r ++ finishes hi 0 -> state_inv (Completed_init info) info.
Proof.
  intros Hwf Hs Hk Hr Hhi Ht. unfold Completed_init.
  destruct (p_context info); (split; [done|]; by exists s, h, r, hi).
Qed.

Lemma finish_loop_inv fuel resp f info s h r hi :
  info_wf info -> started_ok s h -> finish_from s h r hi -> 0 <= r <= lenZ mws -> p_count info <= hi <= lenZ mws ->
  p_trace info = calls s h r ++ finishes hi (p_count info) ->
  (0 < p_count info \/ may_finish_later 0) -> (is_Some f -> p_count info < hi) ->
  p_count info < Z.of_nat fuel ->
  run_post panics step_inv (finish_loop fuel resp f info).
Proof.
  revert f info. induction fuel as [|fuel IH]; intros f info Hwf Hs Hk Hr Hhi Ht Hpos Hf Hfuel;
    [destruct Hwf; lia|].
  cbn [finish_loop].
  destruct (match f with Some _ => _ | None => _ end) as [fut|] eqn:Hpoll.
  { split; [done|]. destruct f as [f|]; [|done]. exists s, h, r, hi.
    specialize (Hf (mk_is_Some _ _ eq_refl)).
    split_and!; try done; try lia. intros Hz. destruct Hpos; [lia|done]. }
  pose proof Hwf as [Hm Hc]. set (info1 := set_p_count (u16_wrap (p_count info - 1)) info).
  destruct (decide (p_count info = 0)) as [Hz|Hnz].
  { apply run_post_bind, mws_at_post; [done| | |].
    - simpl. unfold u16_wrap. apply Z.mod_pos_bound. lia.
    - right. left. destruct Hpos; [lia|done].
    - assert (p_count info1 = 65535) as -> by (simpl; by rewrite Hz).
      intros mw Hmw%lookup_lt_Some. unfold lenZ in *. lia. }
  assert (p_count info1 = p_count info - 1) as Hc1 by (apply u16_small; lia).
  apply run_post_bind. rewrite Hc1. apply mws_at_post; [done|lia|left; lia|]. intros mw Hmw.
  unfold finish_mw. destruct (mw_finish mw (p_req info1) resp) as [fr rq] eqn:Hfin.
  set (info2 := add_p_call (Call_finish (p_count info - 1)) (set_p_req rq info1)).
  assert (info_wf info2) as Hwf2 by (split; [done|]; change (p_count info2) with (p_count info1); lia).
  assert (p_trace info2 = calls s h r ++ finishes hi (p_count info - 1)) as Ht2.
  { simpl. rewrite Ht, <-app_assoc. f_equal. apply finishes_snoc. lia. }
  assert (p_count info2 = p_count info - 1) as Hc2 by done.
  destruct fr as [|fut].
  - destruct (Z.eqb_spec (p_count info2) 0) as [Hz2|Hnz2].
    + apply (Completed_init_inv _ s h r hi); try done; [lia|]. rewrite Ht2. do 2 f_equal. lia.
    + apply IH; rewrite ?Hc2; try done; lia.
  - apply IH; rewrite ?Hc2; try done; try lia.
    destruct (decide (p_count info = 1)) as [H1|]; [|left; lia]. right.
    exists mw, (p_req info1), resp, fut, rq. by rewrite H1 in Hmw.
Qed.

Definition resp_inv (info : PipelineInfo) : Prop :=
  info_wf info /\ exists s h r, started_ok s h /\ finish_from s h r (p_count info) /\ 0 <= r <= lenZ mws /\ p_trace info = calls s h r.

Lemma FinishingMiddlewares_init_inv info resp :
  resp_inv info -> run_post panics inv_out (FinishingMiddlewares_init info resp).
Proof.
  intros [Hwf (s & h & r & Hs & Hk & Hr & Ht)]. pose proof Hwf as [Hm Hc].
  unfold FinishingMiddlewares_init. destruct (Z.eqb_spec (p_count info) 0) as [Hz|Hnz].
  - rewrite Hz in Hk. apply (Completed_init_inv _ s h r 0); try done; [lia|]. by rewrite finishes_nil, app_nil_r.
  - apply run_post_bind. eapply run_post_mono.
    + apply (finish_loop_inv _ _ _ _ s h r (p_count info)); try done; try lia.
      * by rewrite finishes_nil, app_nil_r.
      * rewrite Hm. unfold lenZ in *. lia.
    + by intros [[st|st] info'] Hst.
Qed.

(** Writing the response. *)
Section Writing.
Context {W : Type} `{Writer W} (streams : nat -> BodyStream) (actors : nat -> ActorContext).
Notation weight := (io_weight streams actors).

(** What a turn of the inner loop leaves, starting with [w] polls to go. *)
Definition turn_post (w : nat) (t : turn_out (W := W)) : Prop :=
  match t with
  | Turn_break p _ info =>
      resp_inv info /\ (weight p <= w)%nat /\ pr_running p <> Paused /\
      (pr_drain p <> None -> (weight p < w)%nat)
  | Turn_return st _ info => state_inv st info
  | Turn_continue p _ info | Turn_result _ p _ info =>
      resp_inv info /\ (weight p < w)%nat /\ pr_running p <> Paused /\ pr_drain p = None
  end.

Lemma fail_turn_post w e p io info :
  resp_inv info -> run_post panics (turn_post w) (fail_turn e p io info).
Proof.
  intros Hinv. unfold fail_turn. apply run_post_bind.
  eapply run_post_mono; [by apply FinishingMiddlewares_init_inv|]. by intros [st info'].
Qed.

Lemma resume_not_paused r : resume r <> Paused.
Proof. by destruct r. Qed.

Lemma write_frames_post frames res ctx p io info w :
  resp_inv info -> (1 + length (ctx_script ctx) < w)%nat -> pr_iostate p = IO_Done ->
  pr_running p <> Paused -> (is_Some res \/ is_Some (pr_drain p) \/ frames <> []) ->
  run_post panics (turn_post w) (write_frames frames res ctx p io info).
Proof.
  revert res p io info. induction frames as [|[[c|]|rx] frames IH]; intros res p io info Hinv Hw Hd Hp Hres;
    cbn [write_frames].
  - simpl. destruct (pr_drain p) as [rx|] eqn:Hdr.
    + simpl. split_and!; [done|unfold io_weight; simpl; lia|apply resume_not_paused|].
      intros _. unfold io_weight; simpl; lia.
    + destruct Hres as [[r ->]|[[? Hs]|Hs]]; [|done..]. simpl.
      split_and!; [done|unfold io_weight; simpl; lia|done|done].
  - destruct (wr_write c io) as [[r|e] io']; [|by apply fail_turn_post]. apply IH; eauto.
  - destruct (wr_write_eof io) as [[r|e] io']; [|by apply fail_turn_post].
    simpl. unfold io_weight. rewrite Hd. split_and!; [done|lia|done|lia].
  - apply IH; simpl; eauto.
Qed.

Lemma io_turn_post p io info :
  resp_inv info -> pr_drain p = None -> pr_running p <> Paused ->
  run_post panics (turn_post (weight p)) (io_turn streams actors p io info).
Proof.
  intros Hinv Hdr Hrun. unfold io_turn. destruct (pr_iostate p) as [|s|c|] eqn:Hio.
  - destruct (wr_start (p_req info) _ _ io) as [[[[r|e] rq] resp] io'] eqn:Hst;
      [|by apply fail_turn_post].
    apply wr_start_body in Hst. simpl in Hst. cbn [resp_replace_body].
    destruct (r_body resp) as [|b|s|a] eqn:Hb; simpl;
      (split_and!; [done| |done|done]); unfold io_weight; rewrite Hio; simpl; try lia.
    + destruct Hst as [Hst|Hst]; [|done]. rewrite <-Hst. simpl. lia.
    + destruct Hst as [Hst|Hst]; [|done]. rewrite <-Hst. simpl. lia.
  - unfold io_weight. rewrite Hio. destruct s as [|x s]; simpl.
    { split_and!; [done|unfold io_weight; simpl; lia|done|by rewrite Hdr]. }
    destruct x as [[chunk|]| |e]; simpl; [| | |by apply fail_turn_post].
    + destruct (wr_write (Bin_Bytes chunk) io) as [[r|e] io']; [|by apply fail_turn_post].
      simpl. split_and!; [done|unfold io_weight; simpl; lia|done|done].
    + destruct (wr_write_eof io) as [[r|e] io']; [|by apply fail_turn_post].
      simpl. split_and!; [done|unfold io_weight; simpl; lia|done|by rewrite Hdr].
    + split_and!; [done|unfold io_weight; simpl; lia|done|by rewrite Hdr].
  - set (ci := match p_disconnected info with Some _ => _ | None => _ end).
    assert (length (ctx_script ci.1) = length (ctx_script c) /\ resp_inv ci.2) as [Hlen Hinv'].
    { unfold ci. by destruct (p_disconnected info). }
    clearbody ci. destruct ci as [ctx info']. simpl in Hlen, Hinv'.
    unfold ctx_poll. unfold io_weight. rewrite Hio, <-Hlen. destruct (ctx_script ctx) as [|x s] eqn:Hs.
    { simpl. split_and!; [done|unfold io_weight; simpl; rewrite Hs; simpl; lia|done|by rewrite Hdr]. }
    destruct x as [[[|f v]|]| |e]; [| | | |by apply fail_turn_post].
    + simpl. split_and!; [done|unfold io_weight; simpl; lia|done|by rewrite Hdr].
    + apply write_frames_post; simpl; [done|lia|done|done|by auto].
    + simpl. split_and!; [done|unfold io_weight; simpl; lia|done|by rewrite Hdr].
    + simpl. split_and!; [done|unfold io_weight; simpl; lia|done|by rewrite Hdr].
  - simpl. split_and!; [done|unfold io_weight; rewrite Hio; simpl; lia|done|by rewrite Hdr].
Qed.

Definition blocked (p : ProcessResponse) : Prop := pr_running p = Paused \/ pr_drain p <> None.

Lemma weight_running r p : weight (set_pr_running r p) = weight p.
Proof. done. Qed.

Lemma io_inner_post fuel p io info :
  resp_inv info -> pr_drain p = None -> pr_running p <> Paused -> (weight p < fuel)%nat ->
  run_post panics (fun '(r, _, info) =>
    match r with
    | inl p' => resp_inv info /\ (weight p' <= weight p)%nat /\
                (blocked p' -> (weight p' < weight p)%nat)
    | inr st => state_inv st info
    end) (io_inner streams actors fuel p io info).
Proof.
  revert p io info. induction fuel as [|fuel IH]; intros p io info Hinv Hdr Hrun Hf; [lia|].
  cbn [io_inner]. apply run_post_bind. eapply run_post_mono; [by apply io_turn_post|].
  intros [p' io' info'|st io' info'|p' io' info'|r p' io' info']; cbn [turn_post].
  - intros (Hi & Hw & Hr & Hd). split_and!; [done|done|]. unfold blocked. naive_solver.
  - done.
  - intros (Hi & Hw & Hr & Hd). eapply run_post_mono; [apply IH; [done..|lia]|].
    intros [[[p2|st] io2] info2]; [|done]. intros (? & ? & Hb). split_and!; [done|lia|]. intros ?. lia.
  - intros (Hi & Hw & Hr & Hd). destruct r.
    + eapply run_post_mono; [apply IH; [done|done|apply resume_not_paused|]|].
      { rewrite weight_running. lia. }
      intros [[[p2|st] io2] info2]; [|done]. intros (? & Hw2 & Hb). rewrite weight_running in Hw2.
      split_and!; [done|lia|]. intros ?. lia.
    + simpl. rewrite weight_running. split_and!; [done|lia|done].
Qed.

Lemma finish_step info resp (io : W) :
  resp_inv info ->
  run_post panics (fun '(o, _, info) => match o with Moved st | Waiting st => state_inv st info end)
    ('(st, info) ← FinishingMiddlewares_init info resp; Ret (Moved st, io, info)).
Proof.
  intros Hinv. apply run_post_bind. eapply run_post_mono; [by apply FinishingMiddlewares_init_inv|].
  by intros [st info'].
Qed.

Lemma poll_io_loop_post fuel p io info :
  resp_inv info -> (weight p + 1 < fuel \/ (weight p < fuel /\ ~ blocked p))%nat ->
  run_post panics (fun '(o, _, info) => match o with Moved st | Waiting st => state_inv st info end)
    (poll_io_loop streams actors fuel p io info).
Proof.
  revert p io info. induction fuel as [|fuel IH]; intros p io info Hinv Hf; [lia|].
  cbn [poll_io_loop]. apply run_post_bind.
  apply run_post_mono with (P := fun '(r, _, info) =>
    match r with
    | inl p' => resp_inv info /\ (weight p' <= weight p)%nat /\
                (blocked p' -> (weight p' < weight p)%nat \/ (p' = p /\ blocked p))
    | inr st => state_inv st info
    end).
  { case_bool_decide as Hdr; [case_bool_decide as Hrun|]; cbn [andb negb].
    - split_and!; [done|done|]. right. split; [done|by left].
    - eapply run_post_mono; [apply io_inner_post; [done..|lia]|].
      intros [[[p'|st] io'] info']; [|done]. intros (? & ? & ?). split_and!; [done|done|]. by left; auto.
    - split_and!; [done|done|]. right. split; [done|by right]. }
  intros [[[p'|st] io'] info']; [|done]. intros (Hi & Hle & Hb).
  destruct (bool_decide (pr_running p' = Paused) || negb (bool_decide (pr_drain p' = None))) eqn:Hbl.
  - assert (blocked p') as Hblk.
    { unfold blocked. rewrite orb_true_iff, negb_true_iff, bool_decide_eq_true, bool_decide_eq_false in Hbl. done. }
    destruct (wr_poll_completed false io') as [[u| |e] io2].
    + apply IH; [by destruct (pr_drain _)|]. right. split.
      * change (weight p' < fuel)%nat. destruct (Hb Hblk) as [Hlt|[-> Hp]]; [lia|].
        destruct Hf as [Hf|[_ Hf]]; [lia|done].
      * intros [Hr|Hd]; [by destruct (resume_not_paused _ Hr)|done].
    + destruct Hi as [Hwf Hx]. split; done.
    + by apply finish_step.
  - unfold poll_io_end. destruct (pr_iostate p'); try (destruct Hi as [Hwf Hx]; split; done).
    destruct (wr_write_eof io') as [[r|e] io2]; by apply finish_step.
Qed.

Lemma ProcessResponse_poll_io_post p io info :
  resp_inv info ->
  run_post panics (fun '(o, _, info) => match o with Moved st | Waiting st => state_inv st info end)
    (ProcessResponse_poll_io streams actors p io info).
Proof. intros Hinv. apply poll_io_loop_post; [done|]. left. lia. Qed.
End Writing.

(** States come in order, so [poll_io] and [poll] make at most seven turns. *)
Definition rank (st : PipelineState) : nat :=
  match st with
  | PS_Starting _ => 6 | PS_Handler _ => 5 | PS_RunMiddlewares _ _ => 4 | PS_Response _ => 3
  | PS_Finishing _ _ => 2 | PS_Completed => 1 | PS_None | PS_Error => 0
  end.

Lemma run_init_loop_rank fuel curr resp info st info' :
  run_init_loop fuel curr resp info = Ret (st, info') -> (rank st <= 4)%nat.
Proof.
  revert curr resp info. induction fuel as [|fuel IH]; intros curr resp info Hr; [done|].
  cbn [run_init_loop] in Hr. apply run_bind_Ret in Hr as (mw & _ & Hr).
  destruct (response_mw mw curr resp info) as [[[r|f]|e] i]; simplify_eq/=; try lia.
  case_match; simplify_eq/=; [lia|]. by eapply IH.
Qed.
Lemma RunMiddlewares_init_rank info resp st info' :
  RunMiddlewares_init info resp = Ret (st, info') -> (rank st <= 4)%nat.
Proof.
  unfold RunMiddlewares_init. case_match; intros Hr; [simplify_eq; simpl; lia|].
  by eapply run_init_loop_rank.
Qed.
Lemma call_handler_rank info st info' :
  call_handler handle htype info = Ret (st, info') -> (rank st <= 5)%nat.
Proof.
  unfold call_handler, WaitingResponse_init. destruct (handle _ _); intros Hr; [|simplify_eq; simpl; lia].
  apply RunMiddlewares_init_rank in Hr. lia.
Qed.

Lemma run_poll_inner_rank fuel curr resp info st info' :
  run_poll_inner fuel curr resp info = Ret (inl st, info') -> (rank st <= 3)%nat.
Proof.
  revert curr resp info. induction fuel as [|fuel IH]; intros curr resp info Hr; [done|].
  cbn [run_poll_inner] in Hr. case_match; simplify_eq/=; [lia|].
  apply run_bind_Ret in Hr as (mw & _ & Hr).
  destruct (response_mw mw curr resp info) as [[[r|f]|e] i]; simplify_eq/=; try lia. by eapply IH.
Qed.
Lemma RunMiddlewares_poll_rank fuel curr f info st info' :
  RunMiddlewares_poll_loop fuel curr f info = Ret (Moved st, info') -> (rank st <= 3)%nat.
Proof.
  revert curr f info. induction fuel as [|fuel IH]; intros curr f info Hr; [done|].
  cbn [RunMiddlewares_poll_loop] in Hr. destruct (fut_poll f) as [[resp| |e] f']; [|done|simplify_eq; simpl; lia].
  apply run_bind_Ret in Hr as ([[st1|[c f1]] i1] & Hin & Hr); [simplify_eq|by eapply IH].
  by eapply run_poll_inner_rank.
Qed.

Lemma start_poll_inner_rank fuel info st info' :
  start_poll_inner fuel info = Ret (inl st, info') -> (rank st <= 4)%nat.
Proof.
  revert info. induction fuel as [|fuel IH]; intros info Hr; [done|].
  cbn [start_poll_inner] in Hr. apply run_bind_Ret in Hr as (mw & _ & Hr).
  destruct (start_mw mw (p_count info) info) as [[[|resp|f]|e] i];
    [by eapply IH| |done|simplify_eq; simpl; lia].
  apply run_bind_Ret in Hr as ([st1 i1] & Hin & Hr); simplify_eq. by eapply RunMiddlewares_init_rank.
Qed.
Lemma start_poll_loop_rank fuel f info st info' :
  start_poll_loop handle htype fuel f info = Ret (Moved st, info') -> (rank st <= 5)%nat.
Proof.
  revert f info. induction fuel as [|fuel IH]; intros f info Hr; [done|].
  cbn [start_poll_loop] in Hr. destruct (fut_poll f) as [[[resp|]| |e] f']; [| |done|simplify_eq; simpl; lia].
  - apply run_bind_Ret in Hr as ([st1 i1] & Hin%RunMiddlewares_init_rank & Hr); simplify_eq/=. lia.
  - case_match.
    + apply run_bind_Ret in Hr as ([st1 i1] & Hin & Hr); simplify_eq. by eapply call_handler_rank.
    + apply run_bind_Ret in Hr as ([[st1|f1] i1] & Hin & Hr); [simplify_eq|by eapply IH].
      apply start_poll_inner_rank in Hin. lia.
Qed.
Lemma finish_loop_rank fuel resp f info st info' :
  finish_loop fuel resp f info = Ret (Moved st, info') -> (rank st <= 1)%nat.
Proof.
  revert f info. induction fuel as [|fuel IH]; intros f info Hr; [done|].
  cbn [finish_loop] in Hr. destruct (match f with Some _ => _ | None => _ end); [done|].
  apply run_bind_Ret in Hr as (mw & _ & Hr).
  destruct (finish_mw mw _ resp _) as [[|fut] i]; [|by eapply IH].
  case_match; [|by eapply IH]. simplify_eq/=. unfold Completed_init. case_match; simpl; lia.
Qed.

Lemma state_poll_rank st info st' info' :
  state_poll handle htype st info = Ret (Moved st', info') -> (rank st' < rank st)%nat.
Proof.
  destruct st; cbn [state_poll rank]; intros Hr; try done.
  - apply start_poll_loop_rank in Hr. lia.
  - unfold WaitingResponse_poll in Hr. destruct (fut_poll f) as [[resp| |e] f']; [|done|simplify_eq; simpl; lia].
    apply run_bind_Ret in Hr as ([st1 i1] & Hin%RunMiddlewares_init_rank & Hr); simplify_eq/=. lia.
  - apply RunMiddlewares_poll_rank in Hr. lia.
  - apply finish_loop_rank in Hr. lia.
  - unfold Completed_poll in Hr. destruct (poll_context info) as [[u| |e] i]; simplify_eq/=; lia.
Qed.

Lemma state_poll_inv st info :
  state_inv st info -> run_post panics step_inv (state_poll handle htype st info).
Proof.
  intros Hinv. destruct st as [| |f|f|curr f|p|resp f|]; try done.
  - by apply StartMiddlewares_poll_inv.
  - by apply WaitingResponse_poll_inv.
  - by apply RunMiddlewares_poll_inv.
  - destruct Hinv as [Hwf (s & h & r & hi & Hs & Hk & Hr & Hhi & Ht & Hf & Hz)]. pose proof Hwf as [Hm Hc].
    apply (finish_loop_inv _ _ _ _ s h r hi); try done; [lia| |lia|].
    + destruct (decide (p_count info = 0)); [right; auto|left; lia].
    + rewrite Hm. unfold lenZ in *. lia.
  - destruct Hinv as [Hwf Hx]. simpl. unfold Completed_poll, poll_context.
    destruct (p_context info) as [ctx|]; [|done]. destruct (ctx_poll ctx) as [[u| |e] ctx']; done.
Qed.

Definition pipe_inv (p : Pipeline) : Prop := state_inv (pipe_state p) (pipe_info p).

Lemma Pipeline_poll_io_loop_inv {W} `{Writer W} streams actors fuel (io : W) p :
  pipe_inv p -> (rank (pipe_state p) < fuel)%nat ->
  run_post panics (fun '(_, _, p') => pipe_inv p')
    (Pipeline_poll_io_loop streams actors handle htype fuel io p).
Proof.
  revert io p. induction fuel as [|fuel IH]; intros io [info st] Hinv Hf; [lia|].
  assert (run_post panics (fun '(_, _, p') => pipe_inv p')
    ('(r, info) ← state_poll handle htype st info;
     match r with
     | Moved st => Pipeline_poll_io_loop streams actors handle htype fuel io (mkPipe info st)
     | Waiting st => Ret (NotReady, io, mkPipe info st)
     end)) as Hnext.
  { apply run_post_bind. pose proof (state_poll_inv st info Hinv) as Hpost.
    destruct (state_poll handle htype st info) as [[[st'|st'] info']| |] eqn:Hp; simpl in *; try done.
    apply IH; [done|]. apply state_poll_rank in Hp. simpl in *. lia. }
  cbn [Pipeline_poll_io_loop pipe_state pipe_info].
  destruct st as [| |f|f|curr f|pr|resp f|]; try done. clear Hnext.
  apply run_post_bind. eapply run_post_mono; [by apply ProcessResponse_poll_io_post|].
  intros [[[st|st] io'] info'] Hst; [|done]. destruct (p_error info'); done.
Qed.

Lemma Pipeline_poll_loop_inv fuel p :
  pipe_inv p -> (rank (pipe_state p) < fuel)%nat ->
  run_post panics (fun '(_, p') => pipe_inv p') (Pipeline_poll_loop handle htype fuel p).
Proof.
  revert p. induction fuel as [|fuel IH]; intros [info st] Hinv Hf; [lia|].
  assert (run_post panics (fun '(_, p') => pipe_inv p')
    ('(r, info) ← state_poll handle htype st info;
     match r with
     | Moved st => Pipeline_poll_loop handle htype fuel (mkPipe info st)
     | Waiting st => Ret (NotReady, mkPipe info st)
     end)) as Hnext.
  { apply run_post_bind. pose proof (state_poll_inv st info Hinv) as Hpost.
    destruct (state_poll handle htype st info) as [[[st'|st'] info']| |] eqn:Hp; simpl in *; try done.
    apply IH; [done|]. apply state_poll_rank in Hp. simpl in *. lia. }
  cbn [Pipeline_poll_loop pipe_state pipe_info]. by destruct st.
Qed.

Lemma rank_bound st : (rank st < 8)%nat.
Proof. destruct st; simpl; lia. Qed.

Lemma Pipeline_poll_io_inv {W} `{Writer W} streams actors (io : W) p :
  pipe_inv p ->
  run_post panics (fun '(_, _, p') => pipe_inv p') (Pipeline_poll_io streams actors handle htype io p).
Proof.
  intros Hinv. unfold Pipeline_poll_io. apply Pipeline_poll_io_loop_inv; [done|apply rank_bound].
Qed.
Lemma Pipeline_poll_inv p :
  pipe_inv p -> run_post panics (fun '(_, p') => pipe_inv p') (Pipeline_poll handle htype p).
Proof.
  intros Hinv. unfold Pipeline_poll. apply Pipeline_poll_loop_inv; [done|apply rank_bound].
Qed.

(** Pipelines reachable from a new one, whatever the writer does. *)
Inductive pipeline_reachable {W} `{Writer W} (streams : nat -> BodyStream)
    (actors : nat -> ActorContext) : Pipeline -> Prop :=
| pipeline_new req encoding p :
    Pipeline_new handle htype req mws encoding = Ret p -> pipeline_reachable streams actors p
| pipeline_poll_io (io io' : W) r p p' :
    pipeline_reachable streams actors p ->
    Pipeline_poll_io streams actors handle htype io p = Ret (r, io', p') ->
    pipeline_reachable streams actors p'
| pipeline_poll r p p' :
    pipeline_reachable streams actors p -> Pipeline_poll handle htype p = Ret (r, p') ->
    pipeline_reachable streams actors p'
| pipeline_disconnect p :
    pipeline_reachable streams actors p -> pipeline_reachable streams actors (Pipeline_disconnected p).

Lemma pipeline_reachable_inv {W} `{Writer W} streams actors p :
  pipeline_reachable streams actors p -> pipe_inv p.
Proof.
  induction 1 as [req enc p Hp|io io' r p p' _ IH Hp|r p p' _ IH Hp|p _ IH].
  - pose proof (StartMiddlewares_init_inv req enc) as Hpost. unfold Pipeline_new in Hp.
    destruct (StartMiddlewares_init _ _ _) as [[st info]| |]; by simplify_eq/=.
  - pose proof (Pipeline_poll_io_inv streams actors io p IH) as Hpost. by rewrite Hp in Hpost.
  - pose proof (Pipeline_poll_inv p IH) as Hpost. by rewrite Hp in Hpost.
  - destruct p as [info []]; done.
Qed.


(** C16. A pipeline never hangs in a loop, and it panics only for one of two kinds of
    middlewares: the first one finishing with a future, or one starting with a future
    before a last one that starts at once.  For all others creating a pipeline and
    polling it, with any writer, always returns. *)
Theorem pipeline_panics_only {W} `{Writer W} (streams : nat -> BodyStream)
    (actors : nat -> ActorContext) (io : W) (p : Pipeline) :
  pipeline_reachable streams actors p ->
  run_post panics (fun '(_, _, p') => pipeline_reachable streams actors p')
    (Pipeline_poll_io streams actors handle htype io p) /\
  run_post panics (fun '(_, p') => pipeline_reachable streams actors p')
    (Pipeline_poll handle htype p) /\
  forall req encoding, run_post panics (pipeline_reachable streams actors)
    (Pipeline_new handle htype req mws encoding).
Proof.
  intros Hreach. pose proof (pipeline_reachable_inv _ _ _ Hreach) as Hinv. split_and!.
  - pose proof (Pipeline_poll_io_inv streams actors io p Hinv) as Hpost.
    destruct (Pipeline_poll_io _ _ _ _ io p) as [[[r io'] p']| |] eqn:Hp; simpl in *; try done.
    by eapply pipeline_poll_io.
  - pose proof (Pipeline_poll_inv p Hinv) as Hpost.
    destruct (Pipeline_poll handle htype p) as [[r p']| |] eqn:Hp; simpl in *; try done.
    by eapply pipeline_poll.
  - intros req enc. pose proof (StartMiddlewares_init_inv req enc) as Hpost.
    destruct (Pipeline_new handle htype req mws enc) as [p'| |] eqn:Hp; simpl.
    + by eapply pipeline_new.
    + unfold Pipeline_new in Hp. by destruct (StartMiddlewares_init _ _ _) as [[]| |].
    + unfold Pipeline_new in Hp. by destruct (StartMiddlewares_init _ _ _) as [[]| |].
Qed.
(** ** Synchronous middlewares run to the end *)
Definition sync_mw (mw : Middleware) : Prop :=
  (forall rq, exists rq', mw_start mw rq = (Ok Started_Done, rq')) /\
  (forall rq resp, exists resp' rq', mw_response mw rq resp = (Ok (Resp_Done resp'), rq')) /\
  (forall rq resp, exists rq', mw_finish mw rq resp = (Finished_Done, rq')).

Definition same_rest (info info' : PipelineInfo) : Prop :=
  p_mws info' = p_mws info /\ p_context info' = p_context info /\ p_error info' = p_error info.

Lemma sync_lookup i info :
  Forall sync_mw mws -> p_mws info = mws -> 0 <= i < lenZ mws ->
  exists mw, mws_at info i = Ret mw /\ sync_mw mw.
Proof.
  intros Hall Hm Hi. unfold mws_at. rewrite Hm.
  destruct (lookup_lt_is_Some_2 mws (Z.to_nat i)) as [mw Hmw]; [unfold lenZ in *; lia|].
  rewrite Hmw. exists mw. split; [done|]. by eapply Forall_lookup_1.
Qed.

Lemma start_init_loop_sync fuel info :
  Forall sync_mw mws -> info_wf info -> p_trace info = calls (p_count info) false 0 ->
  lenZ mws - p_count info < Z.of_nat fuel ->
  exists info', start_init_loop handle htype fuel info = call_handler handle htype info' /\
    info_wf info' /\ p_count info' = lenZ mws /\ p_trace info' = calls (lenZ mws) false 0 /\
    same_rest info info'.
Proof.
  intros Hall. revert info. induction fuel as [|fuel IH]; intros info Hwf Ht Hf; [destruct Hwf; lia|].
  cbn [start_init_loop]. rewrite mws_len16_eq by apply Hwf. pose proof Hwf as [Hm Hc].
  destruct (Z.eqb_spec (p_count info) (lenZ mws)) as [He|Hne].
  { exists info. rewrite <-He. done. }
  assert (p_count info < lenZ mws) as Hlt by lia.
  destruct (sync_lookup (p_count info) info Hall Hm) as (mw & -> & Hst & _); [lia|].
  destruct (Hst (p_req info)) as [rq Hs]. simpl. unfold start_mw. rewrite Hs.
  set (info1 := add_p_call (Call_start (p_count info)) (set_p_req rq info)).
  destruct (incr_count_eq info1) as (Hwf2 & Hc2 & Ht2); [done|done|].
  destruct (IH (incr_count info1)) as (info' & -> & Hx); [done| |rewrite Hc2; simpl; lia|eauto].
  rewrite Ht2, Hc2. simpl. rewrite Ht. apply calls_start. lia.
Qed.

Lemma run_init_loop_sync fuel curr resp info s h :
  Forall sync_mw mws -> info_wf info -> 0 <= curr < lenZ mws -> p_trace info = calls s h curr ->
  lenZ mws - curr < Z.of_nat fuel ->
  exists resp' info', run_init_loop fuel curr resp info = Ret (ProcessResponse_init resp', info') /\
    p_count info' = p_count info /\ p_trace info' = calls s h (lenZ mws) /\ same_rest info info'.
Proof.
  intros Hall. revert curr resp info. induction fuel as [|fuel IH]; intros curr resp info Hwf Hc Ht Hf; [lia|].
  cbn [run_init_loop]. pose proof Hwf as [Hm _].
  destruct (sync_lookup curr info Hall Hm) as (mw & -> & _ & Hr & _); [lia|].
  destruct (Hr (p_req info) resp) as (resp1 & rq & Hr1). simpl. unfold response_mw. rewrite Hr1. simpl.
  assert (p_trace info ++ [Call_response curr] = calls s h (curr + 1)) as Ht'.
  { rewrite Ht. apply calls_response. lia. }
  rewrite Hm. destruct (Z.eqb_spec (curr + 1) (lenZ mws)) as [<-|].
  - eexists _, _. split; [done|]. done.
  - edestruct (IH (curr + 1) resp1) as (resp' & info' & -> & Hx); [| | | |eauto]; done || lia.
Qed.

Lemma finish_loop_sync fuel resp info hi :
  Forall sync_mw mws -> info_wf info -> 0 < p_count info <= hi ->
  p_count info < Z.of_nat fuel ->
  forall t, p_trace info = t ++ finishes hi (p_count info) ->
  exists info', finish_loop fuel resp None info = Ret (Moved (Completed_init info'), info') /\
    p_trace info' = t ++ finishes hi 0 /\ same_rest info info'.
Proof.
  intros Hall. revert info. induction fuel as [|fuel IH]; intros info Hwf Hc Hf t Ht; [lia|].
  cbn [finish_loop]. pose proof Hwf as [Hm Hc'].
  set (info1 := set_p_count (u16_wrap (p_count info - 1)) info).
  assert (p_count info1 = p_count info - 1) as Hc1 by (apply u16_small; lia).
  rewrite Hc1. destruct (sync_lookup (p_count info - 1) info1 Hall Hm) as (mw & -> & _ & _ & Hfin); [lia|].
  destruct (Hfin (p_req info1) resp) as [rq Hr]. cbn [mbind run_bind]. unfold finish_mw. rewrite Hr.
  set (info2 := add_p_call (Call_finish (p_count info - 1)) (set_p_req rq info1)).
  assert (p_count info2 = p_count info - 1) as Hc2 by done. rewrite Hc2.
  assert (p_trace info2 = t ++ finishes hi (p_count info - 1)) as Ht2.
  { simpl. rewrite Ht, <-app_assoc. f_equal. apply finishes_snoc. lia. }
  destruct (Z.eqb_spec (p_count info - 1) 0) as [Hz|Hnz].
  - exists info2. split; [done|]. by rewrite Ht2, Hz.
  - destruct (IH info2) with (t := t) as (info' & -> & Hx); try (rewrite ?Hc2; done || lia); [|eauto].
    split; [done|]. rewrite Hc2. lia.
Qed.

(** A writer that neither fails nor pauses, for responses with a body in memory. *)
Definition quiet_writer (W : Type) `{Writer W} : Prop :=
  (forall rq resp enc (w : W), is_streaming (r_body resp) = false ->
     exists rq' resp' w', wr_start rq resp enc w = (Ok WS_Done, rq', resp', w')) /\
  (forall w : W, exists st w', wr_write_eof w = (Ok st, w')).

Lemma poll_io_quiet {W} `{Writer W} streams actors (io : W) resp info :
  quiet_writer W -> is_streaming (r_body resp) = false ->
  exists resp' io' info', ProcessResponse_poll_io streams actors (mkPR resp IO_Response Running None) io info =
    ('(st, info) ← FinishingMiddlewares_init info' resp'; Ret (Moved st, io', info)) /\
    p_count info' = p_count info /\ p_trace info' = p_trace info /\ same_rest info info'.
Proof.
  intros [Hst Heof] Hb. unfold ProcessResponse_poll_io. cbn [poll_io_loop io_inner].
  unfold io_turn. cbn.
  destruct (Hst (p_req info) resp (default (p_encoding info) (r_encoding resp)) io Hb)
    as (rq & resp1 & io1 & Hs). rewrite Hs.
  apply wr_start_body in Hs. assert (is_streaming (r_body resp1) = false) as Hb1.
  { destruct Hs as [->|Hs]; done. }
  destruct (Heof io1) as (st & io2 & Heof1).
  destruct (r_body resp1) as [|b|s|a]; try done; cbn; unfold io_turn; cbn; change (bool_decide (Running = Paused)) with false; cbn;
    change (resume Running) with Running; change (bool_decide (Running = Paused)) with false; cbn;
    unfold poll_io_end; cbn; rewrite Heof1; eexists _, _, _; (split; [reflexivity|done]).
Qed.

(** With synchronous middlewares every request is answered and cleaned up: the
    handler is called once, each middleware gets [start], [response] and [finish] once,
    in the order 0, 1, ... and for [finish] back from the last to 0, and the pipeline is
    done after one [poll_io] on a writer that accepts the output. *)
Theorem pipeline_sync_complete {W} `{Writer W} (streams : nat -> BodyStream)
    (actors : nat -> ActorContext) (io : W) (req : Rq) (encoding : ContentEncoding) :
  Forall sync_mw mws -> quiet_writer W ->
  (forall rq, exists resp, handle rq htype = Reply_Message resp) ->
  (forall p resp, Pipeline_new handle htype req mws encoding = Ret p ->
     pipe_state p = ProcessResponse_init resp -> is_streaming (r_body resp) = false) ->
  exists p io' p',
    Pipeline_new handle htype req mws encoding = Ret p /\
    Pipeline_poll_io streams actors handle htype io p = Ret (Ready true, io', p') /\
    pipe_state p' = PS_None /\
    p_trace (pipe_info p') = calls (lenZ mws) true (lenZ mws) ++ finishes (lenZ mws) 0.
Proof.
  intros Hall Hq Hhandle Hbody. pose proof (lenZ_nonneg mws) as Hnn.
  assert (exists resp info, Pipeline_new handle htype req mws encoding =
      Ret (mkPipe info (ProcessResponse_init resp)) /\ info_wf info /\ p_count info = lenZ mws /\
      p_trace info = calls (lenZ mws) true (lenZ mws) /\ p_context info = None /\ p_error info = None)
    as (resp & info & Hnew & Hwf & Hc & Ht & Hctx & Herr).
  { unfold Pipeline_new, StartMiddlewares_init.
    destruct (start_init_loop_sync (S (length (p_mws (PipelineInfo_new req mws encoding))))
                (PipelineInfo_new req mws encoding))
      as (info & -> & Hwf & Hc & Ht & Hm & Hx & He); [done|done|done|unfold lenZ; simpl; lia|].
    unfold call_handler. destruct (Hhandle (p_req info)) as [resp ->].
    unfold WaitingResponse_init, RunMiddlewares_init. change (p_count (add_p_call _ info)) with (p_count info).
    destruct (Z.eqb_spec (p_count info) 0) as [Hz|Hnz].
    - eexists _, _. split; [done|]. rewrite <-Hc, Hz in *. simpl. rewrite Ht. by split_and!.
    - destruct (run_init_loop_sync (S (length (p_mws info))) 0 resp (add_p_call Call_handler info)
                  (lenZ mws) true) as (resp' & info' & Heq & Hc' & Ht' & Hm' & Hx' & He'); try done.
      + lia.
      + simpl. rewrite Ht. apply calls_handler.
      + rewrite Hm. unfold lenZ. simpl. lia.
      + change (p_mws (add_p_call _ info)) with (p_mws info). rewrite Heq. simpl. eexists _, _. split; [done|].
        unfold info_wf in *. simpl in *. rewrite Hm', Hc', Hx', He', Hx, He. split_and!; try done; lia. }
  exists (mkPipe info (ProcessResponse_init resp)). specialize (Hbody _ _ Hnew eq_refl).
  destruct (poll_io_quiet streams actors io resp info Hq Hbody)
    as (resp' & io' & info' & Hpoll & Hc' & Ht' & Hm' & Hx' & He').
  unfold Pipeline_poll_io. cbn [Pipeline_poll_io_loop pipe_state ProcessResponse_init pipe_info].
  rewrite Hpoll. unfold FinishingMiddlewares_init. rewrite Hc', Hc.
  destruct (Z.eqb_spec (lenZ mws) 0) as [Hz|Hnz]; simpl.
  - rewrite He', Herr. unfold Completed_init. rewrite Hx', Hctx. eexists _, _. split_and!; try done.
    simpl. by rewrite Ht', Ht, Hz.
  - unfold FinishingMiddlewares_poll. destruct Hwf as [Hm _].
    destruct (finish_loop_sync (S (S (length (p_mws info')))) resp' info' (lenZ mws) Hall)
      with (t := calls (lenZ mws) true (lenZ mws)) as (info2 & Heq & Ht2 & Hm2 & Hx2 & He2).
    + split; [congruence|lia].
    + lia.
    + rewrite Hc', Hc, Hm', Hm. unfold lenZ. lia.
    + by rewrite Ht', Ht, Hc', Hc, finishes_nil, app_nil_r.
    + rewrite Heq. simpl. rewrite He2, He', Herr. unfold Completed_init.
      rewrite Hx2, Hx', Hctx. eexists _, _. by split_and!.
Qed.

(** ** The two panics *)

Lemma poll_io_starting_panic {W} `{Writer W} streams actors (io : W) f info :
  StartMiddlewares_poll handle htype f info = Panic ->
  Pipeline_poll_io streams actors handle htype io (mkPipe info (PS_Starting f)) = Panic.
Proof.
  intros Hp. unfold Pipeline_poll_io. generalize 7%nat. intros fuel.
  cbn [Pipeline_poll_io_loop pipe_state pipe_info state_poll]. by rewrite Hp.
Qed.

(** A middleware whose [start] gives a pending future hangs up the request when
    the middlewares behind it all start at once: resuming runs past the end of the
    list and panics instead of calling the handler. *)
Theorem start_future_then_done_panics (i : Z) (info : PipelineInfo) :
  info_wf info -> p_count info = i -> i < lenZ mws - 1 ->
  (forall j mw rq, i < j -> mws !! Z.to_nat j = Some mw ->
     exists rq', mw_start mw rq = (Ok Started_Done, rq')) ->
  StartMiddlewares_poll handle htype (mkFut (Some 0%nat) (Ok None)) info = Panic.
Proof.
  intros Hwf Hi Hlt Hall. unfold StartMiddlewares_poll. cbn [start_poll_loop fut_poll fut_wait fut_result].
  destruct (incr_count_eq info Hwf) as (Hwf2 & Hc2 & _); [lia|].
  rewrite mws_len16_eq by apply Hwf2. rewrite (proj2 (Z.eqb_neq _ _)) by lia.
  assert (forall fuel info, info_wf info -> i < p_count info ->
    lenZ mws - p_count info < Z.of_nat fuel -> start_poll_inner fuel info = Panic) as Hinner.
  { clear -Hall mws_small. induction fuel as [|fuel IH]; intros info Hwf Hi Hf; [destruct Hwf; lia|].
    cbn [start_poll_inner]. unfold mws_at. pose proof Hwf as [Hm Hc]. rewrite Hm.
    destruct (mws !! Z.to_nat (p_count info)) as [mw|] eqn:Hmw; [|done]. simpl.
    destruct (Hall (p_count info) mw (p_req info) Hi Hmw) as [rq Hs]. unfold start_mw. rewrite Hs.
    assert (p_count info < lenZ mws) as Hlt by (apply lookup_lt_Some in Hmw; unfold lenZ; lia).
    destruct (incr_count_eq (add_p_call (Call_start (p_count info)) (set_p_req rq info)))
      as (Hwf2 & Hc2 & _); [done|done|].
    apply IH; [done|rewrite Hc2; simpl; lia..]. }
  rewrite Hinner; [done|done|lia|]. rewrite Hc2. pose proof Hwf2 as [-> ?]. unfold lenZ in *. lia.
Qed.

(** A first middleware whose [finish] gives a future brings the connection's
    worker down: once the future is done the count of middlewares is decremented below
    zero and the index that follows panics. *)
Theorem first_finish_future_panics (mw : Middleware) (resp : Resp) (info : PipelineInfo) :
  info_wf info -> p_count info = 1 -> mws !! 0%nat = Some mw ->
  (forall rq, exists r rq', mw_finish mw rq resp = (Finished_Future (mkFut (Some 0%nat) r), rq')) ->
  FinishingMiddlewares_init info resp = Panic.
Proof.
  intros [Hm Hc] H1 Hmw Hfin. unfold FinishingMiddlewares_init, FinishingMiddlewares_poll.
  rewrite H1. change (1 =? 0) with false. cbv iota. cbn [finish_loop].
  set (info1 := set_p_count (u16_wrap (p_count info - 1)) info).
  assert (p_count info1 = 0) as Hc1 by (simpl; by rewrite H1).
  assert (mws_at info1 0 = Ret mw) as Hat.
  { unfold mws_at. change (p_mws info1) with (p_mws info). rewrite Hm.
    change (Z.to_nat 0) with 0%nat. by rewrite Hmw. }
  rewrite Hc1, Hat. cbn [mbind run_bind]. unfold finish_mw.
  destruct (Hfin (p_req info1)) as (r & rq & ->).
  set (info2 := add_p_call (Call_finish 0) (set_p_req rq info1)).
  assert (mws_at (set_p_count (u16_wrap (p_count info2 - 1)) info2)
            (p_count (set_p_count (u16_wrap (p_count info2 - 1)) info2)) = Panic) as Hp.
  { unfold mws_at. change (p_mws _) with (p_mws info).
    change (p_count info2) with (p_count info1). rewrite Hc1, Hm.
    rewrite lookup_ge_None_2; [done|]. cbn [p_count set_p_count].
    change (u16_wrap (0 - 1)) with 65535. unfold lenZ in mws_small. lia. }
  unfold fut_poll. cbn [fut_wait fut_result]. by destruct r; rewrite Hp.
Qed.
End Invariants.
End Pipelines.

(** ** Witnesses *)
Section Witnesses.
Notation hs := (list (bytes * bytes)).
Notation mw_t := (Middleware (H := hs) (Rq := nat)).

(** A writer that keeps what it is given. *)
#[local] Instance log_writer : Writer (H := hs) (Rq := nat) (list bytes).
Proof.
  refine {| wr_written := fun w => lenZ (concat w);
            wr_start := fun rq resp _ w =>
              match r_body resp with
              | Body_Binary b => (Ok WS_Done, rq, set_r_body Body_Empty resp, w ++ [Binary_as_ref b])
              | _ => (Ok WS_Done, rq, resp, w)
              end;
            wr_write := fun b w => (Ok WS_Done, w ++ [Binary_as_ref b]);
            wr_write_eof := fun w => (Ok WS_Done, w);
            wr_poll_completed := fun _ w => (Ready tt, w) |}.
  intros rq resp enc w r rq' resp' w' Hs. destruct (r_body resp) eqn:Hb; simplify_eq; simpl; auto.
Defined.

Definition ok_handler (_ : nat) (_ : HandlerType) : ReplyItem (H := hs) :=
  Reply_Message (InnerHttpResponse_new 200 (Body_Binary (Bin_Bytes (b#"hi")))).
Definition count_mw : mw_t :=
  mkMw (fun rq => (Ok Started_Done, S rq)) (fun rq r => (Ok (Resp_Done (set_r_status 201 r)), S rq))
       (fun rq _ => (Finished_Done, S rq)).
(** [start] waits once. *)
Definition waiting_mw : mw_t :=
  mkMw (fun rq => (Ok (Started_Future (mkFut (Some 1%nat) (Ok None))), rq))
       (fun rq r => (Ok (Resp_Done r), rq)) (fun rq _ => (Finished_Done, rq)).
(** [finish] gives a future. *)
Definition late_mw : mw_t :=
  mkMw (fun rq => (Ok Started_Done, rq)) (fun rq r => (Ok (Resp_Done r), rq))
       (fun rq _ => (Finished_Future (mkFut (Some 0%nat) (Ok tt)), rq)).
Definition no_streams (_ : nat) : BodyStream := [].
Definition no_actors (_ : nat) : ActorContext := mkCtx [] false.

Definition two_mws : list mw_t := [Middleware_default; count_mw].
Definition two_pipe : Pipeline (H := hs) (Rq := nat) :=
  match Pipeline_new ok_handler HT_Default 0%nat two_mws Enc_Auto with
  | Ret p => p
  | _ => Pipeline_error 0%nat (InnerHttpResponse_new 500 Body_Empty)
  end.

Lemma two_pipe_reachable :
  pipeline_reachable (W := list bytes) two_mws ok_handler HT_Default no_streams no_actors two_pipe.
Proof. apply pipeline_new with 0%nat Enc_Auto. vm_compute. reflexivity. Qed.

(** The same pipeline after its response was written. *)
Definition done_pipe : Pipeline (H := hs) (Rq := nat) :=
  match Pipeline_poll_io (W := list bytes) no_streams no_actors ok_handler HT_Default [] two_pipe with
  | Ret (_, _, p) => p
  | _ => two_pipe
  end.
Lemma done_pipe_reachable :
  pipeline_reachable (W := list bytes) two_mws ok_handler HT_Default no_streams no_actors done_pipe.
Proof.
  eapply (pipeline_poll_io _ _ _ _ _ ([] : list bytes) _ _ two_pipe); [exact two_pipe_reachable|].
  vm_compute. reflexivity.
Qed.


Lemma two_mws_no_panic : ~ panics two_mws.
Proof.
  intros [(mw & rq & resp & f & rq' & Hmw & Hf)|(i & Hi & (mw & rq & f & rq' & Hmw & Hf) & _)].
  - vm_compute in Hmw. simplify_eq/=.
  - change (lenZ two_mws - 1) with 1 in Hi. assert (i = 0) as -> by lia.
    vm_compute in Hmw. simplify_eq/=.
Qed.

Lemma pipeline_panics_only_witness :
  exists r io' p', Pipeline_poll_io (W := list bytes) no_streams no_actors ok_handler HT_Default [] two_pipe =
    Ret (r, io', p').
Proof.
  destruct (pipeline_panics_only two_mws ok_handler HT_Default eq_refl no_streams no_actors [] two_pipe
    two_pipe_reachable) as [Hp _].
  destruct (Pipeline_poll_io no_streams no_actors ok_handler HT_Default [] two_pipe) as [[[r io'] p']| |].
  - eauto.
  - destruct (two_mws_no_panic Hp).
  - destruct Hp.
Defined.

Lemma pipeline_sync_complete_witness :
  exists p io' p', Pipeline_new ok_handler HT_Default 0%nat two_mws Enc_Auto = Ret p /\
    Pipeline_poll_io (W := list bytes) no_streams no_actors ok_handler HT_Default [] p =
      Ret (Ready true, io', p') /\
    p_trace (pipe_info p') = [Call_start 0; Call_start 1; Call_handler; Call_response 0; Call_response 1;
                              Call_finish 1; Call_finish 0].
Proof.
  destruct (pipeline_sync_complete two_mws ok_handler HT_Default eq_refl no_streams no_actors ([] : list bytes)
    0%nat Enc_Auto) as (p & io' & p' & Hn & Hp & _ & Ht).
  - repeat constructor; intros; eauto.
  - split; [|intros; eexists _, _; reflexivity].
    intros rq resp enc w Hb. destruct (r_body resp) eqn:E; try done; simpl; rewrite E; eauto.
  - intros rq. eexists. reflexivity.
  - intros p resp Hn Hst. vm_compute in Hn. injection Hn as <-. injection Hst as <-. reflexivity.
  - exists p, io', p'. split; [exact Hn|]. split; [exact Hp|]. rewrite Ht. reflexivity.
Defined.

(** A waiting middleware in front of a plain one: the first [poll_io] panics. *)
Definition waiting_info : PipelineInfo (H := hs) (Rq := nat) :=
  match Pipeline_new ok_handler HT_Default 0%nat [waiting_mw; count_mw] Enc_Auto with
  | Ret p => pipe_info p
  | _ => PipelineInfo_new 0%nat [] Enc_Auto
  end.

Lemma start_future_then_done_panics_witness :
  exists p, Pipeline_new ok_handler HT_Default 0%nat [waiting_mw; count_mw] Enc_Auto = Ret p /\
    Pipeline_poll_io (W := list bytes) no_streams no_actors ok_handler HT_Default [] p = Panic.
Proof.
  exists (mkPipe waiting_info (PS_Starting (mkFut (Some 0%nat) (Ok None)))). split; [reflexivity|].
  apply poll_io_starting_panic.
  apply (start_future_then_done_panics [waiting_mw; count_mw] ok_handler HT_Default eq_refl 0 waiting_info);
    [split; vm_compute; [reflexivity|split; discriminate]|reflexivity|reflexivity|].
  intros j mw rq Hj Hmw. destruct (Z.to_nat j) as [|[|n]] eqn:E; [lia| |destruct n; discriminate].
  injection Hmw as <-. exists (S rq). reflexivity.
Defined.

Definition late_info : PipelineInfo (H := hs) (Rq := nat) :=
  set_p_count 1 (PipelineInfo_new 0%nat [late_mw] Enc_Auto).

Lemma first_finish_future_panics_witness :
  FinishingMiddlewares_init late_info (InnerHttpResponse_new 200 Body_Empty) = Panic.
Proof.
  apply (first_finish_future_panics [late_mw] eq_refl late_mw).
  - split; vm_compute; [reflexivity|split; discriminate].
  - reflexivity.
  - reflexivity.
  - intros rq. eexists _, _. reflexivity.
Defined.
End Witnesses.
