(* ===== verification/Route.v ===== *)
(** * Routes and resources (src/src/route.rs, src/src/resource.rs, src/src/pred.rs,
      src/src/handler.rs)

    A resource is a list of routes, each with predicates and a handler, and may have
    middlewares of its own, which [Compose] runs around the handler as a future.  The
    [start] futures of middlewares and the futures of handlers are those of [Pipeline]. *)
From S2P Require Import Prelude StrLib Errors Http Response Router RouterFacts Pipeline.
Open Scope Z_scope.

Definition POST : bytes := b#"POST".
Definition PUT : bytes := b#"PUT".
Definition DELETE : bytes := b#"DELETE".
Definition OPTIONS : bytes := b#"OPTIONS".
Definition PATCH : bytes := b#"PATCH".
Definition TRACE : bytes := b#"TRACE".

(** [handler::Either]. *)
Inductive Either (A B : Type) : Type := Either_A (a : A) | Either_B (b : B).
Arguments Either_A {A B}. Arguments Either_B {A B}.

Section Routes.
Context {R : Type} `{Hre : RegexCrate R} {H : Type} `{Hhm : HeaderMap H} {St : Type}.
Notation Rq := (HttpRequest R H St).
Notation Resp := (InnerHttpResponse H).
Notation Mw := (Middleware (H := H) (Rq := Rq)).
Notation Reply := (ReplyItem (H := H)).

(** ** Predicates (pred.rs): a check may change the request *)
Definition Predicate : Type := Rq -> bool * Rq.

Fixpoint any_check (ps : list Predicate) (rq : Rq) : bool * Rq :=
  match ps with
  | [] => (false, rq)
  | p :: ps => let '(b, rq) := p rq in if (b : bool) then (true, rq) else any_check ps rq
  end.
Definition pred_Any (p : Predicate) : list Predicate := [p].
Definition pred_or (ps : list Predicate) (p : Predicate) : list Predicate := ps ++ [p].

Fixpoint all_check (ps : list Predicate) (rq : Rq) : bool * Rq :=
  match ps with
  | [] => (true, rq)
  | p :: ps => let '(b, rq) := p rq in if (b : bool) then all_check ps rq else (false, rq)
  end.
Definition pred_All (p : Predicate) : list Predicate := [p].
Definition pred_and (ps : list Predicate) (p : Predicate) : list Predicate := ps ++ [p].

Definition pred_Not (p : Predicate) : Predicate := fun rq => let '(b, rq) := p rq in (negb b, rq).
Definition pred_Method (m : bytes) : Predicate := fun rq =>
  (bool_decide (msg_method (rq_msg rq) = m), rq).
Definition pred_Get := pred_Method GET.
Definition pred_Post := pred_Method POST.
Definition pred_Put := pred_Method PUT.
Definition pred_Delete := pred_Method DELETE.
Definition pred_Head := pred_Method HEAD.
Definition pred_Options := pred_Method OPTIONS.
Definition pred_Connect := pred_Method CONNECT.
Definition pred_Patch := pred_Method PATCH.
Definition pred_Trace := pred_Method TRACE.
(** The name is already a header name. *)
Definition pred_Header (name value : bytes) : Predicate := fun rq =>
  (match hm_get name (msg_headers (rq_msg rq)) with
   | Some val => bool_decide (val = value)
   | None => false
   end, rq).

(** ** Responders and handlers (handler.rs) *)

(** [Responder::respond_to], with [Item: Into<Reply>] and [Error: Into<Error>] applied. *)
Class Responder (T : Type) := respond_to : T -> Rq -> result Reply Error.

#[export] Instance Responder_reply : Responder Reply := fun r _ => Ok r.
#[export] Instance Responder_response : Responder Resp := fun r _ => Ok (Reply_Message r).
#[export] Instance Responder_either {A B} `{Responder A, Responder B} : Responder (Either A B) :=
  fun e rq => match e with Either_A a => respond_to a rq | Either_B b => respond_to b rq end.
#[export] Instance Responder_result {T} `{Responder T} : Responder (result T Error) := fun r rq =>
  match r with
  | Ok val => match respond_to val rq with Ok val => Ok val | Err err => Err err end
  | Err err => Err err
  end.
Definition Reply_from_result (r : result Reply Error) : Reply :=
  match r with Ok val => val | Err err => Reply_Message (error_response err) end.

(** [RouteHandler]; [WrapHandler::handle] of a handler [h]. *)
Definition RouteHandler : Type := Rq -> Reply.
Definition wrap_handle {T} `{Responder T} (h : Rq -> T) : RouteHandler := fun rq =>
  match respond_to (h rq) rq with
  | Ok reply => reply
  | Err err => Reply_Message (error_response err)
  end.

(** One poll of the future of [AsyncHandler::handle] (and of [respond_to] of a boxed
    future): the reply of its result must not be a future itself. *)
Definition async_handler_poll {T} `{Responder T} (rq2 : Rq) (fut : Fut T)
  : run (poll Resp Error * Fut T) :=
  match fut_poll fut with
  | (NotReady, fut) => Ret (NotReady, fut)
  | (PErr e, fut) => Ret (PErr e, fut)
  | (Ready r, fut) =>
      match respond_to r rq2 with
      | Ok (Reply_Message resp) => Ret (Ready resp, fut)
      | Ok (Reply_Future _) => Panic
      | Err e => Ret (PErr e, fut)
      end
  end.

(** ** Routes (route.rs) *)
Record Route : Type := mkRoute { route_preds : list Predicate; route_handler : RouteHandler }.

Definition not_found_response : Resp := InnerHttpResponse_new 404 Body_Empty.
Definition Route_default : Route := mkRoute [] (fun _ => Reply_Message not_found_response).

Fixpoint preds_check (ps : list Predicate) (rq : Rq) : bool * Rq :=
  match ps with
  | [] => (true, rq)
  | p :: ps =>
      let '(b, rq) := p rq in
      if negb b then (false, rq) else preds_check ps rq
  end.
Definition route_check (r : Route) (rq : Rq) : bool * Rq := preds_check (route_preds r) rq.
Definition route_handle (r : Route) (rq : Rq) : Reply := route_handler r rq.
Definition route_filter (p : Predicate) (r : Route) : Route :=
  mkRoute (route_preds r ++ [p]) (route_handler r).
Definition route_h {T} `{Responder T} (h : Rq -> T) (r : Route) : Route :=
  mkRoute (route_preds r) (wrap_handle h).

(** ** Middlewares of a resource: the future [Compose] *)
Record ComposeInfo : Type := mkCI {
  ci_count : Z;
  ci_req : Rq;
  ci_mws : list Mw;
  ci_handler : RouteHandler;
  ci_trace : list call;
}.
Definition set_ci_count v i := mkCI v (ci_req i) (ci_mws i) (ci_handler i) (ci_trace i).
Definition set_ci_req v c i := mkCI (ci_count i) v (ci_mws i) (ci_handler i) (ci_trace i ++ [c]).
Definition add_ci_call c i := mkCI (ci_count i) (ci_req i) (ci_mws i) (ci_handler i) (ci_trace i ++ [c]).

Inductive ComposeState : Type :=
| CS_Starting (fut : Fut (option Resp))
| CS_Handler (fut : Fut Resp)
| CS_RunMiddlewares (curr : Z) (fut : Fut Resp)
| CS_Response (resp : option Resp).
Record Compose : Type := mkCompose { co_info : ComposeInfo; co_state : ComposeState }.

(** A [poll] of a state: the next one, or [None] with the state as it was left. *)
Inductive compose_out : Type := C_Moved (st : ComposeState) | C_Waiting (st : ComposeState).

Definition ci_mw (info : ComposeInfo) (i : Z) : run Mw := unwrap (ci_mws info !! Z.to_nat i).
Definition ci_start (mw : Mw) (info : ComposeInfo) : result Started Error * ComposeInfo :=
  let '(r, rq) := mw_start mw (ci_req info) in (r, set_ci_req rq (Call_start (ci_count info)) info).
Definition ci_response (mw : Mw) (i : Z) (resp : Resp) (info : ComposeInfo)
  : result MwResponse Error * ComposeInfo :=
  let '(r, rq) := mw_response mw (ci_req info) resp in (r, set_ci_req rq (Call_response i) info).

Definition Response_init (resp : Resp) : ComposeState := CS_Response (Some resp).

(** [RunMiddlewares::init] *)
Fixpoint compose_run_init_loop (fuel : nat) (curr : Z) (resp : Resp) (info : ComposeInfo)
  : run (ComposeState * ComposeInfo) :=
  match fuel with
  | O => Timeout
  | S fuel =>
      mw ← ci_mw info curr;
      match ci_response mw curr resp info with
      | (Err err, info) => Ret (Response_init (error_response err), set_ci_count (curr + 1) info)
      | (Ok (Resp_Done r), info) =>
          let curr := curr + 1 in
          if curr =? lenZ (ci_mws info) then Ret (Response_init r, info)
          else compose_run_init_loop fuel curr r info
      | (Ok (Resp_Future fut), info) => Ret (CS_RunMiddlewares curr fut, info)
      end
  end.
Definition compose_run_init (info : ComposeInfo) (resp : Resp) : run (ComposeState * ComposeInfo) :=
  compose_run_init_loop (S (length (ci_mws info))) 0 resp info.

(** The inner loop of [RunMiddlewares::poll]: a next state, or a next future. *)
Fixpoint compose_run_inner (fuel : nat) (curr : Z) (resp : Resp) (info : ComposeInfo)
  : run ((ComposeState + Z * Fut Resp) * ComposeInfo) :=
  match fuel with
  | O => Timeout
  | S fuel =>
      if curr =? lenZ (ci_mws info) then Ret (inl (Response_init resp), info)
      else
        mw ← ci_mw info curr;
        match ci_response mw curr resp info with
        | (Err err, info) => Ret (inl (Response_init (error_response err)), info)
        | (Ok (Resp_Done r), info) => compose_run_inner fuel (curr + 1) r info
        | (Ok (Resp_Future fut), info) => Ret (inr (curr, fut), info)
        end
  end.
Fixpoint compose_run_poll_loop (fuel : nat) (curr : Z) (fut : Fut Resp) (info : ComposeInfo)
  : run (compose_out * ComposeInfo) :=
  match fuel with
  | O => Timeout
  | S fuel =>
      match fut_poll fut with
      | (NotReady, fut) => Ret (C_Waiting (CS_RunMiddlewares curr fut), info)
      | (PErr err, _) => Ret (C_Moved (Response_init (error_response err)), info)
      | (Ready resp, _) =>
          '(r, info) ← compose_run_inner (S (length (ci_mws info))) (curr + 1) resp info;
          match r with
          | inl st => Ret (C_Moved st, info)
          | inr (curr, fut) => compose_run_poll_loop fuel curr fut info
          end
      end
  end.
Definition compose_run_poll (curr : Z) (fut : Fut Resp) (info : ComposeInfo)
  : run (compose_out * ComposeInfo) :=
  compose_run_poll_loop (S (length (ci_mws info))) curr fut info.

(** [WaitingResponse] *)
Definition compose_waiting_init (info : ComposeInfo) (reply : Reply) : run (ComposeState * ComposeInfo) :=
  match reply with
  | Reply_Message resp => compose_run_init info resp
  | Reply_Future fut => Ret (CS_Handler fut, info)
  end.
Definition compose_waiting_poll (fut : Fut Resp) (info : ComposeInfo) : run (compose_out * ComposeInfo) :=
  match fut_poll fut with
  | (NotReady, fut) => Ret (C_Waiting (CS_Handler fut), info)
  | (Ready response, _) => '(st, info) ← compose_run_init info response; Ret (C_Moved st, info)
  | (PErr err, _) => Ret (C_Moved (Response_init (error_response err)), info)
  end.

(** [StartMiddlewares] *)
Definition compose_call_handler (info : ComposeInfo) : run (ComposeState * ComposeInfo) :=
  compose_waiting_init (add_ci_call Call_handler info) (ci_handler info (ci_req info)).

Fixpoint compose_start_init_loop (fuel : nat) (info : ComposeInfo) : run (ComposeState * ComposeInfo) :=
  match fuel with
  | O => Timeout
  | S fuel =>
      if ci_count info =? lenZ (ci_mws info) then compose_call_handler info
      else
        mw ← ci_mw info (ci_count info);
        match ci_start mw info with
        | (Ok Started_Done, info) => compose_start_init_loop fuel (set_ci_count (ci_count info + 1) info)
        | (Ok (Started_Response resp), info) => compose_run_init info resp
        | (Ok (Started_Future fut), info) =>
            match fut_poll fut with
            | (NotReady, fut) => Ret (CS_Starting fut, info)
            | (Ready (Some resp), _) => compose_run_init info resp
            | (Ready None, _) => compose_start_init_loop fuel (set_ci_count (ci_count info + 1) info)
            | (PErr err, _) => Ret (Response_init (error_response err), info)
            end
        | (Err err, info) => Ret (Response_init (error_response err), info)
        end
  end.
Definition compose_start_init (info : ComposeInfo) : run (ComposeState * ComposeInfo) :=
  compose_start_init_loop (S (length (ci_mws info))) info.

(** The inner loop of [StartMiddlewares::poll] has no test for the end. *)
Fixpoint compose_start_inner (fuel : nat) (info : ComposeInfo)
  : run ((ComposeState + Fut (option Resp)) * ComposeInfo) :=
  match fuel with
  | O => Timeout
  | S fuel =>
      mw ← ci_mw info (ci_count info);
      match ci_start mw info with
      | (Ok Started_Done, info) => compose_start_inner fuel (set_ci_count (ci_count info + 1) info)
      | (Ok (Started_Response resp), info) =>
          '(st, info) ← compose_run_init info resp; Ret (inl st, info)
      | (Ok (Started_Future fut), info) => Ret (inr fut, info)
      | (Err err, info) => Ret (inl (Response_init (error_response err)), info)
      end
  end.
Fixpoint compose_start_poll_loop (fuel : nat) (fut : Fut (option Resp)) (info : ComposeInfo)
  : run (compose_out * ComposeInfo) :=
  match fuel with
  | O => Timeout
  | S fuel =>
      match fut_poll fut with
      | (NotReady, fut) => Ret (C_Waiting (CS_Starting fut), info)
      | (Ready resp, _) =>
          let info := set_ci_count (ci_count info + 1) info in
          match resp with
          | Some resp => '(st, info) ← compose_run_init info resp; Ret (C_Moved st, info)
          | None =>
              if ci_count info =? lenZ (ci_mws info) then
                '(st, info) ← compose_call_handler info; Ret (C_Moved st, info)
              else
                '(r, info) ← compose_start_inner (S (length (ci_mws info))) info;
                match r with
                | inl st => Ret (C_Moved st, info)
                | inr fut => compose_start_poll_loop fuel fut info
                end
          end
      | (PErr err, _) => Ret (C_Moved (Response_init (error_response err)), info)
      end
  end.
Definition compose_start_poll (fut : Fut (option Resp)) (info : ComposeInfo)
  : run (compose_out * ComposeInfo) :=
  compose_start_poll_loop (S (length (ci_mws info))) fut info.

(** [ComposeState::poll], [Compose::new] and [Compose::poll] *)
Definition compose_state_poll (st : ComposeState) (info : ComposeInfo) : run (compose_out * ComposeInfo) :=
  match st with
  | CS_Starting fut => compose_start_poll fut info
  | CS_Handler fut => compose_waiting_poll fut info
  | CS_RunMiddlewares curr fut => compose_run_poll curr fut info
  | CS_Response _ => Ret (C_Waiting st, info)
  end.
Definition Compose_new (rq : Rq) (mws : list Mw) (handler : RouteHandler) : run Compose :=
  '(st, info) ← compose_start_init (mkCI 0 rq mws handler []);
  Ret (mkCompose info st).

Fixpoint Compose_poll_loop (fuel : nat) (c : Compose) : run (poll Resp Error * Compose) :=
  match fuel with
  | O => Timeout
  | S fuel =>
      match co_state c with
      | CS_Response resp =>
          resp ← unwrap resp;
          Ret (Ready resp, mkCompose (co_info c) (CS_Response None))
      | st =>
          '(out, info) ← compose_state_poll st (co_info c);
          match out with
          | C_Moved st => Compose_poll_loop fuel (mkCompose info st)
          | C_Waiting st => Ret (NotReady, mkCompose info st)
          end
      end
  end.
(** Every turn moves on among the four states. *)
Definition Compose_poll (c : Compose) : run (poll Resp Error * Compose) := Compose_poll_loop 4 c.

(** ** Resources (resource.rs) *)
Record ResourceHandler : Type := mkRH {
  rh_name : bytes;
  rh_routes : list Route;
  rh_middlewares : list Mw;
}.
Definition ResourceHandler_default : ResourceHandler := mkRH [] [] [].
Definition rh_set_name (name : bytes) (r : ResourceHandler) : ResourceHandler :=
  mkRH name (rh_routes r) (rh_middlewares r).
(** [route], and its combinations with a method and a handler. *)
Definition rh_route (route : Route) (r : ResourceHandler) : ResourceHandler :=
  mkRH (rh_name r) (rh_routes r ++ [route]) (rh_middlewares r).
Definition rh_method (m : bytes) (f : Route -> Route) : ResourceHandler -> ResourceHandler :=
  rh_route (f (route_filter (pred_Method m) Route_default)).
Definition rh_h {T} `{Responder T} (h : Rq -> T) : ResourceHandler -> ResourceHandler :=
  rh_route (route_h h Route_default).
Definition rh_middleware (mw : Mw) (r : ResourceHandler) : ResourceHandler :=
  mkRH (rh_name r) (rh_routes r) (rh_middlewares r ++ [mw]).

(** [Reply]: a response, a future of a handler, or the future [Compose]. *)
Inductive ResourceReply : Type := RR_Reply (r : Reply) | RR_Compose (c : Compose).

(** The loop over the routes: a reply, or the request as the predicates left it. *)
Fixpoint routes_handle (routes : list Route) (mws : list Mw) (rq : Rq) : run (ResourceReply + Rq) :=
  match routes with
  | [] => Ret (inr rq)
  | route :: routes =>
      let '(ok, rq) := route_check route rq in
      if (ok : bool) then
        match mws with
        | [] => Ret (inl (RR_Reply (route_handle route rq)))
        | _ => c ← Compose_new rq mws (route_handler route); Ret (inl (RR_Compose c))
        end
      else routes_handle routes mws rq
  end.
Definition rh_handle_alone (r : ResourceHandler) (rq : Rq) : run ResourceReply :=
  x ← routes_handle (rh_routes r) (rh_middlewares r) rq;
  Ret (match x with
       | inl reply => reply
       | inr _ => RR_Reply (Reply_Message not_found_response)
       end).
Definition rh_handle (r : ResourceHandler) (rq : Rq) (dflt : option ResourceHandler)
  : run ResourceReply :=
  x ← routes_handle (rh_routes r) (rh_middlewares r) rq;
  match x with
  | inl reply => Ret reply
  | inr rq =>
      match dflt with
      | Some resource => rh_handle_alone resource rq
      | None => Ret (RR_Reply (Reply_Message not_found_response))
      end
  end.
End Routes.

(** ** Invariants of [Compose] *)
Section ComposeInvariants.
Context {R : Type} `{Hre : RegexCrate R} {H : Type} `{Hhm : HeaderMap H} {St : Type}.
Notation Rq := (HttpRequest R H St).
Notation Resp := (InnerHttpResponse H).
Notation Mw := (Middleware (H := H) (Rq := Rq)).
Notation Info := (ComposeInfo (R := R) (H := H) (St := St)).
Context (mws : list Mw) (handler : RouteHandler (R := R) (H := H) (St := St)).
Context (mws_some : 0 < lenZ mws).

(** The one way in which middlewares can make the composition panic. *)
Definition compose_panics : Prop :=
  exists i, 0 <= i < lenZ mws - 1 /\ may_start_later mws i /\ may_start_now mws (lenZ mws - 1).

Definition ci_wf (info : ComposeInfo (R := R) (H := H) (St := St)) : Prop :=
  ci_mws info = mws /\ ci_handler info = handler /\ 0 <= ci_count info <= lenZ mws.

(** Where a composition in state [st] is in the sequence of calls. *)
Definition compose_inv (st : ComposeState (H := H)) info : Prop :=
  ci_wf info /\
  match st with
  | CS_Starting _ =>
      ci_trace info = calls (ci_count info + 1) false 0 /\ ci_count info < lenZ mws /\
      may_start_later mws (ci_count info)
  | CS_Handler _ => ci_trace info = calls (lenZ mws) true 0
  | CS_RunMiddlewares curr _ =>
      exists s h, started_ok mws s h /\ 0 <= curr < lenZ mws /\ ci_trace info = calls s h (curr + 1)
  | CS_Response resp =>
      is_Some resp /\
      exists s h r, started_ok mws s h /\ 0 <= r <= lenZ mws /\ ci_trace info = calls s h r
  end.
Notation c_out := (fun '(st, info) => compose_inv st info).
Notation c_step := (fun '(o, info) => match o with C_Moved st | C_Waiting st => compose_inv st info end).

Lemma ci_mw_post bad info i (Q : Mw -> Prop) :
  ci_mws info = mws -> 0 <= i -> (i < lenZ mws \/ bad) ->
  (forall mw, mws !! Z.to_nat i = Some mw -> Q mw) -> run_post bad Q (ci_mw info i).
Proof.
  intros Hm Hi Hb HQ. unfold ci_mw. rewrite Hm. apply run_post_unwrap; [done|].
  intros Hn%lookup_ge_None. unfold lenZ in *. destruct Hb as [Hb|Hb]; [lia|done].
Qed.

Lemma compose_response_inv r info s h :
  ci_wf info -> started_ok mws s h ->
  (exists k, 0 <= k <= lenZ mws /\ ci_trace info = calls s h k) -> compose_inv (Response_init r) info.
Proof. intros Hwf Hs (k & Hk & Ht). split; [done|]. split; [done|]. by exists s, h, k. Qed.

Lemma compose_run_init_loop_inv fuel curr resp info s h :
  ci_wf info -> started_ok mws s h -> 0 <= curr < lenZ mws -> ci_trace info = calls s h curr ->
  lenZ mws - curr < Z.of_nat fuel ->
  run_post compose_panics c_out (compose_run_init_loop fuel curr resp info).
Proof.
  revert curr resp info. induction fuel as [|fuel IH]; intros curr resp info Hwf Hs Hc Ht Hf; [lia|].
  pose proof Hwf as (Hm & Hh & Hcnt).
  cbn [compose_run_init_loop]. apply run_post_bind, ci_mw_post; [done|lia|by left; lia|]. intros mw _.
  unfold ci_response. destruct (mw_response mw (ci_req info) resp) as [r rq].
  assert (ci_trace info ++ [Call_response curr] = calls s h (curr + 1)) as Ht'.
  { rewrite Ht. apply calls_response. lia. }
  destruct r as [[r|f]|e].
  - cbn [ci_mws set_ci_req]. rewrite Hm. destruct (Z.eqb_spec (curr + 1) (lenZ mws)) as [He|].
    + eapply compose_response_inv; [done|exact Hs|]. exists (curr + 1). split; [lia|done].
    + apply IH; try done; lia.
  - split; [done|]. exists s, h. split_and!; [done|lia|lia|done].
  - eapply compose_response_inv; [|exact Hs|exists (curr + 1); split; [lia|done]].
    split_and!; [done|done|simpl; lia..].
Qed.

Lemma compose_run_init_inv resp info s h :
  ci_wf info -> started_ok mws s h -> ci_trace info = calls s h 0 ->
  run_post compose_panics c_out (compose_run_init info resp).
Proof.
  intros Hwf Hs Ht. eapply compose_run_init_loop_inv; [done|done|lia|done|].
  destruct Hwf as (-> & _). unfold lenZ. lia.
Qed.

Lemma compose_run_inner_inv fuel curr resp info s h :
  ci_wf info -> started_ok mws s h -> 0 <= curr <= lenZ mws -> ci_trace info = calls s h curr ->
  lenZ mws - curr < Z.of_nat fuel ->
  run_post compose_panics (fun '(r, info) =>
    match r with
    | inl st => compose_inv st info
    | inr (curr', f) => curr <= curr' /\ compose_inv (CS_RunMiddlewares curr' f) info
    end) (compose_run_inner fuel curr resp info).
Proof.
  revert curr resp info. induction fuel as [|fuel IH]; intros curr resp info Hwf Hs Hc Ht Hf; [lia|].
  cbn [compose_run_inner]. pose proof Hwf as (Hm & _). rewrite Hm.
  destruct (Z.eqb_spec curr (lenZ mws)).
  { eapply compose_response_inv; [done|exact Hs|by exists curr]. }
  apply run_post_bind, ci_mw_post; [done|lia|by left; lia|]. intros mw _.
  unfold ci_response. destruct (mw_response mw (ci_req info) resp) as [r rq].
  assert (ci_trace info ++ [Call_response curr] = calls s h (curr + 1)) as Ht'.
  { rewrite Ht. apply calls_response. lia. }
  destruct r as [[r|f]|e].
  - eapply run_post_mono; [apply IH; try done; lia|].
    intros [[st|[c f]] info'] Hst; [done|]. destruct Hst. split; [lia|done].
  - split; [lia|]. split; [done|]. exists s, h. split_and!; [done|lia|lia|done].
  - eapply compose_response_inv; [done|exact Hs|exists (curr + 1); split; [lia|done]].
Qed.

Lemma compose_run_poll_inv curr f info :
  compose_inv (CS_RunMiddlewares curr f) info ->
  run_post compose_panics c_step (compose_run_poll curr f info).
Proof.
  intros Hinv. unfold compose_run_poll.
  assert (lenZ mws - curr < Z.of_nat (S (length (ci_mws info)))) as Hf.
  { destruct Hinv as [(-> & _) (s & h & _ & Hc & _)]. unfold lenZ in *. lia. }
  revert Hf. generalize (S (length (ci_mws info))) as fuel. intros fuel. revert curr f info Hinv.
  induction fuel as [|fuel IH]; intros curr f info Hinv Hf.
  { destruct Hinv as [_ (s & h & _ & Hc & _)]. lia. }
  cbn [compose_run_poll_loop]. unfold fut_poll.
  destruct Hinv as [Hwf (s & h & Hs & Hc & Ht)].
  destruct (fut_wait f) as [[|n]|]; [|split; [done|]; by exists s, h..].
  destruct (fut_result f) as [resp|e].
  - apply run_post_bind. eapply run_post_mono.
    { apply (compose_run_inner_inv _ _ _ _ s h); try done; [lia|].
      destruct Hwf as (-> & _). unfold lenZ in *. lia. }
    intros [[st|[c f']] info'] Hst; [done|]. destruct Hst as [Hle Hst]. apply IH; [done|lia].
  - eapply compose_response_inv; [done|exact Hs|exists (curr + 1); split; [lia|done]].
Qed.

Lemma started_all : started_ok mws (lenZ mws) true.
Proof. split; [lia|done]. Qed.

Lemma compose_call_handler_inv info :
  ci_wf info -> ci_trace info = calls (lenZ mws) false 0 ->
  run_post compose_panics c_out (compose_call_handler info).
Proof.
  intros Hwf Ht. unfold compose_call_handler, compose_waiting_init.
  assert (ci_trace (add_ci_call Call_handler info) = calls (lenZ mws) true 0) as Ht'.
  { simpl. rewrite Ht. apply calls_handler. }
  destruct (ci_handler info (ci_req info)); [|done].
  eapply compose_run_init_inv; [done|exact started_all|done].
Qed.

Lemma compose_waiting_poll_inv f info :
  compose_inv (CS_Handler f) info -> run_post compose_panics c_step (compose_waiting_poll f info).
Proof.
  intros [Hwf Ht]. unfold compose_waiting_poll, fut_poll. destruct (fut_wait f) as [[|n]|]; [|done..].
  destruct (fut_result f) as [resp|e].
  - apply run_post_bind. eapply run_post_mono; [by eapply compose_run_init_inv, Ht; [|exact started_all]|].
    by intros [st info'].
  - eapply compose_response_inv; [done|exact started_all|exists 0; split; [lia|done]].
Qed.

Lemma ci_incr info :
  ci_wf info -> ci_count info < lenZ mws -> ci_wf (set_ci_count (ci_count info + 1) info).
Proof. intros (Hm & Hh & Hc) Hlt. split_and!; [done|done|simpl; lia..]. Qed.

Lemma compose_start_init_loop_inv fuel info :
  ci_wf info -> ci_trace info = calls (ci_count info) false 0 ->
  lenZ mws - ci_count info < Z.of_nat fuel ->
  run_post compose_panics c_out (compose_start_init_loop fuel info).
Proof.
  revert info. induction fuel as [|fuel IH]; intros info Hwf Ht Hf; [destruct Hwf as (_ & _ & ?); lia|].
  pose proof Hwf as (Hm & Hh & Hc). cbn [compose_start_init_loop]. rewrite Hm.
  destruct (Z.eqb_spec (ci_count info) (lenZ mws)) as [He|Hne].
  { apply compose_call_handler_inv; [done|]. by rewrite <-He. }
  assert (ci_count info < lenZ mws) as Hlt by lia.
  apply run_post_bind, ci_mw_post; [done|lia|by left|]. intros mw Hmw.
  unfold ci_start. destruct (mw_start mw (ci_req info)) as [r rq] eqn:Hstart.
  set (info1 := set_ci_req rq (Call_start (ci_count info)) info).
  assert (ci_wf info1) as Hwf1 by done.
  assert (ci_trace info1 = calls (ci_count info + 1) false 0) as Ht1.
  { simpl. rewrite Ht. apply calls_start. lia. }
  assert (started_ok mws (ci_count info + 1) false) as Hs by (split; [lia|done]).
  assert (forall e, compose_inv (Response_init (error_response e)) info1) as Herr.
  { intros e. eapply compose_response_inv; [done|exact Hs|exists 0; split; [lia|done]]. }
  assert (run_post compose_panics c_out
    (compose_start_init_loop fuel (set_ci_count (ci_count info1 + 1) info1))) as Hnext.
  { apply IH; [by apply ci_incr|done|simpl; lia]. }
  destruct r as [[|resp|f]|e]; [done|by eapply compose_run_init_inv| |by apply Herr].
  assert (may_start_later mws (ci_count info)) as Hmay by (by exists mw, (ci_req info), f, rq).
  unfold fut_poll. destruct (fut_wait f) as [[|n]|]; [|done..].
  destruct (fut_result f) as [[resp|]|e]; [by eapply compose_run_init_inv|done|by apply Herr].
Qed.

Lemma compose_start_inner_inv fuel info i :
  ci_wf info -> ci_trace info = calls (ci_count info) false 0 ->
  lenZ mws - ci_count info < Z.of_nat fuel ->
  0 <= i < lenZ mws - 1 -> may_start_later mws i ->
  (ci_count info < lenZ mws \/ may_start_now mws (lenZ mws - 1)) ->
  run_post compose_panics (fun '(r, info') =>
    match r with
    | inl st => compose_inv st info'
    | inr f => ci_count info <= ci_count info' /\ compose_inv (CS_Starting f) info'
    end) (compose_start_inner fuel info).
Proof.
  revert info. induction fuel as [|fuel IH]; intros info Hwf Ht Hf Hi Hlater Hnow;
    [destruct Hwf as (_ & _ & ?); lia|].
  cbn [compose_start_inner]. pose proof Hwf as (Hm & Hh & Hc).
  apply run_post_bind, ci_mw_post; [done|lia| |].
  { destruct Hnow as [Hlt|Hnow]; [by left|]. right. by exists i. }
  intros mw Hmw. assert (ci_count info < lenZ mws) as Hlt.
  { apply lookup_lt_Some in Hmw. unfold lenZ. lia. }
  unfold ci_start. destruct (mw_start mw (ci_req info)) as [r rq] eqn:Hstart.
  set (info1 := set_ci_req rq (Call_start (ci_count info)) info).
  assert (ci_wf info1) as Hwf1 by done.
  assert (ci_trace info1 = calls (ci_count info + 1) false 0) as Ht1.
  { simpl. rewrite Ht. apply calls_start. lia. }
  assert (started_ok mws (ci_count info + 1) false) as Hs by (split; [lia|done]).
  destruct r as [[|resp|f]|e].
  - eapply run_post_mono.
    + apply IH; [by apply ci_incr|done|simpl; lia|done|done|]. simpl.
      destruct (decide (ci_count info + 1 < lenZ mws)); [by left|right].
      exists mw, (ci_req info), rq. by replace (lenZ mws - 1) with (ci_count info) by lia.
    + intros [[st|f] info'] Hst; [done|]. simpl in Hst. destruct Hst; split; [lia|done].
  - apply run_post_bind. eapply run_post_mono; [by eapply compose_run_init_inv|]. by intros [st info'].
  - split; [done|]. split; [done|]. split_and!; [done|done|]. by exists mw, (ci_req info), f, rq.
  - eapply compose_response_inv; [done|exact Hs|exists 0; split; [lia|done]].
Qed.

Lemma compose_start_poll_inv f info :
  compose_inv (CS_Starting f) info -> run_post compose_panics c_step (compose_start_poll f info).
Proof.
  intros Hinv. unfold compose_start_poll.
  assert (lenZ mws - ci_count info < Z.of_nat (S (length (ci_mws info)))) as Hf.
  { destruct Hinv as [(-> & _ & ?) _]. unfold lenZ in *. lia. }
  revert Hf. generalize (S (length (ci_mws info))) as fuel. intros fuel. revert f info Hinv.
  induction fuel as [|fuel IH]; intros f info Hinv Hf; [destruct Hinv as [_ (_ & ? & _)]; lia|].
  cbn [compose_start_poll_loop]. pose proof Hinv as [Hwf (Ht & Hlt & Hlater)]. unfold fut_poll.
  destruct (fut_wait f) as [[|n]|]; [|done..].
  pose proof (ci_incr info Hwf Hlt) as Hwf2. pose proof Hwf as (Hm & Hh & Hc).
  assert (started_ok mws (ci_count info + 1) false) as Hs by (split; [lia|done]).
  destruct (fut_result f) as [[resp|]|e].
  - apply run_post_bind. eapply run_post_mono; [by eapply compose_run_init_inv|]. by intros [st info'].
  - cbn [ci_count ci_mws set_ci_count]. rewrite Hm.
    destruct (Z.eqb_spec (ci_count info + 1) (lenZ mws)) as [He|Hne].
    + apply run_post_bind. eapply run_post_mono.
      { apply compose_call_handler_inv; [done|]. simpl. by rewrite Ht, He. }
      by intros [st info'].
    + apply run_post_bind. eapply run_post_mono.
      { apply (compose_start_inner_inv _ _ (ci_count info)); try done; [|lia|left; simpl; lia].
        simpl. unfold lenZ in *. lia. }
      intros [[st|f'] info'] Hst; [done|]. destruct Hst as [Hle Hst]. simpl in Hle. apply IH; [done|lia].
  - eapply compose_response_inv; [done|exact Hs|exists 0; split; [lia|done]].
Qed.

(** Every turn of [Compose::poll] that does not wait goes to a later state. *)
Definition compose_rank (st : ComposeState (H := H)) : nat :=
  match st with
  | CS_Starting _ => 3
  | CS_Handler _ => 2
  | CS_RunMiddlewares _ _ => 1
  | CS_Response _ => 0
  end.

Lemma compose_run_init_rank resp (info : Info) st info' :
  compose_run_init info resp = Ret (st, info') -> (compose_rank st <= 1)%nat.
Proof.
  unfold compose_run_init. generalize (S (length (ci_mws info))), 0. intros fuel.
  revert resp info. induction fuel as [|fuel IH]; intros resp info curr; [done|].
  cbn [compose_run_init_loop]. intros (mw & _ & Hr)%run_bind_Ret.
  destruct (ci_response mw curr resp info) as [[[r|f]|e] i1]; simplify_eq/=; [|lia..].
  destruct (_ =? _); [simplify_eq/=; lia|by eapply IH].
Qed.

Lemma compose_call_handler_rank (info : Info) st info' :
  compose_call_handler info = Ret (st, info') -> (compose_rank st <= 2)%nat.
Proof.
  unfold compose_call_handler, compose_waiting_init. destruct (ci_handler info (ci_req info)).
  - intros ?%compose_run_init_rank. lia.
  - intros ?; simplify_eq/=. lia.
Qed.

Lemma compose_run_poll_rank curr f (info : Info) st info' :
  compose_run_poll curr f info = Ret (C_Moved st, info') -> compose_rank st = 0%nat.
Proof.
  unfold compose_run_poll. generalize (S (length (ci_mws info))). intros fuel.
  revert curr f info. induction fuel as [|fuel IH]; intros curr f info; [done|].
  cbn [compose_run_poll_loop]. destruct (fut_poll f) as [[resp| |e] f']; [|by intros|by intros ?; simplify_eq].
  intros ([r i1] & Hi & Hr)%run_bind_Ret. destruct r as [st1|[c f1]]; [|by eapply IH].
  simplify_eq. clear IH. revert Hi. generalize (S (length (ci_mws info))), (curr + 1). intros n.
  revert resp info. induction n as [|n IHn]; intros resp info c; [done|]. cbn [compose_run_inner].
  destruct (c =? _); [by intros; simplify_eq|]. intros (mw & _ & Hr)%run_bind_Ret.
  destruct (ci_response mw c resp info) as [[[r|f1]|e] i2]; simplify_eq; [by eapply IHn|done].
Qed.

Lemma compose_start_poll_rank f (info : Info) st info' :
  compose_start_poll f info = Ret (C_Moved st, info') -> (compose_rank st <= 2)%nat.
Proof.
  unfold compose_start_poll. generalize (S (length (ci_mws info))). intros fuel.
  revert f info. induction fuel as [|fuel IH]; intros f info; [done|].
  cbn [compose_start_poll_loop]. destruct (fut_poll f) as [[[resp|]| |e] f'];
    [| |by intros|by intros ?; simplify_eq/=; lia].
  - intros ([st1 i1] & Hi%compose_run_init_rank & Hr)%run_bind_Ret. simplify_eq. lia.
  - destruct (_ =? _).
    + intros ([st1 i1] & Hi%compose_call_handler_rank & Hr)%run_bind_Ret. simplify_eq. lia.
    + intros ([r i1] & Hi & Hr)%run_bind_Ret. destruct r as [st1|f1]; [|by eapply IH].
      simplify_eq. clear IH. revert Hi. generalize (set_ci_count (ci_count info + 1) info).
      clear info. intros info. generalize (S (length (ci_mws info))). intros n. revert info.
      induction n as [|n IHn]; intros info; [done|]. cbn [compose_start_inner].
      intros (mw & _ & Hr)%run_bind_Ret. destruct (ci_start mw info) as [[[|resp|f1]|e] i2].
      * by eapply IHn.
      * apply run_bind_Ret in Hr as ([st2 i3] & ?%compose_run_init_rank & ?). simplify_eq. lia.
      * done.
      * simplify_eq/=. lia.
Qed.

Lemma compose_state_poll_post st info :
  compose_inv st info -> (0 < compose_rank st)%nat ->
  run_post compose_panics (fun '(o, info) =>
    match o with
    | C_Moved st' => compose_inv st' info /\ (compose_rank st' < compose_rank st)%nat
    | C_Waiting st' => compose_inv st' info
    end) (compose_state_poll st info).
Proof.
  intros Hinv Hrk.
  assert (run_post compose_panics c_step (compose_state_poll st info)) as Hp.
  { destruct st; [by apply compose_start_poll_inv|by apply compose_waiting_poll_inv|
      by apply compose_run_poll_inv|simpl in Hrk; lia]. }
  destruct (compose_state_poll st info) as [[[st'|st'] info']| |] eqn:Hs; simpl in *; try done.
  split; [done|]. destruct st; simpl in *.
  - apply compose_start_poll_rank in Hs. lia.
  - unfold compose_waiting_poll in Hs. destruct (fut_poll fut) as [[resp| |e] f'].
    + apply run_bind_Ret in Hs as ([st1 i1] & Hi%compose_run_init_rank & ?). simplify_eq. lia.
    + done.
    + simplify_eq/=. lia.
  - apply compose_run_poll_rank in Hs. lia.
  - lia.
Qed.

Definition compose_ok (c : Compose (R := R) (H := H) (St := St)) : Prop := compose_inv (co_state c) (co_info c).

Lemma Compose_poll_loop_post fuel c :
  compose_ok c -> (compose_rank (co_state c) < fuel)%nat ->
  run_post compose_panics (fun '(r, c') =>
    match r with
    | Ready _ => exists s h k, started_ok mws s h /\ 0 <= k <= lenZ mws /\
        ci_trace (co_info c') = calls s h k
    | NotReady => compose_ok c'
    | PErr _ => False
    end) (Compose_poll_loop fuel c).
Proof.
  revert c. induction fuel as [|fuel IH]; intros [info st] Hok Hrk; [simpl in *; lia|].
  unfold compose_ok in Hok. cbn [co_state co_info] in *. cbn [Compose_poll_loop co_state co_info].
  destruct (decide (0 < compose_rank st)%nat) as [Hpos|Hz].
  - assert (run_post compose_panics (fun '(r, c') =>
      match r with
      | Ready _ => exists s h k, started_ok mws s h /\ 0 <= k <= lenZ mws /\
          ci_trace (co_info c') = calls s h k
      | NotReady => compose_ok c'
      | PErr _ => False
      end)
      ('(out, info) ← compose_state_poll st info;
       match out with
       | C_Moved st => Compose_poll_loop fuel (mkCompose info st)
       | C_Waiting st => Ret (NotReady, mkCompose info st)
       end)) as Hgen.
    { apply run_post_bind. eapply run_post_mono; [by apply compose_state_poll_post|].
      intros [[st'|st'] info'] Hst; [|done]. destruct Hst as [Hst Hlt]. apply IH; [done|]. simpl. lia. }
    destruct st; [exact Hgen..|simpl in Hpos; lia].
  - destruct st; simpl in Hz; try lia. destruct Hok as [_ [[r ->] Htr]]. simpl. exact Htr.
Qed.

(** Compositions reachable by creating and polling, as long as they are not ready. *)
Inductive compose_reachable : Compose (R := R) (H := H) (St := St) -> Prop :=
| compose_created rq c : Compose_new rq mws handler = Ret c -> compose_reachable c
| compose_polled c c' : compose_reachable c -> Compose_poll c = Ret (NotReady, c') -> compose_reachable c'.

Lemma Compose_new_post rq : run_post compose_panics compose_ok (Compose_new rq mws handler).
Proof.
  unfold Compose_new. apply run_post_bind. eapply run_post_mono.
  - apply compose_start_init_loop_inv; [by split_and!; [| |simpl; lia..]|done|]. simpl. unfold lenZ. lia.
  - by intros [st info].
Qed.

Lemma Compose_poll_post c :
  compose_ok c ->
  run_post compose_panics (fun '(r, c') =>
    match r with
    | Ready _ => exists s h k, started_ok mws s h /\ 0 <= k <= lenZ mws /\
        ci_trace (co_info c') = calls s h k
    | NotReady => compose_ok c'
    | PErr _ => False
    end) (Compose_poll c).
Proof. intros Hok. apply Compose_poll_loop_post; [done|]. destruct (co_state c); simpl; lia. Qed.

Lemma compose_reachable_ok c : compose_reachable c -> compose_ok c.
Proof.
  induction 1 as [rq c Hn|c c' _ IH Hp].
  - pose proof (Compose_new_post rq) as Hpost. by rewrite Hn in Hpost.
  - pose proof (Compose_poll_post c IH) as Hpost. by rewrite Hp in Hpost.
Qed.

(** Middlewares of a resource run in order: a composition of middlewares with a
    route handler is created and polled without an endless loop or a failure, and panics
    only if a middleware starts with a future before a last one that starts at once;
    when its response is ready it has called [start] of 0, 1, ..., the handler at most
    once and only behind every [start], and [response] of 0, 1, ..., nothing twice. *)
Theorem compose_calls_ordered (c : Compose (R := R) (H := H) (St := St)) (rq : Rq) :
  compose_reachable c ->
  run_post compose_panics compose_reachable (Compose_new rq mws handler) /\
  run_post compose_panics (fun '(r, c') =>
    match r with
    | Ready _ => exists s (h : bool) k, 0 <= s <= lenZ mws /\ (h = true -> s = lenZ mws) /\
        0 <= k <= lenZ mws /\ ci_trace (co_info c') = calls s h k
    | NotReady => compose_reachable c'
    | PErr _ => False
    end) (Compose_poll c).
Proof.
  intros Hc. split.
  - pose proof (Compose_new_post rq) as Hpost.
    destruct (Compose_new rq mws handler) as [c'| |] eqn:Hn; simpl in *; try done. by eapply compose_created.
  - pose proof (Compose_poll_post c (compose_reachable_ok c Hc)) as Hpost.
    destruct (Compose_poll c) as [[[r| |e] c']| |] eqn:Hp; simpl in *; try done.
    + destruct Hpost as (s & h & k & [Hs Hh] & Hk & Ht). by exists s, h, k.
    + by eapply compose_polled.
Qed.
End ComposeInvariants.

(** ** The route of a resource *)
Section Routing.
Context {R : Type} `{Hre : RegexCrate R} {H : Type} `{Hhm : HeaderMap H} {St : Type}.
Notation Rq := (HttpRequest R H St).
Notation Pred := (Predicate (R := R) (H := H) (St := St)).

(** A predicate that only looks at the request. *)
Definition pure_pred (p : Pred) : Prop := forall rq, (p rq).2 = rq.

Lemma pred_Method_pure m : pure_pred (pred_Method m).
Proof. done. Qed.
Lemma pred_Header_pure n v : pure_pred (pred_Header n v).
Proof. done. Qed.
Lemma pred_Not_pure p : pure_pred p -> pure_pred (pred_Not p).
Proof. intros Hp rq. unfold pred_Not. specialize (Hp rq). by destruct (p rq). Qed.
Lemma any_check_spec (ps : list Pred) rq :
  Forall pure_pred ps -> any_check ps rq = (existsb (fun p => (p rq).1) ps, rq).
Proof.
  induction 1 as [|p ps Hp _ IH]; simpl; [done|]. specialize (Hp rq). destruct (p rq) as [[] rq'];
    simpl in *; subst; [done|apply IH].
Qed.
Lemma all_check_spec (ps : list Pred) rq :
  Forall pure_pred ps -> all_check ps rq = (forallb (fun p => (p rq).1) ps, rq).
Proof.
  induction 1 as [|p ps Hp _ IH]; simpl; [done|]. specialize (Hp rq). destruct (p rq) as [[] rq'];
    simpl in *; subst; [apply IH|done].
Qed.
Lemma any_check_pure ps : Forall pure_pred ps -> pure_pred (any_check ps).
Proof. intros Hps rq. by rewrite any_check_spec. Qed.
Lemma all_check_pure ps : Forall pure_pred ps -> pure_pred (all_check ps).
Proof. intros Hps rq. by rewrite all_check_spec. Qed.
Lemma preds_check_all (ps : list Pred) rq : preds_check ps rq = all_check ps rq.
Proof. revert rq. induction ps as [|p ps IH]; intros rq; simpl; [done|].
  destruct (p rq) as [[] ?]; simpl; [apply IH|done].
Qed.

Definition route_pure (r : Route (R := R) (H := H) (St := St)) : Prop := Forall pure_pred (route_preds r).
Definition route_accepts (rq : Rq) (r : Route (R := R) (H := H) (St := St)) : Prop :=
  Forall (fun p : Pred => (p rq).1 = true) (route_preds r).

#[export] Instance route_accepts_dec rq r : Decision (route_accepts rq r).
Proof. unfold route_accepts. apply _. Defined.

Lemma route_check_spec r rq : route_pure r -> route_check r rq = (bool_decide (route_accepts rq r), rq).
Proof.
  intros Hp. unfold route_check. rewrite preds_check_all, all_check_spec by done. f_equal.
  apply Bool.eq_iff_eq_true. rewrite bool_decide_eq_true. unfold route_accepts. clear Hp.
  induction (route_preds r) as [|p ps IH]; simpl; [by split|].
  rewrite andb_true_iff, Forall_cons, IH. done.
Qed.

Lemma routes_handle_spec routes mws rq :
  Forall route_pure routes ->
  routes_handle routes mws rq =
  match list_find (route_accepts rq) routes with
  | Some (_, r) =>
      match mws with
      | [] => Ret (inl (RR_Reply (route_handler r rq)))
      | _ => c ← Compose_new rq mws (route_handler r); Ret (inl (RR_Compose c))
      end
  | None => Ret (inr rq)
  end.
Proof.
  induction 1 as [|r routes Hr _ IH]; [done|]. cbn [routes_handle list_find].
  rewrite route_check_spec by done. case_bool_decide as Ha.
  - by rewrite decide_True by done.
  - rewrite decide_False by done. rewrite IH. by destruct (list_find _ routes) as [[]|].
Qed.

(** A resource answers with its first route whose predicates all accept the
    request: alone, or composed with the middlewares of the resource; when it has no such
    route the default resource is asked in the same way, and an empty 404 is the answer
    when that has none either or when there is no default resource. *)
Theorem resource_routing (r : ResourceHandler (R := R) (H := H) (St := St)) (rq : Rq)
    (dflt : option ResourceHandler) :
  Forall route_pure (rh_routes r) ->
  (forall d, dflt = Some d -> Forall route_pure (rh_routes d)) ->
  let answer (x : ResourceHandler (R := R) (H := H) (St := St)) (route : Route) :=
    match rh_middlewares x with
    | [] => Ret (RR_Reply (route_handler route rq))
    | mws => c ← Compose_new rq mws (route_handler route); Ret (RR_Compose c)
    end in
  let not_found := Ret (RR_Reply (Reply_Message (InnerHttpResponse_new 404 Body_Empty))) in
  rh_handle r rq dflt =
  match list_find (route_accepts rq) (rh_routes r) with
  | Some (_, route) => answer r route
  | None =>
      match dflt with
      | Some d =>
          match list_find (route_accepts rq) (rh_routes d) with
          | Some (_, route) => answer d route
          | None => not_found
          end
      | None => not_found
      end
  end.
Proof.
  intros Hr Hd. cbv zeta. unfold rh_handle. rewrite routes_handle_spec by done.
  destruct (list_find _ (rh_routes r)) as [[i route]|].
  { destruct (rh_middlewares r); [done|]. cbn [mbind run_bind]. by destruct (Compose_new _ _ _). }
  cbn [mbind run_bind]. destruct dflt as [d|]; [|done]. unfold rh_handle_alone.
  rewrite routes_handle_spec by auto. destruct (list_find _ (rh_routes d)) as [[i route]|]; [|done].
  destruct (rh_middlewares d); [done|]. cbn [mbind run_bind]. by destruct (Compose_new _ _ _).
Qed.
End Routing.

(** ** Witnesses *)
Section Demo.
Notation R := (list part).
Notation hs := (list (bytes * bytes)).
Notation Rq := (HttpRequest R hs unit).

Definition get_request : Rq :=
  mkReq {| msg_version := HTTP_11; msg_method := GET; msg_uri := b#"/"; msg_headers := [];
    msg_extensions := []; msg_params := []; msg_cookies := None; msg_query := [];
    msg_query_loaded := false; msg_addr := None; msg_payload := None; msg_info := None;
    msg_resource := Notset |} None None.
Definition ok_response : InnerHttpResponse hs := InnerHttpResponse_new 200 Body_Empty.
Definition get_resource_handler : ResourceHandler (R := R) (H := hs) (St := unit) :=
  rh_method GET (route_h (fun _ => ok_response)) (rh_method POST id ResourceHandler_default).

Lemma resource_routing_witness :
  rh_handle get_resource_handler get_request None = Ret (RR_Reply (Reply_Message ok_response)).
Proof.
  rewrite (resource_routing get_resource_handler get_request None).
  - reflexivity.
  - repeat constructor.
  - intros d Hd. discriminate Hd.
Defined.

(** One middleware whose start future waits once. *)
Definition slow_start : Middleware (H := hs) (Rq := Rq) :=
  mkMw (fun rq => (Ok (Started_Future (mkFut (Some 1%nat) (Ok None))), rq))
       (fun rq r => (Ok (Resp_Done r), rq)) (fun rq _ => (Finished_Done, rq)).
Lemma slow_start_alone : ~ compose_panics [slow_start].
Proof. intros (i & Hi & _). unfold lenZ in Hi. simpl in Hi. lia. Qed.

Lemma compose_calls_ordered_witness :
  exists c, Compose_new get_request [slow_start] (fun _ => Reply_Message ok_response) = Ret c /\
    run_post False (fun '(r, c') =>
      match r with Ready _ => exists s h k, ci_trace (co_info c') = calls s h k | NotReady => True | PErr _ => False end)
      (Compose_poll c).
Proof.
  assert (exists c, Compose_new get_request [slow_start] (fun _ => Reply_Message ok_response) = Ret c)
    as [c Hc] by (eexists; reflexivity).
  exists c. split; [exact Hc|].
  destruct (compose_calls_ordered [slow_start] (fun _ => Reply_Message ok_response) eq_refl c get_request
    (compose_created _ _ get_request c Hc)) as [_ Hp].
  unfold run_post in *. destruct (Compose_poll c) as [[[r| |e] c']| |];
    [|done|done|by destruct slow_start_alone|done].
  destruct Hp as (s & h & k & _ & _ & _ & Ht). by exists s, h, k.
Defined.
End Demo.
