(* ===== verification/Middlewares.v ===== *)
(** * Bundled middlewares (src/src/middleware/cors.rs, csrf.rs, defaultheaders.rs,
      errhandlers.rs)

    Cross-origin resource sharing with its builder, the filter against cross-site
    request forgery, default response headers and error handlers.  A method that can
    panic answers in [run]. *)
From S2P Require Import Prelude StrLib Errors Http Response Router Pipeline Route.
Open Scope Z_scope.

Definition ORIGIN : bytes := b#"origin".
Definition REFERER : bytes := b#"referer".
Definition VARY : bytes := b#"vary".
Definition ACCESS_CONTROL_REQUEST_METHOD : bytes := b#"access-control-request-method".
Definition ACCESS_CONTROL_REQUEST_HEADERS : bytes := b#"access-control-request-headers".
Definition ACCESS_CONTROL_MAX_AGE : bytes := b#"access-control-max-age".
Definition ACCESS_CONTROL_ALLOW_HEADERS : bytes := b#"access-control-allow-headers".
Definition ACCESS_CONTROL_ALLOW_ORIGIN : bytes := b#"access-control-allow-origin".
Definition ACCESS_CONTROL_ALLOW_CREDENTIALS : bytes := b#"access-control-allow-credentials".
Definition ACCESS_CONTROL_ALLOW_METHODS : bytes := b#"access-control-allow-methods".
Definition ACCESS_CONTROL_EXPOSE_HEADERS : bytes := b#"access-control-expose-headers".

(** ** External code *)

(** The order in which a [HashSet] is iterated is unspecified. *)
Class HashOrder := {
  hash_iter : gset bytes -> list bytes;
  hash_iter_elements s : hash_iter s ≡ₚ elements s;
}.

(** Visible bytes other than the comma, as methods and header names consist of. *)
Definition token_char (b : Z) : bool := (33 <=? b) && (b <? 127) && negb (b =? 44).

(** The [http] crate: methods and header names are tokens; a [Uri] by its scheme, host
    and port, [None] for a string that is no [Uri]. *)
Class HttpNames `{HeaderConv} := {
  method_try_from : bytes -> option bytes;
  method_is_safe : bytes -> bool;
  uri_parts : bytes -> option (option bytes * option bytes * option Z);
  method_token m m' : method_try_from m = Some m' -> m' <> [] /\ forallb token_char m' = true;
  header_token n n' : hn_try_from n = Some n' -> n' <> [] /\ forallb token_char n' = true;
}.

(** [AllOrSome<T>]. *)
Inductive AllOrSome (T : Type) : Type := AS_All | AS_Some (t : T).
Arguments AS_All {T}. Arguments AS_Some {T}.
Definition is_all {T} (a : AllOrSome T) : bool := match a with AS_All => true | AS_Some _ => false end.
Definition as_is_some {T} (a : AllOrSome T) : bool := negb (is_all a).
Definition as_as_ref {T} (a : AllOrSome T) : option T :=
  match a with AS_All => None | AS_Some t => Some t end.

Inductive CorsError : Type :=
| MissingOrigin | BadOrigin | MissingRequestMethod | BadRequestMethod | BadRequestHeaders
| MissingRequestHeaders | OriginNotAllowed | MethodNotAllowed | HeadersNotAllowed.
#[export] Instance ResponseError_cors : ResponseError CorsError := fun _ => 400.

(** [s + "," + v] over an iterator, and [&s[1..]]. *)
Definition comma_fold (l : list bytes) : bytes := foldl (fun s v => s ++ [44] ++ v) [] l.
Definition slice_from_1 (s : bytes) : run bytes :=
  if 1 <=? lenZ s then Ret (dropZ 1 s) else Panic.

Section Cors.
Context {R : Type} {H : Type} `{HeaderMap H} `{Hn : HttpNames} `{HashOrder} {St : Type}.
Context {J C : Type} `{CookieJar J C}.
Notation Rq := (HttpRequest R H St).
Notation Resp := (InnerHttpResponse H).
Notation Started := (Started (H := H)).
Notation Builder := (HttpResponseBuilder H J).

Record CorsInner : Type := mkCors {
  c_methods : gset bytes;
  c_origins : AllOrSome (gset bytes);
  c_origins_str : option bytes;
  c_headers : AllOrSome (gset bytes);
  c_expose_hdrs : option bytes;
  c_max_age : option Z;
  c_preflight : bool;
  c_send_wildcard : bool;
  c_supports_credentials : bool;
  c_vary_header : bool;
}.

Definition default_methods : list bytes := [GET; HEAD; POST; OPTIONS; PUT; PATCH; DELETE].

Definition Cors_default : CorsInner :=
  mkCors (list_to_set default_methods) AS_All None AS_All None None true false false true.

(** ** Validation of requests *)

Definition rq_headers (rq : Rq) : H := msg_headers (rq_msg rq).

Definition validate_origin (c : CorsInner) (rq : Rq) : result unit CorsError :=
  match hm_get ORIGIN (rq_headers rq) with
  | Some hdr =>
      match hv_to_str hdr with
      | Some origin =>
          match c_origins c with
          | AS_All => Ok tt
          | AS_Some allowed_origins =>
              if decide (origin ∈ allowed_origins) then Ok tt else Err OriginNotAllowed
          end
      | None => Err BadOrigin
      end
  | None => match c_origins c with AS_All => Ok tt | AS_Some _ => Err MissingOrigin end
  end.

Definition validate_allowed_method (c : CorsInner) (rq : Rq) : result unit CorsError :=
  match hm_get ACCESS_CONTROL_REQUEST_METHOD (rq_headers rq) with
  | Some hdr =>
      match hv_to_str hdr with
      | Some meth =>
          match method_try_from meth with
          | Some method =>
              if decide (method ∈ c_methods c) then Ok tt else Err MethodNotAllowed
          | None => Err BadRequestMethod
          end
      | None => Err BadRequestMethod
      end
  | None => Err MissingRequestMethod
  end.

(** [for hdr in headers.split(',')]. *)
Fixpoint collect_names (hdrs : list bytes) (acc : gset bytes) : option (gset bytes) :=
  match hdrs with
  | [] => Some acc
  | hdr :: hdrs =>
      match hn_try_from (trim hdr) with
      | Some hdr => collect_names hdrs (acc ∪ {[hdr]})
      | None => None
      end
  end.

Definition validate_allowed_headers (c : CorsInner) (rq : Rq) : result unit CorsError :=
  match c_headers c with
  | AS_All => Ok tt
  | AS_Some allowed_headers =>
      match hm_get ACCESS_CONTROL_REQUEST_HEADERS (rq_headers rq) with
      | Some hdr =>
          match hv_to_str hdr with
          | Some headers =>
              match collect_names (split_on 44 headers) ∅ with
              | Some hdrs =>
                  if bool_decide (hdrs <> ∅) && negb (bool_decide (hdrs ⊆ allowed_headers))
                  then Err HeadersNotAllowed else Ok tt
              | None => Err BadRequestHeaders
              end
          | None => Err BadRequestHeaders
          end
      | None => Err MissingRequestHeaders
      end
  end.

(** [?] in sequence. *)
Definition result_bind {A B E} (r : result A E) (f : A -> result B E) : result B E :=
  match r with Ok a => f a | Err e => Err e end.
Definition validate_preflight (c : CorsInner) (rq : Rq) : result unit CorsError :=
  result_bind (validate_origin c rq) (fun _ =>
  result_bind (validate_allowed_method c rq) (fun _ => validate_allowed_headers c rq)).

(** ** The middleware *)

(** [HttpResponseBuilder::header] with a [HeaderName], whose conversion cannot fail,
    and a [&str] or a [HeaderValue]. *)
Definition rb_header_str (name value : bytes) (b : Builder) : Builder :=
  match parts b with
  | Some _ =>
      match hv_try_from value with
      | Some value => with_parts (fun r => set_r_headers (hm_append name value (r_headers r)) r) b
      | None => set_rb_err HE_HeaderValue b
      end
  | None => b
  end.
Definition rb_header_value (name value : bytes) : Builder -> Builder :=
  with_parts (fun r => set_r_headers (hm_append name value (r_headers r)) r).

(** The value of [Access-Control-Allow-Headers]. *)
Definition allow_headers (c : CorsInner) (rq : Rq) : run (option bytes) :=
  match as_as_ref (c_headers c) with
  | Some headers =>
      s ← slice_from_1 (comma_fold (hash_iter headers));
      v ← unwrap (hv_try_from s);
      Ret (Some v)
  | None => Ret (hm_get ACCESS_CONTROL_REQUEST_HEADERS (rq_headers rq))
  end.

(** The two closures that set [Access-Control-Allow-Origin]. *)
Definition allow_origin (c : CorsInner) (rq : Rq) (b : Builder) : run Builder :=
  if is_all (c_origins c) then
    if c_send_wildcard c then Ret (rb_header_str ACCESS_CONTROL_ALLOW_ORIGIN (b#"*") b)
    else
      origin ← unwrap (hm_get ORIGIN (rq_headers rq));
      Ret (rb_header_value ACCESS_CONTROL_ALLOW_ORIGIN origin b)
  else
    s ← unwrap (c_origins_str c);
    Ret (rb_header_value ACCESS_CONTROL_ALLOW_ORIGIN s b).

Definition preflight_response (c : CorsInner) (rq : Rq) : run Resp :=
  headers ← allow_headers c rq;
  let b : Builder := fst (get_builder [] 200) in
  let b := rb_if_some (c_max_age c)
             (fun max_age => rb_header_str ACCESS_CONTROL_MAX_AGE (format_decimal max_age)) b in
  let b := rb_if_some headers (rb_header_value ACCESS_CONTROL_ALLOW_HEADERS) b in
  b ← allow_origin c rq b;
  let b := rb_if_true (c_supports_credentials c)
             (rb_header_str ACCESS_CONTROL_ALLOW_CREDENTIALS (b#"true")) b in
  methods ← slice_from_1 (comma_fold (hash_iter (c_methods c)));
  let b := rb_header_str ACCESS_CONTROL_ALLOW_METHODS methods b in
  '(r, _, _) ← rb_finish b [];
  Ret r.

Definition is_preflight (c : CorsInner) (rq : Rq) : bool :=
  c_preflight c && bool_decide (msg_method (rq_msg rq) = OPTIONS).

Definition cors_start (c : CorsInner) (rq : Rq) : run (result Started Error) :=
  if is_preflight c rq then
    match validate_preflight c rq with
    | Ok _ => r ← preflight_response c rq; Ret (Ok (Started_Response r))
    | Err e => Ret (Err (Error_from e))
    end
  else
    match validate_origin c rq with
    | Ok _ => Ret (Ok Started_Done)
    | Err e => Ret (Err (Error_from e))
    end.

Definition set_header (name value : bytes) (r : Resp) : Resp :=
  set_r_headers (hm_insert name value (r_headers r)) r.

Definition cors_response (c : CorsInner) (rq : Rq) (resp : Resp) : run Resp :=
  resp ← match c_origins c with
         | AS_All =>
             if c_send_wildcard c then Ret (set_header ACCESS_CONTROL_ALLOW_ORIGIN (b#"*") resp)
             else match hm_get ORIGIN (rq_headers rq) with
                  | Some origin => Ret (set_header ACCESS_CONTROL_ALLOW_ORIGIN origin resp)
                  | None => Ret resp
                  end
         | AS_Some _ =>
             s ← unwrap (c_origins_str c);
             Ret (set_header ACCESS_CONTROL_ALLOW_ORIGIN s resp)
         end;
  resp ← match c_expose_hdrs c with
         | Some expose =>
             v ← unwrap (hv_try_from expose);
             Ret (set_header ACCESS_CONTROL_EXPOSE_HEADERS v resp)
         | None => Ret resp
         end;
  let resp := if c_supports_credentials c
              then set_header ACCESS_CONTROL_ALLOW_CREDENTIALS (b#"true") resp else resp in
  if c_vary_header c then
    value ← match hm_get VARY (r_headers resp) with
            | Some hdr => unwrap (hv_try_from (hdr ++ b#", Origin"))
            | None => Ret (b#"Origin")
            end;
    Ret (set_header VARY value resp)
  else Ret resp.

(** ** The builder *)

(** [http::Error], by the conversion that failed. *)
Inductive BuildError : Type := BE_Uri | BE_Method | BE_Header.

Record CorsBuilder : Type := mkCorsBuilder {
  cb_cors : option CorsInner;
  cb_methods : bool;
  cb_error : option BuildError;
  cb_expose_hdrs : gset bytes;
}.

Definition Cors_build : CorsBuilder :=
  mkCorsBuilder (Some (mkCors ∅ AS_All None AS_All None None true false false true))
    false None ∅.

(** [if let Some(cors) = cors(&mut self.cors, &self.error)]. *)
Definition with_cors (f : CorsInner -> CorsInner) (b : CorsBuilder) : CorsBuilder :=
  match cb_error b with
  | Some _ => b
  | None => mkCorsBuilder (f <$> cb_cors b) (cb_methods b) (cb_error b) (cb_expose_hdrs b)
  end.
Definition cb_fail (e : BuildError) (b : CorsBuilder) : CorsBuilder :=
  mkCorsBuilder (cb_cors b) (cb_methods b) (Some e) (cb_expose_hdrs b).
Definition cb_active (b : CorsBuilder) : bool :=
  match cb_error b, cb_cors b with None, Some _ => true | _, _ => false end.

Definition as_insert (x : bytes) (a : AllOrSome (gset bytes)) : AllOrSome (gset bytes) :=
  match a with AS_All => AS_Some {[x]} | AS_Some s => AS_Some (s ∪ {[x]}) end.

Definition allowed_origin (origin : bytes) (b : CorsBuilder) : CorsBuilder :=
  if cb_active b then
    match uri_parts origin with
    | Some _ => with_cors (fun c => mkCors (c_methods c) (as_insert origin (c_origins c))
        (c_origins_str c) (c_headers c) (c_expose_hdrs c) (c_max_age c) (c_preflight c)
        (c_send_wildcard c) (c_supports_credentials c) (c_vary_header c)) b
    | None => cb_fail BE_Uri b
    end
  else b.

Definition add_method (m : bytes) (c : CorsInner) : CorsInner :=
  mkCors (c_methods c ∪ {[m]}) (c_origins c) (c_origins_str c) (c_headers c) (c_expose_hdrs c)
    (c_max_age c) (c_preflight c) (c_send_wildcard c) (c_supports_credentials c) (c_vary_header c).
Fixpoint methods_loop (ms : list bytes) (b : CorsBuilder) : CorsBuilder :=
  match ms with
  | [] => b
  | m :: ms =>
      match method_try_from m with
      | Some m => methods_loop ms (with_cors (add_method m) b)
      | None => cb_fail BE_Method b
      end
  end.
Definition allowed_methods (ms : list bytes) (b : CorsBuilder) : CorsBuilder :=
  let b := mkCorsBuilder (cb_cors b) true (cb_error b) (cb_expose_hdrs b) in
  if cb_active b then methods_loop ms b else b.

Definition add_allowed (h : bytes) (c : CorsInner) : CorsInner :=
  mkCors (c_methods c) (c_origins c) (c_origins_str c) (as_insert h (c_headers c)) (c_expose_hdrs c)
    (c_max_age c) (c_preflight c) (c_send_wildcard c) (c_supports_credentials c) (c_vary_header c).
Definition allowed_header (h : bytes) (b : CorsBuilder) : CorsBuilder :=
  if cb_active b then
    match hn_try_from h with
    | Some h => with_cors (add_allowed h) b
    | None => cb_fail BE_Header b
    end
  else b.
Fixpoint headers_loop (hs : list bytes) (b : CorsBuilder) : CorsBuilder :=
  match hs with
  | [] => b
  | h :: hs =>
      match hn_try_from h with
      | Some h => headers_loop hs (with_cors (add_allowed h) b)
      | None => cb_fail BE_Header b
      end
  end.
Definition allowed_headers (hs : list bytes) (b : CorsBuilder) : CorsBuilder :=
  if cb_active b then headers_loop hs b else b.

Fixpoint expose_headers (hs : list bytes) (b : CorsBuilder) : CorsBuilder :=
  match hs with
  | [] => b
  | h :: hs =>
      match hn_try_from h with
      | Some h => expose_headers hs
          (mkCorsBuilder (cb_cors b) (cb_methods b) (cb_error b) (cb_expose_hdrs b ∪ {[h]}))
      | None => cb_fail BE_Header b
      end
  end.

Definition max_age (n : Z) : CorsBuilder -> CorsBuilder := with_cors (fun c =>
  mkCors (c_methods c) (c_origins c) (c_origins_str c) (c_headers c) (c_expose_hdrs c) (Some n)
    (c_preflight c) (c_send_wildcard c) (c_supports_credentials c) (c_vary_header c)).
Definition send_wildcard : CorsBuilder -> CorsBuilder := with_cors (fun c =>
  mkCors (c_methods c) (c_origins c) (c_origins_str c) (c_headers c) (c_expose_hdrs c) (c_max_age c)
    (c_preflight c) true (c_supports_credentials c) (c_vary_header c)).
Definition supports_credentials : CorsBuilder -> CorsBuilder := with_cors (fun c =>
  mkCors (c_methods c) (c_origins c) (c_origins_str c) (c_headers c) (c_expose_hdrs c) (c_max_age c)
    (c_preflight c) (c_send_wildcard c) true (c_vary_header c)).
Definition disable_vary_header : CorsBuilder -> CorsBuilder := with_cors (fun c =>
  mkCors (c_methods c) (c_origins c) (c_origins_str c) (c_headers c) (c_expose_hdrs c) (c_max_age c)
    (c_preflight c) (c_send_wildcard c) (c_supports_credentials c) false).
Definition disable_preflight : CorsBuilder -> CorsBuilder := with_cors (fun c =>
  mkCors (c_methods c) (c_origins c) (c_origins_str c) (c_headers c) (c_expose_hdrs c) (c_max_age c)
    false (c_send_wildcard c) (c_supports_credentials c) (c_vary_header c)).

Definition set_strs (origins_str expose : option bytes) (c : CorsInner) : CorsInner :=
  mkCors (c_methods c) (c_origins c) origins_str (c_headers c) expose (c_max_age c)
    (c_preflight c) (c_send_wildcard c) (c_supports_credentials c) (c_vary_header c).

(** [CorsBuilder::construct]; the second component is the builder behind it. *)
Definition construct (b : CorsBuilder) : run (CorsInner * CorsBuilder) :=
  let b := if cb_methods b then b else allowed_methods default_methods b in
  match cb_error b with
  | Some _ => Panic
  | None =>
      cors ← unwrap (cb_cors b);
      if c_supports_credentials cors && c_send_wildcard cors && is_all (c_origins cors)
      then Panic else
      origins_str ← match c_origins cors with
                    | AS_Some origins =>
                        v ← unwrap (hv_try_from (foldl app [] (hash_iter origins)));
                        Ret (Some v)
                    | AS_All => Ret (c_origins_str cors)
                    end;
      expose ← (if bool_decide (cb_expose_hdrs b = ∅) then Ret (c_expose_hdrs cors)
                else s ← slice_from_1 (foldl app [] (hash_iter (cb_expose_hdrs b))); Ret (Some s));
      Ret (set_strs origins_str expose cors,
           mkCorsBuilder None (cb_methods b) None (cb_expose_hdrs b))
  end.

End Cors.

(** ** Cross-site request forgery (csrf.rs) *)

Inductive CsrfError : Type := Csrf_MissingOrigin | Csrf_BadOrigin | CsrDenied.
#[export] Instance ResponseError_csrf : ResponseError CsrfError := fun _ => 403.

Section Csrf.
Context {R : Type} {H : Type} `{HeaderMap H} `{Hn : HttpNames} {St : Type}.
Notation Rq := (HttpRequest R H St).
Notation Started := (Started (H := H)).

Definition uri_origin (uri : option bytes * option bytes * option Z) : option bytes :=
  match uri with
  | (Some scheme, Some host, Some port) => Some (scheme ++ b#"://" ++ host ++ b#":" ++ format_decimal port)
  | (Some scheme, Some host, None) => Some (scheme ++ b#"://" ++ host)
  | _ => None
  end.

Definition origin (headers : H) : option (result bytes CsrfError) :=
  match hm_get ORIGIN headers with
  | Some origin => Some (match hv_to_str origin with Some o => Ok o | None => Err Csrf_BadOrigin end)
  | None =>
      match hm_get REFERER headers with
      | Some referer => Some (match u ← uri_parts referer; uri_origin u with
                              | Some o => Ok o
                              | None => Err Csrf_BadOrigin
                              end)
      | None => None
      end
  end.

Record CsrfFilter : Type := mkCsrf {
  cf_origins : gset bytes;
  cf_allow_xhr : bool;
  cf_allow_missing_origin : bool;
  cf_allow_upgrade : bool;
}.
Definition CsrfFilter_new : CsrfFilter := mkCsrf ∅ false false false.
Definition cf_allowed_origin (origin : bytes) (f : CsrfFilter) : CsrfFilter :=
  mkCsrf (cf_origins f ∪ {[origin]}) (cf_allow_xhr f) (cf_allow_missing_origin f) (cf_allow_upgrade f).
Definition allow_xhr (f : CsrfFilter) : CsrfFilter :=
  mkCsrf (cf_origins f) true (cf_allow_missing_origin f) (cf_allow_upgrade f).
Definition allow_missing_origin (f : CsrfFilter) : CsrfFilter :=
  mkCsrf (cf_origins f) (cf_allow_xhr f) true (cf_allow_upgrade f).
Definition allow_upgrade (f : CsrfFilter) : CsrfFilter :=
  mkCsrf (cf_origins f) (cf_allow_xhr f) (cf_allow_missing_origin f) true.

Definition X_REQUESTED_WITH : bytes := b#"x-requested-with".

Definition csrf_validate (f : CsrfFilter) (rq : Rq) : result unit CsrfError :=
  let headers := msg_headers (rq_msg rq) in
  let is_upgrade := hm_contains UPGRADE headers in
  let is_safe := method_is_safe (msg_method (rq_msg rq)) && (cf_allow_upgrade f || negb is_upgrade) in
  if is_safe || (cf_allow_xhr f && hm_contains X_REQUESTED_WITH headers) then Ok tt
  else
    match origin headers with
    | Some (Ok o) => if decide (o ∈ cf_origins f) then Ok tt else Err CsrDenied
    | Some (Err err) => Err err
    | None => if cf_allow_missing_origin f then Ok tt else Err Csrf_MissingOrigin
    end.

Definition csrf_start (f : CsrfFilter) (rq : Rq) : result Started Error :=
  match csrf_validate f rq with
  | Ok _ => Ok Started_Done
  | Err e => Err (Error_from e)
  end.

(** As a middleware of the pipeline. *)
Definition Csrf_middleware (f : CsrfFilter) : Middleware (H := H) (Rq := Rq) :=
  mkMw (fun rq => (csrf_start f rq, rq)) (mw_response Middleware_default) (mw_finish Middleware_default).

End Csrf.

(** ** Default headers (defaultheaders.rs) *)

Section Defaults.
Context {H : Type} `{HeaderMap H} `{HeaderConv} {Rq : Type}.
Notation Resp := (InnerHttpResponse H).

Record DefaultHeaders : Type := mkDefaults { dh_ct : bool; dh_headers : H }.
Definition DefaultHeaders_default : DefaultHeaders := mkDefaults false hm_empty.
Definition dh_header (key value : bytes) (d : DefaultHeaders) : run DefaultHeaders :=
  match hn_try_from key with
  | Some key =>
      match hv_try_from value with
      | Some value => Ret (mkDefaults (dh_ct d) (hm_append key value (dh_headers d)))
      | None => Panic
      end
  | None => Panic
  end.
Definition dh_content_type (d : DefaultHeaders) : DefaultHeaders := mkDefaults true (dh_headers d).

Definition insert_default (key value : bytes) (resp : Resp) : Resp :=
  if negb (hm_contains key (r_headers resp))
  then set_r_headers (hm_insert key value (r_headers resp)) resp else resp.

(** [for (key, value) in self.headers.iter()]. *)
Definition defaults_loop (hs : list (bytes * bytes)) (resp : Resp) : Resp :=
  foldl (fun resp '(key, value) => insert_default key value resp) resp hs.

Definition defaults_response (d : DefaultHeaders) (resp : Resp) : Resp :=
  let resp := defaults_loop (hm_iter (dh_headers d)) resp in
  if dh_ct d then insert_default CONTENT_TYPE (b#"application/octet-stream") resp else resp.

Definition Defaults_middleware (d : DefaultHeaders) : Middleware (H := H) (Rq := Rq) :=
  mkMw (mw_start Middleware_default) (fun rq resp => (Ok (Resp_Done (defaults_response d resp)), rq))
    (mw_finish Middleware_default).

(** ** Error handlers (errhandlers.rs) *)

Notation ErrorHandler := (Rq -> Resp -> result (MwResponse (H := H)) Error * Rq).
Record ErrorHandlers : Type := mkEH { eh_handlers : gmap Z ErrorHandler }.
Definition ErrorHandlers_default : ErrorHandlers := mkEH ∅.
Definition eh_handler (status : Z) (h : ErrorHandler) (e : ErrorHandlers) : ErrorHandlers :=
  mkEH (<[status := h]> (eh_handlers e)).
Definition eh_response (e : ErrorHandlers) (rq : Rq) (resp : Resp)
  : result (MwResponse (H := H)) Error * Rq :=
  match eh_handlers e !! r_status resp with
  | Some handler => handler rq resp
  | None => (Ok (Resp_Done resp), rq)
  end.
Definition EH_middleware (e : ErrorHandlers) : Middleware (H := H) (Rq := Rq) :=
  mkMw (mw_start Middleware_default) (eh_response e) (mw_finish Middleware_default).

End Defaults.
