(* ===== verification/MiddlewareFacts.v ===== *)
(** * Properties of the bundled middlewares

    CORS: what a configuration built with [CorsBuilder] lets through and what its
    answers carry.  CSRF: which requests reach the application. *)
From S2P Require Import Prelude StrLib Errors Http Response Router Pipeline Route Middlewares.
Open Scope Z_scope.

(** ** Lists of names *)

Lemma comma_fold_join l acc : l <> [] ->
  foldl (fun s v => s ++ [44] ++ v) acc l = acc ++ 44 :: join 44 l.
Proof.
  revert acc. induction l as [|v [|v' l] IH]; intros acc Hl; [done..|].
  change (join 44 (v :: v' :: l)) with (v ++ 44 :: join 44 (v' :: l)).
  change (foldl (fun s v => s ++ [44] ++ v) acc (v :: v' :: l)) with
    (foldl (fun s v => s ++ [44] ++ v) (acc ++ [44] ++ v) (v' :: l)).
  rewrite IH by done. by rewrite <-!app_assoc.
Qed.

Lemma comma_list l : l <> [] -> slice_from_1 (comma_fold l) = Ret (join 44 l).
Proof.
  intros Hl. unfold comma_fold, slice_from_1. rewrite comma_fold_join by done. simpl.
  rewrite lenZ_cons, (proj2 (Z.leb_le _ _)) by lenZ_lia. done.
Qed.

Lemma forallb_join (p : Z -> bool) l :
  p 44 = true -> Forall (fun w => forallb p w = true) l -> forallb p (join 44 l) = true.
Proof.
  intros Hc Hl. induction Hl as [|w l Hw Hl IH]; [done|]. destruct l as [|w' l]; [done|].
  change (join 44 (w :: w' :: l)) with (w ++ 44 :: join 44 (w' :: l)).
  rewrite forallb_app, Hw. cbn [forallb]. by rewrite Hc, IH.
Qed.

Lemma token_value w : forallb token_char w = true -> forallb value_byte w = true.
Proof.
  rewrite !forallb_forall. intros Hw b Hb. specialize (Hw b Hb).
  unfold token_char, value_byte in *. apply andb_true_iff in Hw as [[?%Z.leb_le ?%Z.ltb_lt]%andb_true_iff _].
  rewrite (proj2 (Z.leb_le _ _)), (proj2 (Z.ltb_lt _ _)) by lia. simpl.
  destruct (Z.eqb_spec b 127); [lia|done].
Qed.
Lemma token_no_comma w : forallb token_char w = true -> 44 ∉ w.
Proof.
  rewrite forallb_forall. intros Hw Hin. apply list_elem_of_In in Hin. by specialize (Hw _ Hin).
Qed.

Lemma unwrap_hv `{HeaderConv} v v' : unwrap (hv_try_from v) = Ret v' -> v' = v.
Proof.
  intros Hv. destruct (forallb value_byte v) eqn:Hb.
  - rewrite hv_try_from_ok in Hv by done. by simplify_eq/=.
  - rewrite hv_try_from_bad in Hv by done. done.
Qed.

Section Facts.
Context {R : Type} {H : Type} `{Hm : HeaderMap H} `{Hn : HttpNames} `{Ho : HashOrder} {St : Type}.
Context {J C : Type} `{Hj : CookieJar J C}.
Notation Rq := (HttpRequest R H St).
Notation Resp := (InnerHttpResponse H).
Notation Builder := (HttpResponseBuilder H J).
Notation bld := (builder_of (J := J)).

Definition token_set (s : gset bytes) : Prop := set_Forall (fun w => forallb token_char w = true) s.

Lemma hash_iter_in s x : x ∈ hash_iter s <-> x ∈ s.
Proof. rewrite (hash_iter_elements s). apply elem_of_elements. Qed.
Lemma hash_iter_nonempty s : s <> ∅ -> hash_iter s <> [].
Proof.
  intros Hs Hnil. apply Hs. apply set_eq. intros x. rewrite <-hash_iter_in, Hnil. set_solver.
Qed.
Lemma hash_iter_tokens s : token_set s -> Forall (fun w => forallb token_char w = true) (hash_iter s).
Proof. intros Hs. apply Forall_forall. intros x Hx. by apply Hs, hash_iter_in. Qed.

(** The comma-separated list of a set of names, and back. *)
Definition lists (s : gset bytes) (v : bytes) : Prop := list_to_set (split_on 44 v) = s.

Lemma token_list s :
  token_set s -> s <> ∅ ->
  exists v, slice_from_1 (comma_fold (hash_iter s)) = Ret v /\ hv_try_from v = Some v /\ lists s v.
Proof.
  intros Ht Hne. exists (join 44 (hash_iter s)). pose proof (hash_iter_tokens s Ht) as Hf.
  split_and!.
  - by apply comma_list, hash_iter_nonempty.
  - apply hv_try_from_ok, forallb_join; [done|]. eapply Forall_impl; [exact Hf|].
    intros w. apply token_value.
  - unfold lists. rewrite split_on_join.
    + apply set_eq. intros x. by rewrite elem_of_list_to_set, hash_iter_in.
    + by apply hash_iter_nonempty.
    + eapply Forall_impl; [exact Hf|]. intros w. apply token_no_comma.
Qed.

(** ** Configurations that the builder makes *)

Inductive built : CorsBuilder -> Prop :=
| built_new : built Cors_build
| built_origin o b : built b -> built (allowed_origin o b)
| built_methods ms b : built b -> built (allowed_methods ms b)
| built_header h b : built b -> built (allowed_header h b)
| built_headers hs b : built b -> built (allowed_headers hs b)
| built_expose hs b : built b -> built (expose_headers hs b)
| built_age n b : 0 <= n -> built b -> built (max_age n b)
| built_wildcard b : built b -> built (send_wildcard b)
| built_credentials b : built b -> built (supports_credentials b)
| built_vary b : built b -> built (disable_vary_header b)
| built_preflight b : built b -> built (disable_preflight b).

Record cors_ok (c : CorsInner) : Prop := {
  ok_methods : token_set (c_methods c);
  ok_headers s : c_headers c = AS_Some s -> token_set s /\ s <> ∅;
  ok_origins s : c_origins c = AS_Some s -> s <> ∅;
  ok_age n : c_max_age c = Some n -> 0 <= n;
  ok_expose v : c_expose_hdrs c = Some v -> forallb value_byte v = true;
}.

Definition builder_ok (b : CorsBuilder) : Prop :=
  token_set (cb_expose_hdrs b) /\ forall c, cb_cors b = Some c -> cors_ok c.

Lemma with_cors_ok f b :
  (forall c, cors_ok c -> cors_ok (f c)) -> builder_ok b -> builder_ok (with_cors f b).
Proof.
  intros Hf Hb. unfold with_cors. destruct (cb_error b); [done|]. destruct Hb as [He Hb].
  split; [done|]. intros c. simpl. intros (c' & Hc & ->)%fmap_Some. eauto.
Qed.

Lemma as_insert_ok x a s :
  as_insert x a = AS_Some s ->
  s <> ∅ /\ forall y, y ∈ s -> y = x \/ exists s', a = AS_Some s' /\ y ∈ s'.
Proof.
  destruct a as [|s']; simpl; intros; simplify_eq; (split; [set_solver|]); [set_solver|].
  intros y [Hy|Hy]%elem_of_union; [eauto|]. left. by apply elem_of_singleton in Hy.
Qed.

Lemma add_allowed_ok h c : forallb token_char h = true -> cors_ok c -> cors_ok (add_allowed h c).
Proof.
  intros Hh [H1 H2 H3 H4 H5]. split; simpl; try done. intros s Hs.
  apply as_insert_ok in Hs as [Hne Hs]. split; [|done]. intros y Hy.
  destruct (Hs y Hy) as [->|(s' & Ha & Hy')]; [done|]. by apply (H2 s' Ha).
Qed.

Lemma add_method_ok m c : forallb token_char m = true -> cors_ok c -> cors_ok (add_method m c).
Proof.
  intros Hh [H1 H2 H3 H4 H5]. split; simpl; try done. intros y [Hy|Hy]%elem_of_union; [by apply H1|].
  by apply elem_of_singleton in Hy as ->.
Qed.

Lemma methods_loop_ok ms b : builder_ok b -> builder_ok (methods_loop ms b).
Proof.
  revert b. induction ms as [|m ms IH]; intros b Hb; simpl; [done|].
  destruct (method_try_from m) as [m'|] eqn:Hmm; [|done].
  apply IH, with_cors_ok; [|done]. intros c. apply add_method_ok. by eapply method_token.
Qed.

Lemma allowed_methods_ok ms b : builder_ok b -> builder_ok (allowed_methods ms b).
Proof.
  intros Hb. unfold allowed_methods. destruct (cb_active _); [|done]. by apply methods_loop_ok.
Qed.

Lemma built_ok b : built b -> builder_ok b.
Proof.
  induction 1 as [|o b Hb IH|ms b Hb IH|h b Hb IH|hs b Hb IH|hs b Hb IH|n b Hpos Hb IH|b Hb IH
    |b Hb IH|b Hb IH|b Hb IH].
  - split; [done|]. intros c Hc. simpl in Hc. simplify_eq. split; simpl; try done.
  - unfold allowed_origin. destruct (cb_active b); [|done]. destruct (uri_parts o); [|done].
    apply with_cors_ok; [|done]. intros c [H1 H2 H3 H4 H5]. split; simpl; try done.
    intros s Hs. by apply as_insert_ok in Hs as [? _].
  - by apply allowed_methods_ok.
  - unfold allowed_header. destruct (cb_active b); [|done].
    destruct (hn_try_from h) as [h'|] eqn:Hh; [|done].
    apply with_cors_ok; [|done]. intros c. apply add_allowed_ok. by eapply header_token.
  - unfold allowed_headers. destruct (cb_active b); [|done]. clear Hb. revert b IH.
    induction hs as [|h hs IHh]; intros b Hb; simpl; [done|].
    destruct (hn_try_from h) as [h'|] eqn:Hh; [|done]. apply IHh, with_cors_ok; [|done].
    intros c. apply add_allowed_ok. by eapply header_token.
  - clear Hb. revert b IH. induction hs as [|h hs IHh]; intros b Hb; simpl; [done|].
    destruct (hn_try_from h) as [h'|] eqn:Hh; [|done]. destruct Hb as [He Hb]. apply IHh. split; [|done].
    intros y [Hy|Hy]%elem_of_union; [by apply He|]. apply elem_of_singleton in Hy as ->. by eapply header_token.
  - apply with_cors_ok; [|done]. intros c [H1 H2 H3 H4 H5]. split; simpl; try done.
    intros; by simplify_eq.
  - apply with_cors_ok; [|done]. by intros c [H1 H2 H3 H4 H5].
  - apply with_cors_ok; [|done]. by intros c [H1 H2 H3 H4 H5].
  - apply with_cors_ok; [|done]. by intros c [H1 H2 H3 H4 H5].
  - apply with_cors_ok; [|done]. by intros c [H1 H2 H3 H4 H5].
Qed.

Lemma exposed_value s v :
  token_set s -> slice_from_1 (foldl app [] (hash_iter s)) = Ret v -> forallb value_byte v = true.
Proof.
  intros Hs. unfold slice_from_1. destruct (_ <=? _); [|done]. intros [= <-].
  assert (Forall (fun w => forallb value_byte w = true) (hash_iter s)) as Hf.
  { eapply Forall_impl; [by apply hash_iter_tokens|]. intros w. apply token_value. }
  assert (forall acc, forallb value_byte acc = true -> forallb value_byte (foldl app acc (hash_iter s)) = true) as Hw.
  { induction Hf as [|w l Hw _ IH]; intros acc Ha; [done|]. cbn. apply IH. by rewrite forallb_app, Ha. }
  specialize (Hw [] eq_refl). rewrite forallb_forall in Hw |- *. intros x Hx. apply Hw.
  destruct (foldl app [] (hash_iter s)); [done|]. by right.
Qed.

Lemma construct_ok b c b' :
  built b -> construct b = Ret (c, b') ->
  cors_ok c /\ (is_all (c_origins c) = false -> is_Some (c_origins_str c)).
Proof.
  intros Hb. unfold construct.
  assert (builder_ok (if cb_methods b then b else allowed_methods default_methods b)) as Hok.
  { destruct (cb_methods b); [|apply allowed_methods_ok]; by apply built_ok. }
  destruct (if cb_methods b then b else _) as [[cors|] ms [e|] ex]; try done.
  cbn [cb_error cb_cors cb_expose_hdrs cb_methods]. destruct Hok as [He Hok]. specialize (Hok cors eq_refl). intros Hc.
  apply run_bind_Ret in Hc as (cors' & Hc' & Hc). simpl in Hc'. simplify_eq.
  destruct (_ && _ && _); [done|].
  apply run_bind_Ret in Hc as (os & Hos & Hc). apply run_bind_Ret in Hc as (ex' & Hex & Hc).
  simplify_eq. split.
  { destruct Hok as [H1 H2 H3 H4 H5]. split; try done. cbn [set_strs c_expose_hdrs]. intros v ->.
    case_bool_decide; [simplify_eq; eauto|]. apply run_bind_Ret in Hex as (s & Hs & Hv). simplify_eq. by apply exposed_value in Hs. }
  simpl. intros Hall.
  destruct (c_origins cors') as [|s]; [done|].
  apply run_bind_Ret in Hos as (v & _ & Hv). by simplify_eq.
Qed.

(** ** Preflight requests *)

(** What the configuration allows. *)
Definition origin_allowed (c : CorsInner) (rq : Rq) : Prop :=
  match hm_get ORIGIN (rq_headers rq) with
  | Some v => exists o, hv_to_str v = Some o /\ forall s, c_origins c = AS_Some s -> o ∈ s
  | None => c_origins c = AS_All
  end.
Definition method_allowed (c : CorsInner) (rq : Rq) : Prop :=
  exists v m m', hm_get ACCESS_CONTROL_REQUEST_METHOD (rq_headers rq) = Some v /\
    hv_to_str v = Some m /\ method_try_from m = Some m' /\ m' ∈ c_methods c.
Definition headers_allowed (c : CorsInner) (rq : Rq) : Prop :=
  forall s, c_headers c = AS_Some s ->
  exists v hs, hm_get ACCESS_CONTROL_REQUEST_HEADERS (rq_headers rq) = Some v /\
    hv_to_str v = Some hs /\
    Forall (fun h => exists n, hn_try_from (trim h) = Some n /\ n ∈ s) (split_on 44 hs).
Definition preflight_allowed (c : CorsInner) (rq : Rq) : Prop :=
  origin_allowed c rq /\ method_allowed c rq /\ headers_allowed c rq.

Lemma validate_origin_spec c rq : validate_origin c rq = Ok tt <-> origin_allowed c rq.
Proof.
  unfold validate_origin, origin_allowed.
  destruct (hm_get ORIGIN _) as [v|]; [destruct (hv_to_str v) as [o|]|];
    destruct (c_origins c) as [|s]; try case_decide; naive_solver.
Qed.

Lemma validate_allowed_method_spec c rq :
  validate_allowed_method c rq = Ok tt <-> method_allowed c rq.
Proof.
  unfold validate_allowed_method, method_allowed.
  destruct (hm_get _ _) as [v|]; [|naive_solver]. destruct (hv_to_str v) as [m|] eqn:Hv; [|naive_solver].
  destruct (method_try_from m) as [m'|] eqn:Hmm; [|naive_solver]. case_decide; naive_solver.
Qed.

Lemma collect_names_spec hdrs acc :
  match collect_names hdrs acc with
  | Some s => Forall (fun h => is_Some (hn_try_from (trim h))) hdrs /\
      forall n, n ∈ s <-> n ∈ acc \/ exists h, h ∈ hdrs /\ hn_try_from (trim h) = Some n
  | None => Exists (fun h => hn_try_from (trim h) = None) hdrs
  end.
Proof.
  revert acc. induction hdrs as [|h hdrs IH]; intros acc; simpl.
  { split; [done|]. intros n. split; [by left|]. intros [?|(h & Hh & _)]; [done|set_solver]. }
  destruct (hn_try_from (trim h)) as [n|] eqn:Hh; [|by constructor].
  specialize (IH (acc ∪ {[n]})). destruct (collect_names _ _) as [s|]; [|by right].
  destruct IH as [Hf Hin]. split; [constructor; [by rewrite Hh|done]|].
  intros n'. rewrite Hin. set_unfold. naive_solver.
Qed.

Lemma validate_allowed_headers_spec c rq :
  validate_allowed_headers c rq = Ok tt <-> headers_allowed c rq.
Proof.
  unfold validate_allowed_headers, headers_allowed. destruct (c_headers c) as [|s]; [naive_solver|].
  destruct (hm_get _ _) as [v|]; [|naive_solver]. destruct (hv_to_str v) as [hs|] eqn:Hv; [|naive_solver].
  pose proof (collect_names_spec (split_on 44 hs) ∅) as Hs. destruct (collect_names _ _) as [names|].
  - destruct Hs as [Hf Hin]. assert (bool_decide (names <> ∅) && negb (bool_decide (names ⊆ s)) = false <->
      Forall (fun h => exists n, hn_try_from (trim h) = Some n /\ n ∈ s) (split_on 44 hs)) as Hiff.
    { rewrite Forall_forall in Hf. rewrite Forall_forall. split.
      - intros Hb h Hh. destruct (Hf h Hh) as [n Hname]. exists n. split; [done|].
        assert (n ∈ names) as Hnn by (apply Hin; eauto).
        apply andb_false_iff in Hb as [Hb|Hb]; case_bool_decide; try done; set_solver.
      - intros Hall. apply andb_false_iff. right. rewrite bool_decide_eq_true_2; [done|].
        intros n Hn'. apply Hin in Hn' as [?|(h & Hh & Hname)]; [set_solver|].
        destruct (Hall h Hh) as (n' & ? & ?). by simplify_eq. }
    destruct (_ && _); [|naive_solver]. split; [done|]. intros Ha.
    destruct (Ha s eq_refl) as (v' & hs' & ? & ? & Hall). simplify_eq. by apply Hiff in Hall.
  - split; [done|]. intros Ha. destruct (Ha s eq_refl) as (v' & hs' & ? & ? & Hall). simplify_eq.
    apply Exists_exists in Hs as (h & Hh & Hnone). rewrite Forall_forall in Hall.
    destruct (Hall h Hh) as (n & ? & _). congruence.
Qed.

Lemma validate_preflight_spec c rq : validate_preflight c rq = Ok tt <-> preflight_allowed c rq.
Proof.
  unfold preflight_allowed. rewrite <-validate_origin_spec, <-validate_allowed_method_spec,
    <-validate_allowed_headers_spec. unfold validate_preflight.
  destruct (validate_origin c rq) as [[]|]; simpl; [|naive_solver].
  destruct (validate_allowed_method c rq) as [[]|]; simpl; naive_solver.
Qed.

(** ** The answer to a preflight request *)

Lemma rb_header_str_ok name v r :
  forallb value_byte v = true ->
  rb_header_str name v (bld r) = bld (add_header name v r).
Proof. intros Hv. unfold rb_header_str. simpl. by rewrite hv_try_from_ok. Qed.

Lemma digits_value n : 0 <= n -> forallb value_byte (format_decimal n) = true.
Proof.
  intros Hpos. destruct (format_digits 10 n ltac:(lia) Hpos) as (ds & Hf & Hds & _).
  unfold format_decimal. rewrite Hf. clear -Hds.
  induction Hds as [|d ds Hd Hds IH]; [done|]. simpl. rewrite IH, andb_true_r.
  unfold value_byte. rewrite digit_char_decimal by lia.
  rewrite (proj2 (Z.leb_le _ _)), (proj2 (Z.ltb_lt _ _)) by lia. simpl.
  destruct (Z.eqb_spec (48 + d) 127); [lia|done].
Qed.

(** The response, by the values of its headers. *)
Definition preflight_head (age headers origin credentials methods : option bytes) : Resp :=
  add_header_if ACCESS_CONTROL_ALLOW_METHODS methods
   (add_header_if ACCESS_CONTROL_ALLOW_CREDENTIALS credentials
    (add_header_if ACCESS_CONTROL_ALLOW_ORIGIN origin
     (add_header_if ACCESS_CONTROL_ALLOW_HEADERS headers
      (add_header_if ACCESS_CONTROL_MAX_AGE age (InnerHttpResponse_new 200 Body_Empty))))).

Lemma preflight_head_get age headers origin credentials methods :
  let h := r_headers (preflight_head age headers origin credentials methods) in
  hm_get ACCESS_CONTROL_ALLOW_METHODS h = methods /\
  hm_get ACCESS_CONTROL_ALLOW_CREDENTIALS h = credentials /\
  hm_get ACCESS_CONTROL_ALLOW_ORIGIN h = origin /\
  hm_get ACCESS_CONTROL_ALLOW_HEADERS h = headers /\
  hm_get ACCESS_CONTROL_MAX_AGE h = age.
Proof.
  unfold preflight_head. cbv zeta. rewrite !get_add_header_if. cbn [InnerHttpResponse_new r_headers].
  rewrite !hm_get_empty.
  split_and!; reflexivity.
Qed.

(** The value of [Access-Control-Allow-Origin]; [None] is a panic. *)
Definition granted_origin (c : CorsInner) (rq : Rq) : option bytes :=
  if is_all (c_origins c) then
    if c_send_wildcard c then Some (b#"*") else hm_get ORIGIN (rq_headers rq)
  else c_origins_str c.
Definition granted_credentials (c : CorsInner) : option bytes :=
  if c_supports_credentials c then Some (b#"true") else None.

Lemma allow_headers_ok c (rq : Rq) :
  cors_ok c -> exists hs, allow_headers c rq = Ret hs /\
    forall s, c_headers c = AS_Some s -> exists v, hs = Some v /\ lists s v.
Proof.
  intros Hok. unfold allow_headers. destruct (c_headers c) as [|s] eqn:Hs; simpl;
    [by eexists|].
  destruct (ok_headers c Hok s Hs) as [Ht Hne].
  destruct (token_list s Ht Hne) as (v & -> & Hv & Hl). simpl. rewrite Hv. simpl.
  eexists. split; [done|]. intros s' ?. simplify_eq. eauto.
Qed.

Lemma preflight_response_ok c (rq : Rq) :
  cors_ok c -> c_methods c <> ∅ ->
  match granted_origin c rq with
  | None => preflight_response (C := C) c rq = Panic
  | Some o => exists hs ms, lists (c_methods c) ms /\
      (forall s, c_headers c = AS_Some s -> exists v, hs = Some v /\ lists s v) /\
      preflight_response (C := C) c rq = Ret (preflight_head (format_decimal <$> c_max_age c) hs (Some o)
        (granted_credentials c) (Some ms))
  end.
Proof.
  intros Hok Hne. destruct (allow_headers_ok c rq Hok) as (hs & Hhs & Hl).
  destruct (token_list _ (ok_methods c Hok) Hne) as (ms & Hms & Hvms & Hlms).
  unfold preflight_response. rewrite Hhs. cbn [mbind run_bind].
  set (r0 := InnerHttpResponse_new (H := H) 200 Body_Empty).
  change (fst (get_builder [] 200)) with (bld r0).
  set (r1 := add_header_if ACCESS_CONTROL_MAX_AGE (format_decimal <$> c_max_age c) r0).
  assert (rb_if_some (c_max_age c) (fun a => rb_header_str ACCESS_CONTROL_MAX_AGE (format_decimal a))
            (bld r0) = bld r1) as ->.
  { subst r1. destruct (c_max_age c) as [a|] eqn:Ha; [|done]. simpl.
    apply rb_header_str_ok, digits_value, (ok_age c Hok a Ha). }
  set (r2 := add_header_if ACCESS_CONTROL_ALLOW_HEADERS hs r1).
  assert (rb_if_some hs (rb_header_value ACCESS_CONTROL_ALLOW_HEADERS) (bld r1) = bld r2)
    as -> by (by destruct hs).
  assert (allow_origin c rq (bld r2) = match granted_origin c rq with
    | None => Panic
    | Some o => Ret (bld (add_header ACCESS_CONTROL_ALLOW_ORIGIN o r2)) end) as ->.
  { unfold allow_origin, granted_origin. destruct (is_all _); [destruct (c_send_wildcard c)|].
    - by rewrite rb_header_str_ok.
    - by destruct (hm_get ORIGIN _).
    - by destruct (c_origins_str c). }
  destruct (granted_origin c rq) as [o|]; [|done]. cbn [mbind run_bind].
  set (r3 := add_header ACCESS_CONTROL_ALLOW_ORIGIN o r2).
  assert (rb_if_true (c_supports_credentials c)
      (rb_header_str ACCESS_CONTROL_ALLOW_CREDENTIALS (b#"true")) (bld r3) =
    bld (add_header_if ACCESS_CONTROL_ALLOW_CREDENTIALS (granted_credentials c) r3)) as ->.
  { unfold granted_credentials. destruct (c_supports_credentials c); [|done]. simpl.
    by rewrite rb_header_str_ok. }
  rewrite Hms. cbn [mbind run_bind]. exists hs, ms. split_and!; [done..|].
  assert (rb_header_str ACCESS_CONTROL_ALLOW_METHODS ms
      (bld (add_header_if ACCESS_CONTROL_ALLOW_CREDENTIALS (granted_credentials c) r3)) =
    bld (preflight_head (format_decimal <$> c_max_age c) hs (Some o) (granted_credentials c) (Some ms)))
    as -> by (unfold rb_header_str; simpl; by rewrite Hvms).
  rewrite finish_builder; [done|]. unfold preflight_head. by rewrite !add_header_if_body.
Qed.

(** Preflight requests, for every configuration that the builder makes: a request
    is refused with status 400 unless its origin, its method and all of its headers
    are allowed.  Otherwise the answer lists exactly the configured methods, exactly
    the configured headers when there is a list of them, grants credentials exactly
    when configured, and names the origin (the wildcard, the client's, or the
    configured one).  The only panic is a request without [Origin] when every origin
    is allowed and no wildcard is sent. *)
Theorem cors_preflight (b : CorsBuilder) (c : CorsInner) (b' : CorsBuilder) (rq : Rq) :
  built b -> construct b = Ret (c, b') -> is_preflight c rq = true ->
  (~ preflight_allowed c rq -> cors_start (C := C) c rq = Ret (Err (mkError 400))) /\
  (preflight_allowed c rq ->
   match granted_origin c rq with
   | None => cors_start (C := C) c rq = Panic /\ c_origins c = AS_All /\
       c_send_wildcard c = false /\ hm_get ORIGIN (rq_headers rq) = None
   | Some o => exists r ms, cors_start (C := C) c rq = Ret (Ok (Started_Response r)) /\
       r_status r = 200 /\
       hm_get ACCESS_CONTROL_ALLOW_METHODS (r_headers r) = Some ms /\ lists (c_methods c) ms /\
       hm_get ACCESS_CONTROL_ALLOW_ORIGIN (r_headers r) = Some o /\
       hm_get ACCESS_CONTROL_ALLOW_CREDENTIALS (r_headers r) = granted_credentials c /\
       forall s, c_headers c = AS_Some s -> exists hs,
         hm_get ACCESS_CONTROL_ALLOW_HEADERS (r_headers r) = Some hs /\ lists s hs
   end).
Proof.
  intros Hb Hc Hp. destruct (construct_ok _ _ _ Hb Hc) as [Hok Hos].
  unfold cors_start. rewrite Hp. split.
  { rewrite <-validate_preflight_spec. destruct (validate_preflight c rq) as [[]|e]; [naive_solver|].
    by destruct e. }
  intros Ha. assert (c_methods c <> ∅) as Hne.
  { destruct Ha as (_ & (v & m & m' & _ & _ & _ & Hin) & _). set_solver. }
  apply validate_preflight_spec in Ha. rewrite Ha. pose proof (preflight_response_ok c rq Hok Hne) as Hr.
  destruct (granted_origin c rq) as [o|] eqn:Ho'.
  - destruct Hr as (hs & ms & Hl & Hh & ->). simpl.
    destruct (preflight_head_get (format_decimal <$> c_max_age c) hs (Some o)
      (granted_credentials c) (Some ms)) as (Hm1 & Hm2 & Hm3 & Hm4 & _).
    eexists _, ms. split; [done|]. split_and!; try done.
    + by destruct (format_decimal <$> _), hs, (granted_credentials c).
    + intros s Hs. destruct (Hh s Hs) as (v & -> & Hv). eauto.
  - rewrite Hr. split; [done|]. unfold granted_origin in Ho'.
    destruct (c_origins c); [destruct (c_send_wildcard c); done|].
    simpl in *. destruct (Hos eq_refl). congruence.
Qed.

(** ** Other requests *)

Definition set_header_if (name : bytes) (o : option bytes) (r : Resp) : Resp :=
  match o with Some v => set_header name v r | None => r end.

Lemma get_set_header_if name o r k :
  hm_get k (r_headers (set_header_if name o r)) =
  if decide (name = k) then match o with Some v => Some v | None => hm_get k (r_headers r) end
  else hm_get k (r_headers r).
Proof. destruct o; simpl; [rewrite hm_get_insert|]; by case_decide. Qed.

Definition vary_value (c : CorsInner) (h : H) : option bytes :=
  if c_vary_header c then
    Some (match hm_get VARY h with Some v => v ++ b#", Origin" | None => b#"Origin" end)
  else None.

(** The response, by the values of the headers that are set. *)
Definition shared_head (c : CorsInner) (rq : Rq) (resp : Resp) : Resp :=
  set_header_if VARY (vary_value c (r_headers resp))
   (set_header_if ACCESS_CONTROL_ALLOW_CREDENTIALS (granted_credentials c)
    (set_header_if ACCESS_CONTROL_EXPOSE_HEADERS (c_expose_hdrs c)
     (set_header_if ACCESS_CONTROL_ALLOW_ORIGIN (granted_origin c rq) resp))).

Lemma shared_head_status c rq resp : r_status (shared_head c rq resp) = r_status resp.
Proof. unfold shared_head. by destruct (vary_value c _), (granted_credentials c), (c_expose_hdrs c), (granted_origin c rq). Qed.
Lemma shared_head_body c rq resp : r_body (shared_head c rq resp) = r_body resp.
Proof. unfold shared_head. by destruct (vary_value c _), (granted_credentials c), (c_expose_hdrs c), (granted_origin c rq). Qed.

Lemma cors_response_ok c rq resp :
  cors_ok c -> (is_all (c_origins c) = false -> is_Some (c_origins_str c)) ->
  (forall v, hm_get VARY (r_headers resp) = Some v -> forallb value_byte v = true) ->
  cors_response c rq resp = Ret (shared_head c rq resp).
Proof.
  intros Hok Hos Hv. unfold cors_response.
  assert (match c_origins c with
    | AS_All => if c_send_wildcard c then Ret (set_header ACCESS_CONTROL_ALLOW_ORIGIN (b#"*") resp)
        else match hm_get ORIGIN (rq_headers rq) with
             | Some origin => Ret (set_header ACCESS_CONTROL_ALLOW_ORIGIN origin resp)
             | None => Ret resp end
    | AS_Some _ => s ← unwrap (c_origins_str c); Ret (set_header ACCESS_CONTROL_ALLOW_ORIGIN s resp)
    end = Ret (set_header_if ACCESS_CONTROL_ALLOW_ORIGIN (granted_origin c rq) resp)) as ->.
  { unfold granted_origin. destruct (c_origins c) as [|s]; simpl in *.
    - destruct (c_send_wildcard c); [done|]. by destruct (hm_get ORIGIN _).
    - destruct (Hos eq_refl) as [s' ->]. done. }
  cbn [mbind run_bind].
  set (r0 := set_header_if ACCESS_CONTROL_ALLOW_ORIGIN (granted_origin c rq) resp).
  set (r1 := set_header_if ACCESS_CONTROL_EXPOSE_HEADERS (c_expose_hdrs c) r0).
  assert (match c_expose_hdrs c with
    | Some expose => v ← unwrap (hv_try_from expose); Ret (set_header ACCESS_CONTROL_EXPOSE_HEADERS v r0)
    | None => Ret r0 end = Ret r1) as ->.
  { unfold r1. destruct (c_expose_hdrs c) as [v|] eqn:Hex; [|done]. by rewrite hv_try_from_ok by by apply (ok_expose c Hok). }
  cbn [mbind run_bind].
  assert ((if c_supports_credentials c
    then set_header ACCESS_CONTROL_ALLOW_CREDENTIALS (b#"true") r1 else r1) =
    set_header_if ACCESS_CONTROL_ALLOW_CREDENTIALS (granted_credentials c) r1) as ->.
  { unfold granted_credentials. by destruct (c_supports_credentials c). }
  unfold shared_head, vary_value. fold r0 r1. destruct (c_vary_header c); [|done].
  assert (hm_get VARY (r_headers (set_header_if ACCESS_CONTROL_ALLOW_CREDENTIALS
    (granted_credentials c) r1)) = hm_get VARY (r_headers resp)) as ->.
  { unfold r1, r0. by rewrite !get_set_header_if. }
  destruct (hm_get VARY (r_headers resp)) as [v|] eqn:Hvary; [|done].
  rewrite hv_try_from_ok; [done|]. by rewrite forallb_app, (Hv v).
Qed.

(** A request that is not a preflight reaches the application only when its
    origin is allowed, else it is refused with status 400; its response then names
    the granted origin, grants credentials exactly when configured, has the string of
    exposed headers that the builder made, has [Origin] in [Vary] unless disabled, and
    keeps every other header of the application. *)
Theorem cors_simple_request (b : CorsBuilder) (c : CorsInner) (b' : CorsBuilder) (rq : Rq)
    (resp : Resp) :
  built b -> construct b = Ret (c, b') -> is_preflight c rq = false ->
  (forall v, hm_get VARY (r_headers resp) = Some v -> forallb value_byte v = true) ->
  (origin_allowed c rq -> cors_start (C := C) c rq = Ret (Ok Started_Done)) /\
  (~ origin_allowed c rq -> cors_start (C := C) c rq = Ret (Err (mkError 400))) /\
  exists resp', cors_response c rq resp = Ret resp' /\
    r_status resp' = r_status resp /\ r_body resp' = r_body resp /\
    (forall o, granted_origin c rq = Some o ->
       hm_get ACCESS_CONTROL_ALLOW_ORIGIN (r_headers resp') = Some o) /\
    (c_supports_credentials c = true ->
       hm_get ACCESS_CONTROL_ALLOW_CREDENTIALS (r_headers resp') = Some (b#"true")) /\
    (c_vary_header c = true ->
       hm_get VARY (r_headers resp') = Some (match hm_get VARY (r_headers resp) with
         | Some v => v ++ b#", Origin" | None => b#"Origin" end)) /\
    (forall v, c_expose_hdrs c = Some v ->
       hm_get ACCESS_CONTROL_EXPOSE_HEADERS (r_headers resp') = Some v) /\
    (forall k, k ∉ [ACCESS_CONTROL_ALLOW_ORIGIN; ACCESS_CONTROL_EXPOSE_HEADERS; ACCESS_CONTROL_ALLOW_CREDENTIALS; VARY] ->
       hm_get k (r_headers resp') = hm_get k (r_headers resp)).
Proof.
  intros Hb Hc Hp Hv. destruct (construct_ok _ _ _ Hb Hc) as [Hok Hos].
  unfold cors_start. rewrite Hp, <-validate_origin_spec. split_and!.
  { by intros ->. }
  { destruct (validate_origin c rq) as [[]|e]; [naive_solver|]. by destruct e. }
  exists (shared_head c rq resp). split; [by apply cors_response_ok|].
  rewrite shared_head_status, shared_head_body. split; [done|]. split; [done|]. unfold shared_head. split_and!.
  - intros o Ho'. rewrite !get_set_header_if. by rewrite Ho'.
  - intros Hcr. rewrite !get_set_header_if. unfold granted_credentials. by rewrite Hcr.
  - intros Hva. rewrite !get_set_header_if. unfold vary_value. by rewrite Hva.
  - intros v Hx. rewrite !get_set_header_if. by rewrite Hx.
  - intros k Hk. rewrite !get_set_header_if, !decide_False by set_solver. done.
Qed.

(** With two allowed origins no client is ever named: the value of
    [Access-Control-Allow-Origin] is the concatenation of both, in the order of the
    hash set, so that it differs from each of them. *)
Theorem cors_two_origins (b : CorsBuilder) (c : CorsInner) (b' : CorsBuilder) (o1 o2 : bytes) :
  construct b = Ret (c, b') -> c_origins c = AS_Some {[o1; o2]} ->
  o1 <> [] -> o2 <> [] -> o1 <> o2 ->
  exists v, c_origins_str c = Some v /\ (v = o1 ++ o2 \/ v = o2 ++ o1) /\ v <> o1 /\ v <> o2.
Proof.
  unfold construct. intros Hc Hor H1 H2 Hne.
  destruct (if cb_methods b then b else _) as [[cors|] ms [e|] ex]; try done.
  cbn [cb_error cb_cors cb_expose_hdrs cb_methods] in Hc.
  apply run_bind_Ret in Hc as (cors' & Hc' & Hc). simpl in Hc'. simplify_eq.
  destruct (_ && _ && _); [done|].
  apply run_bind_Ret in Hc as (os & Hos & Hc). apply run_bind_Ret in Hc as (ex' & _ & Hc).
  simplify_eq. cbn [set_strs c_origins c_origins_str] in *. rewrite Hor in Hos.
  apply run_bind_Ret in Hos as (v & Hv & Hos). simplify_eq. exists v. split; [done|].
  assert (hash_iter {[o1; o2]} = [o1; o2] \/ hash_iter {[o1; o2]} = [o2; o1]) as Horder.
  { apply Permutation_length_2_inv. symmetry. rewrite hash_iter_elements.
    rewrite elements_union_singleton by set_solver. by rewrite elements_singleton. }
  apply unwrap_hv in Hv. split.
  { destruct Horder as [Hh|Hh]; rewrite Hh in Hv; simpl in Hv; eauto. }
  destruct o1 as [|x o1], o2 as [|y o2]; try done.
  destruct Horder as [Hh|Hh]; rewrite Hh in Hv; subst v; simpl;
    split; intros Heq; apply (f_equal length) in Heq; simpl in Heq; rewrite length_app in Heq;
    simpl in Heq; lia.
Qed.

End Facts.

(** ** Cross-site request forgery *)

Section CsrfFacts.
Context {R : Type} {H : Type} `{Hm : HeaderMap H} `{Hn : HttpNames} {St : Type}.
Notation Rq := (HttpRequest R H St).

(** The site a request comes from, by its [Origin] or else its [Referer]. *)
Definition comes_from (rq : Rq) (site : bytes) : Prop :=
  let h := msg_headers (rq_msg rq) in
  match hm_get ORIGIN h with
  | Some v => hv_to_str v = Some site
  | None => exists v u, hm_get REFERER h = Some v /\ uri_parts v = Some u /\ uri_origin u = Some site
  end.

(** A request that may change state (an unsafe method, or an upgrade that the
    filter does not exempt) without a custom header that the filter accepts reaches
    the application exactly when it comes from an allowed site, or names no site and
    the filter allows that; every other request is refused with status 403. *)
Theorem csrf_filter (f : CsrfFilter) (rq : Rq) :
  method_is_safe (msg_method (rq_msg rq)) && (cf_allow_upgrade f ||
    negb (hm_contains UPGRADE (msg_headers (rq_msg rq)))) = false ->
  cf_allow_xhr f && hm_contains X_REQUESTED_WITH (msg_headers (rq_msg rq)) = false ->
  let passes := (exists site, comes_from rq site /\ site ∈ cf_origins f) \/
    (hm_get ORIGIN (msg_headers (rq_msg rq)) = None /\
     hm_get REFERER (msg_headers (rq_msg rq)) = None /\ cf_allow_missing_origin f = true) in
  (passes -> csrf_start f rq = Ok Started_Done) /\
  (~ passes -> csrf_start f rq = Err (mkError 403)).
Proof.
  intros Hsafe Hxhr passes. unfold csrf_start, csrf_validate. rewrite Hsafe, Hxhr. cbn [orb].
  unfold passes, comes_from, origin. cbv zeta.
  destruct (hm_get ORIGIN _) as [v|] eqn:Ho; simpl.
  - destruct (hv_to_str v) as [o|]; [case_decide|]; naive_solver.
  - destruct (hm_get REFERER _) as [v|] eqn:Hr; simpl; [|destruct (cf_allow_missing_origin f); naive_solver].
    destruct (uri_parts v) as [u|] eqn:Hu; simpl; [|naive_solver].
    destruct (uri_origin u) as [o|] eqn:Hs; [case_decide|]; naive_solver.
Qed.

End CsrfFacts.

(** ** Default headers *)

Section DefaultFacts.
Context {H : Type} `{Hm : HeaderMap H} `{HeaderConv}.
Notation Resp := (InnerHttpResponse H).

Lemma insert_default_get k key value (resp : Resp) :
  hm_get k (r_headers (insert_default key value resp)) =
  match hm_get k (r_headers resp) with
  | Some v => Some v
  | None => if decide (key = k) then Some value else None
  end.
Proof.
  unfold insert_default. rewrite hm_contains_get.
  destruct (hm_get key (r_headers resp)) as [v|] eqn:Hk; simpl.
  - case_decide; [subst; by rewrite Hk|]. by destruct (hm_get k _).
  - rewrite hm_get_insert. case_decide; [subst; by rewrite Hk|]. by destruct (hm_get k _).
Qed.

Lemma defaults_loop_get k hs (resp : Resp) :
  hm_get k (r_headers (defaults_loop hs resp)) =
  match hm_get k (r_headers resp) with Some v => Some v | None => alist_lookup k hs end.
Proof.
  unfold defaults_loop. revert resp. induction hs as [|[key value] hs IH]; intros resp; simpl.
  { by destruct (hm_get k _). }
  rewrite IH, insert_default_get. destruct (hm_get k _); [done|]. by case_decide.
Qed.

(** A default header is set exactly when the response does not have the header:
    the first configured value of every missing header, the generic content type when
    asked for, and no header of the response is changed. *)
Theorem default_headers_set (d : DefaultHeaders) (resp : Resp) (k : bytes) :
  hm_get k (r_headers (defaults_response d resp)) =
  match hm_get k (r_headers resp) with
  | Some v => Some v
  | None =>
      match hm_get k (dh_headers d) with
      | Some v => Some v
      | None => if dh_ct d && bool_decide (k = CONTENT_TYPE)
                then Some (b#"application/octet-stream") else None
      end
  end.
Proof.
  unfold defaults_response. rewrite (hm_get_iter k (dh_headers d)).
  destruct (dh_ct d); cbn [andb]; [rewrite insert_default_get|]; rewrite defaults_loop_get;
    destruct (hm_get k (r_headers resp)); try done;
    destruct (alist_lookup k (hm_iter (dh_headers d))); try done.
  case_decide; case_bool_decide; naive_solver.
Qed.

End DefaultFacts.

(** ** Concrete crates and witnesses *)

#[export] Program Instance elements_order : HashOrder := {| hash_iter := elements |}.
Next Obligation. done. Qed.

(** URIs ["scheme://host"]. *)
Definition mini_uri (s : bytes) : option (option bytes * option bytes * option Z) :=
  match split_on 47 s with
  | scheme :: [] :: host :: _ => Some (Some (trim_right_matches 58 scheme), Some host, None)
  | [] :: _ => Some (None, None, None)
  | _ => None
  end.

Definition mini_names : @HttpNames ascii_conv.
Proof.
  refine {| method_try_from := fun m => if (0 <? length m)%nat && forallb token_char m then Some m else None;
            method_is_safe := fun m => existsb (fun s => bool_decide (m = s)) [GET; HEAD; OPTIONS; TRACE];
            uri_parts := mini_uri |}.
  - intros m m' Hm. destruct (Nat.ltb_spec 0 (length m)); [|done]. simpl in Hm.
    destruct (forallb token_char m) eqn:Ht; simplify_eq. split; [intros ->; simpl in *; lia|done].
  - intros n n' Hm. unfold hn_try_from, ascii_conv in Hm.
    destruct (Nat.ltb_spec 0 (length (to_lowercase n))); [|done]. simpl in Hm.
    destruct (forallb token_byte (to_lowercase n)) eqn:Ht; simplify_eq. split; [intros Hnil; rewrite Hnil in *; simpl in *; lia|].
    rewrite forallb_forall in Ht |- *. intros b Hb. specialize (Ht b Hb).
    unfold token_byte in Ht. unfold token_char.
    assert (45 <= b <= 122) as Hr by (repeat (apply orb_true_iff in Ht as [Ht|Ht]);
      [apply andb_true_iff in Ht as [?%Z.leb_le ?%Z.leb_le]..|apply Z.eqb_eq in Ht]; lia).
    rewrite (proj2 (Z.leb_le _ _)), (proj2 (Z.ltb_lt _ _)) by lia. simpl.
    destruct (Z.eqb_spec b 44); [lia|done].
Defined.

Section Demo.
#[local] Existing Instances ascii_conv mini_names.
Notation Hs := (list (bytes * bytes)).

Definition site : bytes := b#"http://a".
Definition demo_builder : CorsBuilder :=
  allowed_header (b#"X-Token") (allowed_methods [GET; POST] (allowed_origin site Cors_build)).
Definition demo_cors : CorsInner :=
  mkCors {[GET; POST]} (AS_Some {[site]}) (Some site) (AS_Some {[b#"x-token"]}) None None
    true false false true.
Definition demo_rq (method : bytes) (hs : Hs) : HttpRequest unit Hs unit :=
  mkReq {| msg_version := HTTP_11; msg_method := method; msg_uri := b#"/"; msg_headers := hs;
     msg_extensions := []; msg_params := []; msg_cookies := None; msg_query := [];
     msg_query_loaded := false; msg_addr := None; msg_payload := None; msg_info := None;
     msg_resource := Notset |} None None.
Definition preflight_rq : HttpRequest unit Hs unit :=
  demo_rq OPTIONS [(ORIGIN, site); (ACCESS_CONTROL_REQUEST_METHOD, GET);
                   (ACCESS_CONTROL_REQUEST_HEADERS, b#"x-token")].

Lemma demo_built : built demo_builder.
Proof. repeat constructor. Qed.
Lemma demo_construct : exists b', construct demo_builder = Ret (demo_cors, b').
Proof. eexists. vm_compute. reflexivity. Qed.

Lemma cors_preflight_witness :
  exists r ms, cors_start (C := bytes) demo_cors preflight_rq = Ret (Ok (Started_Response r)) /\
    hm_get ACCESS_CONTROL_ALLOW_METHODS (r_headers r) = Some ms /\ lists {[GET; POST]} ms.
Proof.
  destruct demo_construct as [b' Hc].
  assert (validate_preflight demo_cors preflight_rq = Ok tt) as Hv by (vm_compute; reflexivity).
  destruct (cors_preflight (C := bytes) demo_builder demo_cors b' preflight_rq demo_built Hc eq_refl)
    as [_ Ha].
  destruct (Ha (proj1 (validate_preflight_spec _ _) Hv)) as (r & ms & Hr & _ & Hms & Hl & _).
  exists r, ms. exact (conj Hr (conj Hms Hl)).
Defined.

Definition post_rq : HttpRequest unit Hs unit := demo_rq POST [(ORIGIN, site)].
Definition plain_resp : InnerHttpResponse Hs := InnerHttpResponse_new 200 Body_Empty.

Lemma cors_simple_request_witness :
  cors_start (C := bytes) demo_cors post_rq = Ret (Ok Started_Done) /\
  exists resp', cors_response demo_cors post_rq plain_resp = Ret resp' /\
    hm_get ACCESS_CONTROL_ALLOW_ORIGIN (r_headers resp') = Some site.
Proof.
  destruct demo_construct as [b' Hc].
  assert (is_preflight demo_cors post_rq = false) as Hp by (vm_compute; reflexivity).
  assert (forall v, hm_get VARY (r_headers plain_resp) = Some v -> forallb value_byte v = true) as Hv
    by (intros v Hv; vm_compute in Hv; discriminate Hv).
  assert (validate_origin demo_cors post_rq = Ok tt) as Hok by (vm_compute; reflexivity).
  assert (granted_origin demo_cors post_rq = Some site) as Hg by (vm_compute; reflexivity).
  destruct (cors_simple_request (C := bytes) demo_builder demo_cors b' post_rq plain_resp
    demo_built Hc Hp Hv) as (Hs & _ & resp' & Hr & _ & _ & Ho & _).
  exact (conj (Hs (proj1 (validate_origin_spec _ _) Hok)) (ex_intro _ resp' (conj Hr (Ho site Hg)))).
Defined.

Definition two_builder : CorsBuilder := allowed_origin (b#"http://b") (allowed_origin site Cors_build).

Lemma cors_two_origins_witness :
  exists c b' v, construct two_builder = Ret (c, b') /\ c_origins_str c = Some v /\
    v <> site /\ v <> b#"http://b".
Proof.
  assert (exists c b', construct two_builder = Ret (c, b') /\
    c_origins c = AS_Some {[site; b#"http://b"]}) as (c & b' & Hc & Ho)
    by (eexists _, _; split; vm_compute; reflexivity).
  destruct (cors_two_origins two_builder c b' site (b#"http://b") Hc Ho)
    as (v & Hv & _ & H1 & H2); [discriminate..|].
  exists c, b', v. exact (conj Hc (conj Hv (conj H1 H2))).
Defined.

(** The list of exposed headers loses its first byte and its separators. *)
Example exposed_headers_garbled :
  exists c b', construct (expose_headers [b#"etag"; b#"x-id"] Cors_build) = Ret (c, b') /\
    c_expose_hdrs c ∈ [Some (b#"tagx-id"); Some (b#"-idetag")].
Proof. eexists _, _. split; [vm_compute; reflexivity|]. vm_compute. repeat constructor. Qed.

(** With the default configuration, a preflight request without [Origin] panics. *)
Example preflight_without_origin_panics :
  cors_start (C := bytes) Cors_default
    (demo_rq OPTIONS [(ACCESS_CONTROL_REQUEST_METHOD, GET)]) = Panic.
Proof. vm_compute. reflexivity. Qed.

Definition demo_csrf : CsrfFilter := cf_allowed_origin site CsrfFilter_new.

Definition evil_rq : HttpRequest unit Hs unit := demo_rq POST [(ORIGIN, b#"http://evil")].

Lemma csrf_filter_witness :
  csrf_start demo_csrf post_rq = Ok Started_Done /\
  csrf_start demo_csrf evil_rq = Err (mkError 403).
Proof.
  split.
  - apply (csrf_filter demo_csrf post_rq); [vm_compute; reflexivity..|]. left. exists site.
    split; [reflexivity|]. by apply (bool_decide_unpack _).
  - apply (csrf_filter demo_csrf evil_rq); [vm_compute; reflexivity..|].
    intros [(s & Hs & Hin)|(Ho & _)]; [|vm_compute in Ho; discriminate Ho].
    vm_compute in Hs. injection Hs as <-. revert Hin. by apply (bool_decide_unpack _).
Defined.

End Demo.
