(* ===== verification/Fs.v ===== *)
(** * Static files (src/src/fs.rs)

    A [NamedFile] answers a request with its contents, after the preconditions of the
    request ([If-Match], [If-None-Match] and the dates); [ChunkedReadFile] streams the
    contents from a thread pool; [StaticFiles] maps the rest of a path to a file below
    a directory.  The file system, the guesses of media types and the calendar are
    interfaces. *)
From S2P Require Import Prelude StrLib Errors Http TypedHeaders Response Router Pipeline Route.
Open Scope Z_scope.

(** ** External code *)

(** [Timespec]: seconds and nanoseconds since the epoch; also [SystemTime]. *)
Definition Timespec : Type := Z * Z.
Definition time_le (a b : Timespec) : bool := (a.1 <? b.1) || ((a.1 =? b.1) && (a.2 <=? b.2)).
Definition time_lt (a b : Timespec) : bool := negb (time_le b a).

(** The [time] crate: [HttpDate] by its instant; its text has whole seconds and four
    digits for the year. *)
Class TimeCrate := {
  rfc822 : Timespec -> bytes;
  strptime : bytes -> option Timespec;
  strptime_rfc822 t : 0 <= t.1 < 253402300800 -> strptime (rfc822 t) = Some (t.1, 0);
  rfc822_text t : Forall (fun b => 32 <= b < 127) (rfc822 t) /\ rfc822 t <> [];
}.
#[export] Instance HttpDate_item `{TimeCrate} : HeaderItem Timespec :=
  {| item_from_str := strptime; item_display := rfc822 |}.

Class MimeGuess := { get_mime_type : bytes -> bytes }.

(** Absolute paths by their components. *)
Notation Path := (list bytes).
Record Metadata : Type := mkMd { md_len : Z; md_ino : Z }.
(** What [read_dir] gives of an entry: its name, and [None] for missing metadata. *)
Inductive FileType : Type := FT_Dir | FT_File | FT_Symlink | FT_Other.
Record DirEntry : Type := mkEntry { de_name : bytes; de_type : option FileType }.

Class FileSystem := {
  fs_canonicalize : Path -> result Path IoError;
  fs_is_dir : Path -> bool;
  fs_open : Path -> result (bytes * Metadata * option Timespec) IoError;
  fs_read_dir : Path -> result (list (option DirEntry)) IoError;
}.

Definition ALLOW : bytes := b#"allow".
Definition LAST_MODIFIED : bytes := b#"last-modified".
Definition IF_MODIFIED_SINCE : bytes := b#"if-modified-since".
Definition IF_UNMODIFIED_SINCE : bytes := b#"if-unmodified-since".
Definition LOCATION : bytes := b#"location".

(** [Path::extension]: behind the last dot of the file name, unless the dot starts it. *)
Definition extension (p : Path) : option bytes :=
  name ← last p;
  '(behind, before) ← rsplit_in_two 46 name;
  if bool_decide (before = []) then None else Some behind.

(** [format!("{:x}", n)]. *)
Definition format_hex_lower (n : Z) : bytes := map lower_byte (format_hex n).

Section Files.
Context {R : Type} {H : Type} `{HeaderMap H} `{Hc : HeaderConv} {J C : Type} `{CookieJar J C} {St : Type}.
Context `{TimeCrate} `{MimeGuess} `{FileSystem} `{PercentEncoding} `{UriCrate}.
Notation Rq := (HttpRequest R H St).
Notation Resp := (InnerHttpResponse H).
Notation Builder := (HttpResponseBuilder H J).
Notation Reply := (ReplyItem (H := H)).

(** ** Named files *)

Record NamedFile : Type := mkFile {
  nf_path : Path;
  nf_file : bytes;
  nf_md : Metadata;
  nf_modified : option Timespec;
  nf_only_get : bool;
  nf_status_code : Z;
}.

Definition NamedFile_open (path : Path) : result NamedFile IoError :=
  match fs_open path with
  | Ok (file, md, modified) => Ok (mkFile path file md modified false 200)
  | Err e => Err e
  end.
Definition only_get (f : NamedFile) : NamedFile :=
  mkFile (nf_path f) (nf_file f) (nf_md f) (nf_modified f) true (nf_status_code f).
Definition set_status_code (status : Z) (f : NamedFile) : NamedFile :=
  mkFile (nf_path f) (nf_file f) (nf_md f) (nf_modified f) (nf_only_get f) status.

(** [duration_since(UNIX_EPOCH).expect(..)] panics for a time before the epoch. *)
Definition etag_text (f : NamedFile) (mtime : Timespec) : bytes :=
  format_hex_lower (md_ino (nf_md f)) ++ [58] ++ format_hex_lower (md_len (nf_md f)) ++ [58] ++
  format_hex_lower mtime.1 ++ [58] ++ format_hex_lower mtime.2.
Definition file_etag (f : NamedFile) : run (option EntityTag) :=
  match nf_modified f with
  | Some mtime =>
      if mtime.1 <? 0 then Panic
      else t ← EntityTag_strong (etag_text f mtime); Ret (Some t)
  | None => Ret None
  end.
Definition file_last_modified (f : NamedFile) : option Timespec := nf_modified f.

(** [HttpMessage::get_header]. *)
Definition get_header {A} (name : bytes) (parse : H -> result A ParseError) (rq : Rq) : option A :=
  let h := msg_headers (rq_msg rq) in
  if hm_contains name h then match parse h with Ok a => Some a | Err _ => None end else None.

Definition any_match (etag : option EntityTag) (rq : Rq) : bool :=
  match get_header IF_MATCH (any_header_parse (T := EntityTag) IF_MATCH) rq with
  | None | Some AO_Any => true
  | Some (AO_Items items) =>
      match etag with
      | Some some_etag => existsb (fun item => strong_eq item some_etag) items
      | None => false
      end
  end.

Definition none_match (etag : option EntityTag) (rq : Rq) : bool :=
  match get_header IF_NONE_MATCH (any_header_parse (T := EntityTag) IF_NONE_MATCH) rq with
  | Some AO_Any => false
  | Some (AO_Items items) =>
      match etag with
      | Some some_etag => negb (existsb (fun item => weak_eq item some_etag) items)
      | None => true
      end
  | None => true
  end.

Definition precondition_failed (etag : option EntityTag) (last_modified : option Timespec) (rq : Rq)
  : bool :=
  if negb (any_match etag rq) then true
  else match last_modified, get_header IF_UNMODIFIED_SINCE (one_header_parse IF_UNMODIFIED_SINCE) rq with
       | Some m, Some since => time_lt since m
       | _, _ => false
       end.

Definition not_modified (etag : option EntityTag) (last_modified : option Timespec) (rq : Rq) : bool :=
  if negb (none_match etag rq) then true
  else match last_modified, get_header IF_MODIFIED_SINCE (one_header_parse IF_MODIFIED_SINCE) rq with
       | Some m, Some since => time_le m since
       | _, _ => false
       end.

(** [ChunkedReadFile], created from a file. *)
Record ChunkedReadFile : Type := mkReadFile {
  cr_size : Z;
  cr_offset : Z;
  cr_file : option bytes;
  cr_fut : option (Fut (bytes * bytes));
}.

(** The reader behind the streaming body 0, when there is one. *)
Definition stream_file (f : NamedFile) (b : Builder) : run (Resp * option ChunkedReadFile) :=
  '(r, _, _) ← rb_streaming 0 b [];
  Ret (r, Some (mkReadFile (md_len (nf_md f)) 0 (Some (nf_file f)) None)).

Definition set_content_type (f : NamedFile) (b : Builder) : Builder :=
  rb_if_some (extension (nf_path f))
    (fun ext => rb_set CONTENT_TYPE (hv_try_from (get_mime_type (from_utf8_lossy ext)))) b.

Definition file_respond_to (f : NamedFile) (rq : Rq) : run (Resp * option ChunkedReadFile) :=
  if negb (nf_status_code f =? 200) then
    stream_file f (set_content_type f (fst (get_builder [] (nf_status_code f))))
  else if nf_only_get f && negb (bool_decide (msg_method (rq_msg rq) = GET))
          && negb (bool_decide (msg_method (rq_msg rq) = HEAD)) then
    '(r, _, _) ← rb_body (Body_Binary (Bin_Slice (b#"This resource only supports GET and HEAD.")))
       (rb_header ALLOW (b#"GET, HEAD") (rb_header CONTENT_TYPE (b#"text/plain") (fst (get_builder [] 405)))) [];
    Ret (r, None)
  else
    etag ← file_etag f;
    let last_modified := file_last_modified f in
    let resp := set_content_type f (fst (get_builder [] (nf_status_code f))) in
    let resp := rb_if_some last_modified (fun lm => rb_set LAST_MODIFIED (Some (rfc822 lm))) resp in
    let resp := rb_if_some etag (fun etag => rb_set ETAG (Some (EntityTag_display etag))) resp in
    if precondition_failed etag last_modified rq then
      '(r, _, _) ← rb_finish (rb_status 412 resp) []; Ret (r, None)
    else if not_modified etag last_modified rq then
      '(r, _, _) ← rb_finish (rb_status 304 resp) []; Ret (r, None)
    else if bool_decide (msg_method (rq_msg rq) = HEAD) then
      '(r, _, _) ← rb_finish resp []; Ret (r, None)
    else stream_file f resp.

(** ** Streaming a file *)

(** What the thread pool does with a read: how long the future is not ready, how many
    bytes the system reads at most, and the capacity that the allocator gave beyond
    what was asked. *)
Record PoolRead : Type := mkPoolRead { pr_wait : option nat; pr_want : Z; pr_spare : Z }.

(** The closure of [spawn_fn]: [file.seek], then [file.read] into the buffer. *)
Definition pool_read (p : PoolRead) (size offset : Z) (file : bytes) : result (bytes * bytes) IoError :=
  let max_bytes := Z.min (Z.max 0 (size - offset)) 65536 in
  let buf := takeZ (Z.min (max_bytes + pr_spare p) (pr_want p)) (dropZ offset file) in
  if bool_decide (buf = []) then Err (mkIoError (UnlistedKind 0) "UnexpectedEof") else Ok (file, buf).

(** The part of [poll] for a pending future. *)
Definition read_file_fut (fut : Fut (bytes * bytes)) (f : ChunkedReadFile)
  : poll (option bytes) Error * ChunkedReadFile :=
  match fut_poll fut with
  | (Ready (file, bytes), _) =>
      (Ready (Some bytes), mkReadFile (cr_size f) (cr_offset f + lenZ bytes) (Some file) None)
  | (NotReady, fut) => (NotReady, mkReadFile (cr_size f) (cr_offset f) (cr_file f) (Some fut))
  | (PErr e, fut) => (PErr e, mkReadFile (cr_size f) (cr_offset f) (cr_file f) (Some fut))
  end.

(** [ChunkedReadFile::poll]. *)
Definition read_file_poll (p : PoolRead) (f : ChunkedReadFile)
  : run (poll (option bytes) Error * ChunkedReadFile) :=
  match cr_fut f with
  | Some fut => Ret (read_file_fut fut f)
  | None =>
      if cr_size f =? cr_offset f then Ret (Ready None, f)
      else
        file ← unwrap (cr_file f);
        let fut := mkFut (pr_wait p) (match pool_read p (cr_size f) (cr_offset f) file with
                                      | Ok r => Ok r
                                      | Err e => Err (Error_from e)
                                      end) in
        Ret (read_file_fut fut (mkReadFile (cr_size f) (cr_offset f) None (Some fut)))
  end.

(** ** Directory listings *)

Record Directory : Type := mkDirectory { dir_base : Path; dir_path : Path }.

Definition can_list (entry : option DirEntry) : bool :=
  match entry with
  | Some entry =>
      match from_utf8 (de_name entry) with
      | Some name => if starts_with (b#".") name then false
                     else match de_type entry with
                          | Some FT_Dir | Some FT_File | Some FT_Symlink => true
                          | _ => false
                          end
      | None => match de_type entry with
                | Some FT_Dir | Some FT_File | Some FT_Symlink => true
                | _ => false
                end
      end
  | None => false
  end.

(** [base.join(p)] of a base and a relative name. *)
Definition join_path (base name : bytes) : bytes :=
  if bool_decide (base = []) || ends_with 47 base then base ++ name else base ++ [47] ++ name.

Definition quoted (s : bytes) : bytes := [34] ++ s ++ [34].
Definition list_item (url name : bytes) (is_dir : bool) : bytes :=
  b#"<li><a href=" ++ quoted url ++ b#">" ++ name ++ (if is_dir then b#"/" else []) ++ b#"</a></li>".

Fixpoint listing (base : bytes) (entries : list (option DirEntry)) : bytes :=
  match entries with
  | [] => []
  | entry :: entries =>
      (match entry with
       | Some e =>
           if can_list (Some e) then
             let url := from_utf8_lossy (join_path base (de_name e)) in
             match de_type e with
             | Some ft => list_item url (from_utf8_lossy (de_name e)) (match ft with FT_Dir => true | _ => false end)
             | None => []
             end
           else []
       | None => []
       end) ++ listing base entries
  end.

Definition directory_html (path : bytes) (body : bytes) : bytes :=
  let index_of := b#"Index of " ++ path in
  b#"<html><head><title>" ++ index_of ++ b#"</title></head><body><h1>" ++ index_of ++
  b#"</h1><ul>" ++ body ++ b#"</ul></body>" ++ [10] ++ b#"</html>".

Definition directory_respond_to (d : Directory) (rq : Rq) : run (result Resp IoError) :=
  match fs_read_dir (dir_path d) with
  | Err e => Ret (Err e)
  | Ok entries =>
      let html := directory_html (req_path rq) (listing (req_path rq) entries) in
      '(r, _, _) ← rb_body (Body_Binary (Bin_Bytes html))
         (rb_content_type (b#"text/html; charset=utf-8") (fst (get_builder [] 200) : Builder)) [];
      Ret (Ok r)
  end.

(** ** Serving a directory *)

Record StaticFiles : Type := mkStatic {
  sf_directory : Path;
  sf_accessible : bool;
  sf_index : option bytes;
  sf_show_index : bool;
  sf_default : Rq -> Reply;
}.

Definition StaticFiles_with_pool (dir : Path) : StaticFiles :=
  let '(dir, access) := match fs_canonicalize dir with
                        | Ok dir => (dir, fs_is_dir dir)
                        | Err _ => (dir, false)
                        end in
  mkStatic dir access None false (fun _ => Reply_Message (InnerHttpResponse_new 404 Body_Empty)).
Definition show_files_listing (s : StaticFiles) : StaticFiles :=
  mkStatic (sf_directory s) (sf_accessible s) (sf_index s) true (sf_default s).
Definition index_file (index : bytes) (s : StaticFiles) : StaticFiles :=
  mkStatic (sf_directory s) (sf_accessible s) (Some index) (sf_show_index s) (sf_default s).
Definition default_handler (h : Rq -> Reply) (s : StaticFiles) : StaticFiles :=
  mkStatic (sf_directory s) (sf_accessible s) (sf_index s) (sf_show_index s) h.

(** The rest of the path as a relative path: [None] for the default handler. *)
Definition relative_path (rq : Rq) : run (option PathBuf) :=
  match params_get (b#"tail") (req_match_info rq) with
  | None => Ret None
  | Some tail =>
      s ← unwrap (from_utf8 (percent_decode tail));
      Ret (match from_param s with Ok path => Some path | Err _ => None end)
  end.

(** [for el in relpath.iter()] of the redirect. *)
Definition redirect_location (path : bytes) (relpath : PathBuf) (index : bytes) : bytes :=
  let new_path := foldl (fun p el => p ++ from_utf8_lossy el ++ [47]) path relpath in
  (if ends_with 47 new_path then new_path else new_path ++ [47]) ++ index.

(** What a request is answered with: the reply, and the file that is streamed. *)
Definition static_handle (s : StaticFiles) (rq : Rq)
  : run (result (Reply * option ChunkedReadFile) Error) :=
  if negb (sf_accessible s) then Ret (Ok (sf_default s rq, None))
  else
    o ← relative_path rq;
    match o with
    | None => Ret (Ok (sf_default s rq, None))
    | Some relpath =>
        match fs_canonicalize (sf_directory s ++ relpath) with
        | Err e => Ret (Err (Error_from e))
        | Ok path =>
            if fs_is_dir path then
              match sf_index s with
              | Some redir_index =>
                  '(r, _, _) ← rb_finish (rb_header LOCATION
                     (redirect_location (req_path rq) relpath redir_index)
                     (fst (get_builder [] 302) : Builder)) [];
                  Ret (Ok (Reply_Message r, None))
              | None =>
                  if sf_show_index s then
                    x ← directory_respond_to (mkDirectory (sf_directory s) path) rq;
                    match x with
                    | Ok r => Ret (Ok (Reply_Message r, None))
                    | Err e => Ret (Err (Error_from e))
                    end
                  else Ret (Ok (sf_default s rq, None))
              end
            else
              match NamedFile_open path with
              | Err e => Ret (Err (Error_from e))
              | Ok f => '(r, reader) ← file_respond_to f rq; Ret (Ok (Reply_Message r, reader))
              end
        end
    end.

End Files.
