(* ===== verification/FsFacts.v ===== *)
(** * Properties of static files (src/src/fs.rs)

    A streamed file arrives whole and in order whatever the thread pool does; a client
    that sends back an entity tag is answered from its cache; a request never reaches a
    file outside of the directory that is served. *)
From S2P Require Import Prelude StrLib Errors Http TypedHeaders HeaderFacts Response Router RouterFacts Pipeline Route Fs.
Open Scope Z_scope.

(** ** Streaming *)

(** One poll for every answer of the pool, until the end of the stream. *)
Fixpoint read_polls (ps : list PoolRead) (f : ChunkedReadFile)
  : run (list (poll (option bytes) Error)) :=
  match ps with
  | [] => Ret []
  | p :: ps =>
      '(r, f) ← read_file_poll p f;
      match r with
      | Ready None => Ret [r]
      | _ => rs ← read_polls ps f; Ret (r :: rs)
      end
  end.

(** The pool reads something when it reads. *)
Definition pool_ok (p : PoolRead) : Prop := 0 < pr_want p /\ 0 <= pr_spare p.

(** What is left of the stream: the reader between two polls. *)
Inductive reading (content : bytes) : bytes -> ChunkedReadFile -> Prop :=
| rd_idle rest off :
    0 <= off <= lenZ content -> rest = dropZ off content ->
    reading content rest (mkReadFile (lenZ content) off (Some content) None)
| rd_pending rest off buf w :
    0 <= off -> rest = dropZ off content -> buf <> [] -> buf `prefix_of` rest ->
    reading content rest
      (mkReadFile (lenZ content) off None (Some (mkFut w (Ok (content, buf))))).

Lemma pool_read_ok p content off :
  pool_ok p -> 0 <= off < lenZ content ->
  exists buf, pool_read p (lenZ content) off content = Ok (content, buf) /\
    buf <> [] /\ buf `prefix_of` dropZ off content.
Proof.
  intros [Hw Hs] Hoff. unfold pool_read.
  set (n := Z.min _ _). set (buf := takeZ n (dropZ off content)).
  assert (0 < n) as Hn by (unfold n; lia).
  assert (buf <> []) as Hb.
  { intros Hnil. apply (f_equal lenZ) in Hnil. unfold buf in Hnil. rewrite lenZ_nil in Hnil.
    destruct (Z.le_gt_cases n (lenZ (dropZ off content))).
    - rewrite lenZ_takeZ in Hnil by lia. lia.
    - rewrite takeZ_all, lenZ_dropZ in Hnil by lia. lia. }
  exists buf. rewrite bool_decide_eq_false_2 by done. split_and!; [done..|].
  exists (dropZ n (dropZ off content)). symmetry. apply takeZ_dropZ.
Qed.

Lemma pending_step content rest off buf w :
  0 <= off -> rest = dropZ off content -> buf <> [] -> buf `prefix_of` rest ->
  exists r f', read_file_fut (mkFut w (Ok (content, buf)))
      (mkReadFile (lenZ content) off None (Some (mkFut w (Ok (content, buf))))) = (r, f') /\
    match r with
    | Ready (Some b) => exists rest', rest = b ++ rest' /\ b <> [] /\ reading content rest' f'
    | NotReady => reading content rest f'
    | _ => False
    end.
Proof.
  intros Hoff Hrest Hb [rest' Hpre]. unfold read_file_fut, fut_poll.
  destruct w as [[|w]|]; simpl.
  - eexists _, _. split; [done|]. exists rest'. split_and!; [done..|].
    assert (lenZ rest = lenZ content - off) as Hl.
    { subst rest. destruct (Z.le_gt_cases off (lenZ content)); [by rewrite lenZ_dropZ by lia|].
      rewrite dropZ_all in Hpre by lia. destruct buf; [done|discriminate Hpre]. }
    rewrite Hpre, lenZ_app in Hl. pose proof (lenZ_nonneg rest'). pose proof (lenZ_nonneg buf).
    constructor; [lia|].
    rewrite <-(dropZ_dropZ (lenZ buf) off content), <-Hrest, Hpre by lia.
    by rewrite dropZ_app_r, Z.sub_diag, dropZ_0 by lia.
  - eexists _, _. split; [done|]. econstructor; eauto. by exists rest'.
  - eexists _, _. split; [done|]. econstructor; eauto. by exists rest'.
Qed.

Lemma reading_step content rest p f :
  pool_ok p -> reading content rest f ->
  exists r f', read_file_poll p f = Ret (r, f') /\
    match r with
    | Ready (Some b) => exists rest', rest = b ++ rest' /\ b <> [] /\ reading content rest' f'
    | Ready None => rest = []
    | NotReady => reading content rest f'
    | PErr _ => False
    end.
Proof.
  intros Hp Hr. destruct Hr as [rest off Hoff Hrest|rest off buf w Hoff Hrest Hb Hpre].
  - unfold read_file_poll. cbn [cr_fut cr_size cr_offset cr_file].
    destruct (Z.eqb_spec (lenZ content) off) as [He|He].
    { eexists _, _. split; [done|]. subst. apply dropZ_all. lia. }
    destruct (pool_read_ok p content off Hp ltac:(lia)) as (buf & Hread & Hb & Hpre).
    cbn [unwrap mbind run_bind]. rewrite Hread. cbv zeta.
    destruct (pending_step content rest off buf (pr_wait p) ltac:(lia) Hrest Hb) as (r & f' & -> & Hr);
      [by rewrite Hrest|].
    exists r, f'. split; [done|]. by destruct r as [[]| |].
  - destruct (pending_step content rest off buf w Hoff Hrest Hb Hpre) as (r & f' & Hs & Hr).
    exists r, f'. unfold read_file_poll. cbn [cr_fut]. rewrite Hs. split; [done|].
    by destruct r as [[]| |].
Qed.

(** A pool that answers at once leaves no future behind. *)
Lemma idle_poll p f r f' :
  pr_wait p = Some 0%nat -> cr_fut f = None -> read_file_poll p f = Ret (r, f') ->
  r <> NotReady /\ forall b, r = Ready (Some b) -> cr_fut f' = None.
Proof.
  intros Hw Hf. unfold read_file_poll. rewrite Hf.
  destruct (_ =? _); [by intros; simplify_eq|]. destruct (cr_file f) as [file|]; [|done]. cbn.
  unfold read_file_fut, fut_poll. cbn [fut_wait fut_result]. rewrite Hw.
  destruct (pool_read _ _ _ _) as [[]|]; intros; by simplify_eq.
Qed.

Lemma reading_polls content ps : Forall pool_ok ps -> forall rest f,
  reading content rest f ->
  exists rs, read_polls ps f = Ret rs /\ (forall e, PErr e ∉ rs) /\
    concat (chunks rs) `prefix_of` rest /\ (Ready None ∈ rs -> concat (chunks rs) = rest) /\
    (Forall (fun p => pr_wait p = Some 0%nat) ps -> cr_fut f = None ->
     (length rest < length ps)%nat -> Ready None ∈ rs).
Proof.
  intros Hps. induction Hps as [|p ps Hp Hps IH]; intros rest f Hr; simpl.
  { exists []. split_and!; [done|set_solver|by exists rest|set_solver|simpl; lia]. }
  destruct (reading_step content rest p f Hp Hr) as (r & f' & Hpoll & Hstep). rewrite Hpoll. cbn.
  destruct r as [[b|]| |e]; [| | |done].
  - destruct Hstep as (rest' & -> & Hb & Hr'). destruct (IH _ _ Hr') as (rs & -> & He & Hpre & Hend & Hlive).
    cbn. eexists. split; [done|]. split_and!.
    + set_solver.
    + rewrite chunks_cons. by apply prefix_app.
    + intros [Hf|Hin]%elem_of_cons; [done|]. by rewrite chunks_cons, Hend.
    + intros Hw Hfut Hlen. apply Forall_cons in Hw as [Hw0 Hw]. right. apply Hlive; [done| |].
      * by eapply idle_poll.
      * rewrite length_app in Hlen. destruct b; [done|]. simpl in Hlen. lia.
  - subst rest. eexists. split; [done|]. split_and!; [set_solver|by exists []|done|intros; by left].
  - destruct (IH _ _ Hstep) as (rs & -> & He & Hpre & Hend & Hlive). cbn.
    eexists. split; [done|]. split_and!; [set_solver|done| |].
    + intros [Hf|Hin]%elem_of_cons; [done|]. by apply Hend.
    + intros Hw Hfut. apply Forall_cons in Hw as [Hw0 Hw].
      by destruct (idle_poll p f NotReady f' Hw0 Hfut Hpoll).
Qed.

(** A file is streamed whole and in order: however long the pool takes and however
    little it reads at a time, polling neither fails nor panics, the chunks so far are
    a prefix of the contents, all of them once the stream has ended; and with a pool
    that answers, it ends after at most one poll per byte and one more. *)
Theorem file_streamed (content : bytes) (ps : list PoolRead) :
  Forall pool_ok ps ->
  let f := mkReadFile (lenZ content) 0 (Some content) None in
  exists rs, read_polls ps f = Ret rs /\ (forall e, PErr e ∉ rs) /\
    concat (chunks rs) `prefix_of` content /\ (Ready None ∈ rs -> concat (chunks rs) = content) /\
    (Forall (fun p => pr_wait p = Some 0%nat) ps -> (length content < length ps)%nat ->
     Ready None ∈ rs).
Proof.
  intros Hps f. destruct (reading_polls content ps Hps content f) as (rs & Hr & He & Hp & Hend & Hlive).
  { constructor; [pose proof (lenZ_nonneg content); lia|by rewrite dropZ_0]. }
  exists rs. split_and!; auto.
Qed.

(** ** Conditional requests *)

Lemma hex_lower_char d : 0 <= d < 16 -> 48 <= lower_byte (digit_char d) < 103 /\
  lower_byte (digit_char d) <> 44 /\ etag_char (lower_byte (digit_char d)) = true.
Proof.
  intros Hd. assert (exists n, (n < 16)%nat /\ d = Z.of_nat n) as (n & Hn & ->).
  { exists (Z.to_nat d). lia. }
  do 16 (destruct n as [|n]; [vm_compute; by repeat split|]). lia.
Qed.

Definition tag_byte (b : Z) : Prop := 32 <= b < 127 /\ b <> 44 /\ etag_char b = true.

Lemma hex_lower_text n : 0 <= n -> Forall tag_byte (format_hex_lower n).
Proof.
  intros Hn. unfold format_hex_lower, format_hex.
  destruct (format_digits 16 n) as (ds & -> & Hds & _); [lia..|].
  apply List.Forall_map, List.Forall_map. eapply Forall_impl; [exact Hds|]. intros d Hd.
  destruct (hex_lower_char d Hd) as (? & ? & ?). split_and!; [simpl; lia..|done|done].
Qed.

Section Conditional.
Context {R : Type} {H : Type} `{HeaderMap H} `{Hc : HeaderConv} {J C : Type} `{CookieJar J C} {St : Type}.
Context `{TimeCrate} `{MimeGuess} `{FileSystem} `{PercentEncoding} `{UriCrate}.
Notation Rq := (HttpRequest R H St).
(** [HeaderValue::to_str] of visible text, and media types that are header values. *)
Hypothesis to_str_text : forall v, Forall (fun b => 32 <= b < 127) v -> hv_to_str v = Some v.
Hypothesis mime_value : forall ext, forallb value_byte (get_mime_type ext) = true.

(** A file of 64-bit size, as a file system has it, last modified between the epoch and
    the year 10000. *)
Definition file_ok (f : NamedFile) (mtime : Timespec) : Prop :=
  nf_status_code f = 200 /\ nf_modified f = Some mtime /\ 0 <= md_ino (nf_md f) /\
  0 <= md_len (nf_md f) /\ 0 <= mtime.1 < 253402300800 /\ 0 <= mtime.2.

Definition CONDITIONS : list bytes := [IF_MATCH; IF_NONE_MATCH; IF_MODIFIED_SINCE; IF_UNMODIFIED_SINCE].
(** The request has the condition [name] with the value [v], and no other one. *)
Definition only_condition (name v : bytes) (rq : Rq) : Prop :=
  Forall (fun k => get_all k (msg_headers (rq_msg rq)) = if bool_decide (k = name) then [v] else [])
    CONDITIONS.

Lemma get_header_all {A} k (parse : H -> result A ParseError) (rq : Rq) :
  get_header k parse rq =
  match get_all k (msg_headers (rq_msg rq)) with
  | [] => None
  | _ => match parse (msg_headers (rq_msg rq)) with Ok a => Some a | Err _ => None end
  end.
Proof.
  unfold get_header. rewrite hm_contains_get, hm_get_all. by destruct (get_all k _).
Qed.

Lemma file_tag f mtime : file_ok f mtime ->
  Forall tag_byte (etag_text f mtime) /\ file_etag f = Ret (Some (mkEtag false (etag_text f mtime))).
Proof.
  intros (_ & Hm & ? & ? & ? & ?).
  assert (Forall tag_byte (etag_text f mtime)) as Ht.
  { unfold etag_text. rewrite !Forall_app.
    split_and!; try (by apply hex_lower_text; lia); by repeat constructor. }
  split; [done|]. unfold file_etag. rewrite Hm, (proj2 (Z.ltb_ge _ _)) by lia.
  unfold EntityTag_strong, EntityTag_new. replace (check_slice_validity _) with true; [done|].
  symmetry. apply forallb_forall. intros b Hb%list_elem_of_In. rewrite Forall_forall in Ht. by apply Ht.
Qed.

(** What is not conditional: the head of the answer. *)
Definition file_head (f : NamedFile) (mtime : Timespec) : InnerHttpResponse H :=
  add_header ETAG (EntityTag_display (mkEtag false (etag_text f mtime)))
    (add_header LAST_MODIFIED (rfc822 mtime)
       (add_header_if CONTENT_TYPE ((fun ext => get_mime_type (from_utf8_lossy ext)) <$> extension (nf_path f))
          (InnerHttpResponse_new 200 Body_Empty))).

Lemma content_type_set f (r : InnerHttpResponse H) :
  set_content_type (J := J) f (builder_of r) =
  builder_of (add_header_if CONTENT_TYPE
    ((fun ext => get_mime_type (from_utf8_lossy ext)) <$> extension (nf_path f)) r).
Proof.
  unfold set_content_type. destruct (extension (nf_path f)); [|done]. cbn.
  by rewrite hv_try_from_ok.
Qed.

Lemma file_head_spec f mtime :
  r_body (file_head f mtime) = Body_Empty /\ r_status (file_head f mtime) = 200 /\
  hm_get ETAG (r_headers (file_head f mtime)) = Some (EntityTag_display (mkEtag false (etag_text f mtime))) /\
  hm_get LAST_MODIFIED (r_headers (file_head f mtime)) = Some (rfc822 mtime).
Proof.
  unfold file_head, add_header. cbn [r_body r_status set_r_headers r_headers].
  rewrite add_header_if_body, add_header_if_status, !hm_get_append, !get_add_header_if.
  repeat (case_decide; [discriminate || (cbn [r_headers InnerHttpResponse_new]; rewrite ?hm_get_empty)|]);
    cbn [r_headers InnerHttpResponse_new]; rewrite ?hm_get_empty; done.
Qed.

(** The three answers to a request for a file. *)
Lemma respond_spec f mtime (rq : Rq) : file_ok f mtime -> msg_method (rq_msg rq) = GET ->
  let etag := Some (mkEtag false (etag_text f mtime)) in
  file_respond_to (J := J) f rq = Ret
    (if precondition_failed etag (Some mtime) rq then (set_r_status 412 (file_head f mtime), None)
     else if not_modified etag (Some mtime) rq then (set_r_status 304 (file_head f mtime), None)
     else (set_r_body (Body_Streaming 0) (file_head f mtime),
           Some (mkReadFile (md_len (nf_md f)) 0 (Some (nf_file f)) None))).
Proof.
  intros Hf Hget. destruct (file_tag f mtime Hf) as [_ Htag]. destruct Hf as (Hst & Hm & _).
  unfold file_respond_to. rewrite Hst, Htag. unfold file_last_modified. rewrite Hm, Hget.
  rewrite andb_false_r. cbn [Z.eqb Pos.eqb negb andb mbind run_bind get_builder fst].
  change (mkBuilder (Some ?r) true None None) with (builder_of (J := J) r).
  rewrite content_type_set. cbn [rb_if_some].
  change (rb_set ETAG _ _) with (builder_of (J := J) (file_head f mtime)).
  destruct (file_head_spec f mtime) as (Hb & _).
  assert (forall s, r_body (set_r_status s (file_head f mtime)) = Body_Empty) as Hbs by done.
  destruct (precondition_failed _ _ _); [|destruct (not_modified _ _ _)].
  - change (rb_status 412 _) with (builder_of (J := J) (set_r_status 412 (file_head f mtime))).
    by rewrite finish_builder.
  - change (rb_status 304 _) with (builder_of (J := J) (set_r_status 304 (file_head f mtime))).
    by rewrite finish_builder.
  - rewrite (bool_decide_eq_false_2 (GET = HEAD)) by done.
    unfold stream_file, rb_streaming. by rewrite body_builder.
Qed.

(** A date header with the text of a time. *)
Lemma date_header name t (rq : Rq) :
  0 <= t.1 < 253402300800 -> get_all name (msg_headers (rq_msg rq)) = [rfc822 t] ->
  get_header name (one_header_parse (T := Timespec) name) rq = Some (t.1, 0).
Proof.
  intros Ht Hall. rewrite get_header_all, Hall. unfold one_header_parse, from_one_raw_str.
  rewrite hm_get_all, Hall. cbn [head]. destruct (rfc822_text t) as [Htext Hne].
  rewrite to_str_text, bool_decide_eq_true_2 by done. cbn [item_from_str HttpDate_item].
  by rewrite strptime_rfc822.
Qed.

(** An entity tag in a list header. *)
Lemma tag_header name tag (rq : Rq) :
  Forall tag_byte tag ->
  get_all name (msg_headers (rq_msg rq)) = [EntityTag_display (mkEtag false tag)] ->
  get_header name (any_header_parse (T := EntityTag) name) rq = Some (AO_Items [mkEtag false tag]).
Proof.
  intros Htag Hall. rewrite get_header_all, Hall. unfold any_header_parse.
  rewrite hm_get_all, Hall. cbn [head mbind option_bind].
  assert (hv_to_str (EntityTag_display (mkEtag false tag)) = Some (EntityTag_display (mkEtag false tag))) as Hs.
  { apply to_str_text. unfold EntityTag_display. simpl. rewrite Forall_cons, Forall_app, Forall_singleton.
    split; [lia|split; [|lia]]. eapply Forall_impl; [exact Htag|]. by intros b (? & _). }
  assert (listable (mkEtag false tag)) as Hl.
  { rewrite Forall_forall in Htag. apply etag_listable; simpl.
    - apply forallb_forall. intros b Hb%list_elem_of_In. by apply Htag.
    - intros Hin. by destruct (Htag _ Hin) as (_ & ? & _). }
  rewrite Hs. cbn [mbind option_bind from_comma_delimited]. rewrite Hs, app_nil_r.
  assert (comma_items (T := EntityTag) (EntityTag_display (mkEtag false tag)) = [mkEtag false tag]) as ->.
  { pose proof (comma_items_fmt (T := EntityTag) [mkEtag false tag]) as Hi. simpl in Hi.
    by apply Hi, Forall_singleton. }
  rewrite bool_decide_eq_false_2; [done|].
  destruct Hl as (_ & _ & _ & Ht). simpl in Ht. rewrite Ht. by destruct tag.
Qed.

(** Validation of cached copies: an answer to a plain request for a file carries an
    entity tag and a date; a client that sends the tag back in [If-None-Match] is
    answered 304 without contents, and with [If-Match] gets the contents; a client that
    sends the date back in [If-Modified-Since] is answered 304, and with
    [If-Unmodified-Since] gets the contents, only when the time of modification is a
    whole second. *)
Theorem file_revalidation f mtime (rq : Rq) (name v : bytes) :
  file_ok f mtime -> msg_method (rq_msg rq) = GET -> only_condition name v rq ->
  let head := file_head f mtime in
  let tag := EntityTag_display (mkEtag false (etag_text f mtime)) in
  let full := Ret (set_r_body (Body_Streaming 0) head,
                   Some (mkReadFile (md_len (nf_md f)) 0 (Some (nf_file f)) None)) in
  let cached := Ret (set_r_status 304 head, None) in
  let failed := Ret (set_r_status 412 head, None) in
  hm_get ETAG (r_headers head) = Some tag /\ hm_get LAST_MODIFIED (r_headers head) = Some (rfc822 mtime) /\
  (name ∉ CONDITIONS -> file_respond_to (J := J) f rq = full) /\
  (name = IF_NONE_MATCH -> v = tag -> file_respond_to (J := J) f rq = cached) /\
  (name = IF_MATCH -> v = tag -> file_respond_to (J := J) f rq = full) /\
  (name = IF_MODIFIED_SINCE -> v = rfc822 mtime ->
     file_respond_to (J := J) f rq = if mtime.2 =? 0 then cached else full) /\
  (name = IF_UNMODIFIED_SINCE -> v = rfc822 mtime ->
     file_respond_to (J := J) f rq = if mtime.2 =? 0 then full else failed).
Proof.
  intros Hf Hget Hcond. cbv zeta. rewrite (respond_spec f mtime rq Hf Hget).
  destruct (file_head_spec f mtime) as (_ & _ & -> & ->). destruct (file_tag f mtime Hf) as [Htag _].
  destruct Hf as (_ & _ & _ & _ & Ht & Ht2). unfold only_condition, CONDITIONS in Hcond. rewrite !Forall_cons in Hcond.
  destruct Hcond as (Hk1 & Hk2 & Hk3 & Hk4 & _).
  unfold precondition_failed, not_modified, any_match, none_match.
  split_and!; [done|done|..]; intros Hname; [|intros ->..]; subst;
    repeat match goal with
    | Hk : get_all ?k _ = (if bool_decide ?p then _ else _) |- _ =>
        (rewrite (bool_decide_eq_true_2 p) in Hk by done) ||
        (rewrite (bool_decide_eq_false_2 p) in Hk by (first [done | set_solver]));
        first [ apply tag_header in Hk; [rewrite Hk; clear Hk|done]
              | apply date_header in Hk; [rewrite Hk; clear Hk|done]
              | rewrite !(get_header_all k), Hk; clear Hk ]
    end; cbn [existsb negb orb].
  - done.
  - unfold weak_eq. by rewrite bool_decide_eq_true_2.
  - unfold strong_eq. by rewrite bool_decide_eq_true_2.
  - unfold time_le. cbn [fst snd]. rewrite Z.ltb_irrefl, Z.eqb_refl. cbn [orb andb].
    destruct (Z.eqb_spec mtime.2 0), (Z.leb_spec mtime.2 0); (done || lia).
  - unfold time_lt, time_le. cbn [fst snd]. rewrite Z.ltb_irrefl, Z.eqb_refl. cbn [orb andb].
    destruct (Z.eqb_spec mtime.2 0), (Z.leb_spec mtime.2 0); (done || lia).
Qed.

End Conditional.

(** ** Confinement *)

Section Confined.
Context {R : Type} {H : Type} `{HeaderMap H} `{Hc : HeaderConv} {J C : Type} `{CookieJar J C} {St : Type}.
Context `{TimeCrate} `{MimeGuess} `{FileSystem} `{PercentEncoding} `{UriCrate}.
Notation Rq := (HttpRequest R H St).

Lemma relative_path_plain (rq : Rq) rel :
  relative_path rq = Ret (Some rel) -> Forall plain_component rel.
Proof.
  unfold relative_path. destruct (params_get _ _) as [tail|]; [|done].
  destruct (from_utf8 _) as [s|]; [|done]. cbn. intros Hr. injection Hr as Hr.
  destruct (from_param s) as [p|] eqn:Hp; simplify_eq. revert Hp.
  unfold from_param, PathBuf_from_param. apply from_param_loop_safe; [apply split_on_no_sep|done].
Qed.

(** The reader of an answer is that of the file opened. *)
Lemma respond_reader f (rq : Rq) r reader :
  file_respond_to (J := J) f rq = Ret (r, Some reader) ->
  reader = mkReadFile (md_len (nf_md f)) 0 (Some (nf_file f)) None.
Proof.
  assert (forall b, stream_file (J := J) f b = Ret (r, Some reader) ->
    reader = mkReadFile (md_len (nf_md f)) 0 (Some (nf_file f)) None) as Hs.
  { unfold stream_file. intros b. by intros ([[? ?] ?] & _ & [=])%run_bind_Ret. }
  unfold file_respond_to. destruct (negb _); [apply Hs|].
  destruct (_ && _ && _); [by intros ([[? ?] ?] & _ & [=])%run_bind_Ret|].
  intros (etag & _ & Hr)%run_bind_Ret. revert Hr.
  repeat (case_match; [by intros ([[? ?] ?] & _ & [=])%run_bind_Ret|]). apply Hs.
Qed.

(** C23. A directory serves nothing but itself: in a file system without links out of
    the directory, where the canonical form of a path below it is that path, what is
    streamed is the contents of a file whose path is the directory followed by plain
    names; and a directory that was not found when the handler was made serves
    nothing. *)
Theorem static_confined (s : StaticFiles) (rq : Rq) reply reader :
  (forall rel path, Forall plain_component rel ->
     fs_canonicalize (sf_directory s ++ rel) = Ok path -> path = sf_directory s ++ rel) ->
  static_handle (J := J) s rq = Ret (Ok (reply, Some reader)) ->
  sf_accessible s = true /\
  exists rel content md mtime, Forall plain_component rel /\
    fs_open (sf_directory s ++ rel) = Ok (content, md, mtime) /\
    reader = mkReadFile (md_len md) 0 (Some content) None.
Proof.
  intros Hlinks. unfold static_handle. destruct (sf_accessible s); [|done]. cbn [negb].
  intros (o & Ho & Hr)%run_bind_Ret. destruct o as [rel|]; [|done].
  pose proof (relative_path_plain rq rel Ho) as Hrel.
  destruct (fs_canonicalize _) as [path|] eqn:Hp; [|done]. apply Hlinks in Hp as ->; [|done].
  destruct (fs_is_dir _).
  - destruct (sf_index s); [by apply run_bind_Ret in Hr as ([[? ?] ?] & _ & [=])|].
    destruct (sf_show_index s); [|done]. by apply run_bind_Ret in Hr as ([|] & _ & [=]).
  - unfold NamedFile_open in Hr. destruct (fs_open _) as [[[content md] mtime]|] eqn:Hopen; [|done].
    apply run_bind_Ret in Hr as ([r o] & Hr & [=]). subst. split; [done|].
    exists rel, content, md, mtime. split_and!; [done..|]. by apply respond_reader in Hr.
Qed.

(** With an index file, the location of a redirect repeats the names that the path
    of the request already ends with. *)
Example redirect_repeats_path :
  redirect_location (b#"/static/sub") [b#"sub"] (b#"index.html") = b#"/static/subsub/index.html".
Proof. done. Qed.

End Confined.

(** ** Witnesses *)

(** Dates as numbers of seconds, and a small file system. *)
#[export] Instance seconds_time : TimeCrate.
Proof.
  refine {| rfc822 := fun t => format_decimal (Z.max 0 t.1);
            strptime := fun s => n ← parse_u64 s; Some (n, 0) |}.
  - intros [n ns] Hn. simpl in *. rewrite Z.max_r by lia. by rewrite parse_format_u64 by lia.
  - intros t. destruct (digits_shape (Z.max 0 t.1)) as (d & ds & -> & Hd); [lia|]. split; [|done].
    eapply Forall_impl; [exact Hd|]. intros b Hb. simpl in Hb. lia.
Defined.
#[export] Instance text_mime : MimeGuess := {| get_mime_type := fun _ => b#"text/plain" |}.
Lemma text_mime_value ext : forallb value_byte (get_mime_type ext) = true.
Proof. reflexivity. Qed.
Definition demo_md : Metadata := mkMd 5 4660.
#[export] Instance demo_fs : FileSystem :=
  {| fs_canonicalize := fun p => Ok p;
     fs_is_dir := fun p => bool_decide (p = [b#"srv"]);
     fs_open := fun p => if bool_decide (p = [b#"srv"; b#"a.txt"]) then Ok (b#"hello", demo_md, Some (1000, 0))
                         else Err (mkIoError (UnlistedKind 0) "NotFound");
     fs_read_dir := fun _ => Ok [] |}.

Notation demo_hs := (list (bytes * bytes)).
(** A request for a file below a route with a tail, with some headers. *)
Definition file_request (headers : demo_hs) (tail : bytes) : HttpRequest unit demo_hs unit :=
  mkReq {| msg_version := HTTP_11; msg_method := GET; msg_uri := b#"/static/" ++ tail;
    msg_headers := headers; msg_extensions := []; msg_params := [(b#"tail", tail)]; msg_cookies := None;
    msg_query := []; msg_query_loaded := false; msg_addr := None; msg_payload := None;
    msg_info := None; msg_resource := Notset |} None None.

Lemma visible_to_str (v : bytes) : Forall (fun b => 32 <= b < 127) v -> hv_to_str v = Some v.
Proof.
  intros Hv. cbn [hv_to_str alist_headers]. replace (visible_ascii v) with true; [done|].
  symmetry. apply forallb_forall. intros b Hb%list_elem_of_In. rewrite Forall_forall in Hv.
  specialize (Hv b Hb). simpl in Hv. lia.
Qed.

(** Half a second more, and the date is not enough. *)
Lemma file_revalidation_witness :
  let file ns := mkFile [b#"srv"; b#"a.txt"] (b#"hello") demo_md (Some (1000, ns)) false 200 in
  let rq := file_request [(IF_MODIFIED_SINCE, b#"1000")] (b#"a.txt") in
  (exists r, file_respond_to (Hc := ascii_conv) (J := list bytes) (file 0) rq = Ret (r, None) /\
     r_status r = 304) /\
  (exists r reader, file_respond_to (Hc := ascii_conv) (J := list bytes) (file 500000000) rq = Ret (r, Some reader)).
Proof.
  intros file rq.
  assert (only_condition IF_MODIFIED_SINCE (b#"1000") rq) as Hcond.
  { vm_compute. repeat constructor. }
  assert (rfc822 (1000, 0) = b#"1000") as Hd by reflexivity. split.
  - destruct (file_revalidation (Hc := ascii_conv) (J := list bytes) visible_to_str text_mime_value
      (file 0) (1000, 0) rq IF_MODIFIED_SINCE (b#"1000")) as (_ & _ & _ & _ & _ & Hm & _);
      [repeat split; simpl; lia|reflexivity|exact Hcond|].
    eexists. split; [exact (Hm eq_refl eq_refl)|reflexivity].
  - destruct (file_revalidation (Hc := ascii_conv) (J := list bytes) visible_to_str text_mime_value
      (file 500000000) (1000, 500000000) rq IF_MODIFIED_SINCE (b#"1000")) as (_ & _ & _ & _ & _ & Hm & _);
      [repeat split; simpl; lia|reflexivity|exact Hcond|].
    eexists _, _. exact (Hm eq_refl eq_refl).
Defined.

Lemma static_confined_witness :
  let s := StaticFiles_with_pool (R := unit) (H := demo_hs) (St := unit) [b#"srv"] in
  exists reply reader, static_handle (Hc := ascii_conv) (J := list bytes) s
      (file_request [] (b#"x/../a.txt")) = Ret (Ok (reply, Some reader)) /\
    exists rel, Forall plain_component rel /\ is_Some (cr_file reader).
Proof.
  intros s. destruct (static_handle (Hc := ascii_conv) (J := list bytes) s
    (file_request [] (b#"x/../a.txt"))) as [[[reply [reader|]]|]| |] eqn:Hs; try (by vm_compute in Hs).
  exists reply, reader. split; [reflexivity|].
  destruct (static_confined (Hc := ascii_conv) (J := list bytes) s (file_request [] (b#"x/../a.txt"))
    reply reader) as (_ & rel & content & md & mtime & Hrel & _ & ->); [|exact Hs|].
  - intros rel path _ [=]. by subst.
  - exists rel. split; [exact Hrel|]. by eexists.
Defined.

Lemma file_streamed_witness :
  let ps := repeat (mkPoolRead (Some 0%nat) 2 0) 6 in
  exists rs, read_polls ps (mkReadFile 5 0 (Some (b#"hello")) None) = Ret rs /\
    concat (chunks rs) = b#"hello".
Proof.
  destruct (file_streamed (b#"hello") (repeat (mkPoolRead (Some 0%nat) 2 0) 6)) as
    (rs & Hr & _ & _ & Hend & Hlive).
  { apply Forall_forall. intros p Hp. apply list_elem_of_In, repeat_spec in Hp as ->. split; simpl; lia. }
  exists rs. split; [exact Hr|]. apply Hend, Hlive; [|simpl; lia].
  apply Forall_forall. intros p Hp. by apply list_elem_of_In, repeat_spec in Hp as ->.
Defined.
