(* ===== verification/App.v ===== *)
(** * Applications (src/src/application.rs) and path normalization (src/src/helpers.rs)

    [App] is the builder, [HttpApplication] the handler it finishes into: it accepts the
    requests below its prefix, finds a resource through the router or a handler through
    its path prefix, and hands both to a pipeline.  Handlers are functions of the request
    ([RouteHandler]); the state of the application is opaque. *)
From S2P Require Import Prelude StrLib Errors Http Response Router RouterFacts Pipeline Route.
Open Scope Z_scope.

Definition TAIL : bytes := b#"tail".
Definition LOCATION : bytes := b#"location".

Section Apps.
Context {R : Type} `{Hre : RegexCrate R} {H : Type} `{Hhm : HeaderMap H} {St : Type}.
Context `{Huri : UriCrate} `{Hpct : PercentEncoding}.
Notation Rq := (HttpRequest R H St).
Notation Msg := (HttpInnerMessage H).
Notation Mw := (Middleware (H := H) (Rq := Rq)).
Notation RH := (ResourceHandler (R := R) (H := H) (St := St)).
Notation Handler := (RouteHandler (R := R) (H := H) (St := St)).

(** ** [Inner] and [HttpApplication] *)
Record AppInner : Type := mkInner {
  ai_prefix : Z;
  ai_default : RH;
  ai_encoding : ContentEncoding;
  ai_resources : list RH;
  ai_handlers : list (bytes * Handler);
}.
Record HttpApplication : Type := mkApplication {
  app_state : St;
  app_prefix : bytes;
  app_prefix_len : Z;
  app_router : Router R;
  app_inner : AppInner;
  app_middlewares : list Mw;
}.

(** [PipelineHandler for Inner]. *)
Definition inner_handle (inner : AppInner) (rq : Rq) (htype : HandlerType)
  : run (ResourceReply (R := R) (H := H) (St := St)) :=
  match htype with
  | HT_Normal idx =>
      r ← unwrap (ai_resources inner !! Z.to_nat idx);
      rh_handle r rq (Some (ai_default inner))
  | HT_Handler idx =>
      '(_, h) ← unwrap (ai_handlers inner !! Z.to_nat idx);
      Ret (RR_Reply (h rq))
  | HT_Default => rh_handle (ai_default inner) rq None
  end.

(** The test that [path] is [prefix] or continues it with a slash. *)
Definition prefix_test (prefix : bytes) (prefix_len : Z) (path : bytes) : run bool :=
  if starts_with prefix path then
    if lenZ path =? prefix_len then Ret true
    else rest ← slice_from prefix_len path; Ret (starts_with (b#"/") rest)
  else Ret false.

(** The loop of [get_handler] over the handlers. *)
Fixpoint handlers_loop (idx : Z) (handlers : list (bytes * Handler)) (inner_prefix : Z) (rq : Rq)
  : run (HandlerType * Rq) :=
  match handlers with
  | [] => Ret (HT_Default, rq)
  | (prefix, _) :: handlers =>
      path ← slice_from inner_prefix (req_path rq);
      m ← prefix_test prefix (lenZ prefix) path;
      if (m : bool) then
        path ← slice_from (inner_prefix + lenZ prefix) (req_path rq);
        if bool_decide (path = []) then Ret (HT_Handler idx, req_add_param TAIL [] rq)
        else
          rest ← slice_from 1 path;
          Ret (HT_Handler idx, req_add_param TAIL rest rq)
      else handlers_loop (idx + 1) handlers inner_prefix rq
  end.

Definition get_handler (app : HttpApplication) (rq : Rq) : run (HandlerType * Rq) :=
  '(o, rq) ← recognize (app_router app) rq;
  match o with
  | Some idx => Ret (HT_Normal idx, rq)
  | None => handlers_loop 0 (ai_handlers (app_inner app)) (ai_prefix (app_inner app)) rq
  end.

(** [HttpHandler::handle]: the request and the handler type that [Pipeline::new] gets,
    or the request back. *)
Definition application_handle (app : HttpApplication) (m : Msg)
  : run (result (Rq * HandlerType) Msg) :=
  ok ← prefix_test (app_prefix app) (app_prefix_len app) (uri_path (msg_uri m));
  if (ok : bool) then
    let rq := req_with_state m (app_state app) (app_router app) in
    '(tp, rq) ← get_handler app rq;
    Ret (Ok (rq, tp))
  else Ret (Err m).

(** ** The builder *)
Record ApplicationParts : Type := mkParts {
  ap_state : St;
  ap_prefix : bytes;
  ap_default : RH;
  ap_resources : list (Resource R * option RH);
  ap_handlers : list (bytes * Handler);
  ap_external : gmap bytes (Resource R);
  ap_encoding : ContentEncoding;
  ap_middlewares : list Mw;
}.
(** [App]: [None] once it is finished. *)
Definition App : Type := option ApplicationParts.

Definition App_with_state (state : St) : App :=
  Some (mkParts state (b#"/") ResourceHandler_default [] [] ∅ Enc_Auto []).

(** [expect("Use after finish")]. *)
Definition with_app_parts (f : ApplicationParts -> run ApplicationParts) (app : App) : run App :=
  parts ← unwrap app; parts ← f parts; Ret (Some parts).

Definition set_ap_prefix v p := mkParts (ap_state p) v (ap_default p) (ap_resources p) (ap_handlers p)
  (ap_external p) (ap_encoding p) (ap_middlewares p).
Definition set_ap_default v p := mkParts (ap_state p) (ap_prefix p) v (ap_resources p) (ap_handlers p)
  (ap_external p) (ap_encoding p) (ap_middlewares p).
Definition set_ap_resources v p := mkParts (ap_state p) (ap_prefix p) (ap_default p) v (ap_handlers p)
  (ap_external p) (ap_encoding p) (ap_middlewares p).
Definition set_ap_handlers v p := mkParts (ap_state p) (ap_prefix p) (ap_default p) (ap_resources p) v
  (ap_external p) (ap_encoding p) (ap_middlewares p).
Definition set_ap_external v p := mkParts (ap_state p) (ap_prefix p) (ap_default p) (ap_resources p)
  (ap_handlers p) v (ap_encoding p) (ap_middlewares p).
Definition set_ap_encoding v p := mkParts (ap_state p) (ap_prefix p) (ap_default p) (ap_resources p)
  (ap_handlers p) (ap_external p) v (ap_middlewares p).
Definition set_ap_middlewares v p := mkParts (ap_state p) (ap_prefix p) (ap_default p) (ap_resources p)
  (ap_handlers p) (ap_external p) (ap_encoding p) v.

Definition App_prefix (prefix : bytes) : App -> run App := with_app_parts (fun parts =>
  let prefix := if starts_with (b#"/") prefix then prefix else b#"/" ++ prefix in
  Ret (set_ap_prefix prefix parts)).

(** The search of [App::route]: the first resource with this pattern gets the route. *)
Fixpoint add_route (path : bytes) (route : Route) (rs : list (Resource R * option RH))
  : option (list (Resource R * option RH)) :=
  match rs with
  | [] => None
  | (pattern, Some handler) :: rs =>
      if decide (res_pattern pattern = path) then Some ((pattern, Some (rh_route route handler)) :: rs)
      else cons (pattern, Some handler) <$> add_route path route rs
  | (pattern, None) :: rs => cons (pattern, None) <$> add_route path route rs
  end.
Definition App_route (path method : bytes) (f : Handler) : App -> run App := with_app_parts (fun parts =>
  let route := mkRoute [pred_Method method] f in
  match add_route path route (ap_resources parts) with
  | Some rs => Ret (set_ap_resources rs parts)
  | None =>
      let handler := rh_route route ResourceHandler_default in
      pattern ← resource_new (rh_name handler) path;
      Ret (set_ap_resources (ap_resources parts ++ [(pattern, Some handler)]) parts)
  end).

Definition App_register_resource (path : bytes) (resource : RH) : App -> run App :=
  with_app_parts (fun parts =>
    pattern ← resource_new (rh_name resource) path;
    Ret (set_ap_resources (ap_resources parts ++ [(pattern, Some resource)]) parts)).
Definition App_resource (path : bytes) (f : RH -> RH) : App -> run App :=
  App_register_resource path (f ResourceHandler_default).
Definition App_default_resource (f : RH -> RH) : App -> run App := with_app_parts (fun parts =>
  Ret (set_ap_default (f (ap_default parts)) parts)).
Definition App_default_encoding (e : ContentEncoding) : App -> run App := with_app_parts (fun parts =>
  Ret (set_ap_encoding e parts)).
Definition App_external_resource (name url : bytes) : App -> run App := with_app_parts (fun parts =>
  match ap_external parts !! name with
  | Some _ => Panic
  | None => r ← resource_external name url; Ret (set_ap_external (<[name := r]> (ap_external parts)) parts)
  end).
Definition App_handler (path : bytes) (handler : Handler) : App -> run App := with_app_parts (fun parts =>
  let path := trim_right_matches 47 (trim path) in
  let path := if negb (bool_decide (path = [])) && negb (starts_with (b#"/") path)
              then b#"/" ++ path else path in
  Ret (set_ap_handlers (ap_handlers parts ++ [(path, handler)]) parts)).
Definition App_middleware (mw : Mw) : App -> run App := with_app_parts (fun parts =>
  Ret (set_ap_middlewares (ap_middlewares parts ++ [mw]) parts)).

(** [finish], over the order [externals] in which the map of external resources is
    iterated. *)
Definition App_finish (externals : list (bytes * Resource R)) (app : App) : run (HttpApplication * App) :=
  parts ← unwrap app;
  let prefix := trim_right_matches 47 (trim (ap_prefix parts)) in
  let '(prefix, prefix_len) := if bool_decide (prefix = []) then (b#"/", 0) else (prefix, lenZ prefix) in
  let resources := ap_resources parts ++ map (fun e => (e.2, None)) externals in
  let '(router, resources) := router_new prefix resources in
  let inner := mkInner prefix_len (ap_default parts) (ap_encoding parts) resources (ap_handlers parts) in
  Ret (mkApplication (ap_state parts) prefix prefix_len router inner (ap_middlewares parts), None).
End Apps.

(** ** Dispatch *)

(** [path] is [prefix] or lies below it. *)
Definition below (prefix path : bytes) : bool :=
  bool_decide (path = prefix) || starts_with (prefix ++ b#"/") path.

Lemma strip_left_idem c s : strip_left c (strip_left c s) = strip_left c s.
Proof.
  induction s as [|b s IH]; simpl; [done|]. destruct (b =? c) eqn:E; [done|]. simpl. by rewrite E.
Qed.
Lemma trim_right_idem c s : trim_right_matches c (trim_right_matches c s) = trim_right_matches c s.
Proof. unfold trim_right_matches. by rewrite rev_involutive, strip_left_idem. Qed.

Lemma dropZ_prefix (p s : bytes) : dropZ (lenZ p) (p ++ s) = s.
Proof. unfold dropZ, lenZ. by rewrite Nat2Z.id, drop_app_length. Qed.

Lemma prefix_test_spec prefix path : prefix_test prefix (lenZ prefix) path = Ret (below prefix path).
Proof.
  unfold prefix_test, below. destruct (starts_with prefix path) eqn:Hs.
  - apply starts_with_app in Hs as [s ->]. pose proof (lenZ_nonneg s). autorewrite with lenZ.
    destruct (Z.eqb_spec (lenZ prefix + lenZ s) (lenZ prefix)) as [He|He].
    + rewrite (lenZ_nil_inv s) by lia. by rewrite app_nil_r, bool_decide_eq_true_2.
    + rewrite slice_from_ok by (autorewrite with lenZ; lia). cbn [mbind run_bind].
      rewrite dropZ_prefix, bool_decide_eq_false_2.
      * f_equal. cbn [orb]. apply Bool.eq_iff_eq_true. rewrite !starts_with_app. split.
        -- intros [r ->]. exists r. by rewrite <-app_assoc.
        -- intros [r Hr]. rewrite <-app_assoc in Hr. apply app_inv_head in Hr. by exists r.
      * intros Hs. apply (f_equal lenZ) in Hs. autorewrite with lenZ in Hs. lia.
  - f_equal. symmetry. apply orb_false_iff. split.
    + apply bool_decide_eq_false_2. intros ->. rewrite (proj2 (starts_with_app _ _)) in Hs; [done|].
      exists []. by rewrite app_nil_r.
    + apply not_true_is_false. intros [r ->]%starts_with_app. rewrite <-app_assoc in Hs.
      by rewrite (proj2 (starts_with_app _ _)) in Hs by eauto.
Qed.

Lemma below_drop prefix path : below prefix path = true -> lenZ prefix <= lenZ path.
Proof.
  unfold below. intros [->%bool_decide_eq_true|[r ->]%starts_with_app]%orb_prop; [lia|].
  autorewrite with lenZ. pose proof (lenZ_nonneg r). pose proof (lenZ_nonneg (b#"/")). lia.
Qed.

Section Dispatch.
Context {R : Type} `{Hre : RegexCrate R} {H : Type} `{Hhm : HeaderMap H} {St : Type}.
Context `{Huri : UriCrate} `{Hpct : PercentEncoding}.
Notation Rq := (HttpRequest R H St).
Notation Msg := (HttpInnerMessage H).
Notation Application := (HttpApplication (R := R) (H := H) (St := St)).

(** Which handler a path gets, and the parameters it adds: [rest] is the path behind the
    prefix of the application, [p] the text that patterns are matched against. *)
Definition dispatch (app : Application) (rest p : bytes) : HandlerType * Params :=
  match list_find (fun r => is_match r p = true) (rt_patterns (app_router app)) with
  | Some (i, r) => (HT_Normal (Z.of_nat i), bound r p)
  | None =>
      match list_find (fun h => below h.1 rest = true) (ai_handlers (app_inner app)) with
      | Some (i, (prefix, _)) => (HT_Handler (Z.of_nat i), [(TAIL, dropZ (lenZ prefix + 1) rest)])
      | None => (HT_Default, [])
      end
  end.

Lemma handlers_loop_spec idx handlers n (rq : Rq) :
  0 <= n <= lenZ (req_path rq) ->
  handlers_loop idx handlers n rq =
  Ret (match list_find (fun h => below h.1 (dropZ n (req_path rq)) = true) handlers with
       | Some (i, (prefix, _)) =>
           (HT_Handler (idx + Z.of_nat i),
            req_add_param TAIL (dropZ (lenZ prefix + 1) (dropZ n (req_path rq))) rq)
       | None => (HT_Default, rq)
       end).
Proof.
  intros Hn. revert idx. induction handlers as [|[prefix h] handlers IH]; intros idx; [done|].
  cbn [handlers_loop list_find]. rewrite (slice_from_ok n) by lia. cbn [mbind run_bind].
  rewrite prefix_test_spec. cbn [mbind run_bind fst]. destruct (below prefix _) eqn:Hb.
  - pose proof (below_drop _ _ Hb) as Hl. rewrite lenZ_dropZ in Hl by lia.
    rewrite decide_True by done. pose proof (lenZ_nonneg prefix).
    rewrite slice_from_ok by lia. cbn [mbind run_bind].
    replace (dropZ (n + lenZ prefix) (req_path rq)) with (dropZ (lenZ prefix) (dropZ n (req_path rq)))
      by (apply dropZ_dropZ; lia).
    rewrite <-(dropZ_dropZ 1 (lenZ prefix)) by lia. rewrite Z.add_0_r.
    case_bool_decide as He; [by rewrite He|].
    rewrite slice_from_ok; [done|]. destruct (dropZ (lenZ prefix) _) as [|b l]; [done|].
    autorewrite with lenZ. pose proof (lenZ_nonneg l). lia.
  - rewrite decide_False by done. rewrite IH. destruct (list_find _ handlers) as [[i [p' h']]|]; simpl; [|done].
    by replace (idx + 1 + Z.of_nat i) with (idx + Z.of_nat (S i)) by lia.
Qed.

(** What [finish] makes of a prefix: applications below the root strip slashes. *)
Definition trimmed (prefix : bytes) : bytes := trim_right_matches 47 (trim prefix).

Lemma router_loop_length {T} map named patterns (resources : list T) :
  length patterns = length resources ->
  let '(_, patterns, resources) := router_loop (R := R) map named patterns resources in
  length patterns = length resources.
Proof.
  revert named patterns resources. induction map as [|[pattern [t|]] map IH]; intros named ps rs Hl; simpl;
    [done|apply IH; rewrite !length_app; simpl; lia|by apply IH].
Qed.

(** The parts of a finished application fit together. *)
Lemma finish_wf externals (parts : ApplicationParts (R := R) (H := H) (St := St)) app app' :
  App_finish externals (Some parts) = Ret (app, app') ->
  trim (trimmed (ap_prefix parts)) = trimmed (ap_prefix parts) ->
  app' = None /\ rt_prefix_len (app_router app) = lenZ (trimmed (ap_prefix parts)) /\
  ai_prefix (app_inner app) = lenZ (trimmed (ap_prefix parts)) /\
  length (rt_patterns (app_router app)) = length (ai_resources (app_inner app)) /\
  ai_handlers (app_inner app) = ap_handlers parts /\
  (forall path, prefix_test (app_prefix app) (app_prefix_len app) path =
     Ret (below (trimmed (ap_prefix parts)) path && negb (bool_decide (path = [])))).
Proof.
  unfold App_finish. intros Hf Ht. cbn [unwrap mbind run_bind] in Hf. cbv zeta in Hf.
  fold (trimmed (ap_prefix parts)) in Hf.
  set (P := trimmed (ap_prefix parts)) in *.
  set (rs := ap_resources parts ++ _) in Hf.
  pose proof (router_loop_length rs ∅ [] [] eq_refl) as Hlen.
  assert (trim_right_matches 47 P = P) as Hidem by apply trim_right_idem.
  unfold router_new in Hf. revert Hf Hlen. destruct (router_loop rs ∅ [] []) as [[named ps] hs].
  destruct (bool_decide (P = [])) eqn:HP; intros Hf Hlen; cbv beta iota zeta in Hf; injection Hf as <- <-; simpl.
  - apply bool_decide_eq_true in HP. rewrite HP. split_and!; try done. intros path.
    destruct path as [|b path]; [done|].
    assert (forall q : bytes, q = b :: path -> prefix_test (b#"/") 0 q = Ret (below [] q && negb (bool_decide (q = [])))) as Hq;
      [|by apply Hq].
    intros q Hq. unfold prefix_test, below. cbn [app].
    rewrite !bool_decide_eq_false_2 by (by subst). cbn [orb negb]. rewrite andb_true_r.
    destruct (starts_with (b#"/") q) eqn:Hs; [|done].
    destruct (Z.eqb_spec (lenZ q) 0) as [|]; [done|].
    rewrite slice_from_ok by (pose proof (lenZ_nonneg q); lia). cbn [mbind run_bind].
    by rewrite dropZ_0, Hs by lia.
  - apply bool_decide_eq_false in HP. rewrite Ht, Hidem. split_and!; try done. intros path.
    rewrite prefix_test_spec. f_equal. destruct (below P path) eqn:Hb; [|done].
    rewrite bool_decide_eq_false_2; [done|]. intros ->. apply below_drop in Hb.
    destruct P as [|b P']; [done|]. autorewrite with lenZ in Hb. pose proof (lenZ_nonneg P'). lia.
Qed.

(** The index of a handler type is in range. *)
Definition handler_exists (app : Application) (tp : HandlerType) : Prop :=
  match tp with
  | HT_Normal i => is_Some (ai_resources (app_inner app) !! Z.to_nat i)
  | HT_Handler i => is_Some (ai_handlers (app_inner app) !! Z.to_nat i)
  | HT_Default => True
  end.

Lemma dispatch_exists app rest p :
  length (rt_patterns (app_router app)) = length (ai_resources (app_inner app)) ->
  handler_exists app (dispatch app rest p).1.
Proof.
  intros Hl. unfold dispatch.
  destruct (list_find _ (rt_patterns (app_router app))) as [[i r]|] eqn:Hf; simpl.
  - apply list_find_Some in Hf as (Hi & _). apply lookup_lt_Some in Hi. rewrite Nat2Z.id.
    apply lookup_lt_is_Some. lia.
  - destruct (list_find _ (ai_handlers (app_inner app))) as [[i [q h]]|] eqn:Hh; simpl; [|done].
    apply list_find_Some in Hh as (Hi & _). rewrite Nat2Z.id. by exists (q, h).
Qed.

Lemma get_handler_spec (app : Application) (rq : Rq) p :
  Forall aligned (rt_patterns (app_router app)) ->
  rt_prefix_len (app_router app) = ai_prefix (app_inner app) ->
  0 <= ai_prefix (app_inner app) <= lenZ (req_path rq) ->
  from_utf8 (route_path (app_router app) rq) = Some p ->
  let d := dispatch app (dropZ (ai_prefix (app_inner app)) (req_path rq)) p in
  exists rq', get_handler app rq = Ret (d.1, rq') /\ req_match_info rq' = req_match_info rq ++ d.2 /\
    rq_state rq' = rq_state rq /\ rq_router rq' = rq_router rq.
Proof.
  intros Ha Hpre Hn Hp. unfold get_handler, dispatch.
  rewrite (recognize_spec _ _ p), recognize_loop_spec; eauto using from_utf8_idem; [|lia].
  destruct (list_find _ (rt_patterns (app_router app))) as [[i r]|]; cbn [mbind run_bind].
  - rewrite Z.add_0_l. eexists. split; [done|]. done.
  - rewrite handlers_loop_spec by done.
    destruct (list_find _ (ai_handlers (app_inner app))) as [[i [q h]]|].
    + rewrite Z.add_0_l. eexists. split; [done|]. done.
    + eexists. split; [done|]. cbn [snd]. by rewrite app_nil_r.
Qed.

(** C5. Requests reach the handler they are meant for: a finished application takes
    exactly the requests whose path is its prefix or lies below it (any path from the root
    for an application without prefix) and gives the others back unchanged.  A request it
    takes goes to the first registered resource that matches the rest of its path, else to
    the first handler whose prefix is a whole-segment prefix of the rest, which gets the
    remainder as [tail], else to the default resource; it gets exactly the parameters that
    this match binds, and the index of its handler is in range. *)
Theorem app_dispatch externals (parts : ApplicationParts (R := R) (H := H) (St := St)) app app' (m : Msg) :
  App_finish externals (Some parts) = Ret (app, app') ->
  trim (trimmed (ap_prefix parts)) = trimmed (ap_prefix parts) ->
  Forall aligned (rt_patterns (app_router app)) ->
  let prefix := trimmed (ap_prefix parts) in
  let path := uri_path (msg_uri m) in
  let rest := dropZ (lenZ prefix) path in
  let taken := below prefix path && negb (bool_decide (path = [])) in
  (taken = false -> application_handle app m = Ret (Err m)) /\
  (taken = true -> forall p,
     from_utf8 (percent_decode (if bool_decide (rest = []) then b#"/" else rest)) = Some p ->
     exists rq, application_handle app m = Ret (Ok (rq, (dispatch app rest p).1)) /\
       req_match_info rq = msg_params m ++ (dispatch app rest p).2 /\
       rq_state rq = Some (app_state app) /\ rq_router rq = Some (app_router app) /\
       handler_exists app (dispatch app rest p).1).
Proof.
  intros Hf Ht Ha prefix path rest taken.
  destruct (finish_wf externals parts app app' Hf Ht) as (_ & Hrp & Hip & Hlen & _ & Htest).
  unfold application_handle. fold path. rewrite Htest. fold prefix taken. cbn [mbind run_bind].
  split; intros Hk; rewrite Hk; [done|]. intros p Hp.
  set (rq := req_with_state m (app_state app) (app_router app)).
  assert (lenZ prefix <= lenZ path) as Hl by (apply below_drop; by apply andb_prop in Hk as [? _]).
  assert (route_path (app_router app) rq =
    percent_decode (if bool_decide (rest = []) then b#"/" else rest)) as Hroute.
  { unfold route_path. rewrite Hrp. done. }
  destruct (get_handler_spec app rq p Ha) as (rq' & Hg & Hi & Hs & Hr).
  - by rewrite Hrp, Hip.
  - rewrite Hip. split; [apply lenZ_nonneg|exact Hl].
  - by rewrite Hroute.
  - rewrite Hip in Hg, Hi. change (req_path rq) with path in Hg, Hi. fold prefix rest in Hg, Hi.
    rewrite Hg. cbn [mbind run_bind]. exists rq'. split; [done|]. split; [done|]. split; [done|].
    split; [done|]. by apply dispatch_exists.
Qed.
End Dispatch.

(** ** Path normalization (helpers.rs)

    [re_merge] is [Regex::replace_all] of ["//+"] by a slash. *)
Fixpoint merge_slashes (s : bytes) : bytes :=
  match s with
  | [] => []
  | b :: r =>
      match r with
      | c :: _ => if (b =? 47) && (c =? 47) then merge_slashes r else b :: merge_slashes r
      | [] => [b]
      end
  end.

Record NormalizePath : Type := mkNP {
  np_append : bool;
  np_merge : bool;
  np_redirect : Z;
  np_not_found : Z;
}.
Definition NormalizePath_default : NormalizePath := mkNP true true 301 404.
Definition NormalizePath_new (append merge : bool) (redirect : Z) : NormalizePath :=
  mkNP append merge redirect 404.

Section Normalize.
Context {R : Type} `{Hre : RegexCrate R} {H : Type} `{Hhm : HeaderMap H} {St : Type}.
Context `{Huri : UriCrate} `{Hconv : HeaderConv} {J C : Type} `{Hjar : CookieJar J C}.
Context (re_merge : bytes -> bytes).
Notation Rq := (HttpRequest R H St).
Notation Resp := (InnerHttpResponse H).

(** The path that [handle] redirects to, with its tests in order. *)
Definition normalize_target (self : NormalizePath) (router : Router R) (path : bytes) : option bytes :=
  let remove p := (* try to remove trailing slash *)
    if ends_with 47 p then
      let p := trim_right_matches 47 p in
      if has_route router p then Some p else None
    else None in
  let merged :=
    if np_merge self then
      let p := re_merge path in
      if negb (lenZ p =? lenZ path) then
        if has_route router p then Some p
        else if np_append self && negb (ends_with 47 p) && has_route router (p ++ b#"/")
        then Some (p ++ b#"/")
        else remove p
      else remove p
    else None in
  match merged with
  | Some p => Some p
  | None =>
      if np_append self && negb (ends_with 47 path) && has_route router (path ++ b#"/")
      then Some (path ++ b#"/")
      else None
  end.

(** [NormalizePath::handle], over the thread's pool of response heads. *)
Definition normalize_handle (self : NormalizePath) (rq : Rq) (tl : ResponsePool H)
  : run (Resp * ResponsePool H) :=
  match rq_router rq with
  | Some router =>
      match normalize_target self router (req_path rq) with
      | Some p =>
          let query := req_query_string rq in
          let p := if negb (bool_decide (query = [])) then p ++ b#"?" ++ query else p in
          let '(b, tl) := get_builder (J := J) tl (np_redirect self) in
          '(r, _, tl) ← rb_finish (rb_header LOCATION p b) tl;
          Ret (r, tl)
      | None => Ret (get_response tl (np_not_found self) Body_Empty)
      end
  | None => Ret (get_response tl (np_not_found self) Body_Empty)
  end.
End Normalize.

(** The names between slashes. *)
Definition segments (s : bytes) : list bytes := filter (fun w => w <> []) (split_on 47 s).

Lemma split_on_snoc c s : split_on c (s ++ [c]) = split_on c s ++ [[]].
Proof.
  induction s as [|b s IH]; simpl; [by rewrite Z.eqb_refl|]. destruct (b =? c); [by rewrite IH|].
  rewrite IH. pose proof (split_on_nonempty c s). by destruct (split_on c s).
Qed.
Lemma segments_snoc s : segments (s ++ b#"/") = segments s.
Proof.
  unfold segments. change (b#"/") with [47]. rewrite split_on_snoc, filter_app.
  change (filter (fun w : bytes => w <> []) [[]]) with (@nil bytes). by rewrite app_nil_r.
Qed.
Lemma trim_right_slashes s : exists n, s = trim_right_matches 47 s ++ repeat 47 n.
Proof.
  unfold trim_right_matches. assert (forall r, exists n, r = repeat 47 n ++ strip_left 47 r) as Hr.
  { induction r as [|b r [n IH]]; [by exists 0%nat|]. simpl. destruct (Z.eqb_spec b 47) as [->|].
    - exists (S n). simpl. by f_equal.
    - by exists 0%nat. }
  destruct (Hr (rev s)) as [n Hn]. exists n. rewrite <-(rev_involutive s) at 1. rewrite Hn at 1.
  rewrite rev_app_distr. f_equal. clear. induction n as [|n IH]; [done|]. simpl. rewrite IH.
  clear. induction n as [|n IH]; [done|]. simpl. by f_equal.
Qed.
Lemma segments_trim s : segments (trim_right_matches 47 s) = segments s.
Proof.
  destruct (trim_right_slashes s) as [n Hn]. rewrite Hn at 2. generalize (trim_right_matches 47 s). intros t.
  clear Hn. induction n as [|n IH]; [by rewrite app_nil_r|].
  replace (repeat 47 (S n)) with (repeat 47 n ++ b#"/"); [by rewrite app_assoc, segments_snoc|].
  clear. induction n as [|n IH]; [done|]. simpl. by f_equal.
Qed.

Lemma merge_split s : exists w ws ws', split_on 47 s = w :: ws /\ split_on 47 (merge_slashes s) = w :: ws' /\
  filter (fun w : bytes => w <> []) ws = filter (fun w => w <> []) ws'.
Proof.
  induction s as [|b s (w & ws & ws' & H1 & H2 & H3)]; [by exists [], [], []|].
  destruct s as [|c s]; [simpl; destruct (b =? 47); [by exists [], [[]], [[]]|by exists [b], [], []]|].
  cbn [merge_slashes] in *. destruct (Z.eqb_spec b 47) as [->|Hb]; cbn [andb].
  - destruct (Z.eqb_spec c 47) as [->|Hc].
    + exists [], (w :: ws), ws'. rewrite <-H3. split; [|split].
      * change (split_on 47 (47 :: 47 :: s)) with ([] :: split_on 47 (47 :: s)). by rewrite H1.
      * simpl in H1. simplify_eq. done.
      * simpl in H1. by simplify_eq.
    + exists [], (w :: ws), (w :: ws'). split; [|split].
      * change (split_on 47 (47 :: c :: s)) with ([] :: split_on 47 (c :: s)). by rewrite H1.
      * change (split_on 47 (47 :: ?x)) with ([] :: split_on 47 x). by rewrite H2.
      * rewrite !filter_cons. by destruct (decide (w <> [])); rewrite H3.
  - exists (b :: w), ws, ws'.
    assert (forall x y, split_on 47 x = w :: y -> split_on 47 (b :: x) = (b :: w) :: y) as Hs.
    { intros x y Hx. cbn [split_on]. rewrite (proj2 (Z.eqb_neq b 47)) by done. by rewrite Hx. }
    split_and!; [by apply Hs|by apply Hs|done].
Qed.
Lemma segments_merge s : segments (merge_slashes s) = segments s.
Proof.
  destruct (merge_split s) as (w & ws & ws' & H1 & H2 & H3). unfold segments. rewrite H1, H2, !filter_cons.
  by destruct (decide (w <> [])); rewrite H3.
Qed.

Lemma merge_length s : (length (merge_slashes s) <= length s)%nat /\
  (length (merge_slashes s) = length s -> merge_slashes s = s).
Proof.
  induction s as [|b s [IH1 IH2]]; [done|]. destruct s as [|c s]; [done|]. cbn [merge_slashes] in *.
  destruct ((b =? 47) && (c =? 47)); cbn [length] in *; split; intros; try lia.
  f_equal. apply IH2. lia.
Qed.
Lemma merge_head b s : exists r, merge_slashes (b :: s) = b :: r.
Proof.
  revert b. induction s as [|c s IH]; intros b; [by exists []|]. cbn [merge_slashes].
  destruct (Z.eqb_spec b 47) as [->|]; cbn [andb]; [|by eexists].
  destruct (Z.eqb_spec c 47) as [->|]; [apply IH|by eexists].
Qed.
Lemma merge_cons b s :
  (match s with c :: _ => (b =? 47) && (c =? 47) | [] => false end) = false ->
  merge_slashes (b :: s) = b :: merge_slashes s.
Proof. destruct s as [|c s]; [done|]. cbn [merge_slashes]. by intros ->. Qed.
Lemma merge_idem s : merge_slashes (merge_slashes s) = merge_slashes s.
Proof.
  induction s as [|b s IH]; [done|]. destruct s as [|c s]; [done|].
  destruct ((b =? 47) && (c =? 47)) eqn:Hbc.
  - cbn [merge_slashes]. by rewrite Hbc.
  - rewrite (merge_cons b (c :: s)) by done. destruct (merge_head c s) as [r Hr].
    rewrite merge_cons; [by rewrite IH|]. by rewrite Hr.
Qed.
Lemma ends_with_snoc c s b : ends_with c (s ++ [b]) = (b =? c).
Proof. unfold ends_with. rewrite last_snoc. destruct (Z.eqb_spec b c); case_bool_decide; naive_solver. Qed.
Lemma merge_snoc s : ends_with 47 s = false -> merge_slashes (s ++ b#"/") = merge_slashes s ++ b#"/".
Proof.
  induction s as [|b s IH]; [done|]. intros He. destruct s as [|c s].
  - simpl. change (ends_with 47 [b]) with (bool_decide (Some b = Some 47)) in He.
    apply bool_decide_eq_false in He. rewrite (proj2 (Z.eqb_neq b 47)) by congruence. done.
  - cbn [app]. assert (ends_with 47 (c :: s) = false) as He' by exact He. specialize (IH He').
    destruct ((b =? 47) && (c =? 47)) eqn:Hbc.
    + change (merge_slashes (b :: c :: s ++ b#"/")) with
        (if (b =? 47) && (c =? 47) then merge_slashes (c :: s ++ b#"/") else b :: merge_slashes (c :: s ++ b#"/")).
      change (merge_slashes (b :: c :: s)) with
        (if (b =? 47) && (c =? 47) then merge_slashes (c :: s) else b :: merge_slashes (c :: s)).
      by rewrite Hbc.
    + rewrite (merge_cons b (c :: s)), (merge_cons b (c :: s ++ _)) by done.
      cbn [app] in IH. by rewrite IH.
Qed.
Lemma trim_right_shorter s : ends_with 47 s = true -> lenZ (trim_right_matches 47 s) < lenZ s.
Proof.
  intros He. destruct s as [|b s _] using rev_ind; [done|]. rewrite ends_with_snoc in He.
  apply Z.eqb_eq in He as ->. unfold trim_right_matches. rewrite rev_app_distr. cbn [rev app strip_left].
  rewrite Z.eqb_refl. unfold lenZ. rewrite length_rev, length_app. simpl.
  assert (forall r, (length (strip_left 47 r) <= length r)%nat) as Hl.
  { induction r as [|c r IH]; simpl; [done|]. destruct (c =? 47); simpl; lia. }
  specialize (Hl (rev s)). rewrite length_rev in Hl. lia.
Qed.

Section NormalizeFacts.
Context {R : Type} `{Hre : RegexCrate R} {H : Type} `{Hhm : HeaderMap H} {St : Type}.
Context `{Huri : UriCrate} `{Hconv : HeaderConv} {J C : Type} `{Hjar : CookieJar J C}.
Context (re_merge : bytes -> bytes) (re_merge_ok : forall s, re_merge s = merge_slashes s).

Lemma normalize_target_some self (router : Router R) path p :
  normalize_target re_merge self router path = Some p ->
  has_route router p = true /\ segments p = segments path /\ p <> path.
Proof.
  unfold normalize_target. rewrite re_merge_ok. set (q := merge_slashes path).
  assert (segments q = segments path) as Hq by apply segments_merge.
  assert (lenZ q <= lenZ path) as Hql by (unfold lenZ; pose proof (merge_length path) as [? _]; subst q; lia).
  assert (forall t, (if ends_with 47 q then
      if has_route router (trim_right_matches 47 q) then Some (trim_right_matches 47 q) else None
      else None) = Some t -> has_route router t = true /\ segments t = segments path /\ t <> path) as Hrem.
  { intros t Ht. destruct (ends_with 47 q) eqn:He; [|done]. destruct (has_route _ _) eqn:Hr; [|done].
    simplify_eq. split; [done|]. split; [by rewrite segments_trim|]. intros Hp.
    pose proof (trim_right_shorter q He). rewrite Hp in *. lia. }
  assert (forall t, has_route router (t ++ b#"/") = true -> segments t = segments path -> t ++ b#"/" <> path ->
    has_route router (t ++ b#"/") = true /\ segments (t ++ b#"/") = segments path /\ t ++ b#"/" <> path) as Happ.
  { intros t H1 H2 H3. by rewrite segments_snoc. }
  destruct (np_merge self); [destruct (Z.eqb_spec (lenZ q) (lenZ path)) as [Hl|Hl]; cbn [negb]|].
  - destruct (if ends_with 47 q then _ else _) eqn:Hx; [intros ?; simplify_eq; by apply Hrem|].
    destruct (_ && has_route router (path ++ b#"/")) eqn:Ha; [|done]. intros ?; simplify_eq.
    apply andb_prop in Ha as [_ Ha]. apply Happ; [done|done|]. intros Hp%(f_equal lenZ).
    autorewrite with lenZ in Hp. simpl in Hp. unfold lenZ at 2 in Hp. simpl in Hp. lia.
  - destruct (has_route router q) eqn:Hr.
    { intros [= <-]. split_and!; [done|done|]. intros Hpe. destruct Hl. by rewrite Hpe. }
    destruct (np_append self && negb (ends_with 47 q) && has_route router (q ++ b#"/")) eqn:Ha.
    + intros ?; simplify_eq. apply andb_prop in Ha as [[_ Hn]%andb_prop Ha]. apply negb_true_iff in Hn.
      apply Happ; [done|done|]. intros Hp. pose proof (merge_snoc q Hn) as Hs. rewrite Hp in Hs.
      unfold q in Hs. rewrite merge_idem in Hs.
      apply (f_equal lenZ) in Hs.
      autorewrite with lenZ in Hs. unfold lenZ at 3 in Hs. simpl in Hs. lia.
    + destruct (if ends_with 47 q then _ else _) eqn:Hx; [intros ?; simplify_eq; by apply Hrem|].
      destruct (_ && has_route router (path ++ b#"/")) eqn:Hb; [|done]. intros ?; simplify_eq.
      apply andb_prop in Hb as [_ Hb]. apply Happ; [done|done|]. intros Hp%(f_equal lenZ).
      autorewrite with lenZ in Hp. unfold lenZ at 2 in Hp. simpl in Hp. lia.
  - destruct (_ && has_route router (path ++ b#"/")) eqn:Ha; [|done]. intros ?; simplify_eq.
    apply andb_prop in Ha as [_ Ha]. apply Happ; [done|done|]. intros Hp%(f_equal lenZ).
    autorewrite with lenZ in Hp. unfold lenZ at 2 in Hp. simpl in Hp. lia.
Qed.

Lemma normalize_target_none self (router : Router R) path :
  normalize_target re_merge self router path = None ->
  (np_merge self = true -> merge_slashes path <> path -> has_route router (merge_slashes path) = false) /\
  (np_merge self = true -> ends_with 47 (merge_slashes path) = true ->
   has_route router (trim_right_matches 47 (merge_slashes path)) = false) /\
  (np_append self = true -> ends_with 47 path = false -> has_route router (path ++ b#"/") = false).
Proof.
  unfold normalize_target. rewrite re_merge_ok. intros Hn.
  destruct (if np_merge self then _ else None) eqn:Hm; [done|].
  destruct (_ && has_route router (path ++ b#"/")) eqn:Ha; [done|]. clear Hn. split_and!.
  - intros Hmg Hne. rewrite Hmg in Hm. destruct (Z.eqb_spec (lenZ (merge_slashes path)) (lenZ path)) as [Hl|].
    { destruct Hne. apply (proj2 (merge_length path)). unfold lenZ in Hl. lia. }
    cbn [negb] in Hm. by destruct (has_route router (merge_slashes path)).
  - intros Hmg He. rewrite Hmg, He in Hm. destruct (negb (lenZ _ =? lenZ path)).
    + destruct (has_route router (merge_slashes path)); [done|].
      destruct (np_append self); cbn [negb andb] in Hm; by destruct (has_route router (trim_right_matches _ _)).
    + by destruct (has_route router (trim_right_matches _ _)).
  - intros Hap He. rewrite Hap, He in Ha. exact Ha.
Qed.

(** Path normalization redirects to a route and never in a circle: when the merged
    path, the path with a trailing slash or the path without one is a route and differs
    from the requested one, the answer is a redirect to the first of them, with the query
    kept, whose path has the same segments and is not the requested path; otherwise it is
    the not-found answer, and then none of these paths is a route. *)
Theorem normalize_path_correct self (rq : HttpRequest R H St) (router : Router R) :
  rq_router rq = Some router -> hn_try_from LOCATION = Some LOCATION ->
  exists r, normalize_handle (J := J) re_merge self rq [] = Ret (r, []) /\
    match normalize_target re_merge self router (req_path rq) with
    | Some p =>
        let location := p ++ (if bool_decide (req_query_string rq = []) then [] else b#"?" ++ req_query_string rq) in
        has_route router p = true /\ segments p = segments (req_path rq) /\ p <> req_path rq /\
        (forallb value_byte location = true ->
         r_status r = np_redirect self /\ hm_get LOCATION (r_headers r) = Some location)
    | None =>
        r_status r = np_not_found self /\
        (np_merge self = true -> merge_slashes (req_path rq) <> req_path rq ->
         has_route router (merge_slashes (req_path rq)) = false) /\
        (np_append self = true -> ends_with 47 (req_path rq) = false ->
         has_route router (req_path rq ++ b#"/") = false)
    end.
Proof.
  intros Hrt Hloc. unfold normalize_handle. rewrite Hrt.
  destruct (normalize_target re_merge self router (req_path rq)) as [p|] eqn:Ht.
  - pose proof (normalize_target_some _ _ _ _ Ht) as (Hr & Hs & Hne). cbn [get_builder].
    replace (if negb _ then p ++ b#"?" ++ req_query_string rq else p) with
      (p ++ (if bool_decide (req_query_string rq = []) then [] else b#"?" ++ req_query_string rq)).
    2: { destruct (bool_decide (req_query_string rq = [])); cbn [negb]; by rewrite ?app_nil_r. }
    cbv zeta. set (location := p ++ _). unfold rb_header. cbn [parts rb_err rb_response]. rewrite Hloc.
    destruct (hv_try_from location) as [v|] eqn:Hv.
    + eexists. split; [reflexivity|]. split_and!; [done|done|done|]. intros Hok.
      rewrite (hv_try_from_ok location Hok) in Hv. simplify_eq. simpl. split; [done|].
      rewrite hm_get_append, decide_True by done. by rewrite hm_get_empty.
    + eexists. split; [reflexivity|]. split_and!; [done|done|done|]. intros Hok.
      by rewrite (hv_try_from_ok location Hok) in Hv.
  - eexists. split; [reflexivity|]. split; [done|].
    destruct (normalize_target_none _ _ _ Ht) as (H1 & _ & H3). done.
Qed.
End NormalizeFacts.

(** ** Witnesses *)
Notation demo_hs := (list (bytes * bytes)).
Definition demo_parts : run (ApplicationParts (R := list part) (H := demo_hs) (St := unit)) :=
  a ← App_prefix (b#"app/") (App_with_state tt);
  a ← App_resource (b#"/index.html") id a;
  a ← App_resource (b#"/user/{name}/item/{id}") (rh_set_name (b#"item")) a;
  a ← App_handler (b#"static/") (fun _ => Reply_Message ok_response) a;
  unwrap a.
Definition demo_msg (uri : bytes) : HttpInnerMessage demo_hs :=
  rq_msg (demo_request (mkRouter [] 0 ∅ []) uri).

Lemma app_dispatch_witness :
  exists parts app rq, demo_parts = Ret parts /\ App_finish [] (Some parts) = Ret (app, None) /\
    application_handle app (demo_msg (b#"/app/static/x/y?z=1")) = Ret (Ok (rq, HT_Handler 0)) /\
    req_match_info rq = [(TAIL, b#"x/y")].
Proof.
  destruct demo_parts as [parts| |] eqn:Hd; [|by vm_compute in Hd..].
  destruct (App_finish [] (Some parts)) as [[app app']| |] eqn:Hf;
    [|vm_compute in Hd; injection Hd as <-; by vm_compute in Hf..].
  destruct (finish_wf [] parts app app' Hf) as (-> & _);
    [vm_compute in Hd; injection Hd as <-; by vm_compute|].
  destruct (app_dispatch [] parts app None (demo_msg (b#"/app/static/x/y?z=1")) Hf) as [_ Hk].
  - vm_compute in Hd; injection Hd as <-; by vm_compute.
  - vm_compute in Hd; injection Hd as <-; vm_compute in Hf; injection Hf as <-.
    repeat (apply Forall_cons_2; [by apply mini_aligned|]). apply Forall_nil_2.
  - destruct (Hk ltac:(vm_compute in Hd; injection Hd as <-; by vm_compute) (b#"/static/x/y")
      ltac:(vm_compute in Hd; injection Hd as <-; by vm_compute)) as (rq & Hh & Hi & _).
    exists parts, app, rq. split; [done|]. split; [done|]. rewrite Hh, Hi.
    vm_compute in Hd; injection Hd as <-; vm_compute in Hf; injection Hf as <-. done.
Defined.

Lemma normalize_path_correct_witness :
  exists rt r, demo_router = Ret rt /\
    normalize_handle (Hconv := ascii_conv) (J := list bytes) merge_slashes NormalizePath_default
      (demo_request rt (b#"//index.html/?a=b")) [] = Ret (r, []) /\
    r_status r = 301 /\ hm_get LOCATION (r_headers r) = Some (b#"/index.html?a=b").
Proof.
  destruct demo_router as [rt| |] eqn:Hd; [|by vm_compute in Hd..].
  destruct (normalize_path_correct (Hconv := ascii_conv) (J := list bytes) merge_slashes (fun _ => eq_refl)
    NormalizePath_default (demo_request rt (b#"//index.html/?a=b")) rt eq_refl eq_refl) as (r & Hr & Ht).
  exists rt, r. split; [done|]. split; [done|].
  vm_compute in Hd. injection Hd as <-.
  destruct (normalize_target merge_slashes NormalizePath_default _ _) as [p|] eqn:Hp;
    vm_compute in Hp; [|done]. injection Hp as <-. destruct Ht as (_ & _ & _ & Ht). by apply Ht.
Defined.
