(* ===== verification/CorsApp.v ===== *)
(** * CORS on resources and applications (src/src/middleware/cors.rs: [for_app],
    [CorsBuilder::resource], [finish], [register] and [Cors::register])

    [Middlewares] has the settings and the two handlers of a [Cors]; here it is put in
    front of resources, and the builder registers resources with an application.  A
    [Middleware] has no panics, so [cors_mw c mw] says that [mw] does what the handlers of
    [c] do where they return; when they panic is shown in [MiddlewareFacts]. *)
From S2P Require Import Prelude StrLib Errors Http Response Router RouterFacts Pipeline Route Middlewares MiddlewareFacts App.
Open Scope Z_scope.

Section CorsApp.
Context {R : Type} `{Hre : RegexCrate R} {H : Type} `{Hm : HeaderMap H} `{Hn : HttpNames} `{Ho : HashOrder} {St : Type}.
Context `{Huri : UriCrate} `{Hpct : PercentEncoding} {J C : Type} `{Hj : CookieJar J C}.
Notation Rq := (HttpRequest R H St).
Notation Resp := (InnerHttpResponse H).
Notation Mw := (Middleware (H := H) (Rq := Rq)).
Notation RH := (ResourceHandler (R := R) (H := H) (St := St)).
Notation App := (App (R := R) (H := H) (St := St)).

Definition cors_mw (c : CorsInner) (mw : Mw) : Prop :=
  (forall rq r, cors_start (C := C) c rq = Ret r -> mw_start mw rq = (r, rq)) /\
  (forall rq resp r, cors_response c rq resp = Ret r -> mw_response mw rq resp = (Ok (Resp_Done r), rq)).

(** [Cors::register]: a route for [OPTIONS], and the middleware. *)
Definition options_handler : Rq -> Resp := fun _ => InnerHttpResponse_new 200 Body_Empty.
Definition Cors_register (mw : Mw) (resource : RH) : RH :=
  rh_middleware mw (rh_method OPTIONS (route_h options_handler) resource).

(** The builder with the resources and the application it was given. *)
Record CorsAppBuilder : Type := mkCorsApp {
  ca_builder : CorsBuilder;
  ca_resources : list (bytes * RH);
  ca_app : option App;
}.
Definition Cors_for_app (app : App) : CorsAppBuilder := mkCorsApp Cors_build [] (Some app).
Definition ca_resource (path : bytes) (f : RH -> RH) (b : CorsAppBuilder) : CorsAppBuilder :=
  mkCorsApp (ca_builder b) (ca_resources b ++ [(path, f ResourceHandler_default)]) (ca_app b).
Definition ca_finish (b : CorsAppBuilder) : run (CorsInner * CorsAppBuilder) :=
  match ca_resources b with
  | [] => '(c, cb) ← construct (ca_builder b); Ret (c, mkCorsApp cb [] (ca_app b))
  | _ => Panic
  end.

(** [register], where [as_mw] makes the middleware of a [Cors]. *)
Fixpoint register_all (mw : Mw) (rs : list (bytes * RH)) (app : App) : run App :=
  match rs with
  | [] => Ret app
  | (path, resource) :: rs =>
      app ← App_register_resource path (Cors_register mw resource) app; register_all mw rs app
  end.
Definition ca_register (as_mw : CorsInner -> Mw) (b : CorsAppBuilder) : run (App * CorsAppBuilder) :=
  match ca_resources b with
  | [] => Panic
  | rs =>
      '(c, cb) ← construct (ca_builder b);
      app ← unwrap (ca_app b);
      app ← register_all (as_mw c) rs app;
      Ret (app, mkCorsApp cb [] None)
  end.

(** ** A resource with CORS *)

(** Predicates that leave the request as it is. *)
Definition pure_routes (routes : list (Route (R := R) (H := H) (St := St))) : Prop :=
  Forall (fun route => Forall (fun p => forall rq : Rq, (p rq).2 = rq) (route_preds route)) routes.

Lemma preds_check_pure ps (rq : Rq) : Forall (fun p => forall rq : Rq, (p rq).2 = rq) ps -> (preds_check ps rq).2 = rq.
Proof.
  intros Hps. induction Hps as [|p ps Hp _ IH]; [done|]. cbn [preds_check]. specialize (Hp rq).
  destruct (p rq) as [b rq']. cbn in Hp. subst rq'. by destruct b.
Qed.

(** The first accepting route, or the route for [OPTIONS], runs behind the middleware. *)
Lemma routes_composed routes mw (rq : Rq) :
  pure_routes routes ->
  exists o, list_find (fun route => (route_check route rq).1 = true) routes = o /\
  routes_handle routes [mw] rq =
    match o with
    | Some (_, route) => c ← Compose_new rq [mw] (route_handler route); Ret (inl (RR_Compose c))
    | None => Ret (inr rq)
    end.
Proof.
  intros Hp. eexists. split; [done|]. induction Hp as [|route routes Hr _ IH]; [done|].
  cbn [routes_handle list_find]. pose proof (preds_check_pure _ rq Hr) as Hq. unfold route_check in *.
  destruct (preds_check (route_preds route) rq) as [b rq']. cbn in Hq |- *. subst rq'. destruct b; cbn; [done|].
  rewrite IH. by destruct (list_find _ routes) as [[i x]|].
Qed.

Lemma options_routed resource mw (rq : Rq) :
  pure_routes (rh_routes (Cors_register mw resource)) -> msg_method (rq_msg rq) = OPTIONS ->
  exists h, routes_handle (rh_routes (Cors_register mw resource)) [mw] rq =
    (c ← Compose_new rq [mw] h; Ret (inl (RR_Compose c))).
Proof.
  intros Hp Hopt. destruct (routes_composed _ mw rq Hp) as (o & Ho' & ->).
  destruct o as [[i route]|]; [by exists (route_handler route)|].
  apply list_find_None in Ho'. apply Forall_app in Ho' as [_ Hl]. inversion_clear Hl as [|? ? Hx _].
  exfalso. apply Hx. cbn. unfold pred_Method. by rewrite bool_decide_true.
Qed.

(** The polls of a composition up to its answer, with the calls made by then. *)
Fixpoint answers_after (n : nat) (co : Compose (R := R) (H := H) (St := St)) (answer : Resp) (trace : list call) : Prop :=
  match n with
  | O => exists co', Compose_poll co = Ret (Ready answer, co') /\ ci_trace (co_info co') = trace
  | S n => exists co', Compose_poll co = Ret (NotReady, co') /\ answers_after n co' answer trace
  end.

(** One middleware: what the composition does with each answer of its [start]. *)
Definition composed (mw : Mw) h (rq : Rq) (n : nat) (answer : Resp) (trace : list call) : Prop :=
  exists co, Compose_new rq [mw] h = Ret co /\ answers_after n co answer trace.

Lemma composed_init (mw : Mw) h (rq : Rq) st info n p tr :
  compose_start_init_loop 2 (mkCI 0 rq [mw] h []) = Ret (st, info) -> answers_after n (mkCompose info st) p tr ->
  composed mw h rq n p tr.
Proof.
  intros Hi Ha. exists (mkCompose info st). split; [|done]. unfold Compose_new, compose_start_init.
  cbn [ci_mws length]. by rewrite Hi.
Qed.
Lemma answered_now info (p : Resp) : answers_after 0 (mkCompose info (CS_Response (Some p))) p (ci_trace info).
Proof. by eexists. Qed.

Lemma first_mw n (rq : Rq) (mw : Mw) h tr : ci_mw (mkCI n rq [mw] h tr) 0 = Ret mw.
Proof. done. Qed.

Lemma one_response (mw : Mw) h (rq : Rq) (p p' : Resp) n tr :
  mw_response mw rq p = (Ok (Resp_Done p'), rq) ->
  compose_run_init (mkCI n rq [mw] h tr) p = Ret (CS_Response (Some p'), mkCI n rq [mw] h (tr ++ [Call_response 0])).
Proof.
  intros Hr. unfold compose_run_init. cbn [ci_mws length compose_run_init_loop]. rewrite first_mw. cbn [mbind run_bind].
  unfold ci_response. cbn [ci_req]. by rewrite Hr.
Qed.

Ltac start_with Hs :=
  cbn [compose_start_init_loop ci_count ci_mws]; change (0 =? lenZ [_]) with false; cbv iota; rewrite first_mw;
  cbn [mbind run_bind]; unfold ci_start; cbn [ci_req]; rewrite Hs; cbn [set_ci_req ci_count ci_mws ci_handler ci_trace app].

Lemma compose_one_response (mw : Mw) h (rq : Rq) (p p' : Resp) :
  mw_start mw rq = (Ok (Started_Response p), rq) -> mw_response mw rq p = (Ok (Resp_Done p'), rq) ->
  composed mw h rq 0 p' [Call_start 0; Call_response 0].
Proof. intros Hs Hr. eapply composed_init; [start_with Hs; by apply one_response|]. apply (answered_now (mkCI _ _ _ _ _)). Qed.
Lemma compose_one_refused (mw : Mw) h (rq : Rq) e :
  mw_start mw rq = (Err e, rq) -> composed mw h rq 0 (error_response e) [Call_start 0].
Proof. intros Hs. eapply composed_init; [by start_with Hs|]. apply (answered_now (mkCI _ _ _ _ _)). Qed.

(** The reply of a handler has its result after [n] polls. *)
Definition replies (reply : ReplyItem (H := H)) (n : nat) (result : result Resp Error) : Prop :=
  match reply with
  | Reply_Message resp => n = 0%nat /\ result = Ok resp
  | Reply_Future fut => fut = mkFut (Some n) result
  end.
(** What the middleware makes of it: the response goes through its [response], an error
    is answered as it is. *)
Definition passed (mw : Mw) (rq : Rq) (result : result Resp Error) (p : Resp) (tr tr' : list call) : Prop :=
  match result with
  | Ok resp => mw_response mw rq resp = (Ok (Resp_Done p), rq) /\ tr' = tr ++ [Call_response 0]
  | Err e => p = error_response e /\ tr' = tr
  end.

Lemma handler_polled (mw : Mw) h (rq : Rq) n m result p tr tr' :
  passed mw rq result p tr tr' ->
  answers_after n (mkCompose (mkCI m rq [mw] h tr) (CS_Handler (mkFut (Some n) result))) p tr'.
Proof.
  intros Hp. induction n as [|n IH]; cbn [answers_after]; unfold Compose_poll;
    cbn [Compose_poll_loop co_state co_info compose_state_poll]; unfold compose_waiting_poll, fut_poll;
    cbn [fut_wait fut_result mbind run_bind].
  - destruct result as [resp|e]; destruct Hp as [Hp ->]; [|subst p; by eexists].
    rewrite (one_response _ _ _ _ _ _ _ Hp). cbn. by eexists.
  - by eexists.
Qed.
Lemma compose_one_handled (mw : Mw) h (rq : Rq) n result p tr' :
  mw_start mw rq = (Ok Started_Done, rq) -> replies (h rq) n result ->
  passed mw rq result p [Call_start 0; Call_handler] tr' -> composed mw h rq n p tr'.
Proof.
  intros Hs Hh Hp. unfold replies in Hh. destruct (h rq) as [resp|fut] eqn:Hr.
  - destruct Hh as [-> ->], Hp as [Hp ->]. eapply composed_init.
    + start_with Hs. unfold compose_call_handler. cbn. rewrite Hr. cbn [compose_waiting_init]. by apply (one_response mw h rq resp).
    + apply (answered_now (mkCI _ _ _ _ _)).
  - subst fut. eapply composed_init.
    + start_with Hs. unfold compose_call_handler. cbn. by rewrite Hr.
    + by apply (handler_polled mw h rq).
Qed.

(** The resources of an application that the builder registered are those it was given,
    each with the route for [OPTIONS] and the middleware. *)
Lemma register_all_resources mw rs parts app :
  register_all mw rs (Some parts) = Ret app ->
  exists ps, Forall2 (fun x y => resource_new (rh_name x.2) x.1 = Ret y.1 /\ y.2 = Some (Cors_register mw x.2)) rs ps /\
    app = Some (set_ap_resources (ap_resources parts ++ ps) parts).
Proof.
  revert parts. induction rs as [|[path r] rs IH]; intros parts; cbn [register_all].
  - intros [= <-]. exists []. split; [constructor|]. rewrite app_nil_r. by destruct parts.
  - unfold App_register_resource at 1, with_app_parts. cbn [unwrap mbind run_bind rh_name Cors_register rh_middleware rh_method rh_route].
    destruct (resource_new (rh_name r) path) as [pat| |] eqn:Hp; [|done..]. cbn [mbind run_bind].
    intros (ps & Hps & ->)%IH. exists ((pat, Some (Cors_register mw r)) :: ps). split; [by constructor|].
    destruct parts. unfold set_ap_resources. cbn. by rewrite <-app_assoc.
Qed.
(** What a resource answers, after [n] polls of its composition, with the calls made. *)
Definition answered (resource : RH) (rq : Rq) (dflt : option RH) (n : nat) (answer : Resp) (trace : list call) : Prop :=
  exists co, rh_handle resource rq dflt = Ret (RR_Compose co) /\ answers_after n co answer trace.

Lemma registered_answers mw resource (rq : Rq) dflt n answer trace h :
  rh_middlewares resource = [] ->
  routes_handle (rh_routes (Cors_register mw resource)) [mw] rq =
    (c ← Compose_new rq [mw] h; Ret (inl (RR_Compose c))) ->
  composed mw h rq n answer trace -> answered (Cors_register mw resource) rq dflt n answer trace.
Proof.
  intros Hmw Hr (co & Hn' & Ha). exists co. split; [|done].
  unfold rh_handle. replace (rh_middlewares (Cors_register mw resource)) with [mw] by (cbn; by rewrite Hmw).
  by rewrite Hr, Hn'.
Qed.
Lemma registered_pure mw resource : pure_routes (rh_routes resource) -> pure_routes (rh_routes (Cors_register mw resource)).
Proof. intros Hp. apply Forall_app. split; [done|]. by repeat constructor. Qed.

(** The answers of [start], by what is allowed. *)
Lemma preflight_refused c (rq : Rq) :
  is_preflight c rq = true -> ~ preflight_allowed c rq -> cors_start (C := C) c rq = Ret (Err (mkError 400)).
Proof.
  intros Hp. unfold cors_start. rewrite Hp, <-validate_preflight_spec.
  destruct (validate_preflight c rq) as [[]|e]; [naive_solver|]. by destruct e.
Qed.
Lemma preflight_granted c (rq : Rq) :
  cors_ok c -> is_preflight c rq = true -> preflight_allowed c rq ->
  match granted_origin c rq with
  | None => cors_start (C := C) c rq = Panic
  | Some o => exists hs ms, lists (c_methods c) ms /\
      (forall s, c_headers c = AS_Some s -> exists v, hs = Some v /\ lists s v) /\
      cors_start (C := C) c rq =
        Ret (Ok (Started_Response (preflight_head (format_decimal <$> c_max_age c) hs (Some o) (granted_credentials c) (Some ms))))
  end.
Proof.
  intros Hok Hp Ha. assert (c_methods c <> ∅) as Hne.
  { destruct Ha as (_ & (v & m & m' & _ & _ & _ & Hin) & _). set_solver. }
  unfold cors_start. rewrite Hp. apply validate_preflight_spec in Ha. rewrite Ha.
  pose proof (preflight_response_ok (C := C) c rq Hok Hne) as Hr.
  destruct (granted_origin c rq) as [o|]; [|by rewrite Hr]. destruct Hr as (hs & ms & Hl & Hh & ->).
  by exists hs, ms.
Qed.
Lemma no_origin c (rq : Rq) :
  (is_all (c_origins c) = false -> is_Some (c_origins_str c)) -> granted_origin c rq = None ->
  c_origins c = AS_All /\ c_send_wildcard c = false /\ hm_get ORIGIN (rq_headers rq) = None.
Proof.
  intros Hos. unfold granted_origin. destruct (c_origins c); [by destruct (c_send_wildcard c)|].
  cbn in *. intros Hn'. destruct (Hos eq_refl). congruence.
Qed.
Lemma other_started c (rq : Rq) :
  is_preflight c rq = false ->
  (origin_allowed c rq -> cors_start (C := C) c rq = Ret (Ok Started_Done)) /\
  (~ origin_allowed c rq -> cors_start (C := C) c rq = Ret (Err (mkError 400))).
Proof.
  intros Hp. unfold cors_start. rewrite Hp, <-validate_origin_spec. split; [by intros ->|].
  destruct (validate_origin c rq) as [[]|e]; [naive_solver|]. by destruct e.
Qed.
Lemma preflight_head_vary age hs o cr ms :
  hm_get VARY (r_headers (preflight_head (H := H) age hs o cr ms)) = None.
Proof. unfold preflight_head. rewrite !get_add_header_if. cbn [InnerHttpResponse_new r_headers]. apply hm_get_empty. Qed.
Lemma preflight_head_status age hs o cr ms : r_status (preflight_head (H := H) age hs o cr ms) = 200.
Proof. by destruct age, hs, o, cr, ms. Qed.
(** What the answer to an allowed preflight request carries. *)
Definition grants (c : CorsInner) (o : bytes) (answer : Resp) : Prop :=
  let get k := hm_get k (r_headers answer) in
  r_status answer = 200 /\ get ACCESS_CONTROL_ALLOW_ORIGIN = Some o /\
  (exists ms, get ACCESS_CONTROL_ALLOW_METHODS = Some ms /\ lists (c_methods c) ms) /\
  (forall s, c_headers c = AS_Some s -> exists hs, get ACCESS_CONTROL_ALLOW_HEADERS = Some hs /\ lists s hs) /\
  get ACCESS_CONTROL_ALLOW_CREDENTIALS = granted_credentials c /\
  get ACCESS_CONTROL_MAX_AGE = format_decimal <$> c_max_age c.

Lemma preflight_grants c (rq : Rq) hs o ms :
  granted_origin c rq = Some o -> lists (c_methods c) ms ->
  (forall s, c_headers c = AS_Some s -> exists v, hs = Some v /\ lists s v) ->
  grants c o (shared_head c rq (preflight_head (format_decimal <$> c_max_age c) hs (Some o) (granted_credentials c) (Some ms))).
Proof.
  intros Ho' Hl Hh. set (p := preflight_head _ _ _ _ _).
  assert (hm_get ACCESS_CONTROL_ALLOW_METHODS (r_headers p) = Some ms /\
    hm_get ACCESS_CONTROL_ALLOW_CREDENTIALS (r_headers p) = granted_credentials c /\ hm_get ACCESS_CONTROL_ALLOW_ORIGIN (r_headers p) = Some o /\
    hm_get ACCESS_CONTROL_ALLOW_HEADERS (r_headers p) = hs /\ hm_get ACCESS_CONTROL_MAX_AGE (r_headers p) = format_decimal <$> c_max_age c)
    as (Hm1 & Hm2 & Hm3 & Hm4 & Hm5) by apply preflight_head_get.
  split; [by rewrite shared_head_status; apply preflight_head_status|]. unfold shared_head.
  split_and!; [|exists ms; split; [|done]|intros s Hs; destruct (Hh s Hs) as (v & -> & Hv); exists v; split; [|done]| |];
    rewrite !get_set_header_if; cbn [decide]; try done.
  - by rewrite Ho'.
  - change (match granted_credentials c with Some v => Some v | None => hm_get ACCESS_CONTROL_ALLOW_CREDENTIALS (r_headers p) end =
      granted_credentials c). rewrite Hm2. by destruct (granted_credentials c).
Qed.

(** C31. A resource behind CORS: once a resource that has no other middleware is registered
    with a configuration that the builder made, a preflight request is answered by the
    configuration alone and no handler is called: with 400 when it is not allowed, and else
    with exactly the configured methods, headers, age and credentials and the granted
    origin; only when every origin is allowed, no wildcard is sent and the request has no
    [Origin] is there none to grant, and then [start] panics.  Any other request whose
    origin is not allowed is refused with 400 and no handler is called.  One whose origin
    is allowed goes to the first accepting route: the response of the handler, at once or
    after any number of polls, is answered with the headers of the configuration added, and
    its error is answered without them.  A request that no route accepts goes to the
    default resource, past CORS. *)
Theorem cors_registered (b : CorsBuilder) (c : CorsInner) (b' : CorsBuilder) (mw : Mw) (resource : RH) (rq : Rq) (dflt : option RH) :
  built b -> construct b = Ret (c, b') -> cors_mw c mw -> pure_routes (rh_routes resource) -> rh_middlewares resource = [] ->
  let registered := Cors_register mw resource in
  (is_preflight c rq = true ->
    (~ preflight_allowed c rq -> answered registered rq dflt 0 (error_response (mkError 400)) [Call_start 0]) /\
    (preflight_allowed c rq ->
      match granted_origin c rq with
      | Some o => exists answer, answered registered rq dflt 0 answer [Call_start 0; Call_response 0] /\ grants c o answer
      | None => cors_start (C := C) c rq = Panic /\
          c_origins c = AS_All /\ c_send_wildcard c = false /\ hm_get ORIGIN (rq_headers rq) = None
      end)) /\
  (is_preflight c rq = false ->
    match list_find (fun route => (route_check route rq).1 = true) (rh_routes registered) with
    | Some (_, route) =>
        (~ origin_allowed c rq -> answered registered rq dflt 0 (error_response (mkError 400)) [Call_start 0]) /\
        (origin_allowed c rq -> forall n result, replies (route_handler route rq) n result ->
          match result with
          | Ok resp => (forall v, hm_get VARY (r_headers resp) = Some v -> forallb value_byte v = true) ->
              answered registered rq dflt n (shared_head c rq resp) [Call_start 0; Call_handler; Call_response 0]
          | Err e => answered registered rq dflt n (error_response e) [Call_start 0; Call_handler]
          end)
    | None => rh_handle registered rq dflt =
        match dflt with Some r => rh_handle_alone r rq | None => Ret (RR_Reply (Reply_Message not_found_response)) end
    end).
Proof.
  intros Hb Hc [Hms Hmr] Hp%(registered_pure mw) Hmw registered. subst registered. destruct (construct_ok _ _ _ Hb Hc) as [Hok Hos]. split.
  - intros Hpre. assert (msg_method (rq_msg rq) = OPTIONS) as Hopt.
    { unfold is_preflight in Hpre. by apply andb_true_iff in Hpre as [_ ?%bool_decide_eq_true]. }
    destruct (options_routed resource mw rq Hp Hopt) as [h Hr]. split.
    + intros Hno. eapply registered_answers; [done|exact Hr|]. by apply compose_one_refused, Hms, preflight_refused.
    + intros Ha. pose proof (preflight_granted c rq Hok Hpre Ha) as Hs. destruct (granted_origin c rq) as [o|] eqn:Hgo.
      * destruct Hs as (hs & ms & Hl & Hh & Hs). eexists. split; [|by eapply preflight_grants].
        eapply registered_answers; [done|exact Hr|]. eapply compose_one_response; [by apply Hms|].
        apply Hmr, cors_response_ok; [done..|]. by rewrite preflight_head_vary.
      * split; [done|]. by apply no_origin.
  - intros Hpre. destruct (other_started c rq Hpre) as [Hyes Hno].
    destruct (routes_composed _ mw rq Hp) as (o & Ho' & Hr). rewrite Ho'. destruct o as [[i route]|].
    + split; [intros Hn'; eapply registered_answers; [done|exact Hr|]; by apply compose_one_refused, Hms, Hno|].
      intros Ha n result Hrep. specialize (Hms _ _ (Hyes Ha)). destruct result as [resp|e]; [intros Hv|];
        (eapply registered_answers; [done|exact Hr|]); (eapply compose_one_handled; [done|done|]); [|done].
      split; [|done]. by apply Hmr, cors_response_ok.
    + unfold rh_handle. replace (rh_middlewares (Cors_register mw resource)) with [mw] by (cbn; by rewrite Hmw). by rewrite Hr.
Qed.
End CorsApp.

(** ** A resource with one route for GET *)
Section Demo.
#[local] Existing Instances ascii_conv mini_names.
Notation Hs := (list (bytes * bytes)).
Notation Rq := (HttpRequest unit Hs unit).

(** The middleware of [demo_cors]. *)
Definition demo_cors_mw : Middleware (H := Hs) (Rq := Rq) :=
  mkMw (fun rq => (match cors_start (C := bytes) demo_cors rq with Ret r => r | _ => Ok Started_Done end, rq))
    (fun rq resp => (match cors_response demo_cors rq resp with Ret r => Ok (Resp_Done r) | _ => Ok (Resp_Done resp) end, rq))
    (mw_finish Middleware_default).
Lemma demo_cors_mw_runs : cors_mw (C := bytes) demo_cors demo_cors_mw.
Proof. split; [by intros rq r Hr; simpl; rewrite Hr|by intros rq resp r Hr; simpl; rewrite Hr]. Qed.

(** A resource that answers in the third poll, with a [Vary] of its own. *)
Definition hello : InnerHttpResponse Hs :=
  set_header VARY (b#"Accept") (InnerHttpResponse_new 200 (Body_Binary (Bin_Slice (b#"hello")))).
Definition hello_resource : ResourceHandler (R := unit) (H := Hs) (St := unit) :=
  rh_route (mkRoute [pred_Method GET] (fun _ => Reply_Future (mkFut (Some 2%nat) (Ok hello)))) ResourceHandler_default.
Definition get_rq : Rq := demo_rq GET [(ORIGIN, site)].
Definition foreign_rq : Rq := demo_rq GET [(ORIGIN, b#"http://evil")].

Lemma cors_registered_witness :
  let registered := Cors_register demo_cors_mw hello_resource in
  (exists answer, answered registered preflight_rq None 0 answer [Call_start 0; Call_response 0] /\ grants demo_cors site answer) /\
  answered registered foreign_rq None 0 (error_response (mkError 400)) [Call_start 0] /\
  answered registered get_rq None 2 (shared_head demo_cors get_rq hello) [Call_start 0; Call_handler; Call_response 0].
Proof.
  destruct demo_construct as [b' Hc].
  assert (pure_routes (rh_routes hello_resource)) as Hp by by repeat constructor.
  split_and!.
  - destruct (cors_registered (C := bytes) demo_builder demo_cors b' demo_cors_mw hello_resource preflight_rq None
      demo_built Hc demo_cors_mw_runs Hp eq_refl) as [Hpre _].
    destruct (Hpre ltac:(vm_compute; reflexivity)) as [_ Hyes].
    assert (validate_preflight demo_cors preflight_rq = Ok tt) as Hok by (vm_compute; reflexivity).
    apply (Hyes (proj1 (validate_preflight_spec _ _) Hok)).
  - destruct (cors_registered (C := bytes) demo_builder demo_cors b' demo_cors_mw hello_resource foreign_rq None
      demo_built Hc demo_cors_mw_runs Hp eq_refl) as [_ Hget].
    destruct (Hget ltac:(vm_compute; reflexivity)) as [Hno _]. apply Hno.
    rewrite <-validate_origin_spec. by vm_compute.
  - destruct (cors_registered (C := bytes) demo_builder demo_cors b' demo_cors_mw hello_resource get_rq None
      demo_built Hc demo_cors_mw_runs Hp eq_refl) as [_ Hget].
    destruct (Hget ltac:(vm_compute; reflexivity)) as [_ Hyes].
    assert (validate_origin demo_cors get_rq = Ok tt) as Hok by (vm_compute; reflexivity).
    apply (Hyes (proj1 (validate_origin_spec _ _) Hok) 2%nat (Ok hello)); [done|].
    intros v Hv. vm_compute in Hv. injection Hv as <-. by vm_compute.
Defined.
End Demo.
