(* ===== verification/H1Reader.v ===== *)
(** * Reading requests (src/src/server/h1.rs [Reader], src/src/server/utils.rs,
      [PayloadType] of src/src/server/encoding.rs)

    The request head is parsed by the external [httparse]; the body is delimited by
    the headers and fed, decoded, into the request's payload as the socket delivers
    it.  The socket is known by the answers it gives to successive reads. *)
From S2P Require Import Prelude StrLib Errors Http Payload Decoder.
Open Scope Z_scope.

Definition H1_MAX_BUFFER_SIZE : Z := 131072.

(** ** The socket *)

(** The outcome of successive [read] calls; [Ok []] is the end of the stream, and a
    script that has run out blocks. *)
Definition socket : Type := list (result bytes IoError).

(** [read_from_io]: the bytes read are appended to the buffer. *)
Definition read_from_io (io : socket) (buf : bytes) : poll Z IoError * socket * bytes :=
  match io with
  | [] => (NotReady, [], buf)
  | Ok data :: io => (Ready (lenZ data), io, buf ++ data)
  | Err e :: io =>
      if decide (io_kind e = WouldBlock) then (NotReady, io, buf) else (PErr e, io, buf)
  end.

(** ** The trait [PayloadWriter] *)
Class PayloadWriter (W : Type) := {
  pw_set_error : PayloadError -> W -> W;
  pw_feed_eof : W -> W;
  pw_feed_data : bytes -> W -> W;
  pw_need_read : W -> PayloadStatus * W;
}.

(** ** External parsers

    [httparse] answers a complete head with its length, or asks for more; the [http]
    crate checks methods, targets and header names. *)
Record ParsedHead : Type := mkHead {
  head_len : Z;
  head_method : bytes;
  head_path : bytes;
  head_version : Z;
  head_headers : list (bytes * bytes);
}.

Class HttpParsers := {
  httparse : bytes -> result (option ParsedHead) HttparseError;
  method_from_bytes : bytes -> option bytes;
  uri_try_from : bytes -> result bytes nat;
  header_name_from_bytes : bytes -> option bytes;
  httparse_len buf h : httparse buf = Ok (Some h) -> 0 < head_len h <= lenZ buf;
}.

Inductive ReaderError : Type :=
| RE_Disconnect | RE_Payload | RE_PayloadDropped | RE_Error (e : ParseError).

Inductive Decoding : Type := Decoding_Ready | Decoding_NotReady.

Section Reading.
Context {H : Type} `{HeaderMap H} {W : Type} `{PayloadWriter W} `{HttpParsers}.
(** [PayloadType::new] over a new channel: the sender's side of the payload. *)
Context (new_tx : H -> W).
Notation Msg := (HttpInnerMessage H).
Notation Pool := (MessagePool H).

Record PayloadInfo : Type := mkPayloadInfo { pi_tx : W; pi_decoder : Kind }.
Record Reader : Type := mkReader { rd_payload : option PayloadInfo }.
Definition Reader_new : Reader := mkReader None.

Definition set_tx (tx : W) (p : PayloadInfo) : PayloadInfo := mkPayloadInfo tx (pi_decoder p).

(** [Reader::need_read]. *)
Definition reader_need_read (r : Reader) : PayloadStatus * Reader :=
  match rd_payload r with
  | Some info =>
      let '(st, tx) := pw_need_read (pi_tx info) in (st, mkReader (Some (set_tx tx info)))
  | None => (PS_Read, r)
  end.

(** [Reader::decode]: feed what is in the buffer. *)
Fixpoint reader_decode (fuel : nat) (buf : bytes) (p : PayloadInfo)
  : run (result Decoding ReaderError * bytes * PayloadInfo) :=
  match fuel with
  | O => Timeout
  | S fuel =>
      match buf with
      | [] => Ret (Ok Decoding_NotReady, buf, p)
      | _ =>
          '(r, decoder, buf) ← decode (pi_decoder p) buf;
          match r with
          | Ready (Some data) =>
              let tx := pw_feed_data data (pi_tx p) in
              if Decoder_is_eof decoder then
                Ret (Ok Decoding_Ready, buf, mkPayloadInfo (pw_feed_eof tx) decoder)
              else reader_decode fuel buf (mkPayloadInfo tx decoder)
          | Ready None =>
              Ret (Ok Decoding_Ready, buf, mkPayloadInfo (pw_feed_eof (pi_tx p)) decoder)
          | NotReady => Ret (Ok Decoding_NotReady, buf, mkPayloadInfo (pi_tx p) decoder)
          | PErr err =>
              Ret (Err RE_Payload, buf,
                   mkPayloadInfo (pw_set_error (PayloadError_from_io err) (pi_tx p)) decoder)
          end
      end
  end.

(** The headers of a parsed head, appended in order; [None] for an illegal name.
    Beside the map: whether [Transfer-Encoding], [Content-Length] and [Upgrade] are
    among them. *)
Fixpoint convert_headers (hs : list (bytes * bytes)) (te length_ upgrade_ : bool) (m : H)
  : option (H * bool * bool * bool) :=
  match hs with
  | [] => Some (m, te, length_, upgrade_)
  | (name, value) :: hs =>
      match header_name_from_bytes name with
      | Some name =>
          convert_headers hs (te || bool_decide (name = TRANSFER_ENCODING))
            (length_ || bool_decide (name = CONTENT_LENGTH))
            (upgrade_ || bool_decide (name = UPGRADE)) (hm_append name value m)
      | None => None
      end
  end.

(** [https://tools.ietf.org/html/rfc7230#section-3.3.3]. *)
Definition select_decoder (has_te has_length has_upgrade : bool) (msg : Msg)
  : result (option Kind) ParseError :=
  match (if has_te then chunked (msg_headers msg) else Ok false) with
  | Err e => Err e
  | Ok true => Ok (Some Decoder_chunked)
  | Ok false =>
      if has_length then
        match (len ← hm_get CONTENT_LENGTH (msg_headers msg); hv_to_str len) with
        | Some s => match parse_u64 s with
                    | Some len => Ok (Some (Decoder_length len))
                    | None => Err ParseE_Header
                    end
        | None => Err ParseE_Header
        end
      else if has_upgrade || bool_decide (msg_method msg = CONNECT) then Ok (Some Decoder_eof)
      else Ok None
  end.

(** [Reader::parse_message]: the request, the decoder of its body, and what is left of
    the buffer and of the pool.  A request that is given up drops the only reference to
    its head, which goes back to the pool (its headers are cleared there). *)
Definition parse_message (buf : bytes) (pool : Pool)
  : poll (Msg * option PayloadInfo) ParseError * bytes * Pool :=
  match httparse buf with
  | Err e => (PErr (ParseError_from_httparse e), buf, pool)
  | Ok None => (NotReady, buf, pool)
  | Ok (Some h) =>
      match method_from_bytes (head_method h) with
      | None => (PErr ParseE_Method, buf, pool)
      | Some method =>
          match uri_try_from (head_path h) with
          | Err code => (PErr (ParseE_Uri code), buf, pool)
          | Ok path =>
              let version := if head_version h =? 1 then HTTP_11 else HTTP_10 in
              let buf := dropZ (head_len h) buf in
              let '(msg, pool) := pool_get pool in
              (* convert headers *)
              match convert_headers (head_headers h) false false false (msg_headers msg) with
              | None => (PErr ParseE_Header, buf, shared_message_drop true 1 msg pool)
              | Some (headers, has_te, has_length, has_upgrade) =>
                  let msg := {| msg_version := version; msg_method := method; msg_uri := path;
                                msg_headers := headers; msg_extensions := msg_extensions msg;
                                msg_params := msg_params msg; msg_cookies := msg_cookies msg;
                                msg_query := msg_query msg; msg_query_loaded := msg_query_loaded msg;
                                msg_addr := msg_addr msg; msg_payload := msg_payload msg;
                                msg_info := msg_info msg; msg_resource := msg_resource msg |} in
                  match select_decoder has_te has_length has_upgrade msg with
                  | Err e => (PErr e, buf, shared_message_drop true 1 msg pool)
                  | Ok (Some decoder) =>
                      let info := mkPayloadInfo (new_tx (msg_headers msg)) decoder in
                      let msg := {| msg_version := msg_version msg; msg_method := msg_method msg;
                                    msg_uri := msg_uri msg; msg_headers := msg_headers msg;
                                    msg_extensions := msg_extensions msg;
                                    msg_params := msg_params msg; msg_cookies := msg_cookies msg;
                                    msg_query := msg_query msg;
                                    msg_query_loaded := msg_query_loaded msg;
                                    msg_addr := msg_addr msg; msg_payload := Some 0%nat;
                                    msg_info := msg_info msg; msg_resource := msg_resource msg |} in
                      (Ready (msg, Some info), buf, pool)
                  | Ok None => (Ready (msg, None), buf, pool)
                  end
              end
          end
      end
  end.

(** The inner loop of the payload part of [Reader::parse]: decode until the decoder
    needs more ([Decoding_NotReady]), the body is complete, or it fails. *)
Fixpoint decode_loop (fuel : nat) (buf : bytes) (p : PayloadInfo)
  : run (result Decoding ReaderError * bytes * PayloadInfo) :=
  match fuel with
  | O => Timeout
  | S fuel =>
      '(r, decoder, buf) ← decode (pi_decoder p) buf;
      match r with
      | Ready (Some data) =>
          let tx := pw_feed_data data (pi_tx p) in
          if Decoder_is_eof decoder then
            Ret (Ok Decoding_Ready, buf, mkPayloadInfo (pw_feed_eof tx) decoder)
          else decode_loop fuel buf (mkPayloadInfo tx decoder)
      | Ready None =>
          Ret (Ok Decoding_Ready, buf, mkPayloadInfo (pw_feed_eof (pi_tx p)) decoder)
      | NotReady => Ret (Ok Decoding_NotReady, buf, mkPayloadInfo (pi_tx p) decoder)
      | PErr err =>
          Ret (Err RE_Payload, buf,
               mkPayloadInfo (pw_set_error (PayloadError_from_io err) (pi_tx p)) decoder)
      end
  end.

(** The loop ['buf]: [Ok true] when the payload is done, [Ok false] to wait. *)
Fixpoint payload_loop (fuel : nat) (io : socket) (buf : bytes) (p : PayloadInfo)
  : run (result bool ReaderError * socket * bytes * PayloadInfo) :=
  match fuel with
  | O => Timeout
  | S fuel =>
      let '(r, io, buf) := read_from_io io buf in
      let decode_more not_ready :=
        '(d, buf, p) ← decode_loop (S (length buf)) buf p;
        match d with
        | Err e => Ret (Err e, io, buf, p)
        | Ok Decoding_Ready => Ret (Ok true, io, buf, p)
        | Ok Decoding_NotReady =>
            (* if buffer is full then socket still can contain more data *)
            if (not_ready : bool) then Ret (Ok false, io, buf, p) else payload_loop fuel io buf p
        end in
      match r with
      (* http channel should not deal with payload errors *)
      | Ready 0 => Ret (Err RE_Payload, io, buf, set_tx (pw_set_error PE_Incomplete (pi_tx p)) p)
      | PErr err =>
          Ret (Err RE_Payload, io, buf, set_tx (pw_set_error (PayloadError_from_io err) (pi_tx p)) p)
      | NotReady => decode_more true
      | Ready _ => decode_more false
      end
  end.

Definition reader_out : Type := poll Msg ReaderError * Reader * socket * bytes * Pool.

(** The loop over [parse_message]. *)
Fixpoint message_loop (fuel : nat) (self : Reader) (io : socket) (buf : bytes) (pool : Pool)
  : run reader_out :=
  match fuel with
  | O => Timeout
  | S fuel =>
      match parse_message buf pool with
      | (PErr e, buf, pool) => Ret (PErr (RE_Error e), self, io, buf, pool)
      | (Ready (msg, None), buf, pool) => Ret (Ready msg, self, io, buf, pool)
      | (Ready (msg, Some payload), buf, pool) =>
          (* process payload *)
          '(d, buf, payload) ← reader_decode (S (length buf)) buf payload;
          match d with
          | Err e => Ret (PErr e, self, io, buf, shared_message_drop true 1 msg pool)
          | Ok Decoding_Ready => Ret (Ready msg, self, io, buf, pool)
          | Ok Decoding_NotReady => Ret (Ready msg, mkReader (Some payload), io, buf, pool)
          end
      | (NotReady, buf, pool) =>
          if H1_MAX_BUFFER_SIZE <=? lenZ buf then
            Ret (PErr (RE_Error ParseE_TooLarge), self, io, buf, pool)
          else
            let '(r, io, buf) := read_from_io io buf in
            match r with
            | Ready 0 => Ret (PErr RE_Disconnect, self, io, buf, pool)
            | Ready _ => message_loop fuel self io buf pool
            | NotReady => Ret (NotReady, self, io, buf, pool)
            | PErr e => Ret (PErr (RE_Error (ParseError_from_io e)), self, io, buf, pool)
            end
      end
  end.

(** [Reader::parse] behind the payload of the previous request. *)
Definition parse_head (self : Reader) (io : socket) (buf : bytes) (pool : Pool) : run reader_out :=
  (* if buf is empty parse_message will always return NotReady, let's avoid that *)
  match buf with
  | [] =>
      let '(r, io, buf) := read_from_io io buf in
      match r with
      | Ready 0 => Ret (PErr RE_Disconnect, self, io, buf, pool)
      | Ready _ => message_loop (S (length io)) self io buf pool
      | NotReady => Ret (NotReady, self, io, buf, pool)
      | PErr e => Ret (PErr (RE_Error (ParseError_from_io e)), self, io, buf, pool)
      end
  | _ => message_loop (S (length io)) self io buf pool
  end.

Definition reader_parse (self : Reader) (io : socket) (buf : bytes) (pool : Pool) : run reader_out :=
  let '(status, self) := reader_need_read self in
  match status with
  | PS_Pause => Ret (NotReady, self, io, buf, pool)
  | PS_Dropped => Ret (PErr RE_PayloadDropped, self, io, buf, pool)
  | PS_Read =>
      (* read payload *)
      match rd_payload self with
      | None => parse_head self io buf pool
      | Some payload =>
          '(done, io, buf, payload) ← payload_loop (S (length io)) io buf payload;
          match done with
          | Err e => Ret (PErr e, mkReader (Some payload), io, buf, pool)
          | Ok false => Ret (NotReady, mkReader (Some payload), io, buf, pool)
          | Ok true => parse_head (mkReader None) io buf pool
          end
      end
  end.

(** ** Which decoder a request gets *)

(** The decision in terms of the header map and method alone. *)
Definition framing (headers : H) (method : bytes) : result (option Kind) ParseError :=
  match chunked headers with
  | Err e => Err e
  | Ok true => Ok (Some Decoder_chunked)
  | Ok false =>
      match hm_get CONTENT_LENGTH headers with
      | Some len =>
          match (s ← hv_to_str len; parse_u64 s) with
          | Some len => Ok (Some (Decoder_length len))
          | None => Err ParseE_Header
          end
      | None =>
          if hm_contains UPGRADE headers || bool_decide (method = CONNECT)
          then Ok (Some Decoder_eof) else Ok None
      end
  end.

Lemma hm_contains_append k v m k' :
  hm_contains k' (hm_append k v m) = hm_contains k' m || bool_decide (k = k').
Proof.
  rewrite !hm_contains_get, hm_get_append. case_decide as Hk.
  - rewrite (bool_decide_true (k = k')), orb_true_r by done. apply bool_decide_true. eauto.
  - by rewrite (bool_decide_false (k = k')), orb_false_r by done.
Qed.

Lemma convert_headers_flags hs te l u m m' te' l' u' :
  te = hm_contains TRANSFER_ENCODING m -> l = hm_contains CONTENT_LENGTH m ->
  u = hm_contains UPGRADE m -> convert_headers hs te l u m = Some (m', te', l', u') ->
  te' = hm_contains TRANSFER_ENCODING m' /\ l' = hm_contains CONTENT_LENGTH m' /\
  u' = hm_contains UPGRADE m'.
Proof.
  revert te l u m. induction hs as [|[k v] hs IH]; intros te l u m -> -> -> Hc; simpl in Hc; [naive_solver|].
  destruct (header_name_from_bytes k) as [name|]; [|done].
  eapply IH; [| | |exact Hc]; by rewrite hm_contains_append.
Qed.

Lemma select_decoder_framing msg :
  select_decoder (hm_contains TRANSFER_ENCODING (msg_headers msg))
    (hm_contains CONTENT_LENGTH (msg_headers msg)) (hm_contains UPGRADE (msg_headers msg)) msg =
  framing (msg_headers msg) (msg_method msg).
Proof.
  unfold select_decoder, framing. rewrite (hm_contains_get TRANSFER_ENCODING), (hm_contains_get CONTENT_LENGTH).
  assert ((if bool_decide (is_Some (hm_get TRANSFER_ENCODING (msg_headers msg)))
           then chunked (msg_headers msg) else Ok false) = chunked (msg_headers msg)) as ->.
  { unfold chunked. by destruct (hm_get TRANSFER_ENCODING (msg_headers msg)). }
  destruct (chunked (msg_headers msg)) as [[]|e]; try done.
  destruct (hm_get CONTENT_LENGTH (msg_headers msg)) as [v|]; simpl; [|done].
  by destruct (hv_to_str v).
Qed.

Lemma framing_wf headers method k : framing headers method = Ok (Some k) -> kind_wf k.
Proof.
  unfold framing. destruct (chunked headers) as [[]|e]; intros Hf; simplify_eq; [by split|].
  destruct (hm_get CONTENT_LENGTH headers) as [v|].
  - destruct (s ← hv_to_str v; parse_u64 s) as [len|] eqn:Hl; simplify_eq. simpl.
    destruct (hv_to_str v) as [s|]; [|done]. simpl in Hl.
    apply parse_u64_bounds in Hl. lia.
  - destruct (_ || _); by simplify_eq.
Qed.

Definition pool_clean (pool : Pool) : Prop := Forall msg_clean pool.

Lemma dropped_clean pooled strong msg pool : pool_clean pool -> pool_clean (shared_message_drop pooled strong msg pool).
Proof.
  intros Hp. unfold shared_message_drop, pool_release. destruct (_ && _); [|done]. destruct (_ <? _)%nat; [|done].
  by constructor.
Qed.

Lemma parse_message_ready buf pool msg info buf' pool' :
  pool_clean pool -> parse_message buf pool = (Ready (msg, info), buf', pool') ->
  pool_clean pool' /\
  (exists h, httparse buf = Ok (Some h) /\ buf' = dropZ (head_len h) buf) /\
  framing (msg_headers msg) (msg_method msg) = Ok (pi_decoder <$> info) /\
  (forall p, info = Some p -> kind_wf (pi_decoder p)).
Proof.
  intros Hpool Hp. unfold parse_message in Hp.
  destruct (httparse buf) as [[h|]|e] eqn:Hh; [|done..].
  destruct (method_from_bytes (head_method h)) as [method|]; [|done].
  destruct (uri_try_from (head_path h)) as [path|code]; [|done].
  destruct (pool_get pool) as [m p] eqn:Hg.
  assert (pool_clean p /\ msg_headers m = hm_empty) as [Hp' Hm].
  { destruct pool as [|m0 p0]; simpl in Hg; simplify_eq; [done|]. inversion Hpool as [|? ? Hc]; subst.
    split; [done|]. by rewrite Hc. }
  destruct (convert_headers _ _ _ _ _) as [[[[hdrs te] l] u]|] eqn:Hc; [|done].
  assert (forall k, hm_contains k (msg_headers m) = false) as Hempty.
  { intros k. rewrite Hm, hm_contains_get, hm_get_empty. apply bool_decide_false. by intros []. }
  apply convert_headers_flags in Hc as (-> & -> & ->); [|by rewrite Hempty..].
  match type of Hp with context [select_decoder _ _ _ ?m0] => set (msg0 := m0) in Hp end.
  change (hdrs) with (msg_headers msg0) in Hp. rewrite select_decoder_framing in Hp.
  destruct (framing (msg_headers msg0) (msg_method msg0)) as [[k|]|e] eqn:Hf; simplify_eq.
  - split_and!; [done|by eexists|exact Hf|]. intros ? [= <-]. by eapply framing_wf.
  - split_and!; [done|by eexists|exact Hf|]. done.
Qed.

(** ** The body that is delivered *)
Definition feeds (tx : W) (pieces : list bytes) : W := foldl (fun tx d => pw_feed_data d tx) tx pieces.

(** What a decoding loop answers when the reference decoder gives [s]. *)
Definition fed (tx : W) (s : bytes * outcome * Kind * bytes)
    (out : result Decoding ReaderError * bytes * PayloadInfo) : Prop :=
  let '(data, o, k, rest) := s in
  exists pieces, concat pieces = data /\
  out = match o with
        | More => (Ok Decoding_NotReady, rest, mkPayloadInfo (feeds tx pieces) k)
        | Done => (Ok Decoding_Ready, rest, mkPayloadInfo (pw_feed_eof (feeds tx pieces)) k)
        | Failed e => (Err RE_Payload, rest,
                       mkPayloadInfo (pw_set_error (PayloadError_from_io e) (feeds tx pieces)) k)
        end.

Lemma fed_cons tx d s out :
  fed (pw_feed_data d tx) s out ->
  fed tx (let '(data, o, k, rest) := s in (d ++ data, o, k, rest)) out.
Proof.
  destruct s as [[[data o] k] rest]. intros (pieces & <- & ->). by exists (d :: pieces).
Qed.

Lemma decode_loop_spec fuel buf p :
  kind_wf (pi_decoder p) -> (length buf < fuel)%nat ->
  exists out, decode_loop fuel buf p = Ret out /\ fed (pi_tx p) (body_spec (pi_decoder p) buf) out.
Proof.
  revert buf p. induction fuel as [|fuel IH]; intros buf [tx k] Hwf Hf; [lia|].
  cbn [decode_loop pi_decoder pi_tx] in *.
  destruct (decode_sound_ok k buf Hwf) as ([[r k'] buf'] & -> & Hs). cbn [mbind run_bind].
  unfold decode_sound in Hs. destruct r as [[data|]| |e].
  - destruct Hs as (Hwf' & Hlt & Hs). destruct (Decoder_is_eof k').
    + eexists. split; [done|]. rewrite Hs. exists [data]. simpl. by rewrite app_nil_r.
    + destruct (IH buf' (mkPayloadInfo (pw_feed_data data tx) k')) as (out & -> & Hout); [done|lia|].
      exists out. split; [done|]. rewrite Hs. by apply fed_cons.
  - eexists. split; [done|]. rewrite Hs. by exists [].
  - eexists. split; [done|]. rewrite Hs. by exists [].
  - eexists. split; [done|]. rewrite Hs. by exists [].
Qed.

Lemma reader_decode_spec fuel buf p :
  kind_wf (pi_decoder p) -> (length buf < fuel)%nat -> buf <> [] ->
  exists out, reader_decode fuel buf p = Ret out /\ fed (pi_tx p) (body_spec (pi_decoder p) buf) out.
Proof.
  revert buf p. induction fuel as [|fuel IH]; intros buf [tx k] Hwf Hf Hne; [lia|].
  cbn [reader_decode pi_decoder pi_tx] in *. destruct buf as [|b buf]; [done|].
  destruct (decode_sound_ok k (b :: buf) Hwf) as ([[r k'] buf'] & -> & Hs). cbn [mbind run_bind].
  unfold decode_sound in Hs. destruct r as [[data|]| |e].
  - destruct Hs as (Hwf' & Hlt & Hs). destruct (Decoder_is_eof k') eqn:He.
    + eexists. split; [done|]. rewrite Hs. exists [data]. simpl. by rewrite app_nil_r.
    + destruct buf' as [|b' buf'].
      * destruct fuel as [|fuel]; [simpl in Hf; lia|]. cbn [reader_decode].
        eexists. split; [done|]. rewrite Hs.
        assert (body_spec k' [] = ([], More, k', [])) as ->.
        { destruct k' as [[|n|n]|[]|[]]; try done; simpl in *; try lia. }
        exists [data]. simpl. by rewrite app_nil_r.
      * destruct (IH (b' :: buf') (mkPayloadInfo (pw_feed_data data tx) k')) as (out & -> & Hout);
          [done|lia|done|].
        exists out. split; [done|]. rewrite Hs. by apply fed_cons.
  - eexists. split; [done|]. rewrite Hs. by exists [].
  - eexists. split; [done|]. rewrite Hs. by exists [].
  - eexists. split; [done|]. rewrite Hs. by exists [].
Qed.


Lemma fed_wf tx k buf r rest p :
  kind_wf k -> fed tx (body_spec k buf) (r, rest, p) ->
  kind_wf (pi_decoder p) /\ (r = Ok Decoding_NotReady -> rest = []).
Proof.
  intros Hwf. destruct (body_spec k buf) as [[[d o] k'] rest'] eqn:Hs. intros (pieces & _ & Hout).
  pose proof (body_spec_wf _ _ _ _ _ _ Hwf Hs) as Hwf'. destruct o; simplify_eq; split; try done.
  intros _. by destruct (body_spec_more _ _ _ _ _ Hwf Hs).
Qed.

(** The body as a socket delivers it. *)
Lemma payload_loop_spec ds buf p :
  Forall (fun d => d <> []) ds -> kind_wf (pi_decoder p) ->
  exists n pieces o k rest, (n <= length ds)%nat /\
    body_spec (pi_decoder p) (buf ++ concat (take n ds)) = (concat pieces, o, k, rest) /\
    (o = More -> n = length ds) /\
    payload_loop (S (length ds)) (map Ok ds) buf p =
    Ret (match o with
         | More => (Ok false, [], rest, mkPayloadInfo (feeds (pi_tx p) pieces) k)
         | Done => (Ok true, map Ok (drop n ds), rest,
                    mkPayloadInfo (pw_feed_eof (feeds (pi_tx p) pieces)) k)
         | Failed e => (Err RE_Payload, map Ok (drop n ds), rest,
                        mkPayloadInfo (pw_set_error (PayloadError_from_io e) (feeds (pi_tx p) pieces)) k)
         end).
Proof.
  intros Hds. revert buf p. induction Hds as [|d ds Hd Hds IH]; intros buf p Hwf.
  - destruct (decode_loop_spec (S (length buf)) buf p Hwf) as (out & Hout & Hfed); [lia|].
    exists 0%nat. simpl. rewrite app_nil_r.
    destruct (body_spec (pi_decoder p) buf) as [[[data o] k] rest].
    destruct Hfed as (pieces & <- & ->). exists pieces, o, k, rest.
    split_and!; [lia|done|done|]. cbn [decode_loop] in Hout. rewrite Hout. by destruct o.
  - cbn [length map]. remember (S (length ds)) as fuel eqn:Efuel. cbn [payload_loop read_from_io].
    destruct (decode_loop_spec (S (length (buf ++ d))) (buf ++ d) p Hwf) as (out & Hout & Hfed); [lia|].
    destruct (body_spec (pi_decoder p) (buf ++ d)) as [[[data o] k] rest] eqn:Hs.
    destruct Hfed as (pieces & <- & ->).
    destruct (lenZ d) as [|len|len] eqn:Hlen.
    { destruct d; [done|]. rewrite lenZ_cons in Hlen. pose proof (lenZ_nonneg d). lia. }
    2: { pose proof (lenZ_nonneg d). lia. }
    rewrite Hout. subst fuel. destruct o; cbn [mbind run_bind].
    + destruct (body_spec_more _ _ _ _ _ Hwf Hs) as (-> & Hwf' & _).
      destruct (IH [] (mkPayloadInfo (feeds (pi_tx p) pieces) k) Hwf')
        as (n & pieces' & o & k' & rest & Hn & Hspec & Hmore & ->).
      exists (S n), (pieces ++ pieces'), o, k', rest. cbn [pi_decoder pi_tx] in *.
      split_and!; [simpl; lia| |simpl; intros; by rewrite Hmore|].
      * cbn [take concat]. rewrite app_assoc, (body_spec_app _ _ _ _ _ _ _ Hwf Hs).
        simpl in Hspec. rewrite Hspec, concat_app. done.
      * unfold feeds. rewrite foldl_app. by destruct o.
    + exists 1%nat, pieces, Done, k, rest. simpl. rewrite app_nil_r. split_and!; [lia|done|done|done].
    + exists 1%nat, pieces, (Failed e), k, rest. simpl. rewrite app_nil_r. split_and!; [lia|done|done|done].
Qed.

Lemma payload_loop_total fuel io buf p :
  kind_wf (pi_decoder p) -> (length io < fuel)%nat ->
  exists r io' buf' p', payload_loop fuel io buf p = Ret (r, io', buf', p') /\ kind_wf (pi_decoder p').
Proof.
  revert io buf p. induction fuel as [|fuel IH]; intros io buf p Hwf Hf; [lia|].
  cbn [payload_loop]. destruct (read_from_io io buf) as [[r io'] buf'] eqn:Hr.
  assert (forall not_ready, (not_ready = false -> (length io' < fuel)%nat) ->
    exists r io2 buf2 p2,
      ('(d, buf, p) ← decode_loop (S (length buf')) buf' p;
       match d with
       | Err e => Ret (Err e, io', buf, p)
       | Ok Decoding_Ready => Ret (Ok true, io', buf, p)
       | Ok Decoding_NotReady =>
           if (not_ready : bool) then Ret (Ok false, io', buf, p) else payload_loop fuel io' buf p
       end) = Ret (r, io2, buf2, p2) /\ kind_wf (pi_decoder p2)) as Hmore.
  { intros nr Hnr. destruct (decode_loop_spec (S (length buf')) buf' p Hwf) as ([[d b2] p2] & -> & Hfed); [lia|].
    apply fed_wf in Hfed as [Hwf2 _]; [|done]. simpl. destruct d as [[]|e]; eauto 6.
    destruct nr; [eauto 6|]. apply IH; auto. }
  destruct r as [[|len|len]| |e].
  - eauto 8.
  - apply (Hmore false). intros _. unfold read_from_io in Hr. destruct io as [|[]]; simplify_eq/=; [lia|].
    case_decide; simplify_eq.
  - apply (Hmore false). intros _. unfold read_from_io in Hr. destruct io as [|[]]; simplify_eq/=; [lia|].
    case_decide; simplify_eq.
  - by apply (Hmore true).
  - eauto 8.
Qed.

Definition reader_wf (r : Reader) : Prop := forall p, rd_payload r = Some p -> kind_wf (pi_decoder p).

Lemma parse_message_pool buf pool r buf' pool' :
  pool_clean pool -> parse_message buf pool = (r, buf', pool') ->
  pool_clean pool' /\ (r = NotReady -> buf' = buf).
Proof.
  intros Hpool Hp. unfold parse_message in Hp.
  destruct (httparse buf) as [[h|]|e]; simplify_eq; try done.
  destruct (method_from_bytes (head_method h)) as [method|]; simplify_eq; try done.
  destruct (uri_try_from (head_path h)) as [path|code]; simplify_eq; try done.
  destruct (pool_get pool) as [m p] eqn:Hg. assert (pool_clean p) as Hp'.
  { destruct pool as [|m0 p0]; simpl in Hg; simplify_eq; [done|]. by inversion Hpool. }
  destruct (convert_headers _ _ _ _ _) as [[[[hdrs te] l] u]|]; simplify_eq; [|split; [by apply dropped_clean|done]].
  destruct (select_decoder _ _ _ _) as [[k|]|e]; simplify_eq; [done..|]. split; [by apply dropped_clean|done].
Qed.

Definition reader_ok (out : reader_out) : Prop :=
  let '(r, self, io, buf, pool) := out in
  reader_wf self /\ pool_clean pool /\
  (r = NotReady -> rd_payload self = None -> lenZ buf < H1_MAX_BUFFER_SIZE).

Lemma message_loop_total fuel self io buf pool :
  rd_payload self = None -> pool_clean pool -> (length io < fuel)%nat ->
  exists out, message_loop fuel self io buf pool = Ret out /\ reader_ok out.
Proof.
  intros Hself. assert (reader_wf self) as Hwf by (intros p; by rewrite Hself).
  revert io buf pool. induction fuel as [|fuel IH]; intros io buf pool Hpool Hf; [lia|].
  cbn [message_loop]. destruct (parse_message buf pool) as [[r buf1] pool1] eqn:Hp.
  pose proof (parse_message_pool _ _ _ _ _ Hpool Hp) as [Hpool1 _].
  destruct r as [[msg [p|]]| |e].
  - destruct (parse_message_ready _ _ _ _ _ _ Hpool Hp) as (_ & _ & _ & Hk). specialize (Hk p eq_refl).
    assert (exists d b2 p2, reader_decode (S (length buf1)) buf1 p = Ret (d, b2, p2) /\
      kind_wf (pi_decoder p2)) as (d & b2 & p2 & -> & Hwf2).
    { destruct buf1 as [|b buf1]; [by eexists _, _, _|].
      destruct (reader_decode_spec (S (length (b :: buf1))) (b :: buf1) p Hk) as ([[d b2] p2] & -> & Hfed);
        [lia|done|]. apply fed_wf in Hfed as [? _]; [|done]. eauto. }
    cbn [mbind run_bind]. destruct d as [[]|e]; (eexists; split; [done|]); split_and!; try done.
    + intros ? [= <-]. done.
    + by apply dropped_clean.
  - by eexists.
  - destruct (Z.leb_spec H1_MAX_BUFFER_SIZE (lenZ buf1)); [by eexists|].
    destruct (read_from_io io buf1) as [[rd io2] buf2] eqn:Hr.
    assert (forall n, rd = Ready n -> (length io2 < fuel)%nat) as Hlt.
    { intros n ->. unfold read_from_io in Hr. destruct io as [|[]]; simplify_eq/=; [lia|].
      case_decide; simplify_eq. }
    destruct rd as [[|n|n]| |e]; [by eexists|by eauto|by eauto| |by eexists].
    eexists. split; [done|]. split_and!; try done. intros _ _.
    unfold read_from_io in Hr. destruct io as [|[]]; simplify_eq/=; [lia|]. case_decide; by simplify_eq.
  - by eexists.
Qed.

Lemma parse_head_total self io buf pool :
  rd_payload self = None -> pool_clean pool ->
  exists out, parse_head self io buf pool = Ret out /\ reader_ok out.
Proof.
  intros Hself Hpool. assert (reader_wf self) as Hwf by (intros p; by rewrite Hself).
  unfold parse_head. destruct buf as [|b buf]; [|apply message_loop_total; [done|done|lia]].
  destruct (read_from_io io []) as [[rd io2] buf2] eqn:Hr.
  destruct rd as [[|n|n]| |e]; [by eexists|by apply message_loop_total; [..|lia]|
    by apply message_loop_total; [..|lia]| |by eexists].
  eexists. split; [done|]. split_and!; try done. intros _ _.
  unfold read_from_io in Hr. destruct io as [|[]]; simplify_eq/=; [done|]. case_decide; by simplify_eq.
Qed.


(** C33. Requests are framed by their headers: a parsed request gets the decoder that
    RFC 7230 section 3.3.3 gives for its header map and method (chunked before
    content length before upgrade), what follows the head in the buffer is decoded
    exactly as the reference decoder says, and a request without a body leaves the
    next one untouched. *)
Theorem request_framing (buf buf' : bytes) (pool pool' : Pool) (msg : Msg) (info : option PayloadInfo) :
  pool_reachable pool -> parse_message buf pool = (Ready (msg, info), buf', pool') ->
  framing (msg_headers msg) (msg_method msg) = Ok (pi_decoder <$> info) /\
  (exists h, httparse buf = Ok (Some h) /\ buf' = dropZ (head_len h) buf) /\
  forall p, info = Some p -> buf' <> [] ->
    exists out, reader_decode (S (length buf')) buf' p = Ret out /\
      fed (pi_tx p) (body_spec (pi_decoder p) buf') out.
Proof.
  intros [Hpool _]%pool_reachable_inv Hp.
  destruct (parse_message_ready _ _ _ _ _ _ Hpool Hp) as (_ & Hh & Hf & Hk).
  split_and!; [done|done|]. intros p -> Hne. apply reader_decode_spec; auto.
Qed.

Lemma reader_parse_total self io buf pool :
  reader_wf self -> pool_clean pool -> exists out, reader_parse self io buf pool = Ret out /\ reader_ok out.
Proof.
  intros Hself Hpool. unfold reader_parse, reader_need_read.
  destruct self as [[p|]]; cbn [rd_payload]; [|by apply parse_head_total].
  destruct (pw_need_read (pi_tx p)) as [st tx].
  assert (kind_wf (pi_decoder p)) as Hwf by by apply Hself.
  assert (reader_wf (mkReader (Some (set_tx tx p)))) as Hself' by by intros ? [= <-].
  destruct st; cbn [rd_payload]; [|by eexists..].
  destruct (payload_loop_total (S (length io)) io buf (set_tx tx p)) as (r & io' & buf' & p' & -> & Hwf');
    [done|lia|]. cbn [mbind run_bind].
  destruct r as [[]|e]; [by apply parse_head_total| |]; (eexists; split; [done|]; split_and!; try done);
    by intros ? [= <-].
Qed.

(** *** Progress: every request takes bytes off the connection *)
Definition bytes_left (io : socket) (buf : bytes) : nat :=
  length buf + sum_list_with (fun r => match r with Ok d => length d | Err _ => 0%nat end) io.

Lemma read_from_io_left io buf r io' buf' :
  read_from_io io buf = (r, io', buf') -> bytes_left io' buf' = bytes_left io buf.
Proof.
  unfold read_from_io, bytes_left. destruct io as [|[d|e] io]; intros Hr; simplify_eq/=; [done| |].
  - rewrite length_app. lia.
  - case_decide; simplify_eq; done.
Qed.

Lemma fed_left tx k buf r rest p :
  fed tx (body_spec k buf) (r, rest, p) -> (length rest <= length buf)%nat.
Proof.
  intros Hf. pose proof (body_spec_rest k buf) as Hr. destruct (body_spec k buf) as [[[d o] k'] rest'].
  destruct Hf as (pieces & _ & He). by destruct o; simplify_eq.
Qed.

Lemma payload_loop_left fuel io buf p r io' buf' p' :
  kind_wf (pi_decoder p) -> payload_loop fuel io buf p = Ret (r, io', buf', p') ->
  (bytes_left io' buf' <= bytes_left io buf)%nat.
Proof.
  revert io buf p. induction fuel as [|fuel IH]; intros io buf p Hwf Hp; [done|].
  cbn [payload_loop] in Hp. destruct (read_from_io io buf) as [[rd io1] buf1] eqn:Hr.
  apply read_from_io_left in Hr. rewrite <-Hr.
  assert (forall nr, ('(d, buf, p) ← decode_loop (S (length buf1)) buf1 p;
      match d with
      | Err e => Ret (Err e, io1, buf, p)
      | Ok Decoding_Ready => Ret (Ok true, io1, buf, p)
      | Ok Decoding_NotReady => if (nr : bool) then Ret (Ok false, io1, buf, p) else payload_loop fuel io1 buf p
      end) = Ret (r, io', buf', p') -> (bytes_left io' buf' <= bytes_left io1 buf1)%nat) as Hmore.
  { intros nr Hd. destruct (decode_loop_spec (S (length buf1)) buf1 p Hwf) as ([[d b2] p2] & Hdl & Hfed); [lia|].
    rewrite Hdl in Hd. cbn [mbind run_bind] in Hd. pose proof (fed_left _ _ _ _ _ _ Hfed) as Hlen.
    apply fed_wf in Hfed as [Hwf2 _]; [|done].
    assert (bytes_left io1 b2 <= bytes_left io1 buf1)%nat as Hle by (unfold bytes_left; lia).
    destruct d as [[]|e]; simplify_eq; [lia| |lia]. destruct nr; simplify_eq; [lia|].
    apply IH in Hd; [lia|done]. }
  destruct rd as [[|n|n]| |e]; simplify_eq; try lia; [exact (Hmore false Hp)|exact (Hmore false Hp)|exact (Hmore true Hp)].
Qed.

Lemma message_loop_left fuel self io buf pool r self' io' buf' pool' :
  pool_clean pool -> message_loop fuel self io buf pool = Ret (r, self', io', buf', pool') ->
  (bytes_left io' buf' <= bytes_left io buf)%nat /\
  (forall msg, r = Ready msg -> (bytes_left io' buf' < bytes_left io buf)%nat).
Proof.
  revert io buf pool. induction fuel as [|fuel IH]; intros io buf pool Hpool Hp; [done|].
  cbn [message_loop] in Hp. destruct (parse_message buf pool) as [[rd buf1] pool1] eqn:Hpm.
  pose proof (parse_message_pool _ _ _ _ _ Hpool Hpm) as [Hpool1 Hsame].
  destruct rd as [[msg [p|]]| |e].
  - destruct (parse_message_ready _ _ _ _ _ _ Hpool Hpm) as (_ & (h & Hh & Hb1) & _ & Hk).
    apply httparse_len in Hh. assert (length buf1 < length buf)%nat as Hlt.
    { rewrite Hb1. unfold dropZ, lenZ in *. rewrite length_drop. lia. }
    assert (exists d b2 p2, reader_decode (S (length buf1)) buf1 p = Ret (d, b2, p2) /\
      (length b2 <= length buf1)%nat) as (d & b2 & p2 & Hd & Hl).
    { destruct buf1 as [|b buf1]; [by eexists _, _, _|].
      destruct (reader_decode_spec (S (length (b :: buf1))) (b :: buf1) p (Hk p eq_refl)) as ([[d b2] p2] & -> & Hfed);
        [lia|done|]. apply fed_left in Hfed. eauto. }
    rewrite Hd in Hp. cbn [mbind run_bind] in Hp.
    assert (io' = io /\ buf' = b2) as [-> ->] by (destruct d as [[]|e]; by simplify_eq).
    split; [|intros _ _]; unfold bytes_left; lia.
  - destruct (parse_message_ready _ _ _ _ _ _ Hpool Hpm) as (_ & (h & Hh & Hb1) & _).
    apply httparse_len in Hh. simplify_eq. unfold dropZ, lenZ in *.
    split; [|intros _ _]; unfold bytes_left; rewrite length_drop; lia.
  - rewrite (Hsame eq_refl) in Hp. destruct (_ <=? _); simplify_eq; [split; [lia|done]|].
    destruct (read_from_io io buf) as [[rd io2] buf2] eqn:Hr. apply read_from_io_left in Hr. rewrite <-Hr.
    destruct rd as [[|n|n]| |e]; simplify_eq; try (split; [lia|done]); by eapply IH.
  - simplify_eq. assert (length buf' <= length buf)%nat as Hl; [|unfold bytes_left; split; [lia|done]].
    unfold parse_message in Hpm. repeat case_match; simplify_eq; try done; unfold dropZ; rewrite length_drop; lia.
Qed.

Lemma parse_head_left self io buf pool r self' io' buf' pool' :
  pool_clean pool -> parse_head self io buf pool = Ret (r, self', io', buf', pool') ->
  (bytes_left io' buf' <= bytes_left io buf)%nat /\
  (forall msg, r = Ready msg -> (bytes_left io' buf' < bytes_left io buf)%nat).
Proof.
  intros Hpool Hp. unfold parse_head in Hp. destruct buf as [|b buf]; [|by eapply message_loop_left].
  destruct (read_from_io io []) as [[rd io2] buf2] eqn:Hr. apply read_from_io_left in Hr. rewrite <-Hr.
  destruct rd as [[|n|n]| |e]; simplify_eq; try (split; [lia|done]); by eapply message_loop_left.
Qed.

Lemma reader_parse_left self io buf pool r self' io' buf' pool' :
  reader_wf self -> pool_clean pool -> reader_parse self io buf pool = Ret (r, self', io', buf', pool') ->
  (bytes_left io' buf' <= bytes_left io buf)%nat /\
  (forall msg, r = Ready msg -> (bytes_left io' buf' < bytes_left io buf)%nat).
Proof.
  intros Hself Hpool Hp. unfold reader_parse, reader_need_read in Hp.
  destruct self as [[p|]]; cbn [rd_payload] in Hp; [|by eapply parse_head_left].
  destruct (pw_need_read (pi_tx p)) as [st tx]. destruct st; simplify_eq; [|split; [lia|done]..]. cbn [rd_payload] in Hp.
  destruct (payload_loop_total (S (length io)) io buf (set_tx tx p)) as (d & io1 & buf1 & p1 & Hl & _);
    [by apply (Hself p)|lia|]. rewrite Hl in Hp. cbn [mbind run_bind] in Hp.
  apply payload_loop_left in Hl; [|by apply (Hself p)].
  destruct d as [[]|e]; simplify_eq; [|split; [lia|done]..].
  apply parse_head_left in Hp as [Hle Hlt]; [|done]. split; [lia|]. intros msg Hm. specialize (Hlt msg Hm). lia.
Qed.

(** C32. Reading requests is safe: whatever the socket answers and the buffer holds,
    [parse] returns (no panic, no endless loop), keeps a well-formed decoder, and
    never waits for more of a request head once 128 KiB of it are buffered. *)
Theorem reader_parse_safe (self : Reader) (io : socket) (buf : bytes) (pool : Pool) :
  reader_wf self -> pool_reachable pool ->
  exists out, reader_parse self io buf pool = Ret out /\ reader_ok out.
Proof. intros Hself [Hpool _]%pool_reachable_inv. by apply reader_parse_total. Qed.

(** [Content-Length] values with a sign are accepted: [+n], which is no valid
    content length, is read as [n]. *)
Theorem content_length_sign_accepted (has_upgrade : bool) (msg : Msg) (n : Z) :
  0 <= n < 2 ^ 64 ->
  hm_get CONTENT_LENGTH (msg_headers msg) = Some (b#"+" ++ format_decimal n) ->
  hv_to_str (b#"+" ++ format_decimal n) = Some (b#"+" ++ format_decimal n) ->
  select_decoder false true has_upgrade msg = Ok (Some (Decoder_length n)).
Proof.
  intros Hn Hcl Hstr. unfold select_decoder. rewrite Hcl. cbn [mbind option_bind]. rewrite Hstr.
  cbn [mbind option_bind]. change (parse_u64 (b#"+" ++ format_decimal n)) with
    (match format_decimal n with [] => None | _ => parse_digits 0 (format_decimal n) end).
  by rewrite parse_format_digits.
Qed.

(** A request with an empty body is failed by a peer that closes its sending side:
    [Content-Length: 0] with nothing behind it stays unfinished, and the end of the
    stream then turns into [PayloadError::Incomplete] for a body that was complete. *)
Theorem empty_body_then_eof_fails (tx : W) (io : socket) (pool : Pool) :
  (pw_need_read tx).1 = PS_Read ->
  reader_decode 1 [] (mkPayloadInfo tx (Length 0)) =
    Ret (Ok Decoding_NotReady, [], mkPayloadInfo tx (Length 0)) /\
  body_spec (Length 0) [] = ([], Done, Length 0, []) /\
  reader_parse (mkReader (Some (mkPayloadInfo tx (Length 0)))) (Ok [] :: io) [] pool =
    Ret (PErr RE_Payload,
         mkReader (Some (mkPayloadInfo (pw_set_error PE_Incomplete (pw_need_read tx).2) (Length 0))),
         io, [], pool).
Proof.
  intros Hr. split_and!; [done|done|]. unfold reader_parse, reader_need_read. cbn [rd_payload pi_tx].
  destruct (pw_need_read tx) as [st tx']. simpl in Hr. by subst st.
Qed.

End Reading.

(** ** Witnesses *)

(** Parsers that know one request head. *)
Definition post_text : bytes :=
  b#"POST /up HTTP/1.1" ++ [13; 10] ++ b#"Content-Length: 5" ++ [13; 10; 13; 10].
Definition post_head : ParsedHead :=
  mkHead (lenZ post_text) (b#"POST") (b#"/up") 1 [(b#"Content-Length", b#"5")].
Definition one_head_parsers : HttpParsers.
Proof.
  refine {| httparse := fun buf => if starts_with post_text buf then Ok (Some post_head) else Ok None;
            method_from_bytes := Some; uri_try_from := fun p => Ok p;
            header_name_from_bytes := fun n => Some (to_lowercase n) |}.
  intros buf h Hh. destruct (starts_with post_text buf) eqn:Hs; [|done]. simplify_eq.
  apply starts_with_app in Hs as [r ->]. rewrite lenZ_app. pose proof (lenZ_nonneg r).
  assert (0 < lenZ post_text) by (vm_compute; reflexivity). simpl. lia.
Defined.

(** A writer that records what it is fed. *)
Inductive pw_event : Type := Ev_data (d : bytes) | Ev_eof | Ev_error (e : PayloadError).
#[export] Instance log_payload : PayloadWriter (list pw_event) :=
  {| pw_set_error := fun e l => l ++ [Ev_error e]; pw_feed_eof := fun l => l ++ [Ev_eof];
     pw_feed_data := fun d l => l ++ [Ev_data d]; pw_need_read := fun l => (PS_Read, l) |}.

Notation hlist := (list (bytes * bytes)).

Definition post_msg_with (headers : hlist) : HttpInnerMessage hlist :=
  {| msg_version := HTTP_11; msg_method := b#"POST"; msg_uri := b#"/up";
     msg_headers := headers; msg_extensions := []; msg_params := [];
     msg_cookies := None; msg_query := []; msg_query_loaded := false; msg_addr := None;
     msg_payload := Some 0%nat; msg_info := None; msg_resource := Notset |}.
Definition post_msg : HttpInnerMessage hlist := post_msg_with [(CONTENT_LENGTH, b#"5")].

Lemma request_framing_witness :
  let p := mkPayloadInfo ([] : list pw_event) (Length 5) in
  framing (msg_headers post_msg) (msg_method post_msg) = Ok (Some (Length 5)) /\
  exists out, reader_decode 9 (b#"helloGET") p = Ret out /\
    fed [] (b#"hello", Done, Length 0, b#"GET") out.
Proof.
  intros p.
  destruct (@request_framing hlist _ (list pw_event) _ one_head_parsers (fun _ => [])
      (post_text ++ b#"helloGET") (b#"helloGET") [] [] post_msg (Some p) pool_new) as (Hf & _ & Hd).
  - vm_compute. reflexivity.
  - split; [exact Hf|]. apply (Hd p eq_refl). discriminate.
Defined.

Lemma reader_parse_safe_witness :
  exists out, @reader_parse hlist _ (list pw_event) _ one_head_parsers (fun _ => [])
      Reader_new [Ok (take 9 post_text); Ok (drop 9 post_text ++ b#"he"); Err (mkIoError WouldBlock "")] [] [] =
    Ret out /\ reader_ok out.
Proof.
  apply (@reader_parse_safe hlist _ (list pw_event) _ one_head_parsers (fun _ => [])).
  - intros p Hp. discriminate.
  - apply pool_new.
Defined.

Lemma content_length_sign_accepted_witness :
  let msg := post_msg_with [(CONTENT_LENGTH, b#"+5")] in
  select_decoder (H := hlist) false true false msg = Ok (Some (Decoder_length 5)).
Proof.
  apply (content_length_sign_accepted (H := hlist) false (post_msg_with [(CONTENT_LENGTH, b#"+5")]) 5);
    [lia|reflexivity..].
Defined.

Lemma empty_body_then_eof_fails_witness :
  exists out, @reader_parse hlist _ (list pw_event) _ one_head_parsers (fun _ => [])
      (mkReader (Some (mkPayloadInfo [] (Length 0)))) [Ok []] [] [] = Ret out /\
    (out.1.1.1.2 = mkReader (Some (mkPayloadInfo [Ev_error PE_Incomplete] (Length 0)))).
Proof.
  destruct (@empty_body_then_eof_fails hlist _ (list pw_event) log_payload one_head_parsers (fun _ => [])
              ([] : list pw_event) [] [] eq_refl) as (_ & _ & Hp).
  eexists. split; [exact Hp|reflexivity].
Defined.
