(* ===== verification/PayloadType.v ===== *)
(** * The writing side of request payloads ([PayloadType] and [EncodedPayload] of
      src/src/server/encoding.rs)

    A request's payload is fed directly, or through a decompressor chosen by
    [Content-Encoding].  The decompressors (flate2, brotli) are external. *)
From S2P Require Import Prelude StrLib Errors Http Response Payload Decoder H1Reader.
Open Scope Z_scope.

(** ** Content encodings (src/src/header/mod.rs) *)
Definition is_compression (e : ContentEncoding) : bool :=
  match e with Enc_Identity | Enc_Auto => false | _ => true end.

Definition encoding_as_str (e : ContentEncoding) : bytes :=
  match e with
  | Enc_Br => b#"br"
  | Enc_Gzip => b#"gzip"
  | Enc_Deflate => b#"deflate"
  | Enc_Identity | Enc_Auto => b#"identity"
  end.

Definition ContentEncoding_from (s : bytes) : ContentEncoding :=
  let s := to_lowercase (trim s) in
  if decide (s = b#"br") then Enc_Br
  else if decide (s = b#"gzip") then Enc_Gzip
  else if decide (s = b#"deflate") then Enc_Deflate
  else Enc_Identity.

(** ** The sender as a [PayloadWriter]; [current] is the connection's task. *)
Definition sender_writer (current : nat) : PayloadWriter Chan :=
  {| pw_set_error := Sender_set_error;
     pw_feed_eof := Sender_feed_eof;
     pw_feed_data := fun d c => (Sender_feed_data d c).1;
     pw_need_read := Sender_need_read current |}.

(** A decompressing stream ([PayloadStream]). *)
Class PayloadStream (D : Type) := {
  ps_new : ContentEncoding -> D;
  ps_feed_data : bytes -> D -> result (option bytes) IoError * D;
  ps_feed_eof : D -> result (option bytes) IoError * D;
}.

Section Encoded.
Context {D : Type} `{PayloadStream D} (current : nat).

Record EncodedPayload : Type := mkEP { ep_inner : Chan; ep_error : bool; ep_payload : D }.

Definition EncodedPayload_new (inner : Chan) (enc : ContentEncoding) : EncodedPayload :=
  mkEP inner false (ps_new enc).

Definition EncodedPayload_set_error (err : PayloadError) (e : EncodedPayload) : EncodedPayload :=
  mkEP (Sender_set_error err (ep_inner e)) (ep_error e) (ep_payload e).

Definition EncodedPayload_feed_eof (e : EncodedPayload) : EncodedPayload :=
  if ep_error e then e
  else
    match ps_feed_eof (ep_payload e) with
    | (Err err, d) => EncodedPayload_set_error (PE_Io err) (mkEP (ep_inner e) true d)
    | (Ok value, d) =>
        let inner := match value with
                     | Some b => (Sender_feed_data b (ep_inner e)).1
                     | None => ep_inner e
                     end in
        mkEP (Sender_feed_eof inner) false d
    end.

Definition EncodedPayload_feed_data (data : bytes) (e : EncodedPayload) : EncodedPayload :=
  if ep_error e then e
  else
    match ps_feed_data data (ep_payload e) with
    | (Ok (Some b), d) => mkEP (Sender_feed_data b (ep_inner e)).1 false d
    | (Ok None, d) => mkEP (ep_inner e) false d
    | (Err err, d) =>
        EncodedPayload_set_error (PayloadError_from_io err) (mkEP (ep_inner e) true d)
    end.

Definition EncodedPayload_need_read (e : EncodedPayload) : PayloadStatus * EncodedPayload :=
  let '(st, inner) := Sender_need_read current (ep_inner e) in
  (st, mkEP inner (ep_error e) (ep_payload e)).

Inductive PayloadType : Type := PT_Sender (c : Chan) | PT_Encoding (e : EncodedPayload).

Definition PayloadType_new {H} `{HeaderMap H} (headers : H) (sender : Chan) : PayloadType :=
  (* check content-encoding *)
  let enc := match hm_get CONTENT_ENCODING headers with
             | Some enc => match hv_to_str enc with
                           | Some enc => ContentEncoding_from enc
                           | None => Enc_Auto
                           end
             | None => Enc_Auto
             end in
  match enc with
  | Enc_Auto | Enc_Identity => PT_Sender sender
  | _ => PT_Encoding (EncodedPayload_new sender enc)
  end.

#[export] Instance PayloadType_writer : PayloadWriter PayloadType :=
  {| pw_set_error := fun err p =>
       match p with
       | PT_Sender c => PT_Sender (Sender_set_error err c)
       | PT_Encoding e => PT_Encoding (EncodedPayload_set_error err e)
       end;
     pw_feed_eof := fun p =>
       match p with
       | PT_Sender c => PT_Sender (Sender_feed_eof c)
       | PT_Encoding e => PT_Encoding (EncodedPayload_feed_eof e)
       end;
     pw_feed_data := fun d p =>
       match p with
       | PT_Sender c => PT_Sender (Sender_feed_data d c).1
       | PT_Encoding e => PT_Encoding (EncodedPayload_feed_data d e)
       end;
     pw_need_read := fun p =>
       match p with
       | PT_Sender c => let '(st, c) := Sender_need_read current c in (st, PT_Sender c)
       | PT_Encoding e => let '(st, e) := EncodedPayload_need_read e in (st, PT_Encoding e)
       end |}.

(** The channel behind a payload writer. *)
Definition payload_chan (p : PayloadType) : Chan :=
  match p with PT_Sender c => c | PT_Encoding e => ep_inner e end.

(** ** What the application reads *)
Definition chan_feed (c : Chan) (pieces : list bytes) : Chan :=
  foldl (fun c d => (Sender_feed_data d c).1) c pieces.

Lemma chan_feed_cell c pieces :
  ch_strong c <> 0%nat ->
  let c' := chan_feed c pieces in
  ch_strong c' = ch_strong c /\ in_items (ch_cell c') = in_items (ch_cell c) ++ pieces /\
  in_err (ch_cell c') = in_err (ch_cell c) /\ in_eof (ch_cell c') = in_eof (ch_cell c).
Proof.
  unfold chan_feed. revert c. induction pieces as [|d pieces IH]; intros c Hc; simpl.
  - by rewrite app_nil_r.
  - assert ((Sender_feed_data d c).1 = put_cell c (Inner_feed_data d (ch_cell c)).1) as ->.
    { unfold Sender_feed_data, upgrade. by rewrite decide_False. }
    destruct (IH (put_cell c (Inner_feed_data d (ch_cell c)).1)) as (H1 & H2 & H3 & H4); [done|].
    rewrite H1, H2, H3, H4. simpl. by rewrite <-app_assoc.
Qed.

Lemma feeds_sender c pieces :
  feeds (PT_Sender c) pieces = PT_Sender (chan_feed c pieces).
Proof.
  unfold feeds, chan_feed. revert c. induction pieces as [|d pieces IH]; intros c; [done|]. simpl. apply IH.
Qed.

Lemma read_closed t c pieces :
  ch_strong c <> 0%nat -> in_items (ch_cell c) = [] -> in_err (ch_cell c) = None ->
  read_seq t (length pieces + 1) (ch_cell (Sender_feed_eof (chan_feed c pieces))) =
  map (fun d => Ready (Some d)) pieces ++ [Ready None].
Proof.
  intros Hc Hi He. destruct (chan_feed_cell c pieces Hc) as (Hs & Hit & Her & _).
  assert (Sender_feed_eof (chan_feed c pieces) =
    put_cell (chan_feed c pieces) (Inner_feed_eof (ch_cell (chan_feed c pieces)))) as ->.
  { unfold Sender_feed_eof, upgrade. by rewrite decide_False by congruence. }
  rewrite Hi in Hit. rewrite He in Her.
  pose proof (read_seq_drain t (Inner_feed_eof (ch_cell (chan_feed c pieces))) None 1 Her) as Hr.
  cbn [in_items Inner_feed_eof in_eof option_list] in Hr. rewrite Hit in Hr. simpl in Hr.
  by rewrite Nat.add_0_r in Hr.
Qed.

(** C1. Request bodies arrive whole and in order: when the reads of a connection hold a
    body that the reference decoder finds complete, [Reader::parse]'s payload loop feeds
    it, and the application then reads exactly the data of the body, in order, and the
    end of the stream; the bytes behind the body stay for the next request. *)
Theorem request_body_delivered (ds : list bytes) (k k' : Kind) (data rest : bytes) (t : nat) :
  Forall (fun d => d <> []) ds -> kind_wf k -> body_spec k (concat ds) = (data, Done, k', rest) ->
  exists n pieces buf tx,
    payload_loop (S (length ds)) (map Ok ds) [] (mkPayloadInfo (PT_Sender (Payload_new false)) k) =
      Ret (Ok true, map Ok (drop n ds), buf, mkPayloadInfo tx k') /\
    buf ++ concat (drop n ds) = rest /\ concat pieces = data /\
    read_seq t (length pieces + 1) (ch_cell (payload_chan tx)) =
      map (fun d => Ready (Some d)) pieces ++ [Ready None].
Proof.
  intros Hds Hwf Hspec.
  destruct (payload_loop_spec ds [] (mkPayloadInfo (PT_Sender (Payload_new false)) k) Hds Hwf)
    as (n & pieces & o & k1 & buf & Hn & Hs & Hmore & Hloop). cbn [pi_decoder pi_tx app] in *.
  pose proof (body_spec_app _ _ (concat (drop n ds)) _ _ _ _ Hwf Hs) as Happ.
  rewrite <-concat_app, take_drop, Hspec in Happ. destruct o; simplify_eq.
  - rewrite Hmore, firstn_all in Hs by done. congruence.
  - exists n, pieces, buf. eexists. split; [exact Hloop|]. split_and!; [done|done|].
    rewrite feeds_sender. by apply read_closed.
Qed.

(** ** Compressed payloads *)

(** The output of a decompressor fed piece by piece, up to its first error. *)
Fixpoint inflate (d : D) (pieces : list bytes) : list bytes * option IoError * D :=
  match pieces with
  | [] => ([], None, d)
  | p :: pieces =>
      match ps_feed_data p d with
      | (Ok o, d) => let '(outs, e, d) := inflate d pieces in (option_list o ++ outs, e, d)
      | (Err e, d) => ([], Some e, d)
      end
  end.

Lemma feeds_failed c d pieces :
  feeds (PT_Encoding (mkEP c true d)) pieces = PT_Encoding (mkEP c true d).
Proof. unfold feeds. induction pieces as [|p pieces IH]; [done|]. simpl. apply IH. Qed.

Lemma feeds_encoded c d pieces :
  feeds (PT_Encoding (mkEP c false d)) pieces =
  let '(outs, e, d') := inflate d pieces in
  match e with
  | None => PT_Encoding (mkEP (chan_feed c outs) false d')
  | Some e => PT_Encoding (mkEP (Sender_set_error (PE_Io e) (chan_feed c outs)) true d')
  end.
Proof.
  revert c d. induction pieces as [|p pieces IH]; intros c d; [done|].
  change (feeds _ (p :: pieces)) with
    (feeds (PT_Encoding (EncodedPayload_feed_data p (mkEP c false d))) pieces).
  cbn [inflate].
  unfold EncodedPayload_feed_data. cbn [ep_error ep_payload ep_inner].
  destruct (ps_feed_data p d) as [[[b|]|e] d'].
  - rewrite IH. destruct (inflate d' pieces) as [[outs e] d2]. done.
  - rewrite IH. destruct (inflate d' pieces) as [[outs e] d2]. done.
  - apply feeds_failed.
Qed.

(** Compressed bodies are delivered as far as they can be decompressed: the
    application reads the decompressor's output in order; if decompression fails it then
    reads that error, and neither data nor an end of stream after it, whatever else the
    connection delivers. *)
Theorem compressed_body_delivered (d : D) (pieces : list bytes) (t : nat) :
  let '(outs, e, d') := inflate d pieces in
  match e with
  | Some e =>
      read_seq t (length outs + 2)
        (ch_cell (payload_chan (pw_feed_eof (feeds (PT_Encoding (mkEP (Payload_new false) false d)) pieces)))) =
      map (fun b => Ready (Some b)) outs ++ [PErr (PE_Io e); NotReady]
  | None =>
      match ps_feed_eof d' with
      | (Ok o, _) =>
          read_seq t (length (outs ++ option_list o) + 1)
            (ch_cell (payload_chan (pw_feed_eof (feeds (PT_Encoding (mkEP (Payload_new false) false d)) pieces)))) =
          map (fun b => Ready (Some b)) (outs ++ option_list o) ++ [Ready None]
      | (Err e, _) =>
          read_seq t (length outs + 2)
            (ch_cell (payload_chan (pw_feed_eof (feeds (PT_Encoding (mkEP (Payload_new false) false d)) pieces)))) =
          map (fun b => Ready (Some b)) outs ++ [PErr (PE_Io e); NotReady]
      end
  end.
Proof.
  rewrite feeds_encoded. destruct (inflate d pieces) as [[outs e] d'].
  assert (forall e, read_seq t (length outs + 2)
      (ch_cell (Sender_set_error (PE_Io e) (chan_feed (Payload_new false) outs))) =
    map (fun b => Ready (Some b)) outs ++ [PErr (PE_Io e); NotReady]) as Herr.
  { intros e0. destruct (chan_feed_cell (Payload_new false) outs) as (Hs & Hi & He & Heof); [done|].
    unfold Sender_set_error, upgrade. rewrite decide_False by (rewrite Hs; done). simpl.
    pose proof (read_seq_drain t (Inner_set_error (PE_Io e0) (ch_cell (chan_feed (Payload_new false) outs)))
                  (Some (PE_Io e0)) 1 eq_refl) as Hr.
    cbn [in_items Inner_set_error in_eof option_list] in Hr. rewrite Hi, Heof in Hr. simpl in Hr.
    by rewrite <-Nat.add_assoc in Hr. }
  destruct e as [e|]; [apply Herr|].
  cbn [pw_feed_eof PayloadType_writer]. unfold EncodedPayload_feed_eof. cbn [ep_error ep_payload ep_inner].
  destruct (ps_feed_eof d') as [[o|e] d2]; [|apply Herr].
  assert (match o with Some b => (Sender_feed_data b (chan_feed (Payload_new false) outs)).1
          | None => chan_feed (Payload_new false) outs end =
          chan_feed (Payload_new false) (outs ++ option_list o)) as Ho.
  { unfold chan_feed. rewrite foldl_app. by destruct o. }
  cbn [payload_chan ep_inner]. rewrite Ho. by apply read_closed.
Qed.

End Encoded.
Arguments EncodedPayload : clear implicits.
Arguments PayloadType : clear implicits.

(** ** Witness *)
#[local] Instance identity_stream : PayloadStream unit :=
  {| ps_new := fun _ => tt; ps_feed_data := fun b d => (Ok (Some b), d); ps_feed_eof := fun d => (Ok None, d) |}.

Definition chunked_reads : list bytes :=
  [b#"5" ++ [13]; [10] ++ b#"hel"; b#"lo" ++ [13; 10] ++ b#"0"; [13; 10; 13; 10] ++ b#"GET /"].

Lemma request_body_delivered_witness :
  exists n pieces buf tx,
    @payload_loop (PayloadType unit) (PayloadType_writer 0) 5 (map Ok chunked_reads) []
      (mkPayloadInfo (PT_Sender (D := unit) (Payload_new false)) Decoder_chunked) =
      Ret (Ok true, map Ok (drop n chunked_reads), buf, mkPayloadInfo tx (Chunked ChunkEnd 0)) /\
    buf ++ concat (drop n chunked_reads) = b#"GET /" /\ concat pieces = b#"hello" /\
    read_seq 1 (length pieces + 1) (ch_cell (payload_chan tx)) =
      map (fun d => Ready (Some d)) pieces ++ [Ready None].
Proof.
  apply (request_body_delivered (D := unit) 0 chunked_reads Decoder_chunked (Chunked ChunkEnd 0)
           (b#"hello") (b#"GET /") 1).
  - repeat (constructor; [discriminate|]). constructor.
  - split; [lia|discriminate].
  - vm_compute. reflexivity.
Defined.
