(* ===== verification/SharedBytes.v ===== *)
(** * Output buffers (src/src/server/shared.rs)

    [BytesMut] with its spare capacity: appending without a reservation panics when
    the text does not fit.  How much [reserve] allocates beyond what it is asked for
    is left to the allocator.  A connection's output buffer is shared by reference
    count between its writer and its encoder, and returns to a pool with the last
    reference. *)
From S2P Require Import Prelude.
Open Scope Z_scope.

Record BytesMut : Type := mkBM { bm_data : bytes; bm_spare : Z }.
#[export] Instance BytesMut_eq_dec : EqDecision BytesMut.
Proof. solve_decision. Defined.

(** The allocator: the spare capacity after a reservation that does not fit. *)
Class Allocator := {
  alloc : BytesMut -> Z -> Z;
  alloc_enough b n : n <= alloc b n;
}.

(** [put_slice] of [SharedBytes] and of [BufMut]: the slice index panics. *)
Definition put_slice (src : bytes) (b : BytesMut) : run BytesMut :=
  if lenZ src <=? bm_spare b then Ret (mkBM (bm_data b ++ src) (bm_spare b - lenZ src)) else Panic.

Section Buffers.
Context `{Allocator}.

Definition reserve (cnt : Z) (b : BytesMut) : BytesMut :=
  if cnt <=? bm_spare b then b else mkBM (bm_data b) (alloc b cnt).

(** [extend], [extend_from_slice], [extend_from_slice_] and [io::Write::write]. *)
Definition extend_from_slice (data : bytes) (b : BytesMut) : run BytesMut :=
  put_slice data (reserve (lenZ data) b).

(** [split_to(n)]: the first [n] bytes are taken off, with their capacity. *)
Definition split_to (n : Z) (b : BytesMut) : run (bytes * BytesMut) :=
  if n <=? lenZ (bm_data b)
  then Ret (takeZ n (bm_data b), mkBM (dropZ n (bm_data b)) (bm_spare b)) else Panic.

(** [advance_mut] over bytes written into the spare capacity; more than it holds would
    be undefined behaviour. *)
Definition advance_mut (written : bytes) (b : BytesMut) : run BytesMut := put_slice written b.

Definition bm_wf (b : BytesMut) : Prop := 0 <= bm_spare b.

(** [appended b txt b']: [b'] is [b] with [txt] behind it. *)
Definition appended (b : BytesMut) (txt : bytes) (b' : BytesMut) : Prop :=
  bm_wf b' /\ bm_data b' = bm_data b ++ txt.

Lemma put_slice_ok txt b :
  lenZ txt <= bm_spare b -> put_slice txt b = Ret (mkBM (bm_data b ++ txt) (bm_spare b - lenZ txt)).
Proof. intros Hl. unfold put_slice. by rewrite (proj2 (Z.leb_le _ _) Hl). Qed.

Lemma reserve_ok n b :
  bm_data (reserve n b) = bm_data b /\ n <= bm_spare (reserve n b) /\ (bm_wf b -> 0 <= n -> bm_wf (reserve n b)).
Proof.
  unfold reserve, bm_wf. destruct (Z.leb_spec n (bm_spare b)); simpl; [done|].
  pose proof (alloc_enough b n). split_and!; [done|done|lia].
Qed.

(** A slice that fits is appended in place. *)
Lemma extend_fits txt b :
  lenZ txt <= bm_spare b -> extend_from_slice txt b = Ret (mkBM (bm_data b ++ txt) (bm_spare b - lenZ txt)).
Proof.
  intros Hl. unfold extend_from_slice, reserve. rewrite (proj2 (Z.leb_le _ _) Hl). by apply put_slice_ok.
Qed.

Lemma extend_from_slice_ok txt b :
  exists b', extend_from_slice txt b = Ret b' /\ appended b txt b'.
Proof.
  unfold extend_from_slice. destruct (reserve_ok (lenZ txt) b) as (Hd & Hs & _).
  rewrite put_slice_ok by done. eexists. split; [done|]. unfold appended, bm_wf. simpl. rewrite Hd.
  split; [lia|done].
Qed.

Lemma appended_trans a t b u c : appended a t b -> appended b u c -> appended a (t ++ u) c.
Proof. intros [_ Hb] [Hc Hd]. split; [done|]. by rewrite Hd, Hb, <-app_assoc. Qed.
End Buffers.

(** ** The pool of output buffers

    A buffer is released by the drop of its last reference ([Drop for SharedBytes]);
    [release_bytes] clears it. *)
Definition SharedBytesPool : Type := list bytes.

Definition get_bytes (p : SharedBytesPool) : bytes * SharedBytesPool :=
  match p with
  | b :: p => (b, p)
  | [] => ([], [])
  end.
Definition release_bytes (b : bytes) (p : SharedBytesPool) : SharedBytesPool :=
  if lenZ p <? 128 then [] :: p else p.
Definition SharedBytes_drop (pooled : bool) (strong : nat) (b : bytes) (p : SharedBytesPool)
  : SharedBytesPool :=
  if pooled && bool_decide (strong = 1%nat) then release_bytes b p else p.

Inductive bytes_pool_reachable : SharedBytesPool -> Prop :=
| bytes_pool_new : bytes_pool_reachable []
| bytes_pool_get p : bytes_pool_reachable p -> bytes_pool_reachable (get_bytes p).2
| bytes_pool_drop p pooled strong b :
    bytes_pool_reachable p -> bytes_pool_reachable (SharedBytes_drop pooled strong b p).

Lemma bytes_pool_clear p : bytes_pool_reachable p -> Forall (fun b => b = []) p /\ lenZ p <= 128.
Proof.
  induction 1 as [|p _ [IH IHl]|p pooled strong b _ [IH IHl]]; [done| |].
  - destruct p; simpl in *; [done|]. inversion IH; subst. split; [done|]. lenZ_lia.
  - unfold SharedBytes_drop, release_bytes. case_match; [|done]. case_match; [|done].
    split; [by constructor|]. lenZ_lia.
Qed.

(** A connection starts with an empty output buffer. *)
Lemma get_bytes_empty p : bytes_pool_reachable p -> (get_bytes p).1 = [].
Proof. intros [Hf _]%bytes_pool_clear. destruct p; [done|]. by inversion Hf. Qed.

(** An allocator that reserves exactly what is asked for. *)
Definition exact_alloc : Allocator.
Proof. refine {| alloc := fun _ n => n |}. intros. lia. Defined.
