(* ===== verification/Decompress.v ===== *)
(** * Decompression of payloads ([PayloadStream], [Decoder], [Wrapper] and [Writer] of
      src/src/server/encoding.rs)

    [PayloadStream] drives the decoders of flate2 and brotli2: those of deflate and brotli
    are written to and write into a [Writer]; that of gzip is read from and reads a
    [Wrapper], which blocks when it is empty.  It implements the interface of the same
    name of [PayloadType], through which request payloads and client responses are fed. *)
From S2P Require Import Prelude StrLib Errors Http Response Payload Decoder H1Reader SharedBytes PayloadType.
Open Scope Z_scope.

(** ** [Wrapper] *)
Record Wrapper : Type := mkWrapper { w_buf : bytes; w_eof : bool }.
Definition Wrapper_read (len : Z) (w : Wrapper) : result bytes IoError * Wrapper :=
  let len := Z.min len (lenZ (w_buf w)) in
  let data := takeZ len (w_buf w) in
  let w := mkWrapper (dropZ len (w_buf w)) (w_eof w) in
  if len =? 0 then
    if w_eof w then (Ok [], w) else (Err (mkIoError WouldBlock ""), w)
  else (Ok data, w).
Definition Wrapper_write (data : bytes) (w : Wrapper) : Wrapper := mkWrapper (w_buf w ++ data) (w_eof w).
Definition Wrapper_set_eof (w : Wrapper) : Wrapper := mkWrapper (w_buf w) true.

(** ** The crates *)

(** [flate2::write::DeflateDecoder<Writer>] and [brotli2::write::BrotliDecoder<Writer>]:
    their calls, and the buffer of the [Writer] behind them. *)
Class WriteDecoder (W : Type) := {
  wd_new : bytes -> W;
  wd_write_all : bytes -> W -> result unit IoError * W;
  wd_flush : W -> result unit IoError * W;
  wd_finish : W -> result unit IoError * W;
  wd_buf : W -> bytes;
  wd_set_buf : bytes -> W -> W;
}.

(** [flate2::read::GzDecoder<Wrapper>]: a read gives at most what it is asked for, and a
    finite input has a finite output. *)
Class GzDecoder (G : Type) := {
  gz_new : Wrapper -> G;
  gz_read : Z -> G -> result bytes IoError * G;
  gz_inner : G -> Wrapper;
  gz_set_inner : Wrapper -> G -> G;
  gz_left : G -> nat;
  gz_read_len len g : 0 <= len -> match (gz_read len g).1 with Ok out => lenZ out <= len | Err _ => True end;
  gz_read_left len g out : (gz_read len g).1 = Ok out -> out <> [] -> (gz_left (gz_read len g).2 < gz_left g)%nat;
}.

Section Decompress.
Context `{AL : Allocator} {Df Br G : Type} `{WDf : WriteDecoder Df} `{WBr : WriteDecoder Br} `{GZ : GzDecoder G}.

(** ** [Decoder] and [PayloadStream] *)
Inductive StreamDecoder : Type :=
| Dec_Deflate (d : Df) | Dec_Gzip (g : option G) | Dec_Br (b : Br) | Dec_Identity.
Record DStream : Type := mkDStream { ds_decoder : StreamDecoder; ds_dst : BytesMut }.

Definition Writer_new : bytes := [].
Definition DStream_new (enc : ContentEncoding) : DStream :=
  mkDStream
    match enc with
    | Enc_Br => Dec_Br (wd_new Writer_new)
    | Enc_Deflate => Dec_Deflate (wd_new Writer_new)
    | Enc_Gzip => Dec_Gzip None
    | _ => Dec_Identity
    end (mkBM [] 0).

Notation feed_result := (result (option bytes) IoError).

(** [Writer::take], and the answer made of it. *)
Definition writer_take {W} `{WriteDecoder W} (w : W) : feed_result * W :=
  let b := wd_buf w in
  (Ok (if bool_decide (b = []) then None else Some b), wd_set_buf [] w).

(** [dst.take().freeze()]. *)
Definition dst_take (dst : BytesMut) : bytes * BytesMut := (bm_data dst, mkBM [] (bm_spare dst)).

(** [decoder.read(dst.bytes_mut())] after [dst.reserve(8192)], and [advance_mut]. *)
Definition gz_read_dst (g : G) (dst : BytesMut) : run (result Z IoError * G * BytesMut) :=
  let dst := reserve 8192 dst in
  match gz_read (bm_spare dst) g with
  | (Ok out, g) => dst ← advance_mut out dst; Ret (Ok (lenZ out), g, dst)
  | (Err e, g) => Ret (Err e, g, dst)
  end.

Definition feed_eof_writer {W} `{WriteDecoder W} (w : W) : feed_result * W :=
  match wd_finish w with
  | (Ok _, w) => writer_take w
  | (Err e, w) => (Err e, w)
  end.
Definition DStream_feed_eof (s : DStream) : run (feed_result * DStream) :=
  match ds_decoder s with
  | Dec_Br b => let '(r, b) := feed_eof_writer b in Ret (r, mkDStream (Dec_Br b) (ds_dst s))
  | Dec_Gzip (Some g) =>
      let g := gz_set_inner (Wrapper_set_eof (gz_inner g)) g in
      '(r, g, dst) ← gz_read_dst g (ds_dst s);
      match r with
      | Ok _ => let '(b, dst) := dst_take dst in Ret (Ok (Some b), mkDStream (Dec_Gzip (Some g)) dst)
      | Err e => Ret (Err e, mkDStream (Dec_Gzip (Some g)) dst)
      end
  | Dec_Gzip None => Ret (Ok None, s)
  | Dec_Deflate d => let '(r, d) := feed_eof_writer d in Ret (r, mkDStream (Dec_Deflate d) (ds_dst s))
  | Dec_Identity => Ret (Ok None, s)
  end.

Definition feed_data_writer {W} `{WriteDecoder W} (data : bytes) (w : W) : feed_result * W :=
  match wd_write_all data w with
  | (Ok _, w) =>
      match wd_flush w with
      | (Ok _, w) => writer_take w
      | (Err e, w) => (Err e, w)
      end
  | (Err e, w) => (Err e, w)
  end.

(** The loop of the gzip decoder: it reads until it gets nothing or an error. *)
Fixpoint gz_loop (fuel : nat) (g : G) (dst : BytesMut) : run (feed_result * G * BytesMut) :=
  match fuel with
  | O => Timeout
  | S fuel =>
      '(r, g, dst) ← gz_read_dst g dst;
      match r with
      | Ok n =>
          if n =? 0 then let '(b, dst) := dst_take dst in Ret (Ok (Some b), g, dst)
          else gz_loop fuel g dst
      | Err e =>
          if bool_decide (io_kind e = WouldBlock) && negb (bool_decide (bm_data dst = [])) then
            let '(b, dst) := dst_take dst in Ret (Ok (Some b), g, dst)
          else Ret (Err e, g, dst)
      end
  end.
Definition DStream_feed_data (data : bytes) (s : DStream) : run (feed_result * DStream) :=
  match ds_decoder s with
  | Dec_Br b => let '(r, b) := feed_data_writer data b in Ret (r, mkDStream (Dec_Br b) (ds_dst s))
  | Dec_Gzip o =>
      let g := match o with
               | None => gz_new (mkWrapper data false)
               | Some g => gz_set_inner (Wrapper_write data (gz_inner g)) g
               end in
      '(r, g, dst) ← gz_loop (S (gz_left g)) g (ds_dst s);
      Ret (r, mkDStream (Dec_Gzip (Some g)) dst)
  | Dec_Deflate d => let '(r, d) := feed_data_writer data d in Ret (r, mkDStream (Dec_Deflate d) (ds_dst s))
  | Dec_Identity => Ret (Ok (Some data), s)
  end.

(** ** Feeding always returns *)
Lemma gz_read_dst_ok g dst :
  let len := bm_spare (reserve 8192 dst) in
  8192 <= len /\ bm_data (reserve 8192 dst) = bm_data dst /\
  gz_read_dst g dst = Ret
    match gz_read len g with
    | (Ok out, g) => (Ok (lenZ out), g, mkBM (bm_data dst ++ out) (len - lenZ out))
    | (Err e, g) => (Err e, g, reserve 8192 dst)
    end.
Proof.
  cbn zeta. destruct (reserve_ok 8192 dst) as (Hd & Hs & _). split_and!; [done|done|].
  assert (0 <= bm_spare (reserve 8192 dst)) as H0 by (clear -Hs; lia).
  unfold gz_read_dst. pose proof (gz_read_len (bm_spare (reserve 8192 dst)) g H0) as Hl.
  destruct (gz_read _ g) as [[out|e] g']; [|done]. cbn in Hl. unfold advance_mut.
  rewrite put_slice_ok by done. by rewrite Hd.
Qed.

Lemma gz_loop_returns g dst n : (gz_left g < n)%nat -> exists r, gz_loop n g dst = Ret r.
Proof.
  revert g dst. induction n as [|n IH]; intros g dst Hn; [lia|]. cbn [gz_loop].
  destruct (gz_read_dst_ok g dst) as (_ & _ & ->).
  pose proof (gz_read_left (bm_spare (reserve 8192 dst)) g) as Hl.
  destruct (gz_read (bm_spare (reserve 8192 dst)) g) as [[out|e] g']; cbn [mbind run_bind] in *.
  - destruct (Z.eqb_spec (lenZ out) 0) as [|Hne]; [by eexists|]. apply IH. specialize (Hl out eq_refl).
    assert (out <> []) as Ho by (by intros ->). specialize (Hl Ho). cbn in Hl. lia.
  - destruct (_ && _); by eexists.
Qed.

Lemma feed_data_returns data s : exists r, DStream_feed_data data s = Ret r.
Proof.
  unfold DStream_feed_data. destruct (ds_decoder s) as [d|o|b|].
  - destruct (feed_data_writer data d). by eexists.
  - set (g := match o with Some _ => _ | None => _ end).
    destruct (gz_loop_returns g (ds_dst s) (S (gz_left g)) ltac:(lia)) as [[[r g'] dst] ->]. by eexists.
  - destruct (feed_data_writer data b). by eexists.
  - by eexists.
Qed.
Lemma feed_eof_returns s : exists r, DStream_feed_eof s = Ret r.
Proof.
  unfold DStream_feed_eof. destruct (ds_decoder s) as [d|[g|]|b|]; [| |by eexists| |by eexists].
  - destruct (feed_eof_writer d). by eexists.
  - set (g' := gz_set_inner _ _). destruct (gz_read_dst_ok g' (ds_dst s)) as (_ & _ & ->).
    destruct (gz_read _ g') as [[out|e] g2]; by eexists.
  - destruct (feed_eof_writer b). by eexists.
Qed.

(** The interface of [PayloadType]; the other case never occurs. *)
Definition returned (s : DStream) (m : run (feed_result * DStream)) : feed_result * DStream :=
  match m with Ret r => r | Panic | Timeout => (Ok None, s) end.
#[export] Instance DStream_stream : PayloadStream DStream :=
  {| ps_new := DStream_new;
     ps_feed_data := fun data s => returned s (DStream_feed_data data s);
     ps_feed_eof := fun s => returned s (DStream_feed_eof s) |}.
End Decompress.

(** ** Gzip bodies *)

(** What the decoder makes of its input so far: its output, whether that is the end of the
    stream, and whether the input is the beginning of a stream at all.  [gz_at fed out
    eof g]: the decoder [g] was given [fed], has given [out], and [eof] was set. *)
Class GzStream (G : Type) `{GzDecoder G} := {
  plain : bytes -> bytes;
  ended : bytes -> bool;
  valid : bytes -> Prop;
  gz_at : bytes -> bytes -> bool -> G -> Prop;
  plain_nil : plain [] = [];
  valid_prefix fed data : valid (fed ++ data) -> valid fed;
  gz_at_new data : gz_at data [] false (gz_new (mkWrapper data false));
  gz_at_write fed out data g :
    gz_at fed out false g -> gz_at (fed ++ data) out false (gz_set_inner (Wrapper_write data (gz_inner g)) g);
  gz_at_eof fed out g : gz_at fed out false g -> gz_at fed out true (gz_set_inner (Wrapper_set_eof (gz_inner g)) g);
  (** A read gives output as long as there is any, nothing at the end of the stream, and
      blocks when it needs more input. *)
  gz_at_read fed out eof len g : 0 < len -> valid fed -> gz_at fed out eof g ->
    exists more, plain fed = out ++ more /\
    match gz_read len g with
    | (Ok d, g') => gz_at fed (out ++ d) eof g' /\ d `prefix_of` more /\ (d = [] -> more = [] /\ ended fed = true)
    | (Err e, g') => more = [] /\ ended fed = false /\ gz_at fed out eof g' /\ (eof = false -> io_kind e = WouldBlock)
    end;
}.

Section Gzip.
Context `{AL : Allocator} {Df Br G : Type} `{WDf : WriteDecoder Df} `{WBr : WriteDecoder Br} `{GS : GzStream G}.
Notation Stream := (DStream (Df := Df) (Br := Br) (G := G)).

(** A stream that was fed [fed] and has given all of its output. *)
Definition stream_at (fed : bytes) (s : Stream) : Prop :=
  bm_data (ds_dst s) = [] /\
  match ds_decoder s with
  | Dec_Gzip None => fed = []
  | Dec_Gzip (Some g) => gz_at fed (plain fed) false g
  | _ => False
  end.

Definition stream_fed (s : Stream) : Prop := exists g, ds_decoder s = Dec_Gzip (Some g).

Lemma gz_loop_spec n fed out g dst :
  (gz_left g < n)%nat -> valid fed -> gz_at fed (out ++ bm_data dst) false g ->
  exists new g' dst', plain fed = out ++ new /\ gz_at fed (plain fed) false g' /\ bm_data dst' = [] /\
    if bool_decide (new = []) && negb (ended fed)
    then exists e, gz_loop n g dst = Ret (Err e, g', dst') /\ io_kind e = WouldBlock
    else gz_loop n g dst = Ret (Ok (Some new), g', dst').
Proof.
  revert g dst. induction n as [|n IH]; intros g dst Hn Hv Hat; [lia|]. cbn [gz_loop].
  destruct (gz_read_dst_ok g dst) as (Hlen & Hdata & ->). set (len := bm_spare (reserve 8192 dst)) in *.
  destruct (gz_at_read fed _ false len g ltac:(lia) Hv Hat) as (more & Hp & Hr).
  pose proof (gz_read_left len g) as Hl. destruct (gz_read len g) as [[d|e] g']; cbn [mbind run_bind] in *.
  - destruct Hr as (Hat' & [rest ->] & Hd). destruct (Z.eqb_spec (lenZ d) 0) as [Hz|Hz].
    + assert (d = []) as -> by (apply lenZ_nil_inv; lia). destruct (Hd eq_refl) as [Hrest He]. cbn in Hrest. subst rest.
      rewrite app_nil_r in Hp. exists (bm_data dst), g', (mkBM [] (len - lenZ (@nil Z))). rewrite Hp.
      split_and!; [done|by rewrite app_nil_r in Hat'|done|]. rewrite He, andb_false_r. unfold dst_take. cbn. by rewrite app_nil_r.
    + assert (d <> []) as Hne by (by intros ->). specialize (Hl d eq_refl Hne). cbn in Hl.
      destruct (IH g' (mkBM (bm_data dst ++ d) (len - lenZ d))) as (new & g2 & dst2 & Hnew & Hat2 & Hdst & Hres);
        [lia|done|cbn [bm_data]; by rewrite app_assoc|]. by exists new, g2, dst2.
  - destruct Hr as (-> & He & Hat' & Hwb). rewrite app_nil_r in Hp. specialize (Hwb eq_refl).
    rewrite bool_decide_true, Hdata by done. cbn [andb]. exists (bm_data dst), g'. rewrite Hp, He, andb_true_r.
    destruct (bool_decide (bm_data dst = [])) eqn:Hb; cbn [negb].
    + apply bool_decide_eq_true in Hb. exists (reserve 8192 dst). split_and!; [done|done|by rewrite Hdata|by exists e].
    + exists (mkBM [] len). split_and!; [done|done|done|]. unfold dst_take. by rewrite Hdata.
Qed.

(** A chunk: its new output, or the error [WouldBlock] when it brings none yet. *)
Lemma gzip_chunk fed data s :
  stream_at fed s -> valid (fed ++ data) ->
  exists new s', plain (fed ++ data) = plain fed ++ new /\ stream_at (fed ++ data) s' /\ stream_fed s' /\
    if bool_decide (new = []) && negb (ended (fed ++ data))
    then exists e, DStream_feed_data data s = Ret (Err e, s') /\ io_kind e = WouldBlock
    else DStream_feed_data data s = Ret (Ok (Some new), s').
Proof.
  intros [Hdst Hs] Hv. unfold DStream_feed_data. destruct (ds_decoder s) as [|o| |]; [done| |done..].
  set (g := match o with Some _ => _ | None => _ end).
  assert (gz_at (fed ++ data) (plain fed ++ bm_data (ds_dst s)) false g) as Hat.
  { rewrite Hdst, app_nil_r. destruct o as [g0|]; [by apply gz_at_write|]. subst fed. rewrite plain_nil. apply gz_at_new. }
  destruct (gz_loop_spec (S (gz_left g)) _ _ g (ds_dst s) ltac:(lia) Hv Hat) as (new & g' & dst' & Hp & Hat' & Hd & Hr).
  exists new, (mkDStream (Dec_Gzip (Some g')) dst'). split_and!; [done|by split|by eexists|].
  destruct (_ && _); [destruct Hr as (e & -> & He); by exists e|by rewrite Hr].
Qed.

(** The end of the body: the output is complete, and one more empty chunk is given, or the
    stream is not ended, which is an error. *)
Lemma gzip_eof fed s :
  stream_at fed s -> stream_fed s -> valid fed ->
  exists s', if ended fed then DStream_feed_eof s = Ret (Ok (Some []), s')
             else exists e, DStream_feed_eof s = Ret (Err e, s').
Proof.
  intros [Hdst Hs] [g Hg] Hv. unfold DStream_feed_eof. rewrite Hg in *. set (g1 := gz_set_inner _ _).
  destruct (gz_read_dst_ok g1 (ds_dst s)) as (Hlen & _ & ->). set (len := bm_spare (reserve 8192 (ds_dst s))) in *.
  destruct (gz_at_read fed _ true len g1 ltac:(lia) Hv (gz_at_eof _ _ _ Hs)) as (more & Hp & Hr).
  assert (more = []) as -> by (apply (app_inv_head (plain fed)); by rewrite app_nil_r).
  destruct (gz_read len g1) as [[d|e] g2]; cbn [mbind run_bind].
  - destruct Hr as (_ & Hd & Hend). apply prefix_nil_inv in Hd as ->. destruct (Hend eq_refl) as [_ ->].
    unfold dst_take. cbn [bm_data bm_spare]. rewrite Hdst. by eexists.
  - destruct Hr as (_ & -> & _). by eexists _, _.
Qed.

(** The chunks of a body, up to the first one that brings no output. *)
Fixpoint gz_chunks (fed : bytes) (pieces : list bytes) : list bytes * bool :=
  match pieces with
  | [] => ([], false)
  | p :: pieces =>
      let new := drop (length (plain (G := G) fed)) (plain (G := G) (fed ++ p)) in
      if bool_decide (new = []) && negb (ended (G := G) (fed ++ p)) then ([], true)
      else let '(outs, failed) := gz_chunks (fed ++ p) pieces in (new :: outs, failed)
  end.

Lemma gzip_inflate fed pieces s :
  stream_at fed s -> stream_fed s \/ pieces <> [] -> valid (fed ++ concat pieces) ->
  let '(outs, failed) := gz_chunks fed pieces in
  let '(outs', e, s') := inflate s pieces in
  outs' = outs /\
  if failed then exists e0, e = Some e0 /\ io_kind e0 = WouldBlock
  else e = None /\ stream_at (fed ++ concat pieces) s' /\ stream_fed s' /\ plain fed ++ concat outs = plain (fed ++ concat pieces).
Proof.
  revert fed s. induction pieces as [|p pieces IH]; intros fed s Hs Hfed Hv.
  { cbn in *. rewrite !app_nil_r. by destruct Hfed. }
  cbn [gz_chunks inflate concat] in *. rewrite app_assoc in Hv |- *.
  destruct (gzip_chunk fed p s Hs (valid_prefix _ _ Hv)) as (new & s' & Hp & Hs' & Hf & Hr).
  rewrite Hp, drop_app_length. cbn [ps_feed_data DStream_stream].
  destruct (bool_decide (new = []) && negb (ended (fed ++ p))).
  - destruct Hr as (e & -> & He). cbn [returned]. split; [done|]. by exists e.
  - rewrite Hr. cbn [returned]. specialize (IH (fed ++ p) s' Hs' (or_introl Hf) Hv).
    destruct (gz_chunks (fed ++ p) pieces) as [outs failed], (inflate s' pieces) as [[outs' e] s2].
    destruct IH as [-> IH]. split; [done|]. destruct failed; [done|]. destruct IH as (-> & Hs2 & Hf2 & Hc).
    split_and!; [done|done|done|]. cbn [concat]. by rewrite app_assoc, <-Hp.
Qed.

(** C29. Compressed request bodies: what the application reads of a gzip body, however it is
    cut into pieces, is the decompressed text in order, as far as it can be decompressed,
    and then the end (behind one more empty chunk), or an error when the stream is not
    ended.  But a piece that brings no output yet, as one that ends within the header of
    the stream does, fails the body with the error [WouldBlock]. *)
Theorem gzip_body_delivered (current t : nat) (pieces : list bytes) :
  pieces <> [] -> valid (G := G) (concat pieces) ->
  let '(outs, failed) := gz_chunks [] pieces in
  let writer := PayloadType_writer (D := Stream) current in
  let read n := read_seq t n (ch_cell (payload_chan (pw_feed_eof
    (feeds (PT_Encoding (EncodedPayload_new (Payload_new false) Enc_Gzip)) pieces)))) in
  if failed then exists e, io_kind e = WouldBlock /\
    read (length outs + 2)%nat = map (fun b => Ready (Some b)) outs ++ [PErr (PE_Io e); NotReady]
  else concat outs = plain (G := G) (concat pieces) /\
    if ended (G := G) (concat pieces)
    then read (length outs + 2)%nat = map (fun b => Ready (Some b)) outs ++ [Ready (Some []); Ready None]
    else exists e, read (length outs + 2)%nat = map (fun b => Ready (Some b)) outs ++ [PErr (PE_Io e); NotReady].
Proof.
  intros Hne Hv. assert (stream_at [] (DStream_new Enc_Gzip : Stream)) as Hs by by split.
  pose proof (gzip_inflate [] pieces (DStream_new Enc_Gzip) Hs (or_intror Hne) Hv) as Hi.
  pose proof (compressed_body_delivered (D := Stream) current (DStream_new Enc_Gzip) pieces t) as Hc.
  destruct (gz_chunks [] pieces) as [outs failed]. cbv zeta. unfold EncodedPayload_new. cbn [ps_new DStream_stream] in *.
  destruct (inflate (DStream_new Enc_Gzip) pieces) as [[outs' e] s']. destruct Hi as [-> Hi]. destruct failed.
  { destruct Hi as (e0 & -> & He). by exists e0. }
  destruct Hi as (-> & Hs' & Hf & Hcat). rewrite plain_nil in Hcat. split; [exact Hcat|]. cbn [app] in Hs'.
  destruct (gzip_eof _ _ Hs' Hf Hv) as [s2 He]. cbn [ps_feed_eof DStream_stream] in Hc.
  destruct (ended (concat pieces)).
  - rewrite He in Hc. cbn [returned option_list] in Hc. rewrite length_app, map_app, <-app_assoc in Hc. cbn in Hc.
    by rewrite <-Nat.add_assoc in Hc.
  - destruct He as [e He]. rewrite He in Hc. by exists e.
Qed.
End Gzip.

(** ** Concrete decoders *)

(** A format with a header of two bytes, and a text that ends at a zero byte; the decoder
    keeps its input in the wrapper and counts the bytes it gave. *)
Fixpoint until_zero (s : bytes) : bytes :=
  match s with [] => [] | b :: s => if b =? 0 then [] else b :: until_zero s end.
Definition toy_plain (fed : bytes) : bytes := until_zero (drop 2 fed).
Definition toy_ended (fed : bytes) : bool := bool_decide (0 ∈ drop 2 fed).

Lemma until_zero_app s r : until_zero s `prefix_of` until_zero (s ++ r).
Proof.
  induction s as [|b s IH]; [by apply prefix_nil|]. simpl. destruct (b =? 0); [done|]. by apply prefix_cons.
Qed.
Lemma toy_plain_app fed data : toy_plain fed `prefix_of` toy_plain (fed ++ data).
Proof. unfold toy_plain. rewrite drop_app. apply until_zero_app. Qed.

Record ToyGz : Type := mkToy { tg_inner : Wrapper; tg_given : nat }.
Definition toy_read (len : Z) (g : ToyGz) : result bytes IoError * ToyGz :=
  let fed := w_buf (tg_inner g) in
  match takeZ len (drop (tg_given g) (toy_plain fed)) with
  | [] =>
      if toy_ended fed then (Ok [], g)
      else (Err (mkIoError (if w_eof (tg_inner g) then OtherKind else WouldBlock) ""), g)
  | d => (Ok d, mkToy (tg_inner g) (tg_given g + length d))
  end.

#[export] Instance toy_gz : GzDecoder ToyGz.
Proof.
  refine {| gz_new w := mkToy w 0; gz_read := toy_read; gz_inner := tg_inner;
    gz_set_inner w g := mkToy w (tg_given g);
    gz_left g := (length (toy_plain (w_buf (tg_inner g))) - tg_given g)%nat |}.
  - intros len g Hlen. unfold toy_read. destruct (takeZ len _) as [|b d] eqn:Ht; [by destruct (toy_ended _)|].
    cbn [fst]. rewrite <-Ht. unfold takeZ, lenZ. rewrite length_take. lia.
  - intros len g out. unfold toy_read. destruct (takeZ len _) as [|b d] eqn:Ht.
    { destruct (toy_ended _); [|done]. by intros [= <-]. }
    cbn [fst snd]. intros [= <-] _. cbn [tg_inner tg_given].
    pose proof (f_equal length Ht) as Hl. unfold takeZ in Hl. rewrite length_take, length_drop in Hl. cbn in Hl |- *. lia.
Defined.

#[export] Instance toy_stream : GzStream ToyGz.
Proof.
  refine {| plain := toy_plain; ended := toy_ended; valid _ := True;
    gz_at fed out eof g := tg_inner g = mkWrapper fed eof /\ (tg_given g <= length (toy_plain fed))%nat /\
      out = take (tg_given g) (toy_plain fed) |}; try done.
  - intros data. split_and!; [done|simpl; lia|done].
  - intros fed out data g (Hi & Hl & ->). cbn [gz_set_inner gz_inner toy_gz tg_inner tg_given]. rewrite Hi.
    destruct (toy_plain_app fed data) as [r Hr]. unfold Wrapper_write. cbn [w_buf w_eof].
    split_and!; [done|rewrite Hr, length_app; lia|]. by rewrite Hr, take_app_le.
  - intros fed out g (Hi & Hl & ->). cbn [gz_set_inner gz_inner toy_gz tg_inner tg_given]. by rewrite Hi.
  - intros fed out eof len g Hlen _ (Hi & Hl & ->). exists (drop (tg_given g) (toy_plain fed)).
    split; [by rewrite take_drop|]. cbn [gz_read toy_gz]. unfold toy_read. rewrite Hi. cbn [w_buf w_eof].
    destruct (takeZ len _) as [|b d] eqn:Ht.
    + assert (drop (tg_given g) (toy_plain fed) = []) as Hn.
      { unfold takeZ in Ht. destruct (drop _ _) as [|x l]; [done|]. destruct (Z.to_nat len) eqn:E; [lia|done]. }
      rewrite Hn. destruct (toy_ended fed) eqn:He; [by rewrite app_nil_r|]. split_and!; try done. by intros ->.
    + rewrite <-Ht. unfold takeZ in *. cbn [tg_inner tg_given]. split_and!.
      * done.
      * rewrite length_take, length_drop. lia.
      * rewrite take_take_drop, length_take, length_drop.
        destruct (decide (Z.to_nat len <= length (toy_plain fed) - tg_given g)%nat); [by rewrite Nat.min_l by lia|].
        by rewrite !take_ge by lia.
      * exists (drop (Z.to_nat len) (drop (tg_given g) (toy_plain fed))). by rewrite take_drop.
      * intros Hn. by rewrite Ht in Hn.
Defined.

(** A decoder that gives what it is written. *)
#[export] Instance toy_writer : WriteDecoder bytes :=
  {| wd_new b := b; wd_write_all data w := (Ok tt, w ++ data); wd_flush w := (Ok tt, w); wd_finish w := (Ok tt, w);
     wd_buf w := w; wd_set_buf b w := b |}.

#[local] Existing Instance exact_alloc.
Notation toy_read_all pieces t n :=
  (read_seq t n (ch_cell (payload_chan (@pw_feed_eof _ (PayloadType_writer (D := DStream (Df := bytes) (Br := bytes) (G := ToyGz)) 0)
    (@feeds _ (PayloadType_writer (D := DStream (Df := bytes) (Br := bytes) (G := ToyGz)) 0)
      (PT_Encoding (EncodedPayload_new (Payload_new false) Enc_Gzip)) pieces))))).

(** A body in two pieces; one without its end; and one whose header is cut. *)
Lemma gzip_body_delivered_witness :
  toy_read_all [b#"GZhel"; b#"lo" ++ [0]] 1%nat 4%nat =
    [Ready (Some (b#"hel")); Ready (Some (b#"lo")); Ready (Some []); Ready None] /\
  (exists e, toy_read_all [b#"GZhel"] 1%nat 3%nat = [Ready (Some (b#"hel")); PErr (PE_Io e); NotReady]) /\
  (exists e, io_kind e = WouldBlock /\ toy_read_all [b#"G"; b#"Zhello" ++ [0]] 1%nat 2%nat = [PErr (PE_Io e); NotReady]).
Proof.
  split_and!.
  - exact (proj2 (gzip_body_delivered (Df := bytes) (Br := bytes) (G := ToyGz) 0 1 [b#"GZhel"; b#"lo" ++ [0]] ltac:(done) I)).
  - exact (proj2 (gzip_body_delivered (Df := bytes) (Br := bytes) (G := ToyGz) 0 1 [b#"GZhel"] ltac:(done) I)).
  - exact (gzip_body_delivered (Df := bytes) (Br := bytes) (G := ToyGz) 0 1 [b#"G"; b#"Zhello" ++ [0]] ltac:(done) I).
Defined.
