(* ===== verification/ServerHelpers.v ===== *)
(** * Formatting helpers of the writer (src/src/server/helpers.rs)

    The status line and the content length are rendered two digits at a time from a
    table, through raw pointers into a stack buffer.  An access outside of the table or
    the buffer, undefined behaviour in the source, is a [Panic] here; the contents of
    the uninitialized buffer are arbitrary. *)
From S2P Require Import Prelude StrLib Http SharedBytes.
Open Scope Z_scope.

Definition DEC_DIGITS_LUT : bytes :=
  b#"0001020304050607080910111213141516171819" ++
  b#"2021222324252627282930313233343536373839" ++
  b#"4041424344454647484950515253545556575859" ++
  b#"6061626364656667686970717273747576777879" ++
  b#"8081828384858687888990919293949596979899".

(** A write of [bs] at [buf_ptr.offset(pos)]. *)
Definition poke (buf : bytes) (pos : Z) (bs : bytes) : run bytes :=
  if (0 <=? pos) && (pos + lenZ bs <=? lenZ buf)
  then Ret (takeZ pos buf ++ bs ++ dropZ (pos + lenZ bs) buf) else Panic.

(** [copy_nonoverlapping(lut_ptr.offset(d), buf_ptr.offset(pos), 2)]. *)
Definition copy2 (d : Z) (buf : bytes) (pos : Z) : run bytes :=
  if (0 <=? d) && (d + 2 <=? lenZ DEC_DIGITS_LUT)
  then poke buf pos (takeZ 2 (dropZ d DEC_DIGITS_LUT)) else Panic.

(** The 13 bytes of the stack buffer of [write_status_line]. *)
Definition status_line_buf (version : Version) (n : Z) : run bytes :=
  let buf := b#"HTTP/1.1     " in
  buf ← match version with
        | HTTP_2 => poke buf 5 (b#"2")
        | HTTP_10 => poke buf 7 (b#"0")
        | HTTP_09 => buf ← poke buf 5 (b#"0"); poke buf 7 (b#"9")
        | HTTP_11 => Ret buf
        end;
  let curr := 12 in
  (* decode 2 more chars, if > 2 chars *)
  let d1 := Z.shiftl (n mod 100) 1 in
  let n := n / 100 in
  let curr := curr - 2 in
  buf ← copy2 d1 buf curr;
  (* decode last 1 or 2 chars *)
  if n <? 10 then poke buf (curr - 1) [n + 48] else copy2 (Z.shiftl n 1) buf (curr - 2).

Definition write_status_line (version : Version) (n : Z) (bytes_ : BytesMut) : run BytesMut :=
  let four := 999 <? n in
  buf ← status_line_buf version n;
  bytes_ ← put_slice buf bytes_;
  if four then put_slice (b#" ") bytes_ else Ret bytes_.

(** The loop of [convert_usize], four digits at a time. *)
Fixpoint convert_loop (fuel : nat) (n curr : Z) (buf : bytes) : run (Z * Z * bytes) :=
  match fuel with
  | O => Timeout
  | S fuel =>
      if 10000 <=? n then
        let rem := n mod 10000 in
        let n := n / 10000 in
        let d1 := Z.shiftl (rem / 100) 1 in
        let d2 := Z.shiftl (rem mod 100) 1 in
        let curr := curr - 4 in
        buf ← copy2 d1 buf curr;
        buf ← copy2 d2 buf (curr + 2);
        convert_loop fuel n curr buf
      else Ret (n, curr, buf)
  end.

Section Formatting.
Context `{Allocator}.

(** [uninit] is what the stack buffer of 41 bytes holds. *)
Definition convert_usize (uninit : bytes) (n : Z) (bytes_ : BytesMut) : run BytesMut :=
  let curr := 39 in
  buf ← poke uninit 39 [13; 10];
  '(n, curr, buf) ← convert_loop 6 n curr buf;
  (* decode 2 more chars, if > 2 chars *)
  '(n, curr, buf) ← (if 100 <=? n then
                       let d1 := Z.shiftl (n mod 100) 1 in
                       buf ← copy2 d1 buf (curr - 2); Ret (n / 100, curr - 2, buf)
                     else Ret (n, curr, buf));
  (* decode last 1 or 2 chars *)
  '(curr, buf) ← (if n <? 10 then buf ← poke buf (curr - 1) [n + 48]; Ret (curr - 1, buf)
                  else buf ← copy2 (Z.shiftl n 1) buf (curr - 2); Ret (curr - 2, buf));
  extend_from_slice (dropZ curr buf) bytes_.

Definition content_length_prefix : bytes := [13; 10] ++ b#"content-length: ".

(** The stack buffer of [write_content_length] for at most three digits. *)
Definition content_length_buf (n : Z) : run bytes :=
  if n <? 10 then poke (content_length_prefix ++ b#"0" ++ [13; 10]) 18 [n + 48]
  else if n <? 100 then copy2 (Z.shiftl n 1) (content_length_prefix ++ b#"00" ++ [13; 10]) 18
  else
    (* decode 2 more chars, if > 2 chars *)
    let d1 := Z.shiftl (n mod 100) 1 in
    let n := n / 100 in
    buf ← copy2 d1 (content_length_prefix ++ b#"000" ++ [13; 10]) 19;
    (* decode last 1 *)
    poke buf 18 [n + 48].

Definition write_content_length (uninit : bytes) (n : Z) (bytes_ : BytesMut) : run BytesMut :=
  if n <? 1000 then buf ← content_length_buf n; put_slice buf bytes_
  else
    bytes_ ← put_slice content_length_prefix bytes_;
    convert_usize uninit n bytes_.

(** ** Lemmas *)
Lemma lut_pair d :
  0 <= d < 100 -> takeZ 2 (dropZ (Z.shiftl d 1) DEC_DIGITS_LUT) = dec_pair d.
Proof.
  intros Hd.
  assert (forallb (fun d => bool_decide (takeZ 2 (dropZ (Z.shiftl d 1) DEC_DIGITS_LUT) = dec_pair d))
            (seqZ 0 100) = true) as Hall by (vm_compute; reflexivity).
  rewrite forallb_forall in Hall. specialize (Hall d). rewrite <-list_elem_of_In, elem_of_seqZ in Hall.
  specialize (Hall ltac:(lia)). by apply bool_decide_eq_true in Hall.
Qed.

Lemma poke_ok buf pos bs :
  0 <= pos -> pos + lenZ bs <= lenZ buf ->
  exists buf', poke buf pos bs = Ret buf' /\ lenZ buf' = lenZ buf /\
    takeZ pos buf' = takeZ pos buf /\ dropZ pos buf' = bs ++ dropZ (pos + lenZ bs) buf.
Proof.
  intros Hp Hl. unfold poke. rewrite (proj2 (Z.leb_le 0 pos)), (proj2 (Z.leb_le _ (lenZ buf))) by done.
  eexists. split; [done|]. pose proof (lenZ_nonneg bs).
  assert (lenZ (takeZ pos buf) = pos) as Ht by (apply lenZ_takeZ; lia).
  rewrite !lenZ_app, Ht, lenZ_dropZ by lia. split; [lia|].
  rewrite takeZ_app_l, dropZ_app_l by lia. by rewrite takeZ_all, dropZ_all by lia.
Qed.

Lemma copy2_ok d buf pos :
  0 <= d < 100 -> 0 <= pos -> pos + 2 <= lenZ buf ->
  exists buf', copy2 (Z.shiftl d 1) buf pos = Ret buf' /\ lenZ buf' = lenZ buf /\
    takeZ pos buf' = takeZ pos buf /\ dropZ pos buf' = dec_pair d ++ dropZ (pos + 2) buf.
Proof.
  intros Hd Hp Hl. unfold copy2. rewrite lut_pair by done. rewrite Z.shiftl_mul_pow2 by lia.
  change (lenZ DEC_DIGITS_LUT) with 200.
  rewrite (proj2 (Z.leb_le 0 _)), (proj2 (Z.leb_le _ 200)) by lia. by apply poke_ok.
Qed.

Lemma dropZ_split {A} (p q : Z) (l : list A) : 0 <= p <= q -> dropZ q l = dropZ (q - p) (dropZ p l).
Proof. intros Hpq. rewrite dropZ_dropZ by lia. f_equal. lia. Qed.

(** Four digits, in front of what is there. *)
Lemma copy4_ok d1 d2 buf pos :
  0 <= d1 < 100 -> 0 <= d2 < 100 -> 0 <= pos -> pos + 4 <= lenZ buf ->
  exists b1 b2, copy2 (Z.shiftl d1 1) buf pos = Ret b1 /\ copy2 (Z.shiftl d2 1) b1 (pos + 2) = Ret b2 /\
    lenZ b2 = lenZ buf /\ dropZ pos b2 = (dec_pair d1 ++ dec_pair d2) ++ dropZ (pos + 4) buf.
Proof.
  intros Hd1 Hd2 Hp Hl.
  destruct (copy2_ok d1 buf pos) as (b1 & Hc1 & Hl1 & _ & Hp1); [lia..|].
  destruct (copy2_ok d2 b1 (pos + 2)) as (b2 & Hc2 & Hl2 & Ht2 & Hp2); [lia..|].
  exists b1, b2. split_and!; [done|done|lia|].
  rewrite <-(takeZ_dropZ (pos + 2) b2), Ht2, Hp2.
  assert (lenZ (takeZ (pos + 2) b1) = pos + 2) by (apply lenZ_takeZ; lia).
  rewrite dropZ_app_l by lia.
  assert (dropZ pos (takeZ (pos + 2) b1) = dec_pair d1) as ->.
  { unfold dropZ, takeZ. rewrite skipn_firstn_comm. fold (dropZ pos b1). rewrite Hp1.
    replace (Z.to_nat (pos + 2) - Z.to_nat pos)%nat with 2%nat by lia. done. }
  rewrite <-app_assoc. f_equal. f_equal. rewrite (dropZ_split pos (pos + 2 + 2)) by lia. rewrite Hp1.
  replace (pos + 2 + 2 - pos) with 4 by lia.
  rewrite dropZ_app_r by (simpl; done). change (4 - lenZ (dec_pair d1)) with 2.
  rewrite dropZ_dropZ by lia. f_equal. lia.
Qed.

(** The last four digits of a number of five or more. *)
Lemma format_decimal_quad n :
  10000 <= n ->
  format_decimal n = format_decimal (n / 10000) ++ dec_pair (n mod 10000 / 100) ++ dec_pair (n mod 10000 mod 100).
Proof.
  intros Hbig. rewrite format_decimal_pair by lia. assert (100 <= n / 100) by (apply Z.div_le_lower_bound; lia).
  rewrite format_decimal_pair by done. rewrite Z.div_div by lia. change (100 * 100) with 10000.
  rewrite <-!app_assoc. do 2 f_equal.
  - f_equal. pose proof (Z.div_mod n 10000). pose proof (Z.div_mod n 100).
    pose proof (Z.mod_pos_bound n 100). pose proof (Z.div_mod (n / 100) 100).
    pose proof (Z.mod_pos_bound (n / 100) 100). pose proof (Z.mod_pos_bound n 10000). rewrite Z.div_div in * by lia. simpl in *.
    pose proof (Z.div_mod (n mod 10000) 100). pose proof (Z.mod_pos_bound (n mod 10000) 100). lia.
  - f_equal. rewrite Z.mod_mod_divide; [done|]. by exists 100.
Qed.

Lemma convert_loop_ok fuel n curr buf tail :
  0 <= n < 10000 * 10000 ^ Z.of_nat fuel -> 4 * Z.of_nat fuel <= curr <= lenZ buf ->
  dropZ curr buf = tail ->
  exists m curr' buf' mid, convert_loop (S fuel) n curr buf = Ret (m, curr', buf') /\
    0 <= m < 10000 /\ curr - 4 * Z.of_nat fuel <= curr' <= curr /\ lenZ buf' = lenZ buf /\
    dropZ curr' buf' = mid ++ tail /\ format_decimal n = format_decimal m ++ mid.
Proof.
  revert n curr buf tail. induction fuel as [|fuel IH]; intros n curr buf tail Hn Hc Ht.
  { simpl in Hn. cbn [convert_loop]. rewrite (proj2 (Z.leb_gt 10000 n)) by lia.
    exists n, curr, buf, []. rewrite app_nil_r. split_and!; try done; lia. }
  change (convert_loop (S (S fuel)) n curr buf) with
    (if 10000 <=? n then
       buf ← copy2 (Z.shiftl (n mod 10000 / 100) 1) buf (curr - 4);
       buf ← copy2 (Z.shiftl (n mod 10000 mod 100) 1) buf (curr - 4 + 2);
       convert_loop (S fuel) (n / 10000) (curr - 4) buf
     else Ret (n, curr, buf)).
  destruct (Z.leb_spec 10000 n) as [Hbig|Hsmall].
  2: { exists n, curr, buf, []. rewrite app_nil_r. split_and!; try done; lia. }
  pose proof (Z.mod_pos_bound n 10000 ltac:(lia)) as Hr.
  destruct (copy4_ok (n mod 10000 / 100) (n mod 10000 mod 100) buf (curr - 4)) as (b1 & b2 & -> & Hc2 & Hl2 & Hd2).
  { split; [apply Z.div_pos; lia|apply Z.div_lt_upper_bound; lia]. }
  { apply Z.mod_pos_bound. lia. } { lia. } { lia. }
  cbn [mbind run_bind]. rewrite Hc2. cbn [mbind run_bind].
  replace (curr - 4 + 4) with curr in Hd2 by lia. rewrite Ht in Hd2.
  edestruct (IH (n / 10000) (curr - 4) b2) as (m & c' & b' & mid' & -> & Hm & Hc' & Hl' & Hd' & Hf); [| |exact Hd2|].
  { assert (0 < n / 10000) by (apply Z.div_str_pos; lia). split; [lia|].
    apply Z.div_lt_upper_bound; [lia|]. rewrite Nat2Z.inj_succ, Z.pow_succ_r in Hn by lia. lia. }
  { lia. }
  eexists m, c', b', (mid' ++ _). rewrite <-app_assoc. split_and!; try done; try lia.
  by rewrite format_decimal_quad, Hf, <-app_assoc by done.
Qed.

(** The last one or two digits. *)
Lemma convert_last m c b out :
  0 <= m < 100 -> 2 <= c <= lenZ b ->
  ('(curr, buf) ← (if m <? 10 then buf ← poke b (c - 1) [m + 48]; Ret (c - 1, buf)
                   else buf ← copy2 (Z.shiftl m 1) b (c - 2); Ret (c - 2, buf));
   extend_from_slice (dropZ curr buf) out) = extend_from_slice (format_decimal m ++ dropZ c b) out.
Proof.
  intros Hm Hc. destruct (Z.ltb_spec m 10) as [H10|H10].
  - destruct (poke_ok b (c - 1) [m + 48]) as (b1 & -> & _ & _ & Hp); [lia|change (lenZ [m + 48]) with 1; lia|].
    simpl. rewrite Hp, format_decimal_digit by lia. change (lenZ [m + 48]) with 1.
    replace (c - 1 + 1) with c by lia. by rewrite (Z.add_comm m).
  - destruct (copy2_ok m b (c - 2)) as (b1 & -> & _ & _ & Hp); [lia..|].
    simpl. rewrite Hp, format_decimal_two by lia. by replace (c - 2 + 2) with c by lia.
Qed.

Lemma convert_usize_ok uninit n out :
  lenZ uninit = 41 -> 0 <= n < 2 ^ 64 ->
  convert_usize uninit n out = extend_from_slice (format_decimal n ++ [13; 10]) out.
Proof.
  intros Hu Hn. unfold convert_usize.
  destruct (poke_ok uninit 39 [13; 10]) as (buf & -> & Hl & _ & Hd); [lia|rewrite Hu; done|].
  cbn [mbind run_bind]. assert (dropZ 39 buf = [13; 10]) as Hd'.
  { rewrite Hd. rewrite (dropZ_all (39 + lenZ [13; 10])); [done|]. rewrite Hu. done. }
  destruct (convert_loop_ok 5 n 39 buf [13; 10]) as (m & c & b & mid & -> & Hm & Hc & Hl2 & Hd2 & Hf);
    [|lia|done|].
  { split; [lia|]. apply Z.lt_le_trans with (2 ^ 64); [lia|vm_compute; discriminate]. }
  cbn [mbind run_bind]. rewrite Hf, <-app_assoc, <-Hd2. simpl in Hc.
  destruct (Z.leb_spec 100 m) as [H100|H100].
  - pose proof (Z.mod_pos_bound m 100 ltac:(lia)) as Hm100.
    destruct (copy2_ok (m mod 100) b (c - 2)) as (b1 & -> & Hl1 & _ & Hp1); [lia..|]. cbn [mbind run_bind].
    rewrite (format_decimal_pair m) by done. replace (c - 2 + 2) with c in Hp1 by lia.
    assert (0 < m / 100 < 100) as Hq.
    { split; [apply Z.div_str_pos; lia|apply Z.div_lt_upper_bound; lia]. }
    rewrite <-app_assoc, <-Hp1. by apply convert_last; [..|lia|lia].
  - by apply convert_last; [..|lia|lia].
Qed.

(** ** Short renderings, by evaluation *)
Definition version_str (v : Version) : bytes :=
  match v with
  | HTTP_09 => b#"HTTP/0.9"
  | HTTP_10 => b#"HTTP/1.0"
  | HTTP_11 => b#"HTTP/1.1"
  | HTTP_2 => b#"HTTP/2.1"
  end.
Definition status_line (v : Version) (n : Z) : bytes :=
  version_str v ++ b#" " ++ format_decimal n ++ b#" ".
Definition content_length_line (n : Z) : bytes :=
  content_length_prefix ++ format_decimal n ++ [13; 10].

Lemma seqZ_all (P : Z -> bool) lo len n :
  forallb P (seqZ lo len) = true -> lo <= n < lo + len -> P n = true.
Proof.
  intros Hall Hn. rewrite forallb_forall in Hall. apply Hall. rewrite <-list_elem_of_In, elem_of_seqZ. lia.
Qed.

Lemma status_line_buf_ok v n :
  100 <= n < 1000 -> status_line_buf v n = Ret (status_line v n) /\ lenZ (status_line v n) = 13.
Proof.
  intros Hn.
  assert (bool_decide (status_line_buf v n = Ret (status_line v n) /\ lenZ (status_line v n) = 13) = true)
    as ?%bool_decide_eq_true; [|done].
  apply (seqZ_all (fun n => bool_decide (status_line_buf v n = Ret (status_line v n) /\
    lenZ (status_line v n) = 13)) 100 900 n); [|lia].
  destruct v; vm_compute; reflexivity.
Qed.

Lemma write_status_line_ok v n b :
  100 <= n < 1000 -> 13 <= bm_spare b ->
  write_status_line v n b = Ret (mkBM (bm_data b ++ status_line v n) (bm_spare b - 13)).
Proof.
  intros Hn Hs. destruct (status_line_buf_ok v n Hn) as [Hb Hl].
  unfold write_status_line. rewrite Hb. cbn [mbind run_bind]. rewrite put_slice_ok by lia.
  cbn [mbind run_bind]. rewrite (proj2 (Z.ltb_ge 999 n)) by lia. by rewrite Hl.
Qed.

Lemma content_length_buf_ok n :
  0 <= n < 1000 ->
  content_length_buf n = Ret (content_length_line n) /\ lenZ (content_length_line n) <= 23.
Proof.
  intros Hn.
  assert (bool_decide (content_length_buf n = Ret (content_length_line n) /\
    lenZ (content_length_line n) <= 23) = true) as ?%bool_decide_eq_true; [|done].
  apply (seqZ_all (fun n => bool_decide (content_length_buf n = Ret (content_length_line n) /\
    lenZ (content_length_line n) <= 23)) 0 1000 n); [|lia].
  vm_compute. reflexivity.
Qed.

Lemma write_content_length_ok uninit n b :
  lenZ uninit = 41 -> 0 <= n < 2 ^ 64 -> 23 <= bm_spare b ->
  exists b', write_content_length uninit n b = Ret b' /\ appended b (content_length_line n) b'.
Proof.
  intros Hu Hn Hs. unfold write_content_length. destruct (Z.ltb_spec n 1000) as [Hlt|Hge].
  - destruct (content_length_buf_ok n ltac:(lia)) as [-> Hl]. cbn [mbind run_bind].
    rewrite put_slice_ok by lia. eexists. split; [done|]. unfold appended, bm_wf. simpl. split; [lia|done].
  - rewrite put_slice_ok by (change (lenZ content_length_prefix) with 18; lia).
    cbn [mbind run_bind]. rewrite convert_usize_ok by done.
    destruct (extend_from_slice_ok (format_decimal n ++ [13; 10])
      (mkBM (bm_data b ++ content_length_prefix) (bm_spare b - lenZ content_length_prefix))) as (b' & -> & Hw & Hd).
    exists b'. split; [done|]. split; [done|]. rewrite Hd. simpl. by rewrite <-app_assoc.
Qed.

(** The table-driven formatting of response heads is decimal formatting: for every
    status of three digits and every [usize], whatever the uninitialized stack buffer
    holds and however much the allocator reserves, [write_status_line],
    [write_content_length] and [convert_usize] append exactly the decimal text and never
    read or write outside of the table and the buffers; the first two need 13 and 23
    bytes of space, the last none. *)
Theorem head_formatting_correct (uninit : bytes) (b : BytesMut) (v : Version) (status n : Z) :
  lenZ uninit = 41 -> 100 <= status < 1000 -> 0 <= n < 2 ^ 64 ->
  (13 <= bm_spare b -> exists b', write_status_line v status b = Ret b' /\
     appended b (version_str v ++ b#" " ++ format_decimal status ++ b#" ") b') /\
  (23 <= bm_spare b -> exists b', write_content_length uninit n b = Ret b' /\
     appended b (content_length_prefix ++ format_decimal n ++ [13; 10]) b') /\
  (exists b', convert_usize uninit n b = Ret b' /\ appended b (format_decimal n ++ [13; 10]) b') /\
  parse_u64 (format_decimal n) = Some n.
Proof.
  intros Hu Hs Hn. split_and!.
  - intros Hsp. rewrite write_status_line_ok by done. eexists. split; [done|].
    unfold appended, bm_wf. simpl. split; [lia|done].
  - intros Hsp. by apply write_content_length_ok.
  - rewrite convert_usize_ok by done. apply extend_from_slice_ok.
  - by apply parse_format_u64.
Qed.
End Formatting.

Lemma head_formatting_correct_witness :
  exists b', write_content_length (H := exact_alloc) (repeat 255 41) 18446744073709551615 (mkBM [] 23) = Ret b' /\
    bm_data b' = content_length_prefix ++ b#"18446744073709551615" ++ [13; 10].
Proof.
  destruct (head_formatting_correct (H := exact_alloc) (repeat 255 41) (mkBM [] 23) HTTP_11 200
              18446744073709551615) as (_ & Hc & _); [reflexivity|lia|lia|].
  destruct Hc as (b' & Hw & _ & Hd); [simpl; lia|]. exists b'. split; [exact Hw|exact Hd].
Defined.
