(* ===== verification/ContentEncoder.v ===== *)
(** * Encoding of response bodies (src/src/server/encoding.rs, [ContentEncoder] and
      [AcceptEncoding])

    The content encoding is negotiated, the body of a response is compressed, and the
    transfer encoding is chosen together with the headers that announce it.  The
    compressors (flate2, brotli) are external: what they emit goes, piece by piece,
    through the transfer encoding into the output buffer they share with the writer. *)
From S2P Require Import Prelude StrLib Errors Http Response Decoder Transfer H1Reader PayloadType.
From Stdlib Require Import QArith.
Open Scope Z_scope.

(** ** Negotiation *)

(** [f64::from_str], where it gives a finite number; a parameter [q=...] is none. *)
Class F64FromStr := {
  f64_from_str : bytes -> option Q;
  f64_no_q s : f64_from_str (b#"q=" ++ s) = None;
}.

Definition ACCEPT_ENCODING : bytes := b#"accept-encoding".

Definition encoding_quality (e : ContentEncoding) : Q :=
  match e with
  | Enc_Br => 11 # 10
  | Enc_Gzip => 1
  | Enc_Deflate => 9 # 10
  | Enc_Identity | Enc_Auto => 1 # 10
  end.

Record AcceptEncoding : Type := mkAE { ae_encoding : ContentEncoding; ae_quality : Q }.

(** [Ord for AcceptEncoding]: a higher quality is less. *)
Definition ae_cmp (self other : AcceptEncoding) : comparison :=
  match Qcompare (ae_quality self) (ae_quality other) with
  | Gt => Lt
  | Lt => Gt
  | Eq => Eq
  end.
(** [Ord for Option]. *)
Definition opt_ae_cmp (a b : option AcceptEncoding) : comparison :=
  match a, b with
  | None, None => Eq
  | None, Some _ => Lt
  | Some _, None => Gt
  | Some a, Some b => ae_cmp a b
  end.

(** [slice::sort], a stable sort. *)
Fixpoint sort_insert {A} (cmp : A -> A -> comparison) (x : A) (l : list A) : list A :=
  match l with
  | [] => [x]
  | y :: l' => match cmp x y with Gt => y :: sort_insert cmp x l' | _ => x :: l end
  end.
Definition stable_sort {A} (cmp : A -> A -> comparison) (l : list A) : list A :=
  foldr (sort_insert cmp) [] l.

Section Negotiation.
Context `{F64FromStr}.

Definition AcceptEncoding_new (tag : bytes) : option AcceptEncoding :=
  match split_on 59 tag with
  | [] => None
  | [p] => let encoding := ContentEncoding_from p in Some (mkAE encoding (encoding_quality encoding))
  | p :: q :: _ => Some (mkAE (ContentEncoding_from p) (default (0 # 1) (f64_from_str q)))
  end.

(** The loop over the sorted encodings. *)
Fixpoint first_encoding (l : list (option AcceptEncoding)) : ContentEncoding :=
  match l with
  | [] => Enc_Identity
  | Some enc :: _ => ae_encoding enc
  | None :: l => first_encoding l
  end.

Definition accepted (raw : bytes) : list (option AcceptEncoding) :=
  map AcceptEncoding_new (split_on 44 (filter (fun b => b <> 32) raw)).

Definition AcceptEncoding_parse (raw : bytes) : ContentEncoding :=
  first_encoding (stable_sort opt_ae_cmp (accepted raw)).
End Negotiation.

(** ** Compressors *)

(** [write_all] and [finish] give the pieces passed on to the inner writer, which
    never refuses them; [cp_drop] the ones written when an unfinished compressor is
    dropped. *)
Class Compressor (Z' : Type) := {
  cp_new : ContentEncoding -> Z';
  cp_write : bytes -> Z' -> list bytes * result unit IoError * Z';
  cp_finish : Z' -> list bytes * result unit IoError;
  cp_drop : Z' -> list bytes;
}.

Section Encoders.
Context {Z' : Type} `{CP : Compressor Z'}.

(** The encoders hold the shared output buffer; it is passed along here.  [CE_Taken] is
    what [write_eof] leaves behind when a compressor fails: an encoder without buffer. *)
Inductive ContentEncoder : Type :=
| CE_Deflate (c : Z') (k : TransferEncodingKind)
| CE_Gzip (c : Z') (k : TransferEncodingKind)
| CE_Br (c : Z') (k : TransferEncodingKind)
| CE_Identity (k : TransferEncodingKind)
| CE_Taken.

Definition ContentEncoder_empty : ContentEncoder := CE_Identity TE_Eof.

Definition ce_kind (e : ContentEncoder) : TransferEncodingKind :=
  match e with
  | CE_Deflate _ k | CE_Gzip _ k | CE_Br _ k | CE_Identity k => k
  | CE_Taken => TE_Eof
  end.

(** The last [match] of [for_server]. *)
Definition ce_new (encoding : ContentEncoding) (k : TransferEncodingKind) : ContentEncoder :=
  match encoding with
  | Enc_Deflate => CE_Deflate (cp_new Enc_Deflate) k
  | Enc_Gzip => CE_Gzip (cp_new Enc_Gzip) k
  | Enc_Br => CE_Br (cp_new Enc_Br) k
  | Enc_Identity | Enc_Auto => CE_Identity k
  end.

(** Pieces written to the transfer encoding. *)
Definition te_pieces (pieces : list bytes) (k : TransferEncodingKind) (buf : bytes) : TransferEncoding :=
  foldl (fun t p => (te_write t p).2) (mkTE k buf) pieces.

Definition ce_is_eof (e : ContentEncoder) : bool := te_is_eof (mkTE (ce_kind e) []).

Definition finish_compressor (c : Z') (k : TransferEncodingKind) (buf : bytes)
  : result unit IoError * ContentEncoder * bytes :=
  let '(pieces, r) := cp_finish c in
  let t := te_pieces pieces k buf in
  match r with
  | Ok _ => let t := te_encode_eof t in (Ok tt, CE_Identity (te_kind t), te_buffer t)
  | Err err => (Err err, CE_Taken, te_buffer t)
  end.

Definition ce_write_eof (e : ContentEncoder) (buf : bytes) : result unit IoError * ContentEncoder * bytes :=
  match e with
  | CE_Br c k | CE_Gzip c k | CE_Deflate c k => finish_compressor c k buf
  | CE_Identity k =>
      let t := te_encode_eof (mkTE k buf) in (Ok tt, CE_Identity (te_kind t), te_buffer t)
  | CE_Taken => (Ok tt, CE_Taken, buf)
  end.

Definition ce_write (data : Binary) (e : ContentEncoder) (buf : bytes)
  : run (result unit IoError * ContentEncoder * bytes) :=
  let compress c k wrap :=
    let '(pieces, r, c) := cp_write (Binary_as_ref data) c in
    let t := te_pieces pieces k buf in
    Ret (r, (wrap c (te_kind t) : ContentEncoder), te_buffer t) in
  match e with
  | CE_Br c k => compress c k CE_Br
  | CE_Gzip c k => compress c k CE_Gzip
  | CE_Deflate c k => compress c k CE_Deflate
  | CE_Identity k =>
      let '(r, t) := te_encode (mkTE k buf) data in
      Ret (match r with Ok _ => Ok tt | Err err => Err err end, CE_Identity (te_kind t), te_buffer t)
  | CE_Taken => Panic
  end.

(** Dropping an encoder. *)
Definition ce_drop (e : ContentEncoder) (buf : bytes) : bytes :=
  match e with
  | CE_Br c k | CE_Gzip c k | CE_Deflate c k => te_buffer (te_pieces (cp_drop c) k buf)
  | CE_Identity _ | CE_Taken => buf
  end.

(** ** The encoder of a response *)
Section ForServer.
Context {H : Type} `{HM : HeaderMap H} `{FF : F64FromStr}.
Notation Resp := (InnerHttpResponse H).
Notation Msg := (HttpInnerMessage H).

Definition insert_header (k v : bytes) (r : Resp) : Resp := set_r_headers (hm_insert k v (r_headers r)) r.
Definition remove_header (k : bytes) (r : Resp) : Resp := set_r_headers (hm_remove k (r_headers r)) r.

Definition streaming_encoding (version : Version) (resp : Resp) : TransferEncodingKind * Resp :=
  match r_chunked resp with
  | Some true =>
      (* Enable transfer encoding *)
      let resp := remove_header CONTENT_LENGTH resp in
      if decide (version = HTTP_2) then (TE_Eof, remove_header TRANSFER_ENCODING resp)
      else (TE_Chunked false, insert_header TRANSFER_ENCODING (b#"chunked") resp)
  | Some false => (TE_Eof, resp)
  | None =>
      (* if Content-Length is specified, then use it as length hint *)
      let '(len, chunked) :=
        match hm_get CONTENT_LENGTH (r_headers resp) with
        | Some len =>
            match hv_to_str len with
            | Some s => match parse_u64 s with
                        | Some len => (Some len, false)
                        | None => (None, false)
                        end
            | None => (None, false)
            end
        | None => (None, true)
        end in
      if negb chunked then
        match len with Some len => (TE_Length len, resp) | None => (TE_Eof, resp) end
      else
        (* Enable transfer encoding *)
        match version with
        | HTTP_11 => (TE_Chunked false, insert_header TRANSFER_ENCODING (b#"chunked") resp)
        | _ => (TE_Eof, remove_header TRANSFER_ENCODING resp)
        end
  end.

(** The negotiated content encoding of a response that has a body. *)
Definition negotiate (req : Msg) (response_encoding : ContentEncoding) : ContentEncoding :=
  match response_encoding with
  | Enc_Auto =>
      match hm_get ACCEPT_ENCODING (msg_headers req) with
      | Some val => match hv_to_str val with
                    | Some enc => AcceptEncoding_parse enc
                    | None => Enc_Identity
                    end
      | None => Enc_Identity
      end
  | encoding => encoding
  end.

(** The compression of a body that is at hand: [tmp] is a buffer of its own, and
    failures of the compressor are ignored. *)
Definition compress_binary (encoding : ContentEncoding) (data : Binary) : run Binary :=
  '(_, enc, tmp) ← ce_write (Binary_clone data) (ce_new encoding TE_Eof) [];
  let '(_, _, tmp) := ce_write_eof enc tmp in
  Ret (Bin_Bytes tmp).

Definition has_body (response_encoding : ContentEncoding) (body : Body) : bool :=
  match body with
  | Body_Empty => false
  | Body_Binary bin => negb (bool_decide (response_encoding = Enc_Auto) && (Binary_len bin <? 96))
  | _ => true
  end.

Definition for_server (req : Msg) (resp : Resp) (response_encoding : ContentEncoding)
  : run (ContentEncoder * Resp) :=
  let version := default (msg_version req) (r_version resp) in
  let is_head := bool_decide (msg_method req = HEAD) in
  let '(body, resp) := resp_replace_body Body_Empty resp in
  let '(encoding, resp) :=
    if has_body response_encoding body then
      let encoding := negotiate req response_encoding in
      (encoding, if is_compression encoding
                 then insert_header CONTENT_ENCODING (encoding_as_str encoding) resp else resp)
    else (Enc_Identity, resp) in
  '(kind, body, encoding, resp) ←
    match body with
    | Body_Empty =>
        Ret (TE_Length 0, body, encoding,
             if negb is_head then remove_header CONTENT_LENGTH resp else resp)
    | Body_Binary bytes_ =>
        '(bytes_, encoding) ←
          (if negb (bool_decide (encoding = Enc_Identity) || bool_decide (encoding = Enc_Auto))
           then bytes_ ← compress_binary encoding bytes_; Ret (bytes_, Enc_Identity)
           else Ret (bytes_, encoding));
        Ret (TE_Eof, Body_Binary bytes_, encoding,
             if is_head then insert_header CONTENT_LENGTH (format_decimal (Binary_len bytes_)) resp
             else resp)
    | Body_Streaming _ | Body_Actor _ =>
        if resp_upgrade resp then
          let resp := if decide (version = HTTP_2) then resp
                      else insert_header CONNECTION (b#"upgrade") resp in
          if negb (bool_decide (encoding = Enc_Identity))
          then Ret (TE_Eof, body, Enc_Identity, remove_header CONTENT_ENCODING resp)
          else Ret (TE_Eof, body, encoding, resp)
        else
          let '(kind, resp) := streaming_encoding version resp in
          Ret (kind, body, encoding, resp)
    end;
  let '(kind, resp) := if is_head then (TE_Length 0, resp)
                       else (kind, (resp_replace_body body resp).2) in
  Ret (ce_new encoding kind, resp).
End ForServer.
End Encoders.
Arguments ContentEncoder : clear implicits.

(** ** What negotiation chooses *)
Section Choice.
Context `{F64FromStr}.

Lemma AcceptEncoding_new_Some tag : exists a, AcceptEncoding_new tag = Some a.
Proof.
  unfold AcceptEncoding_new. pose proof (split_on_nonempty 59 tag) as Hn.
  destruct (split_on 59 tag) as [|p [|q l]]; [done|by eexists..].
Qed.

Lemma accepted_Some raw : exists l, l <> [] /\ accepted raw = map Some l.
Proof.
  unfold accepted. set (tags := split_on 44 _).
  assert (tags <> []) as Hn by apply split_on_nonempty. clearbody tags. clear raw.
  assert (exists l, length l = length tags /\ map AcceptEncoding_new tags = map Some l) as (l & Hl & ->).
  { clear Hn. induction tags as [|t tags (l & Hl & IH)]; [by exists []|].
    destruct (AcceptEncoding_new_Some t) as [a Ha]. exists (a :: l). simpl. by rewrite Ha, IH, Hl. }
  exists l. split; [|done]. intros ->. by destruct tags.
Qed.

Lemma sort_insert_map x l :
  sort_insert opt_ae_cmp (Some x) (map Some l) = map Some (sort_insert ae_cmp x l).
Proof. induction l as [|y l IH]; [done|]. simpl. destruct (ae_cmp x y); simpl; by rewrite ?IH. Qed.

Lemma stable_sort_map l : stable_sort opt_ae_cmp (map Some l) = map Some (stable_sort ae_cmp l).
Proof.
  induction l as [|x l IH]; [done|]. change (sort_insert opt_ae_cmp (Some x) (stable_sort opt_ae_cmp (map Some l)) =
    map Some (stable_sort ae_cmp (x :: l))). rewrite IH. apply sort_insert_map.
Qed.

(** The head of the sorted list is the first of the best. *)
Lemma stable_sort_head l :
  l <> [] -> exists l1 a l2 tl, stable_sort ae_cmp l = a :: tl /\ l = l1 ++ a :: l2 /\
    Forall (fun b => (ae_quality b < ae_quality a)%Q) l1 /\
    Forall (fun b => (ae_quality b <= ae_quality a)%Q) l2.
Proof.
  induction l as [|x l IH]; [done|intros _]. destruct l as [|y l].
  { exists [], x, [], []. done. }
  destruct IH as (l1 & a & l2 & tl & Hs & Hl & H1 & H2); [done|].
  change (stable_sort ae_cmp (x :: y :: l)) with (sort_insert ae_cmp x (stable_sort ae_cmp (y :: l))).
  rewrite Hs. cbn [sort_insert]. unfold ae_cmp at 1.
  destruct (Qcompare (ae_quality x) (ae_quality a)) eqn:Hc.
  2: { exists (x :: l1), a, l2. eexists. split; [done|]. rewrite Hl. split_and!; [done| |done].
       constructor; [by apply Qlt_alt|done]. }
  all: assert (ae_quality a <= ae_quality x)%Q as Hle by
    first [apply Qeq_alt in Hc; rewrite Hc; apply Qle_refl|apply Qgt_alt in Hc; by apply Qlt_le_weak].
  all: exists [], x, (y :: l); eexists; split; [done|]; split_and!; [done|done|].
  all: rewrite Hl; apply Forall_app; split; [|constructor; [done|]].
  all: eapply Forall_impl; [done|]; simpl; intros b Hb.
  all: first [by eapply Qle_trans, Hle|eapply Qle_trans, Hle; by apply Qlt_le_weak].
Qed.

Lemma AcceptEncoding_parse_best raw l :
  accepted raw = map Some l ->
  AcceptEncoding_parse raw = match stable_sort ae_cmp l with a :: _ => ae_encoding a | [] => Enc_Identity end.
Proof. intros Hl. unfold AcceptEncoding_parse. rewrite Hl, stable_sort_map. by destruct (stable_sort _ _). Qed.

(** A list of codings, all with the weights the grammar of [Accept-Encoding] has. *)
Definition weighted (codings : list (bytes * bytes)) : bytes :=
  join 44 (map (fun '(name, q) => name ++ b#";q=" ++ q) codings).
Definition plain (s : bytes) : Prop := Forall (fun b => b <> 32 /\ b <> 44 /\ b <> 59) s.

Lemma AcceptEncoding_new_weighted name q :
  plain name -> plain q -> AcceptEncoding_new (name ++ b#";q=" ++ q) = Some (mkAE (ContentEncoding_from name) (0 # 1)).
Proof.
  intros Hn Hq. unfold AcceptEncoding_new.
  assert (name ++ b#";q=" ++ q = join 59 [name; b#"q=" ++ q]) as -> by done.
  assert (forall s, plain s -> 59 ∉ s) as Hp.
  { intros s Hs Hin. unfold plain in Hs. rewrite Forall_forall in Hs. by destruct (Hs 59 Hin) as (_ & _ & ?). }
  rewrite split_on_join; [by rewrite f64_no_q|done|]. repeat constructor; [by apply Hp|].
  intros [[=]|[[=]|?%Hp]%elem_of_cons]%elem_of_cons; done.
Qed.

Lemma filter_plain s : Forall (fun b : Z => b <> 32) s -> filter (fun b => b <> 32) s = s.
Proof. intros Hf. induction Hf; [done|]. by rewrite filter_cons_True, IHHf. Qed.

Lemma accepted_weighted codings :
  codings <> [] -> Forall (fun '(name, q) => plain name /\ plain q) codings ->
  accepted (weighted codings) = map (fun '(name, _) => Some (mkAE (ContentEncoding_from name) (0 # 1))) codings.
Proof.
  intros Hne Hp. unfold accepted, weighted. set (ws := map _ codings).
  assert (Forall (fun w => Forall (fun b => b <> 32 /\ b <> 44) w) ws) as Hw.
  { apply Forall_map. eapply Forall_impl; [done|]. intros [name q] [Hn Hq]. simpl.
    apply Forall_app. split; [|do 3 (constructor; [split; discriminate|])].
    all: eapply Forall_impl; [done|]; naive_solver. }
  rewrite filter_plain.
  2: { assert (ws <> []) as Hws by (by destruct codings).
       clear -Hw Hws. induction Hw as [|w ws Hw Hf IH]; [done|]. destruct ws as [|w' ws].
       - eapply Forall_impl; [done|]. naive_solver.
       - change (join 44 (w :: w' :: ws)) with (w ++ [44] ++ join 44 (w' :: ws)). rewrite !Forall_app.
         split_and!; [eapply Forall_impl; [done|]; naive_solver|repeat constructor; discriminate|by apply IH]. }
  rewrite split_on_join.
  - unfold ws. rewrite map_map. apply map_ext_in. intros [name q] Hin%list_elem_of_In.
    rewrite Forall_forall in Hp. destruct (Hp _ Hin). by apply AcceptEncoding_new_weighted.
  - unfold ws. by destruct codings.
  - eapply Forall_impl; [done|]. intros w Hf Hin. simpl in Hf. rewrite Forall_forall in Hf. by destruct (Hf _ Hin).
Qed.

(** Content negotiation picks the first of the codings with the highest quality; but
    since a weight [q=...] is never read as a number, every coding that carries one has
    quality 0, and of codings that all carry one the first is used: also one that the
    client refuses with [q=0]. *)
Theorem accept_encoding_choice (raw : bytes) (codings : list (bytes * bytes)) (name q : bytes) :
  Forall (fun '(name, q) => plain name /\ plain q) ((name, q) :: codings) ->
  (exists l1 a l2, accepted raw = map Some (l1 ++ a :: l2) /\ AcceptEncoding_parse raw = ae_encoding a /\
     Forall (fun b => (ae_quality b < ae_quality a)%Q) l1 /\
     Forall (fun b => (ae_quality b <= ae_quality a)%Q) l2) /\
  AcceptEncoding_parse (weighted ((name, q) :: codings)) = ContentEncoding_from name.
Proof.
  intros Hp. split.
  - destruct (accepted_Some raw) as (l & Hn & Hl). destruct (stable_sort_head l Hn) as (l1 & a & l2 & tl & Hs & -> & ?).
    exists l1, a, l2. rewrite (AcceptEncoding_parse_best raw _ Hl), Hs. done.
  - set (l := map (fun '(name, _) => mkAE (ContentEncoding_from name) (0 # 1)) ((name, q) :: codings)).
    assert (accepted (weighted ((name, q) :: codings)) = map Some l) as Hl.
    { rewrite accepted_weighted by done. unfold l. rewrite map_map. apply map_ext. by intros []. }
    rewrite (AcceptEncoding_parse_best _ _ Hl).
    destruct (stable_sort_head l) as (l1 & a & l2 & tl & -> & Ha & Hlt & _); [done|].
    assert (Forall (fun b => ae_quality b = (0 # 1)) l) as H0.
    { apply Forall_map, Forall_forall. by intros []. }
    destruct l1 as [|b l1]; [by injection Ha as <-|]. exfalso.
    rewrite Ha in H0. inversion Hlt as [|? ? Hb _]; subst. inversion H0 as [|? ? Hq0 Hr]; subst.
    apply Forall_app in Hr as [_ Hr]. inversion Hr as [|? ? Hq1 _]; subst. rewrite Hq0, Hq1 in Hb.
    by apply Qlt_irrefl in Hb.
Qed.
End Choice.

(** ** Witnesses *)

(** Numbers without a fraction. *)
Definition integer_f64 : F64FromStr.
Proof.
  refine {| f64_from_str := fun s => if starts_with (b#"q=") s then None else inject_Z <$> parse_u64 s |}.
  intros s. assert (starts_with (b#"q=") (b#"q=" ++ s) = true) as ->; [|done].
  apply starts_with_app. by exists s.
Defined.

Lemma accept_encoding_choice_witness :
  AcceptEncoding_parse (H := integer_f64) (b#"br;q=0,gzip;q=1") = Enc_Br.
Proof.
  destruct (accept_encoding_choice (H := integer_f64) [] [(b#"gzip", b#"1")] (b#"br") (b#"0")) as [_ Hp].
  - repeat constructor; vm_compute; discriminate.
  - exact Hp.
Defined.
