(* ===== verification/H1Writer.v ===== *)
(** * Writing responses (src/src/server/h1writer.rs)

    [H1Writer] renders the head of a response through the spare capacity of the output
    buffer, encodes the body behind it, and flushes the buffer to the socket.  The
    reason phrases of the [http] crate, the cached date, the contents of uninitialized
    memory and the spare capacity at hand are parameters. *)
From S2P Require Import Prelude StrLib Errors Http Response Decoder Transfer H1Reader PayloadType.
From S2P Require Import SharedBytes ServerHelpers ContentEncoder Pipeline.
Open Scope Z_scope.

(** ** The socket

    What successive [read], [write] and [shutdown] calls answer; [io_sent] collects
    the bytes the peer gets.  An answer [Ok n] to a write accepts at most [n] bytes; a
    script that has run out blocks. *)
Record Io : Type := mkIo {
  io_reads : socket;
  io_writes : list (result Z IoError);
  io_shutdowns : list (poll unit IoError);
  io_sent : bytes;
  io_closed : bool;
}.

Definition would_block : IoError := mkIoError WouldBlock "".

Definition set_io_reads v s := mkIo v (io_writes s) (io_shutdowns s) (io_sent s) (io_closed s).

Definition io_write (data : bytes) (s : Io) : result Z IoError * Io :=
  match io_writes s with
  | [] => (Err would_block, s)
  | Err e :: ws => (Err e, mkIo (io_reads s) ws (io_shutdowns s) (io_sent s) (io_closed s))
  | Ok n :: ws =>
      let n := Z.max 0 (Z.min n (lenZ data)) in
      (Ok n, mkIo (io_reads s) ws (io_shutdowns s) (io_sent s ++ takeZ n data) (io_closed s))
  end.

Definition io_shutdown (s : Io) : poll unit IoError * Io :=
  match io_shutdowns s with
  | [] => (NotReady, s)
  | r :: rs => (r, mkIo (io_reads s) (io_writes s) rs (io_sent s)
                     (io_closed s || match r with Ready _ => true | _ => false end))
  end.

Section Writing.
Context {H : Type} `{HM : HeaderMap H} {Z' : Type} `{CP : Compressor Z'} `{FF : F64FromStr} `{AL : Allocator}.
Context (canonical_reason : Z -> option bytes) (date uninit : bytes) (spare : bytes -> Z).
Notation Resp := (InnerHttpResponse H).
Notation Msg := (HttpInnerMessage H).
Notation Encoder := (ContentEncoder Z').

Definition AVERAGE_HEADER_SIZE : Z := 30.

Record H1Writer : Type := mkH1W {
  hw_started : bool;
  hw_upgrade : bool;
  hw_keepalive : bool;
  hw_disconnected : bool;
  hw_stream : Io;
  hw_encoder : Encoder;
  hw_written : Z;
  hw_headers_size : Z;
  hw_buffer : bytes;
  hw_buffer_capacity : Z;
}.

Definition set_hw_stream v w := mkH1W (hw_started w) (hw_upgrade w) (hw_keepalive w) (hw_disconnected w)
  v (hw_encoder w) (hw_written w) (hw_headers_size w) (hw_buffer w) (hw_buffer_capacity w).
Definition set_hw_encoder v w := mkH1W (hw_started w) (hw_upgrade w) (hw_keepalive w) (hw_disconnected w)
  (hw_stream w) v (hw_written w) (hw_headers_size w) (hw_buffer w) (hw_buffer_capacity w).
Definition set_hw_written v w := mkH1W (hw_started w) (hw_upgrade w) (hw_keepalive w) (hw_disconnected w)
  (hw_stream w) (hw_encoder w) v (hw_headers_size w) (hw_buffer w) (hw_buffer_capacity w).
Definition set_hw_headers_size v w := mkH1W (hw_started w) (hw_upgrade w) (hw_keepalive w) (hw_disconnected w)
  (hw_stream w) (hw_encoder w) (hw_written w) v (hw_buffer w) (hw_buffer_capacity w).
Definition set_hw_buffer v w := mkH1W (hw_started w) (hw_upgrade w) (hw_keepalive w) (hw_disconnected w)
  (hw_stream w) (hw_encoder w) (hw_written w) (hw_headers_size w) v (hw_buffer_capacity w).
Definition set_hw_capacity v w := mkH1W (hw_started w) (hw_upgrade w) (hw_keepalive w) (hw_disconnected w)
  (hw_stream w) (hw_encoder w) (hw_written w) (hw_headers_size w) (hw_buffer w) v.
Definition set_hw_flags s u k w := mkH1W s u k (hw_disconnected w)
  (hw_stream w) (hw_encoder w) (hw_written w) (hw_headers_size w) (hw_buffer w) (hw_buffer_capacity w).

Definition H1Writer_new (stream : Io) (buf : bytes) : H1Writer :=
  mkH1W false false false false stream ContentEncoder_empty 0 0 buf 0.

(** [reset], [disconnected], [keepalive]. *)
Definition h1_reset (w : H1Writer) : H1Writer :=
  mkH1W false false false false (hw_stream w) (hw_encoder w) 0 (hw_headers_size w) (hw_buffer w)
    (hw_buffer_capacity w).
Definition h1_disconnected (w : H1Writer) : H1Writer := set_hw_buffer [] w.
Definition h1_keepalive (w : H1Writer) : bool := hw_keepalive w && negb (hw_upgrade w).

(** The loop of [write_data]; the flag tells that the peer is gone. *)
Fixpoint write_data_loop (fuel : nat) (data : bytes) (written : Z) (s : Io)
  : run (result Z IoError * bool * Io) :=
  match fuel with
  | O => Timeout
  | S fuel =>
      if written <? lenZ data then
        match io_write (dropZ written data) s with
        | (Ok 0, s) => Ret (Err (mkIoError WriteZero ""), true, s)
        | (Ok n, s) => write_data_loop fuel data (written + n) s
        | (Err e, s) =>
            if decide (io_kind e = WouldBlock) then Ret (Ok written, false, s) else Ret (Err e, false, s)
        end
      else Ret (Ok written, false, s)
  end.

Definition write_data (data : bytes) (w : H1Writer) : run (result Z IoError * H1Writer) :=
  '(r, gone, s) ← write_data_loop (S (length data)) data 0 (hw_stream w);
  let w := set_hw_stream s w in
  Ret (r, if (gone : bool) then h1_disconnected w else w).

(** *** The head *)

(** [buf[pos..pos + src.len()].copy_from_slice(src)], where [pend] is what was written
    of [buf] so far and [cap] its length. *)
Definition slice_put (cap : Z) (src pend : bytes) : run bytes :=
  if lenZ pend + lenZ src <=? cap then Ret (pend ++ src) else Panic.

(** The loop over the headers. *)
Fixpoint write_headers (hs : list (bytes * bytes)) (is_bin has_date : bool) (remaining : Z)
    (pend : bytes) (buffer : BytesMut) : run (bool * bytes * BytesMut) :=
  match hs with
  | [] => Ret (has_date, pend, buffer)
  | (k, v) :: hs =>
      if is_bin && bool_decide (k = CONTENT_LENGTH)
      then write_headers hs false has_date remaining pend buffer
      else
        let has_date := has_date || bool_decide (k = DATE) in
        let len := lenZ k + lenZ v + 4 in
        '(remaining, pend, buffer) ←
          (if remaining <? len then
             buffer ← advance_mut pend buffer;
             let buffer := reserve len buffer in
             Ret (bm_spare buffer, [], buffer)
           else Ret (remaining, pend, buffer));
        pend ← slice_put (bm_spare buffer) k pend;
        pend ← slice_put (bm_spare buffer) (b#": ") pend;
        pend ← slice_put (bm_spare buffer) v pend;
        pend ← slice_put (bm_spare buffer) CRLF pend;
        remaining ← usize_sub remaining len;
        write_headers hs is_bin has_date remaining pend buffer
  end.

(** [WorkerSettings::set_date]. *)
Definition set_date (buffer : BytesMut) : run BytesMut :=
  extend_from_slice (b#"date: " ++ date ++ CRLF ++ CRLF) buffer.

(** The block [render message] of [start]. *)
Definition render_head (version : Version) (req : Msg) (msg : Resp) (body : Body) (buffer : BytesMut)
  : run BytesMut :=
  let reason := resp_reason canonical_reason msg in
  let headers := hm_iter (r_headers msg) in
  let '(is_bin, buffer) :=
    match body with
    | Body_Binary bytes_ =>
        (true, reserve (256 + lenZ headers * AVERAGE_HEADER_SIZE + Binary_len bytes_ + lenZ reason) buffer)
    | _ => (false, reserve (256 + lenZ headers * AVERAGE_HEADER_SIZE + lenZ reason) buffer)
    end in
  (* status line *)
  buffer ← write_status_line version (r_status msg) buffer;
  buffer ← extend_from_slice reason buffer;
  buffer ← match body with
           | Body_Empty =>
               if negb (bool_decide (msg_method req = HEAD))
               then put_slice (CRLF ++ b#"content-length: 0" ++ CRLF) buffer
               else put_slice CRLF buffer
           | Body_Binary bytes_ => write_content_length uninit (Binary_len bytes_) buffer
           | _ => put_slice CRLF buffer
           end;
  (* write headers *)
  '(has_date, pend, buffer) ← write_headers headers is_bin false (bm_spare buffer) [] buffer;
  buffer ← advance_mut pend buffer;
  (* optimized date header, set_date writes \r\n *)
  if negb (has_date : bool) then set_date buffer else extend_from_slice CRLF buffer.

(** The [connection] header. *)
Definition set_connection (version : Version) (upgrade keepalive : bool) (msg : Resp) : Resp :=
  if upgrade then insert_header CONNECTION (b#"upgrade") msg
  else if keepalive then
    if version_rank version <? version_rank HTTP_11
    then insert_header CONNECTION (b#"keep-alive") msg else msg
  else if version_rank HTTP_11 <=? version_rank version
    then insert_header CONNECTION (b#"close") msg else msg.

Definition h1_start (req : Msg) (msg : Resp) (encoding : ContentEncoding) (w : H1Writer)
  : run (result WriterState IoError * Resp * H1Writer) :=
  (* prepare task *)
  '(enc, msg) ← for_server req msg encoding;
  let w := set_hw_encoder enc (set_hw_buffer (ce_drop (hw_encoder w) (hw_buffer w)) w) in
  let keepalive := hw_keepalive w || default (msg_keep_alive req) (resp_keep_alive msg) in
  (* Connection upgrade *)
  let version := default (msg_version req) (r_version msg) in
  let upgrade := hw_upgrade w || resp_upgrade msg in
  let msg := set_connection version (resp_upgrade msg) keepalive msg in
  let w := set_hw_flags true upgrade keepalive w in
  let '(body, msg) := resp_replace_body Body_Empty msg in
  (* render message *)
  buffer ← render_head version req msg body (mkBM (hw_buffer w) (spare (hw_buffer w)));
  let w := set_hw_headers_size (lenZ (bm_data buffer) mod 2 ^ 32) (set_hw_buffer (bm_data buffer) w) in
  match body with
  | Body_Binary bytes_ =>
      let w := set_hw_written (Binary_len bytes_) w in
      '(r, enc, buf) ← ce_write bytes_ (hw_encoder w) (hw_buffer w);
      let w := set_hw_encoder enc (set_hw_buffer buf w) in
      Ret (match r with Ok _ => Ok WS_Done | Err e => Err e end, msg, w)
  | _ =>
      (* capacity, makes sense only for streaming or actor *)
      let w := set_hw_capacity (r_write_capacity msg) w in
      Ret (Ok WS_Done, (resp_replace_body body msg).2, w)
  end.

Definition h1_state (w : H1Writer) : WriterState :=
  if hw_buffer_capacity w <? lenZ (hw_buffer w) then WS_Pause else WS_Done.

Definition h1_write (payload : Binary) (w : H1Writer) : run (result WriterState IoError * H1Writer) :=
  let w := set_hw_written (u64_wrap (hw_written w + Binary_len payload)) w in
  if negb (hw_disconnected w) then
    if hw_started w then
      (* shortcut for upgraded connection *)
      if hw_upgrade w then
        if bool_decide (hw_buffer w = []) then
          let pl := Binary_as_ref payload in
          '(r, w) ← write_data pl w;
          match r with
          | Err e => Ret (Err e, w)
          | Ok n =>
              if n <? lenZ pl then Ret (Ok WS_Done, set_hw_buffer (hw_buffer w ++ dropZ n pl) w)
              else Ret (Ok (h1_state w), w)
          end
        else
          let w := set_hw_buffer (hw_buffer w ++ Binary_as_ref payload) w in
          Ret (Ok (h1_state w), w)
      else
        '(r, enc, buf) ← ce_write payload (hw_encoder w) (hw_buffer w);
        let w := set_hw_encoder enc (set_hw_buffer buf w) in
        Ret (match r with Ok _ => Ok (h1_state w) | Err e => Err e end, w)
    else
      (* could be response to EXCEPT header *)
      let w := set_hw_buffer (hw_buffer w ++ Binary_as_ref payload) w in
      Ret (Ok (h1_state w), w)
  else Ret (Ok (h1_state w), w).

Definition h1_write_eof (w : H1Writer) : result WriterState IoError * H1Writer :=
  let '(r, enc, buf) := ce_write_eof (hw_encoder w) (hw_buffer w) in
  let w := set_hw_encoder enc (set_hw_buffer buf w) in
  match r with
  | Err e => (Err e, w)
  | Ok _ =>
      if negb (ce_is_eof enc)
      then (Err (mkIoError OtherKind "Last payload item, but eof is not reached"), w)
      else if MAX_WRITE_BUFFER_SIZE <? lenZ (hw_buffer w) then (Ok WS_Pause, w) else (Ok WS_Done, w)
  end.

(** The end of [poll_completed]. *)
Definition h1_flushed (shutdown : bool) (w : H1Writer) : poll unit IoError * H1Writer :=
  if shutdown then let '(r, s) := io_shutdown (hw_stream w) in (r, set_hw_stream s w)
  else (Ready tt, w).

Definition h1_poll_completed (shutdown : bool) (w : H1Writer) : run (poll unit IoError * H1Writer) :=
  if negb (bool_decide (hw_buffer w = [])) then
    '(r, w) ← write_data (hw_buffer w) w;
    match r with
    | Err e => Ret (PErr e, w)
    | Ok written =>
        '(_, b) ← split_to written (mkBM (hw_buffer w) 0);
        let w := set_hw_buffer (bm_data b) w in
        if hw_buffer_capacity w <? lenZ (hw_buffer w) then Ret (NotReady, w) else Ret (h1_flushed shutdown w)
    end
  else Ret (h1_flushed shutdown w).
(** ** The rendered head *)
Definition header_line (kv : bytes * bytes) : bytes := kv.1 ++ b#": " ++ kv.2 ++ CRLF.
Definition has_date_header (hs : list (bytes * bytes)) : bool :=
  existsb (fun kv => bool_decide (kv.1 = DATE)) hs.

(** A response with its bytes at hand announces their number itself, in place of the
    first content length among its headers. *)
Fixpoint drop_length (hs : list (bytes * bytes)) : list (bytes * bytes) :=
  match hs with
  | [] => []
  | (k, v) :: hs => if bool_decide (k = CONTENT_LENGTH) then hs else (k, v) :: drop_length hs
  end.
Definition own_headers (body : Body) (hs : list (bytes * bytes)) : list (bytes * bytes) :=
  if is_binary body then drop_length hs else hs.

(** The content length the writer adds. *)
Definition added_length (req : Msg) (body : Body) : list (bytes * bytes) :=
  match body with
  | Body_Empty => if negb (bool_decide (msg_method req = HEAD)) then [(CONTENT_LENGTH, b#"0")] else []
  | Body_Binary b => [(CONTENT_LENGTH, format_decimal (Binary_len b))]
  | _ => []
  end.
Definition added_date (hs : list (bytes * bytes)) : list (bytes * bytes) :=
  if has_date_header hs then [] else [(DATE, date)].

(** The headers sent, in order. *)
Definition sent_headers (req : Msg) (body : Body) (hs : list (bytes * bytes)) : list (bytes * bytes) :=
  added_length req body ++ own_headers body hs ++ added_date (own_headers body hs).

Definition head_text (version : Version) (req : Msg) (msg : Resp) (body : Body) : bytes :=
  status_line version (r_status msg) ++ resp_reason canonical_reason msg ++ CRLF ++
  concat (map header_line (sent_headers req body (hm_iter (r_headers msg)))) ++ CRLF.

Lemma slice_put_ok cap src pend :
  lenZ pend + lenZ src <= cap -> slice_put cap src pend = Ret (pend ++ src).
Proof. intros Hl. unfold slice_put. by rewrite (proj2 (Z.leb_le _ _) Hl). Qed.

Lemma header_line_len k v : lenZ (header_line (k, v)) = lenZ k + lenZ v + 4.
Proof. unfold header_line. simpl. autorewrite with lenZ. change (lenZ (b#": ")) with 2. change (lenZ CRLF) with 2. lia. Qed.

(** One header of the loop, once there is room for it. *)
Lemma write_header_line (X : Type) (k v : bytes) (pend : bytes) (remaining cap : Z) (f : bytes -> Z -> run X) :
  lenZ k + lenZ v + 4 <= remaining -> remaining = cap - lenZ pend ->
  (pend ← slice_put cap k pend; pend ← slice_put cap (b#": ") pend;
   pend ← slice_put cap v pend; pend ← slice_put cap CRLF pend;
   remaining ← usize_sub remaining (lenZ k + lenZ v + 4); f pend remaining) =
  f (pend ++ header_line (k, v)) (remaining - lenZ (header_line (k, v))).
Proof.
  intros Hl Hr. rewrite header_line_len. lenZ_pose.
  rewrite slice_put_ok by lia. cbn [mbind run_bind].
  rewrite slice_put_ok by (autorewrite with lenZ; change (lenZ (b#": ")) with 2; lia). cbn [mbind run_bind].
  rewrite slice_put_ok by (autorewrite with lenZ; change (lenZ (b#": ")) with 2; lia). cbn [mbind run_bind].
  rewrite slice_put_ok by (autorewrite with lenZ; change (lenZ (b#": ")) with 2; change (lenZ CRLF) with 2; lia).
  cbn [mbind run_bind]. rewrite usize_sub_ok by lia. cbn [mbind run_bind].
  unfold header_line. simpl. by rewrite <-!app_assoc.
Qed.

Lemma write_headers_ok hs is_bin has_date pend buffer :
  lenZ pend <= bm_spare buffer ->
  exists pend' buffer', write_headers hs is_bin has_date (bm_spare buffer - lenZ pend) pend buffer =
      Ret (has_date || has_date_header (if is_bin then drop_length hs else hs), pend', buffer') /\
    lenZ pend' <= bm_spare buffer' /\
    bm_data buffer' ++ pend' =
      bm_data buffer ++ pend ++ concat (map header_line (if is_bin then drop_length hs else hs)).
Proof.
  revert is_bin has_date pend buffer. induction hs as [|[k v] hs IH]; intros is_bin has_date pend buffer Hp.
  { exists pend, buffer. destruct is_bin; simpl; rewrite orb_false_r, app_nil_r; done. }
  cbn [write_headers drop_length]. destruct (is_bin && bool_decide (k = CONTENT_LENGTH)) eqn:Hskip.
  { apply andb_true_iff in Hskip as [-> Hk]. rewrite Hk. destruct (IH false has_date pend buffer Hp)
      as (pend' & buffer' & -> & ?). eauto. }
  set (len := lenZ k + lenZ v + 4).
  assert (exists r1 p1 b1, (if bm_spare buffer - lenZ pend <? len then
             buffer ← advance_mut pend buffer; Ret (bm_spare (reserve len buffer), [], reserve len buffer)
           else Ret (bm_spare buffer - lenZ pend, pend, buffer)) = Ret (r1, p1, b1) /\
      len <= r1 /\ r1 = bm_spare b1 - lenZ p1 /\ bm_data b1 ++ p1 = bm_data buffer ++ pend) as (r1 & p1 & b1 & -> & Hr & Heq & Hd).
  { destruct (Z.ltb_spec (bm_spare buffer - lenZ pend) len) as [Hlt|Hge].
    - unfold advance_mut. rewrite put_slice_ok by done. cbn [mbind run_bind].
      destruct (reserve_ok len (mkBM (bm_data buffer ++ pend) (bm_spare buffer - lenZ pend))) as (Hd & Hs & _).
      do 3 eexists. split; [done|]. rewrite Hd, app_nil_r. simpl. split_and!; [done|lenZ_lia|done].
    - do 3 eexists. split; [done|]. done. }
  cbn [mbind run_bind]. unfold len in Hr. unfold len. rewrite (write_header_line _ k v p1 r1) by done.
  rewrite Heq, <-(Z.sub_add_distr (bm_spare b1)), <-lenZ_app.
  destruct (IH is_bin (has_date || bool_decide (k = DATE)) (p1 ++ header_line (k, v)) b1)
    as (pend' & buffer' & -> & Hp' & Hd').
  { rewrite lenZ_app, header_line_len. lia. }
  exists pend', buffer'. split_and!; [|done|].
  - assert ((if is_bin then if bool_decide (k = CONTENT_LENGTH) then hs else (k, v) :: drop_length hs
             else (k, v) :: hs) = (k, v) :: (if is_bin then drop_length hs else hs)) as ->.
    { destruct is_bin; [|done]. simpl in Hskip. by rewrite Hskip. }
    unfold has_date_header at 2. simpl. by rewrite orb_assoc.
  - rewrite Hd'. rewrite <-!app_assoc. rewrite (app_assoc (bm_data b1)), Hd, <-app_assoc. do 2 f_equal.
    destruct is_bin; [|done]. simpl in Hskip. by rewrite Hskip.
Qed.
(** The line behind the reason phrase, with the content length the writer adds. *)
Lemma render_length_ok req body buffer :
  lenZ uninit = 41 -> 23 <= bm_spare buffer ->
  (forall b, body = Body_Binary b -> Binary_len b < 2 ^ 64) ->
  exists b', match body with
             | Body_Empty =>
                 if negb (bool_decide (msg_method req = HEAD))
                 then put_slice (CRLF ++ b#"content-length: 0" ++ CRLF) buffer
                 else put_slice CRLF buffer
             | Body_Binary bytes_ => write_content_length uninit (Binary_len bytes_) buffer
             | _ => put_slice CRLF buffer
             end = Ret b' /\
    appended buffer (CRLF ++ concat (map header_line (added_length req body))) b'.
Proof.
  intros Hu Hs Hlen.
  assert (forall t, lenZ t <= 23 -> exists b', put_slice t buffer = Ret b' /\ appended buffer t b') as Hput.
  { intros t Ht. rewrite put_slice_ok by lia. eexists. split; [done|]. unfold appended, bm_wf. simpl.
    split; [lia|done]. }
  destruct body as [|b|st|a]; simpl.
  - destruct (negb _); simpl; apply Hput; vm_compute; discriminate.
  - rewrite app_nil_r. unfold header_line. simpl fst. simpl snd.
    destruct (write_content_length_ok uninit (Binary_len b) buffer) as (b' & -> & Ha); [done| |lia|].
    { rewrite Binary_len_as_ref. split; [apply lenZ_nonneg|]. rewrite <-Binary_len_as_ref. by apply Hlen. }
    exists b'. split; [done|]. exact Ha.
  - apply Hput. vm_compute; discriminate.
  - apply Hput. vm_compute; discriminate.
Qed.

Lemma render_head_ok version req msg body buffer :
  lenZ uninit = 41 -> bm_wf buffer -> 100 <= r_status msg < 1000 ->
  (forall b, body = Body_Binary b -> Binary_len b < 2 ^ 64) ->
  exists b', render_head version req msg body buffer = Ret b' /\
    appended buffer (head_text version req msg body) b'.
Proof.
  intros Hu Hwf Hst Hlen. unfold render_head, head_text.
  set (reason := resp_reason canonical_reason msg). set (hs := hm_iter (r_headers msg)).
  set (need := match body with
               | Body_Binary b => 256 + lenZ hs * AVERAGE_HEADER_SIZE + Binary_len b + lenZ reason
               | _ => 256 + lenZ hs * AVERAGE_HEADER_SIZE + lenZ reason
               end).
  assert (256 + lenZ reason <= need) as Hneed.
  { unfold need, AVERAGE_HEADER_SIZE. destruct body as [|b| |]; rewrite ?Binary_len_as_ref; lenZ_pose; lia. }
  assert (match body with
          | Body_Binary b => (true, reserve (256 + lenZ hs * AVERAGE_HEADER_SIZE + Binary_len b + lenZ reason) buffer)
          | _ => (false, reserve (256 + lenZ hs * AVERAGE_HEADER_SIZE + lenZ reason) buffer)
          end = (is_binary body, reserve need buffer)) as -> by (by destruct body).
  destruct (reserve_ok need buffer) as (Hd & Hs & _). set (b0 := reserve need buffer) in *.
  lenZ_pose. rewrite write_status_line_ok by lia. cbn [mbind run_bind].
  rewrite extend_fits by (simpl; lia). cbn [mbind run_bind bm_data bm_spare].
  destruct (render_length_ok req body
    (mkBM ((bm_data b0 ++ status_line version (r_status msg)) ++ reason) (bm_spare b0 - 13 - lenZ reason)))
    as (b1 & -> & Hw1 & Hd1); [done|simpl; lia|done|]. cbn [mbind run_bind].
  destruct (write_headers_ok hs (is_binary body) false [] b1) as (pend & b2 & Hh & Hp & Hd2); [done|].
  rewrite lenZ_nil, Z.sub_0_r in Hh. rewrite Hh. cbn [mbind run_bind]. unfold advance_mut.
  rewrite put_slice_ok by done. cbn [mbind run_bind]. fold (own_headers body hs) in Hd2 |- *.
  rewrite orb_false_l. unfold sent_headers, added_date, set_date.
  assert (forall t u, u = concat (map header_line (if has_date_header (own_headers body hs) then [] else [(DATE, date)])) ++ t ->
    exists b', extend_from_slice u (mkBM (bm_data b2 ++ pend) (bm_spare b2 - lenZ pend)) = Ret b' /\
      appended buffer (status_line version (r_status msg) ++ reason ++ CRLF ++
        concat (map header_line (added_length req body ++ own_headers body hs ++
          (if has_date_header (own_headers body hs) then [] else [(DATE, date)]))) ++ t) b') as Hend.
  { intros t u ->. destruct (extend_from_slice_ok (concat (map header_line
      (if has_date_header (own_headers body hs) then [] else [(DATE, date)])) ++ t)
      (mkBM (bm_data b2 ++ pend) (bm_spare b2 - lenZ pend))) as (b' & -> & Hw' & Hd').
    exists b'. split; [done|]. split; [done|]. rewrite Hd'. simpl. rewrite Hd2, Hd1. simpl. rewrite Hd.
    rewrite !map_app, !concat_app, <-!app_assoc. done. }
  destruct (has_date_header (own_headers body hs)); apply Hend; [done|].
  unfold header_line. simpl. by rewrite <-!app_assoc.
Qed.


(** ** A client's reading of a head *)

(** A line ends with CR LF. *)
Fixpoint read_line (s : bytes) : option (bytes * bytes) :=
  match s with
  | [] => None
  | b :: s' =>
      if (b =? 13) && bool_decide (head s' = Some 10) then Some ([], tail s')
      else '(l, r) ← read_line s'; Some (b :: l, r)
  end.

(** A header line: the name up to the colon, and the value behind colon and space. *)
Fixpoint split_header (l : bytes) : option (bytes * bytes) :=
  match l with
  | [] => None
  | b :: l => if b =? 58 then Some ([], dropZ 1 l) else '(k, v) ← split_header l; Some (b :: k, v)
  end.

(** Headers up to the empty line. *)
Fixpoint read_header_lines (fuel : nat) (s : bytes) : option (list (bytes * bytes) * bytes) :=
  match fuel with
  | O => None
  | S fuel =>
      '(l, r) ← read_line s;
      match l with
      | [] => Some ([], r)
      | _ => kv ← split_header l; '(hs, r) ← read_header_lines fuel r; Some (kv :: hs, r)
      end
  end.

(** The status line, the headers, and what follows the head. *)
Definition read_head (s : bytes) : option (bytes * list (bytes * bytes) * bytes) :=
  '(l, r) ← read_line s; '(hs, r) ← read_header_lines (length r) r; Some (l, hs, r).

(** What the types of the [http] crate guarantee of names and values. *)
Definition no_newline (s : bytes) : Prop := Forall (fun b => b <> 13 /\ b <> 10) s.
Definition header_ok (kv : bytes * bytes) : Prop :=
  kv.1 <> [] /\ no_newline kv.1 /\ ~ (58 ∈ kv.1) /\ no_newline kv.2.
#[export] Instance header_ok_dec kv : Decision (header_ok kv).
Proof. unfold header_ok, no_newline. apply _. Defined.

Lemma read_line_app l r : no_newline l -> read_line (l ++ CRLF ++ r) = Some (l, r).
Proof.
  induction 1 as [|b l [Hb _] _ IH]; [done|]. simpl in *. rewrite (proj2 (Z.eqb_neq b 13)) by done.
  simpl. by rewrite IH.
Qed.

Lemma split_header_line k v : 58 ∉ k -> split_header (k ++ b#": " ++ v) = Some (k, v).
Proof.
  induction k as [|b k IH]; [done|]. intros [Hb Hk]%not_elem_of_cons. simpl.
  rewrite (proj2 (Z.eqb_neq b 58)) by done. simpl in IH. by rewrite IH.
Qed.

Lemma read_header_lines_app hs rest fuel :
  Forall header_ok hs -> (length hs < fuel)%nat ->
  read_header_lines fuel (concat (map header_line hs) ++ CRLF ++ rest) = Some (hs, rest).
Proof.
  revert fuel. induction hs as [|[k v] hs IH]; intros fuel Hok Hf.
  { destruct fuel; [lia|]. done. }
  inversion Hok as [|? ? (Hk0 & Hk & Hc & Hv) Hok']; subst. simpl in Hk0, Hk, Hc, Hv.
  destruct fuel as [|fuel]; [simpl in Hf; lia|]. cbn [read_header_lines].
  assert (concat (map header_line ((k, v) :: hs)) ++ CRLF ++ rest =
          (k ++ b#": " ++ v) ++ CRLF ++ concat (map header_line hs) ++ CRLF ++ rest) as ->.
  { cbn [map concat]. unfold header_line. cbn [fst snd]. by rewrite <-!app_assoc. }
  rewrite read_line_app.
  2: { unfold no_newline. rewrite !Forall_app. split_and!; [done| |done]. repeat constructor; discriminate. }
  cbn [mbind option_bind]. rewrite split_header_line by done.
  destruct (k ++ b#": " ++ v) as [|b l] eqn:Hl; [by destruct k|].
  cbn [mbind option_bind]. rewrite IH by (done || (simpl in Hf; lia)). done.
Qed.

Lemma header_line_pos kv : (1 <= length (header_line kv))%nat.
Proof. unfold header_line. rewrite !length_app. simpl. lia. Qed.

Lemma concat_lines_length hs : (length hs <= length (concat (map header_line hs)))%nat.
Proof.
  induction hs as [|kv hs IH]; [done|]. cbn [map concat length]. rewrite length_app.
  pose proof (header_line_pos kv). lia.
Qed.

Lemma no_newline_digits n : 0 <= n -> no_newline (format_decimal n).
Proof.
  intros Hn. destruct (format_digits 10 n) as (ds & Hd & Hf & _); [lia|done|]. unfold format_decimal.
  rewrite Hd. apply Forall_map. eapply Forall_impl; [done|]. intros d Hd'. simpl in Hd'.
  rewrite digit_char_decimal by done. lia.
Qed.


Lemma Forall_drop_length (P : bytes * bytes -> Prop) hs : Forall P hs -> Forall P (drop_length hs).
Proof. induction 1 as [|[k v] hs ? ? IH]; simpl; [done|]. case_bool_decide; [done|by constructor]. Qed.

Lemma sent_headers_ok req body hs :
  no_newline date -> Forall header_ok hs -> Forall header_ok (sent_headers req body hs).
Proof.
  intros Hd Hh. unfold sent_headers. rewrite !Forall_app. split_and!.
  - assert (forall v, no_newline v -> Forall header_ok [(CONTENT_LENGTH, v)]) as Hl.
    { intros v Hv. constructor; [|done]. split_and!; [done| |vm_compute; set_solver|done].
      repeat constructor; discriminate. }
    destruct body as [|b| |]; simpl; [destruct (negb _)|..]; try done; apply Hl.
    + repeat constructor; discriminate.
    + apply no_newline_digits. rewrite Binary_len_as_ref. apply lenZ_nonneg.
  - unfold own_headers. destruct (is_binary body); [by apply Forall_drop_length|done].
  - unfold added_date. destruct (has_date_header _); [done|]. constructor; [|done].
    split_and!; [done| |vm_compute; set_solver|done]. repeat constructor; discriminate.
Qed.

Lemma status_line_ok version n : 100 <= n -> no_newline (status_line version n).
Proof.
  intros Hn. unfold status_line, no_newline. rewrite !Forall_app. split_and!.
  - destruct version; repeat constructor; discriminate.
  - repeat constructor; discriminate.
  - apply no_newline_digits. lia.
  - repeat constructor; discriminate.
Qed.

Lemma read_head_text version req msg body rest :
  100 <= r_status msg -> no_newline (resp_reason canonical_reason msg) -> no_newline date ->
  Forall header_ok (hm_iter (r_headers msg)) ->
  read_head (head_text version req msg body ++ rest) =
    Some (status_line version (r_status msg) ++ resp_reason canonical_reason msg,
          sent_headers req body (hm_iter (r_headers msg)), rest).
Proof.
  intros Hs Hr Hd Hh. unfold read_head, head_text. rewrite <-!app_assoc.
  rewrite (app_assoc (status_line _ _)), read_line_app.
  2: { apply Forall_app. split; [by apply status_line_ok|done]. }
  cbn [mbind option_bind]. rewrite read_header_lines_app; [done|by apply sent_headers_ok|].
  rewrite !length_app. pose proof (concat_lines_length (sent_headers req body (hm_iter (r_headers msg)))).
  simpl. lia.
Qed.

(** ** What [for_server] leaves of a response *)
Definition same_line (r r' : Resp) : Prop :=
  r_status r' = r_status r /\ r_reason r' = r_reason r /\ r_version r' = r_version r /\
  r_connection_type r' = r_connection_type r /\ r_write_capacity r' = r_write_capacity r.

Lemma compress_binary_total (e : ContentEncoding) (b : Binary) :
  exists b', compress_binary (Z' := Z') e b = Ret b'.
Proof.
  unfold compress_binary.
  assert (exists r enc tmp, ce_write (Binary_clone b) (ce_new e TE_Eof : Encoder) [] = Ret (r, enc, tmp))
    as (r & enc & tmp & ->).
  { destruct e; simpl; try (destruct (cp_write _ _) as [[? ?] ?]); by do 3 eexists. }
  cbn [mbind run_bind]. destruct (ce_write_eof enc tmp) as [[? ?] ?]. by eexists.
Qed.

(** A body at hand is sent as it is or compressed; then its encoding is announced. *)
Definition sent_as (req : Msg) (resp : Resp) (encoding : ContentEncoding) (b b' : Binary) (resp' : Resp) : Prop :=
  b' = b \/
  exists e, is_compression e = true /\ has_body encoding (Body_Binary b) = true /\ negotiate req encoding = e /\
    compress_binary (Z' := Z') e b = Ret b' /\
    hm_get CONTENT_ENCODING (r_headers resp') = Some (encoding_as_str e).

Lemma for_server_binary req resp encoding b :
  r_body resp = Body_Binary b -> msg_method req <> HEAD ->
  exists b' resp', for_server req resp encoding = Ret (CE_Identity (Z' := Z') TE_Eof, resp') /\
    same_line resp resp' /\ r_body resp' = Body_Binary b' /\ sent_as req resp encoding b b' resp' /\
    forall k, k <> CONTENT_ENCODING -> get_all k (r_headers resp') = get_all k (r_headers resp).
Proof.
  intros Hb Hm. unfold for_server, resp_replace_body. rewrite Hb, (bool_decide_false (msg_method req = HEAD)) by done.
  destruct (has_body encoding (Body_Binary b)) eqn:Hhb.
  - destruct (is_compression (negotiate req encoding)) eqn:Hc.
    + destruct (compress_binary_total (negotiate req encoding) b) as [b' Hcb].
      assert (negb (bool_decide (negotiate req encoding = Enc_Identity) ||
        bool_decide (negotiate req encoding = Enc_Auto)) = true) as -> by (by destruct (negotiate req encoding)).
      rewrite Hcb. cbn [mbind run_bind]. exists b'. eexists. split; [done|]. split; [done|]. split; [done|].
      split; [right; eexists; split_and!; [done..|]|intros k Hk]; simpl.
      * rewrite hm_get_insert. by case_decide.
      * by apply get_all_insert.
    + assert (negb (bool_decide (negotiate req encoding = Enc_Identity) ||
        bool_decide (negotiate req encoding = Enc_Auto)) = false) as -> by (by destruct (negotiate req encoding)).
      cbn [mbind run_bind]. exists b. eexists. split; [|split; [|split; [|split; [by left|]]]].
      { by destruct (negotiate req encoding). } done. done. done.
  - cbn [mbind run_bind]. exists b. eexists. split; [done|]. split; [done|]. split; [done|]. split; [by left|done].
Qed.


(** ** Flushing *)

(** Everything that was handed to the socket or waits for it. *)
Definition hw_out (w : H1Writer) : bytes := io_sent (hw_stream w) ++ hw_buffer w.

(** All but the socket and the buffer. *)
Definition same_writer (w w' : H1Writer) : Prop :=
  hw_started w' = hw_started w /\ hw_upgrade w' = hw_upgrade w /\ hw_keepalive w' = hw_keepalive w /\
  hw_disconnected w' = hw_disconnected w /\ hw_encoder w' = hw_encoder w /\
  hw_buffer_capacity w' = hw_buffer_capacity w.

Lemma write_data_loop_ok fuel data written s :
  (length data < fuel + Z.to_nat written)%nat -> 0 <= written <= lenZ data ->
  exists r gone s', write_data_loop fuel data written s = Ret (r, gone, s') /\
    forall n, r = Ok n -> gone = false /\ written <= n <= lenZ data /\
      io_sent s' = io_sent s ++ takeZ (n - written) (dropZ written data).
Proof.
  revert written s. induction fuel as [|fuel IH]; intros written s Hf Hw; [unfold lenZ in Hw; lia|].
  cbn [write_data_loop]. destruct (Z.ltb_spec written (lenZ data)) as [Hlt|Hge].
  2: { do 3 eexists. split; [done|]. intros n [= <-]. rewrite Z.sub_diag, takeZ_0, app_nil_r by done.
       split_and!; try done; lia. }
  unfold io_write. destruct (io_writes s) as [|[m|e] ws].
  - destruct (decide _); [|done]. do 3 eexists. split; [done|]. intros n [= <-].
    rewrite Z.sub_diag, takeZ_0, app_nil_r by done. split_and!; try done; lia.
  - set (n := Z.max 0 (Z.min m (lenZ (dropZ written data)))).
    assert (0 <= n <= lenZ (dropZ written data)) as Hn by (unfold n; lenZ_pose; lia).
    rewrite lenZ_dropZ in Hn by lia. clearbody n.
    destruct (decide (n = 0)) as [->|Hn0]; [by do 3 eexists|].
    destruct (IH (written + n) (mkIo (io_reads s) ws (io_shutdowns s)
      (io_sent s ++ takeZ n (dropZ written data)) (io_closed s))) as (r & gone & s' & He & Hok); [lia|lia|].
    exists r, gone, s'. split; [destruct n; [lia|done|lia]|]. intros k Hk. destruct (Hok k Hk) as (? & ? & Hs).
    split_and!; [done|lia|lia|]. rewrite Hs. simpl. rewrite <-app_assoc. f_equal.
    rewrite <-(takeZ_dropZ n (takeZ (k - written) (dropZ written data))). f_equal.
    + unfold takeZ. rewrite take_take. f_equal. lia.
    + unfold takeZ, dropZ. rewrite skipn_firstn_comm, drop_drop. f_equal; [lia|]. f_equal. lia.
  - destruct (decide _); [|by do 3 eexists]. do 3 eexists. split; [done|]. intros n [= <-].
    rewrite Z.sub_diag, takeZ_0, app_nil_r by done. split_and!; try done; lia.
Qed.

Lemma write_data_ok data w :
  exists r w', write_data data w = Ret (r, w') /\
    forall n, r = Ok n -> 0 <= n <= lenZ data /\ same_writer w w' /\ hw_buffer w' = hw_buffer w /\
      io_sent (hw_stream w') = io_sent (hw_stream w) ++ takeZ n data.
Proof.
  unfold write_data. destruct (write_data_loop_ok (S (length data)) data 0 (hw_stream w))
    as (r & gone & s' & -> & Hok); [lia|lenZ_lia|].
  cbn [mbind run_bind]. do 2 eexists. split; [done|]. intros n Hr. destruct (Hok n Hr) as (-> & Hn & Hs).
  rewrite Z.sub_0_r in Hs. unfold same_writer. split_and!; try done; lia.
Qed.

Lemma poll_completed_ok shutdown w :
  exists r w', h1_poll_completed shutdown w = Ret (r, w') /\
    ((forall e, r <> PErr e) -> same_writer w w' /\ hw_out w' = hw_out w).
Proof using Z'.
  unfold h1_poll_completed.
  assert (forall w, exists r w', h1_flushed shutdown w = (r, w') /\ same_writer w w' /\ hw_out w' = hw_out w) as Hfin.
  { intros v. unfold h1_flushed, io_shutdown. destruct shutdown; [|by exists (Ready tt), v].
    destruct (io_shutdowns (hw_stream v)); by do 2 eexists. }
  case_bool_decide as Hb; simpl.
  { destruct (Hfin w) as (r & w' & -> & ?). eauto. }
  destruct (write_data_ok (hw_buffer w) w) as (r & w1 & -> & Hok). cbn [mbind run_bind].
  destruct r as [n|e]; [|do 2 eexists; split; [done|]; intros Hne; by destruct (Hne e)].
  destruct (Hok n eq_refl) as (Hn & Hsame & Hbuf & Hsent). unfold split_to. simpl. rewrite Hbuf.
  rewrite (proj2 (Z.leb_le n _)) by lia. cbn [mbind run_bind].
  set (w2 := set_hw_buffer _ w1).
  assert (same_writer w w2 /\ hw_out w2 = hw_out w) as [Hs2 Ho2].
  { split; [exact Hsame|]. unfold hw_out, w2. simpl. by rewrite Hsent, <-app_assoc, takeZ_dropZ. }
  destruct (_ <? _); [by do 2 eexists|].
  destruct (Hfin w2) as (r & w' & -> & Hs' & Ho'). do 2 eexists. split; [done|]. intros _.
  split; [|congruence]. unfold same_writer in *. destruct_and!. split_and!; congruence.
Qed.


(** ** Starting a response *)
Definition body_bytes (b : Body) : bytes := match b with Body_Binary b => Binary_as_ref b | _ => [] end.

Lemma set_connection_line version u k msg :
  same_line msg (set_connection version u k msg) /\ r_body (set_connection version u k msg) = r_body msg /\
  forall key, key <> CONNECTION ->
    get_all key (r_headers (set_connection version u k msg)) = get_all key (r_headers msg).
Proof.
  unfold set_connection, same_line. repeat case_match; simpl; split_and!; try done; intros key Hk; by apply get_all_insert.
Qed.

(** The parameters that stand for memory. *)
Definition memory_ok : Prop := lenZ uninit = 41 /\ forall b, 0 <= spare b.

Lemma h1_start_ok req msg encoding w enc msg1 :
  memory_ok -> 100 <= r_status msg1 < 1000 -> for_server req msg encoding = Ret (enc, msg1) ->
  (forall b, r_body msg1 = Body_Binary b -> Binary_len b < 2 ^ 64 /\ enc = CE_Identity TE_Eof) ->
  let version := default (msg_version req) (r_version msg1) in
  let keepalive := hw_keepalive w || default (msg_keep_alive req) (resp_keep_alive msg1) in
  let msg2 := set_connection version (resp_upgrade msg1) keepalive msg1 in
  exists msg' w', h1_start req msg encoding w = Ret (Ok WS_Done, msg', w') /\
    same_line msg2 msg' /\ r_headers msg' = r_headers msg2 /\
    hw_buffer w' = ce_drop (hw_encoder w) (hw_buffer w) ++ head_text version req msg2 (r_body msg1) ++
                   body_bytes (r_body msg1) /\
    hw_started w' = true /\ hw_upgrade w' = hw_upgrade w || resp_upgrade msg1 /\ hw_keepalive w' = keepalive /\
    hw_disconnected w' = hw_disconnected w /\ hw_stream w' = hw_stream w /\ hw_encoder w' = enc.
Proof.
  intros [Hu Hsp] Hst Hfs Hbin version keepalive msg2. unfold h1_start. rewrite Hfs. cbn [mbind run_bind].
  cbn [hw_keepalive hw_upgrade hw_buffer set_hw_encoder set_hw_buffer].
  fold version keepalive. fold msg2. unfold resp_replace_body at 1.
  destruct (set_connection_line version (resp_upgrade msg1) keepalive msg1) as ((Hs2 & _) & Hb2 & _).
  fold msg2 in Hs2, Hb2. rewrite Hb2.
  set (out := ce_drop (hw_encoder w) (hw_buffer w)).
  destruct (render_head_ok version req (set_r_body Body_Empty msg2) (r_body msg1) (mkBM out (spare out)))
    as (buf & Hr & _ & Hd); [done|apply Hsp|simpl; lia|intros b Hb; by apply Hbin|].
  cbn [hw_buffer set_hw_flags set_hw_encoder set_hw_buffer]. fold out. rewrite Hr. cbn [mbind run_bind]. simpl in Hd.
  destruct (r_body msg1) as [|b|st|a] eqn:Hb1.
  2: { destruct (Hbin b eq_refl) as [_ ->]. simpl. do 2 eexists. split; [done|].
       split_and!; try done. simpl. rewrite Hd, <-app_assoc. done. }
  all: do 2 eexists; split; [done|]; split_and!; try done; simpl; rewrite Hd, app_nil_r; done.
Qed.

(** The decoder of a client, from the headers it reads (RFC 7230 section 3.3.3). *)
Definition client_decoder (hs : list (bytes * bytes)) : option Kind :=
  match alist_lookup TRANSFER_ENCODING hs with
  | Some v => if contains (to_lowercase v) (b#"chunked") then Some Decoder_chunked else Some Decoder_eof
  | None =>
      match alist_lookup CONTENT_LENGTH hs with
      | Some v => Decoder_length <$> parse_u64 v
      | None => Some Decoder_eof
      end
  end.

Lemma alist_lookup_drop_length k hs :
  k <> CONTENT_LENGTH -> alist_lookup k (drop_length hs) = alist_lookup k hs.
Proof.
  intros Hk. induction hs as [|[k' v] hs IH]; [done|]. simpl. case_bool_decide as Hc; simpl; case_decide; congruence.
Qed.

Lemma sent_headers_lookup req body hs k :
  k <> CONTENT_LENGTH -> k <> DATE -> alist_lookup k (sent_headers req body hs) = alist_lookup k hs.
Proof.
  intros Hk Hd. unfold sent_headers. rewrite !alist_lookup_app.
  assert (alist_lookup k (added_length req body) = None) as ->.
  { destruct body as [|b| |]; simpl; [destruct (negb _); simpl|..]; try done; case_decide; congruence. }
  assert (alist_lookup k (own_headers body hs) = alist_lookup k hs) as ->.
  { unfold own_headers. destruct (is_binary body); [by apply alist_lookup_drop_length|done]. }
  destruct (alist_lookup k hs); [done|]. unfold added_date. destruct (has_date_header _); [done|].
  simpl. case_decide; congruence.
Qed.

Lemma values_drop_length k hs : k <> CONTENT_LENGTH -> values k (drop_length hs) = values k hs.
Proof.
  intros Hk. induction hs as [|[k' v] hs IH]; [done|]. cbn [drop_length]. rewrite values_cons.
  case_bool_decide as Hc; [by rewrite decide_False by congruence|]. by rewrite values_cons, IH.
Qed.
Lemma has_date_values hs : has_date_header hs = bool_decide (values DATE hs <> []).
Proof.
  induction hs as [|[k v] hs IH]; [done|]. cbn [has_date_header existsb] in *. rewrite values_cons. simpl.
  fold (has_date_header hs). rewrite IH. case_decide; [by rewrite bool_decide_true|by rewrite bool_decide_false].
Qed.

(** What is sent of a header: its values, and the date if there is none. *)
Lemma sent_headers_values req body hs k :
  k <> CONTENT_LENGTH ->
  values k (sent_headers req body hs) =
    values k hs ++ (if decide (k = DATE /\ values DATE hs = []) then [date] else []).
Proof.
  intros Hk. unfold sent_headers. rewrite !values_app.
  assert (values k (added_length req body) = []) as ->.
  { unfold added_length. destruct body as [|b|st|a]; [destruct (negb _)| |..]; rewrite ?values_cons, ?decide_False by congruence; done. }
  assert (forall k', k' <> CONTENT_LENGTH -> values k' (own_headers body hs) = values k' hs) as Hown.
  { intros k' Hk'. unfold own_headers. destruct (is_binary body); [by apply values_drop_length|done]. }
  rewrite Hown by done. cbn [app]. f_equal. unfold added_date. rewrite has_date_values, Hown by done.
  destruct (decide (k = DATE /\ values DATE hs = [])) as [[-> Hd]|Hn].
  - by rewrite bool_decide_false, values_cons, decide_True by (done || naive_solver).
  - case_bool_decide as Hd; [done|]. rewrite values_cons, decide_False; [done|]. intros <-. apply Hn. split; [done|].
    destruct (values DATE hs); [done|]. by destruct Hd.
Qed.

Lemma sent_headers_length req body hs :
  is_streaming body = true -> alist_lookup CONTENT_LENGTH (sent_headers req body hs) = alist_lookup CONTENT_LENGTH hs.
Proof.
  intros Hb. unfold sent_headers. destruct body as [| |st|a]; [done|done|..]; simpl; rewrite alist_lookup_app.
  all: unfold own_headers; simpl; destruct (alist_lookup CONTENT_LENGTH hs); [done|].
  all: unfold added_date; destruct (has_date_header _); done.
Qed.


(** ** Streamed bodies *)

(** A response that leaves its framing to the writer: no compression, no upgrade, no
    transfer encoding or refusal of chunks by the application, and a content length, if
    any, that is a number. *)
Definition streamable (req : Msg) (msg : Resp) (encoding : ContentEncoding) : Prop :=
  is_streaming (r_body msg) = true /\ msg_method req <> HEAD /\
  default (msg_version req) (r_version msg) <> HTTP_2 /\ resp_upgrade msg = false /\
  is_compression (negotiate req encoding) = false /\ r_chunked msg <> Some false /\
  hm_get TRANSFER_ENCODING (r_headers msg) = None /\
  forall v, hm_get CONTENT_LENGTH (r_headers msg) = Some v -> hv_to_str v = Some v /\ is_Some (parse_u64 v).

Definition kind_decoder (k : TransferEncodingKind) : Kind :=
  match k with
  | TE_Chunked _ => Decoder_chunked
  | TE_Length n => Decoder_length n
  | TE_Eof => Decoder_eof
  end.

(** The headers announce the transfer encoding. *)
Definition announces (h : H) (k : TransferEncodingKind) : Prop :=
  match k with
  | TE_Chunked eof => eof = false /\ hm_get TRANSFER_ENCODING h = Some (b#"chunked") /\
      hm_get CONTENT_LENGTH h = None
  | TE_Length n => 0 <= n /\ hm_get TRANSFER_ENCODING h = None /\
      exists v, hm_get CONTENT_LENGTH h = Some v /\ parse_u64 v = Some n
  | TE_Eof => hm_get TRANSFER_ENCODING h = None /\ hm_get CONTENT_LENGTH h = None
  end.

Lemma parse_u64_nonneg s n : parse_u64 s = Some n -> 0 <= n.
Proof.
  assert (forall s acc, 0 <= acc -> parse_digits acc s = Some n -> 0 <= n) as Hd.
  { intros t. induction t as [|b t IH]; intros acc Ha; simpl; [by intros [= <-]|].
    repeat case_match; try done. apply IH. lia. }
  unfold parse_u64. repeat case_match; try done; intros Hp; eapply (Hd _ 0); try done; eauto.
Qed.

Lemma for_server_streaming req msg encoding :
  streamable req msg encoding ->
  exists k msg', for_server req msg encoding = Ret (CE_Identity (Z' := Z') k, msg') /\ same_line msg msg' /\
    r_body msg' = r_body msg /\ announces (r_headers msg') k.
Proof.
  intros (Hb & Hm & Hv & Hup & Hneg & Hch & Hte & Hcl). unfold for_server, resp_replace_body.
  rewrite (bool_decide_false (msg_method req = HEAD)) by done.
  assert (has_body encoding (r_body msg) = true) as -> by (by destruct (r_body msg)).
  rewrite Hneg. set (version := default (msg_version req) (r_version msg)) in *.
  assert (forall e k, is_compression e = false -> ce_new e k = CE_Identity (Z' := Z') k) as Hnew by (by intros []).
  assert (exists k msg1, streaming_encoding version (set_r_body Body_Empty msg) = (k, msg1) /\
    same_line msg msg1 /\ announces (r_headers msg1) k) as (k & msg1 & Hse & Hl & Ha).
  { unfold streaming_encoding. simpl. destruct (r_chunked msg) as [[]|]; [|done|].
    - rewrite decide_False by done. do 2 eexists. split; [done|]. split; [done|]. simpl.
      rewrite !hm_get_insert, (decide_True (P := TRANSFER_ENCODING = _)), decide_False by done.
      by rewrite hm_get_remove, decide_True by done.
    - destruct (hm_get CONTENT_LENGTH (r_headers msg)) as [v|] eqn:Hlen.
      + destruct (Hcl v eq_refl) as [-> [n Hn]]. rewrite Hn. simpl. do 2 eexists. split; [done|].
        split; [done|]. simpl. split_and!; [by eapply parse_u64_nonneg|done|]. eauto.
      + simpl. destruct version; do 2 eexists; (split; [done|]); (split; [done|]); simpl.
        3: by rewrite !hm_get_insert, decide_True, decide_False by done.
        all: by rewrite !hm_get_remove, decide_True, decide_False by done. }
  assert (exists msg', Ret (ce_new (Z' := Z') (negotiate req encoding) k, set_r_body (r_body msg) msg1) =
    Ret (CE_Identity k, msg') /\ same_line msg msg' /\ r_body msg' = r_body msg /\ announces (r_headers msg') k)
    as (msg' & He & ?).
  { rewrite Hnew by done. by eexists. }
  exists k, msg'. split; [|done]. rewrite <-He.
  destruct (r_body msg); try done; unfold resp_upgrade in Hup |- *; simpl; rewrite Hup, Hse; done.
Qed.

Lemma announces_client req body h k :
  is_streaming body = true -> announces h k ->
  client_decoder (sent_headers req body (hm_iter h)) = Some (kind_decoder k).
Proof.
  intros Hb Ha. unfold client_decoder. rewrite sent_headers_length, sent_headers_lookup by done.
  rewrite <-!hm_get_iter. destruct k as [eof|n|]; simpl in Ha.
  - by destruct Ha as (_ & -> & _).
  - destruct Ha as (_ & -> & v & -> & Hp). simpl. by rewrite Hp.
  - by destruct Ha as [-> ->].
Qed.

(** Calls between the start and the end of a response. *)
Inductive writer_op : Type := Op_write (m : Binary) | Op_flush.
Definition op_data (ops : list writer_op) : list Binary :=
  omap (fun o => match o with Op_write m => Some m | Op_flush => None end) ops.

Fixpoint h1_run (ops : list writer_op) (w : H1Writer) : run (option H1Writer) :=
  match ops with
  | [] => Ret (Some w)
  | Op_write m :: ops =>
      '(r, w) ← h1_write m w;
      match r with Ok _ => h1_run ops w | Err _ => Ret None end
  | Op_flush :: ops =>
      '(r, w) ← h1_poll_completed false w;
      match r with PErr _ => Ret None | _ => h1_run ops w end
  end.

Lemma h1_run_ok ops w k :
  hw_started w = true -> hw_upgrade w = false -> hw_disconnected w = false -> hw_encoder w = CE_Identity k ->
  exists o, h1_run ops w = Ret o /\
    forall w', o = Some w' ->
      let t := te_encode_all (mkTE k []) (op_data ops) in
      hw_encoder w' = CE_Identity (te_kind t) /\ hw_out w' = hw_out w ++ te_buffer t.
Proof.
  revert w k. induction ops as [|[m|] ops IH]; intros w k Hst Hup Hdc Henc; cbn [h1_run].
  - eexists. split; [done|]. intros w' [= <-]. simpl. by rewrite app_nil_r.
  - unfold h1_write. simpl. rewrite Hdc, Hst, Hup. simpl. rewrite Henc. simpl.
    assert (exists b, te_encode (mkTE k []) m = (Ok b, (te_encode (mkTE k []) m).2)) as [b Hb].
    { unfold te_encode. simpl. repeat case_match; by eexists. }
    set (t1 := (te_encode (mkTE k []) m).2) in *.
    pose proof (te_encode_prefix k (hw_buffer w) [] m) as Hpre. rewrite app_nil_r, Hb in Hpre. rewrite Hpre. simpl.
    edestruct (IH (set_hw_encoder (CE_Identity (te_kind t1)) (set_hw_buffer (hw_buffer w ++ te_buffer t1)
      (set_hw_written (u64_wrap (hw_written w + Binary_len m)) w))) (te_kind t1)) as (o & Ho & Hok); [done..|].
    exists o. split; [exact Ho|]. intros w' Hw. destruct (Hok w' Hw) as [He Hout].
    change (let t := te_encode_all t1 (op_data ops) in
      hw_encoder w' = CE_Identity (te_kind t) /\ hw_out w' = hw_out w ++ te_buffer t).
    replace t1 with (mkTE (te_kind t1) (te_buffer t1 ++ [])) by (rewrite app_nil_r; by destruct t1).
    rewrite te_encode_all_prefix. cbn [te_kind te_buffer].
    split; [done|]. rewrite Hout. unfold hw_out. simpl. by rewrite <-!app_assoc.
  - destruct (poll_completed_ok false w) as (r & w1 & -> & Hok). cbn [mbind run_bind].
    destruct r as [u| |e]; [| |by eexists].
    all: destruct Hok as [(H1 & H2 & H3 & H4 & H5 & H6) Ho]; [done|].
    all: destruct (IH w1 k) as (o & -> & Hk); [congruence..|].
    all: exists o; split; [done|]; intros w' Hw; destruct (Hk w' Hw) as [He Hout].
    all: split; [done|]; by rewrite Hout, Ho.
Qed.


Lemma h1_write_eof_out w k :
  hw_encoder w = CE_Identity k ->
  hw_out (h1_write_eof w).2 = hw_out w ++ te_buffer (te_encode_eof (mkTE k [])).
Proof.
  intros Henc. unfold h1_write_eof. rewrite Henc. simpl.
  pose proof (te_encode_eof_prefix k (hw_buffer w) []) as Hpre. rewrite app_nil_r in Hpre. rewrite Hpre.
  repeat case_match; unfold hw_out; simpl; by rewrite app_assoc.
Qed.

(** What a client decodes of the encoding [enc] of the chunks [msgs], followed by the
    bytes [rest] of the next response. *)
Definition delivered (k : Kind) (msgs : list Binary) (enc rest : bytes) : Prop :=
  let data := concat (map Binary_as_ref msgs) in
  match k with
  | Chunked _ _ =>
      drain (S (length (enc ++ rest))) k (enc ++ rest) =
      Ret (chunked_data msgs, Done, Chunked ChunkEnd 0, rest)
  | Length n =>
      enc = takeZ n data /\
      (n <= lenZ data ->
       drain (S (length (enc ++ rest))) k (enc ++ rest) = Ret (takeZ n data, Done, Length 0, rest))
  | Eof _ => enc = data
  end.

Lemma te_encode_all_eof ms buf :
  te_encode_all (mkTE TE_Eof buf) ms = mkTE TE_Eof (buf ++ concat (map Binary_as_ref ms)).
Proof.
  revert buf. induction ms as [|m ms IH]; intros buf; [by rewrite app_nil_r|].
  change (te_encode_all (mkTE TE_Eof (buf ++ Binary_as_ref m)) ms = mkTE TE_Eof (buf ++ concat (map Binary_as_ref (m :: ms)))).
  rewrite IH. simpl. by rewrite app_assoc.
Qed.

Lemma delivered_ok h k msgs rest :
  announces h k -> Forall (fun m => Binary_len m < 2 ^ 64) msgs ->
  delivered (kind_decoder k) msgs (te_buffer (te_encode_eof (te_encode_all (mkTE k []) msgs))) rest.
Proof.
  intros Ha Hm. destruct k as [eof|n|]; simpl in Ha.
  - destruct Ha as [-> _]. destruct (chunked_encode_spec [] msgs Hm) as (enc & Henc & Hdec).
    unfold TransferEncoding_chunked in Henc. rewrite Henc. unfold delivered, kind_decoder, Decoder_chunked.
    cbn [te_buffer app]. rewrite drain_spec by (lia || by split). by rewrite <-Hdec.
  - destruct Ha as [Hn _]. fold (TransferEncoding_length n []). rewrite te_encode_all_length by done.
    unfold delivered, kind_decoder, Decoder_length. cbn [te_buffer te_encode_eof te_kind app TransferEncoding_length].
    split; [done|]. intros Hle. by apply drain_length.
  - rewrite te_encode_all_eof. done.
Qed.

(** A writer between two responses. *)
Definition idle (w : H1Writer) : Prop :=
  hw_upgrade w = false /\ hw_disconnected w = false /\ exists k, hw_encoder w = CE_Identity k.

Lemma idle_drop w : idle w -> ce_drop (hw_encoder w) (hw_buffer w) = hw_buffer w.
Proof. by intros (_ & _ & k & ->). Qed.

(** A started response, as a client reads it. *)
Lemma h1_start_reads req msg encoding w enc msg1 :
  memory_ok -> 100 <= r_status msg < 1000 -> no_newline (resp_reason canonical_reason msg) -> no_newline date ->
  idle w -> for_server req msg encoding = Ret (enc, msg1) -> same_line msg msg1 ->
  (forall b, r_body msg1 = Body_Binary b -> Binary_len b < 2 ^ 64 /\ enc = CE_Identity TE_Eof) ->
  exists msg' w' head, h1_start req msg encoding w = Ret (Ok WS_Done, msg', w') /\
    hw_out w' = hw_out w ++ head ++ body_bytes (r_body msg1) /\
    (forall key, key <> CONNECTION -> get_all key (r_headers msg') = get_all key (r_headers msg1)) /\
    hw_started w' = true /\ hw_upgrade w' = resp_upgrade msg1 /\ hw_disconnected w' = false /\ hw_encoder w' = enc /\
    (Forall header_ok (hm_iter (r_headers msg')) -> forall rest, read_head (head ++ rest) =
       Some (status_line (default (msg_version req) (r_version msg)) (r_status msg) ++
             resp_reason canonical_reason msg, sent_headers req (r_body msg1) (hm_iter (r_headers msg')), rest)).
Proof.
  intros Hmem Hst Hre Hdt Hidle Hfs (Hs1 & Hr1 & Hv1 & _) Hbin.
  destruct (h1_start_ok req msg encoding w enc msg1 Hmem ltac:(by rewrite Hs1) Hfs Hbin)
    as (msg' & w' & Hrun & _ & Hh' & Hbuf & Hsta & Hup & _ & Hdc & Hio & Henc).
  rewrite idle_drop in Hbuf by done. destruct Hidle as (Hup0 & Hdc0 & _). rewrite Hup0 in Hup. rewrite Hdc0 in Hdc.
  set (version := default _ (r_version msg1)) in *. set (msg2 := set_connection _ _ _ _) in *.
  destruct (set_connection_line version (resp_upgrade msg1)
    (hw_keepalive w || default (msg_keep_alive req) (resp_keep_alive msg1)) msg1) as ((Hs2 & Hr2 & _) & _ & Hget2).
  fold msg2 in Hs2, Hr2, Hget2.
  assert (resp_reason canonical_reason msg2 = resp_reason canonical_reason msg) as Hreason.
  { unfold resp_reason. by rewrite Hr2, Hs2, Hr1, Hs1. }
  exists msg', w', (head_text version req msg2 (r_body msg1)). rewrite Hh'. split_and!; try done.
  - unfold hw_out. by rewrite Hbuf, Hio, <-app_assoc.
  - intros Hok rest. rewrite read_head_text by (rewrite ?Hreason, ?Hs2, ?Hs1; done || lia).
    unfold version. by rewrite Hreason, Hs2, Hs1, Hv1.
Qed.

(** C18. A response with its body at hand arrives whole: [start] never panics, however
    much room the output buffer has; it appends a head and the body, compressed or not,
    and a client that reads the head finds its end, every header of the application with
    all its values in order (but for the content length, which is that of the body, and
    the connection and the content encoding, which the writer may set), a date, and the
    number of bytes of the body, and decodes exactly the body (nothing of a header value,
    of the reason or of the body is taken for a part of the head). *)
Theorem binary_response_delivered (req : Msg) (msg : Resp) (b : Binary) (encoding : ContentEncoding)
    (w : H1Writer) (rest : bytes) :
  memory_ok -> 100 <= r_status msg < 1000 -> no_newline (resp_reason canonical_reason msg) ->
  no_newline date -> r_body msg = Body_Binary b -> msg_method req <> HEAD -> idle w ->
  hm_get TRANSFER_ENCODING (r_headers msg) = None -> Binary_len b < 2 ^ 64 ->
  (forall e b', compress_binary (Z' := Z') e b = Ret b' -> Binary_len b' < 2 ^ 64) ->
  exists b' msg' w' head,
    h1_start req msg encoding w = Ret (Ok WS_Done, msg', w') /\ sent_as req msg encoding b b' msg' /\
    hw_out w' = hw_out w ++ head ++ Binary_as_ref b' /\
    (Forall header_ok (hm_iter (r_headers msg')) ->
     exists hs, read_head (head ++ Binary_as_ref b' ++ rest) =
         Some (status_line (default (msg_version req) (r_version msg)) (r_status msg) ++
               resp_reason canonical_reason msg, hs, Binary_as_ref b' ++ rest) /\
       (forall k, k ∉ [CONTENT_LENGTH; DATE; CONNECTION; CONTENT_ENCODING] -> values k hs = get_all k (r_headers msg)) /\
       values DATE hs = (match get_all DATE (r_headers msg) with [] => [date] | dates => dates end) /\
       (forall k, k ∈ [CONNECTION; CONTENT_ENCODING] -> values k hs = get_all k (r_headers msg')) /\
       client_decoder hs = Some (Decoder_length (Binary_len b')) /\
       drain (S (length (Binary_as_ref b' ++ rest))) (Decoder_length (Binary_len b'))
         (Binary_as_ref b' ++ rest) = Ret (Binary_as_ref b', Done, Length 0, rest)).
Proof.
  intros Hmem Hst Hre Hdt Hb Hm Hidle Hte Hlen Hclen.
  destruct (for_server_binary req msg encoding b Hb Hm) as (b' & msg1 & Hfs & Hline & Hb1 & Hsent & Hget1).
  assert (Binary_len b' < 2 ^ 64) as Hlen'.
  { destruct Hsent as [->|(e & _ & _ & _ & Hc & _)]; [done|by eapply Hclen]. }
  destruct (h1_start_reads req msg encoding w _ msg1 Hmem Hst Hre Hdt Hidle Hfs Hline)
    as (msg' & w' & head & Hrun & Hout & Hget & _ & _ & _ & _ & Hread).
  { intros b0 Hb0. rewrite Hb1 in Hb0. by injection Hb0 as <-. }
  rewrite Hb1 in Hout, Hread. exists b', msg', w', head. split_and!; [done| |done|].
  - destruct Hsent as [?|(e & ? & ? & ? & ? & Hce)]; [by left|right]. exists e. split_and!; try done.
    by rewrite hm_get_all, Hget, <-hm_get_all.
  - intros Hok. eexists. split; [by apply Hread|].
    assert (Binary_len b' = lenZ (Binary_as_ref b')) as Hbl by apply Binary_len_as_ref.
    pose proof (lenZ_nonneg (Binary_as_ref b')). split_and!.
    + intros k Hk. rewrite sent_headers_values, decide_False, app_nil_r by set_solver.
      change (get_all k (r_headers msg') = get_all k (r_headers msg)). rewrite Hget, Hget1 by set_solver. done.
    + rewrite sent_headers_values by done. fold (get_all DATE (r_headers msg')). rewrite Hget, Hget1 by done.
      destruct (get_all DATE (r_headers msg)); [by rewrite decide_True|]. rewrite decide_False by naive_solver.
      by rewrite app_nil_r.
    + intros k Hk. rewrite sent_headers_values, decide_False, app_nil_r by set_solver. done.
    + unfold client_decoder. rewrite sent_headers_lookup, <-hm_get_iter, hm_get_all, Hget, Hget1, <-hm_get_all, Hte by done.
      unfold sent_headers. simpl. by rewrite parse_format_u64 by lia.
    + rewrite Hbl. rewrite <-(takeZ_all (lenZ (Binary_as_ref b')) (Binary_as_ref b')) at 1 3 4 by done.
      by apply drain_length.
Qed.


(** A streamed response as it is sent: a head that announces the framing, and the
    encoded chunks. *)
Lemma streamed_response_sent (req : Msg) (msg : Resp) (encoding : ContentEncoding) (w : H1Writer)
    (ops : list writer_op) :
  memory_ok -> 100 <= r_status msg < 1000 -> no_newline (resp_reason canonical_reason msg) ->
  no_newline date -> streamable req msg encoding -> idle w ->
  exists msg' w1 o k head,
    h1_start req msg encoding w = Ret (Ok WS_Done, msg', w1) /\ h1_run ops w1 = Ret o /\
    announces (r_headers msg') k /\
    (forall w2, o = Some w2 -> hw_out (h1_write_eof w2).2 =
       hw_out w ++ head ++ te_buffer (te_encode_eof (te_encode_all (mkTE k []) (op_data ops)))) /\
    (Forall header_ok (hm_iter (r_headers msg')) -> forall rest, read_head (head ++ rest) =
       Some (status_line (default (msg_version req) (r_version msg)) (r_status msg) ++
             resp_reason canonical_reason msg, sent_headers req (r_body msg) (hm_iter (r_headers msg')), rest)).
Proof.
  intros Hmem Hst Hre Hdt Hstr Hidle.
  destruct (for_server_streaming req msg encoding Hstr) as (k & msg1 & Hfs & Hline & Hb1 & Hann).
  destruct Hstr as (Hb & _ & _ & Hup & _).
  assert (resp_upgrade msg1 = false) as Hup1 by (unfold resp_upgrade; by destruct Hline as (_ & _ & _ & -> & _)).
  destruct (h1_start_reads req msg encoding w _ msg1 Hmem Hst Hre Hdt Hidle Hfs Hline)
    as (msg' & w1 & head & Hrun & Hout & Hget & Hsta & Hupw & Hdc & Henc & Hread).
  { intros b0 Hb0. rewrite <-Hb1, Hb0 in Hb. done. }
  destruct (h1_run_ok ops w1 k Hsta ltac:(congruence) Hdc Henc) as (o & Ho & Hok).
  exists msg', w1, o, k, head. rewrite Hb1 in Hread. split_and!; [done|done| | |done].
  { destruct k; simpl in *; by rewrite ?hm_get_all, ?Hget, <-?hm_get_all. }
  intros w2 Hw2. destruct (Hok w2 Hw2) as [Henc2 Hout2].
  set (t := te_encode_all (mkTE k []) (op_data ops)) in *.
  rewrite (h1_write_eof_out w2 (te_kind t) Henc2), Hout2, Hout.
  assert (body_bytes (r_body msg1) = []) as -> by (rewrite Hb1; by destruct (r_body msg)).
  rewrite <-!app_assoc. do 2 f_equal. simpl. pose proof (te_encode_eof_prefix (te_kind t) (te_buffer t) []) as Hpre.
  rewrite app_nil_r in Hpre. destruct t as [kt bt]. simpl in Hpre |- *. by rewrite Hpre.
Qed.

(** C2. A streamed response arrives whole: the head announces the framing that the
    encoder uses, and whatever chunks are written, however the socket splits and delays
    its writes and whenever the buffer is flushed in between, the bytes sent and the
    bytes waiting are the head and the encoded chunks in order; a client decodes from
    them the chunks (up to the first empty one, which ends a chunked body), and leaves
    the next response untouched.  No call panics. *)
Theorem streamed_response_delivered (req : Msg) (msg : Resp) (encoding : ContentEncoding) (w : H1Writer)
    (ops : list writer_op) (rest : bytes) :
  memory_ok -> 100 <= r_status msg < 1000 -> no_newline (resp_reason canonical_reason msg) ->
  no_newline date -> streamable req msg encoding -> idle w ->
  Forall (fun m => Binary_len m < 2 ^ 64) (op_data ops) ->
  exists msg' w1 o,
    h1_start req msg encoding w = Ret (Ok WS_Done, msg', w1) /\ h1_run ops w1 = Ret o /\
    forall w2, o = Some w2 ->
    exists head enc, hw_out (h1_write_eof w2).2 = hw_out w ++ head ++ enc /\
      (Forall header_ok (hm_iter (r_headers msg')) ->
       exists hs k, read_head (head ++ enc ++ rest) =
           Some (status_line (default (msg_version req) (r_version msg)) (r_status msg) ++
                 resp_reason canonical_reason msg, hs, enc ++ rest) /\
         client_decoder hs = Some k /\ delivered k (op_data ops) enc rest).
Proof.
  intros Hmem Hst Hre Hdt Hstr Hidle Hops.
  destruct (streamed_response_sent req msg encoding w ops Hmem Hst Hre Hdt Hstr Hidle)
    as (msg' & w1 & o & k & head & Hrun & Ho & Hann & Hout & Hread).
  exists msg', w1, o. split_and!; [done..|]. intros w2 Hw2. do 2 eexists. split; [by apply Hout|].
  intros Hok. do 2 eexists. split_and!; [by apply Hread| |by eapply delivered_ok].
  apply announces_client; [apply Hstr|done].
Qed.

(** Flushing for shutdown can lose the end of a response: [poll_completed(true)]
    shuts the socket down as soon as no more than [buffer_capacity] bytes wait, 64 KiB
    by default for a streamed response, and those bytes are never sent. *)
Theorem shutdown_drops_output (w : H1Writer) (shutdowns : list (poll unit IoError)) :
  hw_buffer w <> [] -> lenZ (hw_buffer w) <= hw_buffer_capacity w ->
  io_writes (hw_stream w) = [] -> io_shutdowns (hw_stream w) = Ready tt :: shutdowns ->
  exists w', h1_poll_completed true w = Ret (Ready tt, w') /\
    io_closed (hw_stream w') = true /\ io_sent (hw_stream w') = io_sent (hw_stream w) /\
    hw_buffer w' = hw_buffer w.
Proof.
  intros Hb Hc Hw Hs. unfold h1_poll_completed. rewrite bool_decide_false by done.
  assert (0 < lenZ (hw_buffer w)) as Hpos by (destruct (hw_buffer w); [done|lenZ_lia]).
  assert (write_data (hw_buffer w) w = Ret (Ok 0, set_hw_stream (hw_stream w) w)) as ->.
  { unfold write_data. cbn [write_data_loop]. rewrite (proj2 (Z.ltb_lt _ _)) by done.
    unfold io_write. by rewrite Hw. }
  cbn [negb mbind run_bind]. unfold split_to. cbn [bm_data hw_buffer set_hw_stream].
  rewrite (proj2 (Z.leb_le 0 (lenZ (hw_buffer w)))) by lia. cbn [mbind run_bind bm_data].
  rewrite dropZ_0 by done. cbn [hw_buffer_capacity set_hw_buffer set_hw_stream hw_buffer].
  rewrite (proj2 (Z.ltb_ge _ _)) by done. unfold h1_flushed, io_shutdown. cbn [hw_stream set_hw_buffer set_hw_stream].
  rewrite Hs. eexists. split; [done|]. cbn. by rewrite orb_true_r.
Qed.

End Writing.
Arguments H1Writer : clear implicits.

(** ** Witnesses *)

(** A compressor that stores. *)
Definition stored : Compressor unit :=
  {| cp_new := fun _ => tt; cp_write := fun d c => ([d], Ok tt, c); cp_finish := fun _ => ([], Ok tt);
     cp_drop := fun _ => [] |}.
Definition ok_reason (status : Z) : option bytes := if decide (status = 200) then Some (b#"OK") else None.
Definition a_date : bytes := b#"Sun, 06 Nov 1994 08:49:37 GMT".
Definition a_stack : bytes := repeat 255 41.
Definition no_spare (_ : bytes) : Z := 0.

Notation hlist := (list (bytes * bytes)).
Definition get_request : HttpInnerMessage hlist := HttpInnerMessage_default.
Definition hello_body : Binary := Bin_Slice (b#"Hello, world!").
Definition hello_response : InnerHttpResponse hlist :=
  set_r_headers [(CONTENT_TYPE, b#"text/plain")] (InnerHttpResponse_new 200 (Body_Binary hello_body)).
Definition stream_response : InnerHttpResponse hlist := InnerHttpResponse_new 200 (Body_Streaming 0).
Definition a_writer (writes : list (result Z IoError)) : H1Writer unit :=
  H1Writer_new (mkIo [] writes [] [] false) [].

Lemma memory_witness : memory_ok a_stack no_spare.
Proof. split; [reflexivity|]. intros b. vm_compute. discriminate. Qed.

Lemma binary_response_delivered_witness :
  exists hd w' hs, h1_start (H := hlist) (CP := stored) (FF := integer_f64) (AL := exact_alloc)
      ok_reason a_date a_stack no_spare get_request hello_response Enc_Identity (a_writer []) =
      Ret (Ok WS_Done, set_r_body Body_Empty hello_response, w') /\
    hw_out w' = hd ++ b#"Hello, world!" /\
    read_head (hd ++ b#"Hello, world!HTTP/1.1") = Some (b#"HTTP/1.1 200 OK", hs, b#"Hello, world!HTTP/1.1") /\
    values CONTENT_TYPE hs = [b#"text/plain"] /\ client_decoder hs = Some (Decoder_length 13).
Proof.
  destruct (binary_response_delivered (H := hlist) (CP := stored) (FF := integer_f64) (AL := exact_alloc)
    ok_reason a_date a_stack no_spare get_request hello_response hello_body Enc_Identity (a_writer [])
    (b#"HTTP/1.1")) as (b' & msg' & w' & hd & Hs & Hsent & Hout & Hread).
  - apply memory_witness.
  - simpl. lia.
  - repeat constructor; discriminate.
  - repeat constructor; discriminate.
  - reflexivity.
  - discriminate.
  - split; [reflexivity|split; [reflexivity|by eexists]].
  - reflexivity.
  - reflexivity.
  - intros e b' Hc. destruct e; injection Hc as <-; reflexivity.
  - destruct Hsent as [->|(e & He & _ & <- & _)]; [|discriminate].
    assert (msg' = set_r_body Body_Empty hello_response) as ->.
    { assert (run_post False (fun r => r.1.2 = set_r_body Body_Empty hello_response)
        (h1_start (H := hlist) (CP := stored) (FF := integer_f64) (AL := exact_alloc)
          ok_reason a_date a_stack no_spare get_request hello_response Enc_Identity (a_writer []))) as Hm
        by (vm_compute; reflexivity).
      rewrite Hs in Hm. exact Hm. }
    destruct Hread as (hs & Hr & Hk & _ & _ & Hc & _).
    { apply (bool_decide_unpack _). vm_compute. exact I. }
    exists hd, w', hs. split; [exact Hs|]. split; [exact Hout|]. split; [exact Hr|]. split; [|exact Hc].
    apply (Hk CONTENT_TYPE). apply (bool_decide_unpack _). vm_compute. exact I.
Defined.

Definition two_writes : list writer_op :=
  [Op_write (Bin_Slice (b#"Hello, ")); Op_flush; Op_write (Bin_Slice (b#"world!"))].

(** A socket that takes five bytes, then three, and then blocks. *)
Lemma streamed_response_delivered_witness :
  exists w2 hd enc hs k, hw_out (h1_write_eof (CP := stored) w2).2 = hd ++ enc /\
    read_head (hd ++ enc ++ b#"HTTP/1.1") = Some (b#"HTTP/1.1 200 OK", hs, enc ++ b#"HTTP/1.1") /\
    client_decoder hs = Some k /\ delivered k (op_data two_writes) enc (b#"HTTP/1.1").
Proof.
  destruct (streamed_response_delivered (H := hlist) (CP := stored) (FF := integer_f64) (AL := exact_alloc)
    ok_reason a_date a_stack no_spare get_request stream_response Enc_Identity
    (a_writer [Ok 5; Ok 3]) two_writes (b#"HTTP/1.1")) as (msg' & w1 & o & Hs & Hr & Hok).
  - apply memory_witness.
  - simpl. lia.
  - repeat constructor; discriminate.
  - repeat constructor; discriminate.
  - split_and!; done.
  - split; [reflexivity|split; [reflexivity|by eexists]].
  - repeat constructor.
  - assert (run_post False (fun r => r_headers r.1.2 = [(TRANSFER_ENCODING, b#"chunked")] /\
        run_post False is_Some (h1_run (CP := stored) two_writes r.2))
      (h1_start (H := hlist) (CP := stored) (FF := integer_f64) (AL := exact_alloc)
        ok_reason a_date a_stack no_spare get_request stream_response Enc_Identity (a_writer [Ok 5; Ok 3]))) as Hm
      by (vm_compute; split; [reflexivity|by eexists]).
    rewrite Hs in Hm. destruct Hm as [Hh Ho]. cbn [fst snd] in Hh, Ho. rewrite Hr in Ho. destruct Ho as [w2 ->].
    destruct (Hok w2 eq_refl) as (hd & enc & Hout & Hread). destruct Hread as (hs & k & Hrd & Hc & Hd).
    { rewrite Hh. apply (bool_decide_unpack _). vm_compute. exact I. }
    exists w2, hd, enc, hs, k. split; [exact Hout|]. split; [exact Hrd|]. split; [exact Hc|exact Hd].
Defined.

Lemma shutdown_drops_output_witness :
  let w := set_hw_capacity 65536 (set_hw_buffer (b#"the end") (set_hw_stream (mkIo [] [] [Ready tt] [] false) (a_writer []))) in
  exists w', h1_poll_completed true w = Ret (Ready tt, w') /\ io_closed (hw_stream w') = true /\
    io_sent (hw_stream w') = [] /\ hw_buffer w' = b#"the end".
Proof.
  apply (shutdown_drops_output (Z' := unit)
    (set_hw_capacity 65536 (set_hw_buffer (b#"the end") (set_hw_stream (mkIo [] [] [Ready tt] [] false) (a_writer [])))) []).
  - discriminate.
  - vm_compute. discriminate.
  - reflexivity.
  - reflexivity.
Defined.
