(* ===== verification/Http1.v ===== *)
(** * HTTP/1 connections (src/src/server/h1.rs, [Http1])

    A connection reads requests as they arrive, starts a task for each of them, and
    lets the tasks write their responses in turn through the one writer.  The tasks
    are known by the interface [HttpHandlerTask]; [Pipeline] implements it.  What the
    tasks share with the reader, the payload of the request being received and the
    pool of request heads, is passed to them. *)
From S2P Require Import Prelude StrLib Errors Http Response Payload Decoder Transfer H1Reader PayloadType.
From S2P Require Import SharedBytes ServerHelpers ContentEncoder Pipeline H1Writer.
From Stdlib Require Import Sorted.
Open Scope Z_scope.

Definition MAX_PIPELINED_MESSAGES : Z := 16.

Section Connections.
Context {H : Type} `{HM : HeaderMap H} {W : Type} `{PW : PayloadWriter W} `{HP : HttpParsers}
        {Z' : Type} `{CP : Compressor Z'}.
Context (new_tx : H -> W).
Notation Resp := (InnerHttpResponse H).
Notation Msg := (HttpInnerMessage H).
Notation Pool := (MessagePool H).
Notation Writer := (H1Writer Z').

(** What tasks and reader share. *)
Record World : Type := mkWorld { wd_reader : Reader (W := W); wd_pool : Pool }.

Definition world_ok (wd : World) : Prop := reader_wf (wd_reader wd) /\ pool_clean (wd_pool wd).

(** The trait [HttpHandlerTask], with the error task of [Pipeline::error] and what is
    dropped with a task or a request.  Tasks reach the payload only through its channel
    and the pool only by dropping requests, so they keep both well-formed. *)
Class HttpHandlerTask (K : Type) := {
  tk_poll_io : Writer -> World -> K -> run (poll bool Error * Writer * World * K);
  tk_poll : World -> K -> run (poll unit Error * World * K);
  tk_disconnected : K -> K;
  tk_error : Resp -> K;
  tk_drop : K -> World -> World;
  req_drop : Msg -> World -> World;
  tk_poll_io_world w wd k r w' wd' k' :
    tk_poll_io w wd k = Ret (r, w', wd', k') -> world_ok wd -> world_ok wd';
  tk_poll_world wd k r wd' k' : tk_poll wd k = Ret (r, wd', k') -> world_ok wd -> world_ok wd';
  tk_drop_world k wd : world_ok wd -> world_ok (tk_drop k wd);
  req_drop_world m wd : world_ok wd -> world_ok (req_drop m wd);
}.

Context {K : Type} `{TK : HttpHandlerTask K}.

(** [Entry] with its [EntryFlags].  [e_id] numbers the requests of the connection. *)
Record Entry : Type := mkEntry { e_id : nat; e_pipe : K; e_eof : bool; e_error : bool; e_finished : bool }.

(** [Http1] with its [Flags].  A timer is known by how often it still answers
    [NotReady].  Beside the state: the number of requests started, and for every turn
    that a task was given with the writer, its request. *)
Record Http1 : Type := mkHttp1 {
  hc_started : bool;
  hc_error : bool;
  hc_keepalive : bool;
  hc_shutdown : bool;
  hc_addr : option nat;
  hc_stream : Writer;
  hc_world : World;
  hc_read_buf : bytes;
  hc_tasks : list Entry;
  hc_timer : option nat;
  hc_count : nat;
  hc_turns : list nat;
}.

Definition set_hc_started v c := mkHttp1 v (hc_error c) (hc_keepalive c) (hc_shutdown c) (hc_addr c)
  (hc_stream c) (hc_world c) (hc_read_buf c) (hc_tasks c) (hc_timer c) (hc_count c) (hc_turns c).
Definition set_hc_error v c := mkHttp1 (hc_started c) v (hc_keepalive c) (hc_shutdown c) (hc_addr c)
  (hc_stream c) (hc_world c) (hc_read_buf c) (hc_tasks c) (hc_timer c) (hc_count c) (hc_turns c).
Definition set_hc_keepalive v c := mkHttp1 (hc_started c) (hc_error c) v (hc_shutdown c) (hc_addr c)
  (hc_stream c) (hc_world c) (hc_read_buf c) (hc_tasks c) (hc_timer c) (hc_count c) (hc_turns c).
Definition set_hc_shutdown v c := mkHttp1 (hc_started c) (hc_error c) (hc_keepalive c) v (hc_addr c)
  (hc_stream c) (hc_world c) (hc_read_buf c) (hc_tasks c) (hc_timer c) (hc_count c) (hc_turns c).
Definition set_hc_stream v c := mkHttp1 (hc_started c) (hc_error c) (hc_keepalive c) (hc_shutdown c) (hc_addr c)
  v (hc_world c) (hc_read_buf c) (hc_tasks c) (hc_timer c) (hc_count c) (hc_turns c).
Definition set_hc_world v c := mkHttp1 (hc_started c) (hc_error c) (hc_keepalive c) (hc_shutdown c) (hc_addr c)
  (hc_stream c) v (hc_read_buf c) (hc_tasks c) (hc_timer c) (hc_count c) (hc_turns c).
Definition set_hc_read_buf v c := mkHttp1 (hc_started c) (hc_error c) (hc_keepalive c) (hc_shutdown c) (hc_addr c)
  (hc_stream c) (hc_world c) v (hc_tasks c) (hc_timer c) (hc_count c) (hc_turns c).
Definition set_hc_tasks v c := mkHttp1 (hc_started c) (hc_error c) (hc_keepalive c) (hc_shutdown c) (hc_addr c)
  (hc_stream c) (hc_world c) (hc_read_buf c) v (hc_timer c) (hc_count c) (hc_turns c).
Definition set_hc_timer v c := mkHttp1 (hc_started c) (hc_error c) (hc_keepalive c) (hc_shutdown c) (hc_addr c)
  (hc_stream c) (hc_world c) (hc_read_buf c) (hc_tasks c) v (hc_count c) (hc_turns c).
Definition add_hc_turn id c := mkHttp1 (hc_started c) (hc_error c) (hc_keepalive c) (hc_shutdown c) (hc_addr c)
  (hc_stream c) (hc_world c) (hc_read_buf c) (hc_tasks c) (hc_timer c) (hc_count c) (hc_turns c ++ [id]).

(** [self.tasks.push_back(Entry { pipe, flags: EntryFlags::empty() })]. *)
Definition push_task (k : K) (c : Http1) : Http1 :=
  mkHttp1 (hc_started c) (hc_error c) (hc_keepalive c) (hc_shutdown c) (hc_addr c) (hc_stream c) (hc_world c)
    (hc_read_buf c) (hc_tasks c ++ [mkEntry (hc_count c) k false false false]) (hc_timer c)
    (S (hc_count c)) (hc_turns c).

Definition Http1_new (stream : Io) (out : bytes) (addr : option nat) (read_buf : bytes) (pool : Pool) : Http1 :=
  mkHttp1 false false true false addr (H1Writer_new stream out) (mkWorld Reader_new pool) read_buf [] None 0 [].

(** The worker's settings: the handlers, and how connections are kept alive. *)
Context (handlers : list (Msg -> run (result K Msg))) (keep_alive : Z) (ka_enabled : bool) (timer_delay : nat).

Definition set_peer_addr (addr : option nat) (m : Msg) : Msg :=
  {| msg_version := msg_version m; msg_method := msg_method m; msg_uri := msg_uri m;
     msg_headers := msg_headers m; msg_extensions := msg_extensions m; msg_params := msg_params m;
     msg_cookies := msg_cookies m; msg_query := msg_query m; msg_query_loaded := msg_query_loaded m;
     msg_addr := addr; msg_payload := msg_payload m; msg_info := msg_info m; msg_resource := msg_resource m |}.

(** The first handler that takes the request; a request nobody takes is dropped. *)
Fixpoint dispatch (hs : list (Msg -> run (result K Msg))) (req : Msg) (wd : World) : run (K * World) :=
  match hs with
  | [] => Ret (tk_error (InnerHttpResponse_new 404 Body_Empty), req_drop req wd)
  | h :: hs =>
      r ← h req;
      match r with
      | Ok pipe => Ret (pipe, wd)
      | Err req => dispatch hs req wd
      end
  end.

(** What [poll_io] does about a request that cannot be read. *)
Definition parse_failed (err : ReaderError) (c : Http1) : Http1 :=
  (* notify all tasks *)
  let c := set_hc_stream (h1_disconnected (hc_stream c)) c in
  let c := set_hc_tasks (map (fun e => mkEntry (e_id e) (tk_disconnected (e_pipe e)) (e_eof e) (e_error e)
                                         (e_finished e)) (hc_tasks c)) c in
  (* kill keepalive *)
  let c := set_hc_timer None (set_hc_keepalive false c) in
  (* on parse error, stop reading stream but tasks need to be completed *)
  let c := set_hc_error true c in
  match err with
  | RE_Disconnect => c
  | _ =>
      match hc_tasks c with
      | [] => match err with
              | RE_Error err => push_task (tk_error (InnerHttpResponse_new (error_status err) Body_Empty)) c
              | _ => c
              end
      | _ => c
      end
  end.

(** The loop ['outer]. *)
Fixpoint read_requests (fuel : nat) (c : Http1) : run Http1 :=
  match fuel with
  | O => Timeout
  | S fuel =>
      '(r, reader, reads, buf, pool) ←
        reader_parse new_tx (wd_reader (hc_world c)) (io_reads (hw_stream (hc_stream c))) (hc_read_buf c)
          (wd_pool (hc_world c));
      let c := set_hc_stream (set_hw_stream (set_io_reads reads (hw_stream (hc_stream c))) (hc_stream c)) c in
      let c := set_hc_read_buf buf (set_hc_world (mkWorld reader pool) c) in
      match r with
      | Ready req =>
          let c := set_hc_started true c in
          (* set remote addr *)
          let req := set_peer_addr (hc_addr c) req in
          (* stop keepalive timer *)
          let c := set_hc_timer None c in
          (* start request processing *)
          '(pipe, wd) ← dispatch handlers req (hc_world c);
          read_requests fuel (push_task pipe (set_hc_world wd c))
      | NotReady => Ret c
      | PErr err => Ret (parse_failed err c)
      end
  end.

(** [self.reader.need_read() == PayloadStatus::Read]. *)
Definition conn_can_read (c : Http1) : bool * Http1 :=
  let '(st, reader) := reader_need_read (wd_reader (hc_world c)) in
  (bool_decide (st = PS_Read), set_hc_world (mkWorld reader (wd_pool (hc_world c))) c).

(** [if let Ok(Async::NotReady) = self.stream.poll_completed(true) {..}; return Err(())]. *)
Definition flush_and_fail (c : Http1) : run (poll bool unit * Http1) :=
  '(r, w) ← h1_poll_completed true (hc_stream c);
  let c := set_hc_stream w c in
  Ret (match r with NotReady => NotReady | _ => PErr tt end, c).

(** The loop over the tasks: [done] are the entries before [idx].  [inl] returns from
    [poll_io]. *)
Fixpoint check_tasks (retry io : bool) (done todo : list Entry) (c : Http1)
  : run ((poll bool unit * Http1) + Http1) :=
  match todo with
  | [] => Ret (inr (set_hc_tasks done c))
  | item :: todo =>
      if negb io && negb (e_eof item) then
        (* io is corrupted, send buffer *)
        if e_error item then inl <$> flush_and_fail (set_hc_tasks (done ++ item :: todo) c)
        else
          '(r, w, wd, pipe) ← tk_poll_io (hc_stream c) (hc_world c) (e_pipe item);
          let c := add_hc_turn (e_id item) (set_hc_world wd (set_hc_stream w c)) in
          match r with
          | Ready ready =>
              (* override keep-alive state, prepare stream for next response *)
              let c := set_hc_keepalive (h1_keepalive (hc_stream c)) c in
              let c := set_hc_stream (h1_reset (hc_stream c)) c in
              let item := mkEntry (e_id item) pipe ready (e_error item) true in
              check_tasks retry io (done ++ [item]) todo c
          | NotReady =>
              (* no more IO for this iteration *)
              let item := mkEntry (e_id item) pipe (e_eof item) (e_error item) (e_finished item) in
              let '(readable, c) := conn_can_read c in
              if readable && negb retry
              then Ret (inl (Ready true, set_hc_tasks (done ++ item :: todo) c))
              else check_tasks retry true (done ++ [item]) todo c
          | PErr err =>
              (* it is not possible to recover from error during pipe handling *)
              let item := mkEntry (e_id item) pipe (e_eof item) true (e_finished item) in
              inl <$> flush_and_fail (set_hc_tasks (done ++ item :: todo) c)
          end
      else if negb (e_finished item) then
        '(r, wd, pipe) ← tk_poll (hc_world c) (e_pipe item);
        let c := set_hc_world wd c in
        let item := match r with
                    | NotReady => mkEntry (e_id item) pipe (e_eof item) (e_error item) (e_finished item)
                    | Ready _ => mkEntry (e_id item) pipe (e_eof item) (e_error item) true
                    | PErr _ => mkEntry (e_id item) pipe (e_eof item) true (e_finished item)
                    end in
        check_tasks retry io (done ++ [item]) todo c
      else check_tasks retry io (done ++ [item]) todo c
  end.

(** Finished tasks leave the front of the queue. *)
Fixpoint cleanup (tasks : list Entry) (wd : World) : bool * list Entry * World :=
  match tasks with
  | item :: tasks' =>
      if e_eof item && e_finished item
      then let '(_, tasks'', wd) := cleanup tasks' (tk_drop (e_pipe item) wd) in (true, tasks'', wd)
      else (false, tasks, wd)
  | [] => (false, [], wd)
  end.

(** The end of [poll_io]: flush, and decide about the connection. *)
Definition deal_keep_alive (c : Http1) : poll bool unit * Http1 :=
  match hc_tasks c with
  | [] =>
      (* no keep-alive situations *)
      if hc_error c || ((negb (hc_keepalive c) || negb ka_enabled) && hc_started c) then (Ready false, c)
      else
        (* start keep-alive timer *)
        match hc_timer c with
        | None => if 0 <? keep_alive then (NotReady, set_hc_timer (Some (pred timer_delay)) c) else (NotReady, c)
        | Some _ => (NotReady, c)
        end
  | _ => (NotReady, c)
  end.

Definition check_stream (c : Http1) : run (poll bool unit * Http1) :=
  if hc_started c then
    '(r, w) ← h1_poll_completed false (hc_stream c);
    let c := set_hc_stream w c in
    match r with
    | NotReady => Ret (NotReady, c)
    | PErr _ => Ret (PErr tt, c)
    | Ready _ => Ret (deal_keep_alive c)
    end
  else Ret (deal_keep_alive c).

Fixpoint poll_io (fuel : nat) (c : Http1) : run (poll bool unit * Http1) :=
  match fuel with
  | O => Timeout
  | S fuel =>
      (* read incoming data *)
      '(need_read, c) ←
        (if negb (hc_error c) && (lenZ (hc_tasks c) <? MAX_PIPELINED_MESSAGES)
         then c ← read_requests (S (bytes_left (io_reads (hw_stream (hc_stream c))) (hc_read_buf c))) c; Ret (false, c)
         else Ret (true, c));
      let '(retry, c) := conn_can_read c in
      (* check in-flight messages *)
      r ← check_tasks retry false [] (hc_tasks c) c;
      match r with
      | inl out => Ret out
      | inr c =>
          (* cleanup finished tasks *)
          let '(popped, tasks, wd) := cleanup (hc_tasks c) (hc_world c) in
          let c := set_hc_tasks tasks (set_hc_world wd c) in
          if (need_read : bool) && popped then poll_io fuel c
          (* check stream state, deal with keep-alive *)
          else check_stream c
      end
  end.
Definition Http1_poll_io (c : Http1) : run (poll bool unit * Http1) := poll_io (S (length (hc_tasks c))) c.

(** [Http1::poll]: the turns of its loop are bounded by [fuel]. *)
Definition poll_timer (c : Http1) : Http1 :=
  match hc_timer c with
  | Some O => set_hc_shutdown true c
  | Some (S n) => set_hc_timer (Some n) c
  | None => c
  end.

Definition poll_shutdown (c : Http1) : run (poll unit unit * Http1) :=
  '(r, w) ← h1_poll_completed true (hc_stream c);
  let c := set_hc_stream w c in
  Ret (match r with NotReady => NotReady | Ready _ => Ready tt | PErr _ => PErr tt end, c).

Fixpoint conn_poll_loop (fuel : nat) (c : Http1) : run (poll unit unit * Http1) :=
  match fuel with
  | O => Timeout
  | S fuel =>
      '(r, c) ← Http1_poll_io c;
      match r with
      | PErr e => Ret (PErr e, c)
      | Ready true => conn_poll_loop fuel c
      | Ready false => poll_shutdown (poll_timer (set_hc_shutdown true c))
      | NotReady => Ret (NotReady, c)
      end
  end.

Definition Http1_poll (fuel : nat) (c : Http1) : run (poll unit unit * Http1) :=
  let c := poll_timer c in
  if hc_shutdown c then poll_shutdown c else conn_poll_loop fuel c.

(** ** Connections that run *)
Inductive conn_reachable : Http1 -> Prop :=
| conn_new stream out addr read_buf pool :
    pool_reachable pool -> conn_reachable (Http1_new stream out addr read_buf pool)
| conn_poll_io c r c' : conn_reachable c -> Http1_poll_io c = Ret (r, c') -> conn_reachable c'
| conn_poll fuel c r c' : conn_reachable c -> Http1_poll fuel c = Ret (r, c') -> conn_reachable c'.

(** A task or a handler that panics. *)
Definition task_panics : Prop :=
  (exists w wd k, tk_poll_io w wd k = Panic) \/ (exists wd k, tk_poll wd k = Panic) \/
  (exists h req, h ∈ handlers /\ h req = Panic).
Definition tasks_return : Prop :=
  (forall w wd k, tk_poll_io w wd k <> Timeout) /\ (forall wd k, tk_poll wd k <> Timeout) /\
  (forall h req, h ∈ handlers -> h req <> Timeout).

(** Tasks that are done when their response is. *)
Definition orderly : Prop := forall w wd k w' wd' k', tk_poll_io w wd k <> Ret (Ready false, w', wd', k').

(** The queue holds the latest requests in order. *)
Definition numbered (tasks : list Entry) (count : nat) : Prop :=
  (length tasks <= count)%nat /\ map e_id tasks = seq (count - length tasks) (length tasks).

(** Completed tasks come before open ones, and the writer was only given to the
    requests up to the first open one, in order. *)
Definition in_order (tasks : list Entry) (turns : list nat) (count : nat) : Prop :=
  exists d o, tasks = d ++ o /\ Forall (fun e => e_eof e = true) d /\ Forall (fun e => e_eof e = false) o /\
    Sorted le turns /\ Forall (fun t => t <= count - length o)%nat turns.

Definition queue_inv (tasks : list Entry) (c : Http1) : Prop :=
  world_ok (hc_world c) /\ numbered tasks (hc_count c) /\
  (orderly -> in_order tasks (hc_turns c) (hc_count c)).
Definition conn_inv (c : Http1) : Prop := queue_inv (hc_tasks c) c.

Lemma numbered_push tasks count k f e g :
  numbered tasks count -> numbered (tasks ++ [mkEntry count k f e g]) (S count).
Proof.
  intros [Hl Hm]. split; rewrite length_app; simpl; [lia|]. rewrite map_app, Hm. simpl.
  replace (length tasks + 1)%nat with (S (length tasks)) by lia. rewrite seq_S.
  replace (S count - S (length tasks))%nat with (count - length tasks)%nat by lia. do 2 f_equal. lia.
Qed.

Lemma in_order_push tasks turns count k e g :
  in_order tasks turns count -> in_order (tasks ++ [mkEntry count k false e g]) turns (S count).
Proof.
  intros (d & o & -> & Hd & Ho & Hs & Ht). exists d, (o ++ [mkEntry count k false e g]).
  rewrite <-app_assoc. split_and!; try done.
  - apply Forall_app. split; [done|by constructor].
  - eapply Forall_impl; [done|]. intros t Hle. simpl in *. rewrite length_app. simpl. lia.
Qed.

Lemma numbered_suffix a b count : numbered (a ++ b) count -> numbered b count.
Proof.
  intros [Hl Hm]. rewrite length_app in Hl. split; [lia|]. rewrite map_app, length_app in Hm.
  rewrite seq_app in Hm. apply app_inj_1 in Hm as [_ Hm]; [|by rewrite length_map, length_seq].
  rewrite Hm. f_equal. lia.
Qed.

(** Dropping completed tasks from the front. *)
Lemma in_order_suffix a b turns count :
  Forall (fun e => e_eof e = true) a -> in_order (a ++ b) turns count -> in_order b turns count.
Proof.
  intros Ha (d & o & Heq & Hd & Ho & Hs & Ht).
  destruct (decide (length a <= length d)%nat) as [Hle|Hgt].
  - assert (exists d', d = a ++ d' /\ b = d' ++ o) as (d' & -> & ->).
    { exists (drop (length a) d). rewrite <-(take_drop (length a) d), <-app_assoc in Heq.
      apply app_inj_1 in Heq as [-> ->]; [|rewrite length_take; lia].
      split; [|rewrite length_take, Nat.min_l by lia; done]. by rewrite length_take, Nat.min_l, take_drop by lia. }
    exists d', o. split_and!; try done. by apply Forall_app in Hd as [_ ?].
  - exists [], b. destruct o as [|x o].
    { assert (length (a ++ b) = length (d ++ [])) as Hl by (by rewrite Heq). rewrite !length_app in Hl. simpl in Hl. lia. }
    exfalso. assert ((a ++ b) !! length d = Some x) as Hx.
    { rewrite Heq. rewrite lookup_app_r, Nat.sub_diag by lia. done. }
    rewrite lookup_app_l in Hx by lia. apply list_elem_of_lookup_2 in Hx.
    rewrite Forall_forall in Ha. specialize (Ha x Hx). inversion Ho as [|? ? Hox _]; subst. congruence.
Qed.

Lemma dispatch_inv hs req wd :
  tasks_return -> (forall h, h ∈ hs -> h ∈ handlers) -> world_ok wd ->
  run_post task_panics (fun '(_, wd') => world_ok wd') (dispatch hs req wd).
Proof.
  intros (_ & _ & Hret). revert req. induction hs as [|h hs IH]; intros req Hin Hwd; simpl.
  { by apply req_drop_world. }
  apply run_post_bind. destruct (h req) as [r| |] eqn:Hh; simpl.
  - destruct r as [k|req']; [done|]. apply IH; [|done]. intros h' Hh'. apply Hin. by constructor 2.
  - right; right. exists h, req. split; [apply Hin; by constructor|done].
  - eapply Hret; [|done]. apply Hin. by constructor.
Qed.

Lemma parse_failed_inv err c : conn_inv c -> conn_inv (parse_failed err c).
Proof.
  intros (Hwd & Hn & Ho). unfold parse_failed.
  set (f := fun e : Entry => mkEntry (e_id e) (tk_disconnected (e_pipe e)) (e_eof e) (e_error e) (e_finished e)).
  set (c' := set_hc_error true _).
  assert (conn_inv c') as Hc'.
  { unfold conn_inv, queue_inv, c'. simpl. split_and!; [done| |].
    - destruct Hn as [Hl Hm]. split; rewrite length_map; [done|]. rewrite <-Hm, map_map. by apply map_ext.
    - intros (d & o & -> & Hd & Hop & Hs & Ht)%Ho. exists (map f d), (map f o). rewrite map_app, length_map.
      split_and!; try done; by apply Forall_map. }
  assert (forall k, conn_inv (push_task k c')) as Hpush.
  { intros k. destruct Hc' as (Hw' & Hn' & Ho'). split_and!; [done|by apply numbered_push|].
    intros Hord. by apply in_order_push, Ho'. }
  destruct err; try done; destruct (hc_tasks c'); done || apply Hpush.
Qed.

Lemma read_requests_inv fuel c :
  tasks_return -> conn_inv c -> (bytes_left (io_reads (hw_stream (hc_stream c))) (hc_read_buf c) < fuel)%nat ->
  run_post task_panics conn_inv (read_requests fuel c).
Proof.
  intros Hret. revert c. induction fuel as [|fuel IH]; intros c Hc Hf; [lia|]. cbn [read_requests].
  pose proof Hc as ((Hrw & Hpl) & Hn & Ho).
  destruct (reader_parse_total new_tx (wd_reader (hc_world c)) (io_reads (hw_stream (hc_stream c)))
    (hc_read_buf c) (wd_pool (hc_world c)) Hrw Hpl) as ([[[[r rd] reads] buf] pool] & Hp & Hrw' & Hpl' & _).
  rewrite Hp. cbn [mbind run_bind]. apply reader_parse_left in Hp as [_ Hlt]; [|done..].
  set (c1 := set_hc_read_buf buf _). assert (conn_inv c1) as Hc1 by (by split_and!).
  destruct r as [req| |err]; [|done|by apply parse_failed_inv].
  apply run_post_bind. eapply run_post_mono.
  { apply dispatch_inv; [done|done|]. by split. }
  intros [k wd] Hwd. apply IH.
  - split_and!; [done|by apply numbered_push|]. intros Hord. by apply in_order_push, Ho.
  - simpl. specialize (Hlt req eq_refl). lia.
Qed.

Lemma conn_can_read_inv tasks c b c' : queue_inv tasks c -> conn_can_read c = (b, c') -> queue_inv tasks c' /\ hc_tasks c' = hc_tasks c.
Proof.
  intros ((Hrw & Hpl) & Hn & Ho). unfold conn_can_read, reader_need_read.
  destruct (rd_payload (wd_reader (hc_world c))) as [p|] eqn:Hp.
  - destruct (pw_need_read (pi_tx p)) as [st tx]. intros [= <- <-]. split; [|done]. split_and!; [|done..].
    split; [|done]. intros p' [= <-]. simpl. by apply Hrw.
  - intros [= <- <-]. split; [|done]. split_and!; [|done..]. by split.
Qed.

Lemma flush_and_fail_inv c :
  conn_inv c -> run_post task_panics (fun '(r, c') => conn_inv c' /\ r <> Ready false) (flush_and_fail c).
Proof.
  intros Hc. unfold flush_and_fail. destruct (poll_completed_ok true (hc_stream c)) as (r & w & -> & _).
  cbn [mbind run_bind]. simpl. split; [exact Hc|]. by destruct r.
Qed.

(** Replacing the entry at hand by one with the same number and end. *)
Lemma queue_replace done item item' todo c :
  e_id item' = e_id item -> e_eof item' = e_eof item ->
  queue_inv (done ++ item :: todo) c -> queue_inv (done ++ item' :: todo) c.
Proof.
  intros Hid He (Hw & Hn & Ho). split_and!; [done| |].
  - destruct Hn as [Hl Hm]. assert (length (done ++ item' :: todo) = length (done ++ item :: todo)) as Hlen
      by (by rewrite !length_app).
    split; rewrite Hlen; [done|]. rewrite <-Hm, !map_app. simpl. by rewrite Hid.
  - intros (d & o & Heq & Hd & Hop & Hs & Ht)%Ho.
    destruct (decide (length done < length d)%nat) as [Hlt|Hge].
    + assert (exists d1 d2, d = d1 ++ item :: d2 /\ d1 = done /\ todo = d2 ++ o) as (d1 & d2 & -> & -> & ->).
      { exists (take (length done) d), (drop (S (length done)) d).
        destruct (lookup_lt_is_Some_2 d (length done) Hlt) as [x Hx].
        pose proof (take_drop_middle d _ _ Hx) as Hmid. rewrite <-Hmid, <-app_assoc in Heq.
        apply app_inj_1 in Heq as [Hd1 Hd2]; [|rewrite length_take; lia]. simpl in Hd2. injection Hd2 as <- Htd.
        split_and!; done. }
      exists (done ++ item' :: d2), o. rewrite <-app_assoc. simpl. split_and!; try done.
      apply Forall_app in Hd as [? Hd]. inversion Hd; subst. apply Forall_app; split; [done|].
      constructor; [congruence|done].
    + assert (exists o1, done = d ++ o1 /\ o = o1 ++ item :: todo) as (o1 & -> & ->).
      { exists (drop (length d) done). rewrite <-(take_drop (length d) done), <-app_assoc in Heq.
        apply app_inj_1 in Heq as [Hd1 Hd2]; [|rewrite length_take; lia].
        rewrite <-Hd1 at 1. by rewrite take_drop. }
      exists d, (o1 ++ item' :: todo). rewrite <-app_assoc. split_and!; try done.
      * apply Forall_app in Hop as [? Hop]. inversion Hop; subst. apply Forall_app; split; [done|].
        constructor; [congruence|done].
      * rewrite length_app in *. exact Ht.
Qed.


Lemma sorted_snoc l x : Sorted le l -> Forall (fun t => t <= x)%nat l -> Sorted le (l ++ [x]).
Proof.
  intros Hs Hf. induction Hs as [|a l Hs IH Hr]; [by repeat constructor|]. inversion Hf; subst. simpl.
  constructor; [by apply IH|]. destruct Hr; simpl; by constructor.
Qed.

(** The writer is given to the first open task. *)
Lemma in_order_turn done item item' todo turns count :
  Forall (fun e => e_eof e = true) done -> e_eof item = false -> numbered (done ++ item :: todo) count ->
  in_order (done ++ item :: todo) turns count -> e_id item' = e_id item ->
  in_order (done ++ item' :: todo) (turns ++ [e_id item]) count.
Proof.
  intros Hdone Hitem Hnum Hord Hid.
  apply in_order_suffix in Hord as (d & o & Heq & Hd & Ho & Hs & Ht); [|done].
  destruct d as [|x d]; [|simpl in Heq; injection Heq as <- _; inversion Hd; congruence].
  simpl in Heq. subst o. pose proof (numbered_suffix _ _ _ Hnum) as [Hl Hm]. simpl in Hl, Hm, Ht.
  injection Hm as Hm _. inversion Ho as [|? ? _ Ho']; subst.
  assert (Sorted le (turns ++ [e_id item])) as Hs'.
  { apply sorted_snoc; [done|]. eapply Forall_impl; [done|]. intros t Hle. simpl in Hle. lia. }
  assert (Forall (fun t => t <= count - S (length todo))%nat (turns ++ [e_id item])) as Ht'.
  { apply Forall_app. split; [done|]. constructor; [lia|done]. }
  destruct (e_eof item') eqn:He.
  - exists (done ++ [item']), todo. rewrite <-app_assoc. split_and!; try done.
    + apply Forall_app. split; [done|by constructor].
    + eapply Forall_impl; [done|]. intros t Hle. simpl in Hle. lia.
  - exists done, (item' :: todo). split_and!; try done. by constructor.
Qed.

Lemma queue_turn done item item' todo c c' :
  e_eof item = false -> e_id item' = e_id item -> world_ok (hc_world c') -> hc_count c' = hc_count c ->
  hc_turns c' = hc_turns c ++ [e_id item] ->
  (orderly -> Forall (fun e => e_eof e = true) done) ->
  queue_inv (done ++ item :: todo) c -> queue_inv (done ++ item' :: todo) c'.
Proof.
  intros He Hid Hw' Hc Ht Hdone (Hw & Hn & Ho). refine (conj Hw' (conj _ _)); rewrite Hc.
  - destruct Hn as [Hl Hm]. assert (length (done ++ item' :: todo) = length (done ++ item :: todo)) as Hlen
      by (by rewrite !length_app).
    split; rewrite Hlen; [done|]. rewrite <-Hm, !map_app. simpl. by rewrite Hid.
  - intros Hord. rewrite Ht. apply (in_order_turn done item item' todo); auto.
Qed.

(** What is shown of the loop over the tasks, which started with [n] of them. *)
Definition tasks_post (n : nat) (r : (poll bool unit * Http1) + Http1) : Prop :=
  match r with
  | inl (r, c') => conn_inv c' /\ r <> Ready false
  | inr c' => conn_inv c' /\ length (hc_tasks c') = n
  end.

Lemma flush_post n c : conn_inv c -> run_post task_panics (tasks_post n) (inl <$> flush_and_fail c).
Proof. intros Hc. pose proof (flush_and_fail_inv c Hc) as Hp. by destruct (flush_and_fail c). Qed.

(** A task without the writer. *)
Lemma poll_item_inv done item todo c :
  tasks_return -> queue_inv (done ++ item :: todo) c ->
  run_post task_panics (fun '(r, wd, pipe) => forall item', e_id item' = e_id item -> e_eof item' = e_eof item ->
      queue_inv (done ++ item' :: todo) (set_hc_world wd c)) (tk_poll (hc_world c) (e_pipe item)).
Proof.
  intros Hret Hq. destruct (tk_poll (hc_world c) (e_pipe item)) as [[[r wd] k]| |] eqn:Hp; simpl.
  - intros item' Hid He. apply tk_poll_world in Hp; [|by destruct Hq].
    apply (queue_replace done item item' todo); [done|done|]. destruct Hq as (_ & ? & ?).
    by refine (conj Hp (conj _ _)).
  - right; left. by do 2 eexists.
  - by eapply (proj1 (proj2 Hret)).
Qed.

Lemma check_tasks_inv retry io done todo c :
  tasks_return -> queue_inv (done ++ todo) c ->
  (io = false -> orderly -> Forall (fun e => e_eof e = true) done) ->
  run_post task_panics (tasks_post (length (done ++ todo))) (check_tasks retry io done todo c).
Proof.
  intros Hret. revert io done c. induction todo as [|item todo IH]; intros io done c Hq Hdone; cbn [check_tasks].
  { rewrite app_nil_r in *. simpl. split; [exact Hq|done]. }
  assert (forall item' : Entry, length (done ++ item :: todo) = length ((done ++ [item']) ++ todo)) as Hlen.
  { intros item'. rewrite !length_app. simpl. lia. }
  assert (forall io' item' c', queue_inv (done ++ item' :: todo) c' ->
    (io' = false -> orderly -> e_eof item' = true /\ Forall (fun e => e_eof e = true) done) ->
    run_post task_panics (tasks_post (length (done ++ item :: todo))) (check_tasks retry io' (done ++ [item']) todo c'))
    as Hnext.
  { intros io' item' c' Hq' Hd'. rewrite (Hlen item'). apply IH; [by rewrite <-app_assoc|].
    intros Hio Hord. destruct (Hd' Hio Hord). apply Forall_app. by split; [|constructor]. }
  destruct (negb io && negb (e_eof item)) eqn:Hturn.
  - (* the turn of this task *)
    apply andb_true_iff in Hturn as [->%negb_true_iff Heof%negb_true_iff].
    destruct (e_error item); [apply flush_post; exact Hq|].
    apply run_post_bind. destruct (tk_poll_io (hc_stream c) (hc_world c) (e_pipe item)) as [[[[r w] wd] k]| |] eqn:Hp; simpl.
    2: by left; do 3 eexists. 2: by eapply (proj1 Hret).
    pose proof (tk_poll_io_world _ _ _ _ _ _ _ Hp (proj1 Hq)) as Hwd.
    assert (orderly -> Forall (fun e => e_eof e = true) done) as Hd by (intros; by apply Hdone).
    destruct r as [ready| |err].
    + apply Hnext; [by eapply (queue_turn done item _ todo c)|]. intros _ Hord. split; [|by apply Hd].
      destruct ready; [done|]. by apply Hord in Hp.
    + set (item' := mkEntry _ _ _ _ _). destruct (conn_can_read _) as [readable c1] eqn:Hcr.
      apply (conn_can_read_inv (done ++ item' :: todo)) in Hcr as [Hq1 Ht1];
        [|by eapply (queue_turn done item item' todo c)].
      destruct (readable && negb retry); simpl; [split; [exact Hq1|done]|]. by apply Hnext.
    + apply flush_post. by eapply (queue_turn done item _ todo c).
  - (* the writer is taken, or the response of this task is complete *)
    assert (io = false -> e_eof item = true) as Heof.
    { intros ->. simpl in Hturn. by apply negb_false_iff in Hturn. }
    destruct (e_finished item); cbn [negb]; [by apply Hnext; auto|].
    apply run_post_bind. eapply run_post_mono; [by apply poll_item_inv|]. intros [[r wd] k] Hq'.
    apply Hnext; [apply Hq'; by destruct r|]. intros Hio Hord. split; [|by apply Hdone].
    rewrite <-(Heof Hio). by destruct r.
Qed.


Lemma cleanup_spec tasks wd popped tasks' wd' :
  cleanup tasks wd = (popped, tasks', wd') -> world_ok wd ->
  world_ok wd' /\ exists gone, tasks = gone ++ tasks' /\ Forall (fun e => e_eof e = true) gone /\
    (popped = true -> gone <> []).
Proof.
  revert popped wd. induction tasks as [|item tasks IH]; intros popped wd; simpl.
  { intros [= <- <- <-] Hw. split; [done|]. by exists []. }
  destruct (e_eof item && e_finished item) eqn:He.
  - apply andb_true_iff in He as [He _].
    destruct (cleanup tasks (tk_drop (e_pipe item) wd)) as [[p t] w] eqn:Hc. intros [= <- <- <-] Hw.
    apply IH in Hc as (Hw' & gone & -> & Hg & _); [|by apply tk_drop_world].
    split; [done|]. exists (item :: gone). split_and!; [done|by constructor|done].
  - intros [= <- <- <-] Hw. split; [done|]. by exists [].
Qed.

Lemma check_stream_inv c :
  conn_inv c -> run_post task_panics (fun '(r, c') => conn_inv c' /\ (r = Ready false -> hc_tasks c' = []))
    (check_stream c).
Proof.
  intros Hc.
  assert (forall c, conn_inv c -> let '(r, c') := deal_keep_alive c in conn_inv c' /\ (r = Ready false -> hc_tasks c' = []))
    as Hdeal.
  { intros c1 Hc1. unfold deal_keep_alive. destruct (hc_tasks c1) eqn:Ht; [|by split].
    destruct (_ || _); [by split|]. destruct (hc_timer c1); [by split|]. destruct (_ <? _); by split. }
  unfold check_stream. destruct (hc_started c); [|exact (Hdeal c Hc)].
  destruct (poll_completed_ok false (hc_stream c)) as (r & w & -> & _). cbn [mbind run_bind].
  destruct r as [u| |e]; [exact (Hdeal (set_hc_stream w c) Hc)|by split..].
Qed.

Lemma poll_io_inv fuel c :
  tasks_return -> conn_inv c -> (length (hc_tasks c) < fuel)%nat ->
  run_post task_panics (fun '(r, c') => conn_inv c' /\ (r = Ready false -> hc_tasks c' = [])) (poll_io fuel c).
Proof.
  intros Hret. revert c. induction fuel as [|fuel IH]; intros c Hc Hf; [lia|]. cbn [poll_io].
  apply run_post_bind. apply (run_post_mono _ (fun '(need_read, c') => conn_inv c' /\
    (need_read = true -> hc_tasks c' = hc_tasks c))).
  { destruct (_ && _); [|by split]. apply run_post_bind.
    eapply run_post_mono; [apply read_requests_inv; [done|done|lia]|]. intros c' Hc'. by split. }
  intros [need_read c1] [Hc1 Hsame]. destruct (conn_can_read c1) as [retry c2] eqn:Hcr.
  apply (conn_can_read_inv (hc_tasks c1)) in Hcr as [Hc2 Ht2]; [|exact Hc1].
  apply run_post_bind. eapply run_post_mono.
  { apply check_tasks_inv; [done| |done]. rewrite Ht2. exact Hc2. }
  intros [[r c3]|c3]; simpl; [intros [Hc3 Hr]; by split|]. intros [Hc3 Hl3].
  destruct (cleanup (hc_tasks c3) (hc_world c3)) as [[popped tasks] wd] eqn:Hcl.
  apply cleanup_spec in Hcl as (Hwd & gone & Hg & Heof & Hpop); [|by destruct Hc3].
  assert (conn_inv (set_hc_tasks tasks (set_hc_world wd c3))) as Hc4.
  { destruct Hc3 as (_ & Hn & Ho). refine (conj Hwd (conj _ _)); simpl; rewrite Hg in *.
    - by eapply numbered_suffix.
    - intros Hord. eapply in_order_suffix; [done|]. by apply Ho. }
  destruct (need_read && popped) eqn:Hnp; [|by apply check_stream_inv].
  apply andb_true_iff in Hnp as [-> ->]. apply IH; [done|]. simpl.
  assert (length (hc_tasks c3) = length (hc_tasks c)) as Hlen by (rewrite Hl3, Ht2, Hsame; done).
  rewrite Hg, length_app in Hlen. destruct gone; [by destruct Hpop|]. simpl in Hlen. lia.
Qed.

Lemma poll_timer_inv c : conn_inv c -> conn_inv (poll_timer c).
Proof. intros Hc. unfold poll_timer. by destruct (hc_timer c) as [[]|]. Qed.

Lemma poll_shutdown_inv c : conn_inv c -> run_post task_panics (fun '(_, c') => conn_inv c') (poll_shutdown c).
Proof.
  intros Hc. unfold poll_shutdown. destruct (poll_completed_ok true (hc_stream c)) as (r & w & -> & _).
  cbn [mbind run_bind]. exact Hc.
Qed.

Lemma Http1_poll_inv fuel c r c' : tasks_return -> conn_inv c -> Http1_poll fuel c = Ret (r, c') -> conn_inv c'.
Proof.
  intros Hret Hc%poll_timer_inv. unfold Http1_poll. destruct (hc_shutdown (poll_timer c)).
  { intros Hp. pose proof (poll_shutdown_inv _ Hc) as Hq. by rewrite Hp in Hq. }
  revert Hc. generalize (poll_timer c) as c0. induction fuel as [|fuel IH]; intros c0 Hc Hp; [done|].
  cbn [conn_poll_loop] in Hp. pose proof (poll_io_inv (S (length (hc_tasks c0))) c0 Hret Hc ltac:(lia)) as Hio.
  unfold Http1_poll_io in Hp. destruct (poll_io _ c0) as [[r1 c1]| |]; [|done..]. destruct Hio as [Hc1 _].
  cbn [mbind run_bind] in Hp. destruct r1 as [[]| |e]; [by eapply IH| |by simplify_eq..].
  pose proof (poll_shutdown_inv (poll_timer (set_hc_shutdown true c1)) (poll_timer_inv (set_hc_shutdown true c1) Hc1)) as Hq.
  by rewrite Hp in Hq.
Qed.

Lemma conn_reachable_inv c : tasks_return -> conn_reachable c -> conn_inv c.
Proof.
  intros Hret. induction 1 as [stream out addr read_buf pool Hpool|c r c' _ IH Hp|fuel c r c' _ IH Hp].
  - apply pool_reachable_inv in Hpool as [Hpool _]. refine (conj (conj _ Hpool) (conj _ _)); [done|done|].
    intros _. exists [], []. by split_and!.
  - pose proof (poll_io_inv (S (length (hc_tasks c))) c Hret IH ltac:(lia)) as Hio.
    unfold Http1_poll_io in Hp. rewrite Hp in Hio. by destruct Hio.
  - by eapply Http1_poll_inv.
Qed.

(** C14. A connection never hangs and is never closed over an answer: polling the i/o of
    a connection returns, unless a task or a handler panics, whatever the socket
    delivers and however many requests it pipelines; and the connection asks to be
    closed only when no request is waiting for its response. *)
Theorem connection_safe (c : Http1) :
  tasks_return -> conn_reachable c ->
  run_post task_panics (fun '(r, c') => conn_reachable c' /\ (r = Ready false -> hc_tasks c' = []))
    (Http1_poll_io c).
Proof.
  intros Hret Hc. pose proof (conn_reachable_inv c Hret Hc) as Hinv.
  pose proof (poll_io_inv (S (length (hc_tasks c))) c Hret Hinv ltac:(lia)) as Hp.
  fold (Http1_poll_io c) in Hp. destruct (Http1_poll_io c) as [[r c']| |] eqn:He; [|done..].
  destruct Hp as [_ Hr]. split; [by eapply conn_poll_io|done].
Qed.

(** C3. Responses leave in the order of the requests: when a task is done with its
    response it is done altogether, the writer is given to the requests of a connection
    in order, never to one before all earlier ones have completed their responses, and
    never back to an earlier one. *)
Theorem responses_in_order (c : Http1) :
  tasks_return -> orderly -> conn_reachable c ->
  Sorted le (hc_turns c) /\
  exists d o, hc_tasks c = d ++ o /\ Forall (fun e => e_eof e = true) d /\
    Forall (fun e => e_eof e = false) o /\
    map e_id o = seq (hc_count c - length o) (length o) /\
    Forall (fun t => t <= hc_count c - length o)%nat (hc_turns c).
Proof.
  intros Hret Hord (_ & Hn & Ho)%conn_reachable_inv; [|done].
  destruct (Ho Hord) as (d & o & Heq & Hd & Hop & Hs & Ht). split; [done|]. exists d, o.
  rewrite Heq in Hn. apply numbered_suffix in Hn as [_ Hm]. by split_and!.
Qed.

End Connections.

(** ** Witnesses *)

(** Tasks that answer at once with given bytes. *)
Definition answer_task : HttpHandlerTask (H := list (bytes * bytes)) (W := list pw_event) (Z' := unit) bytes.
Proof.
  refine {| tk_poll_io := fun w wd k => Ret (Ready true, set_hw_buffer (hw_buffer w ++ k) w, wd, k);
            tk_poll := fun wd k => Ret (Ready tt, wd, k); tk_disconnected := fun k => k;
            tk_error := fun r => format_decimal (r_status r); tk_drop := fun _ wd => wd;
            req_drop := fun _ wd => wd |}; intros; by simplify_eq.
Defined.

(** Two [GET] requests on one connection. *)
Definition get_text (path : string) : bytes :=
  b#"GET " ++ bytes_of_string path ++ b#" HTTP/1.1" ++ [13; 10; 13; 10].
Definition get_head (path : string) : ParsedHead :=
  mkHead (lenZ (get_text path)) (b#"GET") (bytes_of_string path) 1 [].
Definition two_paths (buf : bytes) : result (option ParsedHead) HttparseError :=
  if starts_with (get_text "/a") buf then Ok (Some (get_head "/a"))
  else if starts_with (get_text "/b") buf then Ok (Some (get_head "/b")) else Ok None.
Definition two_path_parsers : HttpParsers.
Proof.
  refine {| httparse := two_paths; method_from_bytes := Some; uri_try_from := fun p => Ok p;
            header_name_from_bytes := fun n => Some (to_lowercase n) |}.
  intros buf h. unfold two_paths.
  destruct (starts_with (get_text "/a") buf) eqn:Ha; [|destruct (starts_with (get_text "/b") buf) eqn:Hb; [|done]].
  all: intros Hh; injection Hh as <-; cbn [head_len get_head].
  1: apply starts_with_app in Ha as [r ->]. 2: apply starts_with_app in Hb as [r ->].
  all: rewrite lenZ_app; pose proof (lenZ_nonneg r).
  1: assert (0 < lenZ (get_text "/a")) by (vm_compute; reflexivity); lia.
  assert (0 < lenZ (get_text "/b")) by (vm_compute; reflexivity); lia.
Defined.

Definition path_handler (m : HttpInnerMessage (list (bytes * bytes))) : run (result bytes (HttpInnerMessage (list (bytes * bytes)))) :=
  if decide (msg_uri m = b#"/a") then Ret (Ok (b#"first")) else Ret (Err m).

Definition two_requests : Http1 (K := bytes) :=
  Http1_new (Z' := unit) (W := list pw_event) (H := list (bytes * bytes))
    (mkIo [Ok (get_text "/a" ++ get_text "/b")] [Ok 5] [] [] false) [] None [] [].

Lemma answers_return : tasks_return (TK := answer_task) [path_handler].
Proof.
  split_and!; [done|done|]. intros h req Hh. apply list_elem_of_singleton in Hh as ->. unfold path_handler.
  by destruct (decide _).
Qed.

Lemma connection_safe_witness :
  exists c', Http1_poll_io (TK := answer_task) (HP := two_path_parsers) (fun _ => []) [path_handler] 75 true 3
      two_requests = Ret (NotReady, c') /\
    conn_reachable (TK := answer_task) (HP := two_path_parsers) (fun _ => []) [path_handler] 75 true 3 c' /\
    hw_out (hc_stream c') = b#"first404" /\ hc_turns c' = [0; 1]%nat.
Proof.
  pose proof (connection_safe (TK := answer_task) (HP := two_path_parsers) (fun _ => []) [path_handler] 75 true 3
    two_requests answers_return (conn_new _ _ _ _ _ _ _ _ _ _ pool_new)) as Hs.
  destruct (Http1_poll_io _ _ _ _ _ two_requests) as [[r c']| |] eqn:He.
  - destruct Hs as [Hr _]. vm_compute in He. injection He as <- <-. eexists. split; [reflexivity|].
    split; [exact Hr|]. split; reflexivity.
  - vm_compute in He. discriminate.
  - destruct Hs.
Defined.

Lemma responses_in_order_witness :
  exists c', Http1_poll_io (TK := answer_task) (HP := two_path_parsers) (fun _ => []) [path_handler] 75 true 3
      two_requests = Ret (NotReady, c') /\ Sorted le (hc_turns c') /\ hc_count c' = 2%nat.
Proof.
  destruct (Http1_poll_io (TK := answer_task) (HP := two_path_parsers) (fun _ => []) [path_handler] 75 true 3
    two_requests) as [[r c']| |] eqn:He; [|vm_compute in He; discriminate..].
  destruct (responses_in_order (TK := answer_task) (HP := two_path_parsers) (fun _ => []) [path_handler] 75 true 3 c')
    as [Hs _].
  - apply answers_return.
  - intros w wd k w' wd' k' Hk. discriminate.
  - eapply conn_poll_io; [apply conn_new, pool_new|exact He].
  - exists c'. vm_compute in He. injection He as <- <-. split; [reflexivity|]. split; [exact Hs|reflexivity].
Defined.
