(* ===== verification/H1Server.v ===== *)
(** * The HTTP/1 server core put together

    [H1Writer] is the [Writer] that pipelines write to (src/src/server/h1writer.rs,
    src/src/server/mod.rs) and [Pipeline] the task a connection runs for a request
    (src/src/pipeline.rs): the two interfaces are discharged here, and a whole
    connection with pipelines is executed. *)
From S2P Require Import Prelude StrLib Errors Http Response Payload Decoder Transfer H1Reader PayloadType.
From S2P Require Import SharedBytes ServerHelpers ContentEncoder Pipeline H1Writer Http1.
Open Scope Z_scope.

Section Server.
Context {H : Type} `{HM : HeaderMap H} {W : Type} `{PW : PayloadWriter W}
        {Z' : Type} `{CP : Compressor Z'} `{FF : F64FromStr} `{AL : Allocator}.
Context (canonical_reason : Z -> option bytes) (date uninit : bytes) (spare : bytes -> Z).
Notation Resp := (InnerHttpResponse H).
Notation Msg := (HttpInnerMessage H).

(** ** [start] keeps a streaming body, or leaves none *)
Lemma streaming_encoding_body version (msg : Resp) : r_body (streaming_encoding version msg).2 = r_body msg.
Proof. unfold streaming_encoding. repeat case_match; simplify_eq/=; done. Qed.

Lemma for_server_body (req : Msg) (msg : Resp) encoding e msg' :
  for_server req msg encoding = Ret (e : ContentEncoder Z', msg') ->
  r_body msg' = r_body msg \/ is_streaming (r_body msg') = false.
Proof.
  unfold for_server, resp_replace_body. intros Hf.
  destruct (if has_body encoding (r_body msg) then _ else _) as [enc m1] eqn:Hm1.
  assert (r_body m1 = Body_Empty) as Hb1.
  { destruct (has_body encoding (r_body msg)); [destruct (is_compression _)|]; by simplify_eq. }
  apply run_bind_Ret in Hf as ([[[k body] enc'] m2] & Hb & He).
  assert ((body = r_body msg \/ is_streaming body = false) /\ r_body m2 = Body_Empty) as [Hbody Hb2].
  { destruct (r_body msg) as [|b|st|a] eqn:Hmb.
    - simplify_eq. destruct (negb _); by auto.
    - apply run_bind_Ret in Hb as ([b' e'] & _ & Heq). simplify_eq. destruct (bool_decide _); by auto.
    - destruct (resp_upgrade m1).
      + repeat case_match; simplify_eq/=; by auto.
      + pose proof (streaming_encoding_body (default (msg_version req) (r_version msg)) m1) as Hse.
        destruct (streaming_encoding _ m1) as [k0 m0]. simplify_eq. simpl in Hse. rewrite Hse. by auto.
    - destruct (resp_upgrade m1).
      + repeat case_match; simplify_eq/=; by auto.
      + pose proof (streaming_encoding_body (default (msg_version req) (r_version msg)) m1) as Hse.
        destruct (streaming_encoding _ m1) as [k0 m0]. simplify_eq. simpl in Hse. rewrite Hse. by auto. }
  simpl in He. destruct (bool_decide (msg_method req = HEAD)); simplify_eq/=; [right; by rewrite Hb2|done].
Qed.

Lemma h1_start_body (req : Msg) (msg : Resp) encoding (w : H1Writer Z') r msg' w' :
  h1_start canonical_reason date uninit spare req msg encoding w = Ret (r, msg', w') ->
  r_body msg' = r_body msg \/ is_streaming (r_body msg') = false.
Proof.
  unfold h1_start. intros ([e m1] & Hfs & Hs)%run_bind_Ret. apply for_server_body in Hfs.
  destruct (set_connection_line (default (msg_version req) (r_version m1)) (resp_upgrade m1)
    (hw_keepalive w || default (msg_keep_alive req) (resp_keep_alive m1)) m1) as (_ & Hb & _).
  cbn -[render_head set_connection] in Hs. rewrite Hb in Hs.
  apply run_bind_Ret in Hs as (buf & _ & Hs). destruct (r_body m1) as [|b|st|a] eqn:Hb1.
  - simplify_eq. by right.
  - apply run_bind_Ret in Hs as ([[r0 e0] b0] & _ & Hs). simplify_eq. by right.
  - simplify_eq. exact Hfs.
  - simplify_eq. exact Hfs.
Qed.

(** ** The writer as a [Writer]

    A panic of the writer is kept in its state, and ends the task behind the call. *)
Definition lift_write {A} (w : run (H1Writer Z')) (default : A) (f : H1Writer Z' -> run (A * H1Writer Z'))
  : A * run (H1Writer Z') :=
  match w with
  | Ret w => match f w with
             | Ret (a, w) => (a, Ret w)
             | Panic => (default, Panic)
             | Timeout => (default, Timeout)
             end
  | Panic => (default, Panic)
  | Timeout => (default, Timeout)
  end.

#[export] Instance h1_writer : Writer (H := H) (Rq := Msg) (run (H1Writer Z')).
Proof.
  refine {|
    wr_written := fun w => match w with Ret w => hw_written w | _ => 0 end;
    wr_start := fun rq resp enc w =>
      let '((r, resp), w) := lift_write w (Ok WS_Done, resp) (fun w =>
        h1_start canonical_reason date uninit spare rq resp enc w) in
      (r, rq, resp, w);
    wr_write := fun b w => lift_write w (Ok WS_Done) (h1_write b);
    wr_write_eof := fun w => lift_write w (Ok WS_Done) (fun w => Ret (h1_write_eof w));
    wr_poll_completed := fun shutdown w => lift_write w (Ready tt) (h1_poll_completed shutdown) |}.
  intros rq resp enc w r rq' resp' w'. unfold lift_write. destruct w as [w| |]; intros Hs; simplify_eq; auto.
  destruct (h1_start _ _ _ _ rq resp enc w) as [[[r0 resp0] w0]| |] eqn:Hst; simplify_eq; auto.
  by eapply h1_start_body.
Defined.

(** ** Pipelines as tasks *)
Context (streams : nat -> BodyStream) (actors : nat -> ActorContext).

Definition Inner_handle : Type := Msg -> HandlerType -> ReplyItem (H := H).

(** A pipeline with the application's handler it runs; [pt_pooled] tells whether its
    request came from the pool. *)
Record PipeTask : Type := mkPipeTask {
  pt_pooled : bool;
  pt_handle : Inner_handle;
  pt_htype : HandlerType;
  pt_pipe : Pipeline (H := H) (Rq := Msg);
}.

(** [Pipeline::error] runs no handler. *)
Definition error_task (resp : Resp) : PipeTask :=
  mkPipeTask false (fun _ _ => Reply_Message (InnerHttpResponse_new 200 Body_Empty)) HT_Default
    (Pipeline_error HttpInnerMessage_default resp).

(** Dropping the last reference to a request returns its head to the pool. *)
Definition release_request (pooled : bool) (m : Msg) (wd : World (H := H) (W := W)) : World :=
  mkWorld (wd_reader wd) (shared_message_drop pooled 1 m (wd_pool wd)).

Lemma release_request_ok pooled m wd : world_ok wd -> world_ok (release_request pooled m wd).
Proof.
  intros [Hr Hp]. split; [done|]. unfold release_request, shared_message_drop, pool_release. simpl.
  destruct (pooled && _); [|done]. destruct (_ <? _)%nat; [|done]. by constructor.
Qed.

Definition pipeline_task : HttpHandlerTask (H := H) (W := W) (Z' := Z') PipeTask.
Proof.
  refine {|
    tk_poll_io := fun w wd k =>
      '(r, io, p) ← Pipeline_poll_io streams actors (pt_handle k) (pt_htype k) (Ret w) (pt_pipe k);
      w ← io; Ret (r, w, wd, mkPipeTask (pt_pooled k) (pt_handle k) (pt_htype k) p);
    tk_poll := fun wd k =>
      '(r, p) ← Pipeline_poll (pt_handle k) (pt_htype k) (pt_pipe k);
      Ret (r, wd, mkPipeTask (pt_pooled k) (pt_handle k) (pt_htype k) p);
    tk_disconnected := fun k => mkPipeTask (pt_pooled k) (pt_handle k) (pt_htype k) (Pipeline_disconnected (pt_pipe k));
    tk_error := error_task;
    tk_drop := fun k => release_request (pt_pooled k) (p_req (pipe_info (pt_pipe k)));
    req_drop := release_request true |}.
  - intros w wd k r w' wd' k' ([[r0 io] p] & _ & (w0 & _ & Hr)%run_bind_Ret)%run_bind_Ret. by simplify_eq.
  - intros wd k r wd' k' ([r0 p] & _ & Hr)%run_bind_Ret. by simplify_eq.
  - intros k wd. apply release_request_ok.
  - apply release_request_ok.
Defined.
End Server.

(** ** A connection with two requests

    The first response is complete at once, but a middleware finishes it with a future;
    the second is streamed in two chunks. *)
Notation hlist := (list (bytes * bytes)).
Notation gmsg := (HttpInnerMessage hlist).

Definition late_finish : Middleware (H := hlist) (Rq := gmsg) :=
  mkMw (fun rq => (Ok Started_Done, rq)) (fun rq r => (Ok (Resp_Done r), rq))
       (fun rq _ => (Finished_Future (mkFut (Some 1%nat) (Ok tt)), rq)).
Definition first_handle (_ : gmsg) (_ : HandlerType) : ReplyItem (H := hlist) :=
  Reply_Message (InnerHttpResponse_new 200 (Body_Binary (Bin_Slice (b#"first")))).
Definition second_handle (_ : gmsg) (_ : HandlerType) : ReplyItem (H := hlist) :=
  Reply_Message (InnerHttpResponse_new 200 (Body_Streaming 0)).
Definition chunk_streams (_ : nat) : BodyStream :=
  [Ready (Some (b#"one")); NotReady; Ready (Some (b#"two")); Ready None].

(** The application: [/a] goes through two middlewares, everything else through none. *)
Definition app_handler (late : bool) (m : gmsg) : run (result (PipeTask (H := hlist)) gmsg) :=
  if decide (msg_uri m = b#"/a") then
    p ← Pipeline_new first_handle HT_Default m
          (if late then [Middleware_default; late_finish] else []) Enc_Identity;
    Ret (Ok (mkPipeTask true first_handle HT_Default p))
  else
    p ← Pipeline_new second_handle HT_Default m [] Enc_Identity;
    Ret (Ok (mkPipeTask true second_handle HT_Default p)).

Definition app_tasks : HttpHandlerTask (H := hlist) (W := list pw_event) (Z' := unit) (PipeTask (H := hlist)) :=
  pipeline_task (CP := stored) (FF := integer_f64) (AL := exact_alloc)
    ok_reason a_date a_stack no_spare chunk_streams no_actors.

Definition app_connection : Http1 (W := list pw_event) (Z' := unit) (K := PipeTask (H := hlist)) :=
  Http1_new (Z' := unit) (W := list pw_event) (H := hlist)
    (mkIo [Ok (get_text "/a" ++ get_text "/b")] [Ok 100000; Ok 100000; Ok 100000] [] [] false) [] None [] [].

Fixpoint app_polls (late : bool) (n : nat) (c : Http1 (W := list pw_event) (Z' := unit) (K := PipeTask (H := hlist))) : run Http1 :=
  match n with
  | O => Ret c
  | S n =>
      '(_, c) ← Http1_poll_io (TK := app_tasks) (HP := two_path_parsers) (fun _ => []) [app_handler late] 75 true 9 c;
      app_polls late n c
  end.

(** What is sent in two polls of the connection, and the turns of its tasks. *)
Definition app_run (late : bool) : run (bytes * list nat) :=
  c ← app_polls late 2 app_connection; Ret (io_sent (hw_stream (hc_stream c)), hc_turns c).

(** A client that reads one response: its data, how the body ended, and what follows. *)
Definition client_reads (s : bytes) : option (bytes * outcome * bytes) :=
  '(_, hs, r) ← read_head s;
  k ← client_decoder hs;
  match drain (S (length r)) k r with
  | Ret (data, o, _, rest) => Some (data, o, rest)
  | _ => None
  end.

(** A task that is still finishing corrupts the response behind it: when the first
    response is written but a middleware finishes it with a future, the second request
    gets the writer, and once the future is done the writer is reset in the middle of
    the second response, whose next chunk is sent without its chunk header.  The same
    connection without the future is answered correctly. *)
Theorem finishing_task_breaks_next :
  (exists sent rest e rest', app_run true = Ret (sent, [0; 1; 0; 1]%nat) /\
     client_reads sent = Some (b#"first", Done, rest) /\ client_reads rest = Some (b#"one", Failed e, rest')) /\
  (exists sent rest, app_run false = Ret (sent, [0; 1; 1]%nat) /\
     client_reads sent = Some (b#"first", Done, rest) /\ client_reads rest = Some (b#"onetwo", Done, [])).
Proof.
  split.
  - let x := eval vm_compute in (app_run true) in
    match x with Ret (?s, _) =>
      let y := eval vm_compute in (client_reads s) in
      match y with Some (_, _, ?r) =>
        let z := eval vm_compute in (client_reads r) in
        match z with Some (_, Failed ?e, ?r') => exists s, r, e, r' end end end.
    split; [vm_compute; reflexivity|]. split; vm_compute; reflexivity.
  - let x := eval vm_compute in (app_run false) in
    match x with Ret (?s, _) =>
      let y := eval vm_compute in (client_reads s) in
      match y with Some (_, _, ?r) => exists s, r end end.
    split; [vm_compute; reflexivity|]. split; vm_compute; reflexivity.
Qed.
