(* ===== verification/ClientParser.v ===== *)
(** * Reading responses (src/src/client/parser.rs, [ClientMessage] of
      src/src/client/response.rs)

    The client's side of a connection: [HttpResponseParser] reads the head of a response
    and then, chunk by chunk, its body, with the decoders of the server.  The buffer is
    kept with its capacity, which the code looks at. *)
From S2P Require Import Prelude StrLib Errors Http Response Decoder H1Reader SharedBytes.
Open Scope Z_scope.

Definition CLIENT_MAX_BUFFER_SIZE : Z := 131072.
Definition LW_BUFFER_SIZE : Z := 4096.
Definition HW_BUFFER_SIZE : Z := 32768.
Definition SWITCHING_PROTOCOLS : Z := 101.

(** What [httparse::Response::parse] finds: the length of the head, the minor version,
    the code and the headers. *)
Record ResponseHead : Type := mkRH {
  rh_len : Z;
  rh_version : option Z;
  rh_code : option Z;
  rh_headers : list (bytes * bytes);
}.

(** [httparse] on responses and [StatusCode::from_u16].  A complete head has a code; a
    head is complete as soon as its last byte is there, and not before. *)
Class ResponseParsers := {
  httparse_response : bytes -> result (option ResponseHead) HttparseError;
  status_from_u16 : Z -> option Z;
  httparse_response_ok buf h :
    httparse_response buf = Ok (Some h) -> 0 < rh_len h <= lenZ buf /\ is_Some (rh_code h);
  httparse_response_prefix a b h :
    httparse_response (a ++ b) = Ok (Some h) ->
    httparse_response a = Ok (if lenZ a <? rh_len h then None else Some h);
}.

Inductive HttpResponseParserError : Type := HRE_Disconnect | HRE_Error (e : ParseError).

Section ClientReading.
Context {H : Type} `{HM : HeaderMap H} `{HC : HeaderConv} `{RP : ResponseParsers} `{AL : Allocator}.

Record ClientMessage : Type := mkCM {
  cm_status : Z;
  cm_version : Version;
  cm_headers : H;
}.
Definition ClientMessage_default : ClientMessage := mkCM 200 HTTP_11 hm_empty.

Record HttpResponseParser : Type := mkHRP { hrp_decoder : option Kind }.
Definition HttpResponseParser_default : HttpResponseParser := mkHRP None.

Definition bm_capacity (b : BytesMut) : Z := lenZ (bm_data b) + bm_spare b.

(** [read_from_io] on a buffer with its capacity: a read gets what fits. *)
Definition read_into (io : socket) (buf : BytesMut) : poll Z IoError * socket * BytesMut :=
  let buf := if bm_spare buf <? LW_BUFFER_SIZE then reserve HW_BUFFER_SIZE buf else buf in
  match io with
  | [] => (NotReady, [], buf)
  | Ok data :: io =>
      let n := Z.min (lenZ data) (bm_spare buf) in
      (Ready n, if n <? lenZ data then Ok (dropZ n data) :: io else io,
       mkBM (bm_data buf ++ takeZ n data) (bm_spare buf - n))
  | Err e :: io =>
      if decide (io_kind e = WouldBlock) then (NotReady, io, buf) else (PErr e, io, buf)
  end.

(** The loop [convert headers]; values are taken unchecked. *)
Fixpoint response_headers (hs : list (bytes * bytes)) (hdrs : H) : option H :=
  match hs with
  | [] => Some hdrs
  | (name, value) :: hs =>
      match hn_try_from name with
      | Some name => response_headers hs (hm_append name value hdrs)
      | None => None
      end
  end.

Definition response_decoder (status : Z) (hdrs : H) : result (option Kind) ParseError :=
  if decide (status = SWITCHING_PROTOCOLS) then Ok (Some Decoder_eof)
  else
    match hm_get CONTENT_LENGTH hdrs with
    | Some len =>
        (* Content-Length *)
        match hv_to_str len with
        | Some s => match parse_u64 s with
                    | Some len => Ok (Some (Decoder_length len))
                    | None => Err ParseE_Header
                    end
        | None => Err ParseE_Header
        end
    | None =>
        match chunked hdrs with
        | Err e => Err e
        | Ok true => Ok (Some Decoder_chunked)
        | Ok false => Ok None
        end
    end.

Definition response_message (buf : BytesMut)
  : run (poll (ClientMessage * option Kind) ParseError * BytesMut) :=
  match httparse_response (bm_data buf) with
  | Err e => Ret (PErr (ParseError_from_httparse e), buf)
  | Ok None => Ret (NotReady, buf)
  | Ok (Some h) =>
      let version := if default 1 (rh_version h) =? 1 then HTTP_11 else HTTP_10 in
      code ← unwrap (rh_code h);
      match status_from_u16 code with
      | None => Ret (PErr ParseE_Status, buf)
      | Some status =>
          '(_, buf) ← split_to (rh_len h) buf;
          match response_headers (rh_headers h) hm_empty with
          | None => Ret (PErr ParseE_Header, buf)
          | Some hdrs =>
              match response_decoder status hdrs with
              | Err e => Ret (PErr e, buf)
              | Ok decoder => Ret (Ready (mkCM status version hdrs, decoder), buf)
              end
          end
      end
  end.

Definition parse_out : Type :=
  poll ClientMessage HttpResponseParserError * HttpResponseParser * socket * BytesMut.

(** The loop of [parse]. *)
Fixpoint response_loop (fuel : nat) (self : HttpResponseParser) (io : socket) (buf : BytesMut)
  : run parse_out :=
  match fuel with
  | O => Timeout
  | S fuel =>
      '(r, buf) ← response_message buf;
      match r with
      | PErr e => Ret (PErr (HRE_Error e), self, io, buf)
      | Ready (msg, decoder) => Ret (Ready msg, mkHRP decoder, io, buf)
      | NotReady =>
          if CLIENT_MAX_BUFFER_SIZE <=? bm_capacity buf then
            Ret (PErr (HRE_Error ParseE_TooLarge), self, io, buf)
          else
            match read_into io buf with
            | (Ready 0, io, buf) => Ret (PErr HRE_Disconnect, self, io, buf)
            | (Ready _, io, buf) => response_loop fuel self io buf
            | (NotReady, io, buf) => Ret (NotReady, self, io, buf)
            | (PErr e, io, buf) => Ret (PErr (HRE_Error (ParseError_from_io e)), self, io, buf)
            end
      end
  end.

(** What is left to read: one for every answer and every byte. *)
Definition reads_left (io : socket) : nat :=
  sum_list_with (fun r => match r with Ok data => S (length data) | Err _ => 1%nat end) io.

Definition response_parse (self : HttpResponseParser) (io : socket) (buf : BytesMut) : run parse_out :=
  (* if buf is empty parse_message will always return NotReady, let's avoid that *)
  match bm_data buf with
  | [] =>
      match read_into io buf with
      | (Ready 0, io, buf) => Ret (PErr HRE_Disconnect, self, io, buf)
      | (Ready _, io, buf) => response_loop (S (reads_left io)) self io buf
      | (NotReady, io, buf) => Ret (NotReady, self, io, buf)
      | (PErr e, io, buf) => Ret (PErr (HRE_Error (ParseError_from_io e)), self, io, buf)
      end
  | _ => response_loop (S (reads_left io)) self io buf
  end.

(** The loop of [parse_payload], with the decoder. *)
Fixpoint payload_turns (fuel : nat) (k : Kind) (io : socket) (buf : BytesMut)
  : run (poll (option bytes) PayloadError * HttpResponseParser * socket * BytesMut) :=
  match fuel with
  | O => Timeout
  | S fuel =>
      (* read payload *)
      let '(r, io, buf) := read_into io buf in
      match r with
      | PErr err => Ret (PErr (PayloadError_from_io err), mkHRP (Some k), io, buf)
      | _ =>
          let '(not_ready, stream_finished) :=
            match r with Ready 0 => (false, true) | NotReady => (true, false) | _ => (false, false) end in
          '(d, k, rest) ← decode k (bm_data buf);
          let buf := mkBM rest (bm_spare buf) in
          match d with
          | Ready (Some b) => Ret (Ready (Some b), mkHRP (Some k), io, buf)
          | Ready None => Ret (Ready None, mkHRP None, io, buf)
          | NotReady =>
              if (not_ready : bool) then Ret (NotReady, mkHRP (Some k), io, buf)
              else if (stream_finished : bool) then Ret (PErr PE_Incomplete, mkHRP (Some k), io, buf)
              else payload_turns fuel k io buf
          | PErr err => Ret (PErr (PayloadError_from_io err), mkHRP (Some k), io, buf)
          end
      end
  end.

Definition parse_payload (self : HttpResponseParser) (io : socket) (buf : BytesMut)
  : run (poll (option bytes) PayloadError * HttpResponseParser * socket * BytesMut) :=
  match hrp_decoder self with
  | Some k => payload_turns (S (reads_left io)) k io buf
  | None => Ret (Ready None, self, io, buf)
  end.

(** ** Reading returns *)

(** The bytes that a socket still delivers. *)
Definition pending (io : socket) : bytes :=
  concat (omap (fun r => match r with Ok data => Some data | Err _ => None end) io).

(** The socket neither fails nor ends. *)
Definition alive (r : result bytes IoError) : Prop :=
  match r with Ok data => data <> [] | Err e => io_kind e = WouldBlock end.

Lemma reserved_spare buf :
  LW_BUFFER_SIZE <= bm_spare (if bm_spare buf <? LW_BUFFER_SIZE then reserve HW_BUFFER_SIZE buf else buf) /\
  bm_data (if bm_spare buf <? LW_BUFFER_SIZE then reserve HW_BUFFER_SIZE buf else buf) = bm_data buf.
Proof.
  destruct (Z.ltb_spec (bm_spare buf) LW_BUFFER_SIZE); [|done].
  destruct (reserve_ok HW_BUFFER_SIZE buf) as (Hd & Hs & _). split; [|done].
  unfold LW_BUFFER_SIZE, HW_BUFFER_SIZE in *. lia.
Qed.

(** A read moves bytes from the socket to the buffer; one that ends the stream, blocks
    or fails moves none. *)
Lemma read_into_spec io buf r io' buf' :
  read_into io buf = (r, io', buf') ->
  exists data, bm_data buf' = bm_data buf ++ data /\ pending io = data ++ pending io' /\
    (Forall alive io -> Forall alive io') /\
    match r with
    | Ready n => n = lenZ data /\ (reads_left io' < reads_left io)%nat /\
        (n = 0 -> exists io1, io = Ok [] :: io1)
    | NotReady => data = [] /\ (io = [] \/ exists e io1, io = Err e :: io1 /\ io_kind e = WouldBlock /\ io' = io1)
    | PErr e => data = [] /\ exists io1, io = Err e :: io1 /\ io_kind e <> WouldBlock
    end.
Proof.
  unfold read_into. destruct (reserved_spare buf) as [Hs Hd].
  set (b := if bm_spare buf <? LW_BUFFER_SIZE then reserve HW_BUFFER_SIZE buf else buf) in *. clearbody b. destruct io as [|[data|e] io]; intros Hr.
  - simplify_eq. exists []. rewrite app_nil_r. split_and!; auto.
  - injection Hr as <- <- <-. set (n := Z.min _ _).
    assert (0 <= n <= lenZ data) as Hn by (unfold n, LW_BUFFER_SIZE in *; pose proof (lenZ_nonneg data); lia).
    exists (takeZ n data). cbn [bm_data]. rewrite Hd. split; [done|].
    split. { destruct (Z.ltb_spec n (lenZ data)).
      - unfold pending. cbn [omap list_omap]. simpl. by rewrite app_assoc, takeZ_dropZ.
      - rewrite takeZ_all by lia. done. }
    split. { intros [Hal Hio]%Forall_cons. destruct (Z.ltb_spec n (lenZ data)); [|done].
      constructor; [|done]. intros Hnil%(f_equal lenZ). rewrite lenZ_dropZ, lenZ_nil in Hnil by lia. lia. }
    rewrite lenZ_takeZ by lia. split; [done|]. split.
    + destruct (Z.ltb_spec n (lenZ data)) as [Hlt|Hge]; unfold reads_left; cbn [sum_list_with]; [|lia].
      unfold dropZ, lenZ in *. rewrite length_drop. unfold n, LW_BUFFER_SIZE in *. lia.
    + intros H0. exists io. f_equal. f_equal. unfold n, LW_BUFFER_SIZE, lenZ in *. destruct data; [done|].
      simpl in *. lia.
  - destruct (decide (io_kind e = WouldBlock)); simplify_eq; exists []; rewrite app_nil_r;
      split_and!; eauto 10; by intros [_ ?]%Forall_cons.
Qed.

Lemma response_message_total buf :
  exists r buf', response_message buf = Ret (r, buf') /\
    match r with
    | NotReady => buf' = buf
    | Ready (_, Some k) => kind_wf k
    | _ => True
    end.
Proof.
  unfold response_message. destruct (httparse_response (bm_data buf)) as [[h|]|e] eqn:Hh; [|eexists _, _; by split..].
  destruct (httparse_response_ok _ _ Hh) as [Hlen [code ->]]. cbn [unwrap mbind run_bind].
  destruct (status_from_u16 code) as [status|]; [|eexists _, _; by split].
  unfold split_to. rewrite (proj2 (Z.leb_le _ _)) by lia. cbn [mbind run_bind].
  destruct (response_headers _ _) as [hdrs|]; [|eexists _, _; by split].
  destruct (response_decoder status hdrs) as [[k|]|e] eqn:Hd; [|eexists _, _; by split..].
  eexists _, _. split; [done|]. simpl. unfold response_decoder in Hd.
  repeat case_match; simplify_eq; try done.
  match goal with Hp : parse_u64 _ = Some _ |- _ => apply parse_u64_bounds in Hp end. simpl. lia.
Qed.

Definition parser_wf (self : HttpResponseParser) : Prop :=
  forall k, hrp_decoder self = Some k -> kind_wf k.

Lemma response_loop_total fuel self io buf :
  parser_wf self -> (reads_left io < fuel)%nat ->
  exists r self' io' buf', response_loop fuel self io buf = Ret (r, self', io', buf') /\ parser_wf self'.
Proof.
  intros Hwf. revert io buf. induction fuel as [|fuel IH]; intros io buf Hf; [lia|].
  cbn [response_loop]. destruct (response_message_total buf) as (r & buf1 & -> & Hr). cbn [mbind run_bind].
  destruct r as [[msg d]| |e]; [| |by eauto 10].
  { eexists _, _, _, _. split; [done|]. intros k Hk. simpl in Hk. by subst d. }
  destruct (_ <=? _); [by eauto 10|].
  destruct (read_into io buf1) as [[rd io1] buf2] eqn:Hrd.
  destruct (read_into_spec _ _ _ _ _ Hrd) as (data & _ & _ & _ & Hcase).
  destruct rd as [n| |e]; [|by eauto 10..]. destruct Hcase as (_ & Hlt & _).
  destruct n; [by eauto 10|apply IH; lia..].
Qed.

(** ** Heads *)

(** Calls of [parse] while it is not ready. *)
Fixpoint parse_polls (n : nat) (self : HttpResponseParser) (io : socket) (buf : BytesMut) : run parse_out :=
  match n with
  | O => Ret (NotReady, self, io, buf)
  | S n =>
      '(r, self, io, buf) ← response_parse self io buf;
      match r with NotReady => parse_polls n self io buf | _ => Ret (r, self, io, buf) end
  end.

(** The allocator gives at most 64 KiB for a reservation of 32 KiB. *)
Definition modest : Prop := forall b, alloc b HW_BUFFER_SIZE <= 65536.

Lemma read_into_spare io buf r io' buf' :
  modest -> bm_spare buf <= 65536 -> read_into io buf = (r, io', buf') -> bm_spare buf' <= 65536.
Proof.
  intros Hm Hs. unfold read_into.
  assert (bm_spare (if bm_spare buf <? LW_BUFFER_SIZE then reserve HW_BUFFER_SIZE buf else buf) <= 65536) as Hb.
  { destruct (_ <? _); [|done]. unfold reserve. destruct (_ <=? _); [done|]. apply Hm. }
  destruct (reserved_spare buf) as [Hl _].
  set (b := if bm_spare buf <? LW_BUFFER_SIZE then _ else _) in *. clearbody b.
  destruct io as [|[data|e] io]; intros Hr.
  - by simplify_eq.
  - injection Hr as <- <- <-. simpl. unfold LW_BUFFER_SIZE in *. pose proof (lenZ_nonneg data). lia.
  - destruct (decide _); by simplify_eq.
Qed.

Lemma read_into_length io buf r io' buf' :
  read_into io buf = (r, io', buf') -> (length io' <= length io)%nat.
Proof.
  unfold read_into. destruct io as [|[data|e] io]; intros Hr; [by simplify_eq|injection Hr as <- <- <-|].
  - destruct (_ <? _); simpl; lia.
  - destruct (decide _); simplify_eq; simpl; lia.
Qed.

(** A response whose head is in the buffer and on its way. *)
Section Heads.
Context (h : ResponseHead) (code status : Z) (hdrs : H) (d : option Kind) (whole : bytes).
Hypothesis Hmodest : modest.
Hypothesis Hhead : httparse_response whole = Ok (Some h).
Hypothesis Hlen : rh_len h <= 65536.
Hypothesis Hcode : rh_code h = Some code.
Hypothesis Hstatus : status_from_u16 code = Some status.
Hypothesis Hhdrs : response_headers (rh_headers h) hm_empty = Some hdrs.
Hypothesis Hdec : response_decoder status hdrs = Ok d.

Definition the_message : ClientMessage :=
  mkCM status (if default 1 (rh_version h) =? 1 then HTTP_11 else HTTP_10) hdrs.

Lemma response_message_arriving io buf :
  whole = bm_data buf ++ pending io ->
  if lenZ (bm_data buf) <? rh_len h then response_message buf = Ret (NotReady, buf)
  else exists buf', response_message buf = Ret (Ready (the_message, d), buf') /\
    bm_data buf' ++ pending io = dropZ (rh_len h) whole.
Proof.
  intros Hw. rewrite Hw in Hhead. pose proof (httparse_response_prefix _ _ _ Hhead) as Hp.
  unfold response_message. rewrite Hp. destruct (Z.ltb_spec (lenZ (bm_data buf)) (rh_len h)); [done|].
  rewrite Hcode. cbn [unwrap mbind run_bind]. rewrite Hstatus. unfold split_to.
  rewrite (proj2 (Z.leb_le _ _)) by lia. cbn [mbind run_bind]. rewrite Hhdrs, Hdec.
  eexists. split; [done|]. simpl. by rewrite Hw, dropZ_app_l by lia.
Qed.

(** A read while the head is incomplete. *)
Lemma read_arriving io buf rd io1 buf1 :
  whole = bm_data buf ++ pending io -> Forall alive io -> bm_spare buf <= 65536 ->
  lenZ (bm_data buf) < rh_len h -> read_into io buf = (rd, io1, buf1) ->
  whole = bm_data buf1 ++ pending io1 /\ Forall alive io1 /\ bm_spare buf1 <= 65536 /\
  match rd with
  | Ready n => n <> 0 /\ (reads_left io1 < reads_left io)%nat /\ (length io1 <= length io)%nat
  | NotReady => (length io1 < length io)%nat
  | PErr _ => False
  end.
Proof.
  intros Hw Hal Hs Hlt Hrd.
  destruct (read_into_spec _ _ _ _ _ Hrd) as (data & Hb1 & Hpend & Hal1 & Hcase).
  pose proof (read_into_length _ _ _ _ _ Hrd) as Hl1. pose proof (read_into_spare _ _ _ _ _ Hmodest Hs Hrd) as Hs1.
  split; [by rewrite Hw, Hb1, Hpend, <-app_assoc|]. split; [auto|]. split; [done|].
  destruct rd as [n| |e].
  - destruct Hcase as (_ & Hless & H0). split_and!; [|done..].
    intros ->. destruct (H0 eq_refl) as [io2 ->]. by apply Forall_cons in Hal as [? _].
  - destruct Hcase as [-> [->|(e & io2 & -> & _ & ->)]]; [|simpl; lia].
    destruct (httparse_response_ok _ _ Hhead) as [Hok _]. rewrite Hw in Hok.
    change (pending []) with (@nil Z) in Hok. rewrite app_nil_r in Hok. lia.
  - destruct Hcase as (_ & io2 & -> & Hk). by apply Forall_cons in Hal as [? _].
Qed.

(** One call of [parse] gives the message, or waits at a socket that would block. *)
Definition parse_step (io : socket) (out : parse_out) : Prop :=
  let '(r, self', io', buf') := out in
  Forall alive io' /\ (length io' <= length io)%nat /\
  ((r = Ready the_message /\ self' = mkHRP d /\ bm_data buf' ++ pending io' = dropZ (rh_len h) whole) \/
   (r = NotReady /\ whole = bm_data buf' ++ pending io' /\ bm_spare buf' <= 65536 /\
    (length io' < length io)%nat)).

Lemma response_loop_arriving fuel self io buf :
  whole = bm_data buf ++ pending io -> Forall alive io -> bm_spare buf <= 65536 ->
  (reads_left io < fuel)%nat ->
  exists out, response_loop fuel self io buf = Ret out /\ parse_step io out.
Proof.
  revert io buf. induction fuel as [|fuel IH]; intros io buf Hw Hal Hs Hf; [lia|]. cbn [response_loop].
  pose proof (response_message_arriving io buf Hw) as Hm.
  destruct (Z.ltb_spec (lenZ (bm_data buf)) (rh_len h)) as [Hlt|Hge].
  2: { destruct Hm as (buf' & -> & Hd). cbn [mbind run_bind]. eexists. split; [done|]. split_and!; auto. }
  rewrite Hm. cbn [mbind run_bind]. unfold bm_capacity, CLIENT_MAX_BUFFER_SIZE.
  rewrite (proj2 (Z.leb_gt _ _)) by lia.
  destruct (read_into io buf) as [[rd io1] buf1] eqn:Hrd.
  destruct (read_arriving io buf rd io1 buf1 Hw Hal Hs Hlt Hrd) as (Hw1 & Hal1 & Hs1 & Hcase).
  destruct rd as [n| |e]; [|eexists; split; [done|]; split_and!; [done|lia|by auto 10]|done].
  destruct Hcase as (Hn & Hless & Hl1).
  destruct (IH io1 buf1 Hw1 Hal1 Hs1 ltac:(lia)) as ([[[r self'] io'] buf'] & Hrun & Hal' & Hl' & Hr).
  exists (r, self', io', buf'). split; [by destruct n|]. split_and!; [done|lia|].
  destruct Hr as [Hr|(-> & ? & ? & ?)]; [by left|right]. split_and!; [done..|lia].
Qed.

Lemma response_parse_arriving self io buf :
  whole = bm_data buf ++ pending io -> Forall alive io -> bm_spare buf <= 65536 ->
  exists out, response_parse self io buf = Ret out /\ parse_step io out.
Proof.
  intros Hw Hal Hs. unfold response_parse. destruct (httparse_response_ok _ _ Hhead) as [Hok _].
  destruct (bm_data buf) as [|x l] eqn:Hd; [|apply response_loop_arriving; rewrite ?Hd; (done || lia)].
  destruct (read_into io buf) as [[rd io1] buf1] eqn:Hrd. rewrite <-Hd in Hw.
  destruct (read_arriving io buf rd io1 buf1 Hw Hal Hs ltac:(rewrite Hd, lenZ_nil; lia) Hrd)
    as (Hw1 & Hal1 & Hs1 & Hcase).
  destruct rd as [n| |e]; [|eexists; split; [done|]; split_and!; [done|lia|by auto 10]|done].
  destruct Hcase as (Hn & Hless & Hl1).
  destruct (response_loop_arriving (S (reads_left io1)) self io1 buf1 Hw1 Hal1 Hs1 ltac:(lia))
    as ([[[r self'] io'] buf'] & Hrun & Hal' & Hl' & Hr).
  exists (r, self', io', buf'). split; [by destruct n|]. split_and!; [done|lia|].
  destruct Hr as [Hr|(-> & ? & ? & ?)]; [by left|right]. split_and!; [done..|lia].
Qed.

(** Calls of [parse] until it has the message. *)
Lemma parse_polls_arriving n self io buf :
  whole = bm_data buf ++ pending io -> Forall alive io -> bm_spare buf <= 65536 -> (length io < n)%nat ->
  exists io' buf', parse_polls n self io buf = Ret (Ready the_message, mkHRP d, io', buf') /\
    Forall alive io' /\ (length io' <= length io)%nat /\ bm_data buf' ++ pending io' = dropZ (rh_len h) whole.
Proof.
  revert self io buf. induction n as [|n IH]; intros self io buf Hw Hal Hs Hn; [lia|]. cbn [parse_polls].
  destruct (response_parse_arriving self io buf Hw Hal Hs) as ([[[r self'] io'] buf'] & -> & Hal' & Hl0 & Hr).
  cbn [mbind run_bind]. destruct Hr as [(-> & -> & Hd)|(-> & Hw' & Hs' & Hl)]; [by eauto 10|].
  destruct (IH self' io' buf' Hw' Hal' Hs' ltac:(lia)) as (io2 & buf2 & -> & Hal2 & Hl2 & Hd2).
  exists io2, buf2. split_and!; [done|done|lia|done].
Qed.

End Heads.

(** ** Bodies *)

Lemma payload_turns_total fuel k io buf :
  kind_wf k -> (reads_left io < fuel)%nat ->
  exists r self' io' buf', payload_turns fuel k io buf = Ret (r, self', io', buf') /\ parser_wf self'.
Proof.
  revert k io buf. induction fuel as [|fuel IH]; intros k io buf Hwf Hf; [lia|].
  cbn [payload_turns]. destruct (read_into io buf) as [[rd io1] buf1] eqn:Hrd.
  destruct (read_into_spec _ _ _ _ _ Hrd) as (data & _ & _ & _ & Hcase).
  assert (forall k, kind_wf k -> parser_wf (mkHRP (Some k))) as Hp by (intros k0 ? ? [= <-]; done).
  destruct (decode_sound_ok k (bm_data buf1) Hwf) as ([[d k'] rest] & Hdec & Hs).
  assert (kind_wf k') as Hwf'.
  { destruct d as [[b|]| |e]; [by apply Hs|by eapply body_spec_wf..]. }
  assert (parser_wf (mkHRP None)) as Hn by done.
  destruct rd as [n| |e]; [| |by eauto 10]; rewrite Hdec.
  - destruct Hcase as (_ & Hlt & _). destruct n; cbn [mbind run_bind];
      destruct d as [[b|]| |e]; eauto 10; apply IH; (done || lia).
  - cbn [mbind run_bind]. destruct d as [[b|]| |e]; eauto 10.
Qed.

(** A body on its way: what is in the buffer and what the socket delivers hold the
    [data] still to come, and [rest] behind it. *)
Definition receiving (data rest : bytes) (self : HttpResponseParser) (io : socket) (buf : BytesMut) : Prop :=
  Forall alive io /\ exists k k', hrp_decoder self = Some k /\ kind_wf k /\
    body_spec k (bm_data buf ++ pending io) = (data, Done, k', rest).

Lemma eof_spec k body : Decoder_is_eof k = true -> body_spec k body = ([], Done, k, body).
Proof.
  destruct k as [n|[] size|[]]; try done; simpl.
  - destruct n; try done. intros _. rewrite (proj2 (Z.ltb_ge _ _)) by apply lenZ_nonneg.
    done.
  - by destruct body.
Qed.

Definition unread (io : socket) (buf : BytesMut) : nat := length (bm_data buf ++ pending io).

(** One turn over a live socket: it decodes what was read before and now, and comes again
    unless the read would block. *)
Lemma payload_turn fuel k io buf rd io1 buf1 d k1 rest1 :
  Forall alive io -> read_into io buf = (rd, io1, buf1) -> decode k (bm_data buf1) = Ret (d, k1, rest1) ->
  exists nr : bool, (nr = true -> rd = NotReady) /\ (nr = false -> (reads_left io1 < reads_left io)%nat) /\
    let buf2 := mkBM rest1 (bm_spare buf1) in
    payload_turns (S fuel) k io buf =
      match d with
      | Ready (Some b) => Ret (Ready (Some b), mkHRP (Some k1), io1, buf2)
      | Ready None => Ret (Ready None, mkHRP None, io1, buf2)
      | NotReady => if nr then Ret (NotReady, mkHRP (Some k1), io1, buf2) else payload_turns fuel k1 io1 buf2
      | PErr err => Ret (PErr (PayloadError_from_io err), mkHRP (Some k1), io1, buf2)
      end.
Proof.
  intros Hal Hrd Hdec. destruct (read_into_spec _ _ _ _ _ Hrd) as (d0 & _ & _ & _ & Hcase).
  cbn [payload_turns]. rewrite Hrd. destruct rd as [n| |e].
  - destruct Hcase as (_ & Hlt & H0). exists false. split_and!; [done|done|].
    destruct n; [|by rewrite Hdec..]. destruct (H0 eq_refl) as [io2 ->]. by apply Forall_cons in Hal as [? _].
  - exists true. by rewrite Hdec.
  - destruct Hcase as (_ & io2 & -> & Hk). by apply Forall_cons in Hal as [? _].
Qed.

(** Taking a chunk off a body that is on its way. *)
Lemma receiving_chunk k k1 k' body b rest1 data rest io spare :
  Forall alive io -> kind_wf k -> decode_sound k body (Ready (Some b), k1, rest1) ->
  body_spec k (body ++ pending io) = (data, Done, k', rest) ->
  exists data', data = b ++ data' /\ receiving data' rest (mkHRP (Some k1)) io (mkBM rest1 spare).
Proof.
  intros Hal Hwf (Hwf1 & _ & Hs) Hspec.
  destruct (Decoder_is_eof k1) eqn:He.
  - rewrite (body_spec_app _ _ _ _ _ _ _ Hwf Hs) in Hspec. simplify_eq. exists []. rewrite app_nil_r. split; [done|]. split; [done|].
    exists k', k'. split_and!; [done|done|]. by apply eof_spec.
  - destruct (body_spec k1 rest1) as [[[more o] k2] r2] eqn:Hs1.
    pose proof (body_spec_app _ _ (pending io) _ _ _ _ Hwf1 Hs1) as Happ.
    rewrite (body_spec_app _ _ _ _ _ _ _ Hwf Hs) in Hspec.
    destruct o as [| |e]; [destruct (body_spec k2 (pending io)) as [[[m2 o2] k3] r3]|..]; simplify_eq;
      (eexists; split; [by rewrite <-?app_assoc|]; split; [done|]; eexists _, _; split; [done|]; split; [done|]; exact Happ).
Qed.

Lemma payload_turns_step fuel k k' io buf data rest :
  kind_wf k -> Forall alive io -> (reads_left io < fuel)%nat ->
  body_spec k (bm_data buf ++ pending io) = (data, Done, k', rest) ->
  exists r self' io' buf', payload_turns fuel k io buf = Ret (r, self', io', buf') /\
    match r with
    | Ready (Some b) => exists data', data = b ++ data' /\ receiving data' rest self' io' buf' /\
        (unread io' buf' < unread io buf)%nat /\ (length io' <= length io)%nat
    | Ready None => data = [] /\ bm_data buf' ++ pending io' = rest
    | NotReady => receiving data rest self' io' buf' /\ (length io' < length io)%nat /\
        (unread io' buf' <= unread io buf)%nat
    | PErr _ => False
    end.
Proof.
  revert k io buf. induction fuel as [|fuel IH]; intros k io buf Hwf Hal Hf Hspec; [lia|].
  destruct (read_into io buf) as [[rd io1] buf1] eqn:Hrd.
  destruct (read_into_spec _ _ _ _ _ Hrd) as (d0 & Hb1 & Hpend & Hal1 & Hcase).
  specialize (Hal1 Hal). pose proof (read_into_length _ _ _ _ _ Hrd) as Hl1.
  assert (bm_data buf ++ pending io = bm_data buf1 ++ pending io1) as Htot
    by (by rewrite Hb1, Hpend, app_assoc).
  assert (unread io buf = unread io1 buf1) as Hun by (unfold unread; by rewrite Htot).
  rewrite Htot in Hspec.
  destruct (decode_sound_ok k (bm_data buf1) Hwf) as ([[d k1] rest1] & Hdec & Hs).
  destruct (payload_turn fuel k io buf _ _ _ _ _ _ Hal Hrd Hdec) as (nr & Hnr & Hlt & ->). set (buf2 := mkBM rest1 (bm_spare buf1)).
  destruct d as [[b|]| |e].
  - eexists _, _, _, _. split; [done|].
    destruct (receiving_chunk _ _ _ _ _ _ _ _ _ (bm_spare buf1) Hal1 Hwf Hs Hspec) as (data' & -> & Hrec).
    destruct Hs as (_ & Hlen & _). exists data'. split_and!; [done|done| |lia].
    rewrite Hun. unfold unread. simpl. rewrite !length_app. lia.
  - eexists _, _, _, _. split; [done|]. rewrite (body_spec_app _ _ _ _ _ _ _ Hwf Hs) in Hspec. by simplify_eq.
  - destruct (body_spec_more _ _ _ _ _ Hwf Hs) as (Hr1 & Hwf1 & Hmore).
    rewrite (body_spec_app _ _ _ _ _ _ _ Hwf Hs) in Hspec.
    assert (body_spec k1 (bm_data buf2 ++ pending io1) = (data, Done, k', rest)) as Hspec1.
    { simpl. rewrite Hr1. simpl. destruct (body_spec k1 (pending io1)) as [[[??]?]?]. exact Hspec. }
    destruct nr.
    + rewrite (Hnr eq_refl) in Hcase. destruct Hcase as [-> Hcase]. eexists _, _, _, _. split; [done|]. cbv beta iota.
      split; [split; [done|]; by exists k1, k'|].
      assert (unread io1 buf2 <= unread io1 buf1)%nat as Hle.
      { unfold unread. rewrite !length_app. simpl. rewrite Hr1. simpl. lia. }
      split; [|lia]. destruct Hcase as [->|(e & io2 & -> & _ & ->)]; [|simpl; lia].
      destruct (pending io1) as [|x l] eqn:Hp1; [|done].
      simpl in Hspec1. rewrite Hr1 in Hspec1. simpl in Hspec1. congruence.
    + destruct (IH k1 io1 buf2 Hwf1 Hal1 ltac:(specialize (Hlt eq_refl); lia) Hspec1)
        as (r & self' & io' & buf' & -> & Hr). eexists _, _, _, _. split; [done|].
      assert (unread io1 buf2 <= unread io1 buf1)%nat as Hle.
      { unfold unread. rewrite !length_app. simpl. rewrite Hr1. simpl. lia. }
      destruct r as [[b|]| |e]; [|done| |done].
      * destruct Hr as (data' & -> & Hrec & Hu & Hl2). exists data'. split_and!; [done|done|lia|lia].
      * destruct Hr as (Hrec & Hl2 & Hu). split_and!; [done|lia|lia].
  - rewrite (body_spec_app _ _ _ _ _ _ _ Hwf Hs) in Hspec. by simplify_eq.
Qed.

(** Polls for the body, until its end or an error. *)
Fixpoint payload_polls (n : nat) (self : HttpResponseParser) (io : socket) (buf : BytesMut)
  : run (list (poll (option bytes) PayloadError) * socket * BytesMut) :=
  match n with
  | O => Ret ([], io, buf)
  | S n =>
      '(r, self, io, buf) ← parse_payload self io buf;
      match r with
      | Ready None | PErr _ => Ret ([r], io, buf)
      | _ => '(rs, io, buf) ← payload_polls n self io buf; Ret (r :: rs, io, buf)
      end
  end.

Lemma payload_polls_spec n data rest self io buf :
  receiving data rest self io buf ->
  exists rs io' buf', payload_polls n self io buf = Ret (rs, io', buf') /\ (forall e, PErr e ∉ rs) /\
    concat (chunks rs) `prefix_of` data /\
    (Ready None ∈ rs -> concat (chunks rs) = data /\ bm_data buf' ++ pending io' = rest) /\
    ((unread io buf + length io < n)%nat -> Ready None ∈ rs).
Proof.
  revert data self io buf. induction n as [|n IH]; intros data self io buf Hrec; cbn [payload_polls].
  { eexists [], _, _. split_and!; [done|set_solver|apply prefix_nil|set_solver|lia]. }
  destruct Hrec as (Hal & k & k' & Hk & Hwf & Hspec). unfold parse_payload. rewrite Hk.
  destruct (payload_turns_step (S (reads_left io)) k k' io buf data rest Hwf Hal ltac:(lia) Hspec)
    as (r & self' & io' & buf' & -> & Hr). cbn [mbind run_bind].
  destruct r as [[b|]| |e]; [| | |done].
  - destruct Hr as (data' & -> & Hrec & Hlt & Hfl).
    destruct (IH _ _ _ _ Hrec) as (rs & io2 & buf2 & -> & He & Hp & Hend & Hlive). cbn [mbind run_bind].
    eexists _, _, _. split; [done|]. rewrite chunks_cons. split_and!; [set_solver|by apply prefix_app| |].
    + intros [Hf|Hin]%elem_of_cons; [done|]. destruct (Hend Hin) as [-> ?]. done.
    + intros Hn. right. apply Hlive. lia.
  - destruct Hr as [-> Hrest]. eexists _, _, _. split; [done|].
    split_and!; [set_solver|by exists []|done|intros; by left].
  - destruct Hr as (Hrec & Hl & Hu). destruct (IH _ _ _ _ Hrec) as (rs & io2 & buf2 & -> & He & Hp & Hend & Hlive).
    cbn [mbind run_bind]. eexists _, _, _. split; [done|]. split_and!; [set_solver|done| |].
    + intros [Hf|Hin]%elem_of_cons; [done|]. by apply Hend.
    + intros Hn. right. apply Hlive. lia.
Qed.

End ClientReading.
Arguments ClientMessage : clear implicits.
