(* ===== verification/ClientWriter.v ===== *)
(** * Writing requests (src/src/client/writer.rs, [ClientRequest] of
      src/src/client/request.rs)

    [HttpClientWriter] chooses the framing of a request, renders its head and encodes
    its body into a buffer that is flushed to the connection.  The target of a URI, the
    cached date and the spare capacity of the buffer are parameters. *)
From S2P Require Import Prelude StrLib Errors Http Response Decoder Transfer H1Reader PayloadType SharedBytes ContentEncoder Pipeline H1Writer.
Open Scope Z_scope.

(** [{:?}] of a [Version]. *)
Definition version_debug (v : Version) : bytes :=
  match v with
  | HTTP_09 => b#"HTTP/0.9"
  | HTTP_10 => b#"HTTP/1.0"
  | HTTP_11 => b#"HTTP/1.1"
  | HTTP_2 => b#"HTTP/2.0"
  end.

Section ClientWriting.
Context {H : Type} `{HM : HeaderMap H} {Z' : Type} `{CP : Compressor Z'} `{AL : Allocator}.
Context (path_and_query : bytes -> option bytes) (date : bytes) (spare : bytes -> Z).
Notation Encoder := (ContentEncoder Z').

(** ** Requests *)
Record ClientRequest : Type := mkCQ {
  cq_uri : bytes;
  cq_method : bytes;
  cq_version : Version;
  cq_headers : H;
  cq_body : Body;
  cq_chunked : bool;
  cq_upgrade : bool;
  cq_timeout : option Z;
  cq_encoding : ContentEncoding;
  cq_response_decompress : bool;
  cq_buffer_capacity : Z;
}.
Definition ClientRequest_default : ClientRequest :=
  mkCQ (b#"/") GET HTTP_11 hm_empty Body_Empty false false None Enc_Auto true 32768.

Definition set_cq_headers (h : H) (q : ClientRequest) : ClientRequest :=
  mkCQ (cq_uri q) (cq_method q) (cq_version q) h (cq_body q) (cq_chunked q) (cq_upgrade q) (cq_timeout q)
    (cq_encoding q) (cq_response_decompress q) (cq_buffer_capacity q).
Definition set_cq_body (b : Body) (q : ClientRequest) : ClientRequest :=
  mkCQ (cq_uri q) (cq_method q) (cq_version q) (cq_headers q) b (cq_chunked q) (cq_upgrade q) (cq_timeout q)
    (cq_encoding q) (cq_response_decompress q) (cq_buffer_capacity q).
Definition cq_replace_body (b : Body) (q : ClientRequest) : Body * ClientRequest := (cq_body q, set_cq_body b q).
Definition cq_insert (k v : bytes) (q : ClientRequest) : ClientRequest :=
  set_cq_headers (hm_insert k v (cq_headers q)) q.
Definition cq_remove (k : bytes) (q : ClientRequest) : ClientRequest :=
  set_cq_headers (hm_remove k (cq_headers q)) q.

(** ** The encoder of a request *)
Definition client_streaming_encoding (version : Version) (req : ClientRequest)
  : TransferEncodingKind * ClientRequest :=
  if cq_chunked req then
    (* Enable transfer encoding *)
    let req := cq_remove CONTENT_LENGTH req in
    if decide (version = HTTP_2) then (TE_Eof, cq_remove TRANSFER_ENCODING req)
    else (TE_Chunked false, cq_insert TRANSFER_ENCODING (b#"chunked") req)
  else
    (* if Content-Length is specified, then use it as length hint *)
    let '(len, chunked) :=
      match hm_get CONTENT_LENGTH (cq_headers req) with
      | Some len =>
          match hv_to_str len with
          | Some s => match parse_u64 s with
                      | Some len => (Some len, false)
                      | None => (None, false)
                      end
          | None => (None, false)
          end
      | None => (None, true)
      end in
    if negb chunked then
      match len with Some len => (TE_Length len, req) | None => (TE_Eof, req) end
    else
      (* Enable transfer encoding *)
      match version with
      | HTTP_11 => (TE_Chunked false, cq_insert TRANSFER_ENCODING (b#"chunked") req)
      | _ => (TE_Eof, cq_remove TRANSFER_ENCODING req)
      end.

Definition content_encoder (req : ClientRequest) : run (Encoder * ClientRequest) :=
  let version := cq_version req in
  let '(body, req) := cq_replace_body Body_Empty req in
  let encoding := cq_encoding req in
  '(transfer, body, encoding, req) ←
    match body with
    | Body_Empty => Ret (TE_Length 0, body, encoding, cq_remove CONTENT_LENGTH req)
    | Body_Binary bytes_ =>
        '(bytes_, encoding, req) ←
          (if is_compression encoding then
             bytes_ ← compress_binary encoding bytes_;
             Ret (bytes_, Enc_Identity, cq_insert CONTENT_ENCODING (encoding_as_str encoding) req)
           else Ret (bytes_, encoding, req));
        Ret (TE_Eof, Body_Binary bytes_, encoding,
             cq_insert CONTENT_LENGTH (format_decimal (Binary_len bytes_)) req)
    | Body_Streaming _ | Body_Actor _ =>
        if cq_upgrade req then
          let req := if decide (version = HTTP_2) then req
                     else cq_insert CONNECTION (b#"upgrade") req in
          if negb (bool_decide (encoding = Enc_Identity))
          then Ret (TE_Eof, body, Enc_Identity, cq_remove CONTENT_ENCODING req)
          else Ret (TE_Eof, body, encoding, req)
        else
          let '(transfer, req) := client_streaming_encoding version req in
          Ret (transfer, body, encoding, req)
    end;
  let req := if is_compression encoding
             then cq_insert CONTENT_ENCODING (encoding_as_str encoding) req else req in
  Ret (ce_new encoding transfer, (cq_replace_body body req).2).

(** ** The writer *)
Record HttpClientWriter : Type := mkCW {
  cw_started : bool;
  cw_upgrade : bool;
  cw_keepalive : bool;
  cw_disconnected : bool;
  cw_written : Z;
  cw_headers_size : Z;
  cw_buffer : bytes;
  cw_buffer_capacity : Z;
  cw_encoder : Encoder;
}.

Definition HttpClientWriter_new (buffer : bytes) : HttpClientWriter :=
  mkCW false false false false 0 0 buffer 0 (CE_Identity TE_Eof).

Definition set_cw_buffer v w := mkCW (cw_started w) (cw_upgrade w) (cw_keepalive w) (cw_disconnected w)
  (cw_written w) (cw_headers_size w) v (cw_buffer_capacity w) (cw_encoder w).
Definition set_cw_encoder v w := mkCW (cw_started w) (cw_upgrade w) (cw_keepalive w) (cw_disconnected w)
  (cw_written w) (cw_headers_size w) (cw_buffer w) (cw_buffer_capacity w) v.
Definition set_cw_written v w := mkCW (cw_started w) (cw_upgrade w) (cw_keepalive w) (cw_disconnected w)
  v (cw_headers_size w) (cw_buffer w) (cw_buffer_capacity w) (cw_encoder w).
Definition set_cw_capacity v w := mkCW (cw_started w) (cw_upgrade w) (cw_keepalive w) (cw_disconnected w)
  (cw_written w) (cw_headers_size w) (cw_buffer w) v (cw_encoder w).
Definition set_cw_headers_size v w := mkCW (cw_started w) (cw_upgrade w) (cw_keepalive w) (cw_disconnected w)
  (cw_written w) v (cw_buffer w) (cw_buffer_capacity w) (cw_encoder w).
Definition set_cw_started upgrade w := mkCW true (cw_upgrade w || upgrade) (cw_keepalive w) (cw_disconnected w)
  (cw_written w) (cw_headers_size w) (cw_buffer w) (cw_buffer_capacity w) (cw_encoder w).

(** [disconnected]. *)
Definition cw_gone (w : HttpClientWriter) : HttpClientWriter := set_cw_buffer [] w.

(** [write_to_stream]. *)
Fixpoint write_to_stream (fuel : nat) (w : HttpClientWriter) (stream : Io)
  : run (result WriterState IoError * HttpClientWriter * Io) :=
  match fuel with
  | O => Timeout
  | S fuel =>
      if bool_decide (cw_buffer w = []) then Ret (Ok WS_Done, w, stream)
      else
        match io_write (cw_buffer w) stream with
        | (Ok 0, stream) => Ret (Ok WS_Done, cw_gone w, stream)
        | (Ok n, stream) =>
            '(_, b) ← split_to n (mkBM (cw_buffer w) 0);
            write_to_stream fuel (set_cw_buffer (bm_data b) w) stream
        | (Err e, stream) =>
            if decide (io_kind e = WouldBlock) then
              Ret (Ok (if cw_buffer_capacity w <? lenZ (cw_buffer w) then WS_Pause else WS_Done), w, stream)
            else Ret (Err e, w, stream)
        end
  end.

(** The headers of [start]. *)
Fixpoint put_headers (hs : list (bytes * bytes)) (buffer : BytesMut) : run BytesMut :=
  match hs with
  | [] => Ret buffer
  | (k, v) :: hs =>
      let buffer := reserve (lenZ k + lenZ v + 4) buffer in
      buffer ← put_slice k buffer;
      buffer ← put_slice (b#": ") buffer;
      buffer ← put_slice v buffer;
      buffer ← put_slice CRLF buffer;
      put_headers hs buffer
  end.

(** The block [render message], up to the body. *)
Definition render_request (msg : ClientRequest) (buffer : BytesMut) : run BytesMut :=
  (* status line *)
  buffer ← extend_from_slice (cq_method msg ++ b#" " ++ default (b#"/") (path_and_query (cq_uri msg)) ++
             b#" " ++ version_debug (cq_version msg) ++ CRLF) buffer;
  (* write headers *)
  let headers := hm_iter (cq_headers msg) in
  let buffer := reserve (lenZ headers * AVERAGE_HEADER_SIZE +
                         match cq_body msg with Body_Binary b => Binary_len b | _ => 0 end) buffer in
  buffer ← put_headers headers buffer;
  (* set date header *)
  if negb (hm_contains DATE (cq_headers msg)) then
    buffer ← extend_from_slice (b#"date: ") buffer;
    buffer ← extend_from_slice date buffer;
    extend_from_slice (CRLF ++ CRLF) buffer
  else extend_from_slice CRLF buffer.

Definition client_start (msg : ClientRequest) (w : HttpClientWriter)
  : run (result unit IoError * ClientRequest * HttpClientWriter) :=
  (* prepare task *)
  '(enc, msg) ← content_encoder msg;
  let w := set_cw_encoder enc (set_cw_buffer (ce_drop (cw_encoder w) (cw_buffer w)) w) in
  let w := set_cw_started (cq_upgrade msg) w in
  (* render message *)
  buffer ← render_request msg (mkBM (cw_buffer w) (spare (cw_buffer w)));
  let w := set_cw_headers_size (lenZ (bm_data buffer) mod 2 ^ 32) (set_cw_buffer (bm_data buffer) w) in
  if is_binary (cq_body msg) then
    let '(body, msg) := cq_replace_body Body_Empty msg in
    match body with
    | Body_Binary bytes_ =>
        let w := set_cw_written (u64_wrap (cw_written w + Binary_len bytes_)) w in
        '(r, enc, buf) ← ce_write bytes_ (cw_encoder w) (cw_buffer w);
        Ret (r, msg, set_cw_encoder enc (set_cw_buffer buf w))
    | _ => Ret (Ok tt, msg, w)
    end
  else Ret (Ok tt, msg, set_cw_capacity (cq_buffer_capacity msg) w).

Definition cw_state (w : HttpClientWriter) : WriterState :=
  if cw_buffer_capacity w <? lenZ (cw_buffer w) then WS_Pause else WS_Done.

Definition client_write (payload : Binary) (w : HttpClientWriter)
  : run (result WriterState IoError * HttpClientWriter) :=
  let w := set_cw_written (u64_wrap (cw_written w + Binary_len payload)) w in
  if negb (cw_disconnected w) then
    if cw_upgrade w then
      let w := set_cw_buffer (cw_buffer w ++ Binary_as_ref payload) w in
      Ret (Ok (cw_state w), w)
    else
      '(r, enc, buf) ← ce_write payload (cw_encoder w) (cw_buffer w);
      let w := set_cw_encoder enc (set_cw_buffer buf w) in
      Ret (match r with Ok _ => Ok (cw_state w) | Err e => Err e end, w)
  else Ret (Ok (cw_state w), w).

Definition client_write_eof (w : HttpClientWriter) : result unit IoError * HttpClientWriter :=
  let '(r, enc, buf) := ce_write_eof (cw_encoder w) (cw_buffer w) in
  let w := set_cw_encoder enc (set_cw_buffer buf w) in
  match r with
  | Err e => (Err e, w)
  | Ok _ =>
      if ce_is_eof enc then (Ok tt, w)
      else (Err (mkIoError OtherKind "Last payload item, but eof is not reached"), w)
  end.

Definition client_poll_completed (shutdown : bool) (w : HttpClientWriter) (stream : Io)
  : run (poll unit IoError * HttpClientWriter * Io) :=
  '(r, w, stream) ← write_to_stream (S (length (cw_buffer w))) w stream;
  match r with
  | Ok WS_Done =>
      if shutdown then let '(r, stream) := io_shutdown stream in Ret (r, w, stream)
      else Ret (Ready tt, w, stream)
  | Ok WS_Pause => Ret (NotReady, w, stream)
  | Err e => Ret (PErr e, w, stream)
  end.

(** ** The rendered request *)
Definition request_line (q : ClientRequest) : bytes :=
  cq_method q ++ b#" " ++ default (b#"/") (path_and_query (cq_uri q)) ++ b#" " ++ version_debug (cq_version q).
Definition request_headers (q : ClientRequest) : list (bytes * bytes) :=
  hm_iter (cq_headers q) ++ (if hm_contains DATE (cq_headers q) then [] else [(DATE, date)]).
Definition request_text (q : ClientRequest) : bytes :=
  request_line q ++ CRLF ++ concat (map header_line (request_headers q)) ++ CRLF.

Lemma put_headers_ok hs buffer :
  bm_wf buffer ->
  exists b', put_headers hs buffer = Ret b' /\ appended buffer (concat (map header_line hs)) b'.
Proof.
  revert buffer. induction hs as [|[k v] hs IH]; intros buffer Hwf; cbn [put_headers map concat].
  { exists buffer. split; [done|]. split; [done|]. by rewrite app_nil_r. }
  destruct (reserve_ok (lenZ k + lenZ v + 4) buffer) as (Hd & Hs & _).
  set (b := reserve _ buffer) in *. lenZ_pose.
  rewrite put_slice_ok by lia. cbn [mbind run_bind].
  rewrite put_slice_ok by (cbn [bm_spare]; change (lenZ (b#": ")) with 2; lia). cbn [mbind run_bind].
  rewrite put_slice_ok by (cbn [bm_spare]; change (lenZ (b#": ")) with 2; lia). cbn [mbind run_bind].
  rewrite put_slice_ok by (cbn [bm_spare]; change (lenZ (b#": ")) with 2; change (lenZ CRLF) with 2; lia).
  cbn [mbind run_bind]. edestruct IH as (b' & -> & Hw' & Hd'); [|eexists; split; [done|]; split; [done|]].
  - unfold bm_wf. cbn [bm_spare]. change (lenZ (b#": ")) with 2. change (lenZ CRLF) with 2. lia.
  - rewrite Hd'. cbn [bm_data]. rewrite Hd. unfold header_line. cbn [fst snd]. by rewrite <-!app_assoc.
Qed.

Lemma render_request_ok q buffer :
  exists b', render_request q buffer = Ret b' /\ appended buffer (request_text q) b'.
Proof.
  unfold render_request. set (line := cq_method q ++ _).
  destruct (extend_from_slice_ok line buffer) as (b1 & -> & Ha1). cbn [mbind run_bind].
  set (need := _ + match cq_body q with Body_Binary b => Binary_len b | _ => 0 end).
  destruct (reserve_ok need b1) as (Hd2 & _ & Hw2).
  assert (0 <= need) as Hneed.
  { unfold need, AVERAGE_HEADER_SIZE. lenZ_pose.
    destruct (cq_body q) as [|b| |]; rewrite ?Binary_len_as_ref; lenZ_pose; lia. }
  destruct (put_headers_ok (hm_iter (cq_headers q)) (reserve need b1)) as (b3 & -> & Ha3).
  { apply Hw2; [apply Ha1|done]. }
  cbn [mbind run_bind].
  assert (appended buffer (line ++ concat (map header_line (hm_iter (cq_headers q)))) b3) as Ha.
  { eapply appended_trans; [exact Ha1|]. destruct Ha3 as [Hw3 Hd3]. split; [done|]. by rewrite Hd3, Hd2. }
  assert (forall t, line ++ concat (map header_line (hm_iter (cq_headers q))) ++ t =
    request_line q ++ CRLF ++ concat (map header_line (hm_iter (cq_headers q))) ++ t) as Hline.
  { intros t. unfold line, request_line. by rewrite <-!app_assoc. }
  unfold request_text, request_headers. rewrite map_app, concat_app, <-app_assoc.
  destruct (hm_contains DATE (cq_headers q)); cbn [negb].
  - destruct (extend_from_slice_ok CRLF b3) as (b4 & -> & Ha4). exists b4. split; [done|].
    pose proof (appended_trans _ _ _ _ _ Ha Ha4) as Hr. by rewrite <-app_assoc, Hline in Hr.
  - destruct (extend_from_slice_ok (b#"date: ") b3) as (b4 & -> & Ha4). cbn [mbind run_bind].
    destruct (extend_from_slice_ok date b4) as (b5 & -> & Ha5). cbn [mbind run_bind].
    destruct (extend_from_slice_ok (CRLF ++ CRLF) b5) as (b6 & -> & Ha6). exists b6. split; [done|].
    pose proof (appended_trans _ _ _ _ _ Ha (appended_trans _ _ _ _ _ Ha4 (appended_trans _ _ _ _ _ Ha5 Ha6))) as Hr.
    rewrite <-app_assoc, Hline in Hr. unfold header_line. simpl in *. by rewrite <-!app_assoc in *.
Qed.

(** A server that reads lines finds the request line, the headers, and what follows. *)
Lemma read_request_text q rest :
  no_newline (request_line q) -> no_newline date -> Forall header_ok (hm_iter (cq_headers q)) ->
  read_head (request_text q ++ rest) = Some (request_line q, request_headers q, rest).
Proof.
  intros Hl Hd Hh. unfold read_head, request_text. rewrite <-!app_assoc, read_line_app by done.
  cbn [mbind option_bind]. rewrite read_header_lines_app; [done| |].
  - unfold request_headers. apply Forall_app. split; [done|]. destruct (hm_contains _ _); [done|].
    apply Forall_singleton. split_and!; [done| |vm_compute; set_solver|done]. repeat constructor; discriminate.
  - rewrite !length_app. pose proof (concat_lines_length (request_headers q)). simpl. lia.
Qed.

(** ** The framing of a request *)

Definition same_request (q q' : ClientRequest) : Prop :=
  cq_uri q' = cq_uri q /\ cq_method q' = cq_method q /\ cq_version q' = cq_version q /\
  cq_upgrade q' = cq_upgrade q /\ cq_buffer_capacity q' = cq_buffer_capacity q /\
  cq_response_decompress q' = cq_response_decompress q.

(** A request that leaves its framing to the writer. *)
Definition request_streamable (q : ClientRequest) : Prop :=
  is_streaming (cq_body q) = true /\ cq_version q <> HTTP_2 /\ cq_upgrade q = false /\
  is_compression (cq_encoding q) = false /\ hm_get TRANSFER_ENCODING (cq_headers q) = None /\
  forall v, hm_get CONTENT_LENGTH (cq_headers q) = Some v -> hv_to_str v = Some v /\ is_Some (parse_u64 v).

Lemma client_streaming_announces q :
  request_streamable q ->
  exists k q', client_streaming_encoding (cq_version q) q = (k, q') /\ same_request q q' /\
    cq_body q' = cq_body q /\ announces (cq_headers q') k.
Proof.
  intros (_ & Hv & _ & _ & Hte & Hcl). unfold client_streaming_encoding. destruct (cq_chunked q).
  - rewrite decide_False by done. do 2 eexists. split; [done|]. split; [done|]. split; [done|]. simpl.
    rewrite !hm_get_insert, (decide_True (P := TRANSFER_ENCODING = _)), decide_False by done.
    by rewrite hm_get_remove, decide_True by done.
  - destruct (hm_get CONTENT_LENGTH (cq_headers q)) as [v|] eqn:Hlen.
    + destruct (Hcl v eq_refl) as [-> [n Hn]]. rewrite Hn. simpl. do 2 eexists. split; [done|].
      split; [done|]. split; [done|]. simpl. split_and!; [by eapply parse_u64_nonneg|done|]. eauto.
    + simpl. destruct (cq_version q); do 2 eexists; (split; [done|]); (split; [done|]); (split; [done|]); simpl.
      3: by rewrite !hm_get_insert, decide_True, decide_False by done.
      all: by rewrite !hm_get_remove, decide_True, decide_False by done.
Qed.

Lemma content_encoder_streaming q :
  request_streamable q ->
  exists k q', content_encoder q = Ret (CE_Identity (Z' := Z') k, q') /\ same_request q q' /\
    cq_body q' = cq_body q /\ announces (cq_headers q') k.
Proof.
  intros Hq. pose proof Hq as (Hb & Hv & Hup & Hc & _).
  assert (exists k q', client_streaming_encoding (cq_version q) (set_cq_body Body_Empty q) = (k, q') /\
    same_request q q' /\ announces (cq_headers q') k) as (k & q1 & Hse & Hsame & Hann).
  { destruct (client_streaming_announces q Hq) as (k & q1 & Hse & Hsame & _ & Hann).
    exists k, (set_cq_body Body_Empty q1). split; [|done].
    unfold client_streaming_encoding in *. simpl in *. destruct (cq_chunked q).
    - rewrite decide_False in * by done. by injection Hse as <- <-.
    - destruct (match hm_get CONTENT_LENGTH (cq_headers q) with Some _ => _ | None => _ end) as [len ch].
      destruct (negb ch); [destruct len; by simplify_eq|]. destruct (cq_version q); by simplify_eq. }
  exists k, (set_cq_body (cq_body q) q1). unfold content_encoder, cq_replace_body. cbv zeta.
  assert (ce_new (cq_encoding q) k = CE_Identity (Z' := Z') k) as Hnew by (by destruct (cq_encoding q)).
  destruct (cq_body q) as [| |st|a]; [done|done|..]; cbn [cq_upgrade set_cq_body]; rewrite Hup, Hse;
    cbn [mbind run_bind cq_encoding set_cq_body]; rewrite Hc, Hnew; (split; [done|]; by split).
Qed.

(** The body that is sent, compressed or not. *)
Lemma content_encoder_binary q b :
  cq_body q = Body_Binary b ->
  exists b' q', content_encoder q = Ret (CE_Identity (Z' := Z') TE_Eof, q') /\ same_request q q' /\
    cq_body q' = Body_Binary b' /\
    (b' = b \/ is_compression (cq_encoding q) = true /\ compress_binary (Z' := Z') (cq_encoding q) b = Ret b') /\
    hm_get CONTENT_LENGTH (cq_headers q') = Some (format_decimal (Binary_len b')) /\
    hm_get TRANSFER_ENCODING (cq_headers q') = hm_get TRANSFER_ENCODING (cq_headers q).
Proof.
  intros Hb. unfold content_encoder, cq_replace_body. rewrite Hb. cbv zeta. cbn [cq_encoding set_cq_body].
  destruct (is_compression (cq_encoding q)) eqn:Hc.
  - destruct (compress_binary_total (Z' := Z') (cq_encoding q) b) as [b' Hcb]. rewrite Hcb.
    cbn [mbind run_bind is_compression]. eexists b', _. split; [done|]. simpl.
    rewrite !hm_get_insert, decide_True, !decide_False by done. split_and!; [done|done|auto|done|done].
  - cbn [mbind run_bind]. rewrite Hc. eexists b, _.
    split; [by destruct (cq_encoding q)|]. simpl.
    rewrite !hm_get_insert, decide_True, !decide_False by done. split_and!; [done|done|auto|done|done].
Qed.

(** ** Flushing *)

(** The connection takes something with every write, or asks to wait. *)
Definition accepting (stream : Io) : Prop :=
  Forall (fun r => match r with Ok n => 0 < n | Err e => io_kind e = WouldBlock end) (io_writes stream).

Definition cw_out (w : HttpClientWriter) (stream : Io) : bytes := io_sent stream ++ cw_buffer w.

Definition same_client (w w' : HttpClientWriter) : Prop :=
  cw_started w' = cw_started w /\ cw_upgrade w' = cw_upgrade w /\ cw_disconnected w' = cw_disconnected w /\
  cw_encoder w' = cw_encoder w /\ cw_buffer_capacity w' = cw_buffer_capacity w /\ cw_written w' = cw_written w.

Lemma io_write_accepting data stream r stream' :
  data <> [] -> accepting stream -> io_write data stream = (r, stream') ->
  accepting stream' /\
  match r with
  | Ok n => 0 < n <= lenZ data /\ io_sent stream' = io_sent stream ++ takeZ n data
  | Err e => io_kind e = WouldBlock /\ io_sent stream' = io_sent stream
  end.
Proof.
  intros Hne Ha. unfold io_write, accepting in *.
  assert (0 < lenZ data) by (destruct data; [done|lenZ_lia]).
  destruct (io_writes stream) as [|[n|e] ws] eqn:Hw; intros Hr.
  - injection Hr as <- <-. by rewrite Hw.
  - apply Forall_cons in Ha as [Hn Ha]. injection Hr as <- <-. simpl. split; [done|]. split; [lia|done].
  - apply Forall_cons in Ha as [Hn Ha]. injection Hr as <- <-. by split.
Qed.

Lemma write_to_stream_ok fuel w stream :
  (length (cw_buffer w) < fuel)%nat -> accepting stream ->
  exists r w' stream', write_to_stream fuel w stream = Ret (Ok r, w', stream') /\
    same_client w w' /\ accepting stream' /\ cw_out w' stream' = cw_out w stream /\
    (r = WS_Done -> lenZ (cw_buffer w') <= Z.max 0 (cw_buffer_capacity w)).
Proof.
  revert w stream. induction fuel as [|fuel IH]; intros w stream Hf Ha; [lia|]. cbn [write_to_stream].
  case_bool_decide as Hb.
  { do 3 eexists. split; [done|]. split_and!; try done. rewrite Hb, lenZ_nil. lia. }
  destruct (io_write (cw_buffer w) stream) as [r stream1] eqn:Hw.
  destruct (io_write_accepting _ _ _ _ Hb Ha Hw) as [Ha1 Hr]. destruct r as [n|e].
  - destruct Hr as [Hn Hs]. destruct n as [|n|n]; [lia| |lia]. unfold split_to. cbn [bm_data].
    rewrite (proj2 (Z.leb_le _ _)) by lia. cbn [mbind run_bind bm_data].
    edestruct (IH (set_cw_buffer (dropZ (Zpos n) (cw_buffer w)) w) stream1) as (r & w' & stream' & -> & Hsame & Ha' & Ho & Hd);
      [|done|].
    + simpl. unfold dropZ, lenZ in *. rewrite length_drop. lia.
    + do 3 eexists. split; [done|]. split_and!; [exact Hsame|done| |exact Hd].
      rewrite Ho. unfold cw_out. simpl. by rewrite Hs, <-app_assoc, takeZ_dropZ.
  - destruct Hr as [Hk Hs]. rewrite decide_True by done. do 3 eexists. split; [done|].
    split_and!; try done; [unfold cw_out; by rewrite Hs|].
    destruct (Z.ltb_spec (cw_buffer_capacity w) (lenZ (cw_buffer w))); [done|]. lia.
Qed.

(** ** A streamed request as it is sent *)

Fixpoint client_run (ops : list writer_op) (w : HttpClientWriter) (stream : Io)
  : run (option (HttpClientWriter * Io)) :=
  match ops with
  | [] => Ret (Some (w, stream))
  | Op_write m :: ops =>
      '(r, w) ← client_write m w;
      match r with Ok _ => client_run ops w stream | Err _ => Ret None end
  | Op_flush :: ops =>
      '(r, w, stream) ← client_poll_completed false w stream;
      match r with PErr _ => Ret None | _ => client_run ops w stream end
  end.

Lemma client_poll_ok w stream :
  accepting stream ->
  exists r w' stream', client_poll_completed false w stream = Ret (r, w', stream') /\ (forall e, r <> PErr e) /\
    same_client w w' /\ accepting stream' /\ cw_out w' stream' = cw_out w stream.
Proof.
  intros Ha. unfold client_poll_completed.
  destruct (write_to_stream_ok (S (length (cw_buffer w))) w stream ltac:(lia) Ha)
    as (r & w' & stream' & -> & Hsame & Ha' & Ho & _). cbn [mbind run_bind].
  destruct r; do 3 eexists; (split; [done|]); split_and!; done.
Qed.

Lemma client_write_identity m w k :
  cw_upgrade w = false -> cw_disconnected w = false -> cw_encoder w = CE_Identity k ->
  let t := (te_encode (mkTE k []) m).2 in
  exists r w', client_write m w = Ret (Ok r, w') /\ cw_upgrade w' = false /\ cw_disconnected w' = false /\
    cw_encoder w' = CE_Identity (te_kind t) /\ cw_buffer w' = cw_buffer w ++ te_buffer t.
Proof.
  intros Hup Hdc Henc t. unfold client_write. simpl. rewrite Hdc, Hup. simpl. rewrite Henc. simpl.
  assert (exists b, te_encode (mkTE k []) m = (Ok b, t)) as [b Hb].
  { unfold t, te_encode. simpl. repeat case_match; by eexists. }
  pose proof (te_encode_prefix k (cw_buffer w) [] m) as Hpre. rewrite app_nil_r, Hb in Hpre. rewrite Hpre. simpl.
  by do 2 eexists.
Qed.

Lemma client_run_ok ops w stream k :
  cw_upgrade w = false -> cw_disconnected w = false -> cw_encoder w = CE_Identity k -> accepting stream ->
  exists w' stream', client_run ops w stream = Ret (Some (w', stream')) /\ accepting stream' /\
    let t := te_encode_all (mkTE k []) (op_data ops) in
    cw_encoder w' = CE_Identity (te_kind t) /\ cw_out w' stream' = cw_out w stream ++ te_buffer t.
Proof.
  revert w stream k. induction ops as [|[m|] ops IH]; intros w stream k Hup Hdc Henc Ha; cbn [client_run].
  - do 2 eexists. split; [done|]. split; [done|]. simpl. by rewrite app_nil_r.
  - destruct (client_write_identity m w k Hup Hdc Henc) as (r & w1 & -> & Hup1 & Hdc1 & He1 & Hb1). cbn [mbind run_bind].
    set (t1 := (te_encode (mkTE k []) m).2) in *.
    destruct (IH w1 stream (te_kind t1)) as (w' & stream' & Hrun & Ha' & He & Hout); [done..|].
    exists w', stream'. split; [exact Hrun|]. split; [done|].
    change (let t := te_encode_all t1 (op_data ops) in
      cw_encoder w' = CE_Identity (te_kind t) /\ cw_out w' stream' = cw_out w stream ++ te_buffer t).
    replace t1 with (mkTE (te_kind t1) (te_buffer t1 ++ [])) by (rewrite app_nil_r; by destruct t1).
    rewrite te_encode_all_prefix. cbn [te_kind te_buffer].
    split; [done|]. rewrite Hout. unfold cw_out. rewrite Hb1. by rewrite <-!app_assoc.
  - destruct (client_poll_ok w stream Ha) as (r & w1 & s1 & -> & Hr & (H1 & H2 & H3 & H4 & H5 & H6) & Ha1 & Ho).
    cbn [mbind run_bind].
    destruct (IH w1 s1 k) as (w' & stream' & Hrun & Ha' & He & Hout); [congruence..|done|].
    exists w', stream'. destruct r as [u| |e]; [| |by destruct (Hr e)]; rewrite Hrun, Hout, Ho; done.
Qed.

Lemma client_write_eof_identity w k :
  cw_encoder w = CE_Identity k ->
  let t := te_encode_eof (mkTE k []) in
  exists w', client_write_eof w = (if te_is_eof t then Ok tt else Err (mkIoError OtherKind "Last payload item, but eof is not reached"), w') /\
    cw_upgrade w' = cw_upgrade w /\ cw_disconnected w' = cw_disconnected w /\ cw_encoder w' = CE_Identity (te_kind t) /\
    cw_buffer w' = cw_buffer w ++ te_buffer t /\ cw_buffer_capacity w' = cw_buffer_capacity w.
Proof.
  intros Henc t. unfold client_write_eof. rewrite Henc. cbn [ce_write_eof].
  pose proof (te_encode_eof_prefix k (cw_buffer w) []) as Hpre. rewrite app_nil_r in Hpre. rewrite Hpre. fold t.
  cbn [ce_is_eof ce_kind te_kind te_buffer]. unfold ce_is_eof. cbn [ce_kind].
  change (te_is_eof (mkTE (te_kind t) [])) with (te_is_eof t). destruct (te_is_eof t); by eexists.
Qed.

Lemma client_write_eof_out w stream k :
  cw_encoder w = CE_Identity k ->
  cw_out (client_write_eof w).2 stream = cw_out w stream ++ te_buffer (te_encode_eof (mkTE k [])).
Proof.
  intros Henc. destruct (client_write_eof_identity w k Henc) as (w' & -> & _ & _ & _ & Hb & _). unfold cw_out. simpl.
  by rewrite Hb, app_assoc.
Qed.

(** A writer before its first request, or between two of them. *)
Definition client_idle (w : HttpClientWriter) : Prop :=
  cw_upgrade w = false /\ cw_disconnected w = false /\ exists k, cw_encoder w = CE_Identity k.

(** A request with a stream behind its head. *)
Lemma client_start_streaming q w stream :
  request_streamable q -> client_idle w ->
  exists q' w1 k, client_start q w = Ret (Ok tt, q', w1) /\ same_request q q' /\ cq_body q' = cq_body q /\
    announces (cq_headers q') k /\ cw_upgrade w1 = false /\ cw_disconnected w1 = false /\
    cw_encoder w1 = CE_Identity k /\ cw_out w1 stream = cw_out w stream ++ request_text q'.
Proof.
  intros Hq (Hup & Hdc & k0 & Henc0).
  destruct (content_encoder_streaming q Hq) as (k & q' & Hce & Hsame & Hb & Hann).
  destruct Hq as (Hstr & _ & Hupq & _). pose proof Hsame as (_ & _ & _ & Hup' & _).
  unfold client_start. rewrite Hce. cbn [mbind run_bind]. rewrite Henc0. cbn [ce_drop].
  set (w0 := set_cw_started (cq_upgrade q') _).
  destruct (render_request_ok q' (mkBM (cw_buffer w0) (spare (cw_buffer w0)))) as (b' & Hr & _ & Hd).
  cbn [bm_data] in Hd. rewrite Hr. cbn [mbind run_bind].
  assert (is_binary (cq_body q') = false) as -> by (rewrite Hb; by destruct (cq_body q)).
  do 3 eexists. split; [done|]. split_and!; try done.
  - simpl. by rewrite Hup, Hup', Hupq.
  - unfold cw_out. simpl. rewrite Hd. simpl. by rewrite app_assoc.
Qed.

Lemma streamed_request_sent q w stream ops :
  request_streamable q -> client_idle w -> accepting stream ->
  exists q' w1 w2 stream2 k,
    client_start q w = Ret (Ok tt, q', w1) /\ client_run ops w1 stream = Ret (Some (w2, stream2)) /\
    same_request q q' /\ announces (cq_headers q') k /\
    cw_out (client_write_eof w2).2 stream2 = cw_out w stream ++ request_text q' ++
      te_buffer (te_encode_eof (te_encode_all (mkTE k []) (op_data ops))).
Proof.
  intros Hq Hidle Ha.
  destruct (client_start_streaming q w stream Hq Hidle) as (q' & w1 & k & Hs & Hsame & _ & Hann & Hup & Hdc & He & Hout1).
  destruct (client_run_ok ops w1 stream k) as (w2 & stream2 & Hrun & Ha2 & He2 & Hout); [done..|].
  exists q', w1, w2, stream2, k. split_and!; [done..|].
  set (t := te_encode_all (mkTE k []) (op_data ops)) in *.
  rewrite (client_write_eof_out w2 stream2 (te_kind t) He2), Hout, Hout1, <-!app_assoc. do 2 f_equal.
  pose proof (te_encode_eof_prefix (te_kind t) (te_buffer t) []) as Hpre.
  rewrite app_nil_r in Hpre. destruct t as [kt bt]. simpl in Hpre |- *. by rewrite Hpre.
Qed.

End ClientWriting.
Arguments ClientRequest : clear implicits.
Arguments HttpClientWriter : clear implicits.
