(* ===== verification/ClientServer.v ===== *)
(** * A client and a server on one connection

    What [HttpResponseParser] reads of the responses that [H1Writer] sends, and what
    [Reader] reads of the requests that [HttpClientWriter] sends.  [httparse] and the
    [http] crate are parameters of both sides; of them the exchange needs that a
    well-formed head is read as the lines it is made of. *)
From S2P Require Import Prelude StrLib Errors Http Response Payload Decoder Transfer H1Reader PayloadType SharedBytes ServerHelpers ContentEncoder Pipeline H1Writer ClientParser ClientWriter.
Open Scope Z_scope.

(** ** Well-formed heads *)

(** Bytes of a header name as the [http] crate keeps it. *)
Definition token_byte (b : Z) : bool :=
  ((97 <=? b) && (b <=? 122)) || ((48 <=? b) && (b <=? 57)) || (b =? 45) || (b =? 95).
Definition printable (b : Z) : bool := (32 <=? b) && (b <=? 126).
Definition graphic (b : Z) : bool := (33 <=? b) && (b <=? 126).
Definition blank (b : Z) : bool := (b =? 32) || (b =? 9).
Definition trimmed (v : bytes) : bool :=
  negb (default false (blank <$> head v)) && negb (default false (blank <$> last v)).
Definition sendable (kv : bytes * bytes) : bool :=
  negb (bool_decide (kv.1 = [])) && forallb token_byte kv.1 && forallb value_byte kv.2 && trimmed kv.2.

Lemma forallb_no_newline (P : Z -> bool) s :
  P 13 = false -> P 10 = false -> forallb P s = true -> no_newline s.
Proof.
  intros H13 H10 Hs. apply Forall_forall. intros b Hb. rewrite forallb_forall in Hs.
  specialize (Hs b (proj1 (list_elem_of_In _ _) Hb)). split; congruence.
Qed.

Lemma sendable_ok kv : sendable kv = true -> header_ok kv.
Proof.
  unfold sendable. rewrite !andb_true_iff, negb_true_iff, bool_decide_eq_false.
  intros [[[Hne Hk] Hv] _]. split_and!; [done| | |].
  - by apply (forallb_no_newline token_byte).
  - intros Hin%list_elem_of_In. rewrite forallb_forall in Hk. by specialize (Hk _ Hin).
  - by apply (forallb_no_newline value_byte).
Qed.

Definition minor (v : Version) : Z := match v with HTTP_11 => 1 | _ => 0 end.
Definition http1 (v : Version) : Prop := v = HTTP_10 \/ v = HTTP_11.

Section Exchange.
Context {H : Type} `{HM : HeaderMap H} `{HC : HeaderConv} {Z' : Type} `{CP : Compressor Z'} `{FF : F64FromStr} `{AL : Allocator}.
Context {RP : ResponseParsers} {HP : HttpParsers}.

(** [httparse] on both sides, and the [http] crate on names and printable values. *)
Record http_crates : Prop := {
  crates_response s v status reason hs rest :
    http1 v -> 100 <= status < 600 -> forallb printable reason = true ->
    forallb sendable hs = true -> lenZ hs <= 96 ->
    read_head s = Some (status_line v status ++ reason, hs, rest) ->
    httparse_response s = Ok (Some (mkRH (lenZ s - lenZ rest) (Some (minor v)) (Some status) hs));
  crates_request s v method target hs rest :
    http1 v -> method <> [] -> forallb graphic method = true -> target <> [] -> forallb graphic target = true ->
    forallb sendable hs = true -> lenZ hs <= 96 ->
    read_head s = Some (method ++ b#" " ++ target ++ b#" " ++ version_debug v, hs, rest) ->
    httparse s = Ok (Some (mkHead (lenZ s - lenZ rest) method target (minor v) hs));
  crates_status status : 100 <= status < 600 -> status_from_u16 status = Some status;
  crates_name name : name <> [] -> forallb token_byte name = true ->
    hn_try_from name = Some name /\ header_name_from_bytes name = Some name;
  crates_value v : forallb printable v = true -> hv_to_str v = Some v;
}.

(** ** Responses *)

Lemma response_headers_lookup hs (m : H) :
  http_crates -> forallb sendable hs = true ->
  exists m', response_headers hs m = Some m' /\
    forall k, hm_get k m' = match hm_get k m with Some v => Some v | None => alist_lookup k hs end.
Proof.
  intros Hcr. revert m. induction hs as [|[k v] hs IH]; intros m Hs; simpl.
  { exists m. split; [done|]. intros k. by destruct (hm_get k m). }
  simpl in Hs. apply andb_true_iff in Hs as [Hkv Hs].
  unfold sendable in Hkv. rewrite !andb_true_iff, negb_true_iff, bool_decide_eq_false in Hkv.
  destruct Hkv as [[[Hne Hk] _] _]. destruct (crates_name Hcr k Hne Hk) as [-> _].
  destruct (IH (hm_append k v m) Hs) as (m' & -> & Hm'). exists m'. split; [done|].
  intros k'. rewrite Hm', hm_get_append. destruct (decide (k = k')) as [<-|]; [|done].
  by destruct (hm_get k m).
Qed.

Lemma parse_u64_printable v n : parse_u64 v = Some n -> forallb printable v = true.
Proof.
  assert (forall s acc, parse_digits acc s = Some n -> forallb printable s = true) as Hd.
  { intros s. induction s as [|b s IH]; intros acc; simpl; [done|]. unfold printable at 1.
    repeat case_match; try done; intros Hp%IH; rewrite Hp; lia. }
  unfold parse_u64. set (digits := match v with 43 :: s => s | _ => v end).
  assert (forallb printable digits = true -> forallb printable v = true) as Hv.
  { unfold digits. repeat case_match; subst; simpl; try done; auto. }
  intros Hp. apply Hv. destruct digits; [done|]. by eapply Hd.
Qed.

(** What the parser takes the framing to be. *)
Lemma response_decoder_announced status (m h : H) k :
  http_crates -> status <> SWITCHING_PROTOCOLS -> announces h k ->
  (forall key, key = TRANSFER_ENCODING \/ key = CONTENT_LENGTH -> hm_get key m = hm_get key h) ->
  response_decoder status m = Ok (match k with TE_Eof => None | _ => Some (kind_decoder k) end).
Proof.
  intros Hcr Hst Ha Hm. unfold response_decoder, chunked. rewrite decide_False by done.
  rewrite !Hm by auto. destruct k as [eof|n|]; simpl in Ha.
  - destruct Ha as (_ & -> & ->). by rewrite (crates_value Hcr) by done.
  - destruct Ha as (_ & _ & v & Hv & Hp). by rewrite Hv, (crates_value Hcr v), Hp by by eapply parse_u64_printable.
  - by destruct Ha as [-> ->].
Qed.

(** The chunks [msgs] in the framing [k]: the data that counts, and whether the framing
    tells where it ends. *)
Definition framed_data (k : TransferEncodingKind) (msgs : list Binary) : bytes :=
  match k with
  | TE_Chunked _ => chunked_data msgs
  | TE_Length n => takeZ n (concat (map Binary_as_ref msgs))
  | TE_Eof => concat (map Binary_as_ref msgs)
  end.
Definition framed (k : TransferEncodingKind) (msgs : list Binary) : Prop :=
  match k with
  | TE_Chunked _ => True
  | TE_Length n => n <= lenZ (concat (map Binary_as_ref msgs))
  | TE_Eof => False
  end.
Definition encoded (k : TransferEncodingKind) (msgs : list Binary) : bytes :=
  te_buffer (te_encode_eof (te_encode_all (mkTE k []) msgs)).

Lemma body_spec_encoded (h : H) k msgs :
  announces h k -> framed k msgs -> Forall (fun m => Binary_len m < 2 ^ 64) msgs ->
  kind_wf (kind_decoder k) /\
  exists k', forall rest, body_spec (kind_decoder k) (encoded k msgs ++ rest) = (framed_data k msgs, Done, k', rest).
Proof.
  intros Ha Hf Hm. unfold encoded. destruct k as [eof|n|]; simpl in Ha, Hf; [| |done].
  - destruct Ha as [-> _]. split; [by split|]. destruct (chunked_encode_spec [] msgs Hm) as (enc & Henc & Hdec).
    unfold TransferEncoding_chunked in Henc. rewrite Henc. by eexists.
  - destruct Ha as [Hn _]. split; [done|]. fold (TransferEncoding_length n []). rewrite te_encode_all_length by done.
    eexists. intros rest. cbn [te_buffer te_encode_eof te_kind app TransferEncoding_length kind_decoder Decoder_length].
    set (data := concat _) in *. assert (lenZ (takeZ n data) = n) as Hl by (apply lenZ_takeZ; lia).
    unfold Decoder_length, body_spec. cbv beta iota. rewrite lenZ_app, Hl. pose proof (lenZ_nonneg rest). rewrite (proj2 (Z.ltb_ge _ _)) by lia.
    rewrite takeZ_app_l, dropZ_app_l by lia. by rewrite takeZ_all, dropZ_all by lia.
Qed.

(** A client, on a connection that delivers its bytes in any pieces and with any delays,
    gets the status, the headers and, poll by poll, the data, and leaves the [rest]. *)
Definition receives (io : socket) (status : Z) (version : Version) (hs : list (bytes * bytes))
    (data rest : bytes) : Prop :=
  exists cm p io' buf',
    parse_polls (S (length io)) HttpResponseParser_default io (mkBM [] 0) = Ret (Ready cm, p, io', buf') /\
    cm_status cm = status /\ cm_version cm = version /\
    (forall key, hm_get key (cm_headers cm) = alist_lookup key hs) /\
    forall n, exists rs io2 buf2, payload_polls n p io' buf' = Ret (rs, io2, buf2) /\
      (forall e, PErr e ∉ rs) /\ concat (chunks rs) `prefix_of` data /\
      (Ready None ∈ rs -> concat (chunks rs) = data /\ bm_data buf2 ++ pending io2 = rest) /\
      ((length (pending io) + length io < n)%nat -> Ready None ∈ rs).

(** The head of a response, whatever its framing. *)
Lemma head_received io v status reason hs (h : H) k hd body :
  http_crates -> modest -> http1 v -> 100 <= status < 600 -> status <> SWITCHING_PROTOCOLS ->
  forallb printable reason = true -> forallb sendable hs = true -> lenZ hs <= 96 -> 0 < lenZ hd <= 65536 ->
  (forall s, read_head (hd ++ s) = Some (status_line v status ++ reason, hs, s)) -> announces h k ->
  (forall key, key = TRANSFER_ENCODING \/ key = CONTENT_LENGTH -> alist_lookup key hs = hm_get key h) ->
  Forall alive io -> pending io = hd ++ body ->
  exists cm io' buf',
    parse_polls (S (length io)) HttpResponseParser_default io (mkBM [] 0) =
      Ret (Ready cm, mkHRP (match k with TE_Eof => None | _ => Some (kind_decoder k) end), io', buf') /\
    cm_status cm = status /\ cm_version cm = v /\
    (forall key, hm_get key (cm_headers cm) = alist_lookup key hs) /\
    Forall alive io' /\ (length io' <= length io)%nat /\ bm_data buf' ++ pending io' = body.
Proof.
  intros Hcr Hmod Hv Hst H101 Hre Hs Hn Hhd Hread Ha Hkeys Hal Hpend.
  destruct (response_headers_lookup hs hm_empty Hcr Hs) as (m & Hm1 & Hlook).
  assert (forall key, hm_get key m = alist_lookup key hs) as Hget.
  { intros key. by rewrite Hlook, hm_get_empty. }
  assert (response_decoder status m = Ok (match k with TE_Eof => None | _ => Some (kind_decoder k) end)) as Hdec.
  { apply (response_decoder_announced status m h k); try done. intros; rewrite Hget; auto. }
  pose proof (crates_response Hcr _ v status reason hs _ Hv Hst Hre Hs Hn (Hread body)) as Hp.
  rewrite (lenZ_app hd), Z.add_simpl_r in Hp. set (rh := mkRH _ _ _ _) in Hp.
  destruct (parse_polls_arriving rh status status m _ (hd ++ body)
    Hmod Hp ltac:(simpl; lia) eq_refl (crates_status Hcr _ Hst) Hm1 Hdec (S (length io)) HttpResponseParser_default
    io (mkBM [] 0)) as (io' & buf' & Hrun & Hal' & Hl' & Hd); [done|done|simpl; lia|lia|].
  cbn [rh rh_len] in Hd. rewrite dropZ_app_l, dropZ_all in Hd by lia. cbn [app] in Hd.
  eexists _, io', buf'. split; [exact Hrun|]. split_and!; try done. by destruct Hv as [-> | ->].
Qed.

Lemma receives_ok io v status reason hs (h : H) k msgs hd rest :
  http_crates -> modest -> http1 v -> 100 <= status < 600 -> status <> SWITCHING_PROTOCOLS ->
  forallb printable reason = true -> forallb sendable hs = true -> lenZ hs <= 96 -> 0 < lenZ hd <= 65536 ->
  (forall s, read_head (hd ++ s) = Some (status_line v status ++ reason, hs, s)) ->
  announces h k -> framed k msgs -> Forall (fun m => Binary_len m < 2 ^ 64) msgs ->
  (forall key, key = TRANSFER_ENCODING \/ key = CONTENT_LENGTH -> alist_lookup key hs = hm_get key h) ->
  Forall alive io -> pending io = hd ++ encoded k msgs ++ rest ->
  receives io status v hs (framed_data k msgs) rest.
Proof.
  intros Hcr Hmod Hv Hst H101 Hre Hs Hn Hhd Hread Ha Hf Hm Hkeys Hal Hpend.
  destruct (body_spec_encoded h k msgs Ha Hf Hm) as [Hwf [k' Hspec]].
  destruct (head_received io v status reason hs h k hd (encoded k msgs ++ rest))
    as (cm & io' & buf' & Hrun & Hcs & Hcv & Hch & Hal' & Hl' & Hd); try done.
  assert (match k with TE_Eof => None | _ => Some (kind_decoder k) end = Some (kind_decoder k)) as Hk by (by destruct k).
  rewrite Hk in Hrun. eexists cm, _, io', buf'. split; [exact Hrun|]. split_and!; [done..|].
  intros n. destruct (payload_polls_spec n (framed_data k msgs) rest (mkHRP (Some (kind_decoder k))) io' buf')
    as (rs & io2 & buf2 & Hpoll & Herr & Hpre & Hend & Hlive).
  { split; [done|]. exists (kind_decoder k), k'. rewrite Hd. auto. }
  exists rs, io2, buf2. split_and!; [done..|]. intros Hlt. apply Hlive. unfold unread. rewrite Hd.
  rewrite Hpend, (length_app hd) in Hlt. lia.
Qed.

(** A response whose end is the end of the connection loses its body: its parser keeps
    no decoder, and the first poll for the body answers that there is none, with all of
    the body still in the buffer and on its way. *)
Theorem close_delimited_body_lost io v status reason hs (h : H) hd body :
  http_crates -> modest -> http1 v -> 100 <= status < 600 -> status <> SWITCHING_PROTOCOLS ->
  forallb printable reason = true -> forallb sendable hs = true -> lenZ hs <= 96 -> 0 < lenZ hd <= 65536 ->
  (forall s, read_head (hd ++ s) = Some (status_line v status ++ reason, hs, s)) -> announces h TE_Eof ->
  (forall key, key = TRANSFER_ENCODING \/ key = CONTENT_LENGTH -> alist_lookup key hs = hm_get key h) ->
  Forall alive io -> pending io = hd ++ body ->
  exists cm p io' buf',
    parse_polls (S (length io)) HttpResponseParser_default io (mkBM [] 0) = Ret (Ready cm, p, io', buf') /\
    parse_payload p io' buf' = Ret (Ready None, p, io', buf') /\ bm_data buf' ++ pending io' = body.
Proof.
  intros Hcr Hmod Hv Hst H101 Hre Hs Hn Hhd Hread Ha Hkeys Hal Hpend.
  destruct (head_received io v status reason hs h TE_Eof hd body)
    as (cm & io' & buf' & Hrun & _ & _ & _ & _ & _ & Hd); try done.
  eexists cm, _, io', buf'. split_and!; [exact Hrun|done|done].
Qed.

Section Responding.
Context (canonical_reason : Z -> option bytes) (date uninit : bytes) (spare : bytes -> Z).
Notation Msg := (HttpInnerMessage H).
Notation Resp := (InnerHttpResponse H).
Notation start := (h1_start canonical_reason date uninit spare).

Lemma sendable_sent (req : Msg) body hs :
  is_streaming body = true -> sendable (DATE, date) = true -> forallb sendable hs = true -> lenZ hs < 96 ->
  forallb sendable (sent_headers date req body hs) = true /\ lenZ (sent_headers date req body hs) <= 96.
Proof.
  intros Hb Hd Hs Hn. unfold sent_headers. assert (added_length req body = []) as -> by (by destruct body).
  assert (own_headers body hs = hs) as -> by (by destruct body). cbn [app].
  unfold added_date. destruct (has_date_header hs); rewrite ?app_nil_r, ?forallb_app, ?lenZ_app.
  - split; [done|lia].
  - rewrite Hs. cbn [forallb]. rewrite Hd, lenZ_cons, lenZ_nil. split; [done|lia].
Qed.

(** C6. A streamed response goes through: whatever the server writes and however its socket
    and its flushes cut the bytes, and in whatever pieces and with whatever delays the
    network delivers them, the client reads the status, the version and the headers of
    the response and then its data, in order and complete after a bounded number of
    polls, and leaves what follows the response. *)
Theorem response_exchanged (req : Msg) (msg : Resp) (encoding : ContentEncoding) (w : H1Writer Z')
    (ops : list writer_op) :
  http_crates -> modest -> memory_ok uninit spare ->
  http1 (default (msg_version req) (r_version msg)) -> 100 <= r_status msg < 600 ->
  r_status msg <> SWITCHING_PROTOCOLS -> forallb printable (resp_reason canonical_reason msg) = true ->
  sendable (DATE, date) = true -> streamable req msg encoding -> idle w -> hw_out w = [] ->
  Forall (fun m => Binary_len m < 2 ^ 64) (op_data ops) ->
  exists msg' w1 o k, start req msg encoding w = Ret (Ok WS_Done, msg', w1) /\ h1_run ops w1 = Ret o /\
    announces (r_headers msg') k /\
    forall w2, o = Some w2 ->
    forallb sendable (hm_iter (r_headers msg')) = true -> lenZ (hm_iter (r_headers msg')) < 96 ->
    framed k (op_data ops) ->
    exists hd, hw_out (h1_write_eof w2).2 = hd ++ encoded k (op_data ops) /\
      (lenZ hd <= 65536 -> forall io rest,
       Forall alive io -> pending io = hw_out (h1_write_eof w2).2 ++ rest ->
       receives io (r_status msg) (default (msg_version req) (r_version msg))
         (sent_headers date req (r_body msg) (hm_iter (r_headers msg'))) (framed_data k (op_data ops)) rest).
Proof.
  intros Hcr Hmod Hmem Hv Hst H101 Hre Hd Hstr Hidle Hout0 Hops.
  assert (no_newline (resp_reason canonical_reason msg)) as Hre' by (by apply (forallb_no_newline printable)).
  destruct (sendable_ok _ Hd) as (_ & _ & _ & Hd').
  destruct (streamed_response_sent canonical_reason date uninit spare req msg encoding w ops Hmem ltac:(lia)
    Hre' Hd' Hstr Hidle) as (msg' & w1 & o & k & hd & Hrun & Ho & Hann & Hout & Hread).
  exists msg', w1, o, k. split_and!; [done..|]. intros w2 Hw2 Hs Hn Hf.
  assert (Forall header_ok (hm_iter (r_headers msg'))) as Hok.
  { apply Forall_forall. intros kv Hkv%list_elem_of_In. rewrite forallb_forall in Hs. by apply sendable_ok, Hs. }
  exists hd. rewrite (Hout w2 Hw2), Hout0. split; [done|]. intros Hlen io rest Hal Hpend.
  assert (is_streaming (r_body msg) = true) as Hb by apply Hstr.
  destruct (sendable_sent req (r_body msg) _ Hb Hd Hs Hn) as [Hs' Hn'].
  eapply (receives_ok io _ _ _ _ (r_headers msg') k (op_data ops) hd rest); try done.
  - split; [|done]. destruct hd as [|x hd]; [|rewrite lenZ_cons; pose proof (lenZ_nonneg hd); lia].
    specialize (Hread Hok []). done.
  - by apply Hread.
  - intros key Hkey. rewrite hm_get_iter. destruct Hkey as [-> | ->].
    + by apply sent_headers_lookup.
    + apply (sent_headers_length date req (r_body msg)). exact Hb.
  - rewrite Hpend. cbn [app]. unfold encoded. by rewrite <-app_assoc.
Qed.

End Responding.

(** ** Requests *)

Lemma convert_headers_lookup hs te l u (m : H) :
  http_crates -> forallb sendable hs = true ->
  exists m' te' l' u', convert_headers hs te l u m = Some (m', te', l', u') /\
    forall k, hm_get k m' = match hm_get k m with Some v => Some v | None => alist_lookup k hs end.
Proof.
  intros Hcr. revert te l u m. induction hs as [|[k v] hs IH]; intros te l u m Hs; simpl.
  { do 4 eexists. split; [done|]. intros k. by destruct (hm_get k m). }
  simpl in Hs. apply andb_true_iff in Hs as [Hkv Hs].
  unfold sendable in Hkv. rewrite !andb_true_iff, negb_true_iff, bool_decide_eq_false in Hkv.
  destruct Hkv as [[[Hne Hk] _] _]. destruct (crates_name Hcr k Hne Hk) as [_ ->].
  destruct (IH (te || bool_decide (k = TRANSFER_ENCODING)) (l || bool_decide (k = CONTENT_LENGTH))
    (u || bool_decide (k = UPGRADE)) (hm_append k v m) Hs) as (m' & te' & l' & u' & -> & Hm').
  do 4 eexists. split; [done|]. intros k'. rewrite Hm', hm_get_append.
  destruct (decide (k = k')) as [<-|]; [|done]. by destruct (hm_get k m).
Qed.

Lemma framing_announced (m h : H) method k :
  http_crates -> announces h k ->
  (forall key, key = TRANSFER_ENCODING \/ key = CONTENT_LENGTH -> hm_get key m = hm_get key h) ->
  k <> TE_Eof -> framing m method = Ok (Some (kind_decoder k)).
Proof.
  intros Hcr Ha Hm Hk. unfold framing, chunked. rewrite !Hm by auto. destruct k as [eof|n|]; simpl in Ha; [| |done].
  - destruct Ha as (_ & -> & _). by rewrite (crates_value Hcr).
  - destruct Ha as (_ & -> & v & -> & Hp). rewrite (crates_value Hcr v) by (by eapply parse_u64_printable).
    simpl. by rewrite Hp.
Qed.

Section Requesting.
Context {W : Type} `{PW : PayloadWriter W} (new_tx : H -> W).
Context (path_and_query : bytes -> option bytes) (date : bytes) (spare : bytes -> Z).
Notation Request := (ClientRequest H).
Notation start := (client_start path_and_query date spare).

Definition request_target (q : Request) : bytes := default (b#"/") (path_and_query (cq_uri q)).

(** A server finds the request in the bytes: its line, its headers and the decoder of
    its body, with which it decodes the data and leaves the [rest]. *)
Definition accepts (buf : bytes) (q : Request) (hs : list (bytes * bytes)) (data rest : bytes) : Prop :=
  forall pool, pool_clean pool ->
  exists msg p buf' pool', parse_message new_tx buf pool = (Ready (msg, Some p), buf', pool') /\
    msg_method msg = cq_method q /\ msg_uri msg = request_target q /\ msg_version msg = cq_version q /\
    (forall key, hm_get key (msg_headers msg) = alist_lookup key hs) /\
    exists k', drain (S (length buf')) (pi_decoder p) buf' = Ret (data, Done, k', rest).

Lemma parse_message_reads buf (q : Request) hs (h : H) k hd enc :
  http_crates -> http1 (cq_version q) -> cq_method q <> [] -> forallb graphic (cq_method q) = true ->
  request_target q <> [] -> forallb graphic (request_target q) = true ->
  method_from_bytes (cq_method q) = Some (cq_method q) -> uri_try_from (request_target q) = Ok (request_target q) ->
  forallb sendable hs = true -> lenZ hs <= 96 ->
  (forall s, read_head (hd ++ s) = Some (request_line path_and_query q, hs, s)) ->
  announces h k -> k <> TE_Eof ->
  (forall key, key = TRANSFER_ENCODING \/ key = CONTENT_LENGTH -> alist_lookup key hs = hm_get key h) ->
  buf = hd ++ enc ->
  forall pool, pool_clean pool -> exists msg p pool',
    parse_message new_tx buf pool = (Ready (msg, Some p), enc, pool') /\
    msg_method msg = cq_method q /\ msg_uri msg = request_target q /\ msg_version msg = cq_version q /\
    (forall key, hm_get key (msg_headers msg) = alist_lookup key hs) /\ pi_decoder p = kind_decoder k.
Proof.
  intros Hcr Hv Hm0 Hm Ht0 Ht Hmeth Huri Hs Hn Hread Ha Hk Hkeys -> pool Hpool. unfold parse_message.
  rewrite (crates_request Hcr _ (cq_version q) (cq_method q) (request_target q) hs enc) by (try done; apply Hread).
  cbn [head_len head_method head_path head_version head_headers]. rewrite Hmeth, Huri.
  rewrite lenZ_app, Z.add_simpl_r. pose proof (lenZ_nonneg hd).
  rewrite dropZ_app_l, dropZ_all by lia. cbn [app].
  destruct (pool_get pool) as [m p] eqn:Hg.
  assert (msg_headers m = hm_empty) as Hm1.
  { destruct pool as [|m1 p1]; simpl in Hg; simplify_eq; [done|]. inversion Hpool as [|? ? Hc]; subst. by rewrite Hc. }
  destruct (convert_headers_lookup hs false false false (msg_headers m) Hcr Hs) as (m' & te & l & u & Hc & Hlook).
  rewrite Hc. rewrite Hm1 in Hc, Hlook.
  assert (forall k, hm_contains k (hm_empty (H := H)) = false) as Hempty.
  { intros key. rewrite hm_contains_get, hm_get_empty. apply bool_decide_false. by intros []. }
  apply (convert_headers_flags new_tx) in Hc as (-> & -> & ->); [|by rewrite Hempty..].
  match goal with |- context [select_decoder _ _ _ ?m0] => set (msg0 := m0) end.
  change m' with (msg_headers msg0). rewrite select_decoder_framing.
  assert (forall key, hm_get key (msg_headers msg0) = alist_lookup key hs) as Hget.
  { intros key. simpl. by rewrite Hlook, hm_get_empty. }
  rewrite (framing_announced (msg_headers msg0) h _ k) by (try done; intros; rewrite Hget; auto).
  do 3 eexists. split; [done|]. cbn [msg_method msg_uri msg_version msg_headers msg0 pi_decoder].
  split_and!; [done|done| |done|done]. by destruct Hv as [-> | ->].
Qed.

(** C7. A streamed request goes through: whatever chunks the client writes and however the
    connection takes them, the server reads from the bytes sent the method, the target,
    the version and the headers of the request, then exactly the data, and leaves what
    follows the request. *)
Theorem request_exchanged (q : Request) (w : HttpClientWriter Z') (stream : Io) (ops : list writer_op) :
  http_crates -> http1 (cq_version q) -> cq_method q <> [] -> forallb graphic (cq_method q) = true ->
  request_target q <> [] -> forallb graphic (request_target q) = true ->
  method_from_bytes (cq_method q) = Some (cq_method q) -> uri_try_from (request_target q) = Ok (request_target q) ->
  sendable (DATE, date) = true -> request_streamable q -> client_idle w -> accepting stream ->
  cw_out w stream = [] -> Forall (fun m => Binary_len m < 2 ^ 64) (op_data ops) ->
  exists q' w1 w2 stream2 k,
    start q w = Ret (Ok tt, q', w1) /\ client_run ops w1 stream = Ret (Some (w2, stream2)) /\
    announces (cq_headers q') k /\
    (forallb sendable (hm_iter (cq_headers q')) = true -> lenZ (hm_iter (cq_headers q')) < 96 ->
     framed k (op_data ops) -> forall rest,
     accepts (cw_out (client_write_eof w2).2 stream2 ++ rest) q (request_headers date q')
       (framed_data k (op_data ops)) rest).
Proof.
  intros Hcr Hv Hm0 Hm Ht0 Ht Hmeth Huri Hd Hq Hidle Hacc Hout0 Hops.
  destruct (streamed_request_sent path_and_query date spare q w stream ops Hq Hidle Hacc)
    as (q' & w1 & w2 & stream2 & k & Hrun & Hops2 & Hsame & Hann & Hout).
  exists q', w1, w2, stream2, k. split_and!; [done..|]. intros Hs Hn Hf rest pool Hpool.
  destruct (sendable_ok _ Hd) as (_ & _ & _ & Hd'). destruct Hsame as (Huq & Hmq & Hvq & _).
  assert (request_line path_and_query q' = request_line path_and_query q) as Hline
    by (unfold request_line; by rewrite Huq, Hmq, Hvq).
  assert (no_newline (request_line path_and_query q)) as Hnl.
  { unfold request_line, no_newline. rewrite !Forall_app. split_and!.
    1, 3: by apply (forallb_no_newline graphic).
    all: try destruct (cq_version q); repeat constructor; discriminate. }
  assert (Forall header_ok (hm_iter (cq_headers q'))) as Hok.
  { apply Forall_forall. intros kv Hkv%list_elem_of_In. rewrite forallb_forall in Hs. by apply sendable_ok, Hs. }
  assert (forallb sendable (request_headers date q') = true /\ lenZ (request_headers date q') <= 96) as [Hs' Hn'].
  { unfold request_headers. destruct (hm_contains DATE _); rewrite ?app_nil_r, ?forallb_app, ?lenZ_app; [split; [done|lia]|].
    rewrite Hs. cbn [forallb]. rewrite Hd, lenZ_cons, lenZ_nil. split; [done|lia]. }
  destruct (body_spec_encoded _ k (op_data ops) Hann Hf Hops) as [Hwf [k' Hspec]].
  destruct (parse_message_reads (cw_out (client_write_eof w2).2 stream2 ++ rest) q (request_headers date q')
    (cq_headers q') k (request_text path_and_query date q') (encoded k (op_data ops) ++ rest)) with (pool := pool)
    as (msg & p & pool' & Hpm & H1 & H2 & H3 & H4 & H5); try done.
  - intros s. rewrite read_request_text, Hline by (rewrite ?Hline; done). done.
  - by intros ->.
  - intros key Hkey. unfold request_headers. rewrite alist_lookup_app, <-hm_get_iter.
    destruct (hm_get key (cq_headers q')); [done|]. destruct (hm_contains DATE _); [done|].
    destruct Hkey as [-> | ->]; done.
  - rewrite Hout, Hout0. cbn [app]. unfold encoded. by rewrite <-app_assoc.
  - exists msg, p, (encoded k (op_data ops) ++ rest), pool'. split_and!; [done..|].
    exists k'. rewrite H5, drain_spec by (done || lia). by rewrite Hspec.
Qed.

End Requesting.

End Exchange.

(** ** Parsers that read heads line by line *)

Lemma read_line_shrinks s l r : read_line s = Some (l, r) -> (length r < length s)%nat.
Proof.
  revert l r. induction s as [|b s IH]; intros l r; simpl; [done|].
  destruct (_ && _) eqn:He; [intros [= <- <-]; destruct s; simpl; lia|].
  destruct (read_line s) as [[l' r']|] eqn:Hr; simpl; [|done]. intros [= <- <-]. specialize (IH l' r' eq_refl). lia.
Qed.

Lemma read_line_prefix a b l r :
  read_line (a ++ b) = Some (l, r) ->
  (exists r', read_line a = Some (l, r') /\ r = r' ++ b) \/ (read_line a = None /\ (length r < length b)%nat).
Proof.
  revert l r. induction a as [|x a IH]; intros l r Hr.
  { right. split; [done|]. by apply read_line_shrinks in Hr. }
  simpl in Hr |- *. destruct a as [|y a].
  - right. cbn [app] in Hr. rewrite andb_false_r. destruct (_ && _) eqn:He.
    + destruct b as [|z b]; [by rewrite andb_false_r in He|]. simplify_eq. simpl. split; [done|lia].
    + destruct (read_line b) as [[l' r']|] eqn:Hb; simpl in Hr; simplify_eq. apply read_line_shrinks in Hb. done.
  - cbn [app head] in Hr |- *. destruct (_ && _); [simplify_eq; left; by eexists|].
    destruct (read_line (y :: a ++ b)) as [[l' r']|] eqn:Hb; [|done]. simpl in Hr. simplify_eq.
    destruct (IH l' r Hb) as [(r2 & -> & ->)|[-> Hlt]]; [left|by right]. by eexists.
Qed.

Lemma read_header_lines_shrinks f s hs r :
  read_header_lines f s = Some (hs, r) -> (length r < length s)%nat.
Proof.
  revert s hs r. induction f as [|f IH]; intros s hs r; cbn [read_header_lines]; [done|].
  destruct (read_line s) as [[l r0]|] eqn:Hl; [|done]. apply read_line_shrinks in Hl. cbn [mbind option_bind].
  destruct l as [|x l]; [by intros [= <- <-]|]. destruct (split_header (x :: l)); [|done]. cbn [mbind option_bind].
  destruct (read_header_lines f r0) as [[hs' r']|] eqn:Hr; [|done]. apply IH in Hr. intros [= <- <-]. lia.
Qed.

Lemma read_header_lines_prefix f f' a b hs r :
  read_header_lines f (a ++ b) = Some (hs, r) -> (length a <= f')%nat ->
  (exists r', read_header_lines f' a = Some (hs, r') /\ r = r' ++ b) \/
  (read_header_lines f' a = None /\ (length r < length b)%nat).
Proof.
  revert f' a hs r. induction f as [|f IH]; intros f' a hs r Hr Hf; [done|].
  destruct f' as [|f'].
  { destruct a; [|simpl in Hf; lia]. right. split; [done|]. by apply read_header_lines_shrinks in Hr. }
  cbn [read_header_lines] in *. destruct (read_line (a ++ b)) as [[l r0]|] eqn:Hl; [|done]. cbn [mbind option_bind] in Hr.
  destruct (read_line_prefix _ _ _ _ Hl) as [(r1 & Ha & ->)|[-> Hlt]].
  - rewrite Ha. cbn [mbind option_bind]. destruct l as [|x l]; [simplify_eq; left; by eexists|].
    destruct (split_header (x :: l)) as [kv|]; [|done]. cbn [mbind option_bind] in Hr |- *.
    destruct (read_header_lines f (r1 ++ b)) as [[hs' r']|] eqn:Hrec; [|done]. cbn [mbind option_bind] in Hr. simplify_eq.
    apply read_line_shrinks in Ha. destruct (IH f' r1 hs' r Hrec ltac:(lia)) as [(r2 & -> & ->)|[-> Hlt]].
    + left. by eexists.
    + by right.
  - right. split; [done|]. assert (length r <= length r0)%nat; [|lia].
    destruct l as [|x l]; [by simplify_eq|]. destruct (split_header (x :: l)) as [kv|]; [|done].
    cbn [mbind option_bind] in Hr. destruct (read_header_lines f r0) as [[hs' r']|] eqn:Hrec; [|done].
    apply read_header_lines_shrinks in Hrec. cbn [mbind option_bind] in Hr. simplify_eq. lia.
Qed.

Lemma read_head_prefix a b l hs r :
  read_head (a ++ b) = Some (l, hs, r) ->
  (exists r', read_head a = Some (l, hs, r') /\ r = r' ++ b) \/ (read_head a = None /\ (length r < length b)%nat).
Proof.
  unfold read_head. destruct (read_line (a ++ b)) as [[l0 r0]|] eqn:Hl; [|done]. cbn [mbind option_bind]. intros Hr.
  destruct (read_header_lines (length r0) r0) as [[hs0 r1]|] eqn:Hh; [|done]. cbn [mbind option_bind] in Hr. simplify_eq.
  destruct (read_line_prefix _ _ _ _ Hl) as [(r2 & -> & ->)|[-> Hlt]]; cbn [mbind option_bind].
  - destruct (read_header_lines_prefix _ (length r2) _ _ _ _ Hh ltac:(lia)) as [(r3 & -> & ->)|[-> Hlt]];
      cbn [mbind option_bind]; [left; by eexists|by right].
  - right. split; [done|]. apply read_header_lines_shrinks in Hh. lia.
Qed.

Lemma read_head_shrinks s l hs r : read_head s = Some (l, hs, r) -> lenZ r < lenZ s.
Proof.
  unfold read_head. destruct (read_line s) as [[l0 r0]|] eqn:Hl; [|done]. cbn [mbind option_bind].
  destruct (read_header_lines (length r0) r0) as [[hs0 r1]|] eqn:Hh; [|done]. cbn [mbind option_bind]. intros [= <- <- <-].
  apply read_line_shrinks in Hl. apply read_header_lines_shrinks in Hh. unfold lenZ. lia.
Qed.

(** [HTTP/1.x NNN ] *)
Definition parse_status_line (l : bytes) : option (Z * Z) :=
  match takeZ 13 l with
  | [72; 84; 84; 80; 47; 49; 46; m; 32; a; b; c; 32] =>
      code ← parse_u64 [a; b; c]; if (48 <=? m) && (m <=? 49) then Some (m - 48, code) else None
  | _ => None
  end.

Lemma parse_status_line_ok v n reason :
  http1 v -> 100 <= n < 600 -> parse_status_line (status_line v n ++ reason) = Some (minor v, n).
Proof.
  intros Hv Hn. unfold parse_status_line. destruct (status_line_buf_ok v n ltac:(lia)) as [_ Hl].
  rewrite takeZ_app_l, takeZ_all by lia.
  assert (bool_decide (parse_status_line (status_line v n) = Some (minor v, n)) = true) as Hp%bool_decide_eq_true.
  { apply (seqZ_all (fun n => bool_decide (parse_status_line (status_line v n) = Some (minor v, n))) 100 500 n); [|lia].
    destruct Hv as [-> | ->]; vm_compute; reflexivity. }
  unfold parse_status_line in Hp. by rewrite takeZ_all in Hp by lia.
Qed.

#[export] Instance line_responses : ResponseParsers.
Proof.
  refine {| httparse_response s :=
      match read_head s with
      | Some (l, hs, r) =>
          match parse_status_line l with
          | Some (m, code) => Ok (Some (mkRH (lenZ s - lenZ r) (Some m) (Some code) hs))
          | None => Err Hp_Status
          end
      | None => Ok None
      end;
    status_from_u16 n := if (100 <=? n) && (n <? 600) then Some n else None |}.
  - intros s h Hs. destruct (read_head s) as [[[l hs] r]|] eqn:Hr; [|done].
    destruct (parse_status_line l) as [[m code]|]; [|done]. simplify_eq. apply read_head_shrinks in Hr.
    pose proof (lenZ_nonneg r). simpl. split; [lia|by eexists].
  - intros a b h Hs. destruct (read_head (a ++ b)) as [[[l hs] r]|] eqn:Hr; [|done].
    destruct (parse_status_line l) as [[m code]|] eqn:Hp; [|done]. simplify_eq. cbn [rh_len].
    destruct (read_head_prefix _ _ _ _ _ Hr) as [(r' & -> & ->)|[-> Hlt]]; rewrite lenZ_app.
    + rewrite Hp, (lenZ_app r'), (proj2 (Z.ltb_ge _ _)) by (pose proof (lenZ_nonneg r'); lia). do 3 f_equal. lia.
    + rewrite (proj2 (Z.ltb_lt _ _)); [done|]. unfold lenZ. lia.
Defined.

(** A request line. *)
Fixpoint split_space (s : bytes) : option (bytes * bytes) :=
  match s with
  | [] => None
  | b :: s => if b =? 32 then Some ([], s) else '(l, r) ← split_space s; Some (b :: l, r)
  end.
Definition parse_request_line (l : bytes) : option (bytes * bytes * Z) :=
  '(method, r) ← split_space l; '(target, v) ← split_space r;
  if bool_decide (v = version_debug HTTP_11) then Some (method, target, 1)
  else if bool_decide (v = version_debug HTTP_10) then Some (method, target, 0) else None.

Lemma split_space_app l r : forallb graphic l = true -> split_space (l ++ b#" " ++ r) = Some (l, r).
Proof.
  induction l as [|b l IH]; [done|]. cbn [forallb app split_space]. intros [Hb Hl]%andb_true_iff.
  destruct (Z.eqb_spec b 32) as [->|]; [done|]. by rewrite IH.
Qed.

#[export] Instance line_requests : HttpParsers.
Proof.
  refine {| httparse s :=
      match read_head s with
      | Some (l, hs, r) =>
          match parse_request_line l with
          | Some (m, t, v) => Ok (Some (mkHead (lenZ s - lenZ r) m t v hs))
          | None => Err Hp_Version
          end
      | None => Ok None
      end;
    method_from_bytes := Some; uri_try_from t := Ok t; header_name_from_bytes := Some |}.
  intros s h Hs. destruct (read_head s) as [[[l hs] r]|] eqn:Hr; [|done].
  destruct (parse_request_line l) as [[[m t] v]|]; [|done]. simplify_eq. apply read_head_shrinks in Hr.
  pose proof (lenZ_nonneg r). simpl. lia.
Defined.

#[export] Instance plain_headers : HeaderConv.
Proof.
  refine {| hn_try_from := Some; hv_try_from v := if forallb value_byte v then Some v else None |};
    intros v Hv; by rewrite Hv.
Defined.

Lemma line_crates : http_crates (H := hlist).
Proof.
  split.
  - intros s v status reason hs rest Hv Hst _ _ _ Hr. cbn. rewrite Hr. by rewrite parse_status_line_ok.
  - intros s v method target hs rest Hv _ Hm _ Ht _ _ Hr. cbn. rewrite Hr. unfold parse_request_line.
    rewrite split_space_app by done. cbn [mbind option_bind]. rewrite split_space_app by done. cbn [mbind option_bind].
    by destruct Hv as [-> | ->].
  - intros n Hn. cbn. by rewrite (proj2 (Z.leb_le _ _)), (proj2 (Z.ltb_lt _ _)) by lia.
  - done.
  - intros v Hv. cbn. assert (visible_ascii v = true) as ->; [|done].
    unfold visible_ascii. rewrite forallb_forall in *. intros b Hb%Hv. unfold printable in Hb. lia.
Qed.

(** ** Witnesses *)

Lemma lenZ_head_le (s a b : bytes) n : s = a ++ b -> lenZ s <= n -> lenZ a <= n.
Proof. intros ->. rewrite lenZ_app. pose proof (lenZ_nonneg b). lia. Qed.

Lemma modest_exact : modest (AL := exact_alloc).
Proof. intros b. vm_compute. discriminate. Qed.

Notation a_start := (h1_start (H := hlist) (CP := stored) (FF := integer_f64) (AL := exact_alloc)
  ok_reason a_date a_stack no_spare).

(** What the server of [two_writes] leaves on its connection. *)
Definition two_writes_sent : bytes :=
  match a_start get_request stream_response Enc_Identity (a_writer [Ok 5; Ok 3]) with
  | Ret (_, _, w1) =>
      match h1_run (CP := stored) two_writes w1 with
      | Ret (Some w2) => hw_out (h1_write_eof (CP := stored) w2).2
      | _ => []
      end
  | _ => []
  end.
Definition cut (n : nat) (s : bytes) : socket :=
  [Ok (take n s); Err (mkIoError WouldBlock ""); Ok (drop n s)].

Lemma cut_alive n s : take n s <> [] -> drop n s <> [] -> Forall alive (cut n s).
Proof. by repeat constructor. Qed.
Lemma pending_cut n s : pending (cut n s) = s.
Proof. unfold pending, cut. simpl. by rewrite app_nil_r, take_drop. Qed.

Lemma response_exchanged_witness :
  exists hs, receives (H := hlist) (HC := plain_headers) (AL := exact_alloc) (RP := line_responses)
    (cut 20 (two_writes_sent ++ b#"HTTP/1.1")) 200 HTTP_11 hs (b#"Hello, world!") (b#"HTTP/1.1").
Proof.
  destruct (response_exchanged (H := hlist) (HC := plain_headers) (CP := stored) (FF := integer_f64) (AL := exact_alloc)
    (RP := line_responses) (HP := line_requests) ok_reason a_date a_stack no_spare get_request stream_response Enc_Identity
    (a_writer [Ok 5; Ok 3]) two_writes) as (msg' & w1 & o & k & Hs & Hr & Hann & Hok).
  - apply line_crates.
  - apply modest_exact.
  - apply memory_witness.
  - right. reflexivity.
  - simpl. lia.
  - discriminate.
  - reflexivity.
  - reflexivity.
  - split_and!; done.
  - split; [reflexivity|split; [reflexivity|by eexists]].
  - reflexivity.
  - repeat constructor.
  - assert (run_post False (fun r => r_headers r.1.2 = [(TRANSFER_ENCODING, b#"chunked")] /\
        run_post False (fun o => exists w2, o = Some w2 /\ hw_out (h1_write_eof (CP := stored) w2).2 = two_writes_sent)
          (h1_run (CP := stored) two_writes r.2))
      (a_start get_request stream_response Enc_Identity (a_writer [Ok 5; Ok 3]))) as Hm
      by (vm_compute; split; [reflexivity|eexists; split; reflexivity]).
    rewrite Hs in Hm. destruct Hm as [Hh Ho]. cbn [fst snd] in Hh, Ho. rewrite Hr in Ho. destruct Ho as (w2 & -> & Hout).
    rewrite Hh in Hann, Hok. destruct k as [eof|n|]; [|exfalso; destruct Hann as (_ & Ha & _); vm_compute in Ha; discriminate Ha|exfalso; destruct Hann as [Ha _]; vm_compute in Ha; discriminate Ha].
    destruct Hann as [-> _]. destruct (Hok w2 eq_refl) as (hd & Hhd & Hrec); [reflexivity|vm_compute; reflexivity|exact I|].
    rewrite Hout in Hhd, Hrec. eexists. apply Hrec.
    + apply (lenZ_head_le _ _ _ _ Hhd). vm_compute. discriminate.
    + apply cut_alive; vm_compute; discriminate.
    + apply pending_cut.
Defined.

(** A response that ends with the connection, as [curl] would read it. *)
Definition close_head : bytes := b#"HTTP/1.0 200 OK" ++ CRLF ++ b#"date: " ++ a_date ++ CRLF ++ CRLF.

Lemma close_delimited_body_lost_witness :
  exists cm p io' buf',
    parse_polls (H := hlist) (HC := plain_headers) (AL := exact_alloc) (RP := line_responses) 4
      HttpResponseParser_default (cut 20 (close_head ++ b#"the whole body")) (mkBM [] 0) =
      Ret (Ready cm, p, io', buf') /\
    parse_payload (AL := exact_alloc) p io' buf' = Ret (Ready None, p, io', buf') /\
    bm_data buf' ++ pending io' = b#"the whole body".
Proof.
  apply (close_delimited_body_lost (H := hlist) (HC := plain_headers) (AL := exact_alloc) (RP := line_responses)
    (HP := line_requests) (cut 20 (close_head ++ b#"the whole body")) HTTP_10 200 (b#"OK") [(DATE, a_date)] [(DATE, a_date)]
    close_head (b#"the whole body")).
  - apply line_crates.
  - apply modest_exact.
  - by left.
  - lia.
  - discriminate.
  - reflexivity.
  - reflexivity.
  - vm_compute. discriminate.
  - vm_compute. split; [reflexivity|discriminate].
  - intros s. unfold close_head. rewrite <-!app_assoc.
    change (read_head ((b#"HTTP/1.0 200 OK") ++ CRLF ++ (b#"date: " ++ a_date ++ CRLF ++ CRLF ++ s)) =
      Some (b#"HTTP/1.0 200 OK", [(DATE, a_date)], s)).
    unfold read_head. rewrite read_line_app by (repeat constructor; discriminate). cbn [mbind option_bind].
    pose proof (read_header_lines_app [(DATE, a_date)] s (length (b#"date: " ++ a_date ++ CRLF ++ CRLF ++ s))) as Hr.
    change (concat (map header_line [(DATE, a_date)]) ++ CRLF ++ s) with (b#"date: " ++ a_date ++ CRLF ++ CRLF ++ s) in Hr.
    rewrite Hr; [reflexivity| |].
    + apply (bool_decide_unpack _). vm_compute. exact I.
    + rewrite length_app. simpl. lia.
  - split; reflexivity.
  - intros key [-> | ->]; reflexivity.
  - apply cut_alive; vm_compute; discriminate.
  - apply pending_cut.
Defined.

Definition post_request : ClientRequest hlist :=
  set_cq_body (Body_Streaming 0) (mkCQ (b#"http://localhost/up") (b#"POST") HTTP_11 [] Body_Empty false false None
    Enc_Identity true 32768).
Definition up_target (_ : bytes) : option bytes := Some (b#"/up").

Lemma request_exchanged_witness :
  exists q' w1 w2 stream2 hs,
    client_start (H := hlist) (CP := stored) (AL := exact_alloc) up_target a_date no_spare post_request
      (HttpClientWriter_new []) = Ret (Ok tt, q', w1) /\
    client_run (CP := stored) two_writes w1 (mkIo [] [Ok 7; Ok 2] [] [] false) = Ret (Some (w2, stream2)) /\
    accepts (H := hlist) (HP := line_requests) (fun _ => ([] : list pw_event)) up_target
      (cw_out (client_write_eof (CP := stored) w2).2 stream2 ++ b#"GET /") post_request hs (b#"Hello, world!") (b#"GET /").
Proof.
  destruct (request_exchanged (H := hlist) (HC := plain_headers) (CP := stored) (AL := exact_alloc) (RP := line_responses)
    (HP := line_requests) (fun _ => ([] : list pw_event)) up_target a_date no_spare post_request (HttpClientWriter_new [])
    (mkIo [] [Ok 7; Ok 2] [] [] false) two_writes) as (q' & w1 & w2 & stream2 & k & Hs & Hr & Hann & Hok).
  - apply line_crates.
  - by right.
  - discriminate.
  - reflexivity.
  - discriminate.
  - reflexivity.
  - reflexivity.
  - reflexivity.
  - reflexivity.
  - split_and!; done.
  - split; [reflexivity|split; [reflexivity|by eexists]].
  - repeat constructor.
  - reflexivity.
  - repeat constructor.
  - assert (run_post False (fun r => cq_headers r.1.2 = [(TRANSFER_ENCODING, b#"chunked")])
      (client_start (H := hlist) (CP := stored) (AL := exact_alloc) up_target a_date no_spare post_request
        (HttpClientWriter_new []))) as Hm by (vm_compute; reflexivity).
    rewrite Hs in Hm. cbn [run_post fst snd] in Hm. rewrite Hm in Hann, Hok.
    destruct k as [eof|n|]; [|exfalso; destruct Hann as (_ & Ha & _); vm_compute in Ha; discriminate Ha|exfalso; destruct Hann as [Ha _]; vm_compute in Ha; discriminate Ha]. destruct Hann as [-> _].
    exists q', w1, w2, stream2, (request_headers a_date q'). split; [exact Hs|]. split; [exact Hr|].
    apply Hok; [reflexivity|reflexivity|exact I].
Defined.
