(* ===== verification/Connector.v ===== *)
(** * The connection pool of the client (src/src/client/connector.rs)

    [ClientConnector] hands out connections: it reuses idle ones, opens new ones within
    its limits, and lets requests wait.  A handed out connection holds a ticket, an
    [AcquiredConn] with a reference to the shared [Pool], through which the connection,
    or the ticket alone, comes back when the user closes, releases or drops it.

    The actor is modelled with its surroundings: the tickets of the attempts under way,
    the connections its users hold, and the receivers that wait for answers.  Every
    reading of the clock is a reading of its own; [HashMap]s are iterated in any order. *)
From S2P Require Import Prelude StrLib Errors.
Open Scope Z_scope.

(** ** Keys and protocols *)
Record Key : Type := mkKey { key_host : bytes; key_port : Z; key_ssl : bool }.
#[export] Instance Key_eq_dec : EqDecision Key.
Proof. solve_decision. Defined.
#[export] Instance Key_countable : Countable Key.
Proof.
  refine (inj_countable' (fun k => (key_host k, key_port k, key_ssl k)) (fun '(h, p, s) => mkKey h p s) _).
  by intros [].
Defined.
Definition Key_empty : Key := mkKey [] 0 false.

Inductive Protocol : Type := Proto_Http | Proto_Https | Proto_Ws | Proto_Wss.
Definition Protocol_from (s : bytes) : option Protocol :=
  if bool_decide (s = b#"http") then Some Proto_Http
  else if bool_decide (s = b#"https") then Some Proto_Https
  else if bool_decide (s = b#"ws") then Some Proto_Ws
  else if bool_decide (s = b#"wss") then Some Proto_Wss
  else None.
Definition proto_is_http (p : Protocol) : bool := match p with Proto_Https | Proto_Http => true | _ => false end.
Definition proto_is_secure (p : Protocol) : bool := match p with Proto_Https | Proto_Wss => true | _ => false end.
Definition proto_port (p : Protocol) : Z := match p with Proto_Http | Proto_Ws => 80 | _ => 443 end.

(** [actix]'s resolver fails with a timeout or otherwise. *)
Inductive ConnectorError : Type := ConnE_Timeout | ConnE_Other (code : nat).
Inductive ClientConnectorError : Type :=
| CCE_InvalidUrl
| CCE_SslIsNotSupported
| CCE_SslError
| CCE_Connector (e : ConnectorError)
| CCE_Timeout
| CCE_Disconnected
| CCE_IoError (e : IoError).
Definition ClientConnectorError_from (err : ConnectorError) : ClientConnectorError :=
  match err with ConnE_Timeout => CCE_Timeout | _ => CCE_Connector err end.

(** [http::Uri] by what the handler asks of it. *)
Record Uri : Type := mkUri { uri_scheme : option bytes; uri_host : option bytes; uri_port : option Z }.
Record Connect : Type := mkConnect { co_uri : Uri; co_wait_timeout : Z; co_conn_timeout : Z }.
Definition Connect_new (uri : Uri) : Connect := mkConnect uri 5 1.

Record ClientConnectorStats : Type := mkStats {
  st_waits : Z; st_reused : Z; st_opened : Z; st_closed : Z; st_errors : Z; st_timeouts : Z }.
Definition stats_default : ClientConnectorStats := mkStats 0 0 0 0 0 0.
Definition stat_waits s := mkStats (st_waits s + 1) (st_reused s) (st_opened s) (st_closed s) (st_errors s) (st_timeouts s).
Definition stat_reused s := mkStats (st_waits s) (st_reused s + 1) (st_opened s) (st_closed s) (st_errors s) (st_timeouts s).
Definition stat_opened s := mkStats (st_waits s) (st_reused s) (st_opened s + 1) (st_closed s) (st_errors s) (st_timeouts s).
Definition stat_closed s := mkStats (st_waits s) (st_reused s) (st_opened s) (st_closed s + 1) (st_errors s) (st_timeouts s).
Definition stat_errors s := mkStats (st_waits s) (st_reused s) (st_opened s) (st_closed s) (st_errors s + 1) (st_timeouts s).
Definition stat_timeouts s := mkStats (st_waits s) (st_reused s) (st_opened s) (st_closed s) (st_errors s) (st_timeouts s + 1).

(** [Instant - Instant]. *)
Definition instant_sub (a b : Z) : run Z := if b <=? a then Ret (a - b) else Panic.

Section Connector.
(** The stream of a connection: what a read of two bytes and a shutdown answer. *)
Context {S : Type} (stream_read : S -> result Z IoError * S) (stream_shutdown : S -> poll unit IoError * S).
(** [clock e r] is the reading number [r] of the clock in the event number [e]; [order]
    is an order of the keys of a map; [has_ssl] tells whether TLS is compiled in. *)
Context (clock : nat -> nat -> Z) (order : nat -> gset Key -> list Key) (has_ssl : bool).

(** [AcquiredConn(key, pool)]; the pool is there or taken. *)
Record AcquiredConn : Type := mkAC { ac_key : Key; ac_pool : bool }.

Record Connection : Type := mkConn {
  c_key : Key;
  c_stream : S;
  c_pool : option AcquiredConn;
  c_ts : Z;
}.
Definition set_c_stream s c := mkConn (c_key c) s (c_pool c) (c_ts c).
Definition set_c_pool p c := mkConn (c_key c) (c_stream c) p (c_ts c).

Record Waiter : Type := mkWaiter { w_tx : nat; w_wait : Z; w_conn_timeout : Z }.
Definition Conn : Type := Z * Connection.

Record Pool : Type := mkPool {
  p_keys : list Key;
  p_to_close : list Connection;
  p_to_release : list Connection;
  p_task : bool;
  p_notified : bool;
  p_modified : bool;
}.
Definition Pool_new : Pool := mkPool [] [] [] false false false.

Record ClientConnector : Type := mkCC {
  cc_stats : ClientConnectorStats;
  cc_subscriber : option (list ClientConnectorStats);
  cc_pool : Pool;
  cc_conn_lifetime : Z;
  cc_conn_keep_alive : Z;
  cc_limit : Z;
  cc_limit_per_host : Z;
  cc_acquired : Z;
  cc_acquired_per_host : gmap Key Z;
  cc_available : gmap Key (list Conn);
  cc_to_close : list Connection;
  cc_waiters : gmap Key (list Waiter);
  cc_wait_timeout : option Z;
  cc_paused : option (option Z);
}.

(** [ClientConnector::default]. *)
Definition ClientConnector_default : ClientConnector :=
  mkCC stats_default None Pool_new 15 75 100 0 0 ∅ ∅ [] ∅ None None.
Definition with_connector : ClientConnector :=
  mkCC stats_default None Pool_new 75 15 100 0 0 ∅ ∅ [] ∅ None None.

(** The builder's setters. *)
Definition set_limit n c := mkCC (cc_stats c) (cc_subscriber c) (cc_pool c) (cc_conn_lifetime c) (cc_conn_keep_alive c)
  n (cc_limit_per_host c) (cc_acquired c) (cc_acquired_per_host c) (cc_available c) (cc_to_close c) (cc_waiters c)
  (cc_wait_timeout c) (cc_paused c).
Definition set_limit_per_host n c := mkCC (cc_stats c) (cc_subscriber c) (cc_pool c) (cc_conn_lifetime c)
  (cc_conn_keep_alive c) (cc_limit c) n (cc_acquired c) (cc_acquired_per_host c) (cc_available c) (cc_to_close c)
  (cc_waiters c) (cc_wait_timeout c) (cc_paused c).
Definition set_conn_keep_alive n c := mkCC (cc_stats c) (cc_subscriber c) (cc_pool c) (cc_conn_lifetime c)
  n (cc_limit c) (cc_limit_per_host c) (cc_acquired c) (cc_acquired_per_host c) (cc_available c) (cc_to_close c)
  (cc_waiters c) (cc_wait_timeout c) (cc_paused c).
Definition set_conn_lifetime n c := mkCC (cc_stats c) (cc_subscriber c) (cc_pool c) n
  (cc_conn_keep_alive c) (cc_limit c) (cc_limit_per_host c) (cc_acquired c) (cc_acquired_per_host c) (cc_available c)
  (cc_to_close c) (cc_waiters c) (cc_wait_timeout c) (cc_paused c).
Definition set_subscriber c := mkCC (cc_stats c) (Some []) (cc_pool c) (cc_conn_lifetime c)
  (cc_conn_keep_alive c) (cc_limit c) (cc_limit_per_host c) (cc_acquired c) (cc_acquired_per_host c) (cc_available c)
  (cc_to_close c) (cc_waiters c) (cc_wait_timeout c) (cc_paused c).

(** ** The system around the actor *)

(** What an attempt to connect ends in: the answer to a request, or to a waiter. *)
Inductive Dest : Type := To_request (tx : nat) (proto : Protocol) | To_waiter (w : Waiter).
(** An attempt waits for the stream, or for the TLS handshake on it. *)
Record Opening : Type := mkOpening { op_conn : AcquiredConn; op_dest : Dest; op_tls : bool }.

Record Sys : Type := mkSys {
  sys_cc : ClientConnector;
  sys_event : nat;
  sys_reads : nat;
  sys_next : nat;
  sys_canceled : gset nat;
  sys_opening : list Opening;
  sys_held : list Connection;
  sys_answers : list (nat * option ClientConnectorError);
}.
Definition Sys_new (c : ClientConnector) : Sys := mkSys c 0 0 0 ∅ [] [] [].
Definition set_cc c s := mkSys c (sys_event s) (sys_reads s) (sys_next s) (sys_canceled s) (sys_opening s) (sys_held s)
  (sys_answers s).

(** Code that changes the state, and may panic. *)
Definition M (A : Type) : Type := Sys -> run (A * Sys).
#[local] Instance M_ret : MRet M := fun A a s => Ret (a, s).
#[local] Instance M_bind : MBind M := fun A B f m s => '(a, s) ← m s; f a s.
Definition gets {A} (f : Sys -> A) : M A := fun s => Ret (f s, s).
Definition modify (f : Sys -> Sys) : M unit := fun s => Ret (tt, f s).
Definition lift {A} (m : run A) : M A := fun s => a ← m; Ret (a, s).
Definition with_cc (f : ClientConnector -> ClientConnector) : M unit := modify (fun s => set_cc (f (sys_cc s)) s).

(** [Instant::now()]. *)
Definition instant_now : M Z := fun s =>
  Ret (clock (sys_event s) (sys_reads s),
       mkSys (sys_cc s) (sys_event s) (sys_reads s + 1) (sys_next s) (sys_canceled s) (sys_opening s) (sys_held s)
         (sys_answers s)).

Definition upd_stats (f : ClientConnectorStats -> ClientConnectorStats) : M unit :=
  with_cc (fun c => mkCC (f (cc_stats c)) (cc_subscriber c) (cc_pool c) (cc_conn_lifetime c) (cc_conn_keep_alive c)
    (cc_limit c) (cc_limit_per_host c) (cc_acquired c) (cc_acquired_per_host c) (cc_available c) (cc_to_close c)
    (cc_waiters c) (cc_wait_timeout c) (cc_paused c)).
Definition upd_pool (f : Pool -> Pool) : M unit :=
  with_cc (fun c => mkCC (cc_stats c) (cc_subscriber c) (f (cc_pool c)) (cc_conn_lifetime c) (cc_conn_keep_alive c)
    (cc_limit c) (cc_limit_per_host c) (cc_acquired c) (cc_acquired_per_host c) (cc_available c) (cc_to_close c)
    (cc_waiters c) (cc_wait_timeout c) (cc_paused c)).
Definition upd_acquired (n : Z) (f : gmap Key Z -> gmap Key Z) : M unit :=
  with_cc (fun c => mkCC (cc_stats c) (cc_subscriber c) (cc_pool c) (cc_conn_lifetime c) (cc_conn_keep_alive c)
    (cc_limit c) (cc_limit_per_host c) n (f (cc_acquired_per_host c)) (cc_available c) (cc_to_close c)
    (cc_waiters c) (cc_wait_timeout c) (cc_paused c)).
Definition upd_available (f : gmap Key (list Conn) -> gmap Key (list Conn)) : M unit :=
  with_cc (fun c => mkCC (cc_stats c) (cc_subscriber c) (cc_pool c) (cc_conn_lifetime c) (cc_conn_keep_alive c)
    (cc_limit c) (cc_limit_per_host c) (cc_acquired c) (cc_acquired_per_host c) (f (cc_available c)) (cc_to_close c)
    (cc_waiters c) (cc_wait_timeout c) (cc_paused c)).
Definition upd_to_close (f : list Connection -> list Connection) : M unit :=
  with_cc (fun c => mkCC (cc_stats c) (cc_subscriber c) (cc_pool c) (cc_conn_lifetime c) (cc_conn_keep_alive c)
    (cc_limit c) (cc_limit_per_host c) (cc_acquired c) (cc_acquired_per_host c) (cc_available c) (f (cc_to_close c))
    (cc_waiters c) (cc_wait_timeout c) (cc_paused c)).
Definition upd_waiters (f : gmap Key (list Waiter) -> gmap Key (list Waiter)) : M unit :=
  with_cc (fun c => mkCC (cc_stats c) (cc_subscriber c) (cc_pool c) (cc_conn_lifetime c) (cc_conn_keep_alive c)
    (cc_limit c) (cc_limit_per_host c) (cc_acquired c) (cc_acquired_per_host c) (cc_available c) (cc_to_close c)
    (f (cc_waiters c)) (cc_wait_timeout c) (cc_paused c)).
Definition set_wait_timeout (t : option Z) : M unit :=
  with_cc (fun c => mkCC (cc_stats c) (cc_subscriber c) (cc_pool c) (cc_conn_lifetime c) (cc_conn_keep_alive c)
    (cc_limit c) (cc_limit_per_host c) (cc_acquired c) (cc_acquired_per_host c) (cc_available c) (cc_to_close c)
    (cc_waiters c) t (cc_paused c)).
Definition set_paused (p : option (option Z)) : M unit :=
  with_cc (fun c => mkCC (cc_stats c) (cc_subscriber c) (cc_pool c) (cc_conn_lifetime c) (cc_conn_keep_alive c)
    (cc_limit c) (cc_limit_per_host c) (cc_acquired c) (cc_acquired_per_host c) (cc_available c) (cc_to_close c)
    (cc_waiters c) (cc_wait_timeout c) p).
Definition push_opening (o : Opening) : M unit :=
  modify (fun s => mkSys (sys_cc s) (sys_event s) (sys_reads s) (sys_next s) (sys_canceled s) (sys_opening s ++ [o])
    (sys_held s) (sys_answers s)).

(** ** The pool *)
Definition pool_touch (keys : list Key) (to_close to_release : list Connection) (p : Pool) : Pool :=
  mkPool (p_keys p ++ keys) (p_to_close p ++ to_close) (p_to_release p ++ to_release) (p_task p)
    (p_notified p || p_task p) true.
Definition pool_close (conn : Connection) : M unit := upd_pool (pool_touch [] [conn] []).
Definition pool_release_conn (conn : Connection) : M unit := upd_pool (pool_touch [] [] [conn]).
Definition pool_release_key (key : Key) : M unit := upd_pool (pool_touch [key] [] []).

Definition collect_keys : M (list Key) :=
  keys ← gets (fun s => p_keys (cc_pool (sys_cc s)));
  _ ← upd_pool (fun p => mkPool [] (p_to_close p) (p_to_release p) (p_task p) (p_notified p) (p_modified p));
  mret keys.
Definition collect_close : M (list Connection) :=
  conns ← gets (fun s => p_to_close (cc_pool (sys_cc s)));
  _ ← upd_pool (fun p => mkPool (p_keys p) [] (p_to_release p) (p_task p) (p_notified p) (p_modified p));
  mret conns.
Definition collect_release : M (list Connection) :=
  conns ← gets (fun s => p_to_release (cc_pool (sys_cc s)));
  _ ← upd_pool (fun p => mkPool (p_keys p) (p_to_close p) [] (p_task p) (p_notified p) (p_modified p));
  mret conns.

(** [Drop for AcquiredConn], and of a connection with a ticket. *)
Definition ac_drop (ac : AcquiredConn) : M unit :=
  if ac_pool ac then pool_release_key (ac_key ac) else mret tt.
Definition conn_drop (conn : Connection) : M unit :=
  match c_pool conn with Some ac => ac_drop ac | None => mret tt end.
(** [Connection::close] and [Connection::release]; without a pool the connection is
    dropped. *)
Definition conn_close (conn : Connection) : M unit :=
  match c_pool conn with
  | Some ac => if ac_pool ac then pool_close (set_c_pool None conn) else mret tt
  | None => mret tt
  end.
Definition conn_release (conn : Connection) : M unit :=
  match c_pool conn with
  | Some ac => if ac_pool ac then pool_release_conn (set_c_pool None conn) else mret tt
  | None => mret tt
  end.

(** Answers: a receiver that is gone drops what it is sent. *)
Definition send_ok (tx : nat) (conn : Connection) : M unit :=
  gone ← gets (fun s => bool_decide (tx ∈ sys_canceled s));
  if (gone : bool) then conn_drop conn
  else modify (fun s => mkSys (sys_cc s) (sys_event s) (sys_reads s) (sys_next s) (sys_canceled s) (sys_opening s)
         (sys_held s ++ [conn]) (sys_answers s ++ [(tx, None)])).
Definition send_err (tx : nat) (e : ClientConnectorError) : M unit :=
  modify (fun s => mkSys (sys_cc s) (sys_event s) (sys_reads s) (sys_next s) (sys_canceled s) (sys_opening s)
    (sys_held s) (sys_answers s ++ [(tx, Some e)])).

(** ** Acquiring *)
Inductive Acquire : Type := Acq_Acquired (conn : Connection) | Acq_Available | Acq_NotAvailable.

(** [check limits]. *)
Definition over_per_host (c : ClientConnector) (key : Key) : bool :=
  match cc_acquired_per_host c !! key with
  | Some per_host => per_host <=? cc_limit_per_host c
  | None => false
  end.
Definition over_limits (c : ClientConnector) (key : Key) : bool :=
  if 0 <? cc_limit c then
    if cc_limit c <=? cc_acquired c then true
    else if 0 <? cc_limit_per_host c then over_per_host c key else false
  else if 0 <? cc_limit_per_host c then over_per_host c key else false.

Definition reserve_key (key : Key) : M unit :=
  n ← gets (fun s => cc_acquired (sys_cc s));
  upd_acquired (n + 1) (fun m => <[key := default 0 (m !! key) + 1]> m).

Definition release_key (key : Key) : M unit :=
  n ← gets (fun s => cc_acquired (sys_cc s));
  n ← lift (if 0 <? n then Ret (n - 1) else Panic);
  upd_acquired n (fun m =>
    match m !! key with
    | None => m
    | Some per_host => if 1 <? per_host then <[key := per_host - 1]> m else delete key m
    end).

(** [(now - conn.0) > self.conn_keep_alive || (now - conn.1.ts) > self.conn_lifetime]. *)
Definition expired (c : ClientConnector) (now : Z) (conn : Conn) : run bool :=
  idle ← instant_sub now conn.1;
  if cc_conn_keep_alive c <? idle then Ret true
  else age ← instant_sub now (c_ts conn.2); Ret (cc_conn_lifetime c <? age).

(** The loop over the idle connections of a host, the last one first. *)
Fixpoint acquire_loop (key : Key) (now : Z) (rconns : list Conn) : M Acquire :=
  match rconns with
  | [] => _ ← upd_available (<[key := []]>); mret Acq_Available
  | (t, conn) :: rconns =>
      c ← gets sys_cc;
      old ← lift (expired c now (t, conn));
      if (old : bool) then
        _ ← upd_stats stat_closed;
        _ ← upd_to_close (fun l => l ++ [conn]);
        acquire_loop key now rconns
      else
        let '(r, stream) := stream_read (c_stream conn) in
        let conn := set_c_stream stream conn in
        match r with
        | Err e =>
            if decide (io_kind e = WouldBlock) then
              _ ← upd_available (<[key := rev rconns]>); mret (Acq_Acquired conn)
            else acquire_loop key now rconns
        | Ok n =>
            if 0 <? n then
              _ ← upd_stats stat_closed;
              _ ← upd_to_close (fun l => l ++ [conn]);
              acquire_loop key now rconns
            else acquire_loop key now rconns
        end
  end.

Definition acquire (key : Key) : M Acquire :=
  c ← gets sys_cc;
  if over_limits c key then mret Acq_NotAvailable
  else
    _ ← reserve_key key;
    (* check if open connection is available; cleanup stale connections at the same time *)
    match cc_available c !! key with
    | Some connections => now ← instant_now; acquire_loop key now (rev connections)
    | None => mret Acq_Available
    end.

(** ** Collecting *)
Fixpoint release_keys (keys : list Key) : M unit :=
  match keys with
  | [] => mret tt
  | key :: keys => _ ← release_key key; release_keys keys
  end.

Fixpoint collect_closed (conns : list Connection) : M unit :=
  match conns with
  | [] => mret tt
  | conn :: conns =>
      _ ← release_key (c_key conn);
      _ ← upd_to_close (fun l => l ++ [conn]);
      _ ← upd_stats stat_closed;
      collect_closed conns
  end.

(** Check connection lifetime and then return to the available pool. *)
Fixpoint collect_released (now : Z) (conns : list Connection) : M unit :=
  match conns with
  | [] => mret tt
  | conn :: conns =>
      _ ← release_key (c_key conn);
      age ← lift (instant_sub now (c_ts conn));
      lifetime ← gets (fun s => cc_conn_lifetime (sys_cc s));
      _ ← (if age <? lifetime then
             t ← instant_now;
             upd_available (fun m => <[c_key conn := default [] (m !! c_key conn) ++ [(t, conn)]]> m)
           else mret tt);
      collect_released now conns
  end.

(** The keep-alive check of one host, the oldest connection first. *)
Fixpoint keep_alive_loop (c : ClientConnector) (now : Z) (conns : list Conn) : run (list Connection * list Conn) :=
  match conns with
  | [] => Ret ([], [])
  | (t, conn) :: rest =>
      old ← (if (t <? now) && (cc_conn_keep_alive c <? now - t) then Ret true
             else age ← instant_sub now (c_ts conn); Ret (cc_conn_lifetime c <? age));
      if (old : bool) then '(closed, rest) ← keep_alive_loop c now rest; Ret (conn :: closed, rest)
      else Ret ([], conns)
  end.

Fixpoint collect_idle (now : Z) (keys : list Key) : M unit :=
  match keys with
  | [] => mret tt
  | key :: keys =>
      c ← gets sys_cc;
      '(closed, rest) ← lift (keep_alive_loop c now (default [] (cc_available c !! key)));
      _ ← upd_available (<[key := rest]>);
      _ ← upd_to_close (fun l => l ++ closed);
      _ ← upd_stats (fun st => Nat.iter (length closed) stat_closed st);
      collect_idle now keys
  end.

(** The connections that wait for their shutdown. *)
Fixpoint shutdown_loop (fuel : nat) (idx : nat) (l : list Connection) : run (list Connection) :=
  match fuel with
  | O => Timeout
  | Datatypes.S fuel =>
      match l !! idx with
      | None => Ret l
      | Some conn =>
          match stream_shutdown (c_stream conn) with
          | (NotReady, stream) => shutdown_loop fuel (idx + 1) (<[idx := set_c_stream stream conn]> l)
          | (_, _) => shutdown_loop fuel idx (swap_remove idx l)
          end
      end
  end.

Definition keys_of {A} (f : ClientConnector -> gmap Key A) : M (list Key) :=
  gets (fun s => order (sys_event s) (dom (f (sys_cc s)))).

(** What came back through the pool. *)
Definition collect_pool (now : Z) : M unit :=
  (* collect half acquire keys *)
  keys ← collect_keys;
  _ ← release_keys keys;
  (* collect connections for close *)
  to_close ← collect_close;
  _ ← collect_closed to_close;
  (* connection connections *)
  to_release ← collect_release;
  collect_released now to_release.

(** Check connections for shutdown. *)
Definition collect_shutdown : M unit :=
  l ← gets (fun s => cc_to_close (sys_cc s));
  l ← lift (shutdown_loop (Datatypes.S (length l)) 0 l);
  upd_to_close (fun _ => l).

Definition collect (periodic : bool) : M unit :=
  now ← instant_now;
  modified ← gets (fun s => p_modified (cc_pool (sys_cc s)));
  _ ← (if (modified : bool) then collect_pool now else mret tt);
  (* check keep-alive *)
  keys ← keys_of cc_available;
  _ ← collect_idle now keys;
  _ ← (if periodic then collect_shutdown else mret tt);
  upd_pool (fun p => mkPool (p_keys p) (p_to_close p) (p_to_release p) (p_task p) (p_notified p) false).

Definition collect_periodic : M unit :=
  _ ← collect true;
  (* send stats *)
  with_cc (fun c => mkCC stats_default (option_map (fun l => l ++ [cc_stats c]) (cc_subscriber c)) (cc_pool c)
    (cc_conn_lifetime c) (cc_conn_keep_alive c) (cc_limit c) (cc_limit_per_host c) (cc_acquired c)
    (cc_acquired_per_host c) (cc_available c) (cc_to_close c) (cc_waiters c) (cc_wait_timeout c) (cc_paused c)).

(** ** Waiting *)
Definition install_wait_timeout (time : Z) : M unit :=
  wait ← gets (fun s => cc_wait_timeout (sys_cc s));
  if (match wait with Some t => t <? time | None => false end) then mret tt
  else
    now ← instant_now;
    _ ← lift (instant_sub time now);
    set_wait_timeout (Some time).

Definition wait_for (tx : nat) (key : Key) (wait conn_timeout : Z) : M unit :=
  (* connection is not available, wait *)
  now ← instant_now;
  let wait := now + wait in
  _ ← install_wait_timeout wait;
  upd_waiters (fun m => <[key := default [] (m !! key) ++ [mkWaiter tx wait conn_timeout]]> m).

(** The waiters of one host whose time is over; the earliest time of the others. *)
Fixpoint expire_loop (fuel : nat) (now : Z) (idx : nat) (next : option Z) (ws : list Waiter)
  : M (list Waiter * option Z) :=
  match fuel with
  | O => lift Timeout
  | Datatypes.S fuel =>
      match ws !! idx with
      | None => mret (ws, next)
      | Some w =>
          if w_wait w <=? now then
            _ ← upd_stats stat_timeouts;
            _ ← send_err (w_tx w) CCE_Timeout;
            expire_loop fuel now idx next (swap_remove idx ws)
          else
            expire_loop fuel now (idx + 1)
              (match next with Some n => if w_wait w <? n then Some (w_wait w) else Some n | None => Some (w_wait w) end) ws
      end
  end.

Fixpoint expire_keys (now : Z) (next : option Z) (keys : list Key) : M (option Z) :=
  match keys with
  | [] => mret next
  | key :: keys =>
      ws ← gets (fun s => default [] (cc_waiters (sys_cc s) !! key));
      '(ws, next) ← expire_loop (Datatypes.S (length ws)) now 0 next ws;
      _ ← upd_waiters (<[key := ws]>);
      expire_keys now next keys
  end.

Definition collect_waiters : M unit :=
  now ← instant_now;
  keys ← keys_of cc_waiters;
  next ← expire_keys now None keys;
  match next with Some time => install_wait_timeout time | None => mret tt end.

(** ** Messages *)
Definition handle_pause (time : option Z) : M unit :=
  match time with
  | Some time => now ← instant_now; set_paused (Some (Some (now + time)))
  | None =>
      paused ← gets (fun s => cc_paused (sys_cc s));
      match paused with None => set_paused (Some None) | Some _ => mret tt end
  end.
Definition handle_resume : M unit := set_paused None.

(** [Connection::new]. *)
Definition Connection_new (key : Key) (pool : option AcquiredConn) (stream : S) : M Connection :=
  now ← instant_now; mret (mkConn key stream pool now).

Definition connect_key (msg : Connect) : ClientConnectorError + (Protocol * Key) :=
  match uri_host (co_uri msg) with
  (* host name is required *)
  | None => inl CCE_InvalidUrl
  | Some host =>
      (* supported protocols *)
      match uri_scheme (co_uri msg) with
      | Some scheme =>
          match Protocol_from scheme with
          | Some proto =>
              (* check ssl availability *)
              if proto_is_secure proto && negb has_ssl then inl CCE_SslIsNotSupported
              else inr (proto, mkKey host (default (proto_port proto) (uri_port (co_uri msg))) (proto_is_secure proto))
          | None => inl CCE_InvalidUrl
          end
      | None => inl CCE_InvalidUrl
      end
  end.

(** [Handler<Connect>]; the answer goes to [tx]. *)
Definition handle_connect (tx : nat) (msg : Connect) : M unit :=
  modified ← gets (fun s => p_modified (cc_pool (sys_cc s)));
  _ ← (if (modified : bool) then collect false else mret tt);
  match connect_key msg with
  | inl e => send_err tx e
  | inr (proto, key) =>
      (* check if pool has task reference *)
      _ ← upd_pool (fun p => mkPool (p_keys p) (p_to_close p) (p_to_release p) true (p_notified p) (p_modified p));
      paused ← gets (fun s => cc_paused (sys_cc s));
      match paused with
      (* check pause state *)
      | Some _ =>
          _ ← wait_for tx key (co_wait_timeout msg) (co_conn_timeout msg);
          upd_stats stat_waits
      | None =>
          (* acquire connection *)
          if proto_is_http proto then
            a ← acquire key;
            match a with
            | Acq_Acquired conn =>
                (* use existing connection *)
                let conn := set_c_pool (Some (mkAC key true)) conn in
                _ ← upd_stats stat_reused;
                send_ok tx conn
            | Acq_NotAvailable =>
                (* connection is not available, wait *)
                _ ← wait_for tx key (co_wait_timeout msg) (co_conn_timeout msg);
                upd_stats stat_waits
            | Acq_Available => push_opening (mkOpening (mkAC key true) (To_request tx proto) false)
            end
          else push_opening (mkOpening (mkAC key false) (To_request tx proto) false)
      end
  end.

(** The continuation of an attempt, with the answer of the resolver; [None] when its
    mailbox is closed. *)
Definition opened (o : Opening) (res : option (result S ConnectorError)) : M unit :=
  let ac := op_conn o in
  match op_dest o with
  | To_request tx proto =>
      match res with
      | None => _ ← ac_drop ac; send_err tx CCE_Disconnected
      | Some (Err err) =>
          _ ← upd_stats stat_opened;
          _ ← ac_drop ac;
          send_err tx (ClientConnectorError_from err)
      | Some (Ok stream) =>
          _ ← upd_stats stat_opened;
          if proto_is_secure proto then
            if has_ssl then push_opening (mkOpening ac (op_dest o) true)
            else _ ← ac_drop ac; send_err tx CCE_SslIsNotSupported
          else conn ← Connection_new (ac_key ac) (Some ac) stream; send_ok tx conn
      end
  | To_waiter w =>
      match res with
      (* the waiter's sender is dropped *)
      | None => _ ← ac_drop ac; send_err (w_tx w) CCE_Disconnected
      | Some (Err err) =>
          _ ← upd_stats stat_errors;
          _ ← ac_drop ac;
          send_err (w_tx w) (ClientConnectorError_from err)
      | Some (Ok stream) =>
          _ ← upd_stats stat_opened;
          if key_ssl (ac_key ac) then
            if has_ssl then push_opening (mkOpening ac (op_dest o) true)
            else _ ← ac_drop ac; send_err (w_tx w) CCE_SslIsNotSupported
          else conn ← Connection_new (ac_key ac) (Some ac) stream; send_ok (w_tx w) conn
      end
  end.

(** The end of a TLS handshake; [None] when it failed. *)
Definition dest_tx (d : Dest) : nat := match d with To_request tx _ => tx | To_waiter w => w_tx w end.
Definition handshaken (o : Opening) (res : option S) : M unit :=
  match res with
  | Some stream => conn ← Connection_new (ac_key (op_conn o)) (Some (op_conn o)) stream; send_ok (dest_tx (op_dest o)) conn
  | None => _ ← ac_drop (op_conn o); send_err (dest_tx (op_dest o)) CCE_SslError
  end.

(** ** Maintenance *)

(** The waiters of one host. *)
Fixpoint serve (key : Key) (ws : list Waiter) : M (list Waiter) :=
  match ws with
  | [] => mret []
  | w :: ws =>
      gone ← gets (fun s => bool_decide (w_tx w ∈ sys_canceled s));
      if (gone : bool) then serve key ws
      else
        a ← acquire key;
        match a with
        | Acq_Acquired conn =>
            (* use existing connection *)
            _ ← upd_stats stat_reused;
            _ ← send_ok (w_tx w) (set_c_pool (Some (mkAC key true)) conn);
            serve key ws
        | Acq_NotAvailable => mret (w :: ws)
        | Acq_Available =>
            _ ← push_opening (mkOpening (mkAC key true) (To_waiter w) false);
            serve key ws
        end
  end.

Fixpoint serve_keys (keys : list Key) : M unit :=
  match keys with
  | [] => mret tt
  | key :: keys =>
      ws ← gets (fun s => default [] (cc_waiters (sys_cc s) !! key));
      ws ← serve key ws;
      _ ← upd_waiters (<[key := ws]>);
      serve_keys keys
  end.

(** [Maintenance::poll]. *)
Definition maintenance : M unit :=
  (* check pause duration *)
  paused ← gets (fun s => cc_paused (sys_cc s));
  _ ← match paused with
      | Some (Some pause) => now ← instant_now; if pause <=? now then set_paused None else mret tt
      | _ => mret tt
      end;
  (* collect connections *)
  modified ← gets (fun s => p_modified (cc_pool (sys_cc s)));
  _ ← (if (modified : bool) then collect false else mret tt);
  (* collect wait timers *)
  _ ← collect_waiters;
  (* check waiters *)
  keys ← keys_of cc_waiters;
  serve_keys keys.

(** ** Events

    What happens to the actor, one event after the other: messages, the ends of its
    attempts, what users do with the connections they hold, receivers that go away, the
    polls of [Maintenance] and the periodic collection. *)
Inductive Event : Type :=
| Ev_connect (msg : Connect)
| Ev_pause (time : option Z)
| Ev_resume
| Ev_opened (i : nat) (res : option (result S ConnectorError))
| Ev_handshaken (i : nat) (res : option S)
| Ev_close (i : nat)
| Ev_release (i : nat)
| Ev_drop (i : nat)
| Ev_cancel (tx : nat)
| Ev_poll
| Ev_periodic.

Definition take_opening (i : nat) : M (option Opening) := fun s =>
  Ret (sys_opening s !! i,
       mkSys (sys_cc s) (sys_event s) (sys_reads s) (sys_next s) (sys_canceled s) (delete i (sys_opening s)) (sys_held s)
         (sys_answers s)).
Definition take_held (i : nat) : M (option Connection) := fun s =>
  Ret (sys_held s !! i,
       mkSys (sys_cc s) (sys_event s) (sys_reads s) (sys_next s) (sys_canceled s) (sys_opening s) (delete i (sys_held s))
         (sys_answers s)).
Definition fresh_tx : M nat := fun s =>
  Ret (sys_next s,
       mkSys (sys_cc s) (sys_event s) (sys_reads s) (sys_next s + 1) (sys_canceled s) (sys_opening s) (sys_held s)
         (sys_answers s)).

Definition sys_handle (ev : Event) : M unit :=
  match ev with
  | Ev_connect msg => tx ← fresh_tx; handle_connect tx msg
  | Ev_pause time => handle_pause time
  | Ev_resume => handle_resume
  | Ev_opened i res =>
      o ← take_opening i;
      match o with
      | Some o => if op_tls o then push_opening o else opened o res
      | None => mret tt
      end
  | Ev_handshaken i res =>
      o ← take_opening i;
      match o with
      | Some o => if op_tls o then handshaken o res else push_opening o
      | None => mret tt
      end
  | Ev_close i => c ← take_held i; match c with Some c => conn_close c | None => mret tt end
  | Ev_release i => c ← take_held i; match c with Some c => conn_release c | None => mret tt end
  | Ev_drop i => c ← take_held i; match c with Some c => conn_drop c | None => mret tt end
  | Ev_cancel tx =>
      modify (fun s => mkSys (sys_cc s) (sys_event s) (sys_reads s) (sys_next s) ({[tx]} ∪ sys_canceled s)
        (sys_opening s) (sys_held s) (sys_answers s))
  | Ev_poll => maintenance
  | Ev_periodic => collect_periodic
  end.

Definition sys_step (ev : Event) (s : Sys) : run Sys :=
  '(_, s) ← sys_handle ev (mkSys (sys_cc s) (sys_event s + 1) 0 (sys_next s) (sys_canceled s) (sys_opening s)
                             (sys_held s) (sys_answers s));
  Ret s.
Fixpoint sys_run (evs : list Event) (s : Sys) : run Sys :=
  match evs with
  | [] => Ret s
  | ev :: evs => s ← sys_step ev s; sys_run evs s
  end.

End Connector.
