(* ===== verification/ConnectorWorld.v ===== *)
(** * What the connector leaves alone (src/src/client/connector.rs)

    The connector's code is followed from the state before to the state after by
    relations.  Most of it is [calm]: it changes nothing around the actor.  When only http
    and https connections are asked for, every connection in use and every attempt under
    way has a ticket. *)
From S2P Require Import Prelude StrLib Errors Connector.
Open Scope Z_scope.

Section World.
Context {S : Type} (stream_read : S -> result Z IoError * S) (stream_shutdown : S -> poll unit IoError * S).
Context (clock : nat -> nat -> Z) (order : nat -> gset Key -> list Key) (has_ssl : bool).
Notation Connection := (Connection (S := S)).
Notation Sys := (Sys (S := S)).
Notation M := (M (S := S)).

(** ** Code that keeps to a relation *)
Section Leads.
Context (R : Sys -> Sys -> Prop) `{HR : !PreOrder R}.
Definition leads {A} (m : M A) : Prop := forall s a s', m s = Ret (a, s') -> R s s'.

Lemma leads_bind {A B} (f : A -> M B) (m : M A) :
  leads m -> (forall a, leads (f a)) -> leads (@mbind M M_bind A B f m).
Proof.
  intros Hm Hf s b s'. unfold mbind, M_bind. destruct (m s) as [[a s1]| |] eqn:Hs; [|done..]. cbn [mbind run_bind].
  intros Hb. etrans; [by eapply Hm|by eapply Hf].
Qed.
Lemma leads_ret {A} (a : A) : leads (@mret M M_ret A a).
Proof. by intros s b s' [= _ <-]. Qed.
Lemma leads_gets {A} (f : Sys -> A) : leads (gets f).
Proof. by intros s b s' [= _ <-]. Qed.
Lemma leads_lift {A} (m : run A) : leads (lift m).
Proof. intros s a s'. unfold lift. destruct m as [b| |]; [|done..]. by intros [= _ <-]. Qed.
Lemma leads_modify f : (forall s, R s (f s)) -> leads (modify f).
Proof. intros Hf s a s' [= _ <-]. apply Hf. Qed.
Lemma leads_mono {A} (R' : Sys -> Sys -> Prop) (m : M A) :
  (forall s s', R' s s' -> R s s') -> (forall s a s', m s = Ret (a, s') -> R' s s') -> leads m.
Proof. intros HR' Hm s a s' Hs. by eapply HR', Hm. Qed.
End Leads.

Create HintDb leads.
Ltac leads :=
  repeat first
    [ progress intros
    | solve [eauto with leads]
    | apply leads_bind; [tc_solve| |]
    | apply leads_ret; tc_solve
    | apply leads_gets; tc_solve
    | apply leads_lift; tc_solve
    | case_match ].

(** ** Nothing around the actor changes, nor do its waiters *)
Definition calm (s s' : Sys) : Prop :=
  sys_held s' = sys_held s /\ sys_opening s' = sys_opening s /\ sys_answers s' = sys_answers s /\
  sys_canceled s' = sys_canceled s /\ sys_event s' = sys_event s /\
  cc_waiters (sys_cc s') = cc_waiters (sys_cc s).
#[local] Instance calm_preorder : PreOrder calm.
Proof.
  split; [by repeat split|]. intros s1 s2 s3 H1 H2. unfold calm in *. destruct_and!. split_and!; congruence.
Qed.
Notation calmly := (leads calm).

Ltac calm_modify := apply leads_modify; by repeat split.
Lemma calm_stats f : calmly (upd_stats f). Proof. calm_modify. Qed.
Lemma calm_pool f : calmly (upd_pool f). Proof. calm_modify. Qed.
Lemma calm_acquired n f : calmly (upd_acquired n f). Proof. calm_modify. Qed.
Lemma calm_available f : calmly (upd_available f). Proof. calm_modify. Qed.
Lemma calm_to_close f : calmly (upd_to_close f). Proof. calm_modify. Qed.
Lemma calm_wait_timeout t : calmly (set_wait_timeout t). Proof. calm_modify. Qed.
Lemma calm_paused p : calmly (set_paused p). Proof. calm_modify. Qed.
Lemma calm_now : calmly (instant_now clock). Proof. by intros s a s' [= _ <-]. Qed.
#[local] Hint Resolve calm_stats calm_pool calm_acquired calm_available calm_to_close calm_wait_timeout calm_paused calm_now : leads.

Lemma calm_reserve key : calmly (reserve_key key). Proof. unfold reserve_key. leads. Qed.
Lemma calm_release key : calmly (release_key key). Proof. unfold release_key. leads. Qed.
#[local] Hint Resolve calm_reserve calm_release : leads.
Lemma calm_acquire_loop key now rconns : calmly (acquire_loop stream_read key now rconns).
Proof. induction rconns as [|[t conn] rconns IH]; cbn [acquire_loop]; leads. Qed.
#[local] Hint Resolve calm_acquire_loop : leads.
Lemma calm_acquire key : calmly (acquire stream_read clock key). Proof. unfold acquire. leads. Qed.
Lemma calm_release_keys keys : calmly (release_keys keys).
Proof. induction keys as [|k keys IH]; cbn [release_keys]; leads. Qed.
Lemma calm_closed conns : calmly (collect_closed conns).
Proof. induction conns as [|c conns IH]; cbn [collect_closed]; leads. Qed.
Lemma calm_released now conns : calmly (collect_released clock now conns).
Proof. induction conns as [|c conns IH]; cbn [collect_released]; leads. Qed.
Lemma calm_idle now keys : calmly (collect_idle now keys).
Proof. induction keys as [|k keys IH]; cbn [collect_idle]; leads. Qed.
#[local] Hint Resolve calm_acquire calm_release_keys calm_closed calm_released calm_idle : leads.
Lemma calm_collect periodic : calmly (collect stream_shutdown clock order periodic).
Proof. unfold collect, collect_pool, collect_keys, collect_close, collect_release, collect_shutdown, keys_of. leads. Qed.
Lemma calm_pause paused :
  calmly match paused with
         | Some (Some pause) => @mbind M M_bind _ _ (fun now => if pause <=? now then set_paused None else @mret M M_ret _ tt) (instant_now clock)
         | _ => @mret M M_ret _ tt
         end.
Proof. leads. Qed.
Lemma calm_install time : calmly (install_wait_timeout clock time).
Proof. unfold install_wait_timeout. leads. Qed.
Lemma calm_ac_drop ac : calmly (ac_drop ac).
Proof. unfold ac_drop, pool_release_key. leads. Qed.
Lemma calm_conn_drop c : calmly (conn_drop c).
Proof. unfold conn_drop. pose proof calm_ac_drop. leads. Qed.
#[local] Hint Resolve calm_collect calm_install calm_ac_drop calm_conn_drop : leads.

(** ** Tickets of http connections *)
Definition has_ticket (c : Connection) : Prop := exists ac, c_pool c = Some ac /\ ac_pool ac = true.
Definition ticketed (s : Sys) : Prop :=
  Forall has_ticket (sys_held s) /\ Forall (fun o => ac_pool (op_conn o) = true) (sys_opening s).
Definition stays_ticketed (s s' : Sys) : Prop := ticketed s -> ticketed s'.
#[local] Instance stays_ticketed_preorder : PreOrder stays_ticketed.
Proof. split; [by intros s ?|]. intros s1 s2 s3 H1 H2 H. auto. Qed.
Notation keeps := (leads stays_ticketed).

Lemma keeps_calm {A} (m : M A) : calmly m -> keeps m.
Proof.
  intros Hm s a s' Hs [H1 H2]. destruct (Hm _ _ _ Hs) as (Hh & Ho & _). split; [by rewrite Hh|by rewrite Ho].
Qed.
#[local] Hint Resolve keeps_calm : leads.
Ltac keeps_modify := apply leads_modify; by intros s [? ?].
Lemma keeps_waiters f : keeps (upd_waiters f). Proof. keeps_modify. Qed.
Lemma keeps_err tx e : keeps (send_err tx e). Proof. keeps_modify. Qed.
Lemma keeps_opening o : ac_pool (op_conn o) = true -> keeps (push_opening o).
Proof. intros Ho. apply leads_modify. intros s [? ?]. split; [done|]. apply Forall_app. by repeat constructor. Qed.
Lemma keeps_ok tx c : has_ticket c -> keeps (send_ok tx c).
Proof.
  intros Hc. unfold send_ok. apply leads_bind; [tc_solve|by apply leads_gets, _|]. intros [].
  - apply keeps_calm, calm_conn_drop.
  - apply leads_modify. intros s [? ?]. split; [|done]. apply Forall_app. by repeat constructor.
Qed.
Lemma ticket_set key (c : Connection) : has_ticket (set_c_pool (Some (mkAC key true)) c).
Proof. by eexists. Qed.
Lemma ticket_new key ac t (stream : S) : ac_pool ac = true -> has_ticket (mkConn key stream (Some ac) t).
Proof. by eexists. Qed.
#[local] Hint Resolve keeps_waiters keeps_err keeps_opening keeps_ok ticket_set ticket_new : leads.

Lemma keeps_serve key ws : keeps (serve stream_read clock key ws).
Proof. induction ws as [|w ws IH]; cbn [serve]; leads. Qed.
Lemma keeps_expire_loop fuel now idx next ws : keeps (expire_loop fuel now idx next ws).
Proof. revert idx next ws. induction fuel as [|fuel IH]; intros idx next ws; cbn [expire_loop]; leads. Qed.
#[local] Hint Resolve keeps_serve keeps_expire_loop : leads.
Lemma keeps_serve_keys keys : keeps (serve_keys stream_read clock keys).
Proof. induction keys as [|k keys IH]; cbn [serve_keys]; leads. Qed.
Lemma keeps_expire_keys now next keys : keeps (expire_keys now next keys).
Proof. revert next. induction keys as [|k keys IH]; intros next; cbn [expire_keys]; leads. Qed.
#[local] Hint Resolve keeps_serve_keys keeps_expire_keys : leads.
Lemma keeps_maintenance : keeps (maintenance stream_read stream_shutdown clock order).
Proof. unfold maintenance, collect_waiters, keys_of. leads. Qed.
Lemma keeps_new_conn tx ac (stream : S) : ac_pool ac = true ->
  keeps (@mbind M M_bind _ _ (fun conn => send_ok tx conn) (Connection_new clock (ac_key ac) (Some ac) stream)).
Proof.
  intros Hac. unfold Connection_new. intros s a s'. unfold mbind at 1, M_bind at 1. cbn. intros Hs.
  assert (stays_ticketed s (mkSys (sys_cc s) (sys_event s) (sys_reads s + 1) (sys_next s) (sys_canceled s) (sys_opening s)
    (sys_held s) (sys_answers s))) as H1 by by intros [? ?].
  etrans; [exact H1|]. eapply keeps_ok; [|exact Hs]. by apply ticket_new.
Qed.
#[local] Hint Resolve keeps_maintenance keeps_new_conn : leads.
Lemma keeps_opened o res : ac_pool (op_conn o) = true -> keeps (opened clock has_ssl o res).
Proof. intros Ho. unfold opened. leads. Qed.
Lemma keeps_handshaken o res : ac_pool (op_conn o) = true -> keeps (handshaken clock o res).
Proof. intros Ho. unfold handshaken. leads. Qed.

(** Only http and https are asked for. *)
Definition http_event (ev : Event (S := S)) : Prop :=
  match ev with
  | Ev_connect msg => match connect_key has_ssl msg with inr (proto, _) => proto_is_http proto = true | inl _ => True end
  | _ => True
  end.

Lemma keeps_connect tx msg :
  http_event (Ev_connect msg) -> keeps (handle_connect stream_read stream_shutdown clock order has_ssl tx msg).
Proof.
  cbn [http_event]. intros Hp. unfold handle_connect, wait_for. leads.
Qed.
Lemma keeps_handle ev :
  http_event ev -> keeps (sys_handle stream_read stream_shutdown clock order has_ssl ev).
Proof.
  intros Hev. destruct ev as [msg|time| |i res|i res|i|i|i|tx| |]; cbn [sys_handle].
  - apply leads_bind; [tc_solve|by intros s a s' [= _ <-] [? ?]|]. intros tx. by apply keeps_connect.
  - unfold handle_pause. leads.
  - unfold handle_resume. leads.
  - intros s a s'. unfold mbind, M_bind, take_opening. cbn [mbind run_bind]. intros Hs [Hh Ho]. revert Hs.
    destruct (sys_opening s !! i) as [o|] eqn:Hi; [|by intros [= _ <-]; split; [|apply Forall_delete]].
    pose proof (Forall_lookup_1 _ _ _ _ Ho Hi) as Hac. cbn in Hac. destruct (op_tls o).
    + intros Hs. eapply keeps_opening; [exact Hac|exact Hs|]. by split; [|apply Forall_delete].
    + intros Hs. eapply keeps_opened; [exact Hac|exact Hs|]. by split; [|apply Forall_delete].
  - intros s a s'. unfold mbind, M_bind, take_opening. cbn [mbind run_bind]. intros Hs [Hh Ho]. revert Hs.
    destruct (sys_opening s !! i) as [o|] eqn:Hi; [|by intros [= _ <-]; split; [|apply Forall_delete]].
    pose proof (Forall_lookup_1 _ _ _ _ Ho Hi) as Hac. cbn in Hac. destruct (op_tls o).
    + intros Hs. eapply keeps_handshaken; [exact Hac|exact Hs|]. by split; [|apply Forall_delete].
    + intros Hs. eapply keeps_opening; [exact Hac|exact Hs|]. by split; [|apply Forall_delete].
  - apply leads_bind; [tc_solve|intros s a s' [= _ <-] [? ?]; by split; [apply Forall_delete|]|].
    unfold conn_close, pool_close. leads.
  - apply leads_bind; [tc_solve|intros s a s' [= _ <-] [? ?]; by split; [apply Forall_delete|]|].
    unfold conn_release, pool_release_conn. leads.
  - apply leads_bind; [tc_solve|intros s a s' [= _ <-] [? ?]; by split; [apply Forall_delete|]|]. leads.
  - keeps_modify.
  - apply keeps_maintenance.
  - unfold collect_periodic. apply leads_bind; [tc_solve|leads|]. intros []. keeps_modify.
Qed.

Lemma sys_run_ticketed evs s s' :
  Forall http_event evs -> sys_run stream_read stream_shutdown clock order has_ssl evs s = Ret s' -> ticketed s -> ticketed s'.
Proof.
  intros Hevs. revert s. induction Hevs as [|ev evs Hev _ IH]; intros s; cbn [sys_run]; [by intros [= <-]|].
  unfold sys_step. match goal with |- context [sys_handle _ _ _ _ _ ev ?s0] => set (s1 := s0) end.
  destruct (sys_handle _ _ _ _ _ ev s1) as [[[] s2]| |] eqn:Hs; [|done..]. cbn [mbind run_bind].
  intros Hr Ht. eapply IH; [exact Hr|]. eapply keeps_handle; [exact Hev|exact Hs|]. exact Ht.
Qed.

(** ** Waiters *)
Definition waiters_of (s : Sys) (k : Key) : list Waiter := default [] (cc_waiters (sys_cc s) !! k).
Lemma waiters_of_insert k ws s k' :
  waiters_of (set_cc (mkCC (cc_stats (sys_cc s)) (cc_subscriber (sys_cc s)) (cc_pool (sys_cc s)) (cc_conn_lifetime (sys_cc s))
    (cc_conn_keep_alive (sys_cc s)) (cc_limit (sys_cc s)) (cc_limit_per_host (sys_cc s)) (cc_acquired (sys_cc s))
    (cc_acquired_per_host (sys_cc s)) (cc_available (sys_cc s)) (cc_to_close (sys_cc s)) (<[k := ws]> (cc_waiters (sys_cc s)))
    (cc_wait_timeout (sys_cc s)) (cc_paused (sys_cc s))) s) k' = if decide (k' = k) then ws else waiters_of s k'.
Proof.
  unfold waiters_of. simpl. destruct (decide (k' = k)) as [->|Hne].
  - by rewrite lookup_insert, decide_True.
  - by rewrite lookup_insert_ne.
Qed.

(** A waiter was seen to: it went away, it was sent a connection, or one is opened for it. *)
Definition served (s : Sys) (w : Waiter) : Prop :=
  w_tx w ∈ sys_canceled s \/ (w_tx w, None) ∈ sys_answers s \/
  exists o, o ∈ sys_opening s /\ op_dest o = To_waiter w.
(** More is answered and under way, to the same receivers. *)
Definition grown (s s' : Sys) : Prop :=
  sys_canceled s' = sys_canceled s /\ sys_answers s ⊆ sys_answers s' /\ sys_opening s ⊆ sys_opening s' /\
  cc_waiters (sys_cc s') = cc_waiters (sys_cc s).
#[local] Instance grown_preorder : PreOrder grown.
Proof.
  split; [by repeat split|]. intros s1 s2 s3 (? & ? & ? & ?) (? & ? & ? & ?). split_and!; [congruence|set_solver|set_solver|congruence].
Qed.
Notation grows := (leads grown).
Lemma grows_calm {A} (m : M A) : calmly m -> grows m.
Proof. intros Hm s a s' Hs. destruct (Hm _ _ _ Hs) as (_ & Ho & Ha & Hc & _ & Hw). unfold grown. by rewrite Ho, Ha. Qed.
Lemma grows_err tx e : grows (send_err tx e).
Proof. apply leads_modify. intros s. split_and!; [done|simpl; set_solver|done|done]. Qed.
Lemma grows_opening o : grows (push_opening o).
Proof. apply leads_modify. intros s. split_and!; [done|done|simpl; set_solver|done]. Qed.
Lemma grows_ok tx c : grows (send_ok tx c).
Proof.
  unfold send_ok. apply leads_bind; [tc_solve|by apply leads_gets, _|]. intros []; [apply grows_calm, calm_conn_drop|].
  apply leads_modify. intros s. split_and!; [done|simpl; set_solver|done|done].
Qed.
#[local] Hint Resolve grows_calm grows_err grows_opening grows_ok : leads.
Lemma grows_serve key ws : grows (serve stream_read clock key ws).
Proof. induction ws as [|w ws IH]; cbn [serve]; leads. Qed.
Lemma grows_expire_loop fuel now idx next ws : grows (expire_loop fuel now idx next ws).
Proof. revert idx next ws. induction fuel as [|fuel IH]; intros idx next ws; cbn [expire_loop]; leads. Qed.
Lemma served_grown s s' w : grown s s' -> served s w -> served s' w.
Proof. intros (Hc & Ha & Ho & _) [Hw|[Hw|(o & Hw & Hd)]]; unfold served; rewrite Hc; [by left|right; left; set_solver|right; right; set_solver]. Qed.

Lemma send_ok_answers tx c (s : Sys) :
  tx ∉ sys_canceled s -> exists s', send_ok tx c s = Ret (tt, s') /\ (tx, None) ∈ sys_answers s'.
Proof.
  intros Hc. unfold send_ok, mbind, M_bind, gets. cbn [mbind run_bind]. rewrite bool_decide_false by done.
  eexists. split; [done|]. simpl. set_solver.
Qed.

(** The queue of a host is served from its front. *)
Lemma serve_served key ws s left s' :
  serve stream_read clock key ws s = Ret (left, s') -> exists pre, ws = pre ++ left /\ Forall (served s') pre.
Proof.
  revert s. induction ws as [|w ws IH]; intros s; cbn [serve]; [intros [= <- <-]; by exists []|].
  assert (forall s1, served s1 w -> serve stream_read clock key ws s1 = Ret (left, s') ->
    exists pre, w :: ws = pre ++ left /\ Forall (served s') pre) as Hrec.
  { intros s1 Hw Hr. destruct (IH _ Hr) as (pre & -> & Hf). exists (w :: pre). split; [done|]. constructor; [|done].
    eapply served_grown; [|exact Hw]. by eapply grows_serve. }
  unfold mbind at 1, M_bind at 1. cbn [gets mbind run_bind]. case_bool_decide as Hgone.
  { apply Hrec. by left. }
  unfold mbind at 1, M_bind at 1. destruct (acquire stream_read clock key s) as [[a s1]| |] eqn:Ha; [|done..].
  destruct (calm_acquire _ _ _ _ Ha) as (_ & _ & _ & Hc & _). cbn [mbind run_bind]. destruct a as [conn| |].
  - unfold mbind at 1, M_bind at 1, upd_stats, with_cc, modify. cbn [mbind run_bind].
    unfold mbind at 1, M_bind at 1. match goal with |- context [send_ok ?tx ?c ?s0] => destruct (send_ok_answers tx c s0) as (s2 & -> & Hw) end.
    { simpl. by rewrite Hc. }
    cbn [mbind run_bind]. apply Hrec. by right; left.
  - unfold mbind at 1, M_bind at 1, push_opening, modify. cbn [mbind run_bind]. apply Hrec. right. right.
    eexists. split; [simpl; apply elem_of_app; right; by left|done].
  - intros [= <- <-]. by exists [].
Qed.

Lemma serve_keys_served keys s u s' :
  serve_keys stream_read clock keys s = Ret (u, s') ->
  forall k, exists pre, waiters_of s k = pre ++ waiters_of s' k /\ Forall (served s') pre.
Proof.
  enough (serve_keys stream_read clock keys s = Ret (u, s') ->
    (forall w, served s w -> served s' w) /\ forall k, exists pre, waiters_of s k = pre ++ waiters_of s' k /\ Forall (served s') pre)
    by naive_solver.
  revert s. induction keys as [|key keys IH]; intros s; cbn [serve_keys].
  { intros [= <- <-]. split; [done|]. intros k. by exists []. }
  unfold mbind at 1, M_bind at 1. cbn [gets mbind run_bind]. unfold mbind at 1, M_bind at 1.
  destruct (serve stream_read clock key _ s) as [[left s1]| |] eqn:Hs; [|done..]. cbn [mbind run_bind].
  destruct (serve_served _ _ _ _ _ Hs) as (pre & Hpre & Hf). pose proof (grows_serve _ _ _ _ _ Hs) as Hg.
  unfold mbind at 1, M_bind at 1, upd_waiters, with_cc, modify. cbn [mbind run_bind].
  match goal with |- context [serve_keys _ _ keys ?s0] => set (s2 := s0) end. intros Hr.
  destruct (IH s2 Hr) as [Hmono Hk]. assert (forall w, served s1 w -> served s' w) as Hmono1 by (intros w Hw; by apply Hmono).
  split; [intros w Hw; apply Hmono1; by eapply served_grown|]. intros k. destruct (Hk k) as (pre2 & Hk2 & Hf2).
  unfold s2 in Hk2. rewrite waiters_of_insert in Hk2. destruct (decide (k = key)) as [->|Hne].
  - exists (pre ++ pre2). rewrite <-app_assoc, <-Hk2. split; [exact Hpre|]. apply Forall_app. split; [|done].
    eapply Forall_impl; [exact Hf|]. exact Hmono1.
  - exists pre2. split; [|done]. rewrite <-Hk2. unfold waiters_of. by destruct Hg as (_ & _ & _ & ->).
Qed.

(** Those whose time is over leave the queue; the others may change places. *)
Notation in_time now := (fun w => now < w_wait w).
Lemma expire_loop_perm fuel now idx next ws (s : Sys) ws' next' (s' : Sys) :
  Forall (in_time now) (take idx ws) -> expire_loop fuel now idx next ws s = Ret (ws', next', s') ->
  ws' ≡ₚ filter (in_time now) ws.
Proof.
  revert idx next ws s. induction fuel as [|fuel IH]; intros idx next ws s Hf; cbn [expire_loop]; [done|].
  destruct (ws !! idx) as [w|] eqn:Hw.
  - destruct (Z.leb_spec (w_wait w) now) as [Hle|Hlt].
    + unfold mbind, M_bind, upd_stats, send_err, with_cc, modify. cbn [mbind run_bind]. intros Hr. apply IH in Hr.
      * rewrite Hr. pose proof (swap_remove_perm idx ws w Hw) as Hp. set (l := swap_remove idx ws) in *.
        rewrite Hp, filter_cons_False by lia. done.
      * pose proof (lookup_lt_Some _ _ _ Hw) as Hlt. unfold swap_remove.
        destruct (last ws) as [z|] eqn:Hz; [|done]. rewrite take_take, take_insert_ge by lia.
        by rewrite Nat.min_l by lia.
    + intros Hr. eapply IH, Hr. rewrite Nat.add_1_r, (take_S_r _ _ _ Hw). apply Forall_app. by repeat constructor.
  - intros [= <- _ _]. apply lookup_ge_None in Hw. rewrite take_ge in Hf by done.
    clear -Hf. induction Hf as [|w ws Hw Hf IH]; [done|]. by rewrite filter_cons_True, <-IH.
Qed.

Lemma expire_keys_perm now next keys (s : Sys) next' (s' : Sys) :
  expire_keys now next keys s = Ret (next', s') ->
  forall k, waiters_of s' k ≡ₚ if decide (k ∈ keys) then filter (in_time now) (waiters_of s k) else waiters_of s k.
Proof.
  revert next s. induction keys as [|key keys IH]; intros next s; cbn [expire_keys].
  { intros [= <- <-] k. by destruct (decide (k ∈ [])) as [Hk%elem_of_nil|]. }
  unfold mbind at 1, M_bind at 1. cbn [gets mbind run_bind]. unfold mbind at 1, M_bind at 1.
  destruct (expire_loop _ now 0 next _ s) as [[[ws nx] s1]| |] eqn:Hs; [|done..]. cbn [mbind run_bind].
  apply expire_loop_perm in Hs as Hp; [|done]. pose proof (grows_expire_loop _ _ _ _ _ _ _ _ Hs) as (_ & _ & _ & Hw).
  unfold mbind at 1, M_bind at 1, upd_waiters, with_cc, modify. cbn [mbind run_bind].
  match goal with |- context [expire_keys _ _ keys ?s0] => set (s2 := s0) end. intros Hr k. rewrite (IH _ _ Hr k).
  assert (waiters_of s1 k = waiters_of s k) as Hk by (unfold waiters_of; by rewrite Hw).
  unfold s2. rewrite waiters_of_insert, Hk. destruct (decide (k = key)) as [->|Hne].
  - rewrite (decide_True (P := key ∈ key :: keys)) by set_solver. fold (waiters_of s key) in Hp. destruct (decide (key ∈ keys)); [|done].
    rewrite Hp, list_filter_filter. apply reflexive_eq, list_filter_iff. tauto.
  - by rewrite (decide_ext (k ∈ keys) (k ∈ key :: keys)) by set_solver.
Qed.

Lemma collect_waiters_perm s s' :
  (forall e X k, k ∈ X -> k ∈ order e X) -> collect_waiters clock order s = Ret (tt, s') ->
  exists r, forall k, waiters_of s' k ≡ₚ filter (in_time (clock (sys_event s) r)) (waiters_of s k).
Proof.
  intros Hord. unfold collect_waiters, mbind at 1, M_bind at 1, instant_now. cbn [mbind run_bind].
  unfold mbind at 1, M_bind at 1, keys_of, gets. cbn [mbind run_bind sys_event sys_cc].
  unfold mbind at 1, M_bind at 1. match goal with |- context [expire_keys ?n ?x ?ks ?s0] => set (keys := ks); set (s1 := s0) end.
  destruct (expire_keys _ _ keys s1) as [[next s2]| |] eqn:Hs; [|done..]. cbn [mbind run_bind]. intros Hr.
  exists (sys_reads s). intros k. assert (waiters_of s' k = waiters_of s2 k) as ->.
  { unfold waiters_of. destruct next as [time|]; [|by injection Hr as <-].
    by destruct (calm_install _ _ _ _ Hr) as (_ & _ & _ & _ & _ & ->). }
  rewrite (expire_keys_perm _ _ _ _ _ _ Hs k). change (waiters_of s1 k) with (waiters_of s k).
  destruct (decide (k ∈ keys)) as [|Hk]; [done|]. assert (waiters_of s k = []) as ->; [|done].
  unfold waiters_of. destruct (cc_waiters (sys_cc s) !! k) as [l|] eqn:Hl; [|done].
  destruct Hk. apply Hord, elem_of_dom. by eexists.
Qed.
End World.
