(* ===== verification/ConnectorFacts.v ===== *)
(** * The connection pool keeps its books

    The counters of [ClientConnector] are those of the tickets that are out: held by
    users, by attempts under way, or on their way back through the pool.  Hence the
    limit on connections holds, no subtraction goes below zero, and no time is taken
    from an earlier one. *)
From S2P Require Import Prelude StrLib Errors Connector ConnectorWorld.
Open Scope Z_scope.

(** ** Counting keys *)
Definition keycount (k : Key) (l : list Key) : Z := lenZ (filter (eq k) l).

Lemma keycount_cons k k' l : keycount k (k' :: l) = (if decide (k = k') then 1 else 0) + keycount k l.
Proof. unfold keycount. rewrite filter_cons. destruct (decide (k = k')); rewrite ?lenZ_cons; lia. Qed.
Lemma keycount_app k l l' : keycount k (l ++ l') = keycount k l + keycount k l'.
Proof. unfold keycount. by rewrite filter_app, lenZ_app. Qed.
Lemma keycount_nonneg k l : 0 <= keycount k l.
Proof. apply lenZ_nonneg. Qed.
Lemma keycount_perm k l l' : l ≡ₚ l' -> keycount k l = keycount k l'.
Proof. intros Hp. unfold keycount, lenZ. by rewrite Hp. Qed.
Lemma keycount_le k l : keycount k l <= lenZ l.
Proof. unfold keycount, lenZ. pose proof (length_filter (eq k) l). lia. Qed.

Lemma delete_out {A} i (l : list A) : l !! i = None -> delete i l = l.
Proof.
  intros Hl%lookup_ge_None. rewrite delete_take_drop, take_ge, drop_ge by lia. apply app_nil_r.
Qed.

Section Facts.
Context {S : Type} (stream_read : S -> result Z IoError * S) (stream_shutdown : S -> poll unit IoError * S).
Context (clock : nat -> nat -> Z) (order : nat -> gset Key -> list Key) (has_ssl : bool).
Notation Connection := (Connection (S := S)).
Notation Sys := (Sys (S := S)).
Notation ClientConnector := (ClientConnector (S := S)).
Notation Pool := (Pool (S := S)).
Notation M := (M (S := S)).

(** The limits that the builder has set. *)
Context (limit0 host0 : Z).

(** Readings of the clock do not go back. *)
Definition monotone : Prop := forall e r, clock e r <= clock e (r + 1) /\ clock e r <= clock (e + 1) 0.
(** The clock moves during the event [e]. *)
Definition moving (e : nat) : Prop := exists r, clock e r <> clock e 0.
Hypothesis Hmono : monotone.

Ltac msimpl :=
  cbv [mbind M_bind mret M_ret gets lift modify with_cc run_bind run_ret]; cbn [sys_cc set_cc].

(** ** The books *)
Definition acct (c : ClientConnector) (l : list Key) : Prop :=
  cc_acquired c = lenZ l /\
  forall k, cc_acquired_per_host c !! k = if keycount k l =? 0 then None else Some (keycount k l).

Lemma acct_perm c l l' : l ≡ₚ l' -> acct c l -> acct c l'.
Proof.
  intros Hp [Hn Hk]. split; [unfold lenZ in *; by rewrite <-Hp|]. intros k. by rewrite Hk, (keycount_perm _ _ _ Hp).
Qed.

Definition ac_ticket (ac : AcquiredConn) : list Key := if ac_pool ac then [ac_key ac] else [].
Definition conn_ticket (c : Connection) : list Key := match c_pool c with Some ac => ac_ticket ac | None => [] end.
Definition tickets (s : Sys) : list Key :=
  concat (map conn_ticket (sys_held s)) ++ concat (map (fun o => ac_ticket (op_conn o)) (sys_opening s)).
Definition returning (p : Pool) : list Key := p_keys p ++ map c_key (p_to_close p) ++ map c_key (p_to_release p).

(** ** Times *)
Definition sys_now (s : Sys) : Z := clock (sys_event s) (sys_reads s).
Definition back (T : Z) (c : Connection) : Prop := c_pool c = None /\ c_ts c <= T.
Definition idle_ok (T now : Z) (k : Key) (c : Conn (S := S)) : Prop :=
  c_key c.2 = k /\ back T c.2 /\ c.1 <= now.
Definition in_use (T : Z) (c : Connection) : Prop :=
  c_ts c <= T /\ forall ac, c_pool c = Some ac -> ac_key ac = c_key c.

(** [x] are tickets that the code at hand has taken; connections are not younger than
    [T]. *)
Record inv (x : list Key) (T : Z) (s : Sys) : Prop := {
  inv_acct : acct (sys_cc s) (x ++ tickets s ++ returning (cc_pool (sys_cc s)));
  inv_time : T <= sys_now s;
  inv_idle : forall k l, cc_available (sys_cc s) !! k = Some l -> Forall (idle_ok T (sys_now s) k) l;
  inv_back : Forall (back T) (p_to_close (cc_pool (sys_cc s)) ++ p_to_release (cc_pool (sys_cc s)));
  inv_held : Forall (in_use T) (sys_held s);
  inv_modified : p_modified (cc_pool (sys_cc s)) = false -> returning (cc_pool (sys_cc s)) = [];
  inv_limit : 0 < cc_limit (sys_cc s) -> cc_acquired (sys_cc s) <= cc_limit (sys_cc s);
  inv_host k n : 0 < cc_limit_per_host (sys_cc s) -> cc_acquired_per_host (sys_cc s) !! k = Some n -> n <= 1;
  inv_settings : cc_limit (sys_cc s) = limit0 /\ cc_limit_per_host (sys_cc s) = host0;
}.

Lemma sys_now_mono s : sys_now s <= clock (sys_event s) (sys_reads s + 1).
Proof. apply Hmono. Qed.

(** A reading of the clock. *)
Lemma inv_later x T s s' :
  inv x T s -> sys_cc s' = sys_cc s -> sys_opening s' = sys_opening s -> sys_held s' = sys_held s ->
  sys_now s <= sys_now s' -> inv x T s'.
Proof.
  intros [Ha Ht Hi Hb Hh Hm Hl Hp Hset] Hc Ho He Hn. split; rewrite ?Hc; try done.
  - unfold tickets. by rewrite Ho, He.
  - lia.
  - intros k l Hkl. eapply Forall_impl; [by apply Hi|]. intros c (? & ? & ?). split_and!; try done. lia.
  - by rewrite He.
Qed.
Lemma inv_weaken x T T' s : inv x T s -> T <= T' -> T' <= sys_now s -> inv x T' s.
Proof.
  intros [Ha Ht Hi Hb Hh Hm Hl Hp Hset] HT HT'. split; try done.
  - intros k l Hkl. eapply Forall_impl; [by apply Hi|]. intros c (? & [? ?] & ?). split_and!; try done. split; [done|lia].
  - eapply Forall_impl; [done|]. intros c [? ?]. split; [done|lia].
  - eapply Forall_impl; [done|]. intros c [? ?]. split; [lia|done].
Qed.

(** Changes that do not touch the books. *)
Definition same_books (c c' : ClientConnector) : Prop :=
  cc_acquired c' = cc_acquired c /\ cc_acquired_per_host c' = cc_acquired_per_host c /\ cc_pool c' = cc_pool c /\
  cc_available c' = cc_available c /\ cc_limit c' = cc_limit c /\ cc_limit_per_host c' = cc_limit_per_host c.

Lemma inv_cc x T s c' : inv x T s -> same_books (sys_cc s) c' -> inv x T (set_cc c' s).
Proof.
  intros [Ha Ht Hi Hb Hh Hm Hl Hp Hset] (H1 & H2 & H3 & H4 & H5 & H6).
  split; simpl; unfold acct in *; rewrite ?H1, ?H2, ?H3, ?H4, ?H5, ?H6; try done.
Qed.

(** The idle connections of a host change. *)
Lemma inv_available x T s c' k l :
  inv x T s -> cc_available c' = <[k := l]> (cc_available (sys_cc s)) -> Forall (idle_ok T (sys_now s) k) l ->
  cc_acquired c' = cc_acquired (sys_cc s) -> cc_acquired_per_host c' = cc_acquired_per_host (sys_cc s) ->
  cc_pool c' = cc_pool (sys_cc s) -> cc_limit c' = cc_limit (sys_cc s) ->
  cc_limit_per_host c' = cc_limit_per_host (sys_cc s) -> inv x T (set_cc c' s).
Proof.
  intros [Ha Ht Hi Hb Hh Hm Hl Hp Hset] H4 Hf H1 H2 H3 H5 H6.
  split; simpl; unfold acct in *; rewrite ?H1, ?H2, ?H3, ?H4, ?H5, ?H6; try done.
  intros k' l'. destruct (decide (k = k')) as [<-|Hne].
  - rewrite lookup_insert, decide_True by done. by intros [= <-].
  - rewrite lookup_insert_ne by done. apply Hi.
Qed.

(** Code that keeps to the books: the waiters, the settings and the world stay. *)
Definition quiet (s s' : Sys) : Prop :=
  sys_event s' = sys_event s /\ sys_next s' = sys_next s /\ sys_canceled s' = sys_canceled s /\
  sys_opening s' = sys_opening s /\ sys_held s' = sys_held s /\ sys_answers s' = sys_answers s /\
  cc_waiters (sys_cc s') = cc_waiters (sys_cc s) /\ cc_paused (sys_cc s') = cc_paused (sys_cc s) /\
  cc_wait_timeout (sys_cc s') = cc_wait_timeout (sys_cc s) /\
  cc_limit (sys_cc s') = cc_limit (sys_cc s) /\ cc_limit_per_host (sys_cc s') = cc_limit_per_host (sys_cc s) /\
  cc_conn_keep_alive (sys_cc s') = cc_conn_keep_alive (sys_cc s) /\
  cc_conn_lifetime (sys_cc s') = cc_conn_lifetime (sys_cc s).
#[local] Instance quiet_preorder : PreOrder quiet.
Proof.
  split; [by repeat split|]. intros s1 s2 s3 H1 H2. unfold quiet in *.
  destruct_and!. split_and!; congruence.
Qed.

Lemma bind_ret {A B} (f : A -> M B) (m : M A) s a s' :
  m s = Ret (a, s') -> (@mbind M M_bind A B f m) s = f a s'.
Proof. intros Hm. unfold mbind, M_bind. by rewrite Hm. Qed.

Lemma instant_now_inv x T s :
  inv x T s -> exists s', instant_now clock s = Ret (sys_now s, s') /\ inv x T s' /\ T <= sys_now s <= sys_now s' /\
    sys_cc s' = sys_cc s /\ quiet s s'.
Proof.
  intros Hs. eexists. split; [done|]. pose proof (sys_now_mono s) as Hn. pose proof (inv_time _ _ _ Hs).
  split; [by eapply inv_later|]. split_and!; done.
Qed.

(** ** Reserving and releasing *)
Lemma reserve_key_inv k x T s :
  inv x T s -> over_limits (sys_cc s) k = false ->
  exists s', reserve_key k s = Ret (tt, s') /\ inv (k :: x) T s' /\ sys_now s' = sys_now s /\
    cc_available (sys_cc s') = cc_available (sys_cc s) /\ quiet s s'.
Proof.
  intros [[Hn Hk] Ht Hi Hb Hh Hm Hl Hp Hset] Hov. eexists. split; [done|]. split; [|done].
  set (l := x ++ _) in *. assert (keycount k l = default 0 (cc_acquired_per_host (sys_cc s) !! k)) as Hkc.
  { rewrite Hk. destruct (Z.eqb_spec (keycount k l) 0); done. }
  split; simpl; try done.
  - match goal with |- acct ?c _ => change (acct c (k :: l)) end. split; simpl; [rewrite lenZ_cons; lia|].
    intros k'. rewrite keycount_cons. pose proof (keycount_nonneg k' l). destruct (decide (k' = k)) as [->|Hne].
    + rewrite lookup_insert, decide_True by done. rewrite <-Hkc.
      destruct (Z.eqb_spec (1 + keycount k l) 0); [lia|]. f_equal. lia.
    + rewrite lookup_insert_ne by done. by rewrite Hk.
  - unfold over_limits in Hov. intros Hpos. rewrite (proj2 (Z.ltb_lt _ _)) in Hov by done.
    destruct (Z.leb_spec (cc_limit (sys_cc s)) (cc_acquired (sys_cc s))); [done|]. lia.
  - intros k' n Hpos. destruct (decide (k' = k)) as [->|Hne]; [|rewrite lookup_insert_ne by done; by apply Hp].
    rewrite lookup_insert, decide_True by done. intros [= <-].
    assert (over_per_host (sys_cc s) k = false) as Ho.
    { unfold over_limits in Hov. rewrite (proj2 (Z.ltb_lt 0 (cc_limit_per_host _))) in Hov by done.
      repeat case_match; done. }
    unfold over_per_host in Ho. destruct (cc_acquired_per_host (sys_cc s) !! k) as [n|] eqn:Hn0; simpl; [|lia].
    pose proof (Hp k n Hpos Hn0). lia.
Qed.

Lemma release_key_inv k x T s :
  inv (k :: x) T s ->
  exists s', release_key k s = Ret (tt, s') /\ inv x T s' /\ sys_now s' = sys_now s /\
    cc_available (sys_cc s') = cc_available (sys_cc s) /\ cc_pool (sys_cc s') = cc_pool (sys_cc s) /\ quiet s s'.
Proof.
  intros [[Hn Hk] Ht Hi Hb Hh Hm Hl Hp Hset]. unfold release_key. msimpl.
  set (l := x ++ tickets s ++ returning (cc_pool (sys_cc s))).
  change ((k :: x) ++ tickets s ++ returning (cc_pool (sys_cc s))) with (k :: l) in *.
  rewrite lenZ_cons in Hn. pose proof (lenZ_nonneg l). rewrite (proj2 (Z.ltb_lt _ _)) by lia. msimpl.
  eexists. split; [done|]. split; [|done].
  assert (cc_acquired_per_host (sys_cc s) !! k = Some (1 + keycount k l)) as Hkc.
  { rewrite Hk, keycount_cons, decide_True by done. pose proof (keycount_nonneg k l).
    destruct (Z.eqb_spec (1 + keycount k l) 0); [lia|done]. }
  split; simpl; try done; rewrite ?Hkc.
  - match goal with |- acct ?c _ => change (acct c l) end. split; simpl; [lia|]. intros k'. pose proof (keycount_nonneg k l).
    destruct (decide (k' = k)) as [->|Hne].
    + destruct (Z.ltb_spec 1 (1 + keycount k l)).
      * rewrite lookup_insert, decide_True by done. destruct (Z.eqb_spec (keycount k l) 0); [lia|]. f_equal. lia.
      * rewrite lookup_delete_eq. destruct (Z.eqb_spec (keycount k l) 0); [done|lia].
    + assert (cc_acquired_per_host (sys_cc s) !! k' = if keycount k' l =? 0 then None else Some (keycount k' l)) as Hk'.
      { rewrite Hk, keycount_cons, decide_False by done. done. }
      destruct (_ <? _); [rewrite lookup_insert_ne by done|rewrite lookup_delete_ne by done]; done.
  - intros Hpos. specialize (Hl Hpos). lia.
  - intros k' n Hpos Hl'. destruct (decide (k' = k)) as [->|Hne].
    + pose proof (Hp k _ Hpos Hkc). destruct (_ <? _) eqn:Hlt; [lia|]. by rewrite lookup_delete_eq in Hl'.
    + destruct (_ <? _); [rewrite lookup_insert_ne in Hl' by done|rewrite lookup_delete_ne in Hl' by done]; by eapply Hp.
Qed.

(** ** Acquiring *)

(** A connection that may be used again: idle for no longer than the keep-alive time, no
    older than its lifetime, and with nothing to read. *)
Definition reusable (c : ClientConnector) (now : Z) (conns : list (Conn (S := S))) (conn : Connection) : Prop :=
  exists t conn0 stream e, (t, conn0) ∈ conns /\ now - t <= cc_conn_keep_alive c /\
    now - c_ts conn0 <= cc_conn_lifetime c /\ stream_read (c_stream conn0) = (Err e, stream) /\
    io_kind e = WouldBlock /\ conn = set_c_stream stream conn0.

Lemma reusable_cons c c' now x conns conn :
  cc_conn_keep_alive c' = cc_conn_keep_alive c -> cc_conn_lifetime c' = cc_conn_lifetime c ->
  reusable c' now conns conn -> reusable c now (x :: conns) conn.
Proof.
  intros Hk Hl (t & conn0 & stream & e & Hin & H1 & H2 & H3). exists t, conn0, stream, e.
  rewrite <-Hk, <-Hl. split; [by right|done].
Qed.

Lemma expired_ok c now T conn k :
  idle_ok T now k conn -> T <= now ->
  exists b, expired c now conn = Ret b /\
    (b = false -> now - conn.1 <= cc_conn_keep_alive c /\ now - c_ts conn.2 <= cc_conn_lifetime c).
Proof.
  intros (_ & [_ Hts] & Ht) HT. unfold expired, instant_sub. rewrite (proj2 (Z.leb_le conn.1 now)) by done. cbn [mbind run_bind].
  destruct (Z.ltb_spec (cc_conn_keep_alive c) (now - conn.1)); [by exists true|].
  rewrite (proj2 (Z.leb_le _ _)) by lia. cbn [mbind run_bind]. eexists. split; [done|]. lia.
Qed.

Lemma acquire_loop_inv key now rconns x T s :
  inv x T s -> T <= now <= sys_now s -> Forall (idle_ok T now key) rconns ->
  exists a s', acquire_loop stream_read key now rconns s = Ret (a, s') /\ inv x T s' /\ sys_now s' = sys_now s /\
    quiet s s' /\ cc_acquired (sys_cc s') = cc_acquired (sys_cc s) /\
    match a with
    | Acq_Acquired conn => c_key conn = key /\ back T conn /\ reusable (sys_cc s) now rconns conn
    | Acq_Available => True
    | Acq_NotAvailable => False
    end.
Proof.
  intros Hs Hnow Hf. revert s Hs Hnow. induction Hf as [|[t conn] rconns Hc Hf IH]; intros s Hs Hnow.
  { cbn [acquire_loop]. eexists _, _. split; [done|]. split; [by eapply (inv_available _ _ _ _ key [])|].
    split_and!; done. }
  cbn [acquire_loop]. destruct (expired_ok (sys_cc s) now T (t, conn) key Hc ltac:(lia)) as (b & Hb & Hfresh).
  msimpl. rewrite Hb.
  assert (forall st, exists a s', acquire_loop stream_read key now rconns
      (set_cc (mkCC (stat_closed (cc_stats (sys_cc s))) (cc_subscriber (sys_cc s)) (cc_pool (sys_cc s))
         (cc_conn_lifetime (sys_cc s)) (cc_conn_keep_alive (sys_cc s)) (cc_limit (sys_cc s)) (cc_limit_per_host (sys_cc s))
         (cc_acquired (sys_cc s)) (cc_acquired_per_host (sys_cc s)) (cc_available (sys_cc s)) (cc_to_close (sys_cc s) ++ [st])
         (cc_waiters (sys_cc s)) (cc_wait_timeout (sys_cc s)) (cc_paused (sys_cc s))) s) = Ret (a, s') /\
    inv x T s' /\ sys_now s' = sys_now s /\ quiet s s' /\ cc_acquired (sys_cc s') = cc_acquired (sys_cc s) /\
    match a with
    | Acq_Acquired conn' => c_key conn' = key /\ back T conn' /\ reusable (sys_cc s) now ((t, conn) :: rconns) conn'
    | Acq_Available => True
    | Acq_NotAvailable => False
    end) as Hclosed.
  { intros st. match goal with |- context [acquire_loop _ _ _ _ ?s0] => set (s1 := s0) end.
    destruct (IH s1) as (a & s' & Hr & Hi & Hn & Hq & Ha & Hm); [by apply inv_cc|done|].
    exists a, s'. split_and!; [done..| | |].
    - etrans; [|exact Hq]. done.
    - done.
    - destruct a; [|done..]. destruct Hm as (? & ? & Hre). split_and!; [done..|]. by eapply reusable_cons. }
  assert (exists a s', acquire_loop stream_read key now rconns s = Ret (a, s') /\
    inv x T s' /\ sys_now s' = sys_now s /\ quiet s s' /\ cc_acquired (sys_cc s') = cc_acquired (sys_cc s) /\
    match a with
    | Acq_Acquired conn' => c_key conn' = key /\ back T conn' /\ reusable (sys_cc s) now ((t, conn) :: rconns) conn'
    | Acq_Available => True
    | Acq_NotAvailable => False
    end) as Hdropped.
  { destruct (IH s Hs Hnow) as (a & s' & Hr & Hi & Hn & Hq & Ha & Hm). exists a, s'. split_and!; [done..|].
    destruct a; [|done..]. destruct Hm as (? & ? & Hre). split_and!; [done..|]. by eapply reusable_cons. }
  destruct b; [apply Hclosed|]. specialize (Hfresh eq_refl). simpl in Hfresh.
  destruct (stream_read (c_stream conn)) as [[n|e] stream] eqn:Hr.
  - destruct (0 <? n); [apply Hclosed|apply Hdropped].
  - destruct (decide (io_kind e = WouldBlock)) as [Hw|]; [|apply Hdropped].
    destruct Hc as (Hk & Hb0 & Ht). eexists _, _. split; [done|].
    split. { eapply (inv_available _ _ _ _ key (rev rconns)); try done.
      apply Forall_rev. eapply Forall_impl; [done|]. intros c (? & ? & ?). split_and!; try done. lia. }
    split_and!; [done..| | |]; [done|done|]. exists t, conn, stream, e. split_and!; try done; [by left|lia|lia].
Qed.

Lemma acquire_inv key x T s :
  inv x T s -> T = sys_now s ->
  exists a s', acquire stream_read clock key s = Ret (a, s') /\ quiet s s' /\ T <= sys_now s' /\
    match a with
    | Acq_Acquired conn => inv (key :: x) T s' /\ over_limits (sys_cc s) key = false /\ c_key conn = key /\
        c_pool conn = None /\ c_ts conn <= T /\
        reusable (sys_cc s) T (default [] (cc_available (sys_cc s) !! key)) conn
    | Acq_Available => inv (key :: x) T s' /\ over_limits (sys_cc s) key = false
    | Acq_NotAvailable => s' = s /\ over_limits (sys_cc s) key = true
    end.
Proof.
  intros Hs HT. unfold acquire. msimpl. destruct (over_limits (sys_cc s) key) eqn:Hov.
  { eexists _, _. split; [done|]. split_and!; [done|lia|done|done]. }
  destruct (reserve_key_inv key x T s Hs Hov) as (s1 & -> & Hs1 & Hn1 & Hav1 & Hq1).
  destruct (cc_available (sys_cc s) !! key) as [conns|] eqn:Hl.
  2: { eexists _, _. split; [done|]. split_and!; [done|lia|done|done]. }
  destruct (instant_now_inv _ _ _ Hs1) as (s2 & -> & Hs2 & Hn2 & Hcc2 & Hq2).
  destruct (acquire_loop_inv key (sys_now s1) (rev conns) (key :: x) T s2 Hs2 ltac:(lia)) as
    (a & s' & Hr & Hi & Hn & Hq & Ha & Hm).
  { apply Forall_rev. rewrite Hn1. by apply (inv_idle _ _ _ Hs). }
  exists a, s'. split; [done|]. split; [by rewrite Hq1, Hq2|]. split; [lia|].
  destruct a as [conn| |]; [|done..]. destruct Hm as (Hk & [Hp Hts] & t & conn0 & stream & e & Hin & H1 & H2 & H3).
  split_and!; try done. exists t, conn0, stream, e. rewrite Hcc2 in H1, H2.
  destruct Hq1 as (_ & _ & _ & _ & _ & _ & _ & _ & _ & _ & _ & Hka & Hlt). rewrite <-Hka, <-Hlt.
  rewrite HT, <-Hn1. split; [|done]. simpl. by rewrite list_elem_of_In, <-in_rev, <-list_elem_of_In in Hin.
Qed.

(** ** Collecting *)

(** The pool changes, and the tickets in it go to the code at hand. *)
Lemma inv_pool x x' T s c' :
  inv x T s -> x ++ returning (cc_pool (sys_cc s)) ≡ₚ x' ++ returning (cc_pool c') ->
  cc_acquired c' = cc_acquired (sys_cc s) -> cc_acquired_per_host c' = cc_acquired_per_host (sys_cc s) ->
  cc_available c' = cc_available (sys_cc s) -> cc_limit c' = cc_limit (sys_cc s) ->
  cc_limit_per_host c' = cc_limit_per_host (sys_cc s) ->
  Forall (back T) (p_to_close (cc_pool c') ++ p_to_release (cc_pool c')) ->
  (p_modified (cc_pool c') = false -> returning (cc_pool c') = []) -> inv x' T (set_cc c' s).
Proof.
  intros [Ha Ht Hi Hb Hh Hm Hl Hp Hset] Hperm H1 H2 H4 H5 H6 Hb' Hm'.
  split; simpl; rewrite ?H4, ?H5, ?H6, ?H1, ?H2; try done.
  apply (acct_perm _ (x ++ tickets s ++ returning (cc_pool (sys_cc s)))).
  - change (tickets (set_cc c' s)) with (tickets s).
    rewrite (Permutation_app_comm (tickets s) (returning (cc_pool (sys_cc s)))).
    rewrite (Permutation_app_comm (tickets s) (returning (cc_pool c'))).
    by rewrite !app_assoc, Hperm.
  - destruct Ha as [Hn Hk]. split; [by rewrite H1|]. intros k. by rewrite H2.
Qed.

Definition pool_conns_ok (T : Z) (s : Sys) : Prop :=
  Forall (back T) (p_to_close (cc_pool (sys_cc s))) /\ Forall (back T) (p_to_release (cc_pool (sys_cc s))).
Lemma inv_pool_conns x T s : inv x T s -> pool_conns_ok T s.
Proof. intros Hs. pose proof (inv_back _ _ _ Hs) as Hb. by rewrite Forall_app in Hb. Qed.

Lemma collect_keys_inv x T s :
  inv x T s ->
  exists keys s', collect_keys s = Ret (keys, s') /\ inv (keys ++ x) T s' /\ sys_now s' = sys_now s /\ quiet s s' /\
    p_keys (cc_pool (sys_cc s')) = [].
Proof.
  intros Hs. destruct (inv_pool_conns _ _ _ Hs) as [Hc Hr]. eexists _, _. split; [done|]. split; [|split_and!; done].
  eapply (inv_pool x); try done; simpl.
  - unfold returning. simpl. rewrite <-!app_assoc. apply Permutation_app_swap_app.
  - by apply Forall_app.
  - intros Hm. pose proof (inv_modified _ _ _ Hs Hm) as Hret. unfold returning in *. simpl.
    by apply app_eq_nil in Hret as [_ ?].
Qed.

Lemma collect_close_inv x T s :
  inv x T s ->
  exists conns s', collect_close s = Ret (conns, s') /\ inv (map c_key conns ++ x) T s' /\ sys_now s' = sys_now s /\
    quiet s s' /\ p_keys (cc_pool (sys_cc s')) = p_keys (cc_pool (sys_cc s)) /\ p_to_close (cc_pool (sys_cc s')) = [].
Proof.
  intros Hs. destruct (inv_pool_conns _ _ _ Hs) as [Hc Hr]. eexists _, _. split; [done|]. split; [|split_and!; done].
  eapply (inv_pool x); try done; simpl.
  - unfold returning. simpl. solve_Permutation.
  - intros Hm. pose proof (inv_modified _ _ _ Hs Hm) as Hret. unfold returning in *. simpl.
    apply app_eq_nil in Hret as [-> Hret]. by apply app_eq_nil in Hret as [_ ?].
Qed.

Lemma collect_release_inv x T s :
  inv x T s ->
  exists conns s', collect_release s = Ret (conns, s') /\ inv (map c_key conns ++ x) T s' /\ sys_now s' = sys_now s /\
    Forall (back T) conns /\ quiet s s' /\ p_keys (cc_pool (sys_cc s')) = p_keys (cc_pool (sys_cc s)) /\
    p_to_close (cc_pool (sys_cc s')) = p_to_close (cc_pool (sys_cc s)) /\ p_to_release (cc_pool (sys_cc s')) = [].
Proof.
  intros Hs. destruct (inv_pool_conns _ _ _ Hs) as [Hc Hr]. eexists _, _. split; [done|]. split; [|split_and!; done].
  eapply (inv_pool x); try done; simpl.
  - unfold returning. simpl. solve_Permutation.
  - by rewrite app_nil_r.
  - intros Hm. pose proof (inv_modified _ _ _ Hs Hm) as Hret. unfold returning in *. simpl.
    apply app_eq_nil in Hret as [-> Hret]. apply app_eq_nil in Hret as [-> _]. done.
Qed.

Lemma release_keys_inv keys x T s :
  inv (keys ++ x) T s ->
  exists s', release_keys keys s = Ret (tt, s') /\ inv x T s' /\ sys_now s' = sys_now s /\
    cc_pool (sys_cc s') = cc_pool (sys_cc s) /\ quiet s s'.
Proof.
  revert s. induction keys as [|k keys IH]; intros s Hs; cbn [release_keys].
  { eexists. split; [done|]. split_and!; done. }
  destruct (release_key_inv k (keys ++ x) T s Hs) as (s1 & Hr & Hs1 & Hn1 & _ & Hp1 & Hq1).
  rewrite (bind_ret _ _ _ _ _ Hr). destruct (IH s1 Hs1) as (s' & -> & Hs' & Hn' & Hp' & Hq').
  eexists. split; [done|]. split_and!; [done|lia|congruence|by etrans].
Qed.

Lemma collect_closed_inv conns x T s :
  inv (map c_key conns ++ x) T s ->
  exists s', collect_closed conns s = Ret (tt, s') /\ inv x T s' /\ sys_now s' = sys_now s /\
    cc_pool (sys_cc s') = cc_pool (sys_cc s) /\ quiet s s'.
Proof.
  revert s. induction conns as [|c conns IH]; intros s Hs; cbn [collect_closed].
  { eexists. split; [done|]. split_and!; done. }
  destruct (release_key_inv (c_key c) (map c_key conns ++ x) T s Hs) as (s1 & Hr & Hs1 & Hn1 & _ & Hp1 & Hq1).
  rewrite (bind_ret _ _ _ _ _ Hr). msimpl. unfold upd_to_close, upd_stats. msimpl.
  match goal with |- context [collect_closed conns ?s0] => set (s2 := s0) end.
  destruct (IH s2) as (s' & -> & Hs' & Hn' & Hp' & Hq'); [by do 2 (apply inv_cc; [|done])|].
  eexists. split; [done|]. split_and!; [done|by rewrite <-Hn1| |].
  - rewrite Hp'. exact Hp1.
  - etrans; [exact Hq1|]. etrans; [|exact Hq']. done.
Qed.

Lemma collect_released_inv now conns x T s :
  inv (map c_key conns ++ x) T s -> Forall (back T) conns -> T <= now <= sys_now s ->
  exists s', collect_released clock now conns s = Ret (tt, s') /\ inv x T s' /\ sys_now s <= sys_now s' /\
    cc_pool (sys_cc s') = cc_pool (sys_cc s) /\ quiet s s'.
Proof.
  intros Hs Hf Hnow. revert s Hs Hnow. induction Hf as [|c conns [Hpc Hts] Hf IH]; intros s Hs Hnow; cbn [collect_released].
  { eexists. split; [done|]. split_and!; done. }
  destruct (release_key_inv (c_key c) (map c_key conns ++ x) T s Hs) as (s1 & Hr & Hs1 & Hn1 & _ & Hp1 & Hq1).
  rewrite (bind_ret _ _ _ _ _ Hr). unfold instant_sub. msimpl. rewrite (proj2 (Z.leb_le _ _)) by lia.
  destruct (_ <? _).
  - destruct (instant_now_inv _ _ _ Hs1) as (s2 & -> & Hs2 & Hn2 & Hcc2 & Hq2). unfold upd_available. msimpl.
    match goal with |- context [collect_released _ _ conns ?s0] => set (s3 := s0) end.
    destruct (IH s3) as (s' & -> & Hs' & Hn' & Hp' & Hq').
    + eapply (inv_available _ _ _ _ (c_key c)); try done. apply Forall_app. split.
      * destruct (cc_available (sys_cc s2) !! c_key c) as [l|] eqn:Hl; [|done]. by apply (inv_idle _ _ _ Hs2).
      * apply Forall_singleton. split_and!; simpl; [done|done|lia].
    + change (sys_now s3) with (sys_now s2). lia.
    + eexists. split; [done|]. change (sys_now s3) with (sys_now s2) in Hn'. split_and!; [done|lia| |].
      * rewrite Hp'. simpl. by rewrite Hcc2.
      * etrans; [exact Hq1|]. etrans; [exact Hq2|]. etrans; [|exact Hq']. done.
  - destruct (IH s1) as (s' & -> & Hs' & Hn' & Hp' & Hq'); [done|lia|].
    eexists. split; [done|]. split_and!; [done|lia|congruence|by etrans].
Qed.

Lemma keep_alive_loop_ok c now T conns :
  Forall (fun x => back T x.2) conns -> T <= now ->
  exists closed rest, keep_alive_loop c now conns = Ret (closed, rest) /\ rest `suffix_of` conns.
Proof.
  intros Hf HT. induction Hf as [|[t conn] conns [Hp Hts] Hf IH]; cbn [keep_alive_loop].
  { eexists _, _. split; [done|]. done. }
  destruct IH as (closed & rest & Hl & Hsuf). rewrite Hl.
  assert (exists b : bool, (if (t <? now) && (cc_conn_keep_alive c <? now - t) then Ret true
    else age ← instant_sub now (c_ts conn); Ret (cc_conn_lifetime c <? age)) = Ret b) as [b ->].
  { destruct (_ && _); [by eexists|]. unfold instant_sub. rewrite (proj2 (Z.leb_le _ _)) by (simpl in Hts; lia).
    by eexists. }
  cbn [mbind run_bind]. destruct b; cbn [mbind run_bind]; eexists _, _; (split; [done|]).
  - by apply suffix_cons_r.
  - done.
Qed.

Lemma collect_idle_inv now keys x T s :
  inv x T s -> T <= now ->
  exists s', collect_idle now keys s = Ret (tt, s') /\ inv x T s' /\ sys_now s' = sys_now s /\
    cc_pool (sys_cc s') = cc_pool (sys_cc s) /\ quiet s s'.
Proof.
  intros Hs HT. revert s Hs. induction keys as [|k keys IH]; intros s Hs; cbn [collect_idle].
  { eexists. split; [done|]. split_and!; done. }
  set (conns := default [] (cc_available (sys_cc s) !! k)).
  assert (Forall (idle_ok T (sys_now s) k) conns) as Hok.
  { unfold conns. destruct (cc_available (sys_cc s) !! k) eqn:Hl; [|done]. by apply (inv_idle _ _ _ Hs). }
  destruct (keep_alive_loop_ok (sys_cc s) now T conns) as (closed & rest & Hl & Hsuf).
  { eapply Forall_impl; [done|]. by intros c (_ & ? & _). }
  { done. }
  msimpl. fold conns. rewrite Hl. unfold upd_available, upd_to_close, upd_stats. msimpl.
  match goal with |- context [collect_idle _ keys ?s0] => set (s2 := s0) end.
  destruct (IH s2) as (s' & -> & Hs' & Hn' & Hp' & Hq').
  - do 2 (apply inv_cc; [|done]). eapply (inv_available _ _ _ _ k rest); try done. destruct Hsuf as [l Hl']. rewrite Hl', Forall_app in Hok. apply Hok.
  - eexists. split; [done|]. split_and!; [done|done|by rewrite Hp'|]. etrans; [|exact Hq']. done.
Qed.

Lemma shutdown_loop_total fuel idx l :
  (length l - idx < fuel)%nat -> exists l', shutdown_loop stream_shutdown fuel idx l = Ret l'.
Proof.
  revert idx l. induction fuel as [|fuel IH]; intros idx l Hf; [lia|]. cbn [shutdown_loop].
  destruct (l !! idx) as [c|] eqn:Hl; [|by eexists]. pose proof (lookup_lt_Some _ _ _ Hl).
  assert (exists l', shutdown_loop stream_shutdown fuel idx (swap_remove idx l) = Ret l') as Hrem.
  { apply IH. rewrite swap_remove_length by (by intros ->). lia. }
  destruct (stream_shutdown (c_stream c)) as [[u| |e] st]; [done| |done].
  apply IH. rewrite length_insert. lia.
Qed.

Lemma bind_gets {A B} (f : A -> M B) (g : Sys -> A) s : (@mbind M M_bind A B f (gets g)) s = f (g s) s.
Proof. done. Qed.

Lemma collect_pool_inv now x T s :
  inv x T s -> T <= now <= sys_now s ->
  exists s', collect_pool clock now s = Ret (tt, s') /\ inv x T s' /\ sys_now s <= sys_now s' /\ quiet s s' /\
    returning (cc_pool (sys_cc s')) = [].
Proof.
  intros Hs Hnow. unfold collect_pool.
  destruct (collect_keys_inv _ _ _ Hs) as (keys & a & Ha & Hia & Hna & Hqa & Hka). rewrite (bind_ret _ _ _ _ _ Ha).
  destruct (release_keys_inv _ _ _ _ Hia) as (b & Hb & Hib & Hnb & Hpb & Hqb). rewrite (bind_ret _ _ _ _ _ Hb).
  destruct (collect_close_inv _ _ _ Hib) as (closes & c & Hc & Hic & Hnc & Hqc & Hkc & Hlc).
  rewrite (bind_ret _ _ _ _ _ Hc).
  destruct (collect_closed_inv _ _ _ _ Hic) as (d & Hd & Hid & Hnd & Hpd & Hqd). rewrite (bind_ret _ _ _ _ _ Hd).
  destruct (collect_release_inv _ _ _ Hid) as (rels & e & He & Hie & Hne & Hfe & Hqe & Hke & Hce & Hre).
  rewrite (bind_ret _ _ _ _ _ He).
  destruct (collect_released_inv now rels x T e Hie Hfe) as (f & Hf & Hif & Hnf & Hpf & Hqf); [lia|].
  exists f. split_and!; [done|done|lia| |].
  - etrans; [exact Hqa|]. etrans; [exact Hqb|]. etrans; [exact Hqc|]. etrans; [exact Hqd|]. by etrans.
  - rewrite Hpf. unfold returning. rewrite Hre, Hce, Hke, Hpd, Hlc, Hkc, Hpb, Hka. done.
Qed.

Lemma collect_shutdown_inv x T s :
  inv x T s ->
  exists s', collect_shutdown stream_shutdown s = Ret (tt, s') /\ inv x T s' /\ cc_pool (sys_cc s') = cc_pool (sys_cc s) /\
    quiet s s'.
Proof.
  intros Hs. unfold collect_shutdown. rewrite bind_gets.
  destruct (shutdown_loop_total (Datatypes.S (length (cc_to_close (sys_cc s)))) 0 (cc_to_close (sys_cc s)) ltac:(lia))
    as [l' Hl']. unfold upd_to_close. msimpl. rewrite Hl'. eexists. split; [done|]. split_and!; [by apply inv_cc|done|done].
Qed.

Lemma collect_inv periodic x T s :
  inv x T s -> T = sys_now s ->
  exists s', collect stream_shutdown clock order periodic s = Ret (tt, s') /\ inv x T s' /\ quiet s s' /\
    p_modified (cc_pool (sys_cc s')) = false.
Proof.
  intros Hs HT. unfold collect. destruct (instant_now_inv _ _ _ Hs) as (s1 & H1 & Hs1 & Hn1 & Hcc1 & Hq1).
  rewrite (bind_ret _ _ _ _ _ H1), bind_gets.
  assert (exists s2, (if p_modified (cc_pool (sys_cc s1)) then collect_pool clock (sys_now s)
      else mret (MRet := M_ret) tt) s1 = Ret (tt, s2) /\ inv x T s2 /\ sys_now s1 <= sys_now s2 /\ quiet s1 s2 /\
      returning (cc_pool (sys_cc s2)) = []) as (s2 & H2 & Hs2 & Hn2 & Hq2 & Hret).
  { destruct (p_modified (cc_pool (sys_cc s1))) eqn:Hmod; [apply collect_pool_inv; [done|lia]|].
    exists s1. split_and!; [done|done|lia|done|]. by apply (inv_modified _ _ _ Hs1). }
  rewrite (bind_ret _ _ _ _ _ H2). unfold keys_of. rewrite bind_gets.
  match goal with |- context [collect_idle _ ?ks] => set (keys := ks) end.
  destruct (collect_idle_inv (sys_now s) keys x T s2 Hs2 ltac:(lia)) as (s3 & H3 & Hs3 & Hn3 & Hp3 & Hq3).
  rewrite (bind_ret _ _ _ _ _ H3).
  assert (exists s4, (if periodic then collect_shutdown stream_shutdown else mret (MRet := M_ret) tt) s3 = Ret (tt, s4) /\
      inv x T s4 /\ cc_pool (sys_cc s4) = cc_pool (sys_cc s3) /\ quiet s3 s4) as (s4 & H4 & Hs4 & Hp4 & Hq4).
  { destruct periodic; [by apply collect_shutdown_inv|by exists s3]. }
  rewrite (bind_ret _ _ _ _ _ H4). unfold upd_pool. msimpl. eexists. split; [done|].
  assert (returning (cc_pool (sys_cc s4)) = []) as Hret4 by (by rewrite Hp4, Hp3).
  split_and!; [| |done].
  - eapply (inv_pool x); try done. by apply (inv_back _ _ _ Hs4).
  - etrans; [exact Hq1|]. etrans; [exact Hq2|]. etrans; [exact Hq3|]. etrans; [exact Hq4|]. done.
Qed.

(** ** Answers and tickets *)

(** The books are right, now. *)
Definition ok (x : list Key) (s : Sys) : Prop := inv x (sys_now s) s.
Lemma inv_ok x T s : inv x T s -> ok x s.
Proof. intros Hs. eapply inv_weaken; [done|apply Hs|done]. Qed.

(** Code that ends with the books right, unless the clock moves under it. *)
Definition safe {A} (m : M A) (s : Sys) (Q : A -> Sys -> Prop) : Prop :=
  run_post (moving (sys_event s)) (fun '(a, s') => sys_event s' = sys_event s /\ Q a s') (m s).

Lemma safe_bind {A B} (m : M A) (f : A -> M B) s (Q : A -> Sys -> Prop) (R : B -> Sys -> Prop) :
  safe m s Q -> (forall a s', sys_event s' = sys_event s -> Q a s' -> safe (f a) s' R) ->
  safe (@mbind M M_bind A B f m) s R.
Proof.
  unfold safe, mbind, M_bind. intros Hm Hf. destruct (m s) as [[a s']| |]; [|done..]. destruct Hm as [He Hq].
  cbn [mbind run_bind]. rewrite <-He. by apply Hf.
Qed.
Lemma safe_ret {A} (m : M A) s a s' (Q : A -> Sys -> Prop) :
  m s = Ret (a, s') -> sys_event s' = sys_event s -> Q a s' -> safe m s Q.
Proof. unfold safe. by intros -> ? ?. Qed.
Lemma safe_step {A B} (m : M A) (f : A -> M B) s a s' (R : B -> Sys -> Prop) :
  m s = Ret (a, s') -> sys_event s' = sys_event s -> safe (f a) s' R -> safe (@mbind M M_bind A B f m) s R.
Proof. unfold safe. intros Hm He Hf. rewrite (bind_ret _ _ _ _ _ Hm), <-He. exact Hf. Qed.
Lemma safe_mono {A} (m : M A) s (Q R : A -> Sys -> Prop) :
  safe m s Q -> (forall a s', Q a s' -> R a s') -> safe m s R.
Proof. intros Hm HQ. eapply run_post_mono; [exact Hm|]. intros [a s'] [? ?]. auto. Qed.

Lemma ok_cc x s c' : ok x s -> same_books (sys_cc s) c' -> ok x (set_cc c' s).
Proof. intros Hs Hc. by apply (inv_cc _ _ _ _ Hs). Qed.

Lemma upd_stats_safe f x s : ok x s -> safe (upd_stats f) s (fun _ => ok x).
Proof. intros Hs. eapply safe_ret; [done|done|]. by apply ok_cc. Qed.
Lemma upd_waiters_safe f x s : ok x s -> safe (upd_waiters f) s (fun _ => ok x).
Proof. intros Hs. eapply safe_ret; [done|done|]. by apply ok_cc. Qed.
Lemma set_paused_safe p x s : ok x s -> safe (set_paused p) s (fun _ => ok x).
Proof. intros Hs. eapply safe_ret; [done|done|]. by apply ok_cc. Qed.
Lemma now_safe x s : ok x s -> safe (instant_now clock) s (fun t s' => ok x s' /\ exists r, t = clock (sys_event s') r).
Proof.
  intros Hs. destruct (instant_now_inv _ _ _ Hs) as (s' & H1 & Hs' & _ & _ & Hq). eapply safe_ret; [done|apply Hq|].
  split; [by apply inv_ok in Hs'|]. eexists. destruct Hq as [-> _]. done.
Qed.

(** The tickets change hands: outside of the counters. *)
Lemma ok_tickets x x' s s' :
  ok x s -> sys_cc s' = sys_cc s -> sys_now s' = sys_now s ->
  x ++ tickets s ≡ₚ x' ++ tickets s' -> Forall (in_use (sys_now s)) (sys_held s') -> ok x' s'.
Proof.
  intros [Ha Ht Hi Hb Hh Hm Hl Hp Hset] Hc Hn Hperm Hheld. unfold ok. rewrite Hn. split; rewrite ?Hc, ?Hn; try done.
  eapply acct_perm; [|exact Ha]. by rewrite !app_assoc, Hperm.
Qed.

Lemma send_err_safe tx e x s : ok x s -> safe (send_err tx e) s (fun _ => ok x).
Proof. intros Hs. eapply safe_ret; [done|done|]. eapply ok_tickets; try done. by apply (inv_held _ _ _ Hs). Qed.

Lemma push_opening_safe o x s : ok (ac_ticket (op_conn o) ++ x) s -> safe (push_opening o) s (fun _ => ok x).
Proof.
  intros Hs. eapply safe_ret; [done|done|]. eapply ok_tickets; try done; [|by apply (inv_held _ _ _ Hs)].
  unfold tickets. simpl. rewrite map_app, concat_app. simpl. rewrite app_nil_r. solve_Permutation.
Qed.

(** The pool takes something back. *)
Lemma pool_touch_safe keys closes rels t x s :
  ok (t ++ x) s -> t = keys ++ map c_key closes ++ map c_key rels -> Forall (back (sys_now s)) (closes ++ rels) ->
  safe (upd_pool (pool_touch keys closes rels)) s (fun _ => ok x).
Proof.
  intros Hs -> Hb. eapply safe_ret; [done|done|]. rewrite Forall_app in Hb. destruct Hb as [Hb1 Hb2].
  destruct (inv_pool_conns _ _ _ Hs) as [Hc Hr]. eapply (inv_pool _ _ _ _ _ Hs); try done; simpl.
  - unfold returning. simpl. rewrite !map_app. solve_Permutation.
  - rewrite !Forall_app. done.
Qed.

Lemma ac_drop_safe ac x s : ok (ac_ticket ac ++ x) s -> safe (ac_drop ac) s (fun _ => ok x).
Proof.
  intros Hs. unfold ac_drop, ac_ticket in *. destruct (ac_pool ac); [|by eapply safe_ret].
  eapply (pool_touch_safe [ac_key ac] [] []); [exact Hs|done|done].
Qed.
Lemma conn_drop_safe c x s : ok (conn_ticket c ++ x) s -> safe (conn_drop c) s (fun _ => ok x).
Proof.
  intros Hs. unfold conn_drop, conn_ticket in *. destruct (c_pool c); [by apply ac_drop_safe|by eapply safe_ret].
Qed.
Lemma conn_close_safe c x s :
  ok (conn_ticket c ++ x) s -> in_use (sys_now s) c -> safe (conn_close c) s (fun _ => ok x).
Proof.
  intros Hs [Hts Hk]. unfold conn_close, conn_ticket in *. destruct (c_pool c) as [ac|] eqn:Hc; [|by eapply safe_ret].
  unfold ac_ticket in Hs. destruct (ac_pool ac); [|by eapply safe_ret].
  eapply (pool_touch_safe [] [set_c_pool None c] []); [exact Hs|by rewrite (Hk ac eq_refl)|].
  repeat constructor. exact Hts.
Qed.
Lemma conn_release_safe c x s :
  ok (conn_ticket c ++ x) s -> in_use (sys_now s) c -> safe (conn_release c) s (fun _ => ok x).
Proof.
  intros Hs [Hts Hk]. unfold conn_release, conn_ticket in *. destruct (c_pool c) as [ac|] eqn:Hc; [|by eapply safe_ret].
  unfold ac_ticket in Hs. destruct (ac_pool ac); [|by eapply safe_ret].
  eapply (pool_touch_safe [] [] [set_c_pool None c]); [exact Hs|by rewrite (Hk ac eq_refl)|].
  repeat constructor. exact Hts.
Qed.

Lemma send_ok_safe tx c x s :
  ok (conn_ticket c ++ x) s -> in_use (sys_now s) c -> safe (send_ok tx c) s (fun _ => ok x).
Proof.
  intros Hs Hu. unfold send_ok, safe. rewrite bind_gets. destruct (bool_decide _); [by apply conn_drop_safe|].
  eapply safe_ret; [done|done|]. eapply ok_tickets; try done.
  - unfold tickets. simpl. rewrite map_app, concat_app. simpl. rewrite app_nil_r. solve_Permutation.
  - simpl. apply Forall_app. split; [by apply (inv_held _ _ _ Hs)|by constructor].
Qed.

Lemma new_conn_safe tx ac stream x s :
  ok (ac_ticket ac ++ x) s ->
  safe (@mbind M M_bind _ _ (send_ok tx) (Connection_new clock (ac_key ac) (Some ac) stream)) s (fun _ => ok x).
Proof.
  intros Hs. destruct (instant_now_inv _ _ _ Hs) as (s1 & H1 & Hs1 & Hn1 & _ & Hq).
  assert (Connection_new clock (ac_key ac) (Some ac) stream s = Ret (mkConn (ac_key ac) stream (Some ac) (sys_now s), s1)) as Hc.
  { unfold Connection_new. by rewrite (bind_ret _ _ _ _ _ H1). }
  unfold safe. rewrite (bind_ret _ _ _ _ _ Hc). destruct Hq as [<- _]. apply send_ok_safe.
  - by apply inv_ok in Hs1.
  - split; [simpl; lia|]. by intros ? [= <-].
Qed.

(** ** Waiting *)
Lemma install_wait_timeout_safe time x s :
  ok x s -> (exists r, clock (sys_event s) r <= time) ->
  safe (install_wait_timeout clock time) s (fun _ => ok x).
Proof.
  intros Hs [r Hr]. unfold install_wait_timeout, safe. rewrite bind_gets.
  destruct (match cc_wait_timeout (sys_cc s) with Some t => t <? time | None => false end); [by split|].
  destruct (instant_now_inv _ _ _ Hs) as (s1 & H1 & Hs1 & Hn1 & Hcc1 & Hq). rewrite (bind_ret _ _ _ _ _ H1).
  unfold instant_sub. msimpl. destruct (Z.leb_spec (sys_now s) time) as [Hle|Hlt].
  - cbn. split; [apply Hq|]. apply (inv_ok _ (sys_now s)). by apply inv_cc.
  - cbn. destruct (decide (clock (sys_event s) r = clock (sys_event s) 0)) as [Heq|Hne]; [|by exists r].
    exists (sys_reads s). unfold sys_now in Hlt. lia.
Qed.

Lemma wait_for_safe tx key wait ct x s :
  ok x s -> 0 <= wait -> safe (wait_for clock tx key wait ct) s (fun _ => ok x).
Proof.
  intros Hs Hw. unfold wait_for. eapply safe_bind; [by apply now_safe|]. intros t s1 He1 [Hs1 [r ->]].
  eapply safe_bind; [apply (install_wait_timeout_safe _ x); [done|exists r; lia]|]. intros [] s2 He2 Hs2.
  by apply upd_waiters_safe.
Qed.

Lemma expire_loop_safe fuel now idx next ws x s :
  ok x s -> (length ws - idx < fuel)%nat -> (forall n, next = Some n -> now < n) ->
  safe (expire_loop fuel now idx next ws) s (fun '(_, next') s' => ok x s' /\ forall n, next' = Some n -> now < n).
Proof.
  revert idx next ws s. induction fuel as [|fuel IH]; intros idx next ws s Hs Hf Hn; [lia|]. cbn [expire_loop].
  destruct (ws !! idx) as [w|] eqn:Hw; [|by eapply safe_ret]. pose proof (lookup_lt_Some _ _ _ Hw).
  destruct (Z.leb_spec (w_wait w) now) as [Hle|Hlt].
  - eapply safe_bind; [by apply upd_stats_safe|]. intros [] s1 _ Hs1.
    eapply safe_bind; [by apply (send_err_safe _ _ x)|]. intros [] s2 _ Hs2.
    apply IH; [done| |done]. rewrite swap_remove_length by (by intros ->). lia.
  - apply IH; [done|lia|]. intros n. destruct next as [m|]; [specialize (Hn m eq_refl)|]; [|by intros [= <-]].
    destruct (Z.ltb_spec (w_wait w) m); intros [= <-]; lia.
Qed.

Lemma expire_keys_safe now next keys x s :
  ok x s -> (forall n, next = Some n -> now < n) ->
  safe (expire_keys now next keys) s (fun next' s' => ok x s' /\ forall n, next' = Some n -> now < n).
Proof.
  revert next s. induction keys as [|k keys IH]; intros next s Hs Hn; cbn [expire_keys]; [by eapply safe_ret|].
  unfold safe. rewrite bind_gets. eapply safe_bind; [apply (expire_loop_safe _ now 0 next _ x); [done|lia|done]|].
  intros [ws' next'] s1 He1 [Hs1 Hn1]. eapply safe_bind; [by apply upd_waiters_safe|]. intros [] s2 He2 Hs2.
  by apply IH.
Qed.

Lemma collect_waiters_safe x s : ok x s -> safe (collect_waiters clock order) s (fun _ => ok x).
Proof.
  intros Hs. unfold collect_waiters. eapply safe_bind; [by apply now_safe|]. intros t s1 He1 [Hs1 [r ->]].
  unfold keys_of, safe. rewrite bind_gets. eapply safe_bind; [by apply (expire_keys_safe _ None _ x)|].
  intros next s2 He2 [Hs2 Hn]. destruct next as [time|]; [|by eapply safe_ret].
  apply install_wait_timeout_safe; [done|]. exists r. rewrite He2. specialize (Hn time eq_refl). lia.
Qed.

(** ** Messages and maintenance *)
Lemma collect_safe periodic x s :
  ok x s -> safe (collect stream_shutdown clock order periodic) s (fun _ => ok x).
Proof.
  intros Hs. destruct (collect_inv periodic x _ s Hs eq_refl) as (s' & Hr & Hs' & Hq & _).
  eapply safe_ret; [exact Hr|apply Hq|by apply inv_ok in Hs'].
Qed.

Lemma collect_modified_safe x s :
  ok x s -> safe (@mbind M M_bind _ _ (fun modified : bool =>
      if modified then collect stream_shutdown clock order false else mret (MRet := M_ret) tt)
    (gets (fun s => p_modified (cc_pool (sys_cc s))))) s (fun _ => ok x).
Proof.
  intros Hs. unfold safe. rewrite bind_gets. destruct (p_modified _); [by apply collect_safe|by eapply safe_ret].
Qed.

(** A connection taken from the idle ones gets its ticket. *)
Lemma acquire_safe key x s :
  ok x s ->
  safe (acquire stream_read clock key) s (fun a s' =>
    match a with
    | Acq_Acquired conn =>
        let conn := set_c_pool (Some (mkAC key true)) conn in
        ok (conn_ticket conn ++ x) s' /\ in_use (sys_now s') conn
    | Acq_Available => ok ([key] ++ x) s'
    | Acq_NotAvailable => ok x s'
    end).
Proof.
  intros Hs. destruct (acquire_inv key x _ s Hs eq_refl) as (a & s' & Hr & Hq & Hn & Ha).
  eapply safe_ret; [exact Hr|apply Hq|]. destruct a as [conn| |].
  - destruct Ha as (Hi & _ & Hk & _ & Hts & _). split; [by apply inv_ok in Hi|]. split; simpl; [lia|]. by intros ? [= <-].
  - destruct Ha as [Hi _]. by apply inv_ok in Hi.
  - by destruct Ha as [-> _].
Qed.

Lemma reused_safe tx conn x s :
  ok (conn_ticket conn ++ x) s -> in_use (sys_now s) conn ->
  safe (@mbind M M_bind _ _ (fun _ => send_ok tx conn) (upd_stats stat_reused)) s (fun _ => ok x).
Proof.
  intros Hs Hu. eapply safe_step; [done|done|]. apply send_ok_safe; [by apply ok_cc|done].
Qed.

Lemma handle_connect_safe tx msg x s :
  ok x s -> 0 <= co_wait_timeout msg ->
  safe (handle_connect stream_read stream_shutdown clock order has_ssl tx msg) s (fun _ => ok x).
Proof.
  intros Hs Hw. unfold handle_connect, safe. rewrite bind_gets.
  eapply safe_bind with (Q := fun _ => ok x).
  { destruct (p_modified _); [by apply collect_safe|by eapply safe_ret]. }
  intros [] s1 _ Hs1. destruct (connect_key has_ssl msg) as [e|[proto key]]; [by apply send_err_safe|].
  eapply safe_bind with (Q := fun _ => ok x).
  { eapply safe_ret; [done|done|]. destruct (inv_pool_conns _ _ _ Hs1) as [Hc Hr].
    eapply (inv_pool x); try done; simpl; [by apply Forall_app|by apply (inv_modified _ _ _ Hs1)]. }
  intros [] s2 _ Hs2. unfold safe. rewrite bind_gets.
  assert (forall s3, ok x s3 -> safe (@mbind M M_bind _ _ (fun _ => upd_stats stat_waits)
    (wait_for clock tx key (co_wait_timeout msg) (co_conn_timeout msg))) s3 (fun _ => ok x)) as Hwait.
  { intros s3 Hs3. eapply safe_bind; [by apply (wait_for_safe _ _ _ _ x)|]. intros [] s4 _ Hs4. by apply upd_stats_safe. }
  destruct (cc_paused (sys_cc s2)); [by apply Hwait|]. destruct (proto_is_http proto).
  2: { by apply push_opening_safe. }
  eapply safe_bind; [by apply (acquire_safe key x)|]. intros a s3 _ Ha. destruct a as [conn| |].
  - destruct Ha as [Hi Hu]. by apply reused_safe.
  - by apply push_opening_safe.
  - by apply Hwait.
Qed.

Lemma opened_safe o res x s :
  ok (ac_ticket (op_conn o) ++ x) s -> safe (opened clock has_ssl o res) s (fun _ => ok x).
Proof.
  intros Hs. unfold opened. set (ac := op_conn o) in *.
  assert (forall tx e s', ok (ac_ticket ac ++ x) s' ->
    safe (@mbind M M_bind _ _ (fun _ => send_err tx e) (ac_drop ac)) s' (fun _ => ok x)) as Herr.
  { intros tx e s' Hs'. eapply safe_bind; [by apply (ac_drop_safe _ x)|]. intros [] s2 _ Hs2. by apply send_err_safe. }
  assert (forall f (m : M unit) s', ok (ac_ticket ac ++ x) s' ->
    (forall s2, ok (ac_ticket ac ++ x) s2 -> safe m s2 (fun _ => ok x)) ->
    safe (@mbind M M_bind _ _ (fun _ => m) (upd_stats f)) s' (fun _ => ok x)) as Hstat.
  { intros f m s' Hs' Hm. eapply safe_bind; [by apply (upd_stats_safe _ (ac_ticket ac ++ x))|].
    intros [] s2 _ Hs2. by apply Hm. }
  destruct (op_dest o) as [tx proto|w].
  - destruct res as [[stream|err]|]; [|by apply Hstat; [|intros; apply Herr]|by apply Herr].
    apply Hstat; [done|]. intros s2 Hs2. destruct (proto_is_secure proto); [|by apply new_conn_safe].
    destruct has_ssl; [by apply push_opening_safe|by apply Herr].
  - destruct res as [[stream|err]|]; [|by apply Hstat; [|intros; apply Herr]|by apply Herr].
    apply Hstat; [done|]. intros s2 Hs2. destruct (key_ssl (ac_key ac)); [|by apply new_conn_safe].
    destruct has_ssl; [by apply push_opening_safe|by apply Herr].
Qed.

Lemma handshaken_safe o res x s :
  ok (ac_ticket (op_conn o) ++ x) s -> safe (handshaken clock o res) s (fun _ => ok x).
Proof.
  intros Hs. unfold handshaken. destruct res as [stream|]; [by apply new_conn_safe|].
  eapply safe_bind; [by apply (ac_drop_safe _ x)|]. intros [] s2 _ Hs2. by apply send_err_safe.
Qed.

Lemma serve_safe key ws x s : ok x s -> safe (serve stream_read clock key ws) s (fun _ => ok x).
Proof.
  revert s. induction ws as [|w ws IH]; intros s Hs; cbn [serve]; [by eapply safe_ret|].
  unfold safe. rewrite bind_gets. destruct (bool_decide _); [by apply IH|].
  eapply safe_bind; [by apply (acquire_safe key x)|]. intros a s1 _ Ha. destruct a as [conn| |].
  - destruct Ha as [Hi Hu]. eapply safe_step; [done|done|]. eapply safe_bind; [apply (send_ok_safe _ _ x); [by apply ok_cc|done]|]. intros [] s2 _ Hs2. by apply IH.
  - eapply safe_bind; [by apply (push_opening_safe _ x)|]. intros [] s2 _ Hs2. by apply IH.
  - by eapply safe_ret.
Qed.

Lemma serve_keys_safe keys x s : ok x s -> safe (serve_keys stream_read clock keys) s (fun _ => ok x).
Proof.
  revert s. induction keys as [|k keys IH]; intros s Hs; cbn [serve_keys]; [by eapply safe_ret|].
  unfold safe. rewrite bind_gets. eapply safe_bind; [by apply (serve_safe k _ x)|]. intros ws s1 _ Hs1.
  eapply safe_bind; [by apply (upd_waiters_safe _ x)|]. intros [] s2 _ Hs2. by apply IH.
Qed.

Lemma maintenance_safe x s :
  ok x s -> safe (maintenance stream_read stream_shutdown clock order) s (fun _ => ok x).
Proof.
  intros Hs. unfold maintenance, safe. rewrite bind_gets. eapply safe_bind with (Q := fun _ => ok x).
  { destruct (cc_paused (sys_cc s)) as [[pause|]|]; [|by eapply safe_ret..].
    eapply safe_bind; [by apply now_safe|]. intros t s1 _ [Hs1 _].
    destruct (_ <=? _); [by apply set_paused_safe|by eapply safe_ret]. }
  intros [] s1 _ Hs1. unfold safe. rewrite bind_gets. eapply safe_bind with (Q := fun _ => ok x).
  { destruct (p_modified _); [by apply collect_safe|by eapply safe_ret]. }
  intros [] s2 _ Hs2. eapply safe_bind; [by apply (collect_waiters_safe x)|]. intros [] s3 _ Hs3.
  unfold keys_of, safe. rewrite bind_gets. by apply serve_keys_safe.
Qed.

(** ** Events *)
Definition event_ok (ev : Event (S := S)) : Prop :=
  match ev with Ev_connect msg => 0 <= co_wait_timeout msg | _ => True end.

Lemma take_opening_safe i s :
  ok [] s -> safe (take_opening i) s (fun o s' =>
    match o with Some o => ok (ac_ticket (op_conn o) ++ []) s' | None => ok [] s' end).
Proof.
  intros Hs. eapply safe_ret; [done|done|]. pose proof (inv_held _ _ _ Hs). destruct (sys_opening s !! i) as [o|] eqn:Ho.
  - eapply ok_tickets; try done. unfold tickets. simpl. rewrite app_nil_r.
    rewrite <-(take_drop_middle (sys_opening s) i o Ho) at 1. rewrite delete_take_drop, !map_app, !concat_app. simpl.
    solve_Permutation.
  - eapply ok_tickets; try done. unfold tickets. simpl. by rewrite delete_out.
Qed.

Lemma take_held_safe i s :
  ok [] s -> safe (take_held i) s (fun c s' =>
    match c with Some c => ok (conn_ticket c ++ []) s' /\ in_use (sys_now s') c | None => ok [] s' end).
Proof.
  intros Hs. eapply safe_ret; [done|done|]. pose proof (inv_held _ _ _ Hs) as Hh. destruct (sys_held s !! i) as [c|] eqn:Hc.
  - split; [|by eapply Forall_lookup_1].
    eapply ok_tickets; try done; [|rewrite <-(take_drop_middle (sys_held s) i c Hc) in Hh; simpl; rewrite delete_take_drop;
      apply Forall_app in Hh as [? Hh]; apply Forall_cons in Hh as [_ ?]; by apply Forall_app].
    unfold tickets. simpl. rewrite app_nil_r.
    rewrite <-(take_drop_middle (sys_held s) i c Hc) at 1. rewrite delete_take_drop, !map_app, !concat_app. simpl.
    solve_Permutation.
  - eapply ok_tickets; try done; unfold tickets; simpl; by rewrite delete_out.
Qed.

Lemma sys_handle_safe ev s :
  ok [] s -> event_ok ev ->
  safe (sys_handle stream_read stream_shutdown clock order has_ssl ev) s (fun _ => ok []).
Proof.
  intros Hs Hev. destruct ev as [msg|time| |i res|i res|i|i|i|tx| |]; cbn [sys_handle].
  - eapply safe_bind with (Q := fun _ => ok []).
    { eapply safe_ret; [done|done|]. eapply ok_tickets; try done. apply (inv_held _ _ _ Hs). }
    intros tx s1 _ Hs1. by apply handle_connect_safe.
  - unfold handle_pause. destruct time as [t|].
    + eapply safe_bind; [by apply now_safe|]. intros n s1 _ [Hs1 _]. by apply set_paused_safe.
    + unfold safe. rewrite bind_gets. destruct (cc_paused _); [by eapply safe_ret|by apply set_paused_safe].
  - by apply set_paused_safe.
  - eapply safe_bind; [by apply take_opening_safe|]. intros [o|] s1 _ Hs1; [|by eapply safe_ret].
    destruct (op_tls o); [by apply push_opening_safe|by apply opened_safe].
  - eapply safe_bind; [by apply take_opening_safe|]. intros [o|] s1 _ Hs1; [|by eapply safe_ret].
    destruct (op_tls o); [by apply handshaken_safe|by apply push_opening_safe].
  - eapply safe_bind; [by apply take_held_safe|]. intros [c|] s1 _ Hs1; [|by eapply safe_ret]. destruct Hs1; by apply conn_close_safe.
  - eapply safe_bind; [by apply take_held_safe|]. intros [c|] s1 _ Hs1; [|by eapply safe_ret]. destruct Hs1; by apply conn_release_safe.
  - eapply safe_bind; [by apply take_held_safe|]. intros [c|] s1 _ Hs1; [|by eapply safe_ret]. destruct Hs1; by apply conn_drop_safe.
  - eapply safe_ret; [done|done|]. eapply ok_tickets; try done. apply (inv_held _ _ _ Hs).
  - by apply maintenance_safe.
  - unfold collect_periodic. eapply safe_bind; [by apply (collect_safe true [])|]. intros [] s1 _ Hs1.
    eapply safe_ret; [done|done|]. by apply ok_cc.
Qed.

Lemma sys_step_ok ev s :
  ok [] s -> event_ok ev ->
  run_post (moving (sys_event s + 1)) (fun s' => ok [] s' /\ sys_event s' = (sys_event s + 1)%nat)
    (sys_step stream_read stream_shutdown clock order has_ssl ev s).
Proof.
  intros Hs Hev. unfold sys_step. apply run_post_bind.
  assert (ok [] (mkSys (sys_cc s) (sys_event s + 1) 0 (sys_next s) (sys_canceled s) (sys_opening s) (sys_held s)
    (sys_answers s))) as Hs1.
  { eapply inv_ok, inv_later; [exact Hs|done..|]. unfold sys_now. simpl.
    assert (forall r, clock (sys_event s) r <= clock (sys_event s + 1) 0) as Hm by (intros r; apply Hmono). apply Hm. }
  eapply run_post_mono; [by apply (sys_handle_safe ev)|]. intros [[] s'] [He Hs']. by split.
Qed.

Lemma sys_run_ok evs s :
  ok [] s -> Forall event_ok evs ->
  run_post (exists e, moving e) (fun s' => ok [] s' /\ sys_event s' = (sys_event s + length evs)%nat)
    (sys_run stream_read stream_shutdown clock order has_ssl evs s).
Proof.
  intros Hs Hevs. revert s Hs. induction Hevs as [|ev evs Hev _ IH]; intros s Hs; cbn [sys_run].
  { split; [done|]. simpl. lia. }
  apply run_post_bind. pose proof (sys_step_ok ev s Hs Hev) as Hstep.
  destruct (sys_step _ _ _ _ _ ev s) as [s1| |]; [|by eexists|done]. destruct Hstep as [Hs1 He1].
  cbn [run_post]. eapply run_post_mono; [by apply IH|]. intros s' [Hs' He']. split; [done|]. rewrite He', He1. simpl. lia.
Qed.
Lemma sys_run_books evs s s' :
  ok [] s -> Forall event_ok evs -> sys_run stream_read stream_shutdown clock order has_ssl evs s = Ret s' ->
  ok [] s' /\ sys_event s' = (sys_event s + length evs)%nat.
Proof. intros Hs Hevs Hr. pose proof (sys_run_ok evs s Hs Hevs) as Hp. by rewrite Hr in Hp. Qed.

(** A connector that has done nothing yet. *)
Definition fresh (c : ClientConnector) : Prop :=
  cc_acquired c = 0 /\ cc_acquired_per_host c = ∅ /\ cc_available c = ∅ /\ cc_pool c = Pool_new /\ 0 <= cc_limit c /\
  cc_limit c = limit0 /\ cc_limit_per_host c = host0.

Lemma fresh_ok c : fresh c -> ok [] (Sys_new c).
Proof.
  intros (Ha & Hh & Hav & Hp & Hl & Hset). split; simpl; rewrite ?Ha, ?Hh, ?Hav, ?Hp; try done.
  split; simpl; [by rewrite Ha|]. intros k. by rewrite Hh, lookup_empty.
Qed.

Lemma ticketed_count s : ticketed s -> lenZ (tickets s) = lenZ (sys_held s) + lenZ (sys_opening s).
Proof.
  intros [Hh Ho]. unfold tickets. rewrite lenZ_app. f_equal.
  - induction Hh as [|c l (ac & Hc & Hac) _ IH]; [done|]. simpl. unfold conn_ticket at 1, ac_ticket. rewrite Hc, Hac. simpl.
    rewrite !lenZ_cons. lia.
  - induction Ho as [|o l Hac _ IH]; [done|]. simpl. unfold ac_ticket at 1. rewrite Hac. simpl. rewrite !lenZ_cons. lia.
Qed.

(** C12. The pool keeps its books.  After any events, in any order, of a new connector: the
    counters are the numbers of tickets, in all and of every host, that are with users,
    with attempts under way or on their way back; the tickets that are out are never more
    than the limit; and if only http and https were asked for, every connection in use and
    every attempt to open one has a ticket, so that they are together never more than the
    limit (a websocket is opened without a ticket and is not limited).  And whatever event
    comes next is handled without a panic or an endless loop, unless the clock moves
    during this very event. *)
Theorem connector_books (c : ClientConnector) (evs : list Event) (s : Sys) (ev : Event) :
  fresh c -> Forall event_ok evs -> event_ok ev ->
  sys_run stream_read stream_shutdown clock order has_ssl evs (Sys_new c) = Ret s ->
  cc_acquired (sys_cc s) = lenZ (tickets s ++ returning (cc_pool (sys_cc s))) /\
  (forall k, default 0 (cc_acquired_per_host (sys_cc s) !! k) =
     keycount k (tickets s ++ returning (cc_pool (sys_cc s)))) /\
  (0 < limit0 -> lenZ (tickets s) <= limit0 /\
    (Forall (http_event has_ssl) evs -> lenZ (sys_held s) + lenZ (sys_opening s) <= limit0)) /\
  run_post (moving (length evs + 1)) (fun _ => True) (sys_step stream_read stream_shutdown clock order has_ssl ev s).
Proof.
  intros Hf Hevs Hev Hr. destruct (sys_run_books _ _ _ (fresh_ok _ Hf) Hevs Hr) as [Hs He].
  pose proof Hs as [[Ha Hk] _ _ _ _ _ Hl _ [Hset _]]. simpl in Ha, Hk. split_and!; [done| | |].
  - intros k. rewrite Hk. destruct (Z.eqb_spec (keycount k (tickets s ++ returning (cc_pool (sys_cc s)))) 0); done.
  - rewrite Hset, Ha, lenZ_app in Hl. intros Hpos. specialize (Hl Hpos).
    pose proof (lenZ_nonneg (returning (cc_pool (sys_cc s)))). split; [lia|]. intros Hhttp.
    rewrite <-ticketed_count; [lia|]. by eapply sys_run_ticketed, conj; [exact Hhttp|exact Hr|..].
  - pose proof (sys_step_ok ev s Hs Hev) as Hstep. rewrite He in Hstep. by eapply run_post_mono.
Qed.

(** Whatever limit per host is set, it is one: the comparison of [acquire] refuses a
    host that has any connection in use, not one that has reached the limit. *)
Theorem per_host_limit_is_one (c : ClientConnector) (evs : list Event) (k : Key) (s : Sys) :
  fresh c -> Forall event_ok evs -> 0 < host0 ->
  sys_run stream_read stream_shutdown clock order has_ssl evs (Sys_new c) = Ret s -> keycount k (tickets s) <= 1.
Proof.
  intros Hf Hevs Hpos Hr. destruct (sys_run_books _ _ _ (fresh_ok _ Hf) Hevs Hr) as [[[_ Hk] _ _ _ _ _ _ Hp [_ Hset]] _].
  simpl in Hk. specialize (Hk k). rewrite keycount_app in Hk.
  pose proof (keycount_nonneg k (tickets s)). pose proof (keycount_nonneg k (returning (cc_pool (sys_cc s)))).
  destruct (Z.eqb_spec (keycount k (tickets s) + keycount k (returning (cc_pool (sys_cc s)))) 0); [lia|].
  specialize (Hp k _ ltac:(by rewrite Hset) Hk). lia.
Qed.

(** ** Serving the waiters *)

(** What over-limits looks at. *)
Definition tighter (s s' : Sys) : Prop := forall k, over_limits (sys_cc s) k = true -> over_limits (sys_cc s') k = true.
#[local] Instance tighter_preorder : PreOrder tighter.
Proof. split; [by intros s k|]. intros s1 s2 s3 H1 H2 k Hk. by apply H2, H1. Qed.

Definition same_counts (c c' : ClientConnector) : Prop :=
  cc_acquired c' = cc_acquired c /\ cc_acquired_per_host c' = cc_acquired_per_host c /\
  cc_limit c' = cc_limit c /\ cc_limit_per_host c' = cc_limit_per_host c /\ cc_waiters c' = cc_waiters c.
Lemma same_counts_limits c c' k : same_counts c c' -> over_limits c' k = over_limits c k.
Proof. intros (H1 & H2 & H3 & H4 & _). unfold over_limits, over_per_host. by rewrite H1, H2, H3, H4. Qed.

Lemma reserve_key_tighter key s s' :
  over_limits (sys_cc s) key = false -> reserve_key key s = Ret (tt, s') -> tighter s s'.
Proof.
  intros Hov Hr k Hk. assert (k <> key) as Hne by congruence. injection Hr as <-.
  unfold over_limits, over_per_host in *. simpl. rewrite lookup_insert_ne by done.
  repeat case_match; try done; repeat match goal with
    | H : (_ <=? _) = true |- _ => apply Z.leb_le in H
    | H : (_ <=? _) = false |- _ => apply Z.leb_gt in H end; lia.
Qed.

Lemma acquire_loop_counts key now rconns s a s' :
  acquire_loop stream_read key now rconns s = Ret (a, s') -> same_counts (sys_cc s) (sys_cc s') /\ a <> Acq_NotAvailable.
Proof.
  revert s. induction rconns as [|[t conn] rconns IH]; intros s; cbn [acquire_loop]; [by intros [= <- <-]|].
  msimpl. destruct (expired (sys_cc s) now (t, conn)) as [old| |]; [|done..].
  assert (forall s1, same_counts (sys_cc s) (sys_cc s1) -> acquire_loop stream_read key now rconns s1 = Ret (a, s') ->
    same_counts (sys_cc s) (sys_cc s') /\ a <> Acq_NotAvailable) as Hrec.
  { intros s1 (H1 & H2 & H3 & H4 & H5) Hr. apply IH in Hr as [(G1 & G2 & G3 & G4 & G5) ?].
    split; [|done]. unfold same_counts. split_and!; congruence. }
  destruct old; [intros Hr; apply Hrec in Hr; done|].
  destruct (stream_read (c_stream conn)) as [[n|e] stream].
  - destruct (0 <? n); intros Hr; apply Hrec in Hr; done.
  - destruct (decide _); [by intros [= <- <-]|]. intros Hr. by apply Hrec in Hr.
Qed.

Lemma acquire_tighter key s a s' :
  acquire stream_read clock key s = Ret (a, s') ->
  tighter s s' /\ cc_waiters (sys_cc s') = cc_waiters (sys_cc s) /\
  (a = Acq_NotAvailable -> over_limits (sys_cc s') key = true).
Proof.
  unfold acquire. msimpl. destruct (over_limits (sys_cc s) key) eqn:Hov; [by intros [= <- <-]|].
  destruct (reserve_key key s) as [[[] s1]| |] eqn:Hr; [|done..]. pose proof (reserve_key_tighter key s s1 Hov Hr) as Ht.
  destruct (cc_available (sys_cc s) !! key) as [conns|];
    [|intros [= <- <-]; split_and!; [done|by injection Hr as <-|done]].
  assert (cc_waiters (sys_cc s1) = cc_waiters (sys_cc s)) as Hw by (by injection Hr as <-).
  cbn. intros Hl. apply acquire_loop_counts in Hl as [Hc Ha].
  split; [|split; [|done]]; [|rewrite <-Hw; by destruct Hc as (_ & _ & _ & _ & ->)].
  intros k Hk. rewrite (same_counts_limits (sys_cc s1)) by done. by apply Ht.
Qed.

Lemma acquire_count key s a s' :
  acquire stream_read clock key s = Ret (a, s') ->
  a <> Acq_NotAvailable -> cc_acquired (sys_cc s') = cc_acquired (sys_cc s) + 1.
Proof.
  unfold acquire. msimpl. destruct (over_limits (sys_cc s) key); [by intros [= <- <-]|].
  destruct (reserve_key key s) as [[[] s1]| |] eqn:Hr; [|done..]. injection Hr as <-.
  destruct (cc_available (sys_cc s) !! key) as [conns|]; [|by intros [= <- <-]].
  cbn. intros Hl _. by apply acquire_loop_counts in Hl as [(-> & _) _].
Qed.

(** Changes that leave the counters. *)
Lemma tighter_counts s s' : same_counts (sys_cc s) (sys_cc s') -> tighter s s'.
Proof. intros Hc k Hk. by rewrite (same_counts_limits (sys_cc s)). Qed.

Lemma send_ok_counts tx c s u s' : send_ok tx c s = Ret (u, s') -> same_counts (sys_cc s) (sys_cc s').
Proof.
  unfold send_ok. rewrite bind_gets. destruct (bool_decide _); [|by intros [= <- <-]].
  unfold conn_drop, ac_drop. destruct (c_pool c) as [ac|]; [|by intros [= <- <-]].
  destruct (ac_pool ac); by intros [= <- <-].
Qed.

(** The waiters that are left: the last ones, and only for a host at its limits. *)
Lemma serve_spec key ws s left s' :
  serve stream_read clock key ws s = Ret (left, s') ->
  tighter s s' /\ left `suffix_of` ws /\ cc_waiters (sys_cc s') = cc_waiters (sys_cc s) /\
  (left <> [] -> over_limits (sys_cc s') key = true).
Proof.
  revert s. induction ws as [|w ws IH]; intros s; cbn [serve]; [by intros [= <- <-]|].
  rewrite bind_gets. assert (forall s1, tighter s s1 -> cc_waiters (sys_cc s1) = cc_waiters (sys_cc s) ->
    serve stream_read clock key ws s1 = Ret (left, s') -> tighter s s' /\ left `suffix_of` w :: ws /\
    cc_waiters (sys_cc s') = cc_waiters (sys_cc s) /\ (left <> [] -> over_limits (sys_cc s') key = true)) as Hrec.
  { intros s1 Ht Hw Hr. apply IH in Hr as (Ht' & Hsuf & Hw' & Hov). split_and!; [by etrans|by apply suffix_cons_r|congruence|done]. }
  destruct (bool_decide _); [by apply Hrec|]. unfold mbind at 1, M_bind at 1.
  destruct (acquire stream_read clock key s) as [[a s1]| |] eqn:Ha; [|done..]. cbn [mbind run_bind].
  destruct (acquire_tighter key s a s1 Ha) as (Ht & Hw & Hno).
  destruct a as [conn| |].
  - unfold mbind at 1, M_bind at 1. unfold upd_stats. msimpl.
    match goal with |- context [send_ok _ _ ?s0] => set (s2 := s0) end.
    destruct (send_ok (w_tx w) (set_c_pool (Some (mkAC key true)) conn) s2) as [[u s3]| |] eqn:Hsend; [|done..].
    apply send_ok_counts in Hsend as Hc. apply Hrec.
    + etrans; [exact Ht|]. apply tighter_counts. exact Hc.
    + destruct Hc as (_ & _ & _ & _ & ->). exact Hw.
  - unfold push_opening. msimpl. apply Hrec; [|done]. etrans; [exact Ht|]. by apply tighter_counts.
  - intros [= <- <-]. split_and!; [done|done|done|]. intros _. by apply Hno.
Qed.

Lemma serve_keys_spec keys s u s' :
  serve_keys stream_read clock keys s = Ret (u, s') ->
  tighter s s' /\
  (forall k, default [] (cc_waiters (sys_cc s') !! k) `suffix_of` default [] (cc_waiters (sys_cc s) !! k)) /\
  (forall k w ws, cc_waiters (sys_cc s') !! k = Some (w :: ws) -> k ∈ keys -> over_limits (sys_cc s') k = true).
Proof.
  revert s. induction keys as [|key keys IH]; intros s; cbn [serve_keys].
  { intros [= <- <-]. split_and!; [done|done|]. intros k w ws _ Hk. by apply elem_of_nil in Hk. }
  rewrite bind_gets. set (ws := default [] (cc_waiters (sys_cc s) !! key)). unfold mbind at 1, M_bind at 1.
  destruct (serve stream_read clock key ws s) as [[left s1]| |] eqn:Hs; [|done..]. cbn [mbind run_bind].
  destruct (serve_spec key ws s left s1 Hs) as (Ht & Hsuf & Hw & Hov).
  unfold upd_waiters. msimpl. match goal with |- context [serve_keys _ _ keys ?s0] => set (s2 := s0) end.
  intros Hr. destruct (IH s2 Hr) as (Ht2 & Hsuf2 & Hov2).
  assert (tighter s1 s2) as Ht1 by (intros k Hk; exact Hk).
  assert (forall k, default [] (cc_waiters (sys_cc s2) !! k) `suffix_of` default [] (cc_waiters (sys_cc s) !! k)) as Hsuf1.
  { intros k. simpl. rewrite Hw. destruct (decide (k = key)) as [->|Hne].
    - by rewrite lookup_insert, decide_True by done.
    - by rewrite lookup_insert_ne by done. }
  split_and!.
  - etrans; [exact Ht|]. by etrans.
  - intros k. etrans; [apply Hsuf2|apply Hsuf1].
  - intros k w ws' Hk Hin. destruct (decide (k ∈ keys)) as [Hk2|Hk2]; [by eapply Hov2|].
    apply elem_of_cons in Hin as [->|Hin]; [|done]. apply Ht2, Ht1, Hov. intros ->.
    specialize (Hsuf2 key). simpl in Hsuf2. rewrite lookup_insert, decide_True, Hk in Hsuf2 by done.
    by apply suffix_nil_inv in Hsuf2.
Qed.

Lemma bind_Ret {A B} (f : A -> M B) (m : M A) s b s' :
  (@mbind M M_bind A B f m) s = Ret (b, s') -> exists a s1, m s = Ret (a, s1) /\ f a s1 = Ret (b, s').
Proof. unfold mbind, M_bind. destruct (m s) as [[a s1]| |]; [by eauto|done..]. Qed.


(** A connection is used again only if it may be: [acquire] hands out an idle connection
    of the host asked for that was idle no longer than the keep-alive time, is no older
    than its lifetime, and whose peer has neither sent anything nor closed it; it takes a
    ticket exactly when the limits allow one. *)
Theorem acquired_connection_fresh (key : Key) (s : Sys) :
  ok [] s ->
  exists a s', acquire stream_read clock key s = Ret (a, s') /\
    match a with
    | Acq_Acquired conn => over_limits (sys_cc s) key = false /\ c_key conn = key /\ c_pool conn = None /\
        cc_acquired (sys_cc s') = cc_acquired (sys_cc s) + 1 /\
        reusable (sys_cc s) (sys_now s) (default [] (cc_available (sys_cc s) !! key)) conn
    | Acq_Available => over_limits (sys_cc s) key = false /\ cc_acquired (sys_cc s') = cc_acquired (sys_cc s) + 1
    | Acq_NotAvailable => s' = s /\ over_limits (sys_cc s) key = true
    end.
Proof.
  intros Hs. destruct (acquire_inv key [] _ s Hs eq_refl) as (a & s' & Hr & Hq & _ & Ha).
  exists a, s'. split; [exact Hr|].
  pose proof (acquire_count key s a s' Hr) as Hc. destruct a as [conn| |]; [|destruct Ha as [Hi Ho]; auto|done].
  destruct Ha as (Hi & Ho & Hk & Hp & _ & Hre). split_and!; auto.
Qed.

End Facts.

(** ** Runs *)

(** Streams that are open and idle, and clocks that tick between events and during them. *)
Definition idle_read (s : nat) : result Z IoError * nat := (Err (mkIoError WouldBlock ""), s).
Definition idle_shutdown (s : nat) : poll unit IoError * nat := (Ready tt, s).
Definition still_clock (e _ : nat) : Z := Z.of_nat e.
Definition ticking_clock (e r : nat) : Z := Z.of_nat e * 100 + Z.min 99 (Z.of_nat r).
Definition some_order (_ : nat) (X : gset Key) : list Key := elements X.
Notation run_still := (sys_run idle_read idle_shutdown still_clock some_order false).
Notation run_ticking := (sys_run idle_read idle_shutdown ticking_clock some_order false).

Definition to_host (wait : Z) : Connect := mkConnect (mkUri (Some (b#"http")) (Some (b#"localhost")) None) wait 1.
Definition a_connector (limit per_host : Z) : ClientConnector (S := nat) :=
  set_limit_per_host per_host (set_limit limit ClientConnector_default).

Lemma still_monotone : monotone still_clock.
Proof. intros e r. unfold still_clock. lia. Qed.
Lemma still_not_moving e : ~ moving still_clock e.
Proof. intros (r & Hne). by apply Hne. Qed.

Definition busy_day : list (Event (S := nat)) :=
  [Ev_connect (to_host 5); Ev_opened 0 (Some (Ok 7%nat)); Ev_connect (to_host 5); Ev_poll; Ev_release 0; Ev_poll; Ev_close 0;
   Ev_periodic].

Lemma fresh_connector limit per_host : 0 <= limit -> fresh limit per_host (a_connector limit per_host).
Proof. intros Hl. by repeat split. Qed.

Definition busy_system : Sys (S := nat) :=
  match run_still busy_day (Sys_new (a_connector 1 0)) with Ret s => s | _ => Sys_new (a_connector 1 0) end.

Lemma connector_books_witness :
  cc_acquired (sys_cc busy_system) = lenZ (tickets busy_system ++ returning (cc_pool (sys_cc busy_system))) /\
  lenZ (sys_held busy_system) + lenZ (sys_opening busy_system) <= 1 /\
  exists s', sys_step idle_read idle_shutdown still_clock some_order false Ev_poll busy_system = Ret s'.
Proof.
  destruct (connector_books idle_read idle_shutdown still_clock some_order false 1 0 still_monotone (a_connector 1 0)
    busy_day busy_system Ev_poll (fresh_connector 1 0 ltac:(lia)) ltac:(repeat constructor; simpl; lia) I
    ltac:(vm_compute; reflexivity)) as (Ha & _ & Hl & Hstep).
  split; [exact Ha|]. split; [apply (Hl ltac:(lia)); repeat constructor; vm_compute; reflexivity|].
  destruct (sys_step _ _ _ _ _ _ _) as [s'| |];
    [exists s'; reflexivity|exfalso; exact (still_not_moving _ Hstep)|exfalso; exact Hstep].
Defined.

(** The limit does not hold for websockets: of one allowed connection, two are in use. *)
Definition to_websocket : Connect := mkConnect (mkUri (Some (b#"ws")) (Some (b#"localhost")) None) 5 1.
Example websockets_unlimited :
  run_post False (fun s => lenZ (sys_held s) = 2 /\ cc_acquired (sys_cc s) = 0)
    (run_still [Ev_connect to_websocket; Ev_opened 0 (Some (Ok 7%nat)); Ev_connect to_websocket; Ev_opened 0 (Some (Ok 8%nat))]
      (Sys_new (a_connector 1 0))).
Proof. vm_compute. by split. Qed.

(** Three requests to one host, of which five connections are allowed: one gets a
    connection and two wait. *)
Definition crowd : list (Event (S := nat)) :=
  [Ev_connect (to_host 5); Ev_connect (to_host 5); Ev_connect (to_host 5); Ev_opened 0 (Some (Ok 7%nat)); Ev_poll].

Lemma per_host_limit_is_one_witness :
  exists s, run_still crowd (Sys_new (a_connector 0 5)) = Ret s /\ st_waits (cc_stats (sys_cc s)) = 2 /\
    keycount (mkKey (b#"localhost") 80 false) (tickets s) <= 1.
Proof.
  assert (run_post False (fun s => st_waits (cc_stats (sys_cc s)) = 2)
    (run_still crowd (Sys_new (a_connector 0 5)))) as Hw by (vm_compute; reflexivity).
  destruct (run_still crowd (Sys_new (a_connector 0 5))) as [s| |] eqn:Hr; [|exfalso; exact Hw..].
  exists s. split; [reflexivity|]. split; [exact Hw|].
  exact (per_host_limit_is_one idle_read idle_shutdown still_clock some_order false 0 5 still_monotone (a_connector 0 5)
    crowd (mkKey (b#"localhost") 80 false) s (fresh_connector 0 5 ltac:(lia)) ltac:(repeat constructor; simpl; lia)
    ltac:(lia) Hr).
Defined.

(** A system in which one request has the only connection and two wait. *)
Definition waiting_system : Sys (S := nat) :=
  match run_still [Ev_connect (to_host 5); Ev_opened 0 (Some (Ok 7%nat)); Ev_connect (to_host 9); Ev_connect (to_host 9);
                   Ev_release 0] (Sys_new (a_connector 1 0)) with
  | Ret s => s
  | _ => Sys_new (a_connector 1 0)
  end.

Lemma waiting_system_ok : ok still_clock 1 0 [] waiting_system.
Proof.
  pose proof (sys_run_ok idle_read idle_shutdown still_clock some_order false 1 0 still_monotone
    [Ev_connect (to_host 5); Ev_opened 0 (Some (Ok 7%nat)); Ev_connect (to_host 9); Ev_connect (to_host 9); Ev_release 0]
    (Sys_new (a_connector 1 0)) (fresh_ok _ _ _ _ (fresh_connector 1 0 ltac:(lia))) ltac:(repeat constructor; simpl; lia)) as Hb.
  unfold waiting_system. destruct (run_still _ _) as [s| |]; [apply Hb|exfalso; by destruct Hb as [e He%still_not_moving]|done].
Qed.


(** A system with one idle connection. *)
Definition idle_events : list (Event (S := nat)) :=
  [Ev_connect (to_host 5); Ev_opened 0 (Some (Ok 7%nat)); Ev_release 0; Ev_periodic].
Definition idle_system : Sys (S := nat) :=
  match run_still idle_events (Sys_new (a_connector 1 0)) with Ret s => s | _ => Sys_new (a_connector 1 0) end.

Lemma idle_system_ok : ok still_clock 1 0 [] idle_system.
Proof.
  pose proof (sys_run_ok idle_read idle_shutdown still_clock some_order false 1 0 still_monotone idle_events
    (Sys_new (a_connector 1 0)) (fresh_ok _ _ _ _ (fresh_connector 1 0 ltac:(lia))) ltac:(repeat constructor; simpl; lia)) as Hb.
  unfold idle_system. destruct (run_still _ _) as [s| |]; [apply Hb|exfalso; by destruct Hb as [e He%still_not_moving]|done].
Qed.

Lemma acquired_connection_fresh_witness :
  exists conn s', acquire idle_read still_clock (mkKey (b#"localhost") 80 false) idle_system = Ret (Acq_Acquired conn, s') /\
    c_stream conn = 7%nat /\ c_key conn = mkKey (b#"localhost") 80 false /\ cc_acquired (sys_cc s') = 1.
Proof.
  destruct (acquired_connection_fresh idle_read still_clock 1 0 still_monotone (mkKey (b#"localhost") 80 false)
    idle_system idle_system_ok) as (a & s' & Hr & Ha).
  assert (run_post False (fun r => exists conn, r.1 = Acq_Acquired conn /\ c_stream conn = 7%nat)
    (acquire idle_read still_clock (mkKey (b#"localhost") 80 false) idle_system)) as Hw
    by (vm_compute; eexists; split; reflexivity).
  rewrite Hr in Hw. destruct Hw as (conn & Hc & Hst). simpl in Hc. subst a. destruct Ha as (_ & Hk & _ & Hn & _).
  exists conn, s'. split; [exact Hr|]. split; [exact Hst|]. split; [exact Hk|exact Hn].
Defined.

(** A pause does not hold back the requests that arrive during it: the next poll of
    [Maintenance] serves those that wait, while the connector is still paused. *)
Lemma pause_not_honoured :
  run_post False (fun s => cc_paused (sys_cc s) = Some None /\ length (sys_opening s) = 1%nat)
    (run_still [Ev_pause None; Ev_connect (to_host 5); Ev_poll] (Sys_new (a_connector 1 0))).
Proof. vm_compute. split; reflexivity. Qed.

(** A clock that moves while a request starts to wait makes the connector panic: the time
    left until the request's deadline is computed with a second reading, which may be
    past the deadline. *)
Lemma wait_deadline_panics :
  run_ticking [Ev_pause None; Ev_connect (to_host 0)] (Sys_new (a_connector 1 0)) = Panic.
Proof. vm_compute. reflexivity. Qed.

(** A timer that has fired is never replaced: the second waiter's deadline is at 8, and
    the only timer is the one that fired at 4. *)
Lemma fired_timer_kept :
  run_post False (fun s => cc_wait_timeout (sys_cc s) = Some 4 /\ sys_event s = 6%nat /\
      exists k w, cc_waiters (sys_cc s) !! k = Some [w] /\ w_wait w = 8)
    (run_still [Ev_connect (to_host 5); Ev_opened 0 (Some (Ok 7%nat)); Ev_connect (to_host 1); Ev_poll; Ev_poll;
                Ev_connect (to_host 2)] (Sys_new (a_connector 1 0))).
Proof.
  vm_compute. split; [reflexivity|]. split; [reflexivity|]. exists (mkKey (b#"localhost") 80 false).
  eexists. split; reflexivity.
Qed.

(** A request that gives up lets the last one pass the others. *)
Lemma expiry_reorders_waiters :
  run_post False (fun s => exists k, map w_tx <$> cc_waiters (sys_cc s) !! k = Some [3%nat; 2%nat])
    (run_still [Ev_connect (to_host 5); Ev_connect (to_host 1); Ev_connect (to_host 9); Ev_connect (to_host 9); Ev_poll]
       (Sys_new (a_connector 1 0))).
Proof. vm_compute. exists (mkKey (b#"localhost") 80 false). reflexivity. Qed.
