(* ===== verification/Bodies.v ===== *)
(** * Whole request bodies (src/src/httpmessage.rs, src/src/json.rs, src/src/extractor.rs)

    The futures that read a body to its end: [MessageBody], [UrlEncoded] and [JsonBody],
    with their limits on its size, and the extractors built on them.  Media types,
    character encodings and the deserializers belong to other crates. *)
From S2P Require Import Prelude StrLib Errors Http Payload PayloadHelper.
Open Scope Z_scope.

(** ** Errors of src/src/error.rs *)
Inductive ContentTypeError : Type := CTE_ParseError | CTE_UnknownEncoding.
Inductive UrlencodedError : Type :=
| UE_Chunked | UE_Overflow | UE_UnknownLength | UE_ContentType | UE_Parse | UE_Payload (e : PayloadError).
Inductive JsonPayloadError : Type :=
| JE_Overflow | JE_ContentType | JE_Deserialize (code : nat) | JE_Payload (e : PayloadError).
#[export] Instance ResponseError_content_type : ResponseError ContentTypeError := fun _ => 400.
#[export] Instance ResponseError_urlencoded : ResponseError UrlencodedError := fun e =>
  match e with UE_Overflow => 413 | UE_UnknownLength => 411 | _ => 400 end.
#[export] Instance ResponseError_json_payload : ResponseError JsonPayloadError := fun e =>
  match e with JE_Overflow => 413 | _ => 400 end.

(** ** External crates *)

(** [mime]: a media type by its subtype, suffix and charset. *)
Class MediaTypes (Mime : Type) := {
  media_parse : bytes -> option Mime;
  media_subtype : Mime -> bytes;
  media_suffix : Mime -> option bytes;
  media_charset : Mime -> option bytes;
  media_eq :: EqDecision Mime;
}.
Definition JSON : bytes := b#"json".

(** [encoding]: encodings by their labels, and their strict decoders. *)
Class Encodings (Enc : Type) := {
  encoding_from_whatwg_label : bytes -> option Enc;
  UTF_8 : Enc;
  decode_strict : Enc -> bytes -> option bytes;
  encoding_eq :: EqDecision Enc;
}.

Section Bodies.
Context {H : Type} `{HM : HeaderMap H} {S : Type} `{ST : Stream S} {Mime : Type} `{MT : MediaTypes Mime}.
Context {Enc : Type} `{EN : Encodings Enc}.

(** A request, by its headers and the stream of its payload. *)
Record Request : Type := mkRequest { rq_headers : H; rq_stream : S }.

(** ** [HttpMessage] *)
Definition mime_type (headers : H) : result (option Mime) ContentTypeError :=
  match hm_get CONTENT_TYPE headers with
  | Some content_type =>
      match hv_to_str content_type with
      | Some content_type =>
          match media_parse content_type with
          | Some mt => Ok (Some mt)
          | None => Err CTE_ParseError
          end
      | None => Err CTE_ParseError
      end
  | None => Ok None
  end.

Definition msg_encoding (headers : H) : result Enc ContentTypeError :=
  match mime_type headers with
  | Err e => Err e
  | Ok (Some mime_type) =>
      match media_charset mime_type with
      | Some charset =>
          match encoding_from_whatwg_label charset with
          | Some enc => Ok enc
          | None => Err CTE_UnknownEncoding
          end
      | None => Ok UTF_8
      end
  | Ok None => Ok UTF_8
  end.

(** ** Reading to the end *)

(** A poll of [Stream::fold] with the closure that appends a chunk if it fits.  The
    accumulator is taken out while the stream is polled and comes back only when the
    stream is not ready. *)
Fixpoint fold_loop {E} (overflow : E) (from : PayloadError -> E) (limit : Z) (fuel : nat) (body : bytes) (s : S)
  : run (poll bytes E * option bytes * S) :=
  match fuel with
  | O => Timeout
  | Datatypes.S fuel =>
      match stream_poll s with
      | (Ready (Some chunk), s) =>
          if limit <? lenZ body + lenZ chunk then Ret (PErr overflow, None, s)
          else fold_loop overflow from limit fuel (body ++ chunk) s
      | (Ready None, s) => Ret (Ready body, None, s)
      | (NotReady, s) => Ret (NotReady, Some body, s)
      | (PErr e, s) => Ret (PErr (from e), None, s)
      end
  end.
Definition fold_poll {E} (overflow : E) (from : PayloadError -> E) (limit : Z) (st : option bytes) (s : S)
  : run (poll bytes E * option bytes * S) :=
  match st with
  | Some body => fold_loop overflow from limit (Datatypes.S (stream_avail s)) body s
  | None => Panic (* cannot poll Fold twice *)
  end.

(** *** [MessageBody] *)
Record MessageBody : Type := mkMB {
  mb_limit : Z;
  mb_req : option Request;
  mb_fut : option (option bytes * S);
}.
Definition MessageBody_new (req : Request) : MessageBody := mkMB 262144 (Some req) None.
Definition MessageBody_limit (limit : Z) (b : MessageBody) : MessageBody := mkMB limit (mb_req b) (mb_fut b).

Definition check_length (limit : Z) (headers : H) : option PayloadError :=
  match hm_get CONTENT_LENGTH headers with
  | Some len =>
      match hv_to_str len with
      | Some s =>
          match parse_u64 s with
          | Some len => if limit <? len then Some PE_Overflow else None
          | None => Some PE_UnknownLength
          end
      | None => Some PE_UnknownLength
      end
  | None => None
  end.

Definition poll_body_future (limit : Z) (fut : option (option bytes * S))
  : run (poll bytes PayloadError * MessageBody) :=
  match fut with
  | Some (st, s) =>
      '(r, st, s) ← fold_poll PE_Overflow id limit st s;
      Ret (r, mkMB limit None (Some (st, s)))
  | None => Panic
  end.

Definition MessageBody_poll (b : MessageBody) : run (poll bytes PayloadError * MessageBody) :=
  match mb_req b with
  | Some req =>
      match check_length (mb_limit b) (rq_headers req) with
      | Some e => Ret (PErr e, mkMB (mb_limit b) None (mb_fut b))
      | None => poll_body_future (mb_limit b) (Some (Some [], rq_stream req))
      end
  | None => poll_body_future (mb_limit b) (mb_fut b)
  end.

(** *** [UrlEncoded] *)
Context {U : Type}.
Context (urlencoded_from_bytes urlencoded_from_str : bytes -> option U).

Record UrlEncoded : Type := mkUE {
  ue_req : option Request;
  ue_limit : Z;
  ue_fut : option (Enc * option bytes * S);
}.
Definition UrlEncoded_new (req : Request) : UrlEncoded := mkUE (Some req) 262144 None.
Definition UrlEncoded_limit (limit : Z) (b : UrlEncoded) : UrlEncoded := mkUE (ue_req b) limit (ue_fut b).

Definition check_urlencoded (headers : H) : UrlencodedError + Enc :=
  let length_error :=
    match chunked headers with
    | Ok true => Some UE_Chunked
    | _ =>
        match hm_get CONTENT_LENGTH headers with
        | Some len =>
            match hv_to_str len with
            | Some s =>
                match parse_u64 s with
                | Some len => if 262144 <? len then Some UE_Overflow else None
                | None => Some UE_UnknownLength
                end
            | None => Some UE_UnknownLength
            end
        | None => None
        end
    end in
  match length_error with
  | Some e => inl e
  | None =>
      (* check content type *)
      if negb (bool_decide (to_lowercase (content_type headers) = b#"application/x-www-form-urlencoded"))
      then inl UE_ContentType
      else match msg_encoding headers with Err _ => inl UE_ContentType | Ok encoding => inr encoding end
  end.

Definition decode_urlencoded (encoding : Enc) (body : bytes) : result U UrlencodedError :=
  let r := if decide (encoding = UTF_8) then urlencoded_from_bytes body
           else body ← decode_strict encoding body; urlencoded_from_str body in
  match r with Some u => Ok u | None => Err UE_Parse end.

(** [and_then] with a closure that returns at once. *)
Definition poll_and_then {A B E} (r : poll A E) (f : A -> result B E) : poll B E :=
  match r with
  | Ready a => match f a with Ok b => Ready b | Err e => PErr e end
  | NotReady => NotReady
  | PErr e => PErr e
  end.

Definition poll_urlencoded_future (limit : Z) (fut : option (Enc * option bytes * S))
  : run (poll U UrlencodedError * UrlEncoded) :=
  match fut with
  | Some (encoding, st, s) =>
      '(r, st, s) ← fold_poll UE_Overflow UE_Payload limit st s;
      Ret (poll_and_then r (decode_urlencoded encoding), mkUE None limit (Some (encoding, st, s)))
  | None => Panic
  end.

Definition UrlEncoded_poll (b : UrlEncoded) : run (poll U UrlencodedError * UrlEncoded) :=
  match ue_req b with
  | Some req =>
      match check_urlencoded (rq_headers req) with
      | inl e => Ret (PErr e, mkUE None (ue_limit b) (ue_fut b))
      | inr encoding => poll_urlencoded_future (ue_limit b) (Some (encoding, Some [], rq_stream req))
      end
  | None => poll_urlencoded_future (ue_limit b) (ue_fut b)
  end.

(** *** [JsonBody] *)
Context (json_from_slice : bytes -> result U nat).

Record JsonBody : Type := mkJB {
  jb_limit : Z;
  jb_req : option Request;
  jb_fut : option (option bytes * S);
}.
Definition JsonBody_new (req : Request) : JsonBody := mkJB 262144 (Some req) None.
Definition JsonBody_limit (limit : Z) (b : JsonBody) : JsonBody := mkJB limit (jb_req b) (jb_fut b).

Definition is_json (headers : H) : bool :=
  match mime_type headers with
  | Ok (Some mime) => bool_decide (media_subtype mime = JSON) || bool_decide (media_suffix mime = Some JSON)
  | _ => false
  end.
Definition check_json (limit : Z) (headers : H) : option JsonPayloadError :=
  let length_error :=
    match (len ← hm_get CONTENT_LENGTH headers; hv_to_str len) with
    | Some s =>
        match parse_u64 s with
        | Some len => if limit <? len then Some JE_Overflow else None
        | None => Some JE_Overflow
        end
    | None => None
    end in
  match length_error with
  | Some e => Some e
  | None => if negb (is_json headers) then Some JE_ContentType else None
  end.

Definition decode_json (body : bytes) : result U JsonPayloadError :=
  match json_from_slice body with Ok u => Ok u | Err e => Err (JE_Deserialize e) end.

Definition poll_json_future (limit : Z) (fut : option (option bytes * S))
  : run (poll U JsonPayloadError * JsonBody) :=
  match fut with
  | Some (st, s) =>
      '(r, st, s) ← fold_poll JE_Overflow JE_Payload limit st s;
      Ret (poll_and_then r decode_json, mkJB limit None (Some (st, s)))
  | None => Panic
  end.

Definition JsonBody_poll (b : JsonBody) : run (poll U JsonPayloadError * JsonBody) :=
  match jb_req b with
  | Some req =>
      match check_json (jb_limit b) (rq_headers req) with
      | Some e => Ret (PErr e, mkJB (jb_limit b) None (jb_fut b))
      | None => poll_json_future (jb_limit b) (Some (Some [], rq_stream req))
      end
  | None => poll_json_future (jb_limit b) (jb_fut b)
  end.

(** ** Extractors *)

(** [error::Error] by the error it was made from. *)
Inductive BodyError : Type :=
| BE_Payload (e : PayloadError)
| BE_Urlencoded (e : UrlencodedError)
| BE_Json (e : JsonPayloadError)
| BE_ContentType (e : ContentTypeError)
| BE_BadRequest (msg : string).
Definition body_error_status (e : BodyError) : Z :=
  match e with
  | BE_Payload e => error_status e
  | BE_Urlencoded e => error_status e
  | BE_Json e => error_status e
  | BE_ContentType e => error_status e
  | BE_BadRequest _ => 400
  end.
Definition map_err {A E F} (f : E -> F) (r : poll A E) : poll A F :=
  match r with Ready a => Ready a | NotReady => NotReady | PErr e => PErr (f e) end.

Record PayloadConfig : Type := mkPC { pc_limit : Z; pc_mimetype : option Mime }.
Definition PayloadConfig_default : PayloadConfig := mkPC 262144 None.
Definition check_mimetype (cfg : PayloadConfig) (req : Request) : option BodyError :=
  (* check content-type *)
  match pc_mimetype cfg with
  | Some mt =>
      match mime_type (rq_headers req) with
      | Ok (Some req_mt) => if decide (mt = req_mt) then None else Some (BE_BadRequest "Unexpected Content-Type")
      | Ok None => Some (BE_BadRequest "Content-Type is expected")
      | Err err => Some (BE_ContentType err)
      end
  | None => None
  end.

(** The extractors' futures: an answer at once, or a body to be read. *)
Inductive Extraction (F : Type) : Type := Ex_now (e : BodyError) | Ex_read (f : F).
Arguments Ex_now {F} e.
Arguments Ex_read {F} f.

(** [FromRequest for Bytes]. *)
Definition bytes_from_request (req : Request) (cfg : PayloadConfig) : Extraction MessageBody :=
  match check_mimetype cfg req with
  | Some e => Ex_now e
  | None => Ex_read (MessageBody_limit (pc_limit cfg) (MessageBody_new req))
  end.
Definition bytes_poll (x : Extraction MessageBody) : run (poll bytes BodyError * Extraction MessageBody) :=
  match x with
  | Ex_now e => Ret (PErr e, x)
  | Ex_read b => '(r, b) ← MessageBody_poll b; Ret (map_err BE_Payload r, Ex_read b)
  end.

(** [FromRequest for String]. *)
Definition string_from_request (req : Request) (cfg : PayloadConfig) : Extraction (Enc * MessageBody) :=
  match check_mimetype cfg req with
  | Some e => Ex_now e
  | None =>
      (* check charset *)
      match msg_encoding (rq_headers req) with
      | Err _ => Ex_now (BE_BadRequest "Unknown request charset")
      | Ok encoding => Ex_read (encoding, MessageBody_limit (pc_limit cfg) (MessageBody_new req))
      end
  end.
Definition decode_string (encoding : Enc) (body : bytes) : result bytes BodyError :=
  match (if decide (encoding = UTF_8) then from_utf8 body else decode_strict encoding body) with
  | Some s => Ok s
  | None => Err (BE_BadRequest "Can not decode body")
  end.
Definition string_poll (x : Extraction (Enc * MessageBody))
  : run (poll bytes BodyError * Extraction (Enc * MessageBody)) :=
  match x with
  | Ex_now e => Ret (PErr e, x)
  | Ex_read (encoding, b) =>
      '(r, b) ← MessageBody_poll b;
      Ret (poll_and_then (map_err BE_Payload r) (decode_string encoding), Ex_read (encoding, b))
  end.

(** [FromRequest for Form] and [FromRequest for Json]. *)
Record FormConfig : Type := mkFC { fc_limit : Z }.
Definition FormConfig_default : FormConfig := mkFC 262144.
Definition form_from_request (req : Request) (cfg : FormConfig) : UrlEncoded :=
  UrlEncoded_limit (fc_limit cfg) (UrlEncoded_new req).
Definition form_poll (b : UrlEncoded) : run (poll U BodyError * UrlEncoded) :=
  '(r, b) ← UrlEncoded_poll b; Ret (map_err BE_Urlencoded r, b).

Record JsonConfig : Type := mkJC { jc_limit : Z; jc_ehandler : JsonPayloadError -> Request -> BodyError }.
Definition JsonConfig_default : JsonConfig := mkJC 262144 (fun e _ => BE_Json e).
Definition json_from_request (req : Request) (cfg : JsonConfig) : JsonBody :=
  JsonBody_limit (jc_limit cfg) (JsonBody_new req).
Definition json_poll (req : Request) (cfg : JsonConfig) (b : JsonBody) : run (poll U BodyError * JsonBody) :=
  '(r, b) ← JsonBody_poll b; Ret (map_err (fun e => jc_ehandler cfg e req) r, b).

End Bodies.
