(* ===== verification/BodyFacts.v ===== *)
(** * Whole bodies are read whole, and within their limits *)
From S2P Require Import Prelude StrLib Errors Http Payload PayloadHelper Bodies.
Open Scope Z_scope.

(** Polls until an answer. *)
Fixpoint drive {F A E} (poll_ : F -> run (poll A E * F)) (n : nat) (f : F) : run (poll A E) :=
  match n with
  | O => Ret NotReady
  | S n =>
      '(r, f) ← poll_ f;
      match r with NotReady => drive poll_ n f | _ => Ret r end
  end.

(** Two futures with the same next poll are driven to the same answer. *)
Lemma drive_first {F A E} (poll_ : F -> run (poll A E * F)) f f' n :
  poll_ f = poll_ f' -> drive poll_ n f = drive poll_ n f'.
Proof. intros Hp. destruct n; cbn [drive]; by rewrite ?Hp. Qed.

(** ** What a stream amounts to *)

(** The data of a stream that ends without an error. *)
Fixpoint delivers (s : script) : option bytes :=
  match s with
  | [] => None
  | Ready (Some d) :: s => data ← delivers s; Some (d ++ data)
  | Ready None :: _ => Some []
  | NotReady :: s => delivers s
  | PErr _ :: _ => None
  end.

Section Gathering.
Context {E : Type} (overflow : E) (from : PayloadError -> E) (limit : Z).

(** The reference: all that the stream answers, in one go. *)
Fixpoint gathered (body : bytes) (s : script) : option (result bytes E) :=
  match s with
  | [] => None
  | Ready (Some d) :: s => if limit <? lenZ body + lenZ d then Some (Err overflow) else gathered (body ++ d) s
  | Ready None :: _ => Some (Ok body)
  | NotReady :: s => gathered body s
  | PErr e :: _ => Some (Err (from e))
  end.

Lemma gathered_delivers s data body :
  delivers s = Some data -> lenZ body <= limit ->
  gathered body s = Some (if lenZ body + lenZ data <=? limit then Ok (body ++ data) else Err overflow).
Proof.
  revert data body. induction s as [|r s IH]; intros data body Hd Hb; [done|]. cbn [delivers gathered] in *.
  destruct r as [[d|]| |e]; [| |by apply IH|done].
  - destruct (delivers s) as [data'|] eqn:Hs; [|done]. simpl in Hd. injection Hd as <-. rewrite lenZ_app.
    pose proof (lenZ_nonneg data'). destruct (Z.ltb_spec limit (lenZ body + lenZ d)) as [Hlt|Hge].
    + by rewrite (proj2 (Z.leb_gt _ _)) by lia.
    + rewrite (IH data') by (done || (rewrite lenZ_app; lia)). rewrite lenZ_app, <-app_assoc, Z.add_assoc. done.
  - injection Hd as <-. rewrite lenZ_nil, Z.add_0_r, (proj2 (Z.leb_le _ _)) by done. by rewrite app_nil_r.
Qed.

Lemma fold_loop_gathered fuel body (s : script) :
  (length s < fuel)%nat ->
  exists r st s', fold_loop (S := script) overflow from limit fuel body s = Ret (r, st, s') /\
    match r with
    | Ready b => gathered body s = Some (Ok b)
    | PErr e => gathered body s = Some (Err e)
    | NotReady => exists body', st = Some body' /\ gathered body s = gathered body' s' /\
        ((length s' < length s)%nat \/ s' = [])
    end.
Proof.
  revert body s. induction fuel as [|fuel IH]; intros body s Hf; [lia|]. cbn [fold_loop].
  destruct s as [|r s]; simpl; [eexists _, _, _; split; [done|]; exists body; by auto|].
  destruct r as [[d|]| |e]; [|by eexists _, _, _| |by eexists _, _, _].
  - destruct (limit <? lenZ body + lenZ d) eqn:Hlt; [eexists _, _, _; split; [done|]; done|].
    destruct (IH (body ++ d) s ltac:(simpl in Hf; lia)) as (r & st & s' & -> & Hr).
    eexists _, _, _. split; [done|]. destruct r; [done| |done].
    destruct Hr as (b & -> & Hg & Hl). exists b. split_and!; [done|done|]. destruct Hl; [left; lia|by right].
  - eexists _, _, _. split; [done|]. exists body. split_and!; [done|done|]. left. lia.
Qed.

(** A future that reads a body and then answers [g]. *)
Context {F A : Type} (mk : option bytes -> script -> F) (g : poll bytes E -> poll A E) (poll_ : F -> run (poll A E * F)).
Hypothesis Hpoll : forall st s,
  poll_ (mk st s) = '(r, st, s) ← fold_poll overflow from limit st s; Ret (g r, mk st s).
Hypothesis Hready : forall b, g (Ready b) <> NotReady.
Hypothesis Herr : forall e, g (PErr e) = PErr e.
Hypothesis Hwait : g NotReady = NotReady.

Lemma drive_fold n body (s : script) :
  (length s < n)%nat ->
  drive poll_ n (mk (Some body) s) =
    Ret (match gathered body s with Some (Ok b) => g (Ready b) | Some (Err e) => PErr e | None => NotReady end).
Proof.
  revert body s. induction n as [|n IH]; intros body s Hn; [lia|]. cbn [drive]. rewrite Hpoll. unfold fold_poll.
  assert (length s < S (stream_avail (S := script) s))%nat as Hav by (unfold stream_avail; simpl; lia).
  destruct (fold_loop_gathered (S (stream_avail (S := script) s)) body s Hav) as (r & st & s' & -> & Hr).
  cbn [mbind run_bind]. destruct r as [b| |e].
  - rewrite Hr. specialize (Hready b). by destruct (g (Ready b)).
  - destruct Hr as (body' & -> & -> & Hl). rewrite Hwait. destruct Hl as [Hl | ->]; [apply IH; lia|].
    clear IH Hn. cbn [gathered]. induction n as [|n IH]; [done|]. cbn [drive]. rewrite Hpoll.
    cbn [fold_poll stream_avail script_stream length fold_loop stream_poll mbind run_bind]. by rewrite Hwait.
  - rewrite Hr, Herr. done.
Qed.

End Gathering.

Section Facts.
Context {H : Type} `{HM : HeaderMap H} {Mime : Type} `{MT : MediaTypes Mime} {Enc : Type} `{EN : Encodings Enc}.
Context {U : Type} (urlencoded_from_bytes urlencoded_from_str : bytes -> option U) (json_from_slice : bytes -> result U nat).
Notation Request := (Request (H := H) (S := script)).

(** C30. Bodies are read whole: whatever the chunks and however often the payload is not
    ready, a body that its headers allow is the whole data if it fits into the limit, the
    refusal of its size if not, and what the deserializer makes of it for forms and
    JSON. *)
Theorem whole_body_read (h : H) (s : script) (data : bytes) (limit : Z) :
  delivers s = Some data -> 0 <= limit ->
  (check_length limit h = None ->
   drive MessageBody_poll (S (length s)) (MessageBody_limit limit (MessageBody_new (mkRequest h s))) =
   Ret (if lenZ data <=? limit then Ready data else PErr PE_Overflow)) /\
  (forall enc, check_urlencoded h = inr enc ->
   drive (UrlEncoded_poll urlencoded_from_bytes urlencoded_from_str) (S (length s))
     (UrlEncoded_limit (Enc := Enc) limit (UrlEncoded_new (mkRequest h s))) =
   Ret (if lenZ data <=? limit
        then match decode_urlencoded urlencoded_from_bytes urlencoded_from_str enc data with Ok u => Ready u | Err e => PErr e end
        else PErr UE_Overflow)) /\
  (check_json limit h = None ->
   drive (JsonBody_poll json_from_slice) (S (length s)) (JsonBody_limit limit (JsonBody_new (mkRequest h s))) =
   Ret (if lenZ data <=? limit
        then match decode_json json_from_slice data with Ok u => Ready u | Err e => PErr e end
        else PErr JE_Overflow)).
Proof.
  intros Hd Hlim. assert (forall E (ov : E) from, gathered ov from limit [] s =
    Some (if lenZ data <=? limit then Ok data else Err ov)) as Hg.
  { intros E ov from. by rewrite (gathered_delivers ov from limit s data []) by (done || (rewrite lenZ_nil; lia)). }
  split_and!.
  - intros Hc. rewrite (drive_first _ _ (mkMB limit None (Some (Some [], s))))
      by (unfold MessageBody_poll; simpl; by rewrite Hc).
    rewrite (drive_fold PE_Overflow id limit (fun st s => mkMB limit None (Some (st, s))) id) by (done || lia).
    rewrite Hg. by destruct (_ <=? _).
  - intros enc Hc. rewrite (drive_first _ _ (mkUE None limit (Some (enc, Some [], s))))
      by (unfold UrlEncoded_poll; simpl; by rewrite Hc).
    rewrite (drive_fold UE_Overflow UE_Payload limit (fun st s => mkUE None limit (Some (enc, st, s)))
      (fun r => poll_and_then r (decode_urlencoded urlencoded_from_bytes urlencoded_from_str enc)))
      by (done || lia || (intros b; simpl; by destruct (decode_urlencoded _ _ _ _))).
    rewrite Hg. by destruct (_ <=? _).
  - intros Hc. rewrite (drive_first _ _ (mkJB limit None (Some (Some [], s))))
      by (unfold JsonBody_poll; simpl; by rewrite Hc).
    rewrite (drive_fold JE_Overflow JE_Payload limit (fun st s => mkJB limit None (Some (st, s)))
      (fun r => poll_and_then r (decode_json json_from_slice)))
      by (done || lia || (intros b; simpl; by destruct (decode_json _ _))).
    rewrite Hg. by destruct (_ <=? _).
Qed.

(** The limit set on a form is not the limit its length is held against: a form whose
    declared length is above 262144 bytes is refused whatever larger limit is configured,
    where a plain body of that length is read whole under the same limit. *)
Theorem urlencoded_limit_ignored (h : H) (s : script) (data v str : bytes) (limit : Z) :
  hm_get CONTENT_LENGTH h = Some v -> hv_to_str v = Some str -> parse_u64 str = Some (lenZ data) ->
  chunked h = Ok false -> delivers s = Some data -> 262144 < lenZ data <= limit ->
  drive MessageBody_poll (S (length s)) (MessageBody_limit limit (MessageBody_new (mkRequest h s))) = Ret (Ready data) /\
  drive (form_poll urlencoded_from_bytes urlencoded_from_str) (S (length s))
    (form_from_request (Enc := Enc) (mkRequest h s) (mkFC limit)) = Ret (PErr (BE_Urlencoded UE_Overflow)).
Proof.
  intros Hv Hs Hp Hch Hd Hl. split.
  - rewrite (drive_first _ _ (mkMB limit None (Some (Some [], s)))).
    + rewrite (drive_fold PE_Overflow id limit (fun st s => mkMB limit None (Some (st, s))) id) by (done || lia).
      rewrite (gathered_delivers _ _ _ _ data) by (done || (rewrite lenZ_nil; lia)).
      by rewrite lenZ_nil, Z.add_0_l, (proj2 (Z.leb_le _ _)) by lia.
    + unfold MessageBody_poll. simpl. unfold check_length. by rewrite Hv, Hs, Hp, (proj2 (Z.ltb_ge _ _)) by lia.
  - cbn [drive]. unfold form_poll, UrlEncoded_poll. simpl. unfold check_urlencoded.
    by rewrite Hch, Hv, Hs, Hp, (proj2 (Z.ltb_lt _ _)) by lia.
Qed.

End Facts.

(** ** Bounds *)
Section Bounds.
Context {H : Type} `{HM : HeaderMap H} {S : Type} `{ST : Stream S}.

Lemma fold_loop_bounded {E} (ov : E) from limit fuel body (s : S) :
  (stream_avail s < fuel)%nat -> lenZ body <= limit ->
  exists r st s', fold_loop ov from limit fuel body s = Ret (r, st, s') /\
    (forall b, r = Ready b -> lenZ b <= limit) /\
    match st with Some b => r = NotReady /\ lenZ b <= limit | None => r <> NotReady end.
Proof.
  revert body s. induction fuel as [|fuel IH]; intros body s Hf Hb; [lia|]. cbn [fold_loop].
  destruct (stream_poll s) as [[[chunk|]| |e] s'] eqn:Hp; [|by eexists _, _, _; split_and!; [done|by intros ? [= <-]|]..].
  apply stream_progress in Hp. destruct (Z.ltb_spec limit (lenZ body + lenZ chunk)); [by eexists _, _, _|].
  apply IH; [lia|]. rewrite lenZ_app. lia.
Qed.

(** What a body future can hold between polls. *)
Definition body_ok (b : MessageBody (H := H) (S := S)) : Prop :=
  0 <= mb_limit b /\
  match mb_req b, mb_fut b with
  | Some _, None => True
  | None, Some (Some body, _) => lenZ body <= mb_limit b
  | _, _ => False
  end.

(** C37. The limit bounds what is held: over any stream a poll of a body future returns; it
    never answers and, while it waits, never keeps more bytes than the limit; its limit
    stays; and it can be polled again exactly as long as it answers [NotReady]. *)
Theorem body_within_limit (b : MessageBody (H := H) (S := S)) :
  body_ok b ->
  exists r b', MessageBody_poll b = Ret (r, b') /\ mb_limit b' = mb_limit b /\
    (forall data, r = Ready data -> lenZ data <= mb_limit b) /\
    (r = NotReady -> body_ok b') /\
    (r <> NotReady -> MessageBody_poll b' = Panic).
Proof.
  intros (Hl & Hb). assert (forall body s, lenZ body <= mb_limit b -> exists r b',
    poll_body_future (H := H) (mb_limit b) (Some (Some body, s)) = Ret (r, b') /\ mb_limit b' = mb_limit b /\
    (forall data, r = Ready data -> lenZ data <= mb_limit b) /\
    (r = NotReady -> body_ok b') /\ (r <> NotReady -> MessageBody_poll b' = Panic)) as Hfut.
  { intros body s Hbody. unfold poll_body_future, fold_poll.
    destruct (fold_loop_bounded PE_Overflow id (mb_limit b) (Datatypes.S (stream_avail s)) body s ltac:(lia) Hbody)
      as (r & st & s' & -> & Hr & Hst).
    eexists _, _. split; [done|]. simpl. split_and!; [done|done| |].
    - intros ->. destruct st as [b'|]; [|done]. by destruct Hst.
    - intros Hn. destruct st as [b'|]; [by destruct Hst|]. done. }
  unfold MessageBody_poll. destruct (mb_req b) as [req|] eqn:Hreq.
  - destruct (mb_fut b) eqn:Hfu; [done|]. destruct (check_length _ _); [|apply Hfut; rewrite lenZ_nil; lia].
    by eexists _, _; split_and!.
  - destruct (mb_fut b) as [[[body|] s]|] eqn:Hfu; [|done..]. by apply Hfut.
Qed.

End Bounds.

(** ** Concrete crates *)

(** Media types "type/subtype" without suffix and parameters, and the one encoding
    UTF-8. *)
Fixpoint after_slash (s : bytes) : option bytes :=
  match s with [] => None | c :: s => if c =? 47 then Some s else after_slash s end.
#[local] Instance plain_media : MediaTypes bytes := {|
  media_parse := fun s => if after_slash s then Some s else None;
  media_subtype := fun s => default [] (after_slash s);
  media_suffix := fun _ => None;
  media_charset := fun _ => None;
  media_eq := _;
|}.
#[local] Instance only_utf8 : Encodings unit := {|
  encoding_from_whatwg_label := fun _ => Some tt;
  UTF_8 := tt;
  decode_strict := fun _ => from_utf8;
  encoding_eq := _;
|}.
Definition form_headers : list (bytes * bytes) :=
  [(CONTENT_TYPE, b#"application/x-www-form-urlencoded"); (CONTENT_LENGTH, b#"5")].
Definition json_headers : list (bytes * bytes) := [(CONTENT_TYPE, b#"application/json")].
Definition slow_body : script := [NotReady; Ready (Some b#"a="); NotReady; NotReady; Ready (Some b#"bcd"); Ready None].

Lemma whole_body_read_witness :
  drive (UrlEncoded_poll (Enc := unit) Some Some) 7 (UrlEncoded_limit 5 (UrlEncoded_new (mkRequest form_headers slow_body))) =
    Ret (Ready b#"a=bcd") /\
  drive (JsonBody_poll (@Ok bytes nat)) 7 (JsonBody_limit 4 (JsonBody_new (mkRequest json_headers slow_body))) =
    Ret (PErr JE_Overflow).
Proof.
  split.
  - destruct (whole_body_read (Enc := unit) (U := bytes) Some Some (@Ok bytes nat) form_headers slow_body b#"a=bcd" 5
      ltac:(vm_compute; reflexivity) ltac:(lia)) as (_ & Hu & _).
    exact (Hu tt ltac:(vm_compute; reflexivity)).
  - destruct (whole_body_read (Enc := unit) (U := bytes) Some Some (@Ok bytes nat) json_headers slow_body b#"a=bcd" 4
      ltac:(vm_compute; reflexivity) ltac:(lia)) as (_ & _ & Hj).
    exact (Hj ltac:(vm_compute; reflexivity)).
Defined.

Definition large_form : bytes := replicate (Z.to_nat 262145) 97.
Definition large_headers : list (bytes * bytes) :=
  [(CONTENT_TYPE, b#"application/x-www-form-urlencoded"); (CONTENT_LENGTH, b#"262145")].
Lemma lenZ_large_form : lenZ large_form = 262145.
Proof. unfold large_form, lenZ. rewrite length_replicate. lia. Qed.

Lemma urlencoded_limit_ignored_witness :
  drive (form_poll Some Some) 3
    (form_from_request (Enc := unit) (mkRequest large_headers [Ready (Some large_form); Ready None]) (mkFC 1000000)) =
  Ret (PErr (BE_Urlencoded UE_Overflow)).
Proof.
  destruct (urlencoded_limit_ignored (Enc := unit) (U := bytes) Some Some large_headers
    [Ready (Some large_form); Ready None] large_form b#"262145" b#"262145" 1000000) as [_ Hf].
  - reflexivity.
  - vm_compute. reflexivity.
  - rewrite lenZ_large_form. vm_compute. reflexivity.
  - reflexivity.
  - cbn [delivers mbind option_bind]. by rewrite app_nil_r.
  - rewrite lenZ_large_form. lia.
  - exact Hf.
Defined.

Lemma body_within_limit_witness :
  exists r b', MessageBody_poll (MessageBody_limit 4 (MessageBody_new (mkRequest json_headers slow_body))) = Ret (r, b') /\
    body_ok b' /\ r = NotReady.
Proof.
  destruct (body_within_limit (MessageBody_limit 4 (MessageBody_new (mkRequest json_headers slow_body)))) as
    (r & b' & Hp & _ & _ & Hok & _); [by split|].
  exists r, b'. split; [exact Hp|]. vm_compute in Hp. injection Hp as <- <-. split; [by apply Hok|reflexivity].
Defined.
