(* ===== verification/With.v ===== *)
(** * Handlers with extractors (src/src/with.rs)

    A handler of one, two or three extracted arguments is a future that runs the
    extractors one after the other, calls the handler and then follows its reply.  The
    first poll runs inside [handle] and tries to go all the way; later polls resume where
    an extractor was not ready.  The cells of the extractors' configurations are set while
    the application is configured; a poll reads their contents. *)
From S2P Require Import Prelude StrLib Errors Http Response Router RouterFacts Pipeline Route.
Open Scope Z_scope.

(** Calls out of a future, in order: the extractors by their positions, the handler. *)
Inductive wcall : Type := W_extract (i : nat) | W_handler.
#[export] Instance wcall_eq_dec : EqDecision wcall.
Proof. solve_decision. Defined.

Section With.
Context {R : Type} `{Hre : RegexCrate R} {H : Type} `{Hhm : HeaderMap H} {St : Type}.
Notation Rq := (HttpRequest R H St).
Notation Rq0 := (HttpRequest R H unit).
Notation Resp := (InnerHttpResponse H).
Notation Reply := (ReplyItem (H := H)).

(** [FromRequest]: a future, with [Error: Into<Error>] applied. *)
Class FromRequest (T : Type) := { Config : Type; from_request : Rq -> Config -> Fut T }.

Definition drop_state (rq : Rq) : Rq0 := mkReq (rq_msg rq) None (rq_router rq).

(** [Reply] of [handle]: a response, or the future itself.  With a response the future is
    dropped; it is kept here for its record of calls. *)
Inductive WithReply (F : Type) : Type := WR_response (r : Resp) (dropped : F) | WR_async (fut : F).
Arguments WR_response {F}. Arguments WR_async {F}.

Definition handle_first {F} (poll_ : F -> run (poll Resp Error * F)) (fut : F) : run (WithReply F) :=
  '(r, fut) ← poll_ fut;
  match r with
  | Ready resp => Ret (WR_response resp fut)
  | NotReady => Ret (WR_async fut)
  | PErr e => Ret (WR_response (error_response e) fut)
  end.

(** ** [With] *)
Section One.
Context {T Rr : Type} {FT : FromRequest T} {RR : Responder (R := R) (H := H) (St := unit) Rr}.
Context (hnd : T -> Rr) (cfg : Config).

Record WithHandlerFut : Type := mkW1 {
  w1_started : bool;
  w1_req : Rq;
  w1_fut1 : option (Fut T);
  w1_fut2 : option (Fut Resp);
  w1_calls : list wcall;
}.
Definition set_w1_fut1 v w := mkW1 (w1_started w) (w1_req w) v (w1_fut2 w) (w1_calls w).
Definition set_w1_fut2 v w := mkW1 (w1_started w) (w1_req w) (w1_fut1 w) v (w1_calls w).
Definition start_w1 w := mkW1 true (w1_req w) (w1_fut1 w) (w1_fut2 w) (w1_calls w).
Definition log_w1 c w := mkW1 (w1_started w) (w1_req w) (w1_fut1 w) (w1_fut2 w) (w1_calls w ++ [c]).

(** The poll of the extractor: its item, or the answer to return. *)
Definition With_extract (w : WithHandlerFut) : run ((T + poll Resp Error) * WithHandlerFut) :=
  if negb (w1_started w) then
    let w := log_w1 (W_extract 1) (start_w1 w) in
    match fut_poll (from_request (w1_req w) cfg) with
    | (Ready item, _) => Ret (inl item, w)
    | (NotReady, fut) => Ret (inr NotReady, set_w1_fut1 (Some fut) w)
    | (PErr e, _) => Ret (inr (PErr e), w)
    end
  else
    fut ← unwrap (w1_fut1 w);
    let '(r, fut) := fut_poll fut in
    let w := set_w1_fut1 (Some fut) w in
    match r with
    | Ready item => Ret (inl item, w)
    | NotReady => Ret (inr NotReady, w)
    | PErr e => Ret (inr (PErr e), w)
    end.

Fixpoint With_poll_fuel (fuel : nat) (w : WithHandlerFut) : run (poll Resp Error * WithHandlerFut) :=
  match fuel with
  | O => Timeout
  | S fuel =>
      match w1_fut2 w with
      | Some fut => let '(r, fut) := fut_poll fut in Ret (r, set_w1_fut2 (Some fut) w)
      | None =>
          '(item, w) ← With_extract w;
          match item with
          | inr r => Ret (r, w)
          | inl item =>
              let w := log_w1 W_handler w in
              match respond_to (hnd item) (drop_state (w1_req w)) with
              | Err e => Ret (PErr e, w)
              | Ok (Reply_Message resp) => Ret (Ready resp, w)
              | Ok (Reply_Future fut) => With_poll_fuel fuel (set_w1_fut2 (Some fut) w)
              end
          end
      end
  end.
(** The future calls itself once, when it has the future of the handler. *)
Definition With_poll : WithHandlerFut -> run (poll Resp Error * WithHandlerFut) := With_poll_fuel 2.
Definition With_fut (req : Rq) : WithHandlerFut := mkW1 false req None None [].
Definition With_handle (req : Rq) : run (WithReply WithHandlerFut) := handle_first With_poll (With_fut req).
End One.

(** ** [With2] *)
Section Two.
Context {T1 T2 Rr : Type} {FT1 : FromRequest T1} {FT2 : FromRequest T2}.
Context {RR : Responder (R := R) (H := H) (St := unit) Rr}.
Context (hnd : T1 -> T2 -> Rr) (cfg1 : Config (T := T1)) (cfg2 : Config (T := T2)).

Record WithHandlerFut2 : Type := mkW2 {
  w2_started : bool;
  w2_req : Rq;
  w2_item : option T1;
  w2_fut1 : option (Fut T1);
  w2_fut2 : option (Fut T2);
  w2_fut3 : option (Fut Resp);
  w2_calls : list wcall;
}.
Definition start_w2 w := mkW2 true (w2_req w) (w2_item w) (w2_fut1 w) (w2_fut2 w) (w2_fut3 w) (w2_calls w).
Definition set_w2_item v w := mkW2 (w2_started w) (w2_req w) v (w2_fut1 w) (w2_fut2 w) (w2_fut3 w) (w2_calls w).
Definition set_w2_fut1 v w := mkW2 (w2_started w) (w2_req w) (w2_item w) v (w2_fut2 w) (w2_fut3 w) (w2_calls w).
Definition set_w2_fut2 v w := mkW2 (w2_started w) (w2_req w) (w2_item w) (w2_fut1 w) v (w2_fut3 w) (w2_calls w).
Definition set_w2_fut3 v w := mkW2 (w2_started w) (w2_req w) (w2_item w) (w2_fut1 w) (w2_fut2 w) v (w2_calls w).
Definition log_w2 c w :=
  mkW2 (w2_started w) (w2_req w) (w2_item w) (w2_fut1 w) (w2_fut2 w) (w2_fut3 w) (w2_calls w ++ [c]).

(** The call of the handler: an answer, or the future of its reply. *)
Definition With2_call (item1 : T1) (item2 : T2) (w : WithHandlerFut2)
  : (poll Resp Error + Fut Resp) * WithHandlerFut2 :=
  let w := log_w2 W_handler w in
  match respond_to (hnd item1 item2) (drop_state (w2_req w)) with
  | Ok (Reply_Message resp) => (inl (Ready resp), w)
  | Ok (Reply_Future fut) => (inr fut, w)
  | Err e => (inl (PErr e), w)
  end.

(** The first poll: an answer, or the future of the reply. *)
Definition With2_first (w : WithHandlerFut2) : (poll Resp Error + Fut Resp) * WithHandlerFut2 :=
  let w := log_w2 (W_extract 1) (start_w2 w) in
  match fut_poll (from_request (w2_req w) cfg1) with
  | (Ready item1, _) =>
      let w := log_w2 (W_extract 2) w in
      match fut_poll (from_request (w2_req w) cfg2) with
      | (Ready item2, _) => With2_call item1 item2 w
      | (NotReady, fut) => (inl NotReady, set_w2_fut2 (Some fut) (set_w2_item (Some item1) w))
      | (PErr e, _) => (inl (PErr e), w)
      end
  | (NotReady, fut) => (inl NotReady, set_w2_fut1 (Some fut) w)
  | (PErr e, _) => (inl (PErr e), w)
  end.

(** [if self.fut1.is_some()]: the answer to return, if there is one. *)
Definition With2_fut1 (w : WithHandlerFut2) : option (poll Resp Error) * WithHandlerFut2 :=
  match w2_fut1 w with
  | Some fut =>
      match fut_poll fut with
      | (Ready item, _) =>
          let w := log_w2 (W_extract 2) (set_w2_fut1 None (set_w2_item (Some item) w)) in
          (None, set_w2_fut2 (Some (from_request (w2_req w) cfg2)) w)
      | (NotReady, fut) => (Some NotReady, set_w2_fut1 (Some fut) w)
      | (PErr e, fut) => (Some (PErr e), set_w2_fut1 (Some fut) w)
      end
  | None => (None, w)
  end.

Definition With2_next (w : WithHandlerFut2) : run ((poll Resp Error + Fut Resp) * WithHandlerFut2) :=
  match With2_fut1 w with
  | (Some r, w) => Ret (inl r, w)
  | (None, w) =>
      fut ← unwrap (w2_fut2 w);
      let '(r, fut) := fut_poll fut in
      let w := set_w2_fut2 (Some fut) w in
      match r with
      | NotReady => Ret (inl NotReady, w)
      | PErr e => Ret (inl (PErr e), w)
      | Ready item =>
          item1 ← unwrap (w2_item w);
          Ret (With2_call item1 item (set_w2_item None w))
      end
  end.

Fixpoint With2_poll_fuel (fuel : nat) (w : WithHandlerFut2) : run (poll Resp Error * WithHandlerFut2) :=
  match fuel with
  | O => Timeout
  | S fuel =>
      match w2_fut3 w with
      | Some fut => let '(r, fut) := fut_poll fut in Ret (r, set_w2_fut3 (Some fut) w)
      | None =>
          '(out, w) ← (if negb (w2_started w) then Ret (With2_first w) else With2_next w);
          match out with
          | inl r => Ret (r, w)
          | inr fut => With2_poll_fuel fuel (set_w2_fut3 (Some fut) w)
          end
      end
  end.
Definition With2_poll : WithHandlerFut2 -> run (poll Resp Error * WithHandlerFut2) := With2_poll_fuel 2.
Definition With2_fut (req : Rq) : WithHandlerFut2 := mkW2 false req None None None None [].
Definition With2_handle (req : Rq) : run (WithReply WithHandlerFut2) := handle_first With2_poll (With2_fut req).
End Two.

(** ** [With3] *)
Section Three.
Context {T1 T2 T3 Rr : Type} {FT1 : FromRequest T1} {FT2 : FromRequest T2} {FT3 : FromRequest T3}.
Context {RR : Responder (R := R) (H := H) (St := unit) Rr}.
Context (hnd : T1 -> T2 -> T3 -> Rr).
Context (cfg1 : Config (T := T1)) (cfg2 : Config (T := T2)) (cfg3 : Config (T := T3)).

Record WithHandlerFut3 : Type := mkW3 {
  w3_started : bool;
  w3_req : Rq;
  w3_item1 : option T1;
  w3_item2 : option T2;
  w3_fut1 : option (Fut T1);
  w3_fut2 : option (Fut T2);
  w3_fut3 : option (Fut T3);
  w3_fut4 : option (Fut Resp);
  w3_calls : list wcall;
}.
Definition start_w3 w := mkW3 true (w3_req w) (w3_item1 w) (w3_item2 w) (w3_fut1 w) (w3_fut2 w) (w3_fut3 w) (w3_fut4 w) (w3_calls w).
Definition set_w3_item1 v w := mkW3 (w3_started w) (w3_req w) v (w3_item2 w) (w3_fut1 w) (w3_fut2 w) (w3_fut3 w) (w3_fut4 w) (w3_calls w).
Definition set_w3_item2 v w := mkW3 (w3_started w) (w3_req w) (w3_item1 w) v (w3_fut1 w) (w3_fut2 w) (w3_fut3 w) (w3_fut4 w) (w3_calls w).
Definition set_w3_fut1 v w := mkW3 (w3_started w) (w3_req w) (w3_item1 w) (w3_item2 w) v (w3_fut2 w) (w3_fut3 w) (w3_fut4 w) (w3_calls w).
Definition set_w3_fut2 v w := mkW3 (w3_started w) (w3_req w) (w3_item1 w) (w3_item2 w) (w3_fut1 w) v (w3_fut3 w) (w3_fut4 w) (w3_calls w).
Definition set_w3_fut3 v w := mkW3 (w3_started w) (w3_req w) (w3_item1 w) (w3_item2 w) (w3_fut1 w) (w3_fut2 w) v (w3_fut4 w) (w3_calls w).
Definition set_w3_fut4 v w := mkW3 (w3_started w) (w3_req w) (w3_item1 w) (w3_item2 w) (w3_fut1 w) (w3_fut2 w) (w3_fut3 w) v (w3_calls w).
Definition log_w3 c w :=
  mkW3 (w3_started w) (w3_req w) (w3_item1 w) (w3_item2 w) (w3_fut1 w) (w3_fut2 w) (w3_fut3 w) (w3_fut4 w) (w3_calls w ++ [c]).

Definition With3_call (item1 : T1) (item2 : T2) (item3 : T3) (w : WithHandlerFut3)
  : (poll Resp Error + Fut Resp) * WithHandlerFut3 :=
  let w := log_w3 W_handler w in
  match respond_to (hnd item1 item2 item3) (drop_state (w3_req w)) with
  | Ok (Reply_Message resp) => (inl (Ready resp), w)
  | Ok (Reply_Future fut) => (inr fut, w)
  | Err e => (inl (PErr e), w)
  end.

Definition With3_first (w : WithHandlerFut3) : (poll Resp Error + Fut Resp) * WithHandlerFut3 :=
  let w := log_w3 (W_extract 1) (start_w3 w) in
  match fut_poll (from_request (w3_req w) cfg1) with
  | (Ready item1, _) =>
      let w := log_w3 (W_extract 2) w in
      match fut_poll (from_request (w3_req w) cfg2) with
      | (Ready item2, _) =>
          let w := log_w3 (W_extract 3) w in
          match fut_poll (from_request (w3_req w) cfg3) with
          | (Ready item3, _) => With3_call item1 item2 item3 w
          | (NotReady, fut) =>
              (inl NotReady, set_w3_fut3 (Some fut) (set_w3_item2 (Some item2) (set_w3_item1 (Some item1) w)))
          | (PErr e, _) => (inl (PErr e), w)
          end
      | (NotReady, fut) => (inl NotReady, set_w3_fut2 (Some fut) (set_w3_item1 (Some item1) w))
      | (PErr e, _) => (inl (PErr e), w)
      end
  | (NotReady, fut) => (inl NotReady, set_w3_fut1 (Some fut) w)
  | (PErr e, _) => (inl (PErr e), w)
  end.

Definition With3_fut1 (w : WithHandlerFut3) : option (poll Resp Error) * WithHandlerFut3 :=
  match w3_fut1 w with
  | Some fut =>
      match fut_poll fut with
      | (Ready item, _) =>
          let w := log_w3 (W_extract 2) (set_w3_fut1 None (set_w3_item1 (Some item) w)) in
          (None, set_w3_fut2 (Some (from_request (w3_req w) cfg2)) w)
      | (NotReady, fut) => (Some NotReady, set_w3_fut1 (Some fut) w)
      | (PErr e, fut) => (Some (PErr e), set_w3_fut1 (Some fut) w)
      end
  | None => (None, w)
  end.

Definition With3_fut2 (w : WithHandlerFut3) : option (poll Resp Error) * WithHandlerFut3 :=
  match w3_fut2 w with
  | Some fut =>
      match fut_poll fut with
      | (Ready item, _) =>
          let w := log_w3 (W_extract 3) (set_w3_fut2 None (set_w3_item2 (Some item) w)) in
          (None, set_w3_fut3 (Some (from_request (w3_req w) cfg3)) w)
      | (NotReady, fut) => (Some NotReady, set_w3_fut2 (Some fut) w)
      | (PErr e, fut) => (Some (PErr e), set_w3_fut2 (Some fut) w)
      end
  | None => (None, w)
  end.

Definition With3_next (w : WithHandlerFut3) : run ((poll Resp Error + Fut Resp) * WithHandlerFut3) :=
  match With3_fut1 w with
  | (Some r, w) => Ret (inl r, w)
  | (None, w) =>
      match With3_fut2 w with
      | (Some r, w) => Ret (inl r, w)
      | (None, w) =>
          fut ← unwrap (w3_fut3 w);
          let '(r, fut) := fut_poll fut in
          let w := set_w3_fut3 (Some fut) w in
          match r with
          | NotReady => Ret (inl NotReady, w)
          | PErr e => Ret (inl (PErr e), w)
          | Ready item =>
              item1 ← unwrap (w3_item1 w);
              let w := set_w3_item1 None w in
              item2 ← unwrap (w3_item2 w);
              Ret (With3_call item1 item2 item (set_w3_item2 None w))
          end
      end
  end.

Fixpoint With3_poll_fuel (fuel : nat) (w : WithHandlerFut3) : run (poll Resp Error * WithHandlerFut3) :=
  match fuel with
  | O => Timeout
  | S fuel =>
      match w3_fut4 w with
      | Some fut => let '(r, fut) := fut_poll fut in Ret (r, set_w3_fut4 (Some fut) w)
      | None =>
          '(out, w) ← (if negb (w3_started w) then Ret (With3_first w) else With3_next w);
          match out with
          | inl r => Ret (r, w)
          | inr fut => With3_poll_fuel fuel (set_w3_fut4 (Some fut) w)
          end
      end
  end.
Definition With3_poll : WithHandlerFut3 -> run (poll Resp Error * WithHandlerFut3) := With3_poll_fuel 2.
Definition With3_fut (req : Rq) : WithHandlerFut3 := mkW3 false req None None None None None None [].
Definition With3_handle (req : Rq) : run (WithReply WithHandlerFut3) := handle_first With3_poll (With3_fut req).
End Three.

End With.
Arguments WR_response {H F}.
Arguments WR_async {H F}.
