(* ===== verification/WithFacts.v ===== *)
(** * Extractors run one after the other, and the handler after them *)
From S2P Require Import Prelude StrLib Errors Http Response Router RouterFacts Pipeline Route With.
Open Scope Z_scope.

(** ** Futures one after the other *)

(** The reference: waits for the first, then for the second. *)
Definition fut_bind {A B} (f : Fut A) (k : A -> Fut B) : Fut B :=
  match fut_result f with
  | Ok a => mkFut (n ← fut_wait f; m ← fut_wait (k a); Some (n + m)%nat) (fut_result (k a))
  | Err e => mkFut (fut_wait f) (Err e)
  end.

(** What a future has answered within [n] polls. *)
Definition fut_answer {A} (n : nat) (f : Fut A) : poll A Error :=
  match fut_wait f with
  | Some w => if (w <? n)%nat then match fut_result f with Ok a => Ready a | Err e => PErr e end else NotReady
  | None => NotReady
  end.

Lemma fut_poll_bind {A B} (f : Fut A) (k : A -> Fut B) :
  match fut_poll f with
  | (NotReady, f') => fut_poll (fut_bind f k) = (NotReady, fut_bind f' k) /\ fut_result f' = fut_result f
  | (PErr e, _) => (fut_poll (fut_bind f k)).1 = PErr e /\ fut_result f = Err e
  | (Ready a, _) => fut_bind f k = k a /\ fut_result f = Ok a
  end.
Proof.
  destruct f as [[[|n]|] [a|e]]; cbv [fut_poll fut_bind]; simpl; try done.
  - split; [|done]. destruct (k a) as [[w|] r]; done.
  - split; [|done]. by destruct (k a) as [[w|] r].
Qed.

Lemma fut_answer_0 {A} (f : Fut A) : fut_answer 0 f = NotReady.
Proof. by destruct f as [[w|] r]. Qed.
Lemma fut_answer_poll {A} n (f : Fut A) :
  fut_answer (S n) f = match fut_poll f with (NotReady, f') => fut_answer n f' | (r, _) => r end.
Proof. destruct f as [[[|w]|] [a|e]]; done. Qed.

(** The first [n] polls of a future, up to its answer. *)
Fixpoint settle {F A} (poll_ : F -> run (poll A Error * F)) (n : nat) (f : F) : run (poll A Error * F) :=
  match n with
  | O => Ret (NotReady, f)
  | S n => '(r, f) ← poll_ f; match r with NotReady => settle poll_ n f | _ => Ret (r, f) end
  end.

Section Simulation.
Context {F A : Type} (poll_ : F -> run (poll A Error * F)) (calls : F -> list wcall).

(** In every poll the answer of the reference, and at the end the given calls. *)
Definition runs_as (f : F) (g : Fut A) (cs : list wcall) : Prop :=
  forall n, exists f', settle poll_ n f = Ret (fut_answer n g, f') /\
    (fut_answer n g <> NotReady -> calls f' = cs).

Context (at_ : F -> Fut A -> list wcall -> Prop).
Definition answers (r : poll A Error) (f' : F) (g : Fut A) (cs : list wcall) : Prop :=
  (fut_poll g).1 = r /\ (r = NotReady -> at_ f' (fut_poll g).2 cs) /\ (r <> NotReady -> calls f' = cs).
Hypothesis Hstep : forall f g cs, at_ f g cs -> exists r f', poll_ f = Ret (r, f') /\ answers r f' g cs.

Lemma simulation f g cs : at_ f g cs -> runs_as f g cs.
Proof.
  intros Hat n. revert f g Hat. induction n as [|n IH]; intros f g Hat.
  { exists f. by rewrite fut_answer_0. }
  destruct (Hstep f g cs Hat) as (r & f' & Hp & Hr & Hw & Hc). cbn [settle]. rewrite Hp. cbn [mbind run_bind].
  rewrite fut_answer_poll. destruct (fut_poll g) as [r' g'] eqn:Hg. simpl in *. subst r'.
  destruct r as [a| |e]; [exists f'; split; [done|by intros; apply Hc]|apply IH; by apply Hw|exists f'; split; [done|by intros; apply Hc]].
Qed.


End Simulation.

(** [handle] answers what the first poll gives, with the given calls made, or hands out the
    future for the rest. *)
Definition handled_as {H F} `{HM : HeaderMap H} (poll_ : F -> run (poll (InnerHttpResponse H) Error * F)) (calls : F -> list wcall)
  (handle : run (WithReply (H := H) F)) (g : Fut (InnerHttpResponse H)) (cs : list wcall) : Prop :=
  match fut_answer 1 g with
  | Ready resp => exists f, handle = Ret (WR_response resp f) /\ calls f = cs
  | PErr e => exists f, handle = Ret (WR_response (error_response e) f) /\ calls f = cs
  | NotReady => exists f, handle = Ret (WR_async f) /\ runs_as poll_ calls f (fut_poll g).2 cs
  end.

Lemma handled {H F} `{HM : HeaderMap H} poll_ (calls : F -> list wcall) at_ f (g : Fut (InnerHttpResponse H)) cs :
  (forall f g cs, at_ f g cs -> exists r f', poll_ f = Ret (r, f') /\ answers calls at_ r f' g cs) ->
  at_ f g cs -> handled_as poll_ calls (handle_first poll_ f) g cs.
Proof.
  intros Hstep Hat. destruct (Hstep f g cs Hat) as (r & f' & Hp & Hr & Hw & Hc).
  unfold handled_as, handle_first. rewrite Hp. cbn [mbind run_bind]. rewrite fut_answer_poll.
  destruct (fut_poll g) as [r' g']. simpl in *. subst r'. destruct r as [a| |e]; [exists f'; split; [done|by apply Hc]| |exists f'; split; [done|by apply Hc]].
  rewrite fut_answer_0. exists f'. split; [done|]. by eapply simulation, Hw.
Qed.

Ltac wait_step Hb Hr := split_and!; [by rewrite Hb|intros _; rewrite Hb, <-Hr; constructor|done].

(** ** The three futures *)
Section Facts.
Context {R : Type} `{Hre : RegexCrate R} {H : Type} `{Hhm : HeaderMap H} {St : Type}.
Notation Rq := (HttpRequest R H St).
Notation Resp := (InnerHttpResponse H).
Notation Reply := (ReplyItem (H := H)).

Definition reply_fut (r : result Reply Error) : Fut Resp :=
  match r with
  | Ok (Reply_Message resp) => mkFut (Some O) (Ok resp)
  | Ok (Reply_Future fut) => fut
  | Err e => mkFut (Some O) (Err e)
  end.

(** The calls after an extractor's result. *)
Definition calls_after {A} (r : result A Error) (cs : list wcall) : list wcall :=
  match r with Ok _ => cs | Err _ => [] end.

(** *** Three extractors *)
Section Three.
Context {T1 T2 T3 Rr : Type} {FT1 : FromRequest (R := R) (H := H) (St := St) T1}.
Context {FT2 : FromRequest (R := R) (H := H) (St := St) T2} {FT3 : FromRequest (R := R) (H := H) (St := St) T3}.
Context {RR : Responder (R := R) (H := H) (St := unit) Rr}.
Context (hnd : T1 -> T2 -> T3 -> Rr).
Context (cfg1 : Config (T := T1)) (cfg2 : Config (T := T2)) (cfg3 : Config (T := T3)).
Context (req : Rq).

Definition after3 (a : T1) (b : T2) (c : T3) : Fut Resp := reply_fut (respond_to (hnd a b c) (drop_state req)).
Definition after2 (a : T1) (b : T2) : Fut Resp := fut_bind (from_request req cfg3) (after3 a b).
Definition after1 (a : T1) : Fut Resp := fut_bind (from_request req cfg2) (after2 a).
Definition with3_ref : Fut Resp := fut_bind (from_request req cfg1) after1.

Definition calls2 : list wcall := W_extract 3 :: calls_after (fut_result (from_request req cfg3)) [W_handler].
Definition calls1 : list wcall := W_extract 2 :: calls_after (fut_result (from_request req cfg2)) calls2.
Definition with3_calls : list wcall := W_extract 1 :: calls_after (fut_result (from_request req cfg1)) calls1.

Inductive at3 : WithHandlerFut3 -> Fut Resp -> list wcall -> Prop :=
| at3_start : at3 (With3_fut req) with3_ref with3_calls
| at3_fut1 f : at3 (mkW3 true req None None (Some f) None None None [W_extract 1]) (fut_bind f after1)
    (W_extract 1 :: calls_after (fut_result f) calls1)
| at3_fut2 a f : at3 (mkW3 true req (Some a) None None (Some f) None None [W_extract 1; W_extract 2])
    (fut_bind f (after2 a)) (W_extract 1 :: W_extract 2 :: calls_after (fut_result f) calls2)
| at3_fut3 a b f : at3 (mkW3 true req (Some a) (Some b) None None (Some f) None [W_extract 1; W_extract 2; W_extract 3])
    (fut_bind f (after3 a b)) (W_extract 1 :: W_extract 2 :: W_extract 3 :: calls_after (fut_result f) [W_handler])
| at3_fut4 w f cs : w3_fut4 w = Some f -> w3_calls w = cs -> at3 w f cs.

(** An outcome before [fut4] is set. *)
Definition out3 (out : (poll Resp Error + Fut Resp) * WithHandlerFut3) (g : Fut Resp) (cs : list wcall) : Prop :=
  match out with
  | (inl r, w) => answers w3_calls at3 r w g cs
  | (inr fut, w) => g = fut /\ w3_calls w = cs
  end.

Lemma poll3_fut4 w f cs n :
  w3_fut4 w = Some f -> w3_calls w = cs ->
  exists r w', With3_poll_fuel hnd cfg1 cfg2 cfg3 (S n) w = Ret (r, w') /\ answers w3_calls at3 r w' f cs.
Proof.
  intros Hf Hcs. cbn [With3_poll_fuel]. rewrite Hf. destruct (fut_poll f) as [r f'] eqn:Hp.
  eexists _, _. split; [done|]. unfold answers. rewrite Hp. split_and!; [done|intros _; by constructor|by intros _].
Qed.

Lemma call3 a b c w :
  w3_req w = req -> out3 (With3_call hnd a b c w) (after3 a b c) (w3_calls w ++ [W_handler]).
Proof.
  intros Hreq. unfold With3_call, after3. cbn [log_w3 w3_req]. rewrite Hreq.
  by destruct (respond_to _ _) as [[resp|fut]|e].
Qed.

Lemma next3_fut3 a b f :
  exists out, With3_next hnd cfg2 cfg3 (mkW3 true req (Some a) (Some b) None None (Some f) None [W_extract 1; W_extract 2; W_extract 3]) = Ret out /\
    out3 out (fut_bind f (after3 a b)) (W_extract 1 :: W_extract 2 :: W_extract 3 :: calls_after (fut_result f) [W_handler]).
Proof.
  unfold With3_next. simpl. pose proof (fut_poll_bind f (after3 a b)) as Hb.
  destruct (fut_poll f) as [[c| |e] f']; destruct Hb as [Hb Hr]; rewrite ?Hr; cbn [calls_after].
  - rewrite Hb. eexists. split; [done|]. exact (call3 a b c (mkW3 true req None None None None (Some f') None [W_extract 1; W_extract 2; W_extract 3]) eq_refl).
  - eexists. split; [done|]. wait_step Hb Hr.
  - eexists. split; [done|]. by split_and!.
Qed.

Lemma next3_fut2 a f :
  exists out, With3_next hnd cfg2 cfg3 (mkW3 true req (Some a) None None (Some f) None None [W_extract 1; W_extract 2]) = Ret out /\
    out3 out (fut_bind f (after2 a)) (W_extract 1 :: W_extract 2 :: calls_after (fut_result f) calls2).
Proof.
  pose proof (fut_poll_bind f (after2 a)) as Hb. pose proof (fun b => next3_fut3 a b (from_request req cfg3)) as Hn.
  unfold With3_next in *. cbn [With3_fut1 With3_fut2 w3_fut1 w3_fut2] in *.
  destruct (fut_poll f) as [[b| |e] f']; destruct Hb as [Hb Hr]; rewrite ?Hr; cbn [calls_after].
  - rewrite Hb. exact (Hn b).
  - eexists. split; [done|]. wait_step Hb Hr.
  - eexists. split; [done|]. by split_and!.
Qed.

Lemma next3_fut1 f :
  exists out, With3_next hnd cfg2 cfg3 (mkW3 true req None None (Some f) None None None [W_extract 1]) = Ret out /\
    out3 out (fut_bind f after1) (W_extract 1 :: calls_after (fut_result f) calls1).
Proof.
  pose proof (fut_poll_bind f after1) as Hb. pose proof (fun a => next3_fut2 a (from_request req cfg2)) as Hn.
  unfold With3_next in *. cbn [With3_fut1 w3_fut1] in *.
  destruct (fut_poll f) as [[a| |e] f']; destruct Hb as [Hb Hr]; rewrite ?Hr; cbn [calls_after].
  - rewrite Hb. exact (Hn a).
  - eexists. split; [done|]. wait_step Hb Hr.
  - eexists. split; [done|]. by split_and!.
Qed.

(** The first poll goes through the same steps. *)
Lemma first3 : out3 (With3_first hnd cfg1 cfg2 cfg3 (With3_fut req)) with3_ref with3_calls.
Proof.
  unfold With3_first, with3_ref, with3_calls, calls1, calls2. cbn [With3_fut start_w3 log_w3 w3_req app].
  pose proof (fut_poll_bind (from_request req cfg1) after1) as Hb.
  destruct (fut_poll (from_request req cfg1)) as [[a| |e] f1]; destruct Hb as [Hb Hr];
    [rewrite Hr; cbn [calls_after]| |by rewrite Hr; split_and!].
  2: { wait_step Hb Hr. }
  rewrite Hb. unfold after1. clear Hb Hr. pose proof (fut_poll_bind (from_request req cfg2) (after2 a)) as Hb.
  destruct (fut_poll (from_request req cfg2)) as [[b| |e] f2]; destruct Hb as [Hb Hr];
    [rewrite Hr; cbn [calls_after]| |by rewrite Hr; split_and!].
  2: { wait_step Hb Hr. }
  rewrite Hb. unfold after2. clear Hb Hr. pose proof (fut_poll_bind (from_request req cfg3) (after3 a b)) as Hb.
  destruct (fut_poll (from_request req cfg3)) as [[c| |e] f3]; destruct Hb as [Hb Hr];
    [rewrite Hr; cbn [calls_after]| |by rewrite Hr; split_and!].
  2: { wait_step Hb Hr. }
  rewrite Hb. exact (call3 a b c (mkW3 true req None None None None None None [W_extract 1; W_extract 2; W_extract 3]) eq_refl).
Qed.

(** A poll before [fut4] is set. *)
Lemma poll3_out w out g cs :
  w3_fut4 w = None ->
  (if negb (w3_started w) then Ret (With3_first hnd cfg1 cfg2 cfg3 w) else With3_next hnd cfg2 cfg3 w) = Ret out ->
  out3 out g cs ->
  exists r w', With3_poll hnd cfg1 cfg2 cfg3 w = Ret (r, w') /\ answers w3_calls at3 r w' g cs.
Proof.
  intros Hn Ho Hout. unfold With3_poll. change 2%nat with (S 1). remember 1%nat as one eqn:Hone.
  cbn [With3_poll_fuel]. rewrite Hn, Ho. cbn [mbind run_bind]. subst one.
  destruct out as [[r|fut] w']; [by eexists _, _|]. destruct Hout as [-> Hcs]. by apply poll3_fut4.
Qed.

Lemma step3 w g cs :
  at3 w g cs -> exists r w', With3_poll hnd cfg1 cfg2 cfg3 w = Ret (r, w') /\ answers w3_calls at3 r w' g cs.
Proof.
  intros [|f|a f|a b f|w' f cs' Hf Hcs].
  - by eapply poll3_out; [..|apply first3].
  - destruct (next3_fut1 f) as (out & Hn & Ho). by eapply poll3_out.
  - destruct (next3_fut2 a f) as (out & Hn & Ho). by eapply poll3_out.
  - destruct (next3_fut3 a b f) as (out & Hn & Ho). by eapply poll3_out.
  - by apply poll3_fut4.
Qed.
End Three.

(** *** Two extractors *)
Section Two.
Context {T1 T2 Rr : Type} {FT1 : FromRequest (R := R) (H := H) (St := St) T1}.
Context {FT2 : FromRequest (R := R) (H := H) (St := St) T2}.
Context {RR : Responder (R := R) (H := H) (St := unit) Rr}.
Context (hnd : T1 -> T2 -> Rr) (cfg1 : Config (T := T1)) (cfg2 : Config (T := T2)) (req : Rq).

Definition then2 (a : T1) (b : T2) : Fut Resp := reply_fut (respond_to (hnd a b) (drop_state req)).
Definition then1 (a : T1) : Fut Resp := fut_bind (from_request req cfg2) (then2 a).
Definition with2_ref : Fut Resp := fut_bind (from_request req cfg1) then1.
Definition with2_rest : list wcall := W_extract 2 :: calls_after (fut_result (from_request req cfg2)) [W_handler].
Definition with2_calls : list wcall := W_extract 1 :: calls_after (fut_result (from_request req cfg1)) with2_rest.

Inductive at2 : WithHandlerFut2 -> Fut Resp -> list wcall -> Prop :=
| at2_start : at2 (With2_fut req) with2_ref with2_calls
| at2_fut1 f : at2 (mkW2 true req None (Some f) None None [W_extract 1]) (fut_bind f then1)
    (W_extract 1 :: calls_after (fut_result f) with2_rest)
| at2_fut2 a f : at2 (mkW2 true req (Some a) None (Some f) None [W_extract 1; W_extract 2])
    (fut_bind f (then2 a)) (W_extract 1 :: W_extract 2 :: calls_after (fut_result f) [W_handler])
| at2_fut3 w f cs : w2_fut3 w = Some f -> w2_calls w = cs -> at2 w f cs.

Definition out2 (out : (poll Resp Error + Fut Resp) * WithHandlerFut2) (g : Fut Resp) (cs : list wcall) : Prop :=
  match out with
  | (inl r, w) => answers w2_calls at2 r w g cs
  | (inr fut, w) => g = fut /\ w2_calls w = cs
  end.

Lemma poll2_fut3 w f cs n :
  w2_fut3 w = Some f -> w2_calls w = cs ->
  exists r w', With2_poll_fuel hnd cfg1 cfg2 (S n) w = Ret (r, w') /\ answers w2_calls at2 r w' f cs.
Proof.
  intros Hf Hcs. cbn [With2_poll_fuel]. rewrite Hf. destruct (fut_poll f) as [r f'] eqn:Hp.
  eexists _, _. split; [done|]. unfold answers. rewrite Hp. split_and!; [done|intros _; by constructor|by intros _].
Qed.

Lemma call2 a b w :
  w2_req w = req -> out2 (With2_call hnd a b w) (then2 a b) (w2_calls w ++ [W_handler]).
Proof.
  intros Hreq. unfold With2_call, then2. cbn [log_w2 w2_req]. rewrite Hreq.
  by destruct (respond_to _ _) as [[resp|fut]|e].
Qed.

Lemma next2_fut2 a f :
  exists out, With2_next hnd cfg2 (mkW2 true req (Some a) None (Some f) None [W_extract 1; W_extract 2]) = Ret out /\
    out2 out (fut_bind f (then2 a)) (W_extract 1 :: W_extract 2 :: calls_after (fut_result f) [W_handler]).
Proof.
  unfold With2_next. simpl. pose proof (fut_poll_bind f (then2 a)) as Hb.
  destruct (fut_poll f) as [[b| |e] f']; destruct Hb as [Hb Hr]; rewrite ?Hr; cbn [calls_after].
  - rewrite Hb. eexists. split; [done|].
    exact (call2 a b (mkW2 true req None None (Some f') None [W_extract 1; W_extract 2]) eq_refl).
  - eexists. split; [done|]. wait_step Hb Hr.
  - eexists. split; [done|]. by split_and!.
Qed.

Lemma next2_fut1 f :
  exists out, With2_next hnd cfg2 (mkW2 true req None (Some f) None None [W_extract 1]) = Ret out /\
    out2 out (fut_bind f then1) (W_extract 1 :: calls_after (fut_result f) with2_rest).
Proof.
  pose proof (fut_poll_bind f then1) as Hb. pose proof (fun a => next2_fut2 a (from_request req cfg2)) as Hn.
  unfold With2_next in *. cbn [With2_fut1 w2_fut1] in *.
  destruct (fut_poll f) as [[a| |e] f']; destruct Hb as [Hb Hr]; rewrite ?Hr; cbn [calls_after].
  - rewrite Hb. exact (Hn a).
  - eexists. split; [done|]. wait_step Hb Hr.
  - eexists. split; [done|]. by split_and!.
Qed.

Lemma first2 : out2 (With2_first hnd cfg1 cfg2 (With2_fut req)) with2_ref with2_calls.
Proof.
  unfold With2_first, with2_ref, with2_calls, with2_rest. cbn [With2_fut start_w2 log_w2 w2_req app].
  pose proof (fut_poll_bind (from_request req cfg1) then1) as Hb.
  destruct (fut_poll (from_request req cfg1)) as [[a| |e] f1]; destruct Hb as [Hb Hr];
    [rewrite Hr; cbn [calls_after]|wait_step Hb Hr|by rewrite Hr; split_and!].
  rewrite Hb. unfold then1. clear Hb Hr. pose proof (fut_poll_bind (from_request req cfg2) (then2 a)) as Hb.
  destruct (fut_poll (from_request req cfg2)) as [[b| |e] f2]; destruct Hb as [Hb Hr];
    [rewrite Hr; cbn [calls_after]|wait_step Hb Hr|by rewrite Hr; split_and!].
  rewrite Hb. exact (call2 a b (mkW2 true req None None None None [W_extract 1; W_extract 2]) eq_refl).
Qed.

Lemma poll2_out w out g cs :
  w2_fut3 w = None ->
  (if negb (w2_started w) then Ret (With2_first hnd cfg1 cfg2 w) else With2_next hnd cfg2 w) = Ret out ->
  out2 out g cs ->
  exists r w', With2_poll hnd cfg1 cfg2 w = Ret (r, w') /\ answers w2_calls at2 r w' g cs.
Proof.
  intros Hn Ho Hout. unfold With2_poll. change 2%nat with (S 1). remember 1%nat as one eqn:Hone.
  cbn [With2_poll_fuel]. rewrite Hn, Ho. cbn [mbind run_bind]. subst one.
  destruct out as [[r|fut] w']; [by eexists _, _|]. destruct Hout as [-> Hcs]. by apply poll2_fut3.
Qed.

Lemma step2 w g cs :
  at2 w g cs -> exists r w', With2_poll hnd cfg1 cfg2 w = Ret (r, w') /\ answers w2_calls at2 r w' g cs.
Proof.
  intros [|f|a f|w' f cs' Hf Hcs].
  - by eapply poll2_out; [..|apply first2].
  - destruct (next2_fut1 f) as (out & Hn & Ho). by eapply poll2_out.
  - destruct (next2_fut2 a f) as (out & Hn & Ho). by eapply poll2_out.
  - by apply poll2_fut3.
Qed.
End Two.

(** *** One extractor *)
Section One.
Context {T Rr : Type} {FT : FromRequest (R := R) (H := H) (St := St) T}.
Context {RR : Responder (R := R) (H := H) (St := unit) Rr}.
Context (hnd : T -> Rr) (cfg : Config (T := T)) (req : Rq).

Definition then_handler (a : T) : Fut Resp := reply_fut (respond_to (hnd a) (drop_state req)).
Definition with_ref : Fut Resp := fut_bind (from_request req cfg) then_handler.
Definition with_calls : list wcall := W_extract 1 :: calls_after (fut_result (from_request req cfg)) [W_handler].

Inductive at1 : WithHandlerFut -> Fut Resp -> list wcall -> Prop :=
| at1_start : at1 (With_fut req) with_ref with_calls
| at1_fut1 f : at1 (mkW1 true req (Some f) None [W_extract 1]) (fut_bind f then_handler)
    (W_extract 1 :: calls_after (fut_result f) [W_handler])
| at1_fut2 w f cs : w1_fut2 w = Some f -> w1_calls w = cs -> at1 w f cs.

Lemma poll1_fut2 w f cs n :
  w1_fut2 w = Some f -> w1_calls w = cs ->
  exists r w', With_poll_fuel hnd cfg (S n) w = Ret (r, w') /\ answers w1_calls at1 r w' f cs.
Proof.
  intros Hf Hcs. cbn [With_poll_fuel]. rewrite Hf. destruct (fut_poll f) as [r f'] eqn:Hp.
  eexists _, _. split; [done|]. unfold answers. rewrite Hp. split_and!; [done|intros _; by constructor|by intros _].
Qed.

Lemma poll1_item w w' item g :
  w1_fut2 w = None -> With_extract cfg w = Ret (inl item, w') -> w1_req w' = req -> g = then_handler item ->
  exists r w'', With_poll hnd cfg w = Ret (r, w'') /\ answers w1_calls at1 r w'' g (w1_calls w' ++ [W_handler]).
Proof.
  intros Hn He Hreq ->. unfold With_poll, then_handler. change 2%nat with (S 1). remember 1%nat as one eqn:Hone.
  cbn [With_poll_fuel]. rewrite Hn, He. cbn [mbind run_bind log_w1 w1_req]. rewrite Hreq. subst one.
  destruct (respond_to _ _) as [[resp|fut]|e]; [by eexists _, _|by apply poll1_fut2|by eexists _, _].
Qed.

Ltac eval1 Hp :=
  unfold With_poll, With_fut;
  cbn [With_poll_fuel With_extract w1_fut2 w1_fut1 w1_started w1_req negb start_w1 log_w1 set_w1_fut1 w1_calls
       mbind run_bind unwrap app];
  rewrite Hp; cbn [mbind run_bind].

Lemma step1 w g cs :
  at1 w g cs -> exists r w', With_poll hnd cfg w = Ret (r, w') /\ answers w1_calls at1 r w' g cs.
Proof.
  intros [|f|w' f cs' Hf Hcs]; [| |by apply poll1_fut2].
  - pose proof (fut_poll_bind (from_request req cfg) then_handler) as Hb. unfold with_calls, with_ref.
    destruct (fut_poll (from_request req cfg)) as [[a| |e] f'] eqn:Hp; destruct Hb as [Hb Hr]; rewrite ?Hr.
    + apply (poll1_item _ (mkW1 true req None None [W_extract 1]) a); [done| |done|done]. by eval1 Hp.
    + eval1 Hp. eexists _, _. split; [done|]. wait_step Hb Hr.
    + eval1 Hp. by eexists _, _; split_and!.
  - pose proof (fut_poll_bind f then_handler) as Hb.
    destruct (fut_poll f) as [[a| |e] f'] eqn:Hp; destruct Hb as [Hb Hr]; rewrite ?Hr.
    + apply (poll1_item _ (mkW1 true req (Some f') None [W_extract 1]) a); [done| |done|done]. by eval1 Hp.
    + eval1 Hp. eexists _, _. split; [done|]. wait_step Hb Hr.
    + eval1 Hp. by eexists _, _; split_and!.
Qed.
End One.

(** C19. Extractors run in order, and the handler once after them: a handler of one, two or
    three extracted arguments answers, in every poll from [handle] on, exactly what its
    extractors, the call of the handler and the future of its reply amount to one after
    the other; nothing panics; each extractor runs once and the next one only after it
    succeeded, and the handler is called once if all of them did and else never. *)
Theorem extractors_in_order {T1 T2 T3 Rr : Type}
  {FT1 : FromRequest (R := R) (H := H) (St := St) T1} {FT2 : FromRequest (R := R) (H := H) (St := St) T2}
  {FT3 : FromRequest (R := R) (H := H) (St := St) T3} {RR : Responder (R := R) (H := H) (St := unit) Rr}
  (h1 : T1 -> Rr) (h2 : T1 -> T2 -> Rr) (h3 : T1 -> T2 -> T3 -> Rr)
  (cfg1 : Config (T := T1)) (cfg2 : Config (T := T2)) (cfg3 : Config (T := T3)) (req : Rq) :
  handled_as (With_poll h1 cfg1) w1_calls (With_handle h1 cfg1 req) (with_ref h1 cfg1 req) (with_calls cfg1 req) /\
  handled_as (With2_poll h2 cfg1 cfg2) w2_calls (With2_handle h2 cfg1 cfg2 req)
    (with2_ref h2 cfg1 cfg2 req) (with2_calls cfg1 cfg2 req) /\
  handled_as (With3_poll h3 cfg1 cfg2 cfg3) w3_calls (With3_handle h3 cfg1 cfg2 cfg3 req)
    (with3_ref h3 cfg1 cfg2 cfg3 req) (with3_calls cfg1 cfg2 cfg3 req).
Proof.
  split_and!.
  - exact (handled _ _ _ _ _ _ (step1 h1 cfg1 req) (at1_start h1 cfg1 req)).
  - exact (handled _ _ _ _ _ _ (step2 h2 cfg1 cfg2 req) (at2_start h2 cfg1 cfg2 req)).
  - exact (handled _ _ _ _ _ _ (step3 h3 cfg1 cfg2 cfg3 req) (at3_start h3 cfg1 cfg2 cfg3 req)).
Qed.

End Facts.
