(* ===== verification/De.v ===== *)
(** * Deserialization of path parameters (src/de.rs; [Path] and [Query] of src/extractor.rs)

    serde makes a value in a dialogue: a type asks a [Deserializer] for a kind of data
    with a [Visitor], the deserializer calls one method of the visitor, and the visitor
    may ask on through the access it is handed.  A type and its visitors come from serde
    or from derived code; here a [Seed] is such a type: what it asks for, and its visitor
    as the answers and further questions of its methods.  [Val] holds the values of all
    deserialized types.  The deserializers of the source are definitions over them.

    A visitor of a sequence or of a map is a machine of its own, which may ask for ever:
    it runs with fuel, and the theorems say how many questions are enough.  The text of
    the [Debug] format of strings and the parsing of floating point numbers are
    parameters. *)
From S2P Require Import Prelude StrLib Errors Http Response Router RouterFacts Pipeline.
Open Scope Z_scope.

(** ** Parsing of scalars ([FromStr] of the standard library) *)

Definition int_min (signed : bool) (w : Z) : Z := if signed then - 2 ^ (w - 1) else 0.
Definition int_max (signed : bool) (w : Z) : Z := if signed then 2 ^ (w - 1) - 1 else 2 ^ w - 1.
Definition int_fits (signed : bool) (w z : Z) : bool := (int_min signed w <=? z) && (z <=? int_max signed w).

(** The checked multiplication and the checked addition or subtraction of each digit. *)
Fixpoint int_digits (signed : bool) (w : Z) (neg : bool) (acc : Z) (s : bytes) : option Z :=
  match s with
  | [] => Some acc
  | b :: s =>
      if (48 <=? b) && (b <=? 57) then
        let m := acc * 10 in
        if int_fits signed w m then
          let acc := if neg then m - (b - 48) else m + (b - 48) in
          if int_fits signed w acc then int_digits signed w neg acc s else None
        else None
      else None
  end.
Definition parse_int (signed : bool) (w : Z) (s : bytes) : option Z :=
  let '(neg, digits) :=
    match s with
    | 43 :: r => (false, r)
    | 45 :: r => if signed then (true, r) else (false, s)
    | _ => (false, s)
    end in
  match digits with [] => None | _ => int_digits signed w neg 0 digits end.

Definition parse_bool (s : bytes) : option bool :=
  if bool_decide (s = b#"true") then Some true else if bool_decide (s = b#"false") then Some false else None.

(** A [char] is the bytes of its encoding. *)
Definition char_from_str (s : bytes) : option bytes :=
  match s with
  | [] => None
  | _ => match utf8_step s with inl n => if (n =? length s)%nat then Some s else None | inr _ => None end
  end.

(** ** The dialogue *)

(** [serde::de::value::Error] is its text. *)
Inductive DeError : Type := mkDe (text : bytes).
#[export] Instance DeError_status : ResponseError DeError := fun _ => 400.

(** The scalars with a [parse_value!] method. *)
Inductive Scalar : Type :=
| T_bool | T_int (signed : bool) (w : Z) | T_f32 | T_f64 | T_string | T_byte_buf | T_char.

(** The methods of [Deserializer]. *)
Inductive DeMethod : Type :=
| R_any | R_scalar (t : Scalar) | R_str | R_bytes | R_option | R_unit | R_unit_struct
| R_newtype_struct | R_seq | R_tuple (len : Z) | R_tuple_struct (len : Z) | R_map | R_struct
| R_enum | R_identifier | R_ignored_any.

Section Dialogue.
Context {F Val : Type}.
Notation Res := (result Val DeError).

(** The argument of [visit_bool], [visit_i8] and so on. *)
Inductive Parsed : Type :=
| P_bool (b : bool) | P_int (signed : bool) (w z : Z) | P_float (f : F) | P_string (s : bytes) | P_char (c : bytes).

(** What a visitor does next with a [SeqAccess], a [MapAccess], a [VariantAccess]. *)
Inductive SeqAsk (S St : Type) : Type :=
| Seq_return (r : Res)
| Seq_next (s : S) (k : result (option Val) DeError -> St).
Inductive MapAsk (S St : Type) : Type :=
| Map_return (r : Res)
| Map_key (s : S) (k : result (option Val) DeError -> St)
| Map_value (s : S) (k : Res -> St).
Inductive VariantAsk (S : Type) : Type :=
| Variant_return (r : Res)
| Variant_unit (k : result unit DeError -> Res)
| Variant_newtype (s : S) (k : Res -> Res)
| Variant_tuple (len : Z) (k : Res -> Res)
| Variant_struct (k : Res -> Res).

Inductive Seed : Type := mkSeed (r : DeMethod) (v : Visitor)
with Visitor : Type := mkVisitor
  (visit_parsed : Parsed -> Res)
  (visit_str visit_borrowed_str visit_borrowed_bytes : bytes -> Res)
  (visit_unit : Res)
  (visit_some visit_newtype_struct : Call)
  (visit_seq : SeqVisitor)
  (visit_map : MapVisitor)
  (visit_enum : EnumVisitor)
(** [visit_some] and [visit_newtype_struct]: an error, or the inner type's dialogue with
    the same deserializer. *)
with Call : Type := Refuses (e : DeError) | Deserializes (s : Seed) (k : Res -> Res)
with SeqVisitor : Type := mkSeqV (St : Type) (start : St) (step : St -> SeqAsk Seed St)
with MapVisitor : Type := mkMapV (St : Type) (start : St) (step : St -> MapAsk Seed St)
with EnumVisitor : Type := Enum_refuses (e : DeError) | Enum_asks (s : Seed) (k : Res -> VariantAsk Seed).

Definition visit_parsed (v : Visitor) := let 'mkVisitor f _ _ _ _ _ _ _ _ _ := v in f.
Definition visit_str (v : Visitor) := let 'mkVisitor _ f _ _ _ _ _ _ _ _ := v in f.
Definition visit_borrowed_str (v : Visitor) := let 'mkVisitor _ _ f _ _ _ _ _ _ _ := v in f.
Definition visit_borrowed_bytes (v : Visitor) := let 'mkVisitor _ _ _ f _ _ _ _ _ _ := v in f.
Definition visit_unit (v : Visitor) := let 'mkVisitor _ _ _ _ r _ _ _ _ _ := v in r.
Definition visit_seq (v : Visitor) := let 'mkVisitor _ _ _ _ _ _ _ q _ _ := v in q.
Definition visit_map (v : Visitor) := let 'mkVisitor _ _ _ _ _ _ _ _ m _ := v in m.

Context (debug_str : bytes -> bytes) (parse_f32 parse_f64 : bytes -> option F).

(** ** Errors *)
Definition unsupported_type (name : bytes) : DeError := mkDe (b#"unsupported type: " ++ name).
Definition wrong_number (n expected : Z) : DeError :=
  mkDe (b#"wrong number of parameters: " ++ format_decimal n ++ b#" expected " ++ format_decimal expected).
Definition can_not_parse (value tp : bytes) : DeError :=
  mkDe (b#"can not parse " ++ debug_str value ++ b#" to a " ++ tp).

(** The literals of [parse_value!] and [parse_single_value!], which agree. *)
Definition type_literal (t : Scalar) : bytes :=
  match t with
  | T_bool => b#"bool"
  | T_int true w => if w =? 32 then b#"i16" else b#"i" ++ format_decimal w
  | T_int false w => b#"u" ++ format_decimal w
  | T_f32 => b#"f32" | T_f64 => b#"f64" | T_string | T_byte_buf => b#"String" | T_char => b#"char"
  end.

Definition parse_scalar (t : Scalar) (s : bytes) : option Parsed :=
  match t with
  | T_bool => P_bool <$> parse_bool s
  | T_int signed w => P_int signed w <$> parse_int signed w s
  | T_f32 => P_float <$> parse_f32 s
  | T_f64 => P_float <$> parse_f64 s
  | T_string | T_byte_buf => Some (P_string s)
  | T_char => P_char <$> char_from_str s
  end.

(** ** [Key]: every method but one is [deserialize_any] *)
Definition key_deserialize (key : bytes) (s : Seed) : Res :=
  match s with
  | mkSeed R_identifier v => visit_str v key
  | _ => Err (mkDe (b#"Unexpected"))
  end.

(** ** [UnitVariant] *)
Definition unit_variant : result unit DeError := Ok tt.
Definition newtype_variant_seed (s : Seed) : Res := Err (mkDe (b#"not supported")).
Definition tuple_variant (len : Z) : Res := Err (mkDe (b#"not supported")).
Definition struct_variant : Res := Err (mkDe (b#"not supported")).
Definition variant_access (a : VariantAsk Seed) : Res :=
  match a with
  | Variant_return _ r => r
  | Variant_unit _ k => k unit_variant
  | Variant_newtype _ s k => k (newtype_variant_seed s)
  | Variant_tuple _ len k => k (tuple_variant len)
  | Variant_struct _ k => k struct_variant
  end.

(** ** [ValueEnum] *)
Definition variant_seed (value : bytes) (s : Seed) : Res := key_deserialize value s.
Definition visit_value_enum (value : bytes) (ev : EnumVisitor) : Res :=
  match ev with
  | Enum_refuses e => Err e
  | Enum_asks s k => variant_access (k (variant_seed value s))
  end.

(** ** [Value] *)
Definition parse_value (t : Scalar) (value : bytes) (v : Visitor) : Res :=
  match parse_scalar t value with
  | Some p => visit_parsed v p
  | None => Err (can_not_parse value (type_literal t))
  end.
Fixpoint value_deserialize (value : bytes) (s : Seed) {struct s} : Res :=
  let call (c : Call) :=
    match c with Refuses e => Err e | Deserializes s k => k (value_deserialize value s) end in
  match s with
  | mkSeed r (mkVisitor _ _ _ _ _ some newtype _ _ enum as v) =>
      match r with
      | R_scalar t => parse_value t value v
      | R_ignored_any | R_unit | R_unit_struct => visit_unit v
      | R_bytes => visit_borrowed_bytes v value
      | R_str => visit_borrowed_str v value
      | R_option => call some
      | R_enum => visit_value_enum value enum
      | R_newtype_struct => call newtype
      | R_tuple _ => Err (unsupported_type (b#"tuple"))
      | R_struct => Err (unsupported_type (b#"struct"))
      | R_tuple_struct _ => Err (unsupported_type (b#"tuple struct"))
      | R_any => Err (unsupported_type (b#"any"))
      | R_seq => Err (unsupported_type (b#"seq"))
      | R_map => Err (unsupported_type (b#"map"))
      | R_identifier => Err (unsupported_type (b#"identifier"))
      end
  end.

(** ** [ParamsSeq]: the rest of the parameters *)
Definition next_element_seed (s : Seed) (params : Params) : result (option Val) DeError * Params :=
  match params with
  | item :: params =>
      (match value_deserialize item.2 s with Ok x => Ok (Some x) | Err e => Err e end, params)
  | [] => (Ok None, [])
  end.
Fixpoint run_seq (fuel : nat) {St} (step : St -> SeqAsk Seed St) (st : St) (params : Params) : run Res :=
  match fuel with
  | O => Timeout
  | S fuel =>
      match step st with
      | Seq_return _ _ r => Ret r
      | Seq_next _ _ s k => let '(x, params) := next_element_seed s params in run_seq fuel step (k x) params
      end
  end.

(** ** [ParamsDeserializer] *)
Record ParamsDeserializer : Type := mkPD { pd_params : Params; pd_current : option (bytes * bytes) }.
Definition next_key_seed (s : Seed) (d : ParamsDeserializer)
  : result (option Val) DeError * ParamsDeserializer :=
  let d := mkPD (tail (pd_params d)) (head (pd_params d)) in
  match pd_current d with
  | Some (key, _) => (match key_deserialize key s with Ok x => Ok (Some x) | Err e => Err e end, d)
  | None => (Ok None, d)
  end.
Definition next_value_seed (s : Seed) (d : ParamsDeserializer) : Res * ParamsDeserializer :=
  match pd_current d with
  | Some (_, value) => (value_deserialize value s, mkPD (pd_params d) None)
  | None => (Err (mkDe (b#"unexpected item")), mkPD (pd_params d) None)
  end.
Fixpoint run_map (fuel : nat) {St} (step : St -> MapAsk Seed St) (st : St) (d : ParamsDeserializer) : run Res :=
  match fuel with
  | O => Timeout
  | S fuel =>
      match step st with
      | Map_return _ _ r => Ret r
      | Map_key _ _ s k => let '(x, d) := next_key_seed s d in run_map fuel step (k x) d
      | Map_value _ _ s k => let '(x, d) := next_value_seed s d in run_map fuel step (k x) d
      end
  end.

(** ** [PathDeserializer]: the parameters of the matched path *)
Definition parse_single_value (t : Scalar) (params : Params) (v : Visitor) : run Res :=
  if negb (params_len params =? 1) then Ret (Err (wrong_number (params_len params) 1))
  else
    value ← params_index_usize 0 params;
    match parse_scalar t value with
    | Some p => Ret (visit_parsed v p)
    | None => Ret (Err (can_not_parse value (type_literal t)))
    end.
Definition path_str (params : Params) (v : Visitor) : run Res :=
  if negb (params_len params =? 1) then Ret (Err (wrong_number (params_len params) 1))
  else value ← params_index_usize 0 params; Ret (visit_str v value).
Definition path_seq (fuel : nat) (params : Params) (v : Visitor) : run Res :=
  let 'mkSeqV _ start step := visit_seq v in run_seq fuel step start params.
Definition path_map (fuel : nat) (params : Params) (v : Visitor) : run Res :=
  let 'mkMapV _ start step := visit_map v in run_map fuel step start (mkPD params None).
Definition path_tuple (fuel : nat) (params : Params) (len : Z) (v : Visitor) : run Res :=
  if params_len params <? len then Ret (Err (wrong_number (params_len params) len)) else path_seq fuel params v.
Fixpoint path_deserialize (fuel : nat) (params : Params) (s : Seed) {struct s} : run Res :=
  match s with
  | mkSeed r (mkVisitor _ _ _ _ _ _ newtype _ _ _ as v) =>
      match r with
      | R_map | R_struct => path_map fuel params v
      | R_unit | R_unit_struct => Ret (visit_unit v)
      | R_newtype_struct =>
          match newtype with
          | Refuses e => Ret (Err e)
          | Deserializes s k => x ← path_deserialize fuel params s; Ret (k x)
          end
      | R_tuple len | R_tuple_struct len => path_tuple fuel params len v
      | R_enum => Ret (Err (unsupported_type (b#"enum")))
      | R_str => path_str params v
      | R_seq => path_seq fuel params v
      | R_any => Ret (Err (unsupported_type (b#"'any'")))
      | R_bytes => Ret (Err (unsupported_type (b#"bytes")))
      | R_option => Ret (Err (unsupported_type (b#"Option<T>")))
      | R_identifier => Ret (Err (unsupported_type (b#"identifier")))
      | R_ignored_any => Ret (Err (unsupported_type (b#"ignored_any")))
      | R_scalar t => parse_single_value t params v
      end
  end.

(** ** The extractors [Path] and [Query] *)
Section Extractors.
Context {R : Type} `{Hre : RegexCrate R} {H : Type} `{Hhm : HeaderMap H} `{Huri : UriCrate} {St : Type}.

(** A [FutureResult]. *)
Definition future_result {A} (r : result A Error) : Fut A := mkFut (Some O) r.
Definition from_de {A} (r : result A DeError) : result A Error :=
  match r with Ok x => Ok x | Err e => Err (Error_from e) end.

(** [T] is the type's dialogue; [Path { inner }] is the value. *)
Definition Path_from_request (fuel : nat) (T : Seed) (req : HttpRequest R H St) : run (Fut Val) :=
  r ← path_deserialize fuel (req_match_info req) T; Ret (future_result (from_de r)).

(** With [serde_urlencoded::from_str] of the type. *)
Definition Query_from_request (from_str : bytes -> result Val DeError) (req : HttpRequest R H St) : Fut Val :=
  future_result (from_de (from_str (req_query_string req))).
End Extractors.
End Dialogue.
Arguments SeqVisitor : clear implicits. Arguments MapVisitor : clear implicits.
Arguments Seed : clear implicits. Arguments Visitor : clear implicits. Arguments Parsed : clear implicits.

(** ** Parsing of integers *)

(** The text of an integer. *)
Definition format_int (z : Z) : bytes := if z <? 0 then 45 :: format_decimal (- z) else format_decimal z.


(** The value of a text of digits, ignoring the width of the type. *)
Definition is_digit (b : Z) : bool := (48 <=? b) && (b <=? 57).
Definition add_digit (neg : bool) (acc b : Z) : Z := if neg then acc * 10 - (b - 48) else acc * 10 + (b - 48).
Definition digits_value (neg : bool) (acc : Z) (s : bytes) : Z := foldl (add_digit neg) acc s.
Definition fitting (signed : bool) (w : Z) (z : Z) : option Z := if int_fits signed w z then Some z else None.

Definition agrees (neg : bool) (z : Z) : Prop := if neg then z <= 0 else 0 <= z.

Lemma digits_value_grows neg acc s :
  agrees neg acc -> forallb is_digit s = true ->
  agrees neg (digits_value neg acc s) /\ Z.abs acc <= Z.abs (digits_value neg acc s).
Proof.
  revert acc. induction s as [|b s IH]; intros acc Ha Hs; [done|]. cbn in Hs.
  apply andb_true_iff in Hs as [Hb Hs]. unfold is_digit in Hb.
  change (digits_value neg acc (b :: s)) with (digits_value neg (add_digit neg acc b) s).
  assert (agrees neg (add_digit neg acc b) /\ Z.abs acc <= Z.abs (add_digit neg acc b)) as [Ha' Hle].
  { unfold agrees, add_digit in *. destruct neg; lia. }
  destruct (IH _ Ha' Hs). split; [done|lia].
Qed.

(** What does not fit does not fit when it grows. *)
Lemma unfit_grows signed w neg y z :
  0 < w -> agrees neg y -> agrees neg z -> Z.abs y <= Z.abs z ->
  int_fits signed w y = false -> int_fits signed w z = false.
Proof.
  intros Hw Hy Hz Hle. pose proof (Z.pow_pos_nonneg 2 (w - 1)). pose proof (Z.pow_pos_nonneg 2 w).
  unfold int_fits, int_min, int_max, agrees in *. destruct neg, signed; lia.
Qed.

(** The checks of every step come to one check of the value. *)
Lemma int_digits_value signed w neg acc s :
  0 < w -> agrees neg acc -> int_fits signed w acc = true ->
  int_digits signed w neg acc s = if forallb is_digit s then fitting signed w (digits_value neg acc s) else None.
Proof.
  intros Hw. revert acc. induction s as [|b s IH]; intros acc Ha Hf.
  { cbn. unfold fitting. by rewrite Hf. }
  cbn [int_digits forallb]. unfold is_digit at 1. destruct ((48 <=? b) && (b <=? 57)) eqn:Hb; [|done].
  change (digits_value neg acc (b :: s)) with (digits_value neg (add_digit neg acc b) s). cbn [andb].
  change (if neg then acc * 10 - (b - 48) else acc * 10 + (b - 48)) with (add_digit neg acc b).
  assert (agrees neg (add_digit neg acc b) /\ agrees neg (acc * 10) /\ Z.abs (acc * 10) <= Z.abs (add_digit neg acc b))
    as (Ha' & Hm & Hle) by (unfold agrees, add_digit in *; destruct neg; lia).
  assert (int_fits signed w (add_digit neg acc b) = false ->
    None = if forallb is_digit s then fitting signed w (digits_value neg (add_digit neg acc b) s) else None) as Hno.
  { intros Hn. destruct (forallb is_digit s) eqn:Hs; [|done].
    destruct (digits_value_grows neg (add_digit neg acc b) s Ha' Hs) as [Hv Hg]. unfold fitting.
    by rewrite (unfit_grows signed w neg _ _ Hw Ha' Hv Hg Hn). }
  destruct (int_fits signed w (acc * 10)) eqn:Hfm.
  - destruct (int_fits signed w (add_digit neg acc b)) eqn:Hfa; [by apply IH|by apply Hno].
  - apply Hno. by apply (unfit_grows signed w neg (acc * 10)).
Qed.

(** The sign of a text and what is behind it; only signed types know a minus. *)
Definition split_sign (signed : bool) (s : bytes) : bool * bytes :=
  match s with
  | 43 :: r => (false, r)
  | 45 :: r => if signed then (true, r) else (false, s)
  | _ => (false, s)
  end.

(** [parse_int] against its meaning: the value of one or more digits behind an optional
    sign, when it fits. *)
Lemma parse_int_spec signed w s :
  0 < w ->
  parse_int signed w s =
    let '(neg, ds) := split_sign signed s in
    if bool_decide (ds <> []) && forallb is_digit ds then fitting signed w (digits_value neg 0 ds) else None.
Proof.
  intros Hw. unfold parse_int. fold (split_sign signed s). destruct (split_sign signed s) as [neg ds].
  destruct ds as [|d ds]; [done|]. rewrite bool_decide_true by done.
  rewrite int_digits_value; [done|done|by destruct neg|].
  pose proof (Z.pow_pos_nonneg 2 (w - 1)). pose proof (Z.pow_pos_nonneg 2 w).
  unfold int_fits, int_min, int_max. destruct signed; lia.
Qed.

Lemma digits_value_map neg acc ds :
  Forall (fun d => 0 <= d < 10) ds ->
  forallb is_digit (map digit_char ds) = true /\
  digits_value neg acc (map digit_char ds) = foldl (fun a d => if neg then a * 10 - d else a * 10 + d) acc ds.
Proof.
  intros Hds. revert acc. induction Hds as [|d ds Hd _ IH]; intros acc; [done|]. cbn [map forallb].
  destruct (IH (add_digit neg acc (digit_char d))) as [-> He]. rewrite digit_char_decimal in * by done.
  split; [unfold is_digit; lia|].
  change (digits_value neg acc (48 + d :: map digit_char ds)) with
    (digits_value neg (add_digit neg acc (48 + d)) (map digit_char ds)).
  rewrite He. cbn [foldl]. f_equal. unfold add_digit. by destruct neg; lia.
Qed.
Lemma foldl_neg acc ds :
  foldl (fun a d => a * 10 - d) (- acc) ds = - foldl (fun a d => a * 10 + d) acc ds.
Proof.
  revert acc. induction ds as [|d ds IH]; intros acc; [done|]. cbn [foldl]. rewrite <-IH. f_equal. lia.
Qed.

Lemma format_decimal_value neg n :
  0 <= n ->
  exists d ds, format_decimal n = d :: ds /\ is_digit d = true /\ forallb is_digit (d :: ds) = true /\
    digits_value neg 0 (d :: ds) = if neg then - n else n.
Proof.
  intros Hn. unfold format_decimal. destruct (format_digits 10 n) as (ds & -> & Hds & Hv & Hne); [lia..|].
  destruct (digits_value_map neg 0 ds Hds) as [Hd He]. destruct ds as [|d ds]; [done|].
  exists (digit_char d), (map digit_char ds). split; [done|]. split; [by apply andb_true_iff in Hd as [? _]|].
  split; [done|]. etransitivity; [exact He|]. unfold from_digits in Hv. destruct neg; [|done].
  by rewrite <-Hv, <-(foldl_neg 0 (d :: ds)).
Qed.

(** The text of an integer is parsed to the integer exactly by the types it fits. *)
Lemma parse_format_int signed w z :
  0 < w -> (signed = false -> 0 <= z) -> parse_int signed w (format_int z) = fitting signed w z.
Proof.
  intros Hw Hs. rewrite parse_int_spec by done. unfold format_int. destruct (Z.ltb_spec z 0).
  - destruct signed; [|lia]. cbn [split_sign].
    destruct (format_decimal_value true (- z)) as (d & ds & -> & _ & -> & ->); [lia|].
    rewrite bool_decide_true by done. cbn [andb]. f_equal. lia.
  - destruct (format_decimal_value false z) as (d & ds & -> & Hd & Hds & Hv); [lia|].
    assert (split_sign signed (d :: ds) = (false, d :: ds)) as ->.
    { unfold is_digit in Hd. unfold split_sign. repeat case_match; simplify_eq; done. }
    by rewrite Hds, Hv, bool_decide_true by done.
Qed.

(** ** Dialogues of tuples and of structs *)
Section Facts.
Context {F Val : Type} (debug_str : bytes -> bytes) (parse_f32 parse_f64 : bytes -> option F).
Notation Res := (result Val DeError).
Notation Sd := (Seed F Val).
Notation value_of := (value_deserialize debug_str parse_f32 parse_f64).
Notation path_de := (path_deserialize debug_str parse_f32 parse_f64).

(** A machine that asks for elements of the given types in turn, gives the first error
    back, and makes its value of all of them. *)
Inductive asks_elements {S} (step : S -> SeqAsk Sd S) : S -> list Sd -> (list Val -> Res) -> Prop :=
| asks_none st f : step st = Seq_return _ _ (f []) -> asks_elements step st [] f
| asks_one st s ss f k :
    step st = Seq_next _ _ s k ->
    (forall e, step (k (Err e)) = Seq_return _ _ (Err e)) ->
    (forall x, asks_elements step (k (Ok (Some x))) ss (fun xs => f (x :: xs))) ->
    asks_elements step st (s :: ss) f.

Lemma asks_ext {S} (step : S -> SeqAsk Sd S) st ss f g :
  (forall xs, f xs = g xs) -> asks_elements step st ss f -> asks_elements step st ss g.
Proof.
  intros Hfg Ha. revert g Hfg. induction Ha as [st f Hs|st s ss f k Hs He _ IH]; intros g Hfg.
  - constructor. by rewrite Hs, Hfg.
  - eapply asks_one; [exact Hs|exact He|]. intros x. apply IH. intros xs. apply Hfg.
Qed.

(** The visitor of a tuple. *)
Definition visits_tuple (v : Visitor F Val) (ss : list Sd) (f : list Val -> Res) : Prop :=
  match visit_seq v with mkSeqV St start step => asks_elements step start ss f end.

(** The reference: element [i] from parameter [i], up to the first error. *)
Fixpoint elements (ss : list Sd) (params : Params) : result (list Val) DeError :=
  match ss, params with
  | s :: ss, (_, value) :: params =>
      match value_of value s with
      | Ok x => match elements ss params with Ok xs => Ok (x :: xs) | Err e => Err e end
      | Err e => Err e
      end
  | _, _ => Ok []
  end.
Definition and_then {A B} (r : result A DeError) (f : A -> result B DeError) : result B DeError :=
  match r with Ok x => f x | Err e => Err e end.

Lemma run_seq_elements {S} (step : S -> SeqAsk Sd S) st ss f params n :
  asks_elements step st ss f -> (length ss <= length params)%nat ->
  run_seq debug_str parse_f32 parse_f64 (1 + length ss + n) step st params = Ret (and_then (elements ss params) f).
Proof.
  intros Ha. revert params. induction Ha as [st f Hs|st s ss f k Hs He _ IH]; intros params Hl.
  { cbn. by rewrite Hs. }
  destruct params as [|[name value] params]; [cbn in Hl; lia|]. cbn [length elements] in *.
  change (1 + Datatypes.S (length ss) + n)%nat with (Datatypes.S (1 + length ss + n)). cbn [run_seq].
  rewrite Hs. unfold next_element_seed. cbn [snd].
  destruct (value_of value s) as [x|e].
  - rewrite IH by lia. by destruct (elements ss params).
  - cbn [Nat.add run_seq]. by rewrite He.
Qed.

(** The visitor of a struct as serde derives it: it asks for a key; refuses it, as one that
    was read before ([duplicate_field]), or asks for the value that belongs to it (also to
    ignore it, for a key that is no field); gives the first error back; and behind the last
    key makes its value, or reports a missing field.  [at_] is what it holds after some
    keys and values, [refuse] which key it refuses then. *)
Record MapReader {S} (step : S -> MapAsk Sd S) (at_ : list (Val * Val) -> S)
  (mr_key : list (Val * Val) -> result (option Val) DeError -> S) (mr_value : list (Val * Val) -> Val -> Res -> S)
  (key : Sd) (refuse : list (Val * Val) -> Val -> option DeError) (value : Val -> Sd) (f : list (Val * Val) -> Res) : Prop := {
  mr_at acc : step (at_ acc) = Map_key _ _ key (mr_key acc);
  mr_end acc : step (mr_key acc (Ok None)) = Map_return _ _ (f acc);
  mr_key_err acc e : step (mr_key acc (Err e)) = Map_return _ _ (Err e);
  mr_some acc k :
    step (mr_key acc (Ok (Some k))) =
    match refuse acc k with
    | Some e => Map_return _ _ (Err e)
    | None => Map_value _ _ (value k) (mr_value acc k)
    end;
  mr_value_err acc k e : step (mr_value acc k (Err e)) = Map_return _ _ (Err e);
  mr_next acc k x : refuse acc k = None -> mr_value acc k (Ok x) = at_ (acc ++ [(k, x)]);
}.

Definition visits_map (v : Visitor F Val) (key : Sd) (refuse : list (Val * Val) -> Val -> option DeError)
    (value : Val -> Sd) (f : list (Val * Val) -> Res) : Prop :=
  match visit_map v with
  | mkMapV St start step => exists at_ mk mv, start = at_ [] /\ MapReader step at_ mk mv key refuse value f
  end.

(** The reference: keys and values in the order of the path, up to the first error. *)
Fixpoint entries (key : Sd) (refuse : list (Val * Val) -> Val -> option DeError) (value : Val -> Sd)
    (acc : list (Val * Val)) (params : Params) : result (list (Val * Val)) DeError :=
  match params with
  | (name, text) :: params =>
      and_then (key_deserialize name key) (fun k =>
      match refuse acc k with
      | Some e => Err e
      | None => and_then (value_of text (value k)) (fun x => entries key refuse value (acc ++ [(k, x)]) params)
      end)
  | [] => Ok acc
  end.

Lemma run_map_entries {S} (step : S -> MapAsk Sd S) at_ mk mv key refuse value f
  (HR : MapReader step at_ mk mv key refuse value f) acc params cur n :
  run_map debug_str parse_f32 parse_f64 (2 + 2 * length params + n) step (at_ acc) (mkPD params cur) =
  Ret (and_then (entries key refuse value acc params) f).
Proof.
  destruct HR as [Hat Hend Hke Hsome Hve Hnext].
  revert acc cur. induction params as [|[name text] params IH]; intros acc cur.
  { cbn. by rewrite Hat, Hend. }
  replace (2 + 2 * length ((name, text) :: params) + n)%nat with (2 + (2 + 2 * length params + n))%nat by (cbn; lia).
  pose proof (fun k x => IH (acc ++ [(k, x)]) None) as IH'. clear IH. set (m := (2 + 2 * length params + n)%nat) in *.
  cbn [Nat.add run_map]. rewrite Hat. unfold next_key_seed. cbn [pd_params tail head pd_current entries].
  destruct (key_deserialize name key) as [k|e]; cbn [and_then].
  2:{ by rewrite Hke. }
  rewrite Hsome. destruct (refuse acc k) as [e|] eqn:Href; [done|]. unfold next_value_seed. cbn [pd_params pd_current].
  destruct (value_of text (value k)) as [x|e]; cbn [and_then].
  2:{ subst m. cbn [Nat.add run_map]. by rewrite Hve. }
  by rewrite Hnext, IH'.
Qed.
End Facts.

(** ** What the extractors give *)
Section Claims.
Context {F Val : Type} (debug_str : bytes -> bytes) (parse_f32 parse_f64 : bytes -> option F).
Notation Res := (result Val DeError).
Context {R : Type} `{Hre : RegexCrate R} {H : Type} `{Hhm : HeaderMap H} {St : Type}.

(** A tuple takes the values of the parameters by position, from at least as many. *)
Lemma path_tuple_extracted v ss (f : list Val -> Res) params fuel :
  visits_tuple v ss f -> (length ss < fuel)%nat ->
  path_tuple debug_str parse_f32 parse_f64 fuel params (lenZ ss) v =
  Ret (if params_len params <? lenZ ss then @Err Val _ (wrong_number (params_len params) (lenZ ss))
       else and_then (elements debug_str parse_f32 parse_f64 ss params) f).
Proof.
  intros Hv Hf. unfold path_tuple, params_len, path_seq, visits_tuple in *.
  destruct (Z.ltb_spec (lenZ params) (lenZ ss)) as [|Hl]; [done|]. destruct (visit_seq v) as [S st step].
  replace fuel with (1 + length ss + (fuel - 1 - length ss))%nat by lia.
  apply run_seq_elements; [done|]. unfold lenZ in Hl. lia.
Qed.

Lemma path_map_extracted v key refuse value (f : list (Val * Val) -> Res) params fuel :
  visits_map v key refuse value f -> (2 + 2 * length params <= fuel)%nat ->
  path_map debug_str parse_f32 parse_f64 fuel params v =
  Ret (and_then (entries debug_str parse_f32 parse_f64 key refuse value [] params) f).
Proof.
  unfold path_map, visits_map. destruct (visit_map v) as [S st step]. intros (at_ & mk & mv & -> & HR) Hf.
  replace fuel with (2 + 2 * length params + (fuel - 2 - 2 * length params))%nat by lia.
  by rewrite (run_map_entries debug_str parse_f32 parse_f64 step at_ mk mv key refuse value f HR).
Qed.

(** A map with keys of any type but an identifier gets nothing out of a path with
    parameters: a [HashMap] with [String] keys asks for a string. *)
Lemma path_map_refused v t kv refuse value (f : list (Val * Val) -> Res) params fuel :
  visits_map v (mkSeed (R_scalar t) kv) refuse value f -> params <> [] -> (2 + 2 * length params <= fuel)%nat ->
  path_deserialize debug_str parse_f32 parse_f64 fuel params (mkSeed R_map v) = Ret (Err (mkDe (b#"Unexpected"))).
Proof.
  intros Hv Hp Hf. pose proof (path_map_extracted v _ refuse value f params fuel Hv Hf) as He.
  destruct params as [|[name text] params]; [done|]. by destruct v.
Qed.

(** C20. [Path] gives a handler what the path says: a tuple takes the texts of the
    parameters by position, in order and up to the first that its element's type refuses,
    and is refused when there are fewer parameters than elements; a struct, whose visitor
    asks as derived ones do, is read from the names and texts of all parameters in their
    order, up to the first that it refuses, as a name for the second time; an integer is read from its
    decimal text exactly when it fits its type, and refused else.  Every refusal is an
    error of status 400, and the fuel is enough for all questions of the type. *)
Theorem path_extracted (fuel : nat) (v : Visitor F Val) (req : HttpRequest R H St) :
  (forall ss f, visits_tuple v ss f -> (length ss < fuel)%nat ->
    Path_from_request debug_str parse_f32 parse_f64 fuel (mkSeed (R_tuple (lenZ ss)) v) req =
    Ret (mkFut (Some O)
      (if params_len (req_match_info req) <? lenZ ss then Err (mkError 400)
       else match and_then (elements debug_str parse_f32 parse_f64 ss (req_match_info req)) f with
            | Ok x => Ok x | Err _ => Err (mkError 400) end))) /\
  (forall key refuse value f, visits_map v key refuse value f -> (2 + 2 * length (req_match_info req) <= fuel)%nat ->
    Path_from_request debug_str parse_f32 parse_f64 fuel (mkSeed R_struct v) req =
    Ret (mkFut (Some O)
      (match and_then (entries debug_str parse_f32 parse_f64 key refuse value [] (req_match_info req)) f with
       | Ok x => Ok x | Err _ => Err (mkError 400) end))) /\
  (forall signed w z, 0 < w -> (signed = false -> 0 <= z) ->
    value_deserialize debug_str parse_f32 parse_f64 (format_int z) (mkSeed (R_scalar (T_int signed w)) v) =
    if int_fits signed w z then visit_parsed v (P_int signed w z)
    else Err (can_not_parse debug_str (format_int z) (type_literal (T_int signed w)))).
Proof.
  unfold Path_from_request. split_and!.
  - intros ss f Hv Hf. pose proof (path_tuple_extracted v ss f (req_match_info req) fuel Hv Hf) as He.
    destruct v. cbn [path_deserialize]. rewrite He. cbn [mbind run_bind]. f_equal. unfold future_result, from_de. f_equal. case_match; done.
  - intros key refuse value f Hv Hf. pose proof (path_map_extracted v key refuse value f (req_match_info req) fuel Hv Hf) as He.
    destruct v. cbn [path_deserialize]. by rewrite He.
  - intros signed w z Hw Hs. pose proof (parse_format_int signed w z Hw Hs) as Hp.
    destruct v. cbn [value_deserialize]. unfold parse_value, parse_scalar. rewrite Hp. unfold fitting.
    by destruct (int_fits signed w z).
Qed.
End Claims.

(** ** An example: the visitors of scalars, of tuples and of maps, as serde has them *)
Section Visitors.
Context {F Val : Type}.
Notation Res := (result Val DeError).
Notation Sd := (Seed F Val).

Definition invalid : DeError := mkDe (b#"invalid type").
Definition no_seq : SeqVisitor F Val := mkSeqV unit tt (fun _ => Seq_return _ _ (Err invalid)).
Definition no_map : MapVisitor F Val := mkMapV unit tt (fun _ => Map_return _ _ (Err invalid)).

Definition scalar_visitor (f : Parsed F -> Res) : Visitor F Val :=
  mkVisitor f (fun s => f (P_string s)) (fun s => f (P_string s)) (fun _ => Err invalid) (Err invalid)
    (Refuses invalid) (Refuses invalid) no_seq no_map (Enum_refuses invalid).
Definition seq_visitor (q : SeqVisitor F Val) (m : MapVisitor F Val) : Visitor F Val :=
  mkVisitor (fun _ => Err invalid) (fun _ => Err invalid) (fun _ => Err invalid) (fun _ => Err invalid) (Err invalid)
    (Refuses invalid) (Refuses invalid) q m (Enum_refuses invalid).

Definition tuple_step (ss : list Sd) (f : list Val -> Res) (st : Res + nat * list Val) : SeqAsk Sd (Res + nat * list Val) :=
  match st with
  | inl r => Seq_return _ _ r
  | inr (i, xs) =>
      match ss !! i with
      | None => Seq_return _ _ (f xs)
      | Some s => Seq_next _ _ s (fun a =>
          match a with
          | Ok (Some x) => inr (S i, xs ++ [x])
          | Ok None => inl (Err (mkDe (b#"invalid length")))
          | Err e => inl (Err e)
          end)
      end
  end.
Definition tuple_visitor (ss : list Sd) (f : list Val -> Res) : Visitor F Val :=
  seq_visitor (mkSeqV _ (inr (O, [])) (tuple_step ss f)) no_map.

Lemma tuple_step_asks ss f done rest acc :
  ss = done ++ rest -> asks_elements (tuple_step ss f) (inr (length done, acc)) rest (fun xs => f (acc ++ xs)).
Proof.
  revert done acc. induction rest as [|s rest IH]; intros done acc ->.
  - constructor. simpl. rewrite (proj2 (lookup_ge_None _ _)) by (rewrite app_nil_r; lia). by rewrite app_nil_r.
  - eapply asks_one; [simpl; by rewrite list_lookup_middle|done|]. intros x. cbn beta iota.
    specialize (IH (done ++ [s]) (acc ++ [x])). rewrite length_app, Nat.add_comm in IH.
    rewrite <-app_assoc in IH. eapply asks_ext; [|exact (IH eq_refl)]. intros xs. cbn beta. f_equal. by rewrite <-(app_assoc acc [x]).
Qed.
Lemma tuple_visitor_visits ss f : visits_tuple (tuple_visitor ss f) ss f.
Proof. exact (tuple_step_asks ss f [] ss [] eq_refl). Qed.

Inductive map_state : Type :=
| MS_key (acc : list (Val * Val)) | MS_value (acc : list (Val * Val)) (k : Val) | MS_return (r : Res).
Definition map_step (key : Sd) (refuse : list (Val * Val) -> Val -> option DeError) (value : Val -> Sd)
    (f : list (Val * Val) -> Res) (st : map_state) : MapAsk Sd map_state :=
  match st with
  | MS_return r => Map_return _ _ r
  | MS_key acc => Map_key _ _ key (fun a =>
      match a with
      | Ok (Some k) => match refuse acc k with Some e => MS_return (Err e) | None => MS_value acc k end
      | Ok None => MS_return (f acc)
      | Err e => MS_return (Err e)
      end)
  | MS_value acc k => Map_value _ _ (value k) (fun a =>
      match a with Ok x => MS_key (acc ++ [(k, x)]) | Err e => MS_return (Err e) end)
  end.
Definition map_visitor (key : Sd) (refuse : list (Val * Val) -> Val -> option DeError) (value : Val -> Sd)
    (f : list (Val * Val) -> Res) : Visitor F Val :=
  seq_visitor no_seq (mkMapV _ (MS_key []) (map_step key refuse value f)).

Lemma map_visitor_visits key refuse value f : visits_map (map_visitor key refuse value f) key refuse value f.
Proof.
  exists MS_key, (fun acc a =>
      match a with
      | Ok (Some k) => match refuse acc k with Some e => MS_return (Err e) | None => MS_value acc k end
      | Ok None => MS_return (f acc)
      | Err e => MS_return (Err e)
      end),
    (fun acc k a => match a with Ok x => MS_key (acc ++ [(k, x)]) | Err e => MS_return (Err e) end).
  split; [done|]. split; try done. intros acc k. simpl. by destruct (refuse acc k).
Qed.
End Visitors.

(** A tuple of a name and a small number, and a struct of both; the values are lists. *)
Definition one (p : Parsed unit) : result (list (Parsed unit)) DeError := Ok [p].
Definition name_type : Seed unit (list (Parsed unit)) := mkSeed (R_scalar T_string) (scalar_visitor one).
Definition id_type : Seed unit (list (Parsed unit)) := mkSeed (R_scalar (T_int true 8)) (scalar_visitor one).
Definition field_type : Seed unit (list (Parsed unit)) := mkSeed R_identifier (scalar_visitor one).
Definition pair_visitor : Visitor unit (list (Parsed unit)) :=
  tuple_visitor [name_type; id_type] (fun xs => Ok (concat xs)).
(** As derived for [struct User { name: String, id: i8 }]: other names are ignored, a field
    is read once, and both are needed. *)
Definition ignored_type : Seed unit (list (Parsed unit)) :=
  mkSeed R_ignored_any (mkVisitor (fun _ => Err invalid) (fun _ => Err invalid) (fun _ => Err invalid) (fun _ => Err invalid)
    (Ok []) (Refuses invalid) (Refuses invalid) no_seq no_map (Enum_refuses invalid)).
Definition is_field (n : bytes) (kv : list (Parsed unit) * list (Parsed unit)) : bool :=
  match kv.1 with [P_string m] => bool_decide (m = n) | _ => false end.
Definition user_refuse (acc : list (list (Parsed unit) * list (Parsed unit))) (k : list (Parsed unit)) : option DeError :=
  match k with
  | [P_string n] =>
      if (bool_decide (n = b#"name") || bool_decide (n = b#"id")) && existsb (is_field n) acc
      then Some (mkDe (b#"duplicate field `" ++ n ++ b#"`")) else None
  | _ => None
  end.
Definition struct_visitor : Visitor unit (list (Parsed unit)) :=
  map_visitor field_type user_refuse
    (fun k => match k with
              | [P_string n] => if decide (n = b#"id") then id_type else if decide (n = b#"name") then name_type else ignored_type
              | _ => ignored_type
              end)
    (fun kvs =>
       match filter (fun kv => is_field (b#"name") kv = true) kvs, filter (fun kv => is_field (b#"id") kv = true) kvs with
       | (_, name) :: _, (_, id) :: _ => Ok (name ++ id)
       | [], _ => Err (mkDe (b#"missing field `name`"))
       | _, [] => Err (mkDe (b#"missing field `id`"))
       end).

(** The text of strings as it is, between quotes. *)
Definition quoted (s : bytes) : bytes := 34 :: s ++ [34].
Definition user_request (id : bytes) : HttpRequest (list part) (list (bytes * bytes)) unit :=
  req_add_param (b#"id") id (req_add_param (b#"name") (b#"joe")
    (mkReq {| msg_version := HTTP_11; msg_method := GET; msg_uri := b#"/user/joe/item/7";
      msg_headers := hm_empty; msg_extensions := []; msg_params := []; msg_cookies := None;
      msg_query := []; msg_query_loaded := false; msg_addr := None; msg_payload := None;
      msg_info := None; msg_resource := Notset |} (Some tt) None)).

Lemma path_extracted_witness :
  Path_from_request quoted (fun _ => None) (fun _ => None) 3 (mkSeed (R_tuple 2) pair_visitor) (user_request (b#"-128")) =
    Ret (mkFut (Some O) (Ok [P_string (b#"joe"); P_int true 8 (-128)])) /\
  Path_from_request quoted (fun _ => None) (fun _ => None) 3 (mkSeed (R_tuple 2) pair_visitor) (user_request (b#"128")) =
    Ret (mkFut (Some O) (Err (mkError 400))) /\
  Path_from_request quoted (fun _ => None) (fun _ => None) 6 (mkSeed R_struct struct_visitor) (user_request (b#"7")) =
    Ret (mkFut (Some O) (Ok [P_string (b#"joe"); P_int true 8 7])) /\
  Path_from_request quoted (fun _ => None) (fun _ => None) 8 (mkSeed R_struct struct_visitor)
    (req_add_param (b#"id") (b#"8") (user_request (b#"7"))) = Ret (mkFut (Some O) (Err (mkError 400))) /\
  value_deserialize quoted (fun _ => None) (fun _ => None) (format_int 32768)
    (mkSeed (R_scalar (T_int true 32)) (scalar_visitor one)) = Ok [P_int true 32 32768].
Proof.
  split_and!.
  - destruct (path_extracted quoted (fun _ => None) (fun _ => None) 3 pair_visitor (user_request (b#"-128"))) as (Ht & _).
    etransitivity; [exact (Ht [name_type; id_type] _ (tuple_visitor_visits _ _) ltac:(simpl; lia))|by vm_compute].
  - destruct (path_extracted quoted (fun _ => None) (fun _ => None) 3 pair_visitor (user_request (b#"128"))) as (Ht & _).
    etransitivity; [exact (Ht [name_type; id_type] _ (tuple_visitor_visits _ _) ltac:(simpl; lia))|by vm_compute].
  - destruct (path_extracted quoted (fun _ => None) (fun _ => None) 6 struct_visitor (user_request (b#"7"))) as (_ & Hs & _).
    etransitivity; [exact (Hs _ _ _ _ (map_visitor_visits _ _ _ _) ltac:(vm_compute; lia))|by vm_compute].
  - destruct (path_extracted quoted (fun _ => None) (fun _ => None) 8 struct_visitor
      (req_add_param (b#"id") (b#"8") (user_request (b#"7")))) as (_ & Hs & _).
    etransitivity; [exact (Hs _ _ _ _ (map_visitor_visits _ _ _ _) ltac:(vm_compute; lia))|by vm_compute].
  - destruct (path_extracted quoted (fun _ => None) (fun _ => None) 0 (scalar_visitor one) (user_request [])) as (_ & _ & Hi).
    etransitivity; [exact (Hi true 32 32768 ltac:(lia) ltac:(done))|by vm_compute].
Defined.

(** The error of an [i32] calls it an i16. *)
Lemma i32_called_i16 :
  value_deserialize quoted (fun _ => None) (fun _ => None) (b#"x") (mkSeed (R_scalar (T_int true 32)) (scalar_visitor one)) =
  Err (mkDe (b#"can not parse " ++ quoted (b#"x") ++ b#" to a i16")).
Proof. by vm_compute. Qed.
