(* ===== verification/Requests.v ===== *)
(** * Requests as readers, their queries, and values as responses

    src/httprequest.rs: [HttpRequest] as a stream of its payload and as an [io::Read],
    [query] with its cache and [path_decoded].  src/httpresponse.rs: the conversions of
    texts and bytes into responses, and of a client's response into a builder.
    src/error.rs: [InternalError] with a response of its own.

    The payload of a request is the shared cell of [Payload]; a clone of a request has the
    same message, so what one of them loads is there for the others. *)
From S2P Require Import Prelude StrLib Errors Http Response Payload Router RouterFacts Pipeline.
Open Scope Z_scope.

(** ** Reading *)
Section Reading.
Context (t : Task).

(** [Stream::poll]. *)
Definition HttpRequest_poll (payload : option Inner)
  : poll (option bytes) PayloadError * option Inner * list Task :=
  match payload with
  | None => (Ready None, None, [])
  | Some s => let '(r, s, wakes) := Inner_readany t s in (r, Some s, wakes)
  end.

(** The errors of [read]: [WouldBlock], or [Other] with the payload's error. *)
Inductive ReadError : Type := RE_WouldBlock | RE_Other (e : PayloadError).

(** [read] into a buffer of [len] bytes, with the bytes written to its front;
    [copy_from_slice] panics unless its two sides have the same length. *)
Fixpoint HttpRequest_read (fuel : nat) (payload : option Inner) (len : Z)
  : run (result bytes ReadError * option Inner * list Task) :=
  match fuel with
  | O => Timeout
  | S fuel =>
      match payload with
      | None => Ret (Ok [], None, [])
      | Some s =>
          let '(r, s, wakes) := Inner_readany t s in
          match r with
          | Ready (Some b) =>
              let i := Z.min (lenZ b) len in
              if negb (len =? i) then Panic
              else
                let rest := dropZ i b in
                let s := if bool_decide (rest = []) then s else Inner_unread_data rest s in
                if i <? len then
                  '(r, p, wakes') ← HttpRequest_read fuel (Some s) (len - i);
                  match r with
                  | Ok more => Ret (Ok (takeZ i b ++ more), p, wakes ++ wakes')
                  | Err RE_WouldBlock => Ret (Ok (takeZ i b), p, wakes ++ wakes')
                  | Err e => Ret (Err e, p, wakes ++ wakes')
                  end
                else Ret (Ok (takeZ i b), Some s, wakes)
          | Ready None => Ret (Ok [], Some s, wakes)
          | NotReady => Ret (Err RE_WouldBlock, Some s, wakes)
          | PErr e => Ret (Err (RE_Other e), Some s, wakes)
          end
      end
  end.
End Reading.

(** What [read] answers: the first bytes of the first chunk, which the rest of the chunk
    then leads, so that nothing is lost or read twice; the end; an error; or that there is
    nothing yet.  It panics when the first chunk is shorter than the buffer: whoever
    reads into a buffer of usual size panics at the last chunk of a body. *)
Theorem request_read (t : Task) (n : nat) (s : Inner) (len : Z) :
  0 <= len ->
  match in_items s with
  | b :: items =>
      if lenZ b <? len then HttpRequest_read t (S n) (Some s) len = Panic
      else exists s' wakes, HttpRequest_read t (S n) (Some s) len = Ret (Ok (takeZ len b), Some s', wakes) /\
        takeZ len b ++ concat (in_items s') = concat (in_items s) /\
        in_len s' = in_len s - lenZ (takeZ len b) /\ in_eof s' = in_eof s /\ in_err s' = in_err s
  | [] =>
      exists s' wakes, HttpRequest_read t (S n) (Some s) len =
        Ret (match in_err s with
             | Some e => Err (RE_Other e)
             | None => if in_eof s then Ok [] else Err RE_WouldBlock
             end, Some s', wakes) /\ in_items s' = []
  end.
Proof.
  intros Hlen. cbn [HttpRequest_read]. unfold Inner_readany. destruct (in_items s) as [|b items] eqn:Hi.
  { destruct (in_err s); [by eexists _, _|]. destruct (in_eof s); [by eexists _, _; rewrite ?Hi|by eexists _, _]. }
  destruct (Z.ltb_spec (lenZ b) len) as [Hs|Hge].
  { replace (Z.min (lenZ b) len) with (lenZ b) by lia. by rewrite (proj2 (Z.eqb_neq _ _)) by lia. }
  replace (Z.min (lenZ b) len) with len by lia. rewrite Z.eqb_refl, Z.ltb_irrefl. cbn [negb].
  eexists _, _. split; [done|]. pose proof (takeZ_dropZ len b) as Hb.
  case_bool_decide as Hd.
  - rewrite Hd, app_nil_r in Hb. cbn [in_items in_len in_eof in_err]. rewrite Hb. done.
  - unfold Inner_unread_data. cbn [in_items in_len in_eof in_err concat]. split_and!; [|rewrite lenZ_dropZ, lenZ_takeZ by lia; lia|done|done].
    by rewrite app_assoc, Hb.
Qed.

Definition short_read : Inner := mkInner 3 true None true [b#"abc"] MAX_BUFFER_SIZE None None.
Lemma request_read_witness :
  (exists s' wakes, HttpRequest_read 1%nat 1 (Some short_read) 2 = Ret (Ok (b#"ab"), Some s', wakes) /\
    b#"ab" ++ concat (in_items s') = b#"abc") /\
  HttpRequest_read 1%nat 1 (Some short_read) 4 = Panic.
Proof.
  split.
  - destruct (request_read 1%nat 0 short_read 2 ltac:(done)) as (s' & wakes & Hr & Hc & _).
    exists s', wakes. split; [exact Hr|exact Hc].
  - exact (request_read 1%nat 0 short_read 4 ltac:(done)).
Defined.

(** ** The query, and the path decoded *)
Section Query.
Context {R : Type} `{Hre : RegexCrate R} {H : Type} `{Hhm : HeaderMap H} `{Huri : UriCrate} `{Hpct : PercentEncoding} {St : Type}.
Notation Rq := (HttpRequest R H St).

(** [form_urlencoded::parse] of the url crate. *)
Context (form_urlencoded_parse : bytes -> Params).

Definition set_msg_query (q : Params) (loaded : bool) (m : HttpInnerMessage H) : HttpInnerMessage H :=
  mkMsg (msg_version m) (msg_method m) (msg_uri m) (msg_headers m) (msg_extensions m) (msg_params m) (msg_cookies m)
    q loaded (msg_addr m) (msg_payload m) (msg_info m) (msg_resource m).
(** What is written through [uri_mut]. *)
Definition set_msg_uri (uri : bytes) (m : HttpInnerMessage H) : HttpInnerMessage H :=
  mkMsg (msg_version m) (msg_method m) uri (msg_headers m) (msg_extensions m) (msg_params m) (msg_cookies m)
    (msg_query m) (msg_query_loaded m) (msg_addr m) (msg_payload m) (msg_info m) (msg_resource m).

Definition req_query (rq : Rq) : Params * Rq :=
  let rq :=
    if negb (msg_query_loaded (rq_msg rq)) then
      let params := foldl (fun p '(key, val) => params_add key val p) (msg_query (rq_msg rq))
                      (form_urlencoded_parse (req_query_string rq)) in
      set_rq_msg (set_msg_query params true (rq_msg rq)) rq
    else rq in
  (msg_query (rq_msg rq), rq).
Definition req_uri_mut (uri : bytes) (rq : Rq) : Rq := set_rq_msg (set_msg_uri uri (rq_msg rq)) rq.

(** [path_decoded]: its [unwrap] fails on bytes that are not UTF-8. *)
Definition req_path_decoded (rq : Rq) : run bytes := unwrap (from_utf8 (percent_decode (req_path rq))).

Lemma foldl_params_add kvs p : foldl (fun p '(key, val) => params_add key val p) p kvs = p ++ kvs.
Proof.
  revert p. induction kvs as [|[k v] kvs IH]; intros p; [by rewrite app_nil_r|]. simpl. rewrite IH.
  unfold params_add. by rewrite <-app_assoc.
Qed.

(** The query of a message as it comes from the pool is that of its url, read once: every
    later call answers the same, also after the url was replaced. *)
Theorem query_loaded_once (rq : Rq) (uri : bytes) :
  msg_query (rq_msg rq) = [] -> msg_query_loaded (rq_msg rq) = false ->
  exists rq1, req_query rq = (form_urlencoded_parse (req_query_string rq), rq1) /\
  req_query rq1 = req_query rq /\ (req_query (req_uri_mut uri rq1)).1 = (req_query rq).1.
Proof.
  intros Hq Hl. unfold req_query. rewrite Hl, Hq. cbn. rewrite foldl_params_add. by eexists.
Qed.
End Query.

(** ** Values as responses *)
Section Conversions.
Context {H : Type} `{HM : HeaderMap H} `{HC : HeaderConv} {J C : Type} `{CJ : CookieJar J C}.
Notation Resp := (InnerHttpResponse H).
Notation Builder := (HttpResponseBuilder H J).

(** [Into<Binary>] of the types with a conversion. *)
Inductive Value : Type :=
| V_str (s : bytes) | V_slice (s : bytes) | V_string (s : bytes) | V_string_ref (s : bytes) | V_bytes (s : bytes) | V_bytes_mut (s : bytes).
Definition Value_into (v : Value) : Binary :=
  match v with
  | V_str s | V_slice s => Bin_Slice s
  | V_string s | V_string_ref s | V_bytes s | V_bytes_mut s => Bin_Bytes s
  end.
Definition Value_content_type (v : Value) : bytes :=
  match v with
  | V_str _ | V_string _ | V_string_ref _ => b#"text/plain; charset=utf-8"
  | V_slice _ | V_bytes _ | V_bytes_mut _ => b#"application/octet-stream"
  end.

(** [From] with the thread's pool as [p], and [respond_to] with the pool [p] of the
    request's server; [tl] is the thread's pool. *)
Definition Value_respond (v : Value) (p tl : ResponsePool H) : run (Resp * ResponsePool H * ResponsePool H) :=
  let '(b, p) := get_builder (J := J) p 200 in
  '(r, _, tl) ← rb_body (Body_Binary (Value_into v)) (rb_content_type (Value_content_type v) b) tl;
  Ret (r, p, tl).

(** [From<&ClientResponse> for HttpResponseBuilder]: names and values are typed already. *)
Definition builder_from_client (p : ResponsePool H) (status : Z) (headers : H) : Builder * ResponsePool H :=
  let '(b, p) := get_builder p status in
  (foldl (fun b '(key, value) => with_parts (fun r => set_r_headers (hm_append key value (r_headers r)) r) b) b (hm_iter headers), p).

(** A value becomes a response of status 200 with its content type as the only header and
    itself as the body, on whatever head the pool gives. *)
Theorem value_response (v : Value) (p tl : ResponsePool H) :
  response_pool_reachable (J := J) p ->
  exists p', Value_respond v p tl =
    Ret (set_r_headers (hm_insert CONTENT_TYPE (Value_content_type v) hm_empty)
           (InnerHttpResponse_new 200 (Body_Binary (Value_into v))), p', tl).
Proof.
  intros Hp. destruct (builder_body_fresh p tl 200 [B_content_type (C := C) (Value_content_type v)] (Body_Binary (Value_into v)) Hp)
    as (r & b & b' & tl' & Hb & Hf).
  unfold Value_respond. destruct (get_builder p 200) as [b0 p0]. exists p0. cbn in Hb, Hf. rewrite Hb. cbn.
  unfold rb_body, fresh_builder, rb_content_type in Hf. cbn [parts rb_err rb_response] in Hf.
  rewrite hv_try_from_ok in Hf by (destruct v; by vm_compute). cbn in Hf. by injection Hf as <- _ <-.
Qed.

(** A proxied response keeps status and headers. *)
Lemma client_builder_headers (p : ResponsePool H) status (headers : H) :
  response_pool_reachable (J := J) p ->
  exists r, parts (builder_from_client p status headers).1 = Some r /\ r_status r = status /\
    r_headers r = foldl (fun h '(key, value) => hm_append key value h) hm_empty (hm_iter headers).
Proof.
  intros Hp. unfold builder_from_client. pose proof (get_builder_fresh p status Hp) as Hb.
  destruct (get_builder p status) as [b p']. cbn [fst] in *.
  destruct Hb as (Hr & _ & He & _). cbn in Hr, He.
  inversion Hr as [r ? Hh Hr1|]; subst. assert (r_status r = status /\ r_headers r = hm_empty) as [Hs Hhd].
  { destruct r. unfold same_head in Hh. injection Hh. intros. by subst. }
  assert (parts b = Some r) as Hpt by (unfold parts; by rewrite He, <-Hr1). clear Hr Hr1 He Hh.
  revert b r Hs Hpt Hhd. generalize hm_empty as h0. induction (hm_iter headers) as [|[k v] kvs IH]; intros h0 b r Hs Hpt Hhd.
  { exists r. done. }
  cbn [foldl]. apply (IH _ _ (set_r_headers (hm_append k v (r_headers r)) r)); [by destruct r| |by rewrite <-Hhd].
  unfold with_parts. rewrite Hpt. unfold parts in *. cbn. by destruct (rb_err b).
Qed.

(** ** [InternalError] with a response *)
Inductive InternalErrorType : Type := IE_Status (st : Z) | IE_Response (cell : option Resp).

(** [error_response]: the response, and what is left in the error. *)
Definition InternalError_response (e : InternalErrorType) : Resp * InternalErrorType :=
  match e with
  | IE_Status st => (InnerHttpResponse_new st Body_Empty, e)
  | IE_Response (Some resp) => (resp, IE_Response None)
  | IE_Response None => (InnerHttpResponse_new 500 Body_Empty, e)
  end.

(** The predefined response is given once; later calls answer 500. *)
Lemma internal_error_once (resp : Resp) :
  let '(r1, e) := InternalError_response (IE_Response (Some resp)) in
  r1 = resp /\ InternalError_response e = (InnerHttpResponse_new 500 Body_Empty, e).
Proof. done. Qed.
End Conversions.
