(* ===== verification/Worker.v ===== *)
(** * Workers (src/src/server/settings.rs, src/src/server/channel.rs,
      src/src/server/worker.rs)

    A worker owns the settings its connections share, spawns an [HttpChannel] for every
    connection it gets, and counts them for its shutdown.  A channel reads the first
    bytes of a connection to tell HTTP/1 from HTTP/2 and is that protocol from then on.
    The protocols are an interface here. *)
From S2P Require Import Prelude StrLib Errors Http SharedBytes Transfer H1Reader ClientParser.
Open Scope Z_scope.

(** ** Settings *)
Inductive KeepAlive : Type := KA_Timeout (n : Z) | KA_Tcp (n : Z) | KA_Os | KA_Disabled.
Definition KeepAlive_from (keepalive : Z) : KeepAlive := KA_Timeout keepalive.
Definition KeepAlive_from_option (keepalive : option Z) : KeepAlive :=
  match keepalive with Some keepalive => KA_Timeout keepalive | None => KA_Disabled end.

(** [Date]: the bytes of the date header, written piece by piece. *)
Definition DATE_VALUE_LENGTH : Z := 29.
Record Date : Type := mkDate { d_bytes : bytes; d_pos : Z }.
Definition date_write_str (d : Date) (s : bytes) : run Date :=
  if d_pos d + lenZ s <=? lenZ (d_bytes d)
  then Ret (mkDate (takeZ (d_pos d) (d_bytes d) ++ s ++ dropZ (d_pos d + lenZ s) (d_bytes d)) (d_pos d + lenZ s))
  else Panic.
Fixpoint date_write (d : Date) (pieces : list bytes) : run Date :=
  match pieces with
  | [] => Ret d
  | s :: pieces => d ← date_write_str d s; date_write d pieces
  end.
(** The pieces are what the formatting of the current time gives. *)
Definition date_update (pieces : list bytes) (d : Date) : run Date := date_write (mkDate (d_bytes d) 0) pieces.
Definition Date_new (pieces : list bytes) : run Date :=
  date_update pieces (mkDate (replicate (Z.to_nat DATE_VALUE_LENGTH) 0) 0).

(** [ServerSettings::new]: the host, with the address as it is printed. *)
Definition server_host (addr host : option bytes) : bytes :=
  match host with
  | Some host => host
  | None => match addr with Some addr => addr | None => b#"localhost" end
  end.

(** ** The list of connections: nodes by their addresses, the head at 0 *)
Record Node : Type := mkNode { n_next : option nat; n_prev : option nat; n_element : option nat }.
Definition Node_new (el : nat) : Node := mkNode None None (Some el).
Definition Node_head : Node := mkNode None None None.
Definition nodes : Type := gmap nat Node.
Definition head_addr : nat := 0.
Definition set_next (next : option nat) (n : Node) : Node := mkNode next (n_prev n) (n_element n).
Definition set_prev (prev : option nat) (n : Node) : Node := mkNode (n_next n) prev (n_element n).

Definition node_insert (self next : nat) (h : nodes) : run nodes :=
  slf ← unwrap (h !! self);
  h ← match n_next slf with
      | Some next2 => n ← unwrap (h !! next2); Ret (<[next2 := set_prev (Some next) n]> h)
      | None => Ret h
      end;
  slf ← unwrap (h !! self);
  let h := <[self := set_next (Some next) slf]> h in
  n ← unwrap (h !! next);
  Ret (<[next := set_prev (Some self) n]> h).

Definition node_remove (self : nat) (h : nodes) : run nodes :=
  n ← unwrap (h !! self);
  let h := <[self := mkNode None None None]> h in
  match n_prev n with
  | Some prev => p ← unwrap (h !! prev); Ret (<[prev := set_next (n_next n) p]> h)
  | None => Ret h
  end.

(** [traverse]: the channels it shuts down, in order. *)
Fixpoint traverse_loop (fuel : nat) (next : option nat) (h : nodes) : run (list nat) :=
  match fuel with
  | O => Timeout
  | S fuel =>
      match next with
      | Some n =>
          n ← unwrap (h !! n);
          rest ← traverse_loop fuel (n_next n) h;
          Ret (match n_element n with Some el => el :: rest | None => rest end)
      | None => Ret []
      end
  end.
Definition traverse (h : nodes) : run (list nat) :=
  head ← unwrap (h !! head_addr);
  traverse_loop (S (size h)) (n_next head) h.

Record WorkerSettings : Type := mkWS {
  ws_keep_alive : Z;
  ws_ka_enabled : bool;
  ws_channels : Z;
  ws_node : nodes;
  ws_date : Date;
}.
Definition WorkerSettings_new (keep_alive : KeepAlive) (now : list bytes) : run WorkerSettings :=
  let '(keep_alive, ka_enabled) :=
    match keep_alive with
    | KA_Timeout val => (val, true)
    | KA_Os | KA_Tcp _ => (0, true)
    | KA_Disabled => (0, false)
    end in
  date ← Date_new now;
  Ret (mkWS keep_alive ka_enabled 0 {[ head_addr := Node_head ]} date).
Definition set_channels v s := mkWS (ws_keep_alive s) (ws_ka_enabled s) v (ws_node s) (ws_date s).
Definition set_node v s := mkWS (ws_keep_alive s) (ws_ka_enabled s) (ws_channels s) v (ws_date s).
Definition add_channel (s : WorkerSettings) : WorkerSettings := set_channels (ws_channels s + 1) s.
Definition remove_channel (s : WorkerSettings) : WorkerSettings :=
  if 0 <? ws_channels s then set_channels (ws_channels s - 1) s else s.
Definition update_date (now : list bytes) (s : WorkerSettings) : run WorkerSettings :=
  date ← date_update now (ws_date s);
  Ret (mkWS (ws_keep_alive s) (ws_ka_enabled s) (ws_channels s) (ws_node s) date).
Definition settings_set_date (s : WorkerSettings) (dst : bytes) : bytes :=
  dst ++ b#"date: " ++ d_bytes (ws_date s) ++ CRLF ++ CRLF.
Definition set_date_simple (s : WorkerSettings) (dst : bytes) : bytes := dst ++ d_bytes (ws_date s).

(** ** Channels *)

(** What a channel asks of a protocol. *)
Class ConnProtocol (P : Type) := { proto_poll : P -> run (poll unit unit * P); proto_shutdown : P -> P }.

Definition HTTP2_PREFACE : bytes := b#"PRI * HTTP/2.0".
Inductive ProtocolKind : Type := Kind_Http1 | Kind_Http2.

Section Channels.
Context `{AL : Allocator} {P1 P2 : Type} `{PR1 : ConnProtocol P1} `{PR2 : ConnProtocol P2}.
(** [Http1::new] and [Http2::new], from the socket and what was read of it. *)
Context (h1_new : socket -> bytes -> P1) (h2_new : socket -> bytes -> P2).

Inductive HttpProtocol : Type :=
| Proto_H1 (h1 : P1)
| Proto_H2 (h2 : P2)
| Proto_Unknown (io : socket) (buf : BytesMut).
(** [ch_node]: the address of the channel's node, once it has one. *)
Record HttpChannel : Type := mkChan { ch_proto : option HttpProtocol; ch_node : option nat }.
Definition set_proto v c := mkChan v (ch_node c).

Definition HttpChannel_new (io : socket) (http2 : bool) (s : WorkerSettings) : HttpChannel * WorkerSettings :=
  (mkChan (Some (if http2 then Proto_H2 (h2_new io []) else Proto_Unknown io (mkBM [] 4096))) None,
   add_channel s).

(** [shutdown]; of a connection of HTTP/1 it shuts the socket down. *)
Definition channel_shutdown (c : HttpChannel) : HttpChannel :=
  match ch_proto c with
  | Some (Proto_H1 h1) => set_proto (Some (Proto_H1 (proto_shutdown h1))) c
  | Some (Proto_H2 h2) => set_proto (Some (Proto_H2 (proto_shutdown h2))) c
  | _ => c
  end.

(** The first block of [poll]; [el] is the address of the channel. *)
Definition channel_link (el : nat) (c : HttpChannel) (s : WorkerSettings) : run (HttpChannel * WorkerSettings) :=
  match ch_node c with
  | Some _ =>
      match ch_proto c with
      | Some _ =>
          h ← node_insert head_addr el (<[el := Node_new el]> (ws_node s));
          Ret (mkChan (ch_proto c) (Some el), set_node h s)
      | None => Panic
      end
  | None => Ret (c, s)
  end.

(** The end of a connection. *)
Definition channel_unlink (c : HttpChannel) (s : WorkerSettings) : run WorkerSettings :=
  let s := remove_channel s in
  match ch_node c with
  | Some n => h ← node_remove n (ws_node s); Ret (set_node h s)
  | None => Ret s
  end.

Definition channel_result {P} (mk : P -> HttpProtocol) (r : poll unit unit) (p : P) (c : HttpChannel) (s : WorkerSettings)
  : run (poll unit unit * HttpChannel * WorkerSettings) :=
  let c := set_proto (Some (mk p)) c in
  match r with
  | NotReady => Ret (r, c, s)
  | _ => s ← channel_unlink c s; Ret (r, c, s)
  end.

Fixpoint channel_poll_fuel (fuel : nat) (el : nat) (c : HttpChannel) (s : WorkerSettings)
  : run (poll unit unit * HttpChannel * WorkerSettings) :=
  match fuel with
  | O => Timeout
  | S fuel =>
      '(c, s) ← channel_link el c s;
      match ch_proto c with
      | Some (Proto_H1 h1) => '(r, h1) ← proto_poll h1; channel_result Proto_H1 r h1 c s
      | Some (Proto_H2 h2) => '(r, h2) ← proto_poll h2; channel_result Proto_H2 r h2 c s
      | Some (Proto_Unknown io buf) =>
          match read_into io buf with
          | (Ready 0, io, buf) | (PErr _, io, buf) =>
              let c := set_proto (Some (Proto_Unknown io buf)) c in
              s ← channel_unlink c s; Ret (PErr tt, c, s)
          | (_, io, buf) =>
              if 14 <=? lenZ (bm_data buf) then
                let kind := if bool_decide (takeZ 14 (bm_data buf) = HTTP2_PREFACE) then Kind_Http2 else Kind_Http1 in
                (* upgrade to specific http protocol *)
                match kind with
                | Kind_Http1 => channel_poll_fuel fuel el (set_proto (Some (Proto_H1 (h1_new io (bm_data buf)))) c) s
                | Kind_Http2 => channel_poll_fuel fuel el (set_proto (Some (Proto_H2 (h2_new io (bm_data buf)))) c) s
                end
              else Ret (NotReady, set_proto (Some (Proto_Unknown io buf)) c, s)
          end
      | None => Panic
      end
  end.
(** [poll] calls itself once, when it knows the protocol. *)
Definition channel_poll := channel_poll_fuel 2.

(** ** Workers *)

(** The channels are futures on the worker's event loop, by their addresses. *)
Record Worker : Type := mkWorker {
  wk_settings : WorkerSettings;
  wk_tcp_ka : option Z;
  wk_channels : gmap nat HttpChannel;
  wk_stopped : bool;
}.
Definition Worker_new (keep_alive : KeepAlive) (now : list bytes) : run Worker :=
  let tcp_ka := match keep_alive with KA_Tcp val => Some val | _ => None end in
  s ← WorkerSettings_new keep_alive now;
  Ret (mkWorker s tcp_ka ∅ false).

(** [StreamHandlerType]; the handshakes of TLS are answers of its crates. *)
Inductive StreamHandlerType : Type := SH_Normal | SH_Tls | SH_Alpn.
Record WConn : Type := mkWConn { wc_io : socket; wc_peer : option nat; wc_http2 : bool }.
Inductive Handshake : Type := HS_accepted (alpn : option bytes) | HS_failed.

(** [http2] of the channel to spawn, if one is spawned. *)
Definition stream_handle (t : StreamHandlerType) (hs : Handshake) (msg : WConn) : option bool :=
  match t with
  | SH_Normal => Some (wc_http2 msg)
  | SH_Tls => match hs with HS_accepted _ => Some (wc_http2 msg) | HS_failed => None end
  | SH_Alpn =>
      match hs with
      | HS_accepted alpn =>
          Some (match alpn with Some p => (lenZ p =? 2) && bool_decide (p = b#"h2") | None => false end)
      | HS_failed => None
      end
  end.
(** [Handler<Conn>]: a channel at the address the allocator gives. *)
Definition worker_conn (t : StreamHandlerType) (hs : Handshake) (addr : nat) (msg : WConn) (w : Worker) : Worker :=
  match stream_handle t hs msg with
  | Some http2 =>
      let '(c, s) := HttpChannel_new (wc_io msg) http2 (wk_settings w) in
      mkWorker s (wk_tcp_ka w) (<[addr := c]> (wk_channels w)) (wk_stopped w)
  | None => w
  end.

(** The event loop polls a channel, and drops it when it is done. *)
Definition worker_poll (addr : nat) (w : Worker) : run Worker :=
  c ← unwrap (wk_channels w !! addr);
  '(r, c, s) ← channel_poll addr c (wk_settings w);
  Ret (mkWorker s (wk_tcp_ka w)
         (match r with NotReady => <[addr := c]> (wk_channels w) | _ => delete addr (wk_channels w) end) (wk_stopped w)).

(** [update_time], every second. *)
Definition worker_update_time (now : list bytes) (w : Worker) : run Worker :=
  s ← update_date now (wk_settings w);
  Ret (mkWorker s (wk_tcp_ka w) (wk_channels w) (wk_stopped w)).

(** [self.settings.head().traverse()]. *)
Definition shut_channels (els : list nat) (cs : gmap nat HttpChannel) : gmap nat HttpChannel :=
  foldl (fun cs el => alter channel_shutdown el cs) cs els.
Definition worker_traverse (w : Worker) : run Worker :=
  els ← traverse (ws_node (wk_settings w));
  Ret (mkWorker (wk_settings w) (wk_tcp_ka w) (shut_channels els (wk_channels w)) (wk_stopped w)).

(** A round of [shutdown_timeout], a second after the last: the answer to [tx] if there
    is one, or what is left of the time. *)
Definition SECOND : Z := 1000000000.
Definition shutdown_round (dur : Z) (w : Worker) : run ((bool + Z) * Worker) :=
  let num := ws_channels (wk_settings w) in
  if num =? 0 then Ret (inl true, mkWorker (wk_settings w) (wk_tcp_ka w) (wk_channels w) true)
  else if SECOND <=? dur then Ret (inr (dur - SECOND), w)
  else
    w ← worker_traverse w;
    Ret (inl false, mkWorker (wk_settings w) (wk_tcp_ka w) (wk_channels w) true).

(** [Handler<StopWorker>]: an answer at once, or rounds to come. *)
Definition worker_stop (graceful : option Z) (w : Worker) : run ((bool + Z) * Worker) :=
  let num := ws_channels (wk_settings w) in
  if num =? 0 then Ret (inl true, w)
  else match graceful with
       | Some dur => Ret (inr dur, w)
       | None => w ← worker_traverse w; Ret (inl false, w)
       end.

End Channels.
