(* ===== verification/WorkerFacts.v ===== *)
(** * Workers count their connections, tell the protocols apart and shut down in time *)
From S2P Require Import Prelude StrLib Errors Http SharedBytes Transfer H1Reader ClientParser Worker.
Open Scope Z_scope.

(** ** The date *)
Lemma date_write_ok pieces a b :
  lenZ (concat pieces) <= lenZ b ->
  date_write (mkDate (a ++ b) (lenZ a)) pieces =
    Ret (mkDate (a ++ concat pieces ++ dropZ (lenZ (concat pieces)) b) (lenZ a + lenZ (concat pieces))).
Proof.
  revert a b. induction pieces as [|s pieces IH]; intros a b Hl; cbn [date_write concat] in *.
  - by rewrite lenZ_nil, Z.add_0_r, dropZ_0.
  - rewrite lenZ_app in *. pose proof (lenZ_nonneg s). pose proof (lenZ_nonneg (concat pieces)).
    unfold date_write_str. cbn [d_pos d_bytes]. rewrite lenZ_app, (proj2 (Z.leb_le _ _)) by lia. cbn [mbind run_bind].
    rewrite takeZ_app_l, takeZ_all, dropZ_app_r by lia. replace (lenZ a + lenZ s - lenZ a) with (lenZ s) by lia.
    rewrite app_assoc, <-lenZ_app. rewrite IH by (rewrite lenZ_dropZ by lia; lia).
    by rewrite lenZ_app, dropZ_dropZ, <-!app_assoc, Z.add_assoc by lia.
Qed.

(** A date of 29 bytes replaces the last one whole. *)
Lemma update_date_ok now s :
  lenZ (d_bytes (ws_date s)) = DATE_VALUE_LENGTH -> lenZ (concat now) = DATE_VALUE_LENGTH ->
  exists s', update_date now s = Ret s' /\ d_bytes (ws_date s') = concat now /\
    settings_set_date s' [] = b#"date: " ++ concat now ++ [13; 10; 13; 10].
Proof.
  intros Hs Hn. unfold update_date, date_update. pose proof (date_write_ok now [] (d_bytes (ws_date s))) as Hw.
  rewrite lenZ_nil in Hw. simpl app in Hw. rewrite Hw by lia. cbn [mbind run_bind].
  rewrite dropZ_all, app_nil_r by lia. eexists. by split_and!.
Qed.

Section Facts.
Context `{AL : Allocator} {P1 P2 : Type} `{PR1 : ConnProtocol P1} `{PR2 : ConnProtocol P2}.
Context (h1_new : socket -> bytes -> P1) (h2_new : socket -> bytes -> P2).
Notation HttpChannel := (HttpChannel (P1 := P1) (P2 := P2)).
Notation Worker := (Worker (P1 := P1) (P2 := P2)).

(** ** Workers that run *)
Inductive worker_run : Worker -> Prop :=
| run_new keep_alive now w : Worker_new keep_alive now = Ret w -> worker_run w
| run_conn t hs addr msg w :
    worker_run w -> wk_channels w !! addr = None -> worker_run (worker_conn h2_new t hs addr msg w)
| run_poll addr w w' : worker_run w -> worker_poll h1_new h2_new addr w = Ret w' -> worker_run w'
| run_time now w w' : worker_run w -> worker_update_time now w = Ret w' -> worker_run w'
| run_stop graceful w r w' : worker_run w -> worker_stop graceful w = Ret (r, w') -> worker_run w'
| run_round dur w r w' : worker_run w -> shutdown_round dur w = Ret (r, w') -> worker_run w'.

(** A channel has its protocol, and never a node. *)
Definition chan_ok (c : HttpChannel) : Prop := is_Some (ch_proto c) /\ ch_node c = None.
Definition done_settings (r : poll unit unit) (s : WorkerSettings) : WorkerSettings :=
  match r with NotReady => s | _ => remove_channel s end.

Lemma channel_result_ok {P} (mk : P -> HttpProtocol) r p c s r' c' s' :
  ch_node c = None -> channel_result mk r p c s = Ret (r', c', s') ->
  chan_ok c' /\ r' = r /\ s' = done_settings r s.
Proof.
  intros Hn. unfold channel_result, channel_unlink. cbn [set_proto ch_node]. rewrite Hn.
  destruct r; cbn [mbind run_bind]; intros [= <- <- <-]; by split_and!.
Qed.

Lemma channel_poll_ok n el c s r c' s' :
  chan_ok c -> channel_poll_fuel h1_new h2_new n el c s = Ret (r, c', s') ->
  chan_ok c' /\ s' = done_settings r s.
Proof.
  revert c r c' s'. induction n as [|n IH]; intros c r c' s' [[p Hp] Hn]; [done|]. cbn [channel_poll_fuel].
  unfold channel_link. rewrite Hn. cbn [mbind run_bind]. rewrite Hp. destruct p as [h1|h2|io buf].
  - destruct (proto_poll h1) as [[r1 h1']| |]; [|done..]. cbn [mbind run_bind].
    intros (Hok & -> & ->)%channel_result_ok; [by split|done].
  - destruct (proto_poll h2) as [[r1 h2']| |]; [|done..]. cbn [mbind run_bind].
    intros (Hok & -> & ->)%channel_result_ok; [by split|done].
  - unfold channel_unlink. cbn [set_proto ch_node]. rewrite Hn.
    assert (forall p r c' s', channel_poll_fuel h1_new h2_new n el (mkChan (Some p) (ch_node c)) s = Ret (r, c', s') ->
      chan_ok c' /\ s' = done_settings r s) as Hrec by (intros p r0 c0 s0 Hr; eapply IH; [|exact Hr]; by split).
    destruct (read_into io buf) as [[[[|k|k]| |e] io'] buf']; cbn [mbind run_bind]; intros Hr;
      try (injection Hr as <- <- <-; by split_and!);
      destruct (14 <=? lenZ (bm_data buf')); try (injection Hr as <- <- <-; by split_and!);
      case_bool_decide; by eapply Hrec.
Qed.

Definition worker_inv (w : Worker) : Prop :=
  ws_node (wk_settings w) = {[ head_addr := Node_head ]} /\
  ws_channels (wk_settings w) = Z.of_nat (size (wk_channels w)) /\
  map_Forall (fun _ => chan_ok) (wk_channels w).

Lemma traverse_head : traverse {[ head_addr := Node_head ]} = Ret [].
Proof. done. Qed.

Lemma worker_traverse_ok w : worker_inv w -> worker_traverse w = Ret w.
Proof. intros (Hn & _). unfold worker_traverse. rewrite Hn, traverse_head. by destruct w. Qed.

Lemma worker_stop_ok g w r w' : worker_inv w -> worker_stop g w = Ret (r, w') -> w' = w.
Proof.
  intros Hi. unfold worker_stop. rewrite (worker_traverse_ok w) by done. destruct (_ =? 0); [by intros [= <- <-]|].
  destruct g; cbn [mbind run_bind]; by intros [= <- <-].
Qed.

Lemma shutdown_round_ok dur w :
  worker_inv w ->
  shutdown_round dur w =
    Ret (if ws_channels (wk_settings w) =? 0 then (inl true, mkWorker (wk_settings w) (wk_tcp_ka w) (wk_channels w) true)
         else if SECOND <=? dur then (inr (dur - SECOND), w)
         else (inl false, mkWorker (wk_settings w) (wk_tcp_ka w) (wk_channels w) true)).
Proof.
  intros Hi. unfold shutdown_round. rewrite (worker_traverse_ok w) by done.
  destruct (_ =? 0); [done|]. by destruct (SECOND <=? dur).
Qed.

Lemma worker_poll_inv addr w w' : worker_inv w -> worker_poll h1_new h2_new addr w = Ret w' -> worker_inv w'.
Proof.
  intros (Hn & Hc & Hf). unfold worker_poll, channel_poll. destruct (wk_channels w !! addr) as [c|] eqn:Ha; [|done].
  cbn [unwrap mbind run_bind].
  destruct (channel_poll_fuel _ _ _ _ _ _) as [[[r c'] s']| |] eqn:Hp; [|done..]. cbn [mbind run_bind].
  intros [= <-]. destruct (channel_poll_ok _ _ _ _ _ _ _ (Hf _ _ Ha) Hp) as [Hok ->].
  assert (size (delete addr (wk_channels w)) = (size (wk_channels w) - 1)%nat /\ (0 < size (wk_channels w))%nat) as [Hd Hpos].
  { rewrite map_size_delete, Ha. split; [lia|]. apply Nat.neq_0_lt_0. intros H0%map_size_empty_inv. by rewrite H0 in Ha. }
  split_and!; cbn [wk_settings wk_channels].
  - unfold done_settings, remove_channel. destruct r; [|done|]; by destruct (0 <? _).
  - destruct r; cbn [done_settings]; unfold remove_channel; try (rewrite (proj2 (Z.ltb_lt _ _)) by lia; simpl; lia).
    rewrite map_size_insert_Some by done. done.
  - destruct r; [by apply map_Forall_delete|by apply map_Forall_insert_2|by apply map_Forall_delete].
Qed.

Lemma worker_run_inv w : worker_run w -> worker_inv w.
Proof.
  induction 1 as [ka now w Hw|t hs addr msg w _ IH Hfresh|addr w w' _ IH Hp|now w w' _ IH Hp|g w r w' _ IH Hs|dur w r w' _ IH Hs].
  - revert Hw. unfold Worker_new, WorkerSettings_new. destruct ka; (destruct (Date_new now) as [d| |]; [|done..]);
      cbn [mbind run_bind]; intros [= <-]; by split_and!.
  - destruct IH as (Hn & Hc & Hf). unfold worker_conn. destruct (stream_handle t hs msg) as [b|]; [|done].
    split_and!; cbn [HttpChannel_new wk_settings wk_channels add_channel set_channels ws_node ws_channels]; [done| |].
    + rewrite map_size_insert_None by done. lia.
    + apply map_Forall_insert_2; [|done]. by destruct b; split.
  - by eapply worker_poll_inv.
  - revert Hp. unfold worker_update_time, update_date. destruct (date_update _ _); [|done..].
    cbn [mbind run_bind]. by intros [= <-].
  - by apply worker_stop_ok in Hs as ->.
  - rewrite shutdown_round_ok in Hs by done. destruct (_ =? 0); [by injection Hs as <- <-|].
    destruct (SECOND <=? dur); by injection Hs as <- <-.
Qed.

(** C36. Connections are counted: at every moment a worker's count of channels is the number
    of connections that are alive, so a worker told to stop says at once that it is done
    exactly when it has none. *)
Theorem channels_counted (w : Worker) :
  worker_run w ->
  ws_channels (wk_settings w) = Z.of_nat (size (wk_channels w)) /\
  (forall graceful, worker_stop graceful w = Ret (inl true, w) <-> wk_channels w = ∅).
Proof.
  intros Hi%worker_run_inv. destruct Hi as (Hn & Hc & Hf) eqn:Heq. split; [done|]. intros g.
  unfold worker_stop. rewrite (worker_traverse_ok w), Hc by done. destruct (Z.eqb_spec (Z.of_nat (size (wk_channels w))) 0) as [H0|H0].
  - split; [|done]. intros _. apply map_size_empty_iff. lia.
  - split; [|intros He; rewrite He, map_size_empty in H0; lia]. by destruct g; cbn [mbind run_bind]; intros [=].
Qed.

(** A forced shutdown closes no connection: channels never enter the list that
    [traverse] goes through, so a worker that is told to stop at once, or whose time is up,
    reports that it gave up and leaves every connection as it is. *)
Theorem forced_shutdown_closes_none (w : Worker) :
  worker_run w -> wk_channels w <> ∅ ->
  worker_stop None w = Ret (inl false, w) /\
  (forall dur, dur < SECOND ->
   shutdown_round dur w = Ret (inl false, mkWorker (wk_settings w) (wk_tcp_ka w) (wk_channels w) true)).
Proof.
  intros Hi%worker_run_inv He. pose proof Hi as (Hn & Hc & Hf).
  assert (ws_channels (wk_settings w) =? 0 = false) as H0.
  { apply Z.eqb_neq. rewrite Hc. intros H0. apply He, map_size_empty_iff. lia. }
  split.
  - unfold worker_stop. by rewrite H0, worker_traverse_ok.
  - intros dur Hd. by rewrite shutdown_round_ok, H0, (proj2 (Z.leb_gt _ _)) by done.
Qed.

(** ** Graceful shutdown *)

(** The rounds of [shutdown_timeout] over the worker as it is at every second: the second
    of the answer, and the answer. *)
Fixpoint shutdown_rounds (fuel t : nat) (dur : Z) (at_ : nat -> Worker) : run (nat * bool) :=
  match fuel with
  | O => Timeout
  | S fuel =>
      '(r, _) ← shutdown_round dur (at_ (S t));
      match r with
      | inl b => Ret (S t, b)
      | inr dur => shutdown_rounds fuel (S t) dur at_
      end
  end.

Lemma worker_idle (w : Worker) : worker_inv w -> (ws_channels (wk_settings w) =? 0) = bool_decide (wk_channels w = ∅).
Proof.
  intros (_ & Hc & _). rewrite Hc. case_bool_decide as He; [by rewrite He, map_size_empty|].
  apply Z.eqb_neq. intros H0. apply He, map_size_empty_iff. lia.
Qed.

Lemma shutdown_rounds_ok at_ fuel t dur :
  (forall t, worker_inv (at_ t)) -> 0 <= dur -> fuel = S (Z.to_nat (dur / SECOND)) ->
  exists u b, shutdown_rounds fuel t dur at_ = Ret (u, b) /\ (t < u <= t + fuel)%nat /\
    (forall v, (t < v < u)%nat -> wk_channels (at_ v) <> ∅) /\
    b = bool_decide (wk_channels (at_ u) = ∅) /\ (b = false -> u = (t + fuel)%nat).
Proof.
  intros Hinv. revert t dur. induction fuel as [|fuel IH]; intros t dur Hd Hf; [done|]. cbn [shutdown_rounds].
  rewrite shutdown_round_ok, worker_idle by done. case_bool_decide as He.
  { exists (S t), true. split_and!; [done|lia|lia|intros v; lia|by rewrite bool_decide_true|done]. }
  assert (0 < SECOND) as Hs by done. destruct (Z.leb_spec SECOND dur) as [Hle|Hlt]; cbn [mbind run_bind].
  - destruct (IH (S t) (dur - SECOND)) as (u & b & -> & Hu & Hb & Hbu & Hl); [lia| |].
    { replace (dur - SECOND) with (dur + (-1) * SECOND) by lia. rewrite Z.div_add by lia.
      pose proof (Z.div_le_mono SECOND dur SECOND Hs Hle) as H1. rewrite Z.div_same in H1 by lia. lia. }
    exists u, b. split_and!; [done|lia|lia| |done|intros Hb'; specialize (Hl Hb'); lia].
    intros v Hv. destruct (decide (v = S t)) as [->|]; [done|]. apply Hb. lia.
  - rewrite Z.div_small in Hf by lia. exists (S t), false.
    split_and!; [done|lia|lia|intros v; lia|by rewrite bool_decide_false|lia].
Qed.

(** A graceful shutdown answers in time: with connections that come and go between its
    rounds, the worker says that it is done at the first second at which none is alive, and
    gives up with those left one second after the time it was given. *)
Theorem graceful_shutdown_time (at_ : nat -> Worker) (seconds : nat) :
  (forall t, worker_run (at_ t)) ->
  exists t done_, shutdown_rounds (S seconds) 0 (Z.of_nat seconds * SECOND) at_ = Ret (t, done_) /\
    (1 <= t <= seconds + 1)%nat /\
    (forall v, (1 <= v < t)%nat -> wk_channels (at_ v) <> ∅) /\
    (done_ = true <-> wk_channels (at_ t) = ∅) /\
    (done_ = false -> t = (seconds + 1)%nat).
Proof.
  intros Hrun. destruct (shutdown_rounds_ok at_ (S seconds) 0 (Z.of_nat seconds * SECOND)) as (t & b & Hr & Ht & Hv & -> & Hf).
  - intros t. by apply worker_run_inv.
  - unfold SECOND. lia.
  - rewrite Z.div_mul by done. lia.
  - exists t, (bool_decide (wk_channels (at_ t) = ∅)). split_and!; [done|lia|lia| | |].
    + intros v Hv'. apply Hv. lia.
    + apply bool_decide_eq_true.
    + intros Hb. specialize (Hf Hb). lia.
Qed.

(** ** Telling the protocols apart *)
Fixpoint channel_polls (n el : nat) (c : HttpChannel) (s : WorkerSettings)
  : run (poll unit unit * HttpChannel * WorkerSettings) :=
  match n with
  | O => Ret (NotReady, c, s)
  | S n =>
      '(r, c, s) ← channel_poll h1_new h2_new el c s;
      match r with NotReady => channel_polls n el c s | _ => Ret (r, c, s) end
  end.

(** The protocol that starts with [data] read and the rest in [io]. *)
Definition upgraded (io : socket) (data : bytes) (c : HttpChannel) (s : WorkerSettings)
  : run (poll unit unit * HttpChannel * WorkerSettings) :=
  if decide (takeZ 14 data = HTTP2_PREFACE)
  then '(r, h2) ← proto_poll (h2_new io data); channel_result Proto_H2 r h2 c s
  else '(r, h1) ← proto_poll (h1_new io data); channel_result Proto_H1 r h1 c s.

Lemma channel_poll_unknown el io buf s rd io' buf' :
  read_into io buf = (rd, io', buf') -> rd <> Ready 0 -> (forall e, rd <> PErr e) ->
  channel_poll h1_new h2_new el (mkChan (Some (Proto_Unknown io buf)) None) s =
  if 14 <=? lenZ (bm_data buf') then upgraded io' (bm_data buf') (mkChan None None) s
  else Ret (NotReady, mkChan (Some (Proto_Unknown io' buf')) None, s).
Proof.
  intros Hr H0 He. unfold channel_poll. cbn [channel_poll_fuel channel_link ch_node ch_proto mbind run_bind].
  rewrite Hr. unfold upgraded, channel_result. destruct rd as [[|k|k]| |e]; [done| | | |by destruct (He e)];
    destruct (14 <=? lenZ (bm_data buf')); try done;
    rewrite <-decide_bool_decide; destruct (decide _); done.
Qed.

Lemma channel_polls_unknown m el io buf s :
  (reads_left io <= m)%nat -> Forall alive io -> lenZ (bm_data buf) < 14 ->
  14 <= lenZ (bm_data buf ++ pending io) ->
  exists n io' data, (n <= reads_left io)%nat /\ data ++ pending io' = bm_data buf ++ pending io /\ 14 <= lenZ data /\
    channel_polls n el (mkChan (Some (Proto_Unknown io buf)) None) s = upgraded io' data (mkChan None None) s.
Proof.
  revert io buf. induction m as [|m IH]; intros io buf Hm Hal Hlt Hall.
  - destruct io as [|[d|e] io]; [|simpl in Hm; lia..]. change (pending []) with (@nil Z) in Hall.
    rewrite app_nil_r in Hall. lia.
  - destruct (read_into io buf) as [[rd io'] buf'] eqn:Hrd.
    destruct (read_into_spec _ _ _ _ _ Hrd) as (data & Hb & Hp & Hal' & Hcase). specialize (Hal' Hal).
    assert (rd <> Ready 0 /\ (forall e, rd <> PErr e) /\ (reads_left io' < reads_left io)%nat) as (Hn0 & Hne & Hless).
    { destruct rd as [k| |e].
      - destruct Hcase as (Hk & Hl & H0). split_and!; [|done|done].
        intros [= ->]. destruct (H0 eq_refl) as [io1 ->]. by apply Forall_cons in Hal as [? _].
      - destruct Hcase as [-> [->|(e & io1 & -> & _ & ->)]]; [|split_and!; [done..|unfold reads_left; simpl; lia]].
        change (pending []) with (@nil Z) in Hall. rewrite app_nil_r in Hall. lia.
      - destruct Hcase as (_ & io1 & -> & Hk). by apply Forall_cons in Hal as [? _]. }
    pose proof (channel_poll_unknown el io buf s rd io' buf' Hrd Hn0 Hne) as Hpoll.
    destruct (Z.leb_spec 14 (lenZ (bm_data buf'))) as [Hge|Hsh].
    + exists 1%nat, io', (bm_data buf'). split_and!; [lia|by rewrite Hb, Hp, <-app_assoc|done|].
      cbn [channel_polls]. rewrite Hpoll. destruct (upgraded _ _ _ _) as [[[r c'] s']| |]; [|done..]. by destruct r.
    + destruct (IH io' buf') as (n & io2 & data2 & Hn & Hd & H14 & Hr); [lia|done|lia| |].
      { by rewrite Hb, <-app_assoc, <-Hp. }
      exists (S n), io2, data2. split_and!; [lia|by rewrite Hd, Hb, Hp, <-app_assoc|done|].
      cbn [channel_polls]. by rewrite Hpoll.
Qed.

(** C27. Protocols are told apart by the first fourteen bytes, and none is lost: however the
    bytes of a connection arrive, after finitely many polls its channel is polled as HTTP/2
    if they start with the preface and as HTTP/1 if not, over exactly the bytes that were
    read followed by those still to come. *)
Theorem protocol_detected (io : socket) (el : nat) (s : WorkerSettings) :
  Forall alive io -> 14 <= lenZ (pending io) ->
  exists n io' data, (n <= reads_left io)%nat /\ data ++ pending io' = pending io /\
    let '(c, s) := HttpChannel_new h2_new io false s in
    channel_polls n el c s =
    if decide (takeZ 14 (pending io) = HTTP2_PREFACE)
    then '(r, h2) ← proto_poll (h2_new io' data); channel_result Proto_H2 r h2 c s
    else '(r, h1) ← proto_poll (h1_new io' data); channel_result Proto_H1 r h1 c s.
Proof.
  intros Hal H14. destruct (channel_polls_unknown (reads_left io) el io (mkBM [] 4096) (add_channel s)) as
    (n & io' & data & Hn & Hd & Hl & Hr); [done..|].
  simpl in Hd. exists n, io', data. split_and!; [done|done|]. cbn [HttpChannel_new]. rewrite Hr. unfold upgraded.
  rewrite <-Hd, takeZ_app_l by done. destruct (decide _).
  - destruct (proto_poll _) as [[r p]| |]; [|done..]. cbn [mbind run_bind]. unfold channel_result, set_proto, channel_unlink.
    by destruct r.
  - destruct (proto_poll _) as [[r p]| |]; [|done..]. cbn [mbind run_bind]. unfold channel_result, set_proto, channel_unlink.
    by destruct r.
Qed.

End Facts.

(** ** The list of nodes *)

(** Inserting drops the rest of the list: of two channels inserted behind the head only
    the second would be visited. *)
Lemma insert_drops_rest :
  (h ← node_insert head_addr 1 (<[1%nat := Node_new 1]> {[ head_addr := Node_head ]});
   h ← node_insert head_addr 2 (<[2%nat := Node_new 2]> h);
   traverse h) = Ret [2%nat].
Proof. vm_compute. reflexivity. Qed.

(** ** Concrete workers *)

(** A protocol that is done after a number of polls; HTTP/1 needs as many as bytes. *)
#[local] Instance patient : ConnProtocol nat := {|
  proto_poll := fun n => match n with O => Ret (Ready tt, O) | S n => Ret (NotReady, n) end;
  proto_shutdown := fun _ => O;
|}.
#[local] Existing Instance exact_alloc.
Definition patient_h1 (_ : socket) (data : bytes) : nat := length data.
Definition patient_h2 (_ : socket) (_ : bytes) : nat := O.
Definition a_date : list bytes := [b#"Sun, 06 Nov 1994 "; b#"08:49:37 GMT"].
Definition get_conn : WConn := mkWConn [Ok b#"GET / "; Ok b#"HTTP/1.1"; Ok (b#"host: a")] None false.
Definition idle_worker : Worker (P1 := nat) (P2 := nat) :=
  mkWorker (mkWS 0 true 0 {[ head_addr := Node_head ]} (mkDate (concat a_date) 29)) None ∅ false.
Definition busy_worker : Worker := worker_conn patient_h2 SH_Normal (HS_accepted None) 7 get_conn idle_worker.

Lemma idle_worker_runs : worker_run patient_h1 patient_h2 idle_worker.
Proof. apply (run_new _ _ KA_Os a_date). vm_compute. reflexivity. Qed.
Lemma busy_worker_runs : worker_run patient_h1 patient_h2 busy_worker.
Proof. apply run_conn; [apply idle_worker_runs|reflexivity]. Qed.

Lemma channels_counted_witness :
  ws_channels (wk_settings busy_worker) = 1 /\ worker_stop (Some SECOND) idle_worker = Ret (inl true, idle_worker).
Proof.
  split.
  - destruct (channels_counted patient_h1 patient_h2 busy_worker busy_worker_runs) as [Hc _]. rewrite Hc. reflexivity.
  - destruct (channels_counted patient_h1 patient_h2 idle_worker idle_worker_runs) as [_ Hs]. apply Hs. reflexivity.
Defined.

Lemma forced_shutdown_closes_none_witness : worker_stop None busy_worker = Ret (inl false, busy_worker).
Proof.
  apply (forced_shutdown_closes_none patient_h1 patient_h2 busy_worker busy_worker_runs).
  intros Hx%(f_equal (fun m => m !! 7%nat)). vm_compute in Hx. discriminate.
Defined.

(** The connection is still alive at the first second, and gone at the second. *)
Lemma graceful_shutdown_time_witness :
  shutdown_rounds 4 0 (3 * SECOND) (fun t => if (t <=? 1)%nat then busy_worker else idle_worker) = Ret (2%nat, true).
Proof.
  destruct (graceful_shutdown_time patient_h1 patient_h2 (fun t => if (t <=? 1)%nat then busy_worker else idle_worker) 3)
    as (t & d & Hr & _).
  - intros t. destruct (t <=? 1)%nat; [apply busy_worker_runs|apply idle_worker_runs].
  - change (Z.of_nat 3 * SECOND) with (3 * SECOND) in Hr. vm_compute in Hr |- *. rewrite Hr. injection Hr as <- <-. reflexivity.
Defined.

Lemma protocol_detected_witness :
  exists n io' data, data ++ pending io' = b#"GET / HTTP/1.1host: a" /\ (n <= 25)%nat /\
    channel_polls patient_h1 patient_h2 n 7 (mkChan (Some (Proto_Unknown (wc_io get_conn) (mkBM [] 4096))) None)
      (add_channel (wk_settings idle_worker)) =
    ('(r, h1) ← proto_poll (patient_h1 io' data);
     channel_result Proto_H1 r h1 (mkChan (Some (Proto_Unknown (wc_io get_conn) (mkBM [] 4096))) None)
       (add_channel (wk_settings idle_worker))).
Proof.
  destruct (protocol_detected patient_h1 patient_h2 (wc_io get_conn) 7 (wk_settings idle_worker)) as (n & io' & data & Hn & Hd & Hr).
  - repeat constructor; intros Hx; vm_compute in Hx; discriminate.
  - vm_compute. discriminate.
  - exists n, io', data. split; [exact Hd|]. split; [vm_compute in Hn |- *; lia|].
    cbn [HttpChannel_new] in Hr. rewrite Hr. destruct (decide _) as [Hx|]; [vm_compute in Hx; discriminate|reflexivity].
Defined.

(** A poll that reads too little parks the connection although the socket has more. *)
Lemma short_read_parks :
  channel_poll patient_h1 patient_h2 7 (mkChan (Some (Proto_Unknown (wc_io get_conn) (mkBM [] 4096))) None)
    (wk_settings idle_worker) =
  Ret (NotReady, mkChan (Some (Proto_Unknown [Ok b#"HTTP/1.1"; Ok b#"host: a"] (mkBM b#"GET / " 4090))) None,
       wk_settings idle_worker).
Proof. vm_compute. reflexivity. Qed.
