(* ===== verification/Server.v ===== *)
(** * The server (src/src/server/srv.rs)

    An [HttpServer] binds sockets, starts workers and one accept thread for every socket.
    An accept thread hands its connections to the workers in turn, reports workers that
    have died and obeys commands; the server actor restarts dead workers under a new index
    and stops everything.  Workers are known by the channels that lead to them. *)
From S2P Require Import Prelude StrLib Errors H1Reader Worker.
Open Scope Z_scope.

(** ** Accept threads *)
Record Info : Type := mkInfo { i_addr : bytes; i_handler : StreamHandlerType }.
Inductive ServerCommand : Type := WorkerDied (idx : nat) (info : Info).
Inductive Command : Type := Cmd_Pause | Cmd_Resume | Cmd_Stop | Cmd_Worker (idx tx : nat).

Definition connection_error (k : ErrorKind) : bool :=
  bool_decide (k = ConnectionRefused) || bool_decide (k = ConnectionAborted) || bool_decide (k = ConnectionReset).

(** The part of an accept thread that hands out connections, with what it did: the
    connections sent, those dropped, the reports and how often it slept. *)
Record Acceptor : Type := mkAcc {
  ac_workers : list (nat * nat);
  ac_next : nat;
  ac_sent : list (nat * WConn);
  ac_dropped : list WConn;
  ac_reports : list ServerCommand;
  ac_slept : nat;
}.
Definition set_ac_workers v a := mkAcc v (ac_next a) (ac_sent a) (ac_dropped a) (ac_reports a) (ac_slept a).
Definition set_ac_next v a := mkAcc (ac_workers a) v (ac_sent a) (ac_dropped a) (ac_reports a) (ac_slept a).
Definition add_sent tx c a := mkAcc (ac_workers a) (ac_next a) (ac_sent a ++ [(tx, c)]) (ac_dropped a) (ac_reports a) (ac_slept a).
Definition add_dropped c a := mkAcc (ac_workers a) (ac_next a) (ac_sent a) (ac_dropped a ++ [c]) (ac_reports a) (ac_slept a).
Definition add_report r a := mkAcc (ac_workers a) (ac_next a) (ac_sent a) (ac_dropped a) (ac_reports a ++ [r]) (ac_slept a).
Definition sleep a := mkAcc (ac_workers a) (ac_next a) (ac_sent a) (ac_dropped a) (ac_reports a) (S (ac_slept a)).

Section Accepting.
(** Whether the channel to a worker still has its receiver. *)
Context (alive : nat -> bool) (info : Info).

(** [while !workers.is_empty()]. *)
Fixpoint dispatch_loop (fuel : nat) (msg : WConn) (a : Acceptor) : run Acceptor :=
  match fuel with
  | O => Timeout
  | S fuel =>
      match ac_workers a with
      | [] => Ret (add_dropped msg a)
      | _ =>
          '(idx, tx) ← unwrap (ac_workers a !! ac_next a);
          if alive tx then
            let a := add_sent tx msg a in
            Ret (set_ac_next ((ac_next a + 1) mod length (ac_workers a))%nat a)
          else
            let a := add_report (WorkerDied idx info) a in
            let a := set_ac_workers (swap_remove (ac_next a) (ac_workers a)) a in
            match ac_workers a with
            | [] => Ret (add_dropped msg (sleep a))
            | _ =>
                let a := if (length (ac_workers a) <=? ac_next a)%nat then set_ac_next 0 a else a in
                dispatch_loop fuel msg a
            end
      end
  end.
Definition dispatch_conn (msg : WConn) (a : Acceptor) : run Acceptor :=
  dispatch_loop (S (length (ac_workers a))) msg a.

(** The loop over [accept_std]: the answers of the listener, which blocks in the end. *)
Fixpoint accept_loop (answers : list (result (socket * nat) IoError)) (a : Acceptor) : run Acceptor :=
  match answers with
  | [] => Ret a
  | Ok (sock, addr) :: answers => a ← dispatch_conn (mkWConn sock (Some addr) false) a; accept_loop answers a
  | Err e :: answers =>
      if decide (io_kind e = WouldBlock) then Ret a
      else if connection_error (io_kind e) then accept_loop answers a
      else Ret (sleep a)
  end.

(** The thread: its listener, its commands and whether their senders are alive. *)
Record AcceptThread : Type := mkTh {
  th_server : option nat;
  th_acc : Acceptor;
  th_rx : list Command;
  th_connected : bool;
  th_returned : bool;
}.
Definition set_th_server v t := mkTh v (th_acc t) (th_rx t) (th_connected t) (th_returned t).
Definition set_th_acc v t := mkTh (th_server t) v (th_rx t) (th_connected t) (th_returned t).
Definition set_th_rx v t := mkTh (th_server t) (th_acc t) v (th_connected t) (th_returned t).
Definition th_return t := mkTh None (th_acc t) (th_rx t) (th_connected t) true.

(** An event: the socket with what its listener answers, or the commands with what
    [create_tcp_listener] gives if it is called. *)
Inductive AcceptEvent : Type :=
| Ev_SRV (answers : list (result (socket * nat) IoError))
| Ev_CMD (lst : option nat).

Definition th_command (cmd : Command) (lst : option nat) (t : AcceptThread) : run AcceptThread :=
  match cmd with
  | Cmd_Pause => Ret (set_th_server None t)
  | Cmd_Resume => lst ← unwrap lst; Ret (set_th_server (Some lst) t)
  | Cmd_Stop => Ret (th_return t)
  | Cmd_Worker idx tx => Ret (set_th_acc (set_ac_workers (ac_workers (th_acc t) ++ [(idx, tx)]) (th_acc t)) t)
  end.

Definition th_event (ev : AcceptEvent) (t : AcceptThread) : run AcceptThread :=
  match ev with
  | Ev_SRV answers =>
      match th_server t with
      | Some _ => a ← accept_loop answers (th_acc t); Ret (set_th_acc a t)
      | None => Ret t
      end
  | Ev_CMD lst =>
      match th_rx t with
      | cmd :: rx => th_command cmd lst (set_th_rx rx t)
      | [] => if th_connected t then Ret t else Ret (th_return t)
      end
  end.
Fixpoint th_events (evs : list AcceptEvent) (t : AcceptThread) : run AcceptThread :=
  match evs with
  | [] => Ret t
  | ev :: evs => if th_returned t then Ret t else t ← th_event ev t; th_events evs t
  end.
End Accepting.

Definition start_accept_thread (sock : nat) (workers : list (nat * nat)) : AcceptThread :=
  mkTh (Some sock) (mkAcc workers 0 [] [] [] 0) [] true false.

(** ** The server actor *)
Record HttpServer : Type := mkHS {
  hs_threads : Z;
  hs_backlog : Z;
  hs_host : option bytes;
  hs_keep_alive : KeepAlive;
  hs_workers : list (nat * nat);
  hs_sockets : list (bytes * nat);
  hs_accept : nat; (* accept threads, by their number *)
  hs_exit : bool;
  hs_shutdown_timeout : Z;
  hs_signals : option nat;
  hs_no_http2 : bool;
  hs_no_signals : bool;
}.
Definition HttpServer_new (num_cpus : Z) : HttpServer :=
  mkHS num_cpus 2048 None KA_Os [] [] 0 false 30 None false false.
Definition hs_set_threads v s := mkHS v (hs_backlog s) (hs_host s) (hs_keep_alive s) (hs_workers s) (hs_sockets s) (hs_accept s) (hs_exit s) (hs_shutdown_timeout s) (hs_signals s) (hs_no_http2 s) (hs_no_signals s).
Definition hs_set_backlog v s := mkHS (hs_threads s) v (hs_host s) (hs_keep_alive s) (hs_workers s) (hs_sockets s) (hs_accept s) (hs_exit s) (hs_shutdown_timeout s) (hs_signals s) (hs_no_http2 s) (hs_no_signals s).
Definition hs_set_hostname v s := mkHS (hs_threads s) (hs_backlog s) (Some v) (hs_keep_alive s) (hs_workers s) (hs_sockets s) (hs_accept s) (hs_exit s) (hs_shutdown_timeout s) (hs_signals s) (hs_no_http2 s) (hs_no_signals s).
Definition hs_set_keep_alive v s := mkHS (hs_threads s) (hs_backlog s) (hs_host s) v (hs_workers s) (hs_sockets s) (hs_accept s) (hs_exit s) (hs_shutdown_timeout s) (hs_signals s) (hs_no_http2 s) (hs_no_signals s).
Definition hs_set_workers v s := mkHS (hs_threads s) (hs_backlog s) (hs_host s) (hs_keep_alive s) v (hs_sockets s) (hs_accept s) (hs_exit s) (hs_shutdown_timeout s) (hs_signals s) (hs_no_http2 s) (hs_no_signals s).
Definition hs_set_sockets v s := mkHS (hs_threads s) (hs_backlog s) (hs_host s) (hs_keep_alive s) (hs_workers s) v (hs_accept s) (hs_exit s) (hs_shutdown_timeout s) (hs_signals s) (hs_no_http2 s) (hs_no_signals s).
Definition hs_set_accept v s := mkHS (hs_threads s) (hs_backlog s) (hs_host s) (hs_keep_alive s) (hs_workers s) (hs_sockets s) v (hs_exit s) (hs_shutdown_timeout s) (hs_signals s) (hs_no_http2 s) (hs_no_signals s).
Definition hs_system_exit s := mkHS (hs_threads s) (hs_backlog s) (hs_host s) (hs_keep_alive s) (hs_workers s) (hs_sockets s) (hs_accept s) true (hs_shutdown_timeout s) (hs_signals s) (hs_no_http2 s) (hs_no_signals s).
Definition hs_set_shutdown_timeout v s := mkHS (hs_threads s) (hs_backlog s) (hs_host s) (hs_keep_alive s) (hs_workers s) (hs_sockets s) (hs_accept s) (hs_exit s) v (hs_signals s) (hs_no_http2 s) (hs_no_signals s).
Definition hs_set_signals v s := mkHS (hs_threads s) (hs_backlog s) (hs_host s) (hs_keep_alive s) (hs_workers s) (hs_sockets s) (hs_accept s) (hs_exit s) (hs_shutdown_timeout s) (Some v) (hs_no_http2 s) (hs_no_signals s).
Definition hs_disable_http2 s := mkHS (hs_threads s) (hs_backlog s) (hs_host s) (hs_keep_alive s) (hs_workers s) (hs_sockets s) (hs_accept s) (hs_exit s) (hs_shutdown_timeout s) (hs_signals s) true (hs_no_signals s).
Definition hs_disable_signals v s := mkHS (hs_threads s) (hs_backlog s) (hs_host s) (hs_keep_alive s) (hs_workers s) (hs_sockets s) (hs_accept s) (hs_exit s) (hs_shutdown_timeout s) (hs_signals s) (hs_no_http2 s) v.

Definition hs_addrs (s : HttpServer) : list bytes := (hs_sockets s).*1.
Definition hs_listen (addr : bytes) (lst : nat) (s : HttpServer) : HttpServer :=
  hs_set_sockets (hs_sockets s ++ [(addr, lst)]) s.

(** [bind]: the listeners of the addresses a name resolves to, with the address each is
    bound to; an [Err] of the resolver is returned. *)
Fixpoint bind_loop (lsts : list (result (bytes * nat) IoError)) (err : option IoError) (succ : bool) (s : HttpServer)
  : option IoError * bool * HttpServer :=
  match lsts with
  | [] => (err, succ, s)
  | Ok (addr, lst) :: lsts => bind_loop lsts err true (hs_listen addr lst s)
  | Err e :: lsts => bind_loop lsts (Some e) succ s
  end.
Definition CANNOT_BIND : IoError := mkIoError OtherKind "Can not bind to address.".
Definition hs_bind (resolved : result (list (result (bytes * nat) IoError)) IoError) (s : HttpServer)
  : result HttpServer IoError :=
  match resolved with
  | Err e => Err e
  | Ok lsts =>
      let '(err, succ, s) := bind_loop lsts None false s in
      if negb succ then match err with Some e => Err e | None => Err CANNOT_BIND end
      else Ok s
  end.

(** What the actor does beside changing its state. *)
Inductive Effect : Type :=
| Eff_command (thread : nat) (cmd : Command) (* sent, and the thread woken *)
| Eff_start_worker (tx : nat) (info : Info)
| Eff_stop_worker (tx : nat) (graceful : option Z)
| Eff_exit. (* the system exits after 300 ms *)
Definition to_threads (cmd : Command) (s : HttpServer) : list Effect :=
  (fun i => Eff_command i cmd) <$> seq 0 (hs_accept s).

(** [start_workers]: the channels are new, from [tx] on. *)
Definition start_workers (tx : nat) (s : HttpServer) : list (nat * nat) * HttpServer :=
  let workers := (fun idx => (idx, (tx + idx)%nat)) <$> seq 0 (Z.to_nat (hs_threads s)) in
  (workers, hs_set_workers (hs_workers s ++ workers) s).

Definition subscribe_to_signals (s : HttpServer) (registry : nat) : option nat :=
  if negb (hs_no_signals s) then
    match hs_signals s with Some signals => Some signals | None => Some registry end
  else None.

(** The common part of the starts: the server and its accept threads; [None] when no
    socket is bound. *)
Definition start_threads (tx : nat) (handler : StreamHandlerType) (s : HttpServer)
  : option (HttpServer * Info * list AcceptThread) :=
  match hs_sockets s with
  | [] => None
  | ((addr, _) :: _) as addrs =>
      let s := hs_set_sockets [] s in
      let '(workers, s) := start_workers tx s in
      let threads := (fun a : bytes * nat => start_accept_thread a.2 workers) <$> addrs in
      Some (hs_set_accept (hs_accept s + length threads) s, mkInfo addr handler, threads)
  end.
Definition hs_start (tx : nat) (s : HttpServer) : run (HttpServer * Info * list AcceptThread) :=
  unwrap (start_threads tx SH_Normal s).
Definition hs_start_tls (tx : nat) (s : HttpServer) : result (HttpServer * Info * list AcceptThread) IoError :=
  match start_threads tx SH_Tls s with
  | Some r => Ok r
  | None => Err (mkIoError OtherKind "No socket addresses are bound")
  end.
Definition hs_run (tx : nat) (s : HttpServer) : run (HttpServer * Info * list AcceptThread) :=
  hs_start tx (hs_disable_signals false (hs_system_exit s)).

(** [start_ssl]: what the callback selects of the protocols a client offers. *)
Definition H2_PROTO : bytes := 2 :: b#"h2".
Fixpoint any_window (protos : bytes) : bool :=
  bool_decide (take 3 protos = H2_PROTO) || match protos with [] => false | _ :: protos => any_window protos end.
Definition alpn_select (protos : bytes) : option bytes :=
  if any_window protos then Some b#"h2" else None.
Definition hs_start_ssl (tx : nat) (s : HttpServer)
  : result (option (bytes -> option bytes) * (HttpServer * Info * list AcceptThread)) IoError :=
  match start_threads tx SH_Alpn s with
  | Some r => Ok (if negb (hs_no_http2 s) then Some alpn_select else None, r)
  | None => Err (mkIoError OtherKind "No socket addresses are bound")
  end.

(** [StreamHandler<ServerCommand>]: a worker has died. *)
Fixpoint remove_worker (idx i : nat) (todo all : list (nat * nat)) : option (list (nat * nat)) :=
  match todo with
  | [] => None
  | (idx', _) :: todo => if decide (idx' = idx) then Some (swap_remove i all) else remove_worker idx (S i) todo all
  end.
Fixpoint new_index (fuel : nat) (workers : list (nat * nat)) (new_idx : nat) : run nat :=
  match fuel with
  | O => Timeout
  | S fuel =>
      if bool_decide (new_idx ∈ workers.*1) then new_index fuel workers (S new_idx) else Ret new_idx
  end.
Definition hs_worker_died (tx : nat) (cmd : ServerCommand) (s : HttpServer) : run (HttpServer * list Effect) :=
  let '(WorkerDied idx info) := cmd in
  match remove_worker idx 0 (hs_workers s) (hs_workers s) with
  | Some workers =>
      new_idx ← new_index (S (length workers)) workers (length workers);
      Ret (hs_set_workers (workers ++ [(new_idx, tx)]) s,
           Eff_start_worker tx info :: to_threads (Cmd_Worker new_idx tx) s)
  | None => Ret (s, [])
  end.

(** [PauseServer], [ResumeServer] and [StopServer]; the last is answered at once or when
    all workers have answered. *)
Definition hs_pause (s : HttpServer) : list Effect := to_threads Cmd_Pause s.
Definition hs_resume (s : HttpServer) : list Effect := to_threads Cmd_Resume s.
Definition exit_effect (s : HttpServer) : list Effect := if hs_exit s then [Eff_exit] else [].
Definition hs_stop (graceful : bool) (s : HttpServer) : bool * list Effect :=
  let dur := if graceful then Some (hs_shutdown_timeout s * SECOND) else None in
  let stops := to_threads Cmd_Stop s ++ ((fun w : nat * nat => Eff_stop_worker w.2 dur) <$> hs_workers s) in
  match hs_workers s with
  | [] => (true, stops ++ exit_effect s)
  | _ => (false, stops)
  end.
(** The answer of a worker to [StopWorker]. *)
Definition hs_worker_stopped (s : HttpServer) : HttpServer * list Effect :=
  let s := hs_set_workers (take (length (hs_workers s) - 1) (hs_workers s)) s in
  (s, match hs_workers s with [] => exit_effect s | _ => [] end).

Inductive SignalType : Type := Sig_Int | Sig_Term | Sig_Quit | Sig_other.
Definition hs_signal (sig : SignalType) (s : HttpServer) : HttpServer * list Effect :=
  match sig with
  | Sig_Int => let s := hs_system_exit s in (s, (hs_stop false s).2)
  | Sig_Term => let s := hs_system_exit s in (s, (hs_stop true s).2)
  | Sig_Quit => let s := hs_system_exit s in (s, (hs_stop false s).2)
  | Sig_other => (s, [])
  end.
