(* ===== verification/ServerFacts.v ===== *)
(** * Connections are handed out to live workers in turn, and dead workers replaced *)
From S2P Require Import Prelude StrLib Errors H1Reader Worker Server.
Open Scope Z_scope.

(** ** Accept threads *)
Section Accepting.
Context (alive : nat -> bool) (info : Info).

(** The next worker exists, if there is one at all. *)
Definition acc_ok (a : Acceptor) : Prop :=
  (ac_next a < Nat.max 1 (length (ac_workers a)))%nat.
Definition dead (w : nat * nat) : Prop := alive w.2 = false.
Definition report (w : nat * nat) : ServerCommand := WorkerDied w.1 info.

(** What handing out one connection does. *)
Definition handed (c : WConn) (a a' : Acceptor) : Prop :=
  acc_ok a' /\
  exists removed, ac_workers a ≡ₚ ac_workers a' ++ removed /\ Forall dead removed /\
    ac_reports a' = ac_reports a ++ (report <$> removed) /\
    ((exists idx tx, (idx, tx) ∈ ac_workers a' /\ alive tx = true /\
        ac_sent a' = ac_sent a ++ [(tx, c)] /\ ac_dropped a' = ac_dropped a) \/
     (ac_workers a' = [] /\ ac_sent a' = ac_sent a /\ ac_dropped a' = ac_dropped a ++ [c])).

Lemma dispatch_loop_ok fuel c a :
  (length (ac_workers a) < fuel)%nat -> acc_ok a ->
  exists a', dispatch_loop alive info fuel c a = Ret a' /\ handed c a a'.
Proof.
  revert a. induction fuel as [|fuel IH]; intros a Hf Hok; [lia|]. cbn [dispatch_loop]. unfold acc_ok in Hok.
  destruct (decide (ac_workers a = [])) as [Hnil|Hne].
  { rewrite Hnil. eexists. split; [done|]. split; [done|].
    exists []. split_and!; [by rewrite app_nil_r|done|by rewrite app_nil_r|by right]. }
  assert (ac_next a < length (ac_workers a))%nat as Hnext by (destruct (ac_workers a); [done|simpl in *; lia]).
  destruct (lookup_lt_is_Some_2 (ac_workers a) (ac_next a) Hnext) as [[idx tx] Hn].
  rewrite Hn. destruct (ac_workers a) as [|w0 ws0] eqn:Hws; [done|]. rewrite <-Hws in *. clear Hws.
  cbn [unwrap mbind run_bind]. destruct (alive tx) eqn:Htx.
  - eexists. split; [done|]. split.
    + unfold acc_ok. cbn [set_ac_next add_sent ac_workers ac_next].
      assert ((ac_next a + 1) mod length (ac_workers a) < length (ac_workers a))%nat by (apply Nat.mod_upper_bound; lia). lia.
    + exists []. split_and!; [by rewrite app_nil_r|done|by rewrite app_nil_r|left].
      exists idx, tx. split_and!; [by eapply list_elem_of_lookup_2|done..].
  - pose proof (swap_remove_perm _ _ _ Hn) as Hperm. pose proof (Permutation_length Hperm) as Hlen. simpl in Hlen.
    cbn [set_ac_workers add_report ac_workers ac_next].
    set (a1 := set_ac_workers _ _). destruct (swap_remove (ac_next a) (ac_workers a)) as [|w1 ws1] eqn:Hw1.
    + simpl in Hlen. eexists. split; [done|]. split; [unfold acc_ok; subst a1; simpl; lia|].
      exists [(idx, tx)]. by split_and!; [|repeat constructor| |right].
    + rewrite <-Hw1 in *. set (a2 := if (_ <=? _)%nat then _ else _).
      assert (ac_workers a2 = swap_remove (ac_next a) (ac_workers a) /\ ac_sent a2 = ac_sent a /\ ac_dropped a2 = ac_dropped a /\
        ac_reports a2 = ac_reports a ++ [report (idx, tx)] /\ acc_ok a2) as (Hw2 & Hs2 & Hd2 & Hr2 & Hok2).
      { unfold a2, acc_ok. destruct (Nat.leb_spec (length (swap_remove (ac_next a) (ac_workers a))) (ac_next a)) as [Hle|Hlt];
          rewrite Hw1 in *; split_and!; try done; subst a1; simpl in *; lia. }
      destruct (IH a2) as (a' & -> & Hok' & removed & Hp & Hdead & Hrep & Hcase); [rewrite Hw2; lia|done|].
      exists a'. split; [done|]. split; [done|]. exists ((idx, tx) :: removed). split_and!.
      * rewrite Hperm, <-Hw2, Hp. by rewrite Permutation_middle.
      * by constructor.
      * by rewrite Hrep, Hr2, <-app_assoc.
      * by rewrite <-Hs2, <-Hd2.
Qed.

(** The connections that the listener gives before it blocks or fails. *)
Fixpoint accepted_conns (answers : list (result (socket * nat) IoError)) : list WConn :=
  match answers with
  | [] => []
  | Ok (sock, addr) :: answers => mkWConn sock (Some addr) false :: accepted_conns answers
  | Err e :: answers =>
      if decide (io_kind e = WouldBlock) then []
      else if connection_error (io_kind e) then accepted_conns answers else []
  end.

Definition handed_all (cs : list WConn) (a a' : Acceptor) : Prop :=
  acc_ok a' /\
  exists sent dropped removed,
    ac_sent a' = ac_sent a ++ sent /\ ac_dropped a' = ac_dropped a ++ dropped /\ cs = sent.*2 ++ dropped /\
    Forall (fun s => s.1 ∈ (ac_workers a).*2 /\ alive s.1 = true) sent /\
    ac_workers a ≡ₚ ac_workers a' ++ removed /\ Forall dead removed /\
    ac_reports a' = ac_reports a ++ (report <$> removed) /\
    (dropped <> [] -> Forall dead (ac_workers a)).

Lemma handed_all_cons c cs a a1 a' : handed c a a1 -> handed_all cs a1 a' -> handed_all (c :: cs) a a'.
Proof.
  intros (_ & removed & Hp & Hdead & Hrep & Hcase) (Hok' & sent & dropped & removed' & Hs & Hd & -> & Hsent & Hp' & Hdead' & Hrep' & Hall).
  split; [done|].
  assert (ac_workers a ≡ₚ ac_workers a' ++ removed ++ removed') as HP.
  { rewrite Hp, Hp', <-app_assoc. apply Permutation_app_head, Permutation_app_comm. }
  assert (Forall (fun s => s.1 ∈ (ac_workers a).*2 /\ alive s.1 = true) sent) as Hsent'.
  { eapply Forall_impl; [exact Hsent|]. intros [tx c'] [Hin Hal]. split; [|done]. simpl in *.
    rewrite Hp, fmap_app. by apply elem_of_app; left. }
  destruct Hcase as [(idx & tx & Hin & Htx & Hs1 & Hd1)|(Hnil & Hs1 & Hd1)].
  - exists ((tx, c) :: sent), dropped, (removed ++ removed'). rewrite Hs, Hs1, Hd, Hd1, Hrep', Hrep, fmap_app, <-!app_assoc.
    split_and!; [done|done|done| |done|by apply Forall_app|done|].
    + constructor; [|done]. split; [|done]. rewrite Hp. rewrite fmap_app. apply elem_of_app; left.
      apply list_elem_of_fmap. by exists (idx, tx).
    + intros Hne. specialize (Hall Hne). rewrite Forall_forall in Hall. specialize (Hall _ Hin). unfold dead in Hall. simpl in Hall. congruence.
  - assert (sent = []) as ->.
    { destruct sent as [|[tx c'] sent]; [done|]. apply Forall_cons in Hsent as [[Hin _] _]. rewrite Hnil in Hin. by apply not_elem_of_nil in Hin. }
    exists [], (c :: dropped), (removed ++ removed'). rewrite Hs, Hs1, Hd, Hd1, Hrep', Hrep, fmap_app, <-!app_assoc, app_nil_r.
    split_and!; [done|done|done|done|done|by apply Forall_app|done|].
    intros _. rewrite Hnil in Hp'. apply Permutation_nil_l, eq_sym, app_eq_nil in Hp' as [Ha' ->].
    by rewrite HP, Ha', app_nil_r.
Qed.

Lemma accept_loop_ok answers a :
  acc_ok a -> exists a', accept_loop alive info answers a = Ret a' /\ handed_all (accepted_conns answers) a a'.
Proof.
  assert (forall a, acc_ok a -> handed_all [] a a) as Hnil.
  { intros b Hb. split; [done|]. exists [], [], []. by rewrite !app_nil_r. }
  revert a. induction answers as [|[[sock addr]|e] answers IH]; intros a Hok; cbn [accept_loop accepted_conns].
  - exists a. auto.
  - destruct (dispatch_loop_ok (S (length (ac_workers a))) (mkWConn sock (Some addr) false) a ltac:(lia) Hok) as (a1 & Hd & Hh).
    unfold dispatch_conn. rewrite Hd. cbn [mbind run_bind]. destruct (IH a1 (proj1 Hh)) as (a' & -> & Hh').
    exists a'. split; [done|]. by eapply handed_all_cons.
  - destruct (decide _); [by eauto|]. destruct (connection_error _); [by apply IH|].
    exists (sleep a). split; [done|]. by apply (Hnil a).
Qed.
End Accepting.

(** Accept threads that run, with workers that die meanwhile. *)
Inductive thread_run (info : Info) : AcceptThread -> Prop :=
| thread_start sock workers : thread_run info (start_accept_thread sock workers)
| thread_command t cmd :
    thread_run info t -> thread_run info (set_th_rx (th_rx t ++ [cmd]) t)
| thread_event alive ev t t' :
    thread_run info t -> th_event alive info ev t = Ret t' -> thread_run info t'.

Lemma thread_run_ok info t : thread_run info t -> acc_ok (th_acc t).
Proof.
  induction 1 as [sock workers|t cmd _ IH|alive ev t t' _ IH Hev]; [unfold acc_ok; simpl; lia|done|].
  destruct ev as [answers|lst]; cbn [th_event] in Hev.
  - destruct (th_server t); [|by injection Hev as <-].
    destruct (accept_loop_ok alive info answers (th_acc t) IH) as (a & Ha & Hh & _). rewrite Ha in Hev. by injection Hev as <-.
  - destruct (th_rx t) as [|[| | |idx tx] rx]; cbn [th_command] in Hev.
    + destruct (th_connected t); by injection Hev as <-.
    + by injection Hev as <-.
    + destruct lst; [|done]. by injection Hev as <-.
    + by injection Hev as <-.
    + injection Hev as <-. unfold acc_ok in *. simpl. rewrite length_app. simpl. lia.
Qed.

(** C13. Connections are handed out: when the socket of a running accept thread is ready,
    every connection that the listener gives, in order, is sent once to a worker that is
    alive; the workers found dead are taken off the list and reported, each once; and
    connections are dropped only if no worker is alive. *)
Theorem connections_handed_out (info : Info) (t : AcceptThread) (alive : nat -> bool)
  (answers : list (result (socket * nat) IoError)) (lst : nat) :
  thread_run info t -> th_server t = Some lst ->
  exists a', th_event alive info (Ev_SRV answers) t = Ret (set_th_acc a' t) /\
    handed_all alive info (accepted_conns answers) (th_acc t) a'.
Proof.
  intros Hrun Hs. cbn [th_event]. rewrite Hs.
  destruct (accept_loop_ok alive info answers (th_acc t) (thread_run_ok info t Hrun)) as (a' & -> & Hh). by exists a'.
Qed.

(** Workers take turns: while all workers of an accept thread are alive, the next
    connections go to the workers in cyclic order. *)
Theorem workers_take_turns (info : Info) (alive : nat -> bool) (conns : list (socket * nat)) (a : Acceptor) :
  acc_ok a -> ac_workers a <> [] -> Forall (fun w => alive w.2 = true) (ac_workers a) ->
  exists a', accept_loop alive info (Ok <$> conns) a = Ret a' /\ ac_workers a' = ac_workers a /\
    ac_reports a' = ac_reports a /\ ac_dropped a' = ac_dropped a /\
    exists sent, ac_sent a' = ac_sent a ++ sent /\ length sent = length conns /\
    forall k tx c, sent !! k = Some (tx, c) ->
      (exists idx, ac_workers a !! ((ac_next a + k) mod length (ac_workers a))%nat = Some (idx, tx)) /\
      (exists sock addr, conns !! k = Some (sock, addr) /\ c = mkWConn sock (Some addr) false).
Proof.
  revert a. induction conns as [|[sock addr] conns IH]; intros a Hok Hne Hal; cbn [fmap list_fmap accept_loop].
  - exists a. split_and!; [done..|]. exists []. rewrite app_nil_r. by split_and!.
  - assert (ac_next a < length (ac_workers a))%nat as Hnext by (unfold acc_ok in Hok; destruct (ac_workers a); [done|simpl in *; lia]).
    destruct (lookup_lt_is_Some_2 (ac_workers a) (ac_next a) Hnext) as [[idx tx] Hn].
    set (c := mkWConn sock (Some addr) false).
    set (a1 := set_ac_next ((ac_next a + 1) mod length (ac_workers a)) (add_sent tx c a)).
    assert (dispatch_conn alive info c a = Ret a1) as ->.
    { unfold dispatch_conn. cbn [dispatch_loop]. rewrite Hn. rewrite Forall_lookup in Hal. specialize (Hal _ _ Hn). simpl in Hal.
      destruct (ac_workers a) eqn:Hws; [done|]. cbn [unwrap mbind run_bind]. rewrite Hal. subst a1. simpl. by rewrite Hws. }
    cbn [mbind run_bind]. assert ((ac_next a + 1) mod length (ac_workers a) < length (ac_workers a))%nat as Hm by (apply Nat.mod_upper_bound; lia).
    destruct (IH a1) as (a' & -> & Hw & Hr & Hd & sent & Hs & Hl & Hk); [unfold acc_ok; simpl; lia|done|done|].
    exists a'. split_and!; [done..|]. exists ((tx, c) :: sent). split_and!.
    + rewrite Hs. subst a1. simpl. by rewrite <-app_assoc.
    + simpl. by rewrite Hl.
    + intros [|k] tx' c' Hlk; simpl in Hlk.
      * injection Hlk as <- <-. rewrite Nat.add_0_r, Nat.mod_small by done. split; [by exists idx|by exists sock, addr].
      * destruct (Hk k tx' c' Hlk) as [Hw' Hc']. split; [|done]. destruct Hw' as [idx' Hw']. exists idx'.
        rewrite <-Hw'. cbn [a1 set_ac_next add_sent ac_workers ac_next]. f_equal.
        rewrite Nat.Div0.add_mod_idemp_l. f_equal. lia.
Qed.

(** ** The server actor *)
Lemma count_above k (l : list nat) :
  k ∈ l -> (length (filter (fun i => S k <= i)%nat l) < length (filter (fun i => k <= i)%nat l))%nat.
Proof.
  assert (forall l, length (filter (fun i => S k <= i)%nat l) <= length (filter (fun i => k <= i)%nat l))%nat as Hle.
  { clear l. induction l as [|i l IH]; [done|]. rewrite !filter_cons. repeat case_decide; simpl; lia. }
  induction l as [|i l IH]; [by intros ?%not_elem_of_nil|]. specialize (Hle l). rewrite !filter_cons.
  intros [->|Hin]%elem_of_cons; [rewrite decide_False, decide_True by lia; simpl; lia|].
  specialize (IH Hin). repeat case_decide; simpl; lia.
Qed.

Lemma new_index_ok fuel ws k :
  (length (filter (fun i => k <= i)%nat ws.*1) < fuel)%nat ->
  exists n, new_index fuel ws k = Ret n /\ n ∉ ws.*1.
Proof.
  revert k. induction fuel as [|fuel IH]; intros k Hf; [lia|]. cbn [new_index].
  case_bool_decide as Hin; [|by exists k]. pose proof (count_above _ _ Hin). apply IH. lia.
Qed.

Lemma remove_worker_ok idx done_ todo :
  match remove_worker idx (length done_) todo (done_ ++ todo) with
  | Some ws => exists tx, done_ ++ todo ≡ₚ (idx, tx) :: ws
  | None => idx ∉ todo.*1
  end.
Proof.
  revert done_. induction todo as [|[idx' tx] todo IH]; intros done_; cbn [remove_worker].
  - apply not_elem_of_nil.
  - destruct (decide (idx' = idx)) as [->|Hne].
    + exists tx. apply swap_remove_perm. by rewrite lookup_app_r, Nat.sub_diag by lia.
    + specialize (IH (done_ ++ [(idx', tx)])). rewrite length_app, <-app_assoc in IH. simpl in IH.
      rewrite Nat.add_1_r in IH. destruct (remove_worker _ _ _ _); [done|].
      simpl. by apply not_elem_of_cons.
Qed.

(** Servers that run. *)
Inductive server_run : HttpServer -> Prop :=
| server_start tx handler s0 s info threads :
    hs_workers s0 = [] -> start_threads tx handler s0 = Some (s, info, threads) -> server_run s
| server_died tx cmd s s' effs : server_run s -> hs_worker_died tx cmd s = Ret (s', effs) -> server_run s'
| server_signal sig s : server_run s -> server_run (hs_signal sig s).1
| server_stopped s : server_run s -> server_run (hs_worker_stopped s).1.

Lemma worker_died_ok tx idx info s :
  exists s' effs, hs_worker_died tx (WorkerDied idx info) s = Ret (s', effs) /\
    ((idx ∉ (hs_workers s).*1 /\ s' = s /\ effs = []) \/
     exists old rest new_idx, hs_workers s ≡ₚ (idx, old) :: rest /\ new_idx ∉ rest.*1 /\
       s' = hs_set_workers (rest ++ [(new_idx, tx)]) s /\
       effs = Eff_start_worker tx info :: to_threads (Cmd_Worker new_idx tx) s).
Proof.
  unfold hs_worker_died. pose proof (remove_worker_ok idx [] (hs_workers s)) as Hr. simpl in Hr.
  destruct (remove_worker _ _ _ _) as [ws|]; [|by eexists _, _; split; [|left]].
  destruct Hr as [old Hp]. destruct (new_index_ok (S (length ws)) ws (length ws)) as (n & -> & Hn).
  { pose proof (length_filter (fun i => length ws <= i)%nat ws.*1). rewrite length_fmap in *. lia. }
  eexists _, _. split; [done|]. right. by exists old, ws, n.
Qed.

Lemma server_run_nodup s : server_run s -> NoDup (hs_workers s).*1.
Proof.
  induction 1 as [tx handler s0 s info threads H0 Hs|tx [idx info] s s' effs _ IH Hd|sig s _ IH|s _ IH].
  - revert Hs. unfold start_threads. destruct (hs_sockets s0) as [|[addr lst] socks]; [done|].
    intros [= <- _ _]. simpl. rewrite H0. simpl. rewrite <-list_fmap_compose.
    assert (forall n k, (fst ∘ (fun idx => (idx, tx + idx)%nat)) <$> seq k n = seq k n) as Heq.
    { intros n. induction n as [|n IH]; intros k; [done|]. simpl. by rewrite IH. }
    rewrite Heq. apply NoDup_seq.
  - destruct (worker_died_ok tx idx info s) as (s1 & effs1 & Hd' & Hcase). rewrite Hd' in Hd. injection Hd as <- <-.
    destruct Hcase as [(_ & -> & _)|(old & rest & n & Hp & Hn & -> & _)]; [done|]. simpl.
    rewrite Hp in IH. simpl in IH. apply NoDup_cons in IH as [_ IH]. rewrite fmap_app. simpl.
    apply NoDup_app. split_and!; [done| |apply NoDup_singleton]. intros i Hi ->%list_elem_of_singleton. done.
  - by destruct sig.
  - simpl. rewrite fmap_take. rewrite <-(take_drop (length (hs_workers s) - 1) (hs_workers s).*1) in IH.
    by apply NoDup_app in IH as [? _].
Qed.

(** C35. Dead workers are replaced: in every state of a running server its workers have
    distinct indices, and the report that a worker has died is handled: it is ignored if no
    worker has that index, and else exactly that worker is replaced by a new one with an
    index that no other has, which is started and made known to every accept thread. *)
Theorem dead_worker_replaced (s : HttpServer) (tx idx : nat) (info : Info) :
  server_run s ->
  NoDup (hs_workers s).*1 /\
  exists s' effs, hs_worker_died tx (WorkerDied idx info) s = Ret (s', effs) /\
    ((idx ∉ (hs_workers s).*1 /\ s' = s /\ effs = []) \/
     exists old rest new_idx, hs_workers s ≡ₚ (idx, old) :: rest /\ idx ∉ rest.*1 /\ new_idx ∉ rest.*1 /\
       s' = hs_set_workers (rest ++ [(new_idx, tx)]) s /\
       effs = Eff_start_worker tx info :: to_threads (Cmd_Worker new_idx tx) s).
Proof.
  intros Hnd%server_run_nodup. split; [done|]. destruct (worker_died_ok tx idx info s) as (s' & effs & Hd & Hcase).
  exists s', effs. split; [done|]. destruct Hcase as [?|(old & rest & n & Hp & Hn & -> & ->)]; [by left|right].
  exists old, rest, n. split_and!; try done. rewrite Hp in Hnd. simpl in Hnd. by apply NoDup_cons in Hnd as [? _].
Qed.

(** With indices in order the last worker is found last. *)
Lemma remove_worker_last n tx todo k all :
  todo.*1 = seq k (length todo) -> (k + length todo = n)%nat ->
  remove_worker n k (todo ++ [(n, tx)]) all = Some (swap_remove n all).
Proof.
  revert k. induction todo as [|[i t] todo IH]; intros k Hseq Hk; simpl in *.
  - rewrite decide_True by done. do 2 f_equal. lia.
  - injection Hseq as -> Hseq. rewrite decide_False by lia. apply IH; [done|lia].
Qed.

(** A second report of the same death takes a live worker off: with the indices as
    they are after the start, when the last worker has died and two accept threads
    report it, the second report removes the worker that was started for the first one,
    which then no stop of the server reaches. *)
Theorem stale_report_drops_worker (s : HttpServer) (ws : list (nat * nat)) (n old tx1 tx2 : nat) (info : Info) :
  hs_workers s = ws ++ [(n, old)] -> ws.*1 = seq 0 n -> tx1 ∉ ws.*2 -> tx1 <> tx2 ->
  exists s1 effs1 s2 effs2,
    hs_worker_died tx1 (WorkerDied n info) s = Ret (s1, effs1) /\ hs_workers s1 = ws ++ [(n, tx1)] /\
    hs_worker_died tx2 (WorkerDied n info) s1 = Ret (s2, effs2) /\ hs_workers s2 = ws ++ [(n, tx2)] /\
    forall graceful dur, Eff_stop_worker tx1 dur ∉ (hs_stop graceful s2).2.
Proof.
  intros Hws Hidx Htx Hne. assert (length ws = n) as Hlen by (rewrite <-(length_fmap fst), Hidx; apply length_seq).
  assert (forall tx tx' s, hs_workers s = ws ++ [(n, tx)] ->
    hs_worker_died tx' (WorkerDied n info) s = Ret (hs_set_workers (ws ++ [(n, tx')]) s,
      Eff_start_worker tx' info :: to_threads (Cmd_Worker n tx') s)) as Hdied.
  { intros tx tx' s' Hs'. unfold hs_worker_died. rewrite Hs'.
    rewrite (remove_worker_last n tx ws 0) by (by rewrite ?Hlen).
    assert (swap_remove n (ws ++ [(n, tx)]) = ws) as ->.
    { unfold swap_remove. rewrite last_snoc, length_app, Nat.add_sub, insert_app_r_alt by lia. by rewrite take_app_length. }
    rewrite Hlen. cbn [new_index]. rewrite Hidx, bool_decide_false; [done|]. rewrite elem_of_seq. lia. }
  eexists _, _, _, _. split_and!; [by apply (Hdied old tx1)|done|by apply (Hdied tx1 tx2)|done|].
  intros graceful dur. unfold hs_stop. simpl. destruct (ws ++ [(n, tx2)]) as [|w0 ws0] eqn:Hw; [by destruct ws|].
  rewrite <-Hw. simpl. rewrite elem_of_app. intros [Hin|Hin]; apply list_elem_of_fmap in Hin as (x & Heq & Hx); [done|].
  injection Heq as -> _. apply elem_of_app in Hx as [Hx|Hx]; [|by apply list_elem_of_singleton in Hx as ->].
  apply Htx, list_elem_of_fmap. by exists x.
Qed.

(** The answers of the workers to a stop, one after the other. *)
Fixpoint answers_of_workers (n : nat) (s : HttpServer) : HttpServer * list Effect :=
  match n with
  | O => (s, [])
  | S n => let '(s, effs) := hs_worker_stopped s in let '(s, effs') := answers_of_workers n s in (s, effs ++ effs')
  end.

Lemma answers_of_workers_ok n s :
  length (hs_workers s) = S n ->
  exists s', answers_of_workers (S n) s = (s', exit_effect s) /\ hs_workers s' = [] /\ hs_exit s' = hs_exit s.
Proof.
  revert s. induction n as [|n IH]; intros s Hl; cbn [answers_of_workers].
  - unfold hs_worker_stopped. rewrite Hl. simpl. rewrite app_nil_r. by eexists.
  - set (s1 := hs_set_workers (take (length (hs_workers s) - 1) (hs_workers s)) s).
    assert (length (hs_workers s1) = S n) as Hl1 by (simpl; rewrite length_take; lia).
    assert (hs_worker_stopped s = (s1, [])) as ->.
    { unfold hs_worker_stopped. fold s1. by destruct (hs_workers s1). }
    destruct (IH s1 Hl1) as (s' & He & Hw & Hx). cbn [answers_of_workers] in He. rewrite He. exists s'. by split_and!.
Qed.

(** A stop of the server reaches everything and ends once: it tells every accept thread
    and every worker to stop, each once and the workers within the configured time if it is
    graceful; it is answered at once if there are no workers, and else with the answer of
    the last one, and at that moment, and only once, the system exits if it is to. *)
Theorem server_stops (s : HttpServer) (graceful : bool) :
  let dur := if graceful then Some (hs_shutdown_timeout s * SECOND) else None in
  let '(now, effs) := hs_stop graceful s in
  let '(s', effs') := answers_of_workers (length (hs_workers s)) s in
  effs ++ effs' = to_threads Cmd_Stop s ++ ((fun w => Eff_stop_worker w.2 dur) <$> hs_workers s) ++ exit_effect s /\
  (now = true <-> hs_workers s = []) /\ hs_workers s' = [].
Proof.
  cbv zeta. unfold hs_stop. destruct (hs_workers s) as [|w ws] eqn:Hw.
  - simpl. rewrite !app_nil_r. split_and!; [done|done|done].
  - assert (length (hs_workers s) = S (length ws)) as Hl by (by rewrite Hw).
    destruct (answers_of_workers_ok (length ws) s Hl) as (s' & He & Hw' & _).
    change (length (w :: ws)) with (S (length ws)). rewrite He. by rewrite <-!app_assoc.
Qed.

(** [bind] succeeds exactly if one of the addresses can be bound; it then listens on all
    that can, in order, behind what was bound before, and else answers the last error. *)
Definition bound (lsts : list (result (bytes * nat) IoError)) : list (bytes * nat) :=
  omap (fun r => match r with Ok l => Some l | Err _ => None end) lsts.
Lemma bind_loop_ok lsts err succ s :
  exists err', bind_loop lsts err succ s =
    (err', succ || negb (bool_decide (bound lsts = [])), hs_set_sockets (hs_sockets s ++ bound lsts) s).
Proof.
  revert err succ s. induction lsts as [|[[addr lst]|e] lsts IH]; intros err succ s; cbn [bind_loop].
  - exists err. rewrite orb_false_r, app_nil_r. by destruct s.
  - destruct (IH err true (hs_listen addr lst s)) as [err' ->]. exists err'. rewrite orb_true_r. simpl.
    by rewrite <-app_assoc.
  - destruct (IH (Some e) succ s) as [err' ->]. by exists err'.
Qed.
Lemma bind_ok lsts s :
  match hs_bind (Ok lsts) s with
  | Ok s' => bound lsts <> [] /\ s' = hs_set_sockets (hs_sockets s ++ bound lsts) s
  | Err _ => bound lsts = []
  end.
Proof.
  unfold hs_bind. destruct (bind_loop_ok lsts None false s) as [err' ->]. simpl. case_bool_decide; simpl; [|done].
  by destruct err'.
Qed.

(** ** Application-layer protocol negotiation *)
Lemma any_window_app a b : any_window b = true -> any_window (a ++ b) = true.
Proof. intros Hb. induction a as [|x a IH]; [done|]. simpl. rewrite IH. apply orb_true_r. Qed.

(** HTTP/2 is selected whenever a client offers it, wherever in its list. *)
Lemma alpn_selects_h2 (before after : list bytes) :
  alpn_select (concat ((fun p => lenZ p :: p) <$> (before ++ [b#"h2"] ++ after))) = Some b#"h2".
Proof.
  unfold alpn_select. rewrite !fmap_app, !concat_app, any_window_app; [done|]. done.
Qed.
(** It is selected for a client that does not offer it, too. *)
Lemma alpn_selects_unoffered : alpn_select (4 :: b#"x" ++ H2_PROTO) = Some b#"h2".
Proof. vm_compute. reflexivity. Qed.

(** Commands are taken one for every wake-up: of two that were sent before the thread
    woke up the second waits. *)
Lemma command_left_waiting alive info lst :
  exists t, th_events alive info [Ev_CMD lst] (mkTh (Some 0%nat) (mkAcc [] 0 [] [] [] 0) [Cmd_Pause; Cmd_Stop] true false) = Ret t /\
    th_rx t = [Cmd_Stop] /\ th_returned t = false.
Proof. by eexists. Qed.

(** ** Concrete servers *)
Definition an_info : Info := mkInfo b#"127.0.0.1:80" SH_Normal.
Definition three_workers : list (nat * nat) := [(0, 10); (1, 11); (2, 12)]%nat.
Definition a_thread : AcceptThread := start_accept_thread 3 three_workers.
Definition two_conns : list (result (socket * nat) IoError) :=
  [Ok ([], 1%nat); Err (mkIoError ConnectionReset "reset"); Ok ([], 2%nat); Err (mkIoError WouldBlock "")].
Definition only_12 (tx : nat) : bool := (tx =? 12)%nat.

(** Two of three workers are dead: both connections go to the third. *)
Lemma connections_handed_out_witness :
  exists a', th_event only_12 an_info (Ev_SRV two_conns) a_thread = Ret (set_th_acc a' a_thread) /\
    handed_all only_12 an_info [mkWConn [] (Some 1%nat) false; mkWConn [] (Some 2%nat) false] (th_acc a_thread) a' /\
    (ac_sent a').*1 = [12; 12]%nat.
Proof.
  destruct (connections_handed_out an_info a_thread only_12 two_conns 3 (thread_start an_info 3 three_workers) eq_refl)
    as (a' & He & Hh).
  exists a'. split; [exact He|]. split; [exact Hh|]. vm_compute in He. injection He as <-. reflexivity.
Defined.

Lemma workers_take_turns_witness :
  exists a', accept_loop (fun _ => true) an_info [Ok ([], 1%nat); Ok ([], 2%nat)] (mkAcc three_workers 2 [] [] [] 0) = Ret a' /\
    (ac_sent a').*1 = [12; 10]%nat.
Proof.
  destruct (workers_take_turns an_info (fun _ => true) [([], 1%nat); ([], 2%nat)] (mkAcc three_workers 2 [] [] [] 0))
    as (a' & He & _ & _ & _ & _).
  - unfold acc_ok. simpl. lia.
  - discriminate.
  - repeat constructor.
  - exists a'. split; [exact He|]. vm_compute in He. injection He as <-. reflexivity.
Defined.

Definition a_server : HttpServer := hs_listen b#"127.0.0.1:80" 3 (HttpServer_new 2).
Definition started_server : HttpServer := hs_set_accept 1 (hs_set_workers [(0, 10); (1, 11)]%nat (hs_set_sockets [] a_server)).

Lemma dead_worker_replaced_witness :
  exists effs, hs_worker_died 20 (WorkerDied 0 an_info) started_server =
    Ret (hs_set_workers [(1, 11); (2, 20)]%nat started_server, effs) /\ NoDup (hs_workers started_server).*1.
Proof.
  destruct (dead_worker_replaced started_server 20 0 an_info) as (Hnd & s' & effs & He & _).
  - apply (server_start 10 SH_Normal a_server _ an_info [start_accept_thread 3 [(0, 10); (1, 11)]%nat]); reflexivity.
  - exists effs. split; [|exact Hnd]. rewrite He. vm_compute in He |- *. injection He as <- <-. reflexivity.
Defined.

Lemma stale_report_drops_worker_witness :
  exists s1 effs1 s2 effs2,
    hs_worker_died 20 (WorkerDied 1 an_info) started_server = Ret (s1, effs1) /\ hs_workers s1 = [(0, 10); (1, 20)]%nat /\
    hs_worker_died 21 (WorkerDied 1 an_info) s1 = Ret (s2, effs2) /\ hs_workers s2 = [(0, 10); (1, 21)]%nat.
Proof.
  destruct (stale_report_drops_worker started_server [(0, 10)]%nat 1 11 20 21 an_info) as
    (s1 & effs1 & s2 & effs2 & H1 & H2 & H3 & H4 & _).
  - reflexivity.
  - reflexivity.
  - intros Hin. apply list_elem_of_singleton in Hin. discriminate.
  - discriminate.
  - exists s1, effs1, s2, effs2. split; [exact H1|]. split; [exact H2|]. split; [exact H3|exact H4].
Defined.
