(* ===== verification/Incoming.v ===== *)
(** * Serving a stream of connections (src/src/server/srv.rs, [start_incoming])

    The server actor itself takes the connections of a stream, on one thread: it keeps
    worker settings of its own and spawns a channel for each connection.  Sockets that
    were bound are served by workers as usual. *)
From S2P Require Import Prelude StrLib Errors Http Transfer H1Reader SharedBytes Worker WorkerFacts Server.
Open Scope Z_scope.

Section Incoming.
Context `{AL : Allocator} {P1 P2 : Type} `{PR1 : ConnProtocol P1} `{PR2 : ConnProtocol P2}.
Context (h1_new : socket -> bytes -> P1) (h2_new : socket -> bytes -> P2).
Notation HttpChannel := (HttpChannel (P1 := P1) (P2 := P2)).

(** [inc_h] is the field [h] of the server; the channels are futures on its thread. *)
Record Incoming : Type := mkIncoming {
  inc_server : HttpServer;
  inc_h : option WorkerSettings;
  inc_channels : gmap nat HttpChannel;
}.

(** [start_incoming] at the time [now], with the accept threads it starts. *)
Definition start_incoming (tx : nat) (now : list bytes) (s : HttpServer) : run (Incoming * list AcceptThread) :=
  let '(s, threads) := match start_threads tx SH_Normal s with
                       | Some (s, _, threads) => (s, threads)
                       | None => (s, [])
                       end in
  h ← WorkerSettings_new (hs_keep_alive s) now;
  Ret (mkIncoming s (Some h) ∅, threads).

(** What an item of the stream becomes, and [Handler<Conn<T>>]. *)
Definition incoming_item (io : socket) : WConn := mkWConn io None false.
Definition incoming_conn (addr : nat) (msg : WConn) (i : Incoming) : run Incoming :=
  h ← unwrap (inc_h i);
  let '(c, h) := HttpChannel_new h2_new (wc_io msg) (wc_http2 msg) h in
  Ret (mkIncoming (inc_server i) (Some h) (<[addr := c]> (inc_channels i))).
Definition incoming_poll (addr : nat) (i : Incoming) : run Incoming :=
  h ← unwrap (inc_h i);
  c ← unwrap (inc_channels i !! addr);
  '(r, c, h) ← channel_poll h1_new h2_new addr c h;
  Ret (mkIncoming (inc_server i) (Some h)
         (match r with NotReady => <[addr := c]> (inc_channels i) | _ => delete addr (inc_channels i) end)).

(** A server that was started at [now]; its other messages change [inc_server] only. *)
Inductive incoming_run (now : list bytes) : Incoming -> Prop :=
| inc_start tx s i threads : start_incoming tx now s = Ret (i, threads) -> incoming_run now i
| inc_conn addr io i i' :
    incoming_run now i -> inc_channels i !! addr = None ->
    incoming_conn addr (incoming_item io) i = Ret i' -> incoming_run now i'
| inc_poll addr i i' : incoming_run now i -> incoming_poll addr i = Ret i' -> incoming_run now i'
| inc_message s i : incoming_run now i -> incoming_run now (mkIncoming s (inc_h i) (inc_channels i)).

Definition incoming_inv (now : list bytes) (i : Incoming) : Prop :=
  exists h d, inc_h i = Some h /\ Date_new now = Ret d /\ ws_date h = d /\
    ws_channels h = Z.of_nat (size (inc_channels i)) /\ map_Forall (fun _ => chan_ok) (inc_channels i).

Lemma done_settings_date r h : ws_date (done_settings r h) = ws_date h.
Proof. unfold done_settings, remove_channel. destruct r; [|done|]; by destruct (0 <? _). Qed.

Lemma incoming_run_inv now i : incoming_run now i -> incoming_inv now i.
Proof.
  induction 1 as [tx s i threads Hs|addr io i i' _ (h & d & Hh & Hd & Hw & Hc & Hf) Hfresh Hi
    |addr i i' _ (h & d & Hh & Hd & Hw & Hc & Hf) Hi|s i _ IH]; [| | |exact IH].
  - revert Hs. unfold start_incoming. destruct (match start_threads _ _ _ with Some _ => _ | None => _ end) as [s' ths].
    unfold WorkerSettings_new. destruct (hs_keep_alive s'); (destruct (Date_new now) as [d| |] eqn:Hd; [|done..]);
      cbn [mbind run_bind]; intros [= <- _]; by eexists _, d.
  - revert Hi. unfold incoming_conn. rewrite Hh. cbn. intros [= <-]. eexists _, d. split_and!; [done|done|done| |].
    + cbn. rewrite map_size_insert_None by done. lia.
    + cbn. by apply map_Forall_insert_2.
  - revert Hi. unfold incoming_poll, channel_poll. rewrite Hh. cbn [unwrap mbind run_bind].
    destruct (inc_channels i !! addr) as [c|] eqn:Ha; [|done]. cbn [unwrap mbind run_bind].
    destruct (channel_poll_fuel _ _ _ _ _ _) as [[[r c'] h']| |] eqn:Hp; [|done..]. cbn [mbind run_bind].
    intros [= <-]. destruct (channel_poll_ok _ _ _ _ _ _ _ _ _ (Hf _ _ Ha) Hp) as [Hok ->].
    assert (size (delete addr (inc_channels i)) = (size (inc_channels i) - 1)%nat /\ (0 < size (inc_channels i))%nat) as [Hdl Hpos].
    { rewrite map_size_delete, Ha. split; [lia|]. apply Nat.neq_0_lt_0. intros H0%map_size_empty_inv. by rewrite H0 in Ha. }
    eexists _, d. split_and!; [done|done|by rewrite done_settings_date| |]; cbn [inc_channels].
    + destruct r; cbn [done_settings]; unfold remove_channel; try (rewrite (proj2 (Z.ltb_lt _ _)) by lia; simpl; lia).
      rewrite map_size_insert_Some by done. done.
    + destruct r; [by apply map_Forall_delete|by apply map_Forall_insert_2|by apply map_Forall_delete].
Qed.

(** A server of a stream counts its connections, but its clock stands still: whenever it
    writes the date into a head, it is the date of its start, since only workers update
    theirs.  If it has no workers, it says that it stopped, gracefully or not, as soon as
    it is told to, whatever connections are alive. *)
Theorem incoming_served (now : list bytes) (i : Incoming) :
  incoming_run now i ->
  exists h d, inc_h i = Some h /\ Date_new now = Ret d /\
    ws_channels h = Z.of_nat (size (inc_channels i)) /\
    (forall dst, settings_set_date h dst = dst ++ b#"date: " ++ d_bytes d ++ CRLF ++ CRLF) /\
    (hs_workers (inc_server i) = [] -> forall graceful, (hs_stop graceful (inc_server i)).1 = true).
Proof.
  intros (h & d & Hh & Hd & Hw & Hc & _)%incoming_run_inv. exists h, d. split_and!; [done|done|done| |].
  - intros dst. unfold settings_set_date. by rewrite Hw.
  - intros Hn g. unfold hs_stop. by rewrite Hn.
Qed.
End Incoming.

#[local] Existing Instance exact_alloc.
#[local] Existing Instance patient.
Lemma incoming_served_witness :
  exists (i : Incoming (P1 := nat) (P2 := nat)) h d, incoming_run patient_h1 patient_h2 a_date i /\ inc_h i = Some h /\
    Date_new a_date = Ret d /\ ws_channels h = 1 /\
    (forall dst, settings_set_date h dst = dst ++ b#"date: " ++ d_bytes d ++ CRLF ++ CRLF) /\
    (hs_stop true (inc_server i)).1 = true.
Proof.
  assert (exists (i : Incoming (P1 := nat) (P2 := nat)), incoming_run patient_h1 patient_h2 a_date i /\
    hs_workers (inc_server i) = [] /\ size (inc_channels i) = 1%nat) as (i & Hi & Hs & Hn).
  { eexists. split.
    - eapply inc_conn with (addr := 7%nat) (io := [Ok b#"GET / "]).
      + eapply (inc_start _ _ a_date 1 (HttpServer_new 1)). vm_compute. reflexivity.
      + done.
      + vm_compute. reflexivity.
    - by split. }
  destruct (incoming_served patient_h1 patient_h2 a_date i Hi) as (h & d & Hh & Hd & Hc & Hdate & Hstop).
  exists i, h, d. split_and!; [done|done|done|by rewrite Hc, Hn|done|by apply Hstop].
Defined.
