(* ===== verification/H2Writer.v ===== *)
(** * Writing responses over HTTP/2 (src/src/server/h2writer.rs)

    [H2Writer] hands the head of a response to the [http2] crate, which gives a stream for
    its body in return.  The body is encoded into the buffer and goes out as frames of at
    most the capacity that the crate grants on request. *)
From S2P Require Import Prelude StrLib Errors Http PayloadType Response Decoder Transfer SharedBytes ServerHelpers ContentEncoder Pipeline H1Writer.
Open Scope Z_scope.

Definition CHUNK_SIZE : Z := 16384.

(** ** The [http2] crate

    A stream by what [poll_capacity] and [send_data] answer, one after the other, with the
    requests for capacity and the frames it got.  Scripts that have run out grant nothing
    and refuse nothing. *)
Record SendStream : Type := mkSS {
  ss_caps : list (poll (option Z) nat);
  ss_refusals : list (option nat);
  ss_reserved : list Z;
  ss_frames : list (bytes * bool);
  ss_reset : option nat;
}.
Definition reserve_capacity (n : Z) (s : SendStream) : SendStream :=
  mkSS (ss_caps s) (ss_refusals s) (ss_reserved s ++ [n]) (ss_frames s) (ss_reset s).
Definition poll_capacity (s : SendStream) : poll (option Z) nat * SendStream :=
  match ss_caps s with
  | [] => (NotReady, s)
  | r :: caps => (r, mkSS caps (ss_refusals s) (ss_reserved s) (ss_frames s) (ss_reset s))
  end.
Definition send_data (data : bytes) (eof : bool) (s : SendStream) : result unit nat * SendStream :=
  match ss_refusals s with
  | Some e :: rs => (Err e, mkSS (ss_caps s) rs (ss_reserved s) (ss_frames s) (ss_reset s))
  | rs => (Ok tt, mkSS (ss_caps s) (tail rs) (ss_reserved s) (ss_frames s ++ [(data, eof)]) (ss_reset s))
  end.
Definition send_reset (reason : nat) (s : SendStream) : SendStream :=
  mkSS (ss_caps s) (ss_refusals s) (ss_reserved s) (ss_frames s) (Some reason).

Section Writing.
Context {H : Type} `{HM : HeaderMap H} {Z' : Type} `{CP : Compressor Z'} `{FF : F64FromStr} `{AL : Allocator} `{HC : HeaderConv}.
Context (date uninit : bytes).
Notation Resp := (InnerHttpResponse H).
Notation Msg := (HttpInnerMessage H).
Notation Encoder := (ContentEncoder Z').

(** The head that [send_response] gets, and whether the stream ends with it. *)
Record H2Head : Type := mkH2H { h2h_status : Z; h2h_headers : H; h2h_eof : bool }.

(** [respond] is the stream that [send_response] gives, or its refusal. *)
Record H2Writer : Type := mkH2W {
  h2_respond : option SendStream;
  h2_head : option H2Head;
  h2_stream : option SendStream;
  h2_encoder : Encoder;
  h2_started : bool;
  h2_disconnected : bool;
  h2_eof : bool;
  h2_reserved : bool;
  h2_written : Z;
  h2_buffer : bytes;
  h2_buffer_capacity : Z;
  h2_gone : option SendStream; (* the stream that was reset *)
}.
Definition set_h2_sent hd st w := mkH2W (h2_respond w) hd st (h2_encoder w) (h2_started w) (h2_disconnected w) (h2_eof w) (h2_reserved w) (h2_written w) (h2_buffer w) (h2_buffer_capacity w) (h2_gone w).
Definition set_h2_stream v w := set_h2_sent (h2_head w) v w.
Definition set_h2_out enc buf w := mkH2W (h2_respond w) (h2_head w) (h2_stream w) enc (h2_started w) (h2_disconnected w) (h2_eof w) (h2_reserved w) (h2_written w) buf (h2_buffer_capacity w) (h2_gone w).
Definition set_h2_buffer v w := set_h2_out (h2_encoder w) v w.
Definition set_h2_started w := mkH2W (h2_respond w) (h2_head w) (h2_stream w) (h2_encoder w) true (h2_disconnected w) (h2_eof w) (h2_reserved w) (h2_written w) (h2_buffer w) (h2_buffer_capacity w) (h2_gone w).
Definition set_h2_eof w := mkH2W (h2_respond w) (h2_head w) (h2_stream w) (h2_encoder w) (h2_started w) (h2_disconnected w) true (h2_reserved w) (h2_written w) (h2_buffer w) (h2_buffer_capacity w) (h2_gone w).
Definition set_h2_reserved v w := mkH2W (h2_respond w) (h2_head w) (h2_stream w) (h2_encoder w) (h2_started w) (h2_disconnected w) (h2_eof w) v (h2_written w) (h2_buffer w) (h2_buffer_capacity w) (h2_gone w).
Definition set_h2_written v w := mkH2W (h2_respond w) (h2_head w) (h2_stream w) (h2_encoder w) (h2_started w) (h2_disconnected w) (h2_eof w) (h2_reserved w) v (h2_buffer w) (h2_buffer_capacity w) (h2_gone w).
Definition set_h2_capacity v w := mkH2W (h2_respond w) (h2_head w) (h2_stream w) (h2_encoder w) (h2_started w) (h2_disconnected w) (h2_eof w) (h2_reserved w) (h2_written w) (h2_buffer w) v (h2_gone w).

Definition H2Writer_new (respond : option SendStream) (buf : bytes) : H2Writer :=
  mkH2W respond None None ContentEncoder_empty false false false false 0 buf 0 None.

Definition h2_reset (reason : nat) (w : H2Writer) : H2Writer :=
  match h2_stream w with
  | Some stream =>
      mkH2W (h2_respond w) (h2_head w) None (h2_encoder w) (h2_started w) (h2_disconnected w) (h2_eof w) (h2_reserved w)
        (h2_written w) (h2_buffer w) (h2_buffer_capacity w) (Some (send_reset reason stream))
  | None => w
  end.

(** The headers of the response, copied one by one. *)
Definition copy_headers (hs : list (bytes * bytes)) : H :=
  foldl (fun h kv => hm_insert kv.1 kv.2 h) hm_empty hs.

Definition h2_reserve (w : H2Writer) : H2Writer :=
  match h2_stream w with
  | Some stream =>
      set_h2_stream (Some (reserve_capacity (Z.min (lenZ (h2_buffer w)) CHUNK_SIZE) stream)) (set_h2_reserved true w)
  | None => w
  end.

(** The headers that HTTP/2 wants, the date and the content length. *)
Definition h2_headers (body : Body) (msg : Resp) : run Resp :=
  let msg := remove_header TRANSFER_ENCODING (remove_header CONNECTION msg) in
  msg ← (if negb (hm_contains DATE (r_headers msg))
         then v ← unwrap (hv_try_from date); Ret (insert_header DATE v msg) else Ret msg);
  match body with
  | Body_Binary bytes_ =>
      val ← convert_usize uninit (Binary_len bytes_) (mkBM [] 0);
      l ← usize_sub (lenZ (bm_data val)) 2;
      '(val, _) ← split_to l val;
      v ← unwrap (hv_try_from val);
      Ret (insert_header CONTENT_LENGTH v msg)
  | Body_Empty => Ret (insert_header CONTENT_LENGTH (b#"0") msg)
  | _ => Ret msg
  end.

Definition h2_start (req : Msg) (msg : Resp) (encoding : ContentEncoding) (w : H2Writer)
  : run (result WriterState IoError * Resp * H2Writer) :=
  (* prepare response *)
  let w := set_h2_started w in
  '(enc, msg) ← for_server req msg encoding;
  let w := set_h2_out enc (ce_drop (h2_encoder w) (h2_buffer w)) w in
  let w := match r_body msg with Body_Empty => set_h2_eof w | _ => w end in
  let '(body, msg) := resp_replace_body Body_Empty msg in
  msg ← h2_headers body msg;
  let head := mkH2H (r_status msg) (copy_headers (hm_iter (r_headers msg))) (h2_eof w) in
  match h2_respond w with
  | None => Ret (Err (mkIoError OtherKind "err"), msg, w)
  | Some stream =>
      let w := set_h2_sent (Some head) (Some stream) w in
      match body with
      | Body_Binary bytes_ =>
          let w := set_h2_written (Binary_len bytes_) (set_h2_eof w) in
          '(r, enc, buf) ← ce_write bytes_ (h2_encoder w) (h2_buffer w);
          let w := set_h2_out enc buf w in
          match r with
          | Err e => Ret (Err e, msg, w)
          | Ok _ => Ret (Ok WS_Pause, msg, h2_reserve w)
          end
      | _ =>
          let msg := (resp_replace_body body msg).2 in
          Ret (Ok WS_Done, msg, set_h2_capacity (r_write_capacity msg) w)
      end
  end.

Definition h2_write (payload : Binary) (w : H2Writer) : run (result WriterState IoError * H2Writer) :=
  let w := set_h2_written (Binary_len payload) w in
  let state w := if h2_buffer_capacity w <? lenZ (h2_buffer w) then WS_Pause else WS_Done in
  if negb (h2_disconnected w) then
    if h2_started w then
      '(r, enc, buf) ← ce_write payload (h2_encoder w) (h2_buffer w);
      let w := set_h2_out enc buf w in
      Ret (match r with Ok _ => Ok (state w) | Err e => Err e end, w)
    else
      (* might be response for EXCEPT *)
      let w := set_h2_buffer (h2_buffer w ++ Binary_as_ref payload) w in
      Ret (Ok (state w), w)
  else Ret (Ok (state w), w).

Definition h2_write_eof (w : H2Writer) : result WriterState IoError * H2Writer :=
  let '(r, enc, buf) := ce_write_eof (h2_encoder w) (h2_buffer w) in
  let w := set_h2_out enc buf w in
  match r with
  | Err e => (Err e, w)
  | Ok _ =>
      let w := set_h2_eof w in
      if negb (ce_is_eof enc)
      then (Err (mkIoError OtherKind "Last payload item, but eof is not reached"), w)
      else if MAX_WRITE_BUFFER_SIZE <? lenZ (h2_buffer w) then (Ok WS_Pause, w) else (Ok WS_Done, w)
  end.

(** The loop of [poll_completed]; an error of the crate is passed on. *)
Definition h2_error (e : nat) : IoError := mkIoError OtherKind "http2".
Fixpoint h2_send_loop (fuel : nat) (stream : SendStream) (w : H2Writer) : run (poll unit IoError * H2Writer) :=
  match fuel with
  | O => Timeout
  | S fuel =>
      match poll_capacity stream with
      | (NotReady, stream) => Ret (NotReady, set_h2_stream (Some stream) w)
      | (Ready None, stream) => Ret (Ready tt, set_h2_stream (Some stream) w)
      | (Ready (Some cap), stream) =>
          let len := lenZ (h2_buffer w) in
          '(data, b) ← split_to (Z.min cap len) (mkBM (h2_buffer w) 0);
          let w := set_h2_buffer (bm_data b) w in
          let empty := bool_decide (h2_buffer w = []) in
          let eof := empty && h2_eof w in
          let w := set_h2_written (u64_wrap (h2_written w + lenZ data)) w in
          match send_data data eof stream with
          | (Err e, stream) => Ret (PErr (h2_error e), set_h2_stream (Some stream) w)
          | (Ok _, stream) =>
              if negb empty then
                h2_send_loop fuel (reserve_capacity (Z.min (lenZ (h2_buffer w)) CHUNK_SIZE) stream) w
              else Ret (NotReady, set_h2_stream (Some stream) (set_h2_reserved false w))
          end
      | (PErr e, stream) => Ret (PErr (h2_error e), set_h2_stream (Some stream) w)
      end
  end.

Definition h2_poll_completed (w : H2Writer) : run (poll unit IoError * H2Writer) :=
  if negb (h2_started w) then Ret (NotReady, w)
  else
    match h2_stream w with
    | Some _ =>
        (* reserve capacity *)
        let w := if negb (h2_reserved w) && negb (bool_decide (h2_buffer w = [])) then h2_reserve w else w in
        match h2_stream w with
        | Some stream => h2_send_loop (S (length (ss_caps stream))) stream w
        | None => Ret (NotReady, w)
        end
    | None => Ret (NotReady, w)
    end.
(** ** Bodies over HTTP/2 *)
Definition grant (r : poll (option Z) nat) : Z := match r with Ready (Some c) => c | _ => 0 end.
Definition granted (caps : list (poll (option Z) nat)) : Z := foldr (fun r n => grant r + n) 0 caps.
(** Answers of a stream that stays open. *)
Definition granting (r : poll (option Z) nat) : Prop :=
  match r with NotReady => True | Ready (Some c) => 0 < c | _ => False end.

Lemma h2_send_loop_ok fuel stream w :
  (length (ss_caps stream) < fuel)%nat -> Forall granting (ss_caps stream) -> ss_refusals stream = [] ->
  h2_buffer w <> [] ->
  exists w' stream' new, h2_send_loop fuel stream w = Ret (NotReady, w') /\
    h2_stream w' = Some stream' /\ ss_frames stream' = ss_frames stream ++ new /\
    concat new.*1 ++ h2_buffer w' = h2_buffer w /\ ss_refusals stream' = [] /\ Forall granting (ss_caps stream') /\
    h2_started w' = h2_started w /\ h2_eof w' = h2_eof w /\ h2_encoder w' = h2_encoder w /\
    if bool_decide (h2_buffer w' = []) then exists k, new.*2 = replicate k false ++ [h2_eof w]
    else (length (ss_caps stream') <= pred (length (ss_caps stream)))%nat /\ h2_reserved w' = h2_reserved w /\
         new.*2 = replicate (length new) false /\
         (lenZ (h2_buffer w) <= granted (ss_caps stream) -> lenZ (h2_buffer w') <= granted (ss_caps stream')).
Proof.
  revert stream w. induction fuel as [|fuel IH]; intros stream w Hf Hg Hr Hb; [lia|]. cbn [h2_send_loop].
  unfold poll_capacity. destruct (ss_caps stream) as [|r caps] eqn:Hcaps.
  { exists (set_h2_stream (Some stream) w), stream, []. rewrite Hcaps, app_nil_r.
    cbn [set_h2_stream set_h2_sent h2_buffer h2_stream h2_started h2_eof h2_reserved h2_encoder].
    rewrite bool_decide_false by done. by split_and!. }
  apply Forall_cons in Hg as [Hg1 Hg]. destruct r as [[c|]| |e]; try done.
  2: { eexists _, _, []. split; [done|]. split; [done|].
    cbn [set_h2_stream set_h2_sent h2_buffer h2_stream h2_started h2_eof h2_reserved h2_encoder ss_frames ss_caps ss_refusals].
    rewrite app_nil_r, bool_decide_false by done. by split_and!. }
  simpl in Hg1. pose proof (lenZ_nonneg (h2_buffer w)) as Hlen.
  assert (0 < lenZ (h2_buffer w)) as Hpos by (destruct (h2_buffer w); [done|rewrite lenZ_cons; pose proof (lenZ_nonneg l); lia]).
  set (n := Z.min c (lenZ (h2_buffer w))). assert (0 < n <= lenZ (h2_buffer w)) as Hn by lia.
  unfold split_to. cbn [bm_data bm_spare]. rewrite (proj2 (Z.leb_le n (lenZ (h2_buffer w)))) by lia. cbn [mbind run_bind bm_data].
  unfold send_data. cbn [ss_refusals]. rewrite Hr. cbn [set_h2_buffer set_h2_out h2_buffer tail].
  case_bool_decide as Hd; cbn [negb andb].
  - eexists _, _, [(takeZ n (h2_buffer w), h2_eof w)]. split; [done|]. split; [done|].
    cbn [set_h2_stream set_h2_sent set_h2_reserved set_h2_written set_h2_buffer set_h2_out h2_buffer h2_stream h2_started h2_eof h2_reserved h2_encoder ss_frames ss_caps ss_refusals].
    rewrite bool_decide_true by done. split_and!; try done; [|by exists O].
    simpl. by rewrite app_nil_r, takeZ_dropZ.
  - set (stream1 := reserve_capacity _ _). set (w1 := set_h2_written _ _).
    destruct (IH stream1 w1) as (w' & stream' & new & -> & Hs & Hfr & Hc & Href & Hgr & Hst & Heof & Henc & Hend);
      [simpl in *; lia|done|done|done|].
    exists w', stream', ((takeZ n (h2_buffer w), false) :: new). split; [done|]. split_and!; try done.
    + rewrite Hfr. cbn [stream1 reserve_capacity ss_frames]. by rewrite <-app_assoc.
    + change (concat ((takeZ n (h2_buffer w), false) :: new).*1) with (takeZ n (h2_buffer w) ++ concat new.*1).
      rewrite <-app_assoc, Hc. cbn [w1 set_h2_written set_h2_buffer set_h2_out h2_buffer]. apply takeZ_dropZ.
    + case_bool_decide.
      * destruct Hend as [k Hk]. exists (S k). cbn [fmap list_fmap replicate app snd]. f_equal. exact Hk.
      * destruct Hend as (Hl & Hres & Hfl & Hgr'). split_and!.
        -- cbn [stream1 reserve_capacity ss_caps] in Hl. simpl. lia.
        -- done.
        -- cbn [fmap list_fmap replicate length snd]. f_equal. exact Hfl.
        -- intros Htot. apply Hgr'. cbn [w1 set_h2_written set_h2_buffer set_h2_out h2_buffer stream1 reserve_capacity ss_caps].
           rewrite lenZ_dropZ by lia. cbn [granted foldr grant] in Htot. fold (granted caps) in Htot.
           destruct (Z.leb_spec c (lenZ (h2_buffer w))) as [Hc'|Hc']; [lia|].
           exfalso. apply Hd. apply lenZ_nil_inv. rewrite lenZ_dropZ by lia. lia.
Qed.

(** Polls as long as there is no answer. *)
Fixpoint h2_polls (n : nat) (w : H2Writer) : run H2Writer :=
  match n with
  | O => Ret w
  | S n => '(r, w) ← h2_poll_completed w; match r with NotReady => h2_polls n w | _ => Ret w end
  end.

Lemma h2_polls_deliver m w stream :
  (length (ss_caps stream) <= m)%nat -> h2_started w = true -> h2_stream w = Some stream ->
  Forall granting (ss_caps stream) -> ss_refusals stream = [] -> h2_buffer w <> [] ->
  lenZ (h2_buffer w) <= granted (ss_caps stream) ->
  exists n w' stream' new k, (n <= S m)%nat /\ h2_polls n w = Ret w' /\ h2_buffer w' = [] /\
    h2_stream w' = Some stream' /\ ss_frames stream' = ss_frames stream ++ new /\
    concat new.*1 = h2_buffer w /\ new.*2 = replicate k false ++ [h2_eof w].
Proof.
  revert w stream. induction m as [|m IH]; intros w stream Hm Hst Hs Hg Hr Hb Htot.
  { destruct (ss_caps stream); [|simpl in Hm; lia]. simpl in Htot. destruct (h2_buffer w); [done|].
    rewrite lenZ_cons in Htot. pose proof (lenZ_nonneg l). lia. }
  set (w0 := if negb (h2_reserved w) && negb (bool_decide (h2_buffer w = [])) then h2_reserve w else w).
  assert (exists stream0, h2_stream w0 = Some stream0 /\ ss_caps stream0 = ss_caps stream /\ ss_refusals stream0 = [] /\
    ss_frames stream0 = ss_frames stream /\ h2_buffer w0 = h2_buffer w /\ h2_started w0 = true /\ h2_eof w0 = h2_eof w)
    as (stream0 & Hs0 & Hc0 & Hr0 & Hf0 & Hb0 & Hst0 & He0).
  { unfold w0, h2_reserve. rewrite Hs. destruct (_ && _); eexists; by split_and!. }
  destruct (h2_send_loop_ok (S (length (ss_caps stream0))) stream0 w0) as
    (w1 & stream1 & new & Hl & Hs1 & Hf1 & Hcat & Hr1 & Hg1 & Hst1 & He1 & _ & Hend); [lia|by rewrite Hc0|done|by rewrite Hb0|].
  assert (h2_poll_completed w = Ret (NotReady, w1)) as Hpoll.
  { unfold h2_poll_completed. rewrite Hst, Hs. fold w0. cbn [negb]. by rewrite Hs0. }
  case_bool_decide as Hb1.
  - destruct Hend as [k Hk]. exists 1%nat, w1, stream1, new, k. cbn [h2_polls]. rewrite Hpoll. cbn [mbind run_bind].
    split_and!; [lia|done|done|done|by rewrite Hf1, Hf0| |by rewrite Hk, He0].
    by rewrite Hb1, app_nil_r, Hb0 in Hcat.
  - destruct Hend as (Hless & _ & Hfl & Htot'). rewrite Hc0, Hb0 in *. specialize (Htot' Htot).
    destruct (IH w1 stream1) as (n & w' & stream' & new' & k & Hn & Hp & Hb' & Hs' & Hf' & Hcat' & Hk);
      [lia|congruence|done|done|done|done|done|].
    exists (S n), w', stream', (new ++ new'), (length new + k)%nat. cbn [h2_polls]. rewrite Hpoll. cbn [mbind run_bind].
    split_and!; [lia|done|done|done| | |].
    + by rewrite Hf', Hf1, Hf0, <-app_assoc.
    + by rewrite fmap_app, concat_app, Hcat'.
    + by rewrite fmap_app, Hk, Hfl, He1, He0, replicate_add, <-app_assoc.
Qed.

Lemma h2_for_server_binary req resp b :
  r_body resp = Body_Binary b -> msg_method req <> HEAD ->
  for_server req resp Enc_Identity = Ret (CE_Identity TE_Eof, resp).
Proof.
  intros Hb Hm. unfold for_server, resp_replace_body. rewrite Hb. cbn [has_body negotiate is_compression].
  rewrite (bool_decide_false (Enc_Identity = Enc_Auto)) by done. cbn [negb andb].
  rewrite (bool_decide_false (msg_method req = HEAD)) by done.
  rewrite (bool_decide_true (Enc_Identity = Enc_Identity)) by done. cbn [orb negb mbind run_bind ce_new].
  do 2 f_equal. rewrite <-Hb. by destruct resp.
Qed.

Hypothesis Hdate : forallb value_byte date = true.
Hypothesis Huninit : lenZ uninit = 41.

Lemma h2_headers_binary b msg :
  Binary_len b < 2 ^ 64 ->
  exists msg', h2_headers (Body_Binary b) msg = Ret msg' /\ r_status msg' = r_status msg /\
    hm_get CONTENT_LENGTH (r_headers msg') = Some (format_decimal (Binary_len b)) /\
    hm_get CONNECTION (r_headers msg') = None /\ hm_get TRANSFER_ENCODING (r_headers msg') = None /\
    is_Some (hm_get DATE (r_headers msg')).
Proof.
  intros Hlen. assert (0 <= Binary_len b) as H0 by (rewrite Binary_len_as_ref; apply lenZ_nonneg).
  unfold h2_headers. set (msg1 := remove_header _ _).
  assert (exists msg2, (if negb (hm_contains DATE (r_headers msg1)) then v ← unwrap (hv_try_from date); Ret (insert_header DATE v msg1)
    else Ret msg1) = Ret msg2 /\ r_status msg2 = r_status msg /\ is_Some (hm_get DATE (r_headers msg2)) /\
    hm_get CONNECTION (r_headers msg2) = None /\ hm_get TRANSFER_ENCODING (r_headers msg2) = None)
    as (msg2 & -> & Hs2 & Hd2 & Hc2 & Ht2).
  { rewrite hm_contains_get. case_bool_decide as Hd; cbn [negb].
    - exists msg1. subst msg1. cbn in *. rewrite !hm_get_remove in *. by split_and!.
    - rewrite hv_try_from_ok by done. eexists. split; [done|]. subst msg1. cbn.
      rewrite !hm_get_insert, !hm_get_remove. split_and!; [done|by eexists|done|done]. }
  cbn [mbind run_bind]. rewrite convert_usize_ok by done.
  destruct (extend_from_slice_ok (format_decimal (Binary_len b) ++ [13; 10]) (mkBM [] 0)) as (buf & -> & _ & Hbuf).
  cbn [mbind run_bind bm_data app] in *. rewrite Hbuf, lenZ_app. change (lenZ [13; 10]) with 2.
  pose proof (lenZ_nonneg (format_decimal (Binary_len b))) as Hd0. rewrite usize_sub_ok by lia. cbn [mbind run_bind].
  unfold split_to. rewrite Hbuf, lenZ_app. change (lenZ [13; 10]) with 2. rewrite (proj2 (Z.leb_le _ _)) by lia.
  cbn [mbind run_bind]. replace (lenZ (format_decimal (Binary_len b)) + 2 - 2) with (lenZ (format_decimal (Binary_len b))) by lia.
  rewrite takeZ_app_l, takeZ_all by lia. rewrite hv_try_from_ok by (by apply decimal_header_value).
  eexists. split; [done|]. cbn. rewrite !hm_get_insert. by split_and!.
Qed.

(** C25. A response reaches an HTTP/2 client whole: the head announces the length of the
    body and neither connection nor transfer encoding, and with any capacities that the
    peer grants, in whatever portions, the frames carry exactly the body, each non-final
    one unmarked and the last one marked as the end of the stream. *)
Theorem h2_response_delivered (req : Msg) (resp : Resp) (b : Binary) (stream : SendStream) :
  r_body resp = Body_Binary b -> msg_method req <> HEAD -> 0 < Binary_len b < 2 ^ 64 ->
  ss_refusals stream = [] -> ss_frames stream = [] ->
  Forall granting (ss_caps stream) -> Binary_len b <= granted (ss_caps stream) ->
  exists resp' w n w' stream' k,
    h2_start req resp Enc_Identity (H2Writer_new (Some stream) []) = Ret (Ok WS_Pause, resp', w) /\
    h2_head w = Some (mkH2H (r_status resp) (copy_headers (hm_iter (r_headers resp'))) false) /\
    hm_get CONTENT_LENGTH (r_headers resp') = Some (format_decimal (Binary_len b)) /\
    hm_get CONNECTION (r_headers resp') = None /\ hm_get TRANSFER_ENCODING (r_headers resp') = None /\
    h2_polls n w = Ret w' /\ h2_stream w' = Some stream' /\
    concat (ss_frames stream').*1 = Binary_as_ref b /\ (ss_frames stream').*2 = replicate k false ++ [true].
Proof.
  intros Hb Hm Hlen Hr Hf Hg Htot. unfold h2_start. rewrite (h2_for_server_binary req resp b) by done.
  cbn [mbind run_bind]. rewrite Hb. unfold resp_replace_body.
  destruct (h2_headers_binary b (set_r_body Body_Empty resp)) as (msg' & Hh & Hst & Hcl & Hco & Hte & _); [lia|].
  rewrite Hb, Hh.
  cbn [mbind run_bind set_h2_started set_h2_out set_h2_sent set_h2_written set_h2_eof h2_respond H2Writer_new h2_encoder h2_buffer
       ContentEncoder_empty ce_drop ce_write te_encode te_kind te_buffer app h2_reserve h2_stream].
  set (w := set_h2_stream _ _).
  destruct (h2_polls_deliver (length (ss_caps stream)) w
    (reserve_capacity (Z.min (lenZ (Binary_as_ref b)) CHUNK_SIZE) stream)) as
    (n & w' & stream' & new & k & _ & Hp & _ & Hs' & Hf' & Hcat & Hk); [done|done|done|done|done| |by cbn; rewrite <-Binary_len_as_ref|].
  { change (Binary_as_ref b <> []). intros Hnil. pose proof (Binary_len_as_ref b) as Hl0. rewrite Hnil, lenZ_nil in Hl0. lia. }
  exists msg', w, n, w', stream', k. cbn [reserve_capacity ss_frames] in Hf'. rewrite Hf in Hf'. simpl in Hf'. rewrite Hf'.
  split_and!; try done. simpl. by rewrite Hst.
Qed.

(** The end of a body may never be told: a writer that has nothing left to send asks for
    no capacity, so when a streamed body ends after its last bytes have gone out, or a body
    at hand is empty, no frame ends the stream however often the writer is polled. *)
Theorem h2_end_never_told (stream : SendStream) (w : H2Writer) (n : nat) :
  h2_started w = true -> h2_stream w = Some stream -> h2_buffer w = [] -> h2_encoder w = CE_Identity TE_Eof ->
  ss_caps stream = [] ->
  exists w', h2_write_eof w = (Ok WS_Done, w') /\ h2_eof w' = true /\ h2_polls n w' = Ret w' /\ h2_stream w' = Some stream.
Proof.
  intros Hst Hs Hb He Hc. eexists. unfold h2_write_eof. rewrite Hb, He. cbn [ce_write_eof te_encode_eof te_kind te_buffer].
  split; [done|]. split; [done|]. split; [|done].
  assert (forall w, h2_started w = true -> h2_stream w = Some stream -> h2_buffer w = [] -> h2_poll_completed w = Ret (NotReady, w)) as Hpoll.
  { clear -Hc. intros w Hst Hs Hb. unfold h2_poll_completed. rewrite Hst, Hs, Hb. cbn [negb].
    rewrite (bool_decide_true (@nil Z = [])), andb_false_r by done. rewrite Hs. cbn [length h2_send_loop]. unfold poll_capacity. rewrite Hc.
    simpl. do 2 f_equal. destruct w. simpl in *. by rewrite Hs. }
  induction n as [|n IH]; [done|]. cbn [h2_polls]. by rewrite Hpoll.
Qed.
End Writing.
Arguments H2Writer : clear implicits.
Arguments H2Head : clear implicits.

(** ** Concrete writers *)

(** A peer that grants five bytes, makes us wait, and grants the rest. *)
Definition slow_peer : SendStream := mkSS [Ready (Some 5); NotReady; Ready (Some 16384)] [] [] [] None.

Lemma h2_response_delivered_witness :
  exists resp' w n w' stream' k,
    h2_start (CP := stored) (FF := integer_f64) (AL := exact_alloc) (HC := ascii_conv) a_date a_stack get_request
      hello_response Enc_Identity (H2Writer_new (Some slow_peer) []) = Ret (Ok WS_Pause, resp', w) /\
    h2_polls (H := hlist) (Z' := unit) n w = Ret w' /\ h2_stream w' = Some stream' /\
    concat (ss_frames stream').*1 = b#"Hello, world!" /\ (ss_frames stream').*2 = replicate k false ++ [true].
Proof.
  destruct (h2_response_delivered (H := hlist) (CP := stored) (FF := integer_f64) (AL := exact_alloc) (HC := ascii_conv)
    a_date a_stack eq_refl eq_refl get_request hello_response hello_body slow_peer) as
    (resp' & w & n & w' & stream' & k & Hs & _ & _ & _ & _ & Hp & Hst & Hc & Hf).
  - reflexivity.
  - discriminate.
  - vm_compute. split; [reflexivity|reflexivity].
  - reflexivity.
  - reflexivity.
  - repeat constructor.
  - vm_compute. discriminate.
  - exists resp', w, n, w', stream', k. split; [exact Hs|]. split; [exact Hp|]. split; [exact Hst|]. split; [exact Hc|exact Hf].
Defined.

Definition flushed_writer : H2Writer hlist unit :=
  mkH2W None None (Some (mkSS [] [] [13] [(b#"Hello, world!", false)] None)) (CE_Identity TE_Eof) true false false false 26 [] 65536 None.
Lemma h2_end_never_told_witness :
  exists w', h2_write_eof (CP := stored) flushed_writer = (Ok WS_Done, w') /\ h2_polls 100 w' = Ret w' /\
    h2_stream w' = Some (mkSS [] [] [13] [(b#"Hello, world!", false)] None).
Proof.
  destruct (h2_end_never_told (CP := stored) (mkSS [] [] [13] [(b#"Hello, world!", false)] None) flushed_writer 100
    eq_refl eq_refl eq_refl eq_refl eq_refl) as (w' & He & _ & Hp & Hs).
  exists w'. split; [exact He|]. split; [exact Hp|exact Hs].
Defined.

(** A body at hand that is empty ends the same way: no frame, and no end with the head. *)
Lemma h2_empty_body_never_ends :
  run_post False (fun r =>
    h2_head r.2 = Some (mkH2H 200 [(DATE, a_date); (CONTENT_LENGTH, b#"0")] false) /\ h2_buffer r.2 = [] /\
    run_post False (fun w => option_map ss_frames (h2_stream w) = Some []) (h2_polls (H := hlist) (Z' := unit) 100 r.2))
  (h2_start (CP := stored) (FF := integer_f64) (AL := exact_alloc) (HC := ascii_conv) a_date a_stack get_request
    (InnerHttpResponse_new 200 (Body_Binary (Bin_Slice []))) Enc_Identity (H2Writer_new (Some (mkSS [] [] [] [] None)) [])).
Proof. vm_compute. split; [reflexivity|split; reflexivity]. Qed.

(** Of headers with the same name only the last is sent. *)
Lemma h2_repeated_header_lost :
  copy_headers (H := hlist) [(b#"set-cookie", b#"a=1"); (b#"set-cookie", b#"b=2")] = [(b#"set-cookie", b#"b=2")].
Proof. vm_compute. reflexivity. Qed.

(** What was written is counted twice when it is sent, and forgotten at the next write. *)
Lemma h2_written_miscounted :
  run_post False (fun r => run_post False (fun r' => h2_written r'.2 = 2) (h2_write (CP := stored) (Bin_Slice (b#"ab")) r.2) /\ h2_written r.2 = 26)
    (h2_poll_completed (set_h2_stream (Some (mkSS [Ready (Some 100)] [] [] [] None))
      (set_h2_written 13 (set_h2_buffer (b#"Hello, world!") flushed_writer)))).
Proof. vm_compute. split; reflexivity. Qed.
