(* ===== verification/Http2.v ===== *)
(** * HTTP/2 connections (src/src/server/h2.rs)

    [Http2] takes requests from the [http2] crate, starts a task for each and polls all of
    them over the writers of their streams, feeding the bodies into payload channels as
    they arrive.  The crate is known by what it answers, one poll after the other. *)
From S2P Require Import Prelude StrLib Errors Http Response Decoder Payload H1Reader PayloadType ContentEncoder Pipeline H2Writer.
Open Scope Z_scope.

(** ** The crate's streams *)

(** [RecvStream]: the answers of [poll], and of [release_capacity] with the amounts. *)
Record RecvStream : Type := mkRS {
  rs_polls : list (poll (option bytes) nat);
  rs_refusals : list (option nat);
  rs_released : list Z;
}.
Definition release_capacity (n : Z) (s : RecvStream) : result unit nat * RecvStream :=
  let released := rs_released s ++ [n] in
  match rs_refusals s with
  | Some e :: rs => (Err e, mkRS (rs_polls s) rs released)
  | rs => (Ok tt, mkRS (rs_polls s) (tail rs) released)
  end.
Definition recv_poll (s : RecvStream) : poll (option bytes) nat * RecvStream :=
  match rs_polls s with
  | [] => (NotReady, s)
  | r :: polls => (r, mkRS polls (rs_refusals s) (rs_released s))
  end.

(** ** [IoWrapper]: bytes that were read already come first.  A read of at most [n]
    bytes gives the bytes it got. *)
Record IoWrapper : Type := mkIoW { iw_unread : option bytes; iw_inner : socket }.
Definition inner_read (n : Z) (io : socket) : result bytes IoError * socket :=
  match io with
  | [] => (Err (mkIoError WouldBlock ""), [])
  | Ok data :: io => (Ok (takeZ n data), if n <? lenZ data then Ok (dropZ n data) :: io else io)
  | Err e :: io => (Err e, io)
  end.
Definition iw_read (n : Z) (w : IoWrapper) : result bytes IoError * IoWrapper :=
  match iw_unread w with
  | Some bytes_ =>
      let size := Z.min n (lenZ bytes_) in
      (Ok (takeZ size bytes_),
       mkIoW (if size <? lenZ bytes_ then Some (dropZ size bytes_) else None) (iw_inner w))
  | None => let '(r, io) := inner_read n (iw_inner w) in (r, mkIoW None io)
  end.

Section Connections.
Context {H : Type} `{HM : HeaderMap H} {W : Type} `{PW : PayloadWriter W} {Z' : Type} `{CP : Compressor Z'}.
Context (new_tx : H -> W).
Notation Msg := (HttpInnerMessage H).
Notation Resp := (InnerHttpResponse H).
Notation Writer := (H2Writer H Z').

(** The trait [HttpHandlerTask]; a task shares the payload of its request. *)
Class H2Task (K : Type) := {
  ht_poll_io : Writer -> W -> K -> run (poll bool Error * Writer * W * K);
  ht_poll : W -> K -> run (poll unit Error * W * K);
  ht_disconnected : K -> K;
  ht_error : Resp -> K;
}.
Context {K : Type} `{TK : H2Task K}.

(** ** [Entry] with its [EntryFlags] *)
Record H2Entry : Type := mkEn {
  en_task : K;
  en_payload : W;
  en_recv : RecvStream;
  en_stream : Writer;
  en_eof : bool;
  en_reof : bool;
  en_error : bool;
  en_finished : bool;
  en_write_done : bool;
}.
Definition set_en_payload v e := mkEn (en_task e) v (en_recv e) (en_stream e) (en_eof e) (en_reof e) (en_error e) (en_finished e) (en_write_done e).
Definition set_en_recv v e := mkEn (en_task e) (en_payload e) v (en_stream e) (en_eof e) (en_reof e) (en_error e) (en_finished e) (en_write_done e).
Definition set_en_stream v e := mkEn (en_task e) (en_payload e) (en_recv e) v (en_eof e) (en_reof e) (en_error e) (en_finished e) (en_write_done e).
Definition set_en_task v e := mkEn v (en_payload e) (en_recv e) (en_stream e) (en_eof e) (en_reof e) (en_error e) (en_finished e) (en_write_done e).
Definition set_en_flags eof error finished write_done e :=
  mkEn (en_task e) (en_payload e) (en_recv e) (en_stream e) (en_eof e || eof) (en_reof e) (en_error e || error)
    (en_finished e || finished) (en_write_done e || write_done).
Definition set_en_reof e := mkEn (en_task e) (en_payload e) (en_recv e) (en_stream e) (en_eof e) true (en_error e) (en_finished e) (en_write_done e).

(** A request of the crate: its parts, its body and the way to respond. *)
Record Parts : Type := mkParts { pt_uri : bytes; pt_method : bytes; pt_version : Version; pt_headers : H }.
Definition h2_message (parts : Parts) (addr : option nat) : Msg :=
  {| msg_version := pt_version parts; msg_method := pt_method parts; msg_uri := pt_uri parts;
     msg_headers := pt_headers parts; msg_extensions := []; msg_params := []; msg_cookies := None;
     msg_query := []; msg_query_loaded := false; msg_addr := addr; msg_payload := Some 0%nat;
     msg_info := None; msg_resource := Notset |}.

(** The first handler that takes the request. *)
Fixpoint h2_dispatch (hs : list (Msg -> run (result K Msg))) (req : Msg) : run K :=
  match hs with
  | [] => Ret (ht_error (InnerHttpResponse_new 404 Body_Empty))
  | h :: hs => r ← h req; match r with Ok t => Ret t | Err req => h2_dispatch hs req end
  end.
Definition H2Entry_new (handlers : list (Msg -> run (result K Msg))) (addr : option nat)
  (parts : Parts) (recv : RecvStream) (resp : option SendStream) : run H2Entry :=
  task ← h2_dispatch handlers (h2_message parts addr);
  Ret (mkEn task (new_tx (pt_headers parts)) recv (H2Writer_new resp []) false false false false false).

Definition poll_payload (e : H2Entry) : H2Entry :=
  if negb (en_reof e) then
    let '(status, p) := pw_need_read (en_payload e) in
    let '(r, recv) := release_capacity (match status with PS_Read => 32768 | _ => 0 end) (en_recv e) in
    let p := match r with Err err => pw_set_error (PE_Http2 err) p | Ok _ => p end in
    let '(r, recv) := recv_poll recv in
    let e := set_en_recv recv e in
    match r with
    | Ready (Some chunk) => set_en_payload (pw_feed_data chunk p) e
    | Ready None => set_en_reof (set_en_payload p e)
    | NotReady => set_en_payload p e
    | PErr err => set_en_payload (pw_set_error (PE_Http2 err) p) e
    end
  else e.

(** The loop around [poll_io]; the flag tells that something has moved. *)
Definition is_read (s : PayloadStatus) : bool := match s with PS_Read => true | _ => false end.
Fixpoint task_loop (fuel : nat) (retry : bool) (e : H2Entry) : run (bool * H2Entry) :=
  match fuel with
  | O => Timeout
  | S fuel =>
      '(r, w, p, k) ← ht_poll_io (en_stream e) (en_payload e) (en_task e);
      let e := set_en_task k (set_en_payload p (set_en_stream w e)) in
      match r with
      | Ready true => Ret (true, set_en_flags true false true false e)
      | Ready false => Ret (true, set_en_flags true false false false e)
      | NotReady =>
          let '(status, p) := pw_need_read (en_payload e) in
          let e := set_en_payload p e in
          if is_read status && negb retry then task_loop fuel retry e else Ret (false, e)
      | PErr _ =>
          let e := set_en_flags true true false true e in
          Ret (false, set_en_stream (h2_reset 2 (en_stream e)) e)
      end
  end.

Definition poll_task (fuel : nat) (e : H2Entry) : run (bool * H2Entry) :=
  if negb (en_eof e) then
    let '(status, p) := pw_need_read (en_payload e) in
    task_loop fuel (is_read status) (set_en_payload p e)
  else if negb (en_finished e) then
    '(r, p, k) ← ht_poll (en_payload e) (en_task e);
    let e := set_en_task k (set_en_payload p e) in
    match r with
    | NotReady => Ret (false, e)
    | Ready _ => Ret (true, set_en_flags false false true false e)
    | PErr _ => Ret (false, set_en_flags false true true true e)
    end
  else Ret (false, e).

Definition poll_writes (e : H2Entry) : run (bool * H2Entry) :=
  if negb (en_write_done e) then
    '(r, w) ← h2_poll_completed (en_stream e);
    let e := set_en_stream w e in
    match r with
    | NotReady => Ret (false, e)
    | Ready _ => Ret (true, set_en_flags false false false true e)
    | PErr _ => Ret (false, set_en_flags false true false false e)
    end
  else Ret (false, e).

Definition poll_entry (fuel : nat) (e : H2Entry) : run (bool * H2Entry) :=
  '(m1, e) ← poll_task fuel (poll_payload e);
  '(m2, e) ← poll_writes e;
  Ret (m1 || m2, e).

(** [for item in &mut self.tasks]. *)
Fixpoint poll_entries (fuel : nat) (es : list H2Entry) : run (bool * list H2Entry) :=
  match es with
  | [] => Ret (false, [])
  | e :: es =>
      '(m, e) ← poll_entry fuel e;
      '(ms, es) ← poll_entries fuel es;
      Ret (m || ms, e :: es)
  end.

(** [cleanup finished tasks]. *)
Definition entry_done (e : H2Entry) : bool := (en_eof e && en_write_done e) || en_error e.
Fixpoint h2_cleanup (es : list H2Entry) : list H2Entry :=
  match es with
  | [] => []
  | e :: es' => if entry_done e then h2_cleanup es' else es
  end.

(** ** [Http2] *)
Inductive ConnState : Type :=
| CS_Handshake (polls : list (poll unit nat))
| CS_Connection
| CS_Empty.
(** The connection of the crate: what [poll] and [poll_close] answer. *)
Record Http2 : Type := mkHttp2 {
  hh_disconnected : bool;
  hh_state : ConnState;
  hh_polls : list (poll (option (Parts * RecvStream * option SendStream)) nat);
  hh_closes : list (poll unit nat);
  hh_tasks : list H2Entry;
  hh_timer : option nat; (* polls until it fires *)
}.
Definition Http2_new (handshake : list (poll unit nat))
  (polls : list (poll (option (Parts * RecvStream * option SendStream)) nat)) (closes : list (poll unit nat)) : Http2 :=
  mkHttp2 false (CS_Handshake handshake) polls closes [] None.
Definition set_hh_disconnected c := mkHttp2 true (hh_state c) (hh_polls c) (hh_closes c) (hh_tasks c) (hh_timer c).
Definition set_hh_state v c := mkHttp2 (hh_disconnected c) v (hh_polls c) (hh_closes c) (hh_tasks c) (hh_timer c).
Definition set_hh_polls v c := mkHttp2 (hh_disconnected c) (hh_state c) v (hh_closes c) (hh_tasks c) (hh_timer c).
Definition set_hh_closes v c := mkHttp2 (hh_disconnected c) (hh_state c) (hh_polls c) v (hh_tasks c) (hh_timer c).
Definition set_hh_tasks v c := mkHttp2 (hh_disconnected c) (hh_state c) (hh_polls c) (hh_closes c) v (hh_timer c).
Definition set_hh_timer v c := mkHttp2 (hh_disconnected c) (hh_state c) (hh_polls c) (hh_closes c) (hh_tasks c) v.

Definition hh_shutdown (c : Http2) : Http2 := set_hh_timer None (set_hh_tasks [] (set_hh_state CS_Empty c)).

(** The worker's settings; a new timer fires after [timer_delay] polls, the one that
    registers it included. *)
Context (handlers : list (Msg -> run (result K Msg))) (addr : option nat) (keep_alive : Z) (ka_enabled : bool) (timer_delay : nat).

Definition h2_conn_close (c : Http2) : poll unit unit * Http2 :=
  match hh_closes c with
  | [] => (NotReady, c)
  | r :: rs => (match r with Ready _ => Ready tt | NotReady => NotReady | PErr _ => PErr tt end, set_hh_closes rs c)
  end.
Definition notify_disconnected (c : Http2) : Http2 :=
  let c := set_hh_disconnected c in
  set_hh_tasks ((fun e => set_en_task (ht_disconnected (en_task e)) e) <$> hh_tasks c) c.

(** [get request]: an answer to return, or whether something has moved. *)
Definition h2_get_request (c : Http2) : run ((poll unit unit + bool) * Http2) :=
  let '(r, polls) := match hh_polls c with [] => (NotReady, []) | r :: polls => (r, polls) end in
  let c := set_hh_polls polls c in
  match r with
  | Ready None => Ret (inr true, notify_disconnected c)
  | Ready (Some (parts, body, resp)) =>
      e ← H2Entry_new handlers addr parts body resp;
      Ret (inr true, set_hh_tasks (hh_tasks c ++ [e]) (set_hh_timer None c))
  | NotReady =>
      match hh_tasks c with
      | [] =>
          if ka_enabled then
            if (0 <? keep_alive) && bool_decide (hh_timer c = None)
            then Ret (inr false, set_hh_timer (Some (pred timer_delay)) c) else Ret (inr false, c)
          else let '(r, c) := h2_conn_close c in Ret (inl r, c)
      | _ => Ret (inl NotReady, c)
      end
  | PErr _ => Ret (inr false, set_hh_timer None (notify_disconnected c))
  end.

Fixpoint conn_loop (fuel : nat) (c : Http2) : run (poll unit unit * Http2) :=
  match fuel with
  | O => Timeout
  | S fuel' =>
      '(moved, tasks) ← poll_entries fuel (hh_tasks c);
      let c := set_hh_tasks (h2_cleanup tasks) c in
      '(r, c) ← (if negb (hh_disconnected c) then h2_get_request c else Ret (inr false, c));
      match r with
      | inl r => Ret (r, c)
      | inr moved' =>
          if negb (moved || moved') then
            match hh_tasks c with
            | [] => if hh_disconnected c then Ret (h2_conn_close c) else Ret (NotReady, c)
            | _ => Ret (NotReady, c)
            end
          else conn_loop fuel' c
      end
  end.

Fixpoint Http2_poll (fuel : nat) (c : Http2) : run (poll unit unit * Http2) :=
  match fuel with
  | O => Timeout
  | S fuel =>
      match hh_state c with
      | CS_Connection =>
          match hh_timer c with
          | Some O => Ret (Ready tt, c)
          | Some (S n) => conn_loop fuel (set_hh_timer (Some n) c)
          | None => conn_loop fuel c
          end
      | CS_Handshake polls =>
          match polls with
          | Ready _ :: _ => Http2_poll fuel (set_hh_state CS_Connection c)
          | NotReady :: polls => Ret (NotReady, set_hh_state (CS_Handshake polls) c)
          | PErr _ :: polls => Ret (PErr tt, set_hh_state (CS_Handshake polls) c)
          | [] => Ret (NotReady, c)
          end
      | CS_Empty => Http2_poll fuel (set_hh_state CS_Empty c)
      end
  end.
End Connections.
