(* ===== verification/Http2Facts.v ===== *)
(** * HTTP/2 connections: what their polls come to *)
From S2P Require Import Prelude StrLib Errors Http Response Decoder Payload H1Reader PayloadType SharedBytes ContentEncoder Pipeline H1Writer H2Writer Http2.
Open Scope Z_scope.

(** ** [IoWrapper] *)
Definition sock_bytes (io : socket) : bytes := concat ((fun r => match r with Ok d => d | Err _ => [] end) <$> io).
Definition iw_bytes (w : IoWrapper) : bytes := default [] (iw_unread w) ++ sock_bytes (iw_inner w).

(** Successive reads of at most [n] bytes, until one fails or gives nothing. *)
Fixpoint iw_reads (fuel : nat) (n : Z) (w : IoWrapper) : bytes * IoWrapper :=
  match fuel with
  | O => ([], w)
  | S fuel =>
      match iw_read n w with
      | (Ok [], w) | (Err _, w) => ([], w)
      | (Ok d, w) => let '(data, w) := iw_reads fuel n w in (d ++ data, w)
      end
  end.

Lemma iw_read_ok n w r w' :
  0 < n -> iw_unread w <> Some [] -> iw_read n w = (r, w') ->
  iw_bytes w = (match r with Ok d => d | Err _ => [] end) ++ iw_bytes w' /\ iw_unread w' <> Some [] /\
  (iw_unread w <> None -> exists b d, r = Ok (b :: d)).
Proof.
  intros Hn Hu. unfold iw_read. destruct (iw_unread w) as [u|] eqn:Hw.
  - assert (0 < lenZ u) as Hlu by (destruct u; [done|rewrite lenZ_cons; pose proof (lenZ_nonneg u); lia]).
    intros [= <- <-]. unfold iw_bytes. rewrite Hw. cbn [default iw_unread iw_inner].
    set (size := Z.min n (lenZ u)). assert (0 < size <= lenZ u) as Hs by lia. split_and!.
    + destruct (Z.ltb_spec size (lenZ u)); cbn [default]; simpl.
      * by rewrite app_assoc, takeZ_dropZ.
      * by rewrite takeZ_all by lia.
    + destruct (Z.ltb_spec size (lenZ u)); [|done]. intros [= Hd]. apply (f_equal lenZ) in Hd.
      rewrite lenZ_dropZ, lenZ_nil in Hd by lia. lia.
    + intros _. destruct (takeZ size u) as [|b d] eqn:Ht; [|by eexists _, _].
      apply (f_equal lenZ) in Ht. rewrite lenZ_takeZ, lenZ_nil in Ht by lia. lia.
  - unfold inner_read. destruct (iw_inner w) as [|[d|e] io] eqn:Hi; intros [= <- <-]; unfold iw_bytes; rewrite Hw, Hi; simpl.
    + done.
    + split_and!; [|done|done]. destruct (Z.ltb_spec n (lenZ d)); unfold sock_bytes; simpl.
      * by rewrite app_assoc, takeZ_dropZ.
      * by rewrite takeZ_all by lia.
    + done.
Qed.

(** What was read before the protocol was known is read again: the connection sees
    these bytes first and then those of the socket, none lost and none twice. *)
Theorem preface_read_again (fuel : nat) (n : Z) (buf : bytes) (io : socket) :
  0 < n -> buf <> [] ->
  let '(data, w) := iw_reads fuel n (mkIoW (Some buf) io) in
  data ++ iw_bytes w = buf ++ sock_bytes io /\ (lenZ buf < Z.of_nat fuel -> iw_unread w = None).
Proof.
  intros Hn Hb. change (buf ++ sock_bytes io) with (iw_bytes (mkIoW (Some buf) io)).
  assert (forall w, iw_unread w <> Some [] ->
    let '(data, w') := iw_reads fuel n w in
    data ++ iw_bytes w' = iw_bytes w /\
    (iw_unread w = None \/ lenZ (default [] (iw_unread w)) < Z.of_nat fuel -> iw_unread w' = None)) as Hgen.
  { clear buf io Hb. induction fuel as [|fuel IH]; intros w Hw; cbn [iw_reads].
    { split; [done|]. pose proof (lenZ_nonneg (default [] (iw_unread w))). intros [?|?]; [done|lia]. }
    destruct (iw_read n w) as [r w1] eqn:Hr. destruct (iw_read_ok n w r w1 Hn Hw Hr) as (Hbytes & Hu1 & Hsome).
    assert (iw_unread w = None -> iw_unread w1 = None) as Hnone.
    { intros Hnu. unfold iw_read in Hr. rewrite Hnu in Hr. destruct (inner_read n (iw_inner w)). by injection Hr as <- <-. }
    destruct r as [[|b d]|e].
    - split; [done|]. intros _. destruct (iw_unread w); [|by apply Hnone]. by destruct Hsome as (? & ? & ?).
    - specialize (IH w1 Hu1). destruct (iw_reads fuel n w1) as [data w']. destruct IH as [IH1 IH2].
      split; [by rewrite Hbytes, <-app_assoc, IH1|]. intros Hlen. apply IH2.
      destruct (iw_unread w) as [u|] eqn:Hu; [|left; by apply Hnone]. destruct Hlen as [?|Hlen]; [done|]. right.
      unfold iw_read in Hr. rewrite Hu in Hr. injection Hr as Hbd <-. cbn [iw_unread].
      assert (0 < lenZ u) by (destruct u; [done|rewrite lenZ_cons; pose proof (lenZ_nonneg u); lia]).
      simpl in Hlen. destruct (Z.ltb_spec (Z.min n (lenZ u)) (lenZ u)); simpl; [rewrite lenZ_dropZ by lia; lia|rewrite lenZ_nil; lia].
    - split; [done|]. intros _. destruct (iw_unread w); [|by apply Hnone]. by destruct Hsome as (? & ? & ?). }
  specialize (Hgen (mkIoW (Some buf) io)). cbn [iw_unread default] in Hgen. destruct (iw_reads _ _ _) as [data w].
  destruct Hgen as [H1 H2]; [congruence|]. split; [done|]. intros Hl. apply H2. by right.
Qed.

(** A connection that is HTTP/2 from the start reads the end of its stream first. *)
Lemma alpn_first_read_is_eof n io : 0 <= n -> iw_read n (mkIoW (Some []) io) = (Ok [], mkIoW None io).
Proof. intros Hn. unfold iw_read. simpl. rewrite lenZ_nil. rewrite takeZ_0 by lia. by rewrite (proj2 (Z.ltb_ge _ _)) by lia. Qed.

Section Facts.
Context {H : Type} `{HM : HeaderMap H} {Z' : Type} `{CP : Compressor Z'}.

(** ** Writers return *)
Lemma h2_send_loop_returns fuel stream (w : H2Writer H Z') :
  (length (ss_caps stream) < fuel)%nat -> exists r w', h2_send_loop fuel stream w = Ret (r, w').
Proof.
  revert stream w. induction fuel as [|fuel IH]; intros stream w Hf; [lia|]. cbn [h2_send_loop]. unfold poll_capacity.
  destruct (ss_caps stream) as [|[[cap|]| |e] caps] eqn:Hc; [by eexists _, _| |by eexists _, _..].
  unfold split_to. cbn [bm_data]. rewrite (proj2 (Z.leb_le _ _)) by lia. cbn [mbind run_bind].
  unfold send_data. cbn [ss_refusals]. destruct (ss_refusals stream) as [|[e|] rs]; [|by eexists _, _|];
    (destruct (bool_decide _); cbn [negb]; [by eexists _, _|]; apply IH; simpl in *; lia).
Qed.
Lemma h2_poll_completed_returns (w : H2Writer H Z') : exists r w', h2_poll_completed w = Ret (r, w').
Proof.
  unfold h2_poll_completed. destruct (h2_started w); [|by eexists _, _]. cbn [negb].
  destruct (h2_stream w); [|by eexists _, _].
  destruct (negb (h2_reserved w) && _); (destruct (h2_stream _); [|by eexists _, _]); apply h2_send_loop_returns; lia.
Qed.

(** ** Polls *)
Section Polls.
Context {W : Type} `{PW : PayloadWriter W} (new_tx : H -> W) {K : Type} `{TK : !H2Task (H := H) (W := W) (Z' := Z') K}.
Notation Msg := (HttpInnerMessage H).
Notation H2Entry := (H2Entry (H := H) (W := W) (Z' := Z') (K := K)).
Notation Http2 := (Http2 (H := H) (W := W) (Z' := Z') (K := K)).
Context (handlers : list (Msg -> run (result K Msg))) (addr : option nat) (keep_alive : Z) (ka_enabled : bool) (timer_delay : nat).

(** A task that reads all that has arrived and waits for more keeps the connection in an
    endless loop when the payload was full before it ran. *)
Theorem h2_task_spins (e : H2Entry) (fuel : nat) (P : H2Writer H Z' -> W -> K -> Prop) :
  en_eof e = false -> (pw_need_read (en_payload e)).1 <> PS_Read ->
  P (en_stream e) (pw_need_read (en_payload e)).2 (en_task e) ->
  (forall w p k, P w p k -> exists w' p' k', ht_poll_io w p k = Ret (NotReady, w', p', k') /\
     (pw_need_read p').1 = PS_Read /\ P w' (pw_need_read p').2 k') ->
  poll_task fuel e = Timeout.
Proof.
  intros He Hp HP Htask. unfold poll_task. rewrite He. cbn [negb]. destruct (pw_need_read (en_payload e)) as [st p]. simpl in *.
  assert (is_read st = false) as -> by (by destruct st).
  assert (P (en_stream (set_en_payload p e)) (en_payload (set_en_payload p e)) (en_task (set_en_payload p e))) as HP' by done.
  revert HP'. generalize (set_en_payload p e) as e0. clear e He Hp p st HP.
  induction fuel as [|fuel IH]; intros e HP; [done|]. cbn [task_loop].
  destruct (Htask _ _ _ HP) as (w' & p' & k' & -> & Hr & HP'). cbn [mbind run_bind].
  cbn [set_en_task set_en_payload set_en_stream en_payload]. destruct (pw_need_read p') as [st p'']. simpl in Hr, HP'. subst st.
  by apply IH.
Qed.

(** A connection that was shut down never returns from its next poll. *)
Theorem h2_poll_after_shutdown (c : Http2) (fuel : nat) :
  Http2_poll new_tx handlers addr keep_alive ka_enabled timer_delay fuel (hh_shutdown c) = Timeout.
Proof.
  assert (forall c : Http2, hh_state c = CS_Empty ->
    Http2_poll new_tx handlers addr keep_alive ka_enabled timer_delay fuel c = Timeout) as Hgen; [|by apply Hgen].
  clear c. induction fuel as [|fuel IH]; intros c Hc; [done|]. cbn [Http2_poll]. rewrite Hc. by apply IH.
Qed.

(** What is left to do: requests to take, and flags to set. *)
Definition entry_left (e : H2Entry) : nat :=
  (if en_eof e then 0 else 1) + (if en_finished e then 0 else 1) + (if en_write_done e then 0 else 1).
Definition conn_left (c : Http2) : nat := 4 * length (hh_polls c) + sum_list_with entry_left (hh_tasks c).

Hypothesis Hhandlers : Forall (fun h => forall req, exists r, h req = Ret r) handlers.
Hypothesis Htasks : forall w p k, exists out, ht_poll_io w p k = Ret out.
Hypothesis Htasks' : forall p k, exists out, ht_poll p k = Ret out.
(** Asking whether to read changes no answer, and a task that waits has not made room. *)
Hypothesis Hneed : forall p, (pw_need_read (pw_need_read p).2).1 = (pw_need_read p).1.
Hypothesis Hsteady : forall w p k w' p' k',
  ht_poll_io w p k = Ret (NotReady, w', p', k') -> (pw_need_read p').1 = PS_Read -> (pw_need_read p).1 = PS_Read.

(** One step of an entry sets a flag if it moves. *)
Definition moves (m : bool) (e e' : H2Entry) : Prop :=
  (entry_left e' <= entry_left e)%nat /\ (m = true -> (entry_left e' < entry_left e)%nat).

Lemma poll_payload_left e : entry_left (poll_payload e) = entry_left e.
Proof.
  unfold poll_payload. destruct (en_reof e); [done|]. cbn [negb]. destruct (pw_need_read _) as [st p].
  destruct (release_capacity _ _) as [r recv]. destruct (recv_poll recv) as [r' recv']. by destruct r' as [[d|]| |err].
Qed.

Lemma set_en_flags_left a b c d e : (entry_left (set_en_flags a b c d e) <= entry_left e)%nat.
Proof. unfold entry_left. cbn. destruct (en_eof e), (en_finished e), (en_write_done e), a, c, d; simpl; lia. Qed.

Lemma poll_task_returns fuel e : exists m e', poll_task (S fuel) e = Ret (m, e') /\ moves m e e'.
Proof.
  unfold poll_task. destruct (en_eof e) eqn:He; cbn [negb].
  - destruct (en_finished e) eqn:Hf; cbn [negb]; [eexists _, _; split; [done|]; split; [lia|done]|].
    destruct (Htasks' (en_payload e) (en_task e)) as [[[r p] k] ->]. cbn [mbind run_bind].
    destruct r; (eexists _, _; split; [done|]); unfold moves, entry_left; cbn; rewrite ?He, ?Hf; cbn;
      destruct (en_write_done e); simpl; (split; [lia|]); intros; (lia || done).
  - pose proof (Hneed (en_payload e)) as Hn. destruct (pw_need_read (en_payload e)) as [st p] eqn:Hp. simpl in Hn.
    set (e0 := set_en_payload p e). cbn [task_loop].
    destruct (Htasks (en_stream e0) (en_payload e0) (en_task e0)) as [[[[r w'] p'] k'] Hio]. rewrite Hio. cbn [mbind run_bind].
    assert (forall p w k, entry_left (set_en_task k (set_en_payload p (set_en_stream w e0))) = entry_left e) as Hsame by done.
    destruct r as [[]| |err].
    + eexists _, _. split; [done|]. unfold moves, entry_left. cbn. rewrite He.
      destruct (en_finished e), (en_write_done e); simpl; split; intros; lia.
    + eexists _, _. split; [done|]. unfold moves, entry_left. cbn. rewrite He.
      destruct (en_finished e), (en_write_done e); simpl; split; intros; lia.
    + cbn [set_en_task set_en_payload set_en_stream en_payload]. pose proof (Hsteady _ _ _ _ _ _ Hio) as Hst.
      cbn [e0 set_en_payload en_payload] in Hst. destruct (pw_need_read p') as [st' p''] eqn:Hp'. simpl in Hst.
      assert (is_read st' && negb (is_read st) = false) as ->.
      { destruct st'; try done. rewrite <-Hn, (Hst eq_refl). done. }
      eexists _, _. split; [done|]. split; [apply Nat.le_refl|done].
    + eexists _, _. split; [done|]. unfold moves, entry_left. cbn. rewrite He.
      destruct (en_finished e), (en_write_done e); simpl; split; intros; (lia || done).
Qed.

Lemma poll_entry_returns fuel e : exists m e', poll_entry (S fuel) e = Ret (m, e') /\ moves m e e'.
Proof.
  unfold poll_entry. destruct (poll_task_returns fuel (poll_payload e)) as (m & e1 & -> & Hm). cbn [mbind run_bind].
  unfold moves in *. rewrite poll_payload_left in Hm. unfold poll_writes.
  destruct (en_write_done e1) eqn:Hwd; cbn [negb mbind run_bind].
  { eexists _, _. split; [done|]. rewrite orb_false_r. done. }
  destruct (h2_poll_completed_returns (en_stream e1)) as (r & w & ->). cbn [mbind run_bind].
  destruct r; cbn [mbind run_bind]; (eexists _, _; split; [done|]).
  - destruct Hm as [Hm1 Hm2]. unfold entry_left in *. cbn. rewrite Hwd in *.
    destruct (en_eof e1), (en_finished e1); simpl in *; split; intros; lia.
  - rewrite orb_false_r. done.
  - rewrite orb_false_r. destruct Hm as [Hm1 Hm2]. split; [|intros Hm'; specialize (Hm2 Hm')];
      pose proof (set_en_flags_left false true false false (set_en_stream w e1)) as Hl;
      change (entry_left (set_en_stream w e1)) with (entry_left e1) in Hl; lia.
Qed.

Lemma poll_entries_return fuel es :
  exists m es', poll_entries (S fuel) es = Ret (m, es') /\
    (sum_list_with entry_left es' <= sum_list_with entry_left es)%nat /\
    (m = true -> (sum_list_with entry_left es' < sum_list_with entry_left es)%nat).
Proof.
  induction es as [|e es (ms & es' & IH & Hle & Hlt)]; cbn [poll_entries]; [by eexists _, _|].
  destruct (poll_entry_returns fuel e) as (m & e' & -> & Hm1 & Hm2). rewrite IH. cbn [mbind run_bind].
  eexists _, _. split; [done|]. cbn [sum_list_with]. split; [lia|].
  intros [Hm|Hm]%orb_true_iff; [specialize (Hm2 Hm)|specialize (Hlt Hm)]; lia.
Qed.

Lemma cleanup_left es : (sum_list_with entry_left (h2_cleanup es) <= sum_list_with entry_left es)%nat.
Proof. induction es as [|e es IH]; [done|]. cbn [h2_cleanup]. destruct (entry_done e); cbn [sum_list_with]; lia. Qed.

Lemma dispatch_returns (hs : list (Msg -> run (result K Msg))) req :
  Forall (fun h => forall req, exists r, h req = Ret r) hs -> exists k : K, h2_dispatch hs req = Ret k.
Proof.
  intros Hhs. revert req. induction Hhs as [|h hs Hh _ IH]; intros req; cbn [h2_dispatch]; [by eexists|].
  destruct (Hh req) as [[t|req'] ->]; cbn [mbind run_bind]; [by eexists|apply IH].
Qed.

Lemma get_request_returns c :
  exists r c', h2_get_request new_tx handlers addr keep_alive ka_enabled timer_delay c = Ret (r, c') /\
    match r with inl _ => True | inr m => (conn_left c' <= conn_left c)%nat /\ (m = true -> (conn_left c' < conn_left c)%nat) end.
Proof.
  unfold h2_get_request. destruct (hh_polls c) as [|[[[[parts body] resp]|]| |e] polls] eqn:Hp.
  - destruct (hh_tasks c) eqn:Ht; cbn [set_hh_polls hh_tasks]; rewrite Ht; [|by eexists _, _].
    destruct ka_enabled; [|destruct (h2_conn_close _); by eexists _, _].
    assert (conn_left (set_hh_polls [] c) = conn_left c) as Heq by (unfold conn_left; cbn; by rewrite Hp).
    destruct (_ && _); (eexists _, _; split; [done|]; split; [|done]); unfold conn_left in *; cbn in *; lia.
  - unfold H2Entry_new. destruct (dispatch_returns handlers (h2_message parts addr) Hhandlers) as [k ->]. cbn [mbind run_bind].
    eexists _, _. split; [done|]. unfold conn_left. cbn. rewrite Hp, sum_list_with_app. cbn [sum_list_with length]. unfold entry_left at 2 5. cbn.
    split; intros; lia.
  - eexists _, _. split; [done|]. unfold conn_left. cbn. rewrite Hp.
    assert (sum_list_with entry_left ((fun e => set_en_task (ht_disconnected (en_task e)) e) <$> hh_tasks c) =
      sum_list_with entry_left (hh_tasks c)) as -> by (induction (hh_tasks c) as [|e es IH]; [done|]; cbn; by rewrite IH).
    cbn [length]. split; intros; lia.
  - destruct (hh_tasks c) eqn:Ht; cbn [set_hh_polls hh_tasks]; rewrite Ht; [|by eexists _, _].
    destruct ka_enabled; [|destruct (h2_conn_close _); by eexists _, _].
    destruct (_ && _); (eexists _, _; split; [done|]; split; [|done]); unfold conn_left; cbn; rewrite Hp, Ht; cbn [length]; lia.
  - eexists _, _. split; [done|]. unfold conn_left. cbn. rewrite Hp.
    assert (sum_list_with entry_left ((fun e => set_en_task (ht_disconnected (en_task e)) e) <$> hh_tasks c) =
      sum_list_with entry_left (hh_tasks c)) as -> by (induction (hh_tasks c) as [|e' es IH]; [done|]; cbn; by rewrite IH).
    cbn [length]. split; [lia|done].
Qed.

Lemma conn_loop_returns fuel c :
  (conn_left c < fuel)%nat ->
  exists r c', conn_loop new_tx handlers addr keep_alive ka_enabled timer_delay fuel c = Ret (r, c').
Proof.
  revert c. induction fuel as [|fuel IH]; intros c Hf; [lia|]. cbn [conn_loop].
  destruct (poll_entries_return fuel (hh_tasks c)) as (m & es & -> & Hle & Hlt). cbn [mbind run_bind].
  pose proof (cleanup_left es) as Hcl. set (c1 := set_hh_tasks (h2_cleanup es) c).
  assert (conn_left c1 <= conn_left c)%nat as Hc1 by (unfold conn_left; cbn; lia).
  assert (m = true -> (conn_left c1 < conn_left c)%nat) as Hc1' by (intros Hm; specialize (Hlt Hm); unfold conn_left; cbn; lia).
  destruct (hh_disconnected c1); cbn [negb mbind run_bind].
  - destruct m; cbn [negb orb]; [apply IH; specialize (Hc1' eq_refl); lia|].
    destruct (hh_tasks c1); [|by eexists _, _]. destruct (hh_disconnected c1); [|by eexists _, _].
    destruct (h2_conn_close c1). by eexists _, _.
  - destruct (get_request_returns c1) as (r & c2 & -> & Hr). cbn [mbind run_bind]. destruct r as [r|m']; [by eexists _, _|].
    destruct Hr as [Hle2 Hlt2]. destruct (m || m') eqn:Hmm; cbn [negb].
    + apply IH. apply orb_true_iff in Hmm as [Hm|Hm]; [specialize (Hc1' Hm)|specialize (Hlt2 Hm)]; lia.
    + destruct (hh_tasks c2); [|by eexists _, _]. destruct (hh_disconnected c2); [|by eexists _, _].
      destruct (h2_conn_close c2). by eexists _, _.
Qed.

(** C28. Polls of an HTTP/2 connection return: with tasks and handlers that return, and that do
    not make room in a full payload only to wait, every poll of a connection that was not
    shut down returns within a number of turns bounded by the requests that have arrived
    and the tasks that are not done. *)
Theorem h2_poll_returns (c : Http2) :
  hh_state c <> CS_Empty ->
  exists r c', Http2_poll new_tx handlers addr keep_alive ka_enabled timer_delay (conn_left c + 3) c = Ret (r, c').
Proof.
  assert (forall n c, hh_state c = CS_Connection -> (conn_left c + 1 < n)%nat ->
    exists r c', Http2_poll new_tx handlers addr keep_alive ka_enabled timer_delay n c = Ret (r, c')) as Hconn.
  { clear c. intros n c Hc Hn. destruct n as [|n]; [lia|]. cbn [Http2_poll]. rewrite Hc.
    destruct (hh_timer c) as [[|k]|]; [by eexists _, _|apply conn_loop_returns; unfold conn_left in *; cbn in *; lia|
      apply conn_loop_returns; lia]. }
  intros Hne. destruct (hh_state c) as [polls| |] eqn:Hst; [|by apply Hconn; [|lia]|done].
  replace (conn_left c + 3)%nat with (S (conn_left c + 2)) by lia. cbn [Http2_poll]. rewrite Hst.
  destruct polls as [|[u| |e] polls]; [by eexists _, _| |by eexists _, _..].
  apply Hconn; [done|]. unfold conn_left. cbn. lia.
Qed.
End Polls.
End Facts.

(** ** Request bodies *)

(** All that a reader gets from a payload, and the answer that ends it. *)
Fixpoint read_all (n : nat) (s : Inner) : list bytes * poll (option bytes) PayloadError :=
  match n with
  | O => ([], NotReady)
  | S n =>
      match Inner_readany 0 s with
      | (Ready (Some d), s, _) => let '(ds, r) := read_all n s in (d :: ds, r)
      | (r, _, _) => ([], r)
      end
  end.

#[local] Instance chan_writer : PayloadWriter Chan := sender_writer 0.

Section Bodies.
Context {H : Type} `{HM : HeaderMap H} {Z' : Type} `{CP : Compressor Z'} {K : Type}.
Notation H2Entry := (H2Entry (H := H) (W := Chan) (Z' := Z') (K := K)).

(** An open payload with these chunks. *)
Definition holds (chunks : list bytes) (c : Chan) : Prop :=
  ch_strong c = 1%nat /\ in_items (ch_cell c) = chunks /\ in_eof (ch_cell c) = false /\ in_err (ch_cell c) = None.

Lemma holds_need_read chunks c : holds chunks c -> holds chunks (pw_need_read c).2.
Proof.
  intros (H1 & H2 & H3 & H4). unfold pw_need_read, chan_writer, sender_writer, Sender_need_read, upgrade.
  rewrite H1. simpl. by destruct (in_need_read (ch_cell c)); split_and!.
Qed.
Lemma holds_feed chunks c d : holds chunks c -> holds (chunks ++ [d]) (pw_feed_data d c).
Proof.
  intros (H1 & H2 & H3 & H4). unfold pw_feed_data, chan_writer, sender_writer, Sender_feed_data, upgrade.
  rewrite H1. simpl. split_and!; simpl; [done|by rewrite H2|done|done].
Qed.
Lemma holds_read chunks s n :
  in_items s = chunks -> in_eof s = false -> in_err s = None -> (length chunks < n)%nat -> read_all n s = (chunks, NotReady).
Proof.
  intros H1 H2 H3 Hn. revert s n H1 H2 H3 Hn. induction chunks as [|d chunks IH]; intros s n H1 H2 H3 Hn;
    (destruct n as [|n]; [simpl in Hn; lia|]); cbn [read_all]; unfold Inner_readany; rewrite H1.
  - by rewrite H3, H2.
  - rewrite (IH _ n); [done|done..|simpl in Hn; lia].
Qed.

(** C39. The end of a request body is never passed on: when a client has sent its body and
    ended the stream, the reader of the payload gets every chunk and then waits for ever. *)
Theorem h2_request_body_never_ends (chunks : list bytes) (e : H2Entry) (n : nat) :
  en_reof e = false -> en_payload e = Payload_new false ->
  en_recv e = mkRS (((fun d => Ready (Some d)) <$> chunks) ++ [Ready None]) [] [] ->
  (length chunks < n)%nat ->
  let e' := Nat.iter n poll_payload e in
  en_reof e' = true /\ forall m, (length chunks < m)%nat -> read_all m (ch_cell (en_payload e')) = (chunks, NotReady).
Proof.
  intros He Hp Hr Hn.
  assert (forall todo done_ (e : H2Entry), en_reof e = false -> holds done_ (en_payload e) -> rs_refusals (en_recv e) = [] ->
    rs_polls (en_recv e) = ((fun d => Ready (Some d)) <$> todo) ++ [Ready None] -> forall n, (length todo < n)%nat ->
    en_reof (Nat.iter n poll_payload e) = true /\ holds (done_ ++ todo) (en_payload (Nat.iter n poll_payload e))) as Hgen.
  { clear. intros todo. induction todo as [|d todo IH]; intros done_ e He Hh Href Hpolls n Hn;
      (destruct n as [|n]; [simpl in Hn; lia|]); rewrite Nat.iter_succ_r; unfold poll_payload at 2 4; rewrite He; cbn [negb];
      pose proof (holds_need_read _ _ Hh) as Hh'; destruct (pw_need_read (en_payload e)) as [st p]; simpl in Hh';
      unfold release_capacity; rewrite Href; unfold recv_poll; cbn [rs_polls]; rewrite Hpolls; cbn [fmap list_fmap app].
    - rewrite app_nil_r. assert (forall k (e : H2Entry), en_reof e = true -> Nat.iter k poll_payload e = e) as Hstop.
      { clear. intros k e He. induction k as [|k IH]; [done|]. rewrite Nat.iter_succ, IH. unfold poll_payload. by rewrite He. }
      by rewrite Hstop.
    - specialize (IH (done_ ++ [d])). rewrite <-app_assoc in IH. apply IH; [done|by apply holds_feed|done|done|simpl in Hn; lia]. }
  destruct (Hgen chunks [] e He) with (n := n) as [H1 H2]; [by rewrite Hp|by rewrite Hr|by rewrite Hr|done|].
  cbv zeta. split; [done|]. intros m Hm. destruct H2 as (_ & H2 & H3 & H4).
  by apply holds_read.
Qed.
End Bodies.

(** ** Concrete connections *)
Lemma preface_read_again_witness :
  let '(data, w) := iw_reads 40 5 (mkIoW (Some b#"PRI * HTTP/2.0") [Ok b#"SM"; Ok b#"x"]) in
  data ++ iw_bytes w = b#"PRI * HTTP/2.0SMx" /\ iw_unread w = None.
Proof.
  pose proof (preface_read_again 40 5 b#"PRI * HTTP/2.0" [Ok b#"SM"; Ok b#"x"] ltac:(lia) ltac:(discriminate)) as Hp.
  destruct (iw_reads 40 5 (mkIoW (Some b#"PRI * HTTP/2.0") [Ok b#"SM"; Ok b#"x"])) as [data w].
  destruct Hp as [H1 H2]. split; [exact H1|]. apply H2. vm_compute. reflexivity.
Defined.

(** A task that reads its whole payload and waits. *)
Fixpoint drain (n : nat) (s : Inner) : Inner :=
  match n with
  | O => s
  | S n => match Inner_readany 0 s with (Ready (Some _), s, _) => drain n s | (_, s, _) => s end
  end.
#[local] Instance reading_task : H2Task (H := hlist) (W := Chan) (Z' := unit) unit := {|
  ht_poll_io := fun w p k => Ret (NotReady, w, put_cell p (drain 10 (ch_cell p)), k);
  ht_poll := fun p k => Ret (NotReady, p, k);
  ht_disconnected := fun k => k;
  ht_error := fun _ => tt;
|}.
(** A payload with more than its capacity in it. *)
Definition full_payload : Chan :=
  (Sender_feed_data (b#"hello") (put_cell (Payload_new false) (set_read_buffer_capacity 4 (Inner_new false)))).1.
Definition full_entry : H2Entry (H := hlist) (W := Chan) (Z' := unit) (K := unit) :=
  mkEn tt full_payload (mkRS [] [] []) (H2Writer_new None []) false false false false false.

Lemma h2_task_spins_witness : poll_task 1000 full_entry = Timeout.
Proof.
  apply (h2_task_spins full_entry 1000 (fun _ p _ =>
    p = (pw_need_read full_payload).2 \/ p = put_cell full_payload (drain 10 (ch_cell (pw_need_read full_payload).2)))).
  - reflexivity.
  - vm_compute. discriminate.
  - left. reflexivity.
  - intros w p k [-> | ->]; eexists _, _, _; (split; [reflexivity|]); vm_compute; (split; [reflexivity|]); right; reflexivity.
Defined.

(** A task that is done at once. *)
Definition quick_task : H2Task (H := hlist) (W := Chan) (Z' := unit) bool := {|
  ht_poll_io := fun w p k => Ret (Ready true, w, p, k);
  ht_poll := fun p k => Ret (Ready tt, p, k);
  ht_disconnected := fun k => k;
  ht_error := fun _ => true;
|}.
Lemma chan_need_read_twice (p : Chan) : (pw_need_read (pw_need_read p).2).1 = (pw_need_read p).1.
Proof.
  unfold pw_need_read, chan_writer, sender_writer, Sender_need_read, upgrade.
  destruct (decide (ch_strong p = 0%nat)) as [Hz|Hz]; [simpl; by rewrite decide_True|].
  destruct (in_need_read (ch_cell p)) eqn:Hn; simpl; rewrite decide_False by done; simpl; by rewrite ?Hn.
Qed.
Definition one_request : Http2 (H := hlist) (W := Chan) (Z' := unit) (K := bool) :=
  Http2_new [Ready tt] [Ready (Some (mkParts b#"/" b#"GET" HTTP_2 [], mkRS [Ready None] [] [], Some (mkSS [Ready None] [] [] [] None)))]
    [Ready tt].

Lemma h2_poll_returns_witness :
  exists r c', Http2_poll (TK := quick_task) (fun _ => Payload_new false) [] None 75 true 10 (conn_left one_request + 3) one_request = Ret (r, c').
Proof.
  apply (h2_poll_returns (TK := quick_task) (fun _ => Payload_new false) [] None 75 true 10).
  - constructor.
  - intros w p k. by eexists.
  - intros p k. by eexists.
  - exact chan_need_read_twice.
  - intros w p k w' p' k' Hx. discriminate.
  - discriminate.
Defined.

Lemma h2_request_body_never_ends_witness :
  let e := mkEn (H := hlist) (Z' := unit) tt (Payload_new false) (mkRS [Ready (Some b#"a=1"); Ready (Some b#"&b=2"); Ready None] [] [])
    (H2Writer_new None []) false false false false false in
  read_all 10 (ch_cell (en_payload (Nat.iter 5 poll_payload e))) = ([b#"a=1"; b#"&b=2"], NotReady).
Proof.
  apply (h2_request_body_never_ends [b#"a=1"; b#"&b=2"] (mkEn (H := hlist) (Z' := unit) tt (Payload_new false)
    (mkRS [Ready (Some b#"a=1"); Ready (Some b#"&b=2"); Ready None] [] [])
    (H2Writer_new None []) false false false false false) 5).
  - reflexivity.
  - reflexivity.
  - reflexivity.
  - simpl. lia.
  - simpl. lia.
Defined.
