(* ===== verification/ClientPipeline.v ===== *)
(** * Sending a request and reading its response (src/src/client/pipeline.rs,
      [ClientResponse] of src/src/client/response.rs)

    [SendRequest] asks the connector for a connection, starts the request on it and waits
    for the head of the response; the response then reads its body through the [Pipeline]
    it owns, which goes on writing the body of the request.  The connector is known by the
    future it answers a [Connect] with, a timer by the number of polls before it fires.
    The calls that end a connection are kept beside the state. *)
From S2P Require Import Prelude StrLib Errors Http Response Decoder Transfer H1Reader PayloadType SharedBytes ContentEncoder Pipeline H1Writer Connector ClientParser ClientWriter.
Open Scope Z_scope.

Inductive SendRequestError : Type :=
| SRE_Timeout
| SRE_Connector (e : ClientConnectorError)
| SRE_ParseError (e : HttpResponseParserError)
| SRE_Io (e : IoError).

Definition SendRequestError_from_io (err : IoError) : SendRequestError := SRE_Io err.
Definition SendRequestError_from_connector (err : ClientConnectorError) : SendRequestError :=
  match err with
  | CCE_Timeout => SRE_Timeout
  | _ => SRE_Connector err
  end.

(** How a connection is given up: back to its pool, closed, or dropped. *)
Inductive ConnCall : Type := Conn_release (conn : Io) | Conn_close (conn : Io) | Conn_drop (conn : Io).

(** A timer: [NotReady] so many times ([None]: for ever), and fired ever after. *)
Definition Timer : Type := option nat.
Definition timer_poll (t : Timer) : poll unit unit * Timer :=
  match t with
  | None => (NotReady, t)
  | Some (S n) => (NotReady, Some n)
  | Some O => (Ready tt, t)
  end.

Inductive IoBody : Type := IoB_Payload (body : BodyStream) | IoB_Actor (ctx : ActorContext) | IoB_Done.

Section ClientPipelines.
Context {H : Type} `{HM : HeaderMap H} `{HC : HeaderConv} `{RP : ResponseParsers} {Z' : Type} `{CP : Compressor Z'}
  `{AL : Allocator} {D : Type} `{PS : PayloadStream D}.
Context (path_and_query : bytes -> option bytes) (date : bytes) (spare : bytes -> Z).
Context (streams : nat -> BodyStream) (actors : nat -> ActorContext) (display : Error -> string).
Notation Writer_ := (HttpClientWriter Z').
Notation Request := (ClientRequest H).
Notation Message := (ClientMessage H).

Record ClientPipeline : Type := mkCLP {
  cl_body : IoBody;
  cl_conn : option Io;
  cl_writer : Writer_;
  cl_parser : option HttpResponseParser;
  cl_parser_buf : BytesMut;
  cl_disconnected : bool;
  cl_drain : option nat;
  cl_decompress : option D;
  cl_should_decompress : bool;
  cl_write_state : RunningState;
  cl_timeout : option Timer;
  cl_drained : list nat;
  cl_calls : list ConnCall;
}.

Definition set_cl_body v p := mkCLP v (cl_conn p) (cl_writer p) (cl_parser p) (cl_parser_buf p) (cl_disconnected p) (cl_drain p)
  (cl_decompress p) (cl_should_decompress p) (cl_write_state p) (cl_timeout p) (cl_drained p) (cl_calls p).
Definition set_cl_conn v p := mkCLP (cl_body p) v (cl_writer p) (cl_parser p) (cl_parser_buf p) (cl_disconnected p) (cl_drain p)
  (cl_decompress p) (cl_should_decompress p) (cl_write_state p) (cl_timeout p) (cl_drained p) (cl_calls p).
Definition set_cl_writer v p := mkCLP (cl_body p) (cl_conn p) v (cl_parser p) (cl_parser_buf p) (cl_disconnected p) (cl_drain p)
  (cl_decompress p) (cl_should_decompress p) (cl_write_state p) (cl_timeout p) (cl_drained p) (cl_calls p).
Definition set_cl_parser v b p := mkCLP (cl_body p) (cl_conn p) (cl_writer p) v b (cl_disconnected p) (cl_drain p)
  (cl_decompress p) (cl_should_decompress p) (cl_write_state p) (cl_timeout p) (cl_drained p) (cl_calls p).
Definition set_cl_disconnected p := mkCLP (cl_body p) (cl_conn p) (cl_writer p) (cl_parser p) (cl_parser_buf p) true (cl_drain p)
  (cl_decompress p) (cl_should_decompress p) (cl_write_state p) (cl_timeout p) (cl_drained p) (cl_calls p).
Definition set_cl_drain v p := mkCLP (cl_body p) (cl_conn p) (cl_writer p) (cl_parser p) (cl_parser_buf p) (cl_disconnected p) v
  (cl_decompress p) (cl_should_decompress p) (cl_write_state p) (cl_timeout p) (cl_drained p) (cl_calls p).
Definition set_cl_decompress v p := mkCLP (cl_body p) (cl_conn p) (cl_writer p) (cl_parser p) (cl_parser_buf p) (cl_disconnected p)
  (cl_drain p) v (cl_should_decompress p) (cl_write_state p) (cl_timeout p) (cl_drained p) (cl_calls p).
Definition set_cl_write_state v p := mkCLP (cl_body p) (cl_conn p) (cl_writer p) (cl_parser p) (cl_parser_buf p) (cl_disconnected p)
  (cl_drain p) (cl_decompress p) (cl_should_decompress p) v (cl_timeout p) (cl_drained p) (cl_calls p).
Definition set_cl_timeout v p := mkCLP (cl_body p) (cl_conn p) (cl_writer p) (cl_parser p) (cl_parser_buf p) (cl_disconnected p)
  (cl_drain p) (cl_decompress p) (cl_should_decompress p) (cl_write_state p) v (cl_drained p) (cl_calls p).
Definition add_cl_drained tx p := mkCLP (cl_body p) (cl_conn p) (cl_writer p) (cl_parser p) (cl_parser_buf p) (cl_disconnected p)
  (cl_drain p) (cl_decompress p) (cl_should_decompress p) (cl_write_state p) (cl_timeout p) (cl_drained p ++ [tx]) (cl_calls p).
Definition add_cl_call c p := mkCLP (cl_body p) (cl_conn p) (cl_writer p) (cl_parser p) (cl_parser_buf p) (cl_disconnected p)
  (cl_drain p) (cl_decompress p) (cl_should_decompress p) (cl_write_state p) (cl_timeout p) (cl_drained p) (cl_calls p ++ [c]).

Definition release_conn (p : ClientPipeline) : ClientPipeline :=
  match cl_conn p with
  | Some conn => add_cl_call (Conn_release conn) (set_cl_conn None p)
  | None => p
  end.

(** [Drop]. *)
Definition ClientPipeline_drop (p : ClientPipeline) : ClientPipeline :=
  match cl_conn p with
  | Some conn => add_cl_call (Conn_close conn) (set_cl_conn None p)
  | None => p
  end.

Definition cl_poll_timeout (p : ClientPipeline) : poll unit SendRequestError * ClientPipeline :=
  match cl_timeout p with
  | Some t =>
      match timer_poll t with
      | (Ready _, t) => (PErr SRE_Timeout, set_cl_timeout (Some t) p)
      | (_, t) => (NotReady, set_cl_timeout (Some t) p)
      end
  | None => (NotReady, p)
  end.

(** ** Writing the request *)

(** What a turn of the loop ['outter] comes to: the end of the loop with [done], an error,
    or the answer of the writer. *)
Inductive write_turn : Type :=
| WT_break (done : bool) (p : ClientPipeline)
| WT_fail (e : Error) (p : ClientPipeline)
| WT_result (r : WriterState) (p : ClientPipeline).

Fixpoint client_frames (frames : list ActorFrame) (res : option WriterState) (ctx : ActorContext) (p : ClientPipeline)
  : run write_turn :=
  match frames with
  | [] =>
      let p := set_cl_body (IoB_Actor ctx) p in
      match cl_drain p with
      | Some _ => Ret (WT_break false (set_cl_write_state (resume (cl_write_state p)) p))
      | None => res ← unwrap res; Ret (WT_result res p)
      end
  | Frame_Chunk None :: _ =>
      let p := set_cl_disconnected p in
      match client_write_eof (cl_writer p) with
      | (Err e, w) => Ret (WT_fail (Error_from e) (set_cl_writer w p))
      | (Ok _, w) => Ret (WT_break false (set_cl_writer w p))
      end
  | Frame_Chunk (Some chunk) :: frames =>
      '(r, w) ← client_write chunk (cl_writer p);
      match r with
      | Err e => Ret (WT_fail (Error_from e) (set_cl_writer w p))
      | Ok r => client_frames frames (Some r) ctx (set_cl_writer w p)
      end
  | Frame_Drain fut :: frames => client_frames frames res ctx (set_cl_drain (Some fut) p)
  end.

Definition client_turn (p : ClientPipeline) : run write_turn :=
  let body := cl_body p in
  let p := set_cl_body IoB_Done p in
  match body with
  | IoB_Payload body =>
      match stream_poll body with
      | (Ready None, _) =>
          match client_write_eof (cl_writer p) with
          | (Err e, w) => Ret (WT_fail (Error_from e) (set_cl_writer w p))
          | (Ok _, w) => Ret (WT_break false (set_cl_disconnected (set_cl_writer w p)))
          end
      | (Ready (Some chunk), body) =>
          let p := set_cl_body (IoB_Payload body) p in
          '(r, w) ← client_write (Bin_Bytes chunk) (cl_writer p);
          match r with
          | Err e => Ret (WT_fail (Error_from e) (set_cl_writer w p))
          | Ok r => Ret (WT_result r (set_cl_writer w p))
          end
      | (NotReady, body) => Ret (WT_break true (set_cl_body (IoB_Payload body) p))
      | (PErr e, _) => Ret (WT_fail e p)
      end
  | IoB_Actor ctx =>
      let ctx := if cl_disconnected p then ctx_disconnected ctx else ctx in
      match ctx_poll ctx with
      | (Ready (Some []), ctx) => Ret (WT_break false (set_cl_body (IoB_Actor ctx) p))
      | (Ready (Some vec), ctx) => client_frames vec None ctx p
      | (Ready None, _) => Ret (WT_break true p)
      | (NotReady, ctx) => Ret (WT_break true (set_cl_body (IoB_Actor ctx) p))
      | (PErr e, _) => Ret (WT_fail e p)
      end
  | IoB_Done => Ret (WT_break true (set_cl_disconnected p))
  end.

(** The loop ['outter]: [done], or an error. *)
Fixpoint client_turns (fuel : nat) (p : ClientPipeline) : run (result bool Error * ClientPipeline) :=
  match fuel with
  | O => Timeout
  | S fuel =>
      t ← client_turn p;
      match t with
      | WT_break done p => Ret (Ok done, p)
      | WT_fail e p => Ret (Err e, p)
      | WT_result WS_Pause p => Ret (Ok false, set_cl_write_state (pause (cl_write_state p)) p)
      | WT_result WS_Done p => client_turns fuel (set_cl_write_state (resume (cl_write_state p)) p)
      end
  end.

(** The polls that a body can still answer. *)
Definition body_left (p : ClientPipeline) : nat :=
  match cl_body p with
  | IoB_Payload s => length s
  | IoB_Actor c => length (ctx_script c)
  | IoB_Done => 0
  end.

(** [poll_write], which calls itself after a flush. *)
Fixpoint poll_write_fuel (fuel : nat) (p : ClientPipeline) : run (poll unit Error * ClientPipeline) :=
  match fuel with
  | O => Timeout
  | S fuel =>
      match cl_conn p with
      | None => Ret (Ready tt, p)
      | Some _ =>
          if decide (cl_write_state p = RDone) then Ret (Ready tt, p)
          else
            '(r, p) ←
              (if bool_decide (cl_drain p = None) && negb (bool_decide (cl_write_state p = Paused))
               then client_turns (S (body_left p)) p
               else Ret (Ok false, p));
            match r with
            | Err e => Ret (PErr e, p)
            | Ok done =>
                (* flush io but only if we need to *)
                io ← unwrap (cl_conn p);
                '(r, w, io) ← client_poll_completed false (cl_writer p) io;
                let p := set_cl_conn (Some io) (set_cl_writer w p) in
                match r with
                | Ready _ =>
                    let p := if cl_disconnected p then set_cl_write_state RDone p
                             else set_cl_write_state (resume (cl_write_state p)) p in
                    (* resolve drain futures *)
                    let p := match cl_drain p with
                             | Some tx => add_cl_drained tx (set_cl_drain None p)
                             | None => p
                             end in
                    (* restart io processing *)
                    if negb (done : bool) || bool_decide (cl_write_state p = RDone) then poll_write_fuel fuel p
                    else Ret (NotReady, p)
                | NotReady => Ret (NotReady, p)
                | PErr e => Ret (PErr (Error_from e), p)
                end
            end
      end
  end.
Definition poll_write (p : ClientPipeline) : run (poll unit Error * ClientPipeline) :=
  poll_write_fuel (3 + body_left p) p.

(** ** Reading the response *)

(** A response with the pipeline that reads its body. *)
Record ClientResponse : Type := mkCR { cr_msg : Message; cr_pipeline : option ClientPipeline }.
Definition ClientResponse_new (msg : Message) : ClientResponse := mkCR msg None.
Definition set_pipeline (pl : ClientPipeline) (r : ClientResponse) : ClientResponse := mkCR (cr_msg r) (Some pl).

Definition response_decompress (msg : Message) : option D :=
  match hm_get CONTENT_ENCODING (cm_headers msg) with
  | Some enc =>
      match hv_to_str enc with
      | Some enc =>
          match ContentEncoding_from enc with
          | Enc_Auto | Enc_Identity => None
          | enc => Some (ps_new enc)
          end
      | None => None
      end
  | None => None
  end.

Definition cl_parse (p : ClientPipeline) : run (poll ClientResponse HttpResponseParserError * ClientPipeline) :=
  match cl_conn p with
  | Some conn =>
      parser ← unwrap (cl_parser p);
      '(r, parser, reads, buf) ← response_parse parser (io_reads conn) (cl_parser_buf p);
      let p := set_cl_conn (Some (set_io_reads reads conn)) (set_cl_parser (Some parser) buf p) in
      match r with
      | Ready msg =>
          (* check content-encoding *)
          let p := if cl_should_decompress p
                   then match response_decompress msg with
                        | Some d => set_cl_decompress (Some d) p
                        | None => p
                        end
                   else p in
          Ret (Ready (ClientResponse_new msg), p)
      | NotReady => Ret (NotReady, p)
      | PErr e => Ret (PErr e, p)
      end
  | None => Ret (NotReady, p)
  end.

(** [io::Error::new(io::ErrorKind::Other, format!("{}", e))]. *)
Definition io_other (msg : string) : IoError := mkIoError OtherKind msg.
Definition timeout_display : string := "Timeout while waiting for response".

(** The loop [need read?]: what is returned, or [None] at the end of the body. *)
Fixpoint read_loop (fuel : nat) (p : ClientPipeline)
  : run (option (poll (option bytes) PayloadError) * ClientPipeline) :=
  match fuel with
  | O => Timeout
  | S fuel =>
      parser ← unwrap (cl_parser p);
      conn ← unwrap (cl_conn p);
      '(r, parser, reads, buf) ← parse_payload parser (io_reads conn) (cl_parser_buf p);
      let p := set_cl_conn (Some (set_io_reads reads conn)) (set_cl_parser (Some parser) buf p) in
      match r with
      | Ready (Some b) =>
          match cl_decompress p with
          | Some d =>
              match ps_feed_data b d with
              | (Ok (Some b), d) => Ret (Some (Ready (Some b)), set_cl_decompress (Some d) p)
              | (Ok None, d) => Ret (Some NotReady, set_cl_decompress (Some d) p)
              | (Err e, d) =>
                  let p := set_cl_decompress (Some d) p in
                  if decide (io_kind e = WouldBlock) then read_loop fuel p
                  else Ret (Some (PErr (PayloadError_from_io e)), p)
              end
          | None => Ret (Some (Ready (Some b)), p)
          end
      | Ready None => Ret (None, set_cl_parser None (cl_parser_buf p) p)
      | NotReady => Ret (Some NotReady, p)
      | PErr e => Ret (Some (PErr e), p)
      end
  end.

(** What is left to read and to decode. *)
Definition read_fuel (p : ClientPipeline) : nat :=
  S (length (bm_data (cl_parser_buf p)) + match cl_conn p with Some io => reads_left (io_reads io) | None => 0 end).

(** The part of [poll] behind the end of the body. *)
Definition poll_end (need_run : bool) (p : ClientPipeline) : poll (option bytes) PayloadError * ClientPipeline :=
  let d := cl_decompress p in
  let p := set_cl_decompress None p in
  match (match d with
         | Some d => (ps_feed_eof d).1
         | None => Ok None
         end) with
  | Err e => (PErr (PayloadError_from_io e), p)
  | Ok (Some b) => (Ready (Some b), release_conn p)
  | Ok None => if need_run then (NotReady, p) else (Ready None, release_conn p)
  end.

(** [need write?]: [need_run], or an error. *)
Definition need_run (r : poll unit Error) (p : ClientPipeline) : result bool IoError * ClientPipeline :=
  match r with
  | PErr e => (Err (io_other (display e)), p)
  | NotReady => (Ok true, p)
  | Ready _ =>
      match cl_poll_timeout p with
      | (PErr _, p) => (Err (io_other timeout_display), p)
      | (_, p) => (Ok false, p)
      end
  end.

Definition ClientPipeline_poll (p : ClientPipeline) : run (poll (option bytes) PayloadError * ClientPipeline) :=
  match cl_conn p with
  | None => Ret (Ready None, p)
  | Some _ =>
      (* need write? *)
      '(r, p) ← poll_write p;
      let '(r, p) := need_run r p in
      match r with
      | Err e => Ret (PErr (PayloadError_from_io e), p)
      | Ok need_run =>
          (* need read? *)
          '(r, p) ← match cl_parser p with
                     | Some _ => read_loop (read_fuel p) p
                     | None => Ret (None, p)
                     end;
          match r with
          | Some r => Ret (r, p)
          | None => Ret (poll_end need_run p)
          end
      end
  end.

(** [Stream] of [ClientResponse]. *)
Definition ClientResponse_poll (r : ClientResponse) : run (poll (option bytes) PayloadError * ClientResponse) :=
  match cr_pipeline r with
  | Some pl => '(x, pl) ← ClientPipeline_poll pl; Ret (x, mkCR (cr_msg r) (Some pl))
  | None => Ret (Ready None, r)
  end.

(** ** Sending *)

(** The future of [Connect]: [None] is an error of the mailbox. *)
Record ConnectFut : Type := mkConnFut { cf_wait : option nat; cf_result : option (result Io ClientConnectorError) }.
Definition connect_poll (f : ConnectFut) : poll (result Io ClientConnectorError) unit * ConnectFut :=
  match cf_wait f with
  | None => (NotReady, f)
  | Some (S n) => (NotReady, mkConnFut (Some n) (cf_result f))
  | Some O => (match cf_result f with Some r => Ready r | None => PErr tt end, f)
  end.

Inductive SendState : Type :=
| Send_New | Send_Connect (conn : ConnectFut) | Send_Connection (conn : Io) | Send_Send (pl : ClientPipeline) | Send_None.

Record SendRequest : Type := mkSR {
  sr_req : Request;
  sr_state : SendState;
  sr_conn_timeout : Z;
  sr_wait_timeout : Z;
  sr_timeout : option Timer;
  sr_calls : list ConnCall;
}.
Definition set_sr_state v s := mkSR (sr_req s) v (sr_conn_timeout s) (sr_wait_timeout s) (sr_timeout s) (sr_calls s).
Definition set_sr_req v s := mkSR v (sr_state s) (sr_conn_timeout s) (sr_wait_timeout s) (sr_timeout s) (sr_calls s).
Definition set_sr_timeout v s := mkSR (sr_req s) (sr_state s) (sr_conn_timeout s) (sr_wait_timeout s) v (sr_calls s).
Definition add_sr_calls l s := mkSR (sr_req s) (sr_state s) (sr_conn_timeout s) (sr_wait_timeout s) (sr_timeout s) (sr_calls s ++ l).

Definition SendRequest_with_connector (req : Request) : SendRequest := mkSR req Send_New 1 5 None [].
Definition SendRequest_with_connection (req : Request) (conn : Io) : SendRequest := mkSR req (Send_Connection conn) 1 5 None [].

(** The address of the connector, parsed URIs and timers of so many seconds. *)
Context (send : Connect -> ConnectFut) (uri_of : bytes -> Uri) (new_timer : Z -> Timer).

Definition sr_set_timeout (timeout : Z) (s : SendRequest) : SendRequest := set_sr_timeout (Some (new_timer timeout)) s.
Definition sr_set_conn_timeout (timeout : Z) (s : SendRequest) : SendRequest :=
  mkSR (sr_req s) (sr_state s) timeout (sr_wait_timeout s) (sr_timeout s) (sr_calls s).
Definition sr_set_wait_timeout (timeout : Z) (s : SendRequest) : SendRequest :=
  mkSR (sr_req s) (sr_state s) (sr_conn_timeout s) timeout (sr_timeout s) (sr_calls s).

(** [State::Connection]: the pipeline of a request. *)
Definition start_pipeline (conn : Io) (s : SendRequest) : run (result ClientPipeline IoError * SendRequest) :=
  '(r, req, writer) ← client_start path_and_query date spare (sr_req s) (HttpClientWriter_new []);
  match r with
  | Err e => Ret (Err e, add_sr_calls [Conn_drop conn] (set_sr_req req s))
  | Ok _ =>
      let '(body, req) := cq_replace_body Body_Empty req in
      let body := match body with
                  | Body_Streaming s => IoB_Payload (streams s)
                  | Body_Actor a => IoB_Actor (actors a)
                  | _ => IoB_Done
                  end in
      let timeout := default (new_timer 5) (sr_timeout s) in
      Ret (Ok (mkCLP body (Some conn) writer (Some HttpResponseParser_default) (mkBM [] 0) false None None
                 (cq_response_decompress req) Running (Some timeout) [] []),
           set_sr_timeout None (set_sr_req req s))
  end.

(** [State::Send], behind [poll_write]. *)
Definition send_parse (pl : ClientPipeline) (s : SendRequest) : run (poll ClientResponse SendRequestError * SendRequest) :=
  '(r, pl) ← cl_parse pl;
  match r with
  | Ready resp => Ret (Ready (set_pipeline pl resp), s)
  | NotReady => Ret (NotReady, set_sr_state (Send_Send pl) s)
  | PErr err => Ret (PErr (SRE_ParseError err), add_sr_calls (cl_calls (ClientPipeline_drop pl)) s)
  end.

Fixpoint send_loop (fuel : nat) (s : SendRequest) : run (poll ClientResponse SendRequestError * SendRequest) :=
  match fuel with
  | O => Timeout
  | S fuel =>
      let state := sr_state s in
      let s := set_sr_state Send_None s in
      match state with
      | Send_New =>
          send_loop fuel (set_sr_state (Send_Connect
            (send (mkConnect (uri_of (cq_uri (sr_req s))) (sr_wait_timeout s) (sr_conn_timeout s)))) s)
      | Send_Connect conn =>
          match connect_poll conn with
          | (NotReady, conn) => Ret (NotReady, set_sr_state (Send_Connect conn) s)
          | (Ready (Ok stream), _) => send_loop fuel (set_sr_state (Send_Connection stream) s)
          | (Ready (Err err), _) => Ret (PErr (SendRequestError_from_connector err), s)
          | (PErr _, _) => Ret (PErr (SRE_Connector CCE_Disconnected), s)
          end
      | Send_Connection conn =>
          '(r, s) ← start_pipeline conn s;
          match r with
          | Err e => Ret (PErr (SendRequestError_from_io e), s)
          | Ok pl => send_loop fuel (set_sr_state (Send_Send pl) s)
          end
      | Send_Send pl =>
          '(r, pl) ← poll_write pl;
          match r with
          | PErr e => Ret (PErr (SendRequestError_from_io (io_other (display e))), add_sr_calls (cl_calls (ClientPipeline_drop pl)) s)
          | _ => send_parse pl s
          end
      | Send_None => Panic
      end
  end.
(** Every turn moves to a later state. *)
Definition SendRequest_poll (s : SendRequest) : run (poll ClientResponse SendRequestError * SendRequest) := send_loop 4 s.
End ClientPipelines.
Arguments ClientPipeline : clear implicits.
Arguments ClientResponse : clear implicits.
Arguments SendRequest : clear implicits.
