(* ===== verification/ClientPipelineFacts.v ===== *)
(** * A client gets its response, and gives its connection up once *)
From S2P Require Import Prelude StrLib Errors Http Response Decoder Transfer H1Reader PayloadType SharedBytes ServerHelpers ContentEncoder Pipeline H1Writer Connector ClientParser ClientWriter ClientServer ClientPipeline.
Open Scope Z_scope.

Section Facts.
Context {H : Type} `{HM : HeaderMap H} `{HC : HeaderConv} `{RP : ResponseParsers} {Z' : Type} `{CP : Compressor Z'}
  `{AL : Allocator} {D : Type} `{PS : PayloadStream D}.
Context (display : Error -> string).
Notation Pipe := (ClientPipeline Z' D).
Notation poll_ := (ClientPipeline_poll display).

(** ** Turns of the writing loop *)

(** What writing leaves alone: all of the reading side. *)
Definition reading_same (p p' : Pipe) : Prop :=
  io_reads <$> cl_conn p' = io_reads <$> cl_conn p /\ cl_parser p' = cl_parser p /\ cl_parser_buf p' = cl_parser_buf p /\
  (cl_decompress p' = cl_decompress p /\ cl_should_decompress p' = cl_should_decompress p) /\
  cl_timeout p' = cl_timeout p /\ cl_calls p' = cl_calls p.

Lemma reading_same_trans p1 p2 p3 : reading_same p1 p2 -> reading_same p2 p3 -> reading_same p1 p3.
Proof. unfold reading_same. intuition congruence. Qed.

(** A pipeline that still has a body to write has an encoder to write it with. *)
Definition writable (p : Pipe) : Prop := cl_body p = IoB_Done \/ cw_encoder (cl_writer p) <> CE_Taken.

Lemma client_write_writable m (w : HttpClientWriter Z') :
  cw_encoder w <> CE_Taken -> exists r w', client_write m w = Ret (r, w') /\ cw_encoder w' <> CE_Taken.
Proof.
  intros Hw. unfold client_write. simpl. destruct (negb _); [|by eexists _, _].
  destruct (cw_upgrade w); [by eexists _, _|]. unfold ce_write.
  destruct (cw_encoder w) as [c k|c k|c k|k|]; [| | | |done]; simpl.
  1-3: destruct (cp_write _ c) as [[pieces r] c']; simpl; eexists _, _; (split; [done|]); by destruct r.
  destruct (te_encode _ m) as [r t]. eexists _, _. split; [done|]. by destruct r.
Qed.

(** Turns return; the loop goes on only after the body has answered a poll. *)
Definition turn_spec (p : Pipe) (t : write_turn) : Prop :=
  match t with
  | WT_break done p' => writable p' /\ reading_same p p' /\
      (done = false -> cl_disconnected p' = true \/ (body_left p' < body_left p)%nat)
  | WT_fail _ p' => writable p' /\ reading_same p p'
  | WT_result _ p' => writable p' /\ reading_same p p' /\ cl_drain p' = None /\ (body_left p' < body_left p)%nat
  end.

Lemma client_frames_ok frames res ctx (p p0 : Pipe) :
  cw_encoder (cl_writer p) <> CE_Taken -> cl_body p = IoB_Done -> reading_same p0 p ->
  (length (ctx_script ctx) < body_left p0)%nat -> (res = None -> cl_drain p = None -> frames <> []) ->
  exists t, client_frames frames res ctx p = Ret t /\ turn_spec p0 t.
Proof.
  revert res p. induction frames as [|[[chunk|]|tx] frames IH]; intros res p Hw Hb Hr Hl Hne; cbn [client_frames].
  - cbn [cl_drain set_cl_body]. destruct (cl_drain p) as [tx|] eqn:Hd.
    + eexists. split; [done|]. split; [by right|]. split; [done|]. by right.
    + destruct res as [r|]; [|by destruct (Hne eq_refl eq_refl)]. eexists. split; [done|]. split; [by right|]. by split_and!.
  - destruct (client_write_writable chunk (cl_writer p) Hw) as (r & w & -> & Hw'). cbn [mbind run_bind].
    destruct r as [r|e]; [by apply IH|]. eexists. split; [done|]. split; [by right|done].
  - destruct (client_write_eof _) as [[u|e] w]; eexists; (split; [done|]); simpl; (split; [by left|]); [|done].
    split; [done|]. by left.
  - by apply IH.
Qed.

Lemma client_turn_ok (p : Pipe) :
  writable p -> cl_drain p = None -> exists t, client_turn p = Ret t /\ turn_spec p t.
Proof.
  intros Hw Hd. unfold client_turn, writable in *. destruct (cl_body p) as [[|x s]|ctx|] eqn:Hb.
  - eexists. split; [done|]. split_and!; [|done..]. right. by destruct Hw.
  - destruct Hw as [|Hw]; [done|]. cbn [stream_poll]. destruct x as [[chunk|]| |e].
    + edestruct (client_write_writable (Bin_Bytes chunk)) as (r & w & -> & Hw'); [exact Hw|]. cbn [mbind run_bind].
      destruct r as [r|e]; (eexists; split; [done|]); (split; [by right|]); [|done].
      split_and!; [done..|]. unfold body_left. rewrite Hb. simpl. lia.
    + destruct (client_write_eof _) as [[u|e] w]; eexists; (split; [done|]); (split; [by left|]); [|done].
      split; [done|]. by left.
    + eexists. split; [done|]. split_and!; [by right|done..].
    + eexists. split; [done|]. by split; [left|].
  - destruct Hw as [|Hw]; [done|]. cbn [cl_disconnected set_cl_body]. set (c := if cl_disconnected p then ctx_disconnected ctx else ctx).
    assert (ctx_script c = ctx_script ctx) as Hc by (unfold c; by destruct (cl_disconnected p)).
    unfold ctx_poll. rewrite Hc. destruct (ctx_script ctx) as [|x s] eqn:Hs.
    { eexists. split; [done|]. split_and!; [by right|done..]. }
    assert (length s < body_left p)%nat as Hlt by (unfold body_left; rewrite Hb, Hs; simpl; lia).
    destruct x as [[[|f fs]|]| |e].
    + eexists. split; [done|]. split_and!; [by right|done|]. by right.
    + apply client_frames_ok; by auto.
    + eexists. split; [done|]. split_and!; [by left|done..].
    + eexists. split; [done|]. split_and!; [by right|done..].
    + eexists. split; [done|]. by split; [left|].
  - eexists. split; [done|]. split_and!; [by left|done..].
Qed.

Lemma client_turns_ok fuel (p : Pipe) :
  writable p -> cl_drain p = None -> (body_left p < fuel)%nat ->
  exists r p', client_turns fuel p = Ret (r, p') /\ writable p' /\ reading_same p p' /\
    (r = Ok false -> cl_disconnected p' = true \/ (body_left p' < body_left p)%nat).
Proof.
  revert p. induction fuel as [|fuel IH]; intros p Hw Hd Hf; [lia|]. cbn [client_turns].
  destruct (client_turn_ok p Hw Hd) as (t & -> & Ht). cbn [mbind run_bind].
  destruct t as [done p'|e p'|[] p']; simpl in Ht.
  - destruct Ht as (? & ? & Hdn). do 2 eexists. split; [reflexivity|]. split_and!; [done..|]. by intros [= ->]; apply Hdn.
  - destruct Ht. do 2 eexists. by split_and!.
  - destruct Ht as (Hw' & Hs & Hd' & Hlt).
    edestruct (IH (set_cl_write_state (resume (cl_write_state p')) p')) as (r & p2 & -> & Hw2 & Hs2 & Hr2);
      [exact Hw'|exact Hd'|unfold body_left in *; simpl; lia|].
    do 2 eexists. split; [done|]. split; [done|]. split; [by eapply reading_same_trans|].
    intros [?|?]%Hr2; [by left|right]. unfold body_left in *. simpl in *. lia.
  - destruct Ht as (Hw' & Hs & _ & Hlt). do 2 eexists. split; [done|]. split_and!; [exact Hw'|exact Hs|]. by right.
Qed.

(** ** [poll_write] returns *)

Lemma write_to_stream_total fuel (w : HttpClientWriter Z') stream :
  (length (cw_buffer w) < fuel)%nat ->
  exists r w' stream', write_to_stream fuel w stream = Ret (r, w', stream') /\
    cw_encoder w' = cw_encoder w /\ io_reads stream' = io_reads stream.
Proof.
  revert w stream. induction fuel as [|fuel IH]; intros w stream Hf; [lia|]. cbn [write_to_stream].
  case_bool_decide as Hb; [by do 3 eexists|].
  assert (exists r stream1, io_write (cw_buffer w) stream = (r, stream1) /\ io_reads stream1 = io_reads stream /\
    forall n, r = Ok n -> 0 <= n <= lenZ (cw_buffer w)) as (r & stream1 & -> & Hr1 & Hn).
  { unfold io_write. pose proof (lenZ_nonneg (cw_buffer w)).
    destruct (io_writes stream) as [|[n|e] ws]; do 2 eexists; (split; [done|]); (split; [done|]); intros n0 [= <-]; lia. }
  destruct r as [n|e].
  - specialize (Hn n eq_refl). destruct n as [|n|n]; [by do 3 eexists| |lia].
    unfold split_to. cbn [bm_data]. rewrite (proj2 (Z.leb_le _ _)) by lia. cbn [mbind run_bind bm_data].
    edestruct (IH (set_cw_buffer (dropZ (Zpos n) (cw_buffer w)) w) stream1) as (r & w' & s' & -> & He & Hr);
      [simpl; unfold dropZ, lenZ in *; rewrite length_drop; lia|].
    do 3 eexists. split; [done|]. split; [done|congruence].
  - destruct (decide _); by do 3 eexists.
Qed.

Lemma client_poll_total (w : HttpClientWriter Z') stream :
  exists r w' stream', client_poll_completed false w stream = Ret (r, w', stream') /\
    cw_encoder w' = cw_encoder w /\ io_reads stream' = io_reads stream.
Proof.
  unfold client_poll_completed.
  destruct (write_to_stream_total (S (length (cw_buffer w))) w stream) as (r & w' & s' & -> & He & Hr); [lia|].
  cbn [mbind run_bind]. destruct r as [[]|e]; by do 3 eexists.
Qed.

Definition write_weight (p : Pipe) : nat :=
  if decide (cl_write_state p = RDone) then 1
  else body_left p + (if bool_decide (cl_drain p = None) && negb (bool_decide (cl_write_state p = Paused)) then 2 else 3).

Lemma poll_write_fuel_ok fuel (p : Pipe) :
  writable p -> (write_weight p <= fuel)%nat ->
  exists r p', poll_write_fuel fuel p = Ret (r, p') /\ writable p' /\ reading_same p p' /\
    (r = Ready tt -> cl_conn p' = None \/ cl_write_state p' = RDone).
Proof.
  revert p. induction fuel as [|fuel IH]; intros p Hw Hf.
  { unfold write_weight in Hf. destruct (decide _); [lia|]. destruct (_ && _); lia. }
  cbn [poll_write_fuel]. destruct (cl_conn p) as [io|] eqn:Hconn.
  2: { do 2 eexists. split; [done|]. split_and!; try done. by left. }
  destruct (decide (cl_write_state p = RDone)) as [Hst|Hst]; [do 2 eexists; by split_and!; eauto|].
  set (go := bool_decide (cl_drain p = None) && negb (bool_decide (cl_write_state p = Paused))) in *.
  assert (exists r p1, (if go then client_turns (S (body_left p)) p else Ret (Ok false, p)) = Ret (r, p1) /\
    writable p1 /\ reading_same p p1 /\
    (r = Ok false -> cl_disconnected p1 = true \/ (body_left p1 + 2 < write_weight p)%nat)) as (r & p1 & -> & Hw1 & Hs1 & Hr1).
  { unfold write_weight. rewrite decide_False by done. fold go. destruct go eqn:Hgo.
    - unfold go in Hgo. apply andb_true_iff in Hgo as [Hd%bool_decide_eq_true _].
      destruct (client_turns_ok (S (body_left p)) p Hw Hd) as (r & p1 & -> & ? & ? & Hr); [lia|].
      do 2 eexists. split_and!; [done..|]. intros [?|?]%Hr; [by left|right; lia].
    - do 2 eexists. split_and!; [done..|]. right. lia. }
  cbn [mbind run_bind]. destruct r as [done|e]; [|by do 2 eexists].
  assert (is_Some (cl_conn p1)) as [io1 Hio1].
  { destruct Hs1 as [Hc _]. rewrite Hconn in Hc. destruct (cl_conn p1); [by eexists|done]. }
  rewrite Hio1. cbn [unwrap mbind run_bind].
  destruct (client_poll_total (cl_writer p1) io1) as (r & w & io2 & -> & He & Hrd). cbn [mbind run_bind].
  set (p2 := set_cl_conn (Some io2) (set_cl_writer w p1)).
  assert (writable p2) as Hw2 by (destruct Hw1 as [?|Ht]; [by left|right; simpl; congruence]).
  assert (reading_same p p2) as Hs2.
  { eapply reading_same_trans; [exact Hs1|]. split_and!; try done. simpl. by rewrite Hio1; simpl; rewrite Hrd. }
  destruct r as [u| |e]; [|by do 2 eexists..].
  set (p3 := if cl_disconnected p2 then set_cl_write_state RDone p2 else set_cl_write_state (resume (cl_write_state p2)) p2).
  set (p4 := match cl_drain p3 with Some tx => add_cl_drained tx (set_cl_drain None p3) | None => p3 end).
  assert (cl_write_state p4 = (if cl_disconnected p1 then RDone else resume (cl_write_state p1)) /\ cl_drain p4 = None /\
    cl_body p4 = cl_body p1 /\ writable p4 /\ reading_same p2 p4) as (H1 & H2 & H3 & Hw4 & Hs4).
  { unfold p4, p3. change (cl_disconnected p2) with (cl_disconnected p1). destruct (cl_disconnected p1); simpl;
      destruct (cl_drain p1) eqn:Hd; by split_and!. }
  assert (reading_same p p4) as Hs by by eapply reading_same_trans.
  destruct (negb done || _) eqn:Hgo2; [|by do 2 eexists].
  destruct (IH p4 Hw4) as (r & p' & -> & Hw' & Hs' & Hr').
  - unfold write_weight. rewrite H2. rewrite bool_decide_true by done. simpl. destruct (decide (cl_write_state p4 = RDone)) as [|Hst4].
    { unfold write_weight in Hf. rewrite decide_False in Hf by done. destruct (_ && _) in Hf; lia. }
    rewrite (bool_decide_false (_ = RDone)), orb_false_r, negb_true_iff in Hgo2 by done. subst done.
    destruct (Hr1 eq_refl) as [Hdc|Hlt]; [by rewrite Hdc in H1|].
    assert (body_left p4 = body_left p1) as -> by (unfold body_left; by rewrite H3).
    assert (cl_write_state p4 <> Paused) as Hnp.
    { rewrite H1. destruct (cl_disconnected p1); [done|]. unfold resume. by destruct (decide _) as [->|]. }
    rewrite bool_decide_false by done. simpl. lia.
  - do 2 eexists. split; [done|]. split_and!; [done|by eapply reading_same_trans|done].
Qed.

(** ** [poll] returns, and settles the connection once *)

Lemma read_into_left io buf r io' buf' :
  read_into io buf = (r, io', buf') ->
  (length (bm_data buf') + reads_left io' <= length (bm_data buf) + reads_left io)%nat.
Proof.
  unfold read_into. destruct (reserved_spare buf) as [Hs Hd].
  set (b := if bm_spare buf <? LW_BUFFER_SIZE then reserve HW_BUFFER_SIZE buf else buf) in *. clearbody b.
  destruct io as [|[data|e] io]; intros Hr.
  - simplify_eq. by rewrite Hd.
  - injection Hr as <- <- <-. cbn [bm_data]. rewrite Hd, length_app. set (n := Z.min _ _).
    assert (0 <= n <= lenZ data) as Hn by (unfold n, LW_BUFFER_SIZE in *; pose proof (lenZ_nonneg data); lia).
    assert (length (takeZ n data) = Z.to_nat n) as ->.
    { unfold takeZ. rewrite length_take. unfold lenZ in Hn. lia. }
    destruct (Z.ltb_spec n (lenZ data)); unfold reads_left; cbn [sum_list_with].
    + unfold dropZ, lenZ in *. rewrite length_drop. lia.
    + unfold lenZ in *. lia.
  - unfold reads_left. destruct (decide _); simplify_eq; rewrite Hd; cbn [sum_list_with]; lia.
Qed.

Lemma payload_turns_left fuel k io buf r self' io' buf' :
  kind_wf k -> payload_turns fuel k io buf = Ret (r, self', io', buf') ->
  parser_wf self' /\
  forall b, r = Ready (Some b) ->
    (length (bm_data buf') + reads_left io' < length (bm_data buf) + reads_left io)%nat.
Proof.
  revert k io buf. induction fuel as [|fuel IH]; intros k io buf Hwf; [done|]. cbn [payload_turns].
  destruct (read_into io buf) as [[rd io1] buf1] eqn:Hrd. apply read_into_left in Hrd.
  destruct (decode_sound_ok k (bm_data buf1) Hwf) as ([[d k'] rest] & Hdec & Hs). rewrite Hdec.
  assert (kind_wf k') as Hwf'.
  { destruct d as [[b|]| |e]; [by apply Hs|by eapply body_spec_wf..]. }
  assert (forall k, kind_wf k -> parser_wf (mkHRP (Some k))) as Hp by (intros k0 ? ? [= <-]; done).
  assert (forall nr sf : bool, match d with
    | Ready (Some b) => Ret (Ready (Some b), mkHRP (Some k'), io1, mkBM rest (bm_spare buf1))
    | Ready None => Ret (Ready None, mkHRP None, io1, mkBM rest (bm_spare buf1))
    | NotReady => if nr then Ret (NotReady, mkHRP (Some k'), io1, mkBM rest (bm_spare buf1))
                  else if sf then Ret (PErr PE_Incomplete, mkHRP (Some k'), io1, mkBM rest (bm_spare buf1))
                  else payload_turns fuel k' io1 (mkBM rest (bm_spare buf1))
    | PErr e => Ret (PErr (PayloadError_from_io e), mkHRP (Some k'), io1, mkBM rest (bm_spare buf1))
    end = Ret (r, self', io', buf') -> parser_wf self' /\
    forall b, r = Ready (Some b) ->
      (length (bm_data buf') + reads_left io' < length (bm_data buf) + reads_left io)%nat) as Hgo.
  { intros nr sf. destruct d as [[b|]| |e]; [intros [= <- <- <- <-]..| |intros [= <- <- <- <-]]; try (by split; auto).
    - destruct Hs as (_ & Hl & _). split; [by apply Hp|]. intros ? _. simpl. lia.
    - destruct nr; [intros [= <- <- <- <-]; by split; auto|]. destruct sf; [intros [= <- <- <- <-]; by split; auto|].
      intros Hr. destruct (IH _ _ _ Hwf' Hr) as [? Hl]. split; [done|]. intros b Hb. specialize (Hl b Hb). simpl in Hl.
      destruct (body_spec_more _ _ _ _ _ Hwf Hs) as (Hr1 & _). rewrite Hr1 in Hl. simpl in Hl. lia. }
  destruct rd as [n| |e]; [destruct n| |]; cbn [mbind run_bind];
    [apply (Hgo false true)|apply (Hgo false false)..|apply (Hgo true false)|].
  intros [= <- <- <- <-]. by split; auto.
Qed.

Lemma parse_payload_ok self io buf :
  parser_wf self ->
  exists r self' io' buf', parse_payload self io buf = Ret (r, self', io', buf') /\ parser_wf self' /\
    forall b, r = Ready (Some b) ->
      (length (bm_data buf') + reads_left io' < length (bm_data buf) + reads_left io)%nat.
Proof.
  intros Hwf. unfold parse_payload. destruct (hrp_decoder self) as [k|] eqn:Hk; [|by do 4 eexists].
  destruct (payload_turns_total (S (reads_left io)) k io buf) as (r & self' & io' & buf' & Hr & _); [by apply Hwf|lia|].
  do 4 eexists. split; [done|]. eapply payload_turns_left; [|done]. by apply Hwf.
Qed.

(** A pipeline that can be polled: while it has a connection, none of its calls has ended
    it and what it reads with is sound; after that exactly one has. *)
Definition pipe_ok (p : Pipe) : Prop :=
  writable p /\ (forall parser, cl_parser p = Some parser -> parser_wf parser) /\
  match cl_conn p with Some _ => cl_calls p = [] | None => exists conn, cl_calls p = [Conn_release conn] end.

Lemma pipe_ok_reading (p p' : Pipe) : pipe_ok p -> writable p' -> reading_same p p' -> pipe_ok p'.
Proof.
  intros (_ & Hp & Hc) Hw (H1 & H2 & _ & _ & _ & H6). split; [done|]. rewrite H2, H6. split; [done|].
  by destruct (cl_conn p), (cl_conn p').
Qed.

Lemma read_loop_ok fuel (p : Pipe) :
  pipe_ok p -> is_Some (cl_conn p) -> is_Some (cl_parser p) -> (read_fuel p <= fuel)%nat ->
  exists r p', read_loop fuel p = Ret (r, p') /\ pipe_ok p' /\ is_Some (cl_conn p') /\
    (r = None -> cl_parser p' = None) /\ r <> Some (Ready None).
Proof.
  revert p. induction fuel as [|fuel IH]; intros p Hok [io Hio] [parser Hparser] Hf; [unfold read_fuel in Hf; lia|].
  cbn [read_loop]. rewrite Hparser, Hio. cbn [unwrap mbind run_bind]. pose proof Hok as (Hw & Hp & Hc).
  destruct (parse_payload_ok parser (io_reads io) (cl_parser_buf p)) as (r & parser' & reads & buf & -> & Hwf & Hlt);
    [by apply Hp|]. cbn [mbind run_bind]. set (p1 := set_cl_conn (Some (set_io_reads reads io)) _).
  assert (pipe_ok p1) as Hok1.
  { split_and!; [exact Hw|by intros ? [= <-]|]. simpl. by rewrite Hio in Hc. }
  destruct r as [[b|]| |e].
  - destruct (cl_decompress p1) as [d|]; [|do 2 eexists; by split_and!; eauto].
    destruct (ps_feed_data b d) as [[[b'|]|e] d']; [do 2 eexists; by split_and!; eauto..|].
    destruct (decide (io_kind e = WouldBlock)); [|do 2 eexists; by split_and!; eauto].
    apply IH; [done|by eexists..|]. specialize (Hlt b eq_refl). unfold read_fuel in *. rewrite Hio in Hf. simpl. lia.
  - destruct Hok1 as (? & ? & ?). do 2 eexists. by split_and!; eauto.
  - do 2 eexists. by split_and!; eauto.
  - do 2 eexists. by split_and!; eauto.
Qed.

Lemma release_ok (p : Pipe) :
  pipe_ok p -> is_Some (cl_conn p) -> pipe_ok (release_conn p) /\ cl_conn (release_conn p) = None /\
    cl_parser (release_conn p) = cl_parser p.
Proof.
  intros (Hw & Hp & Hc) [io Hio]. unfold release_conn. rewrite Hio. rewrite Hio in Hc. split_and!; try done.
  split_and!; [exact Hw|exact Hp|]. simpl. rewrite Hc. by eexists.
Qed.

(** What a poll comes to: the connection is given back only once the body of the response
    has come to its end. *)
Definition poll_spec (p : Pipe) (r : poll (option bytes) PayloadError) (p' : Pipe) : Prop :=
  pipe_ok p' /\
  match cl_conn p, cl_conn p' with
  | None, _ => p' = p /\ r = Ready None
  | Some _, None => cl_parser p' = None /\ exists b, r = Ready b
  | Some _, Some _ => r <> Ready None
  end.

Lemma client_poll_ok_step (p : Pipe) : pipe_ok p -> exists r p', poll_ p = Ret (r, p') /\ poll_spec p r p'.
Proof.
  intros Hok. unfold ClientPipeline_poll, poll_spec. destruct (cl_conn p) as [io|] eqn:Hio; [|by do 2 eexists].
  pose proof Hok as (Hw & _). destruct (poll_write_fuel_ok (3 + body_left p) p Hw) as (r & p1 & Hp1 & Hw1 & Hs1 & _).
  { unfold write_weight. destruct (decide _); [lia|]. destruct (_ && _); lia. }
  unfold poll_write. rewrite Hp1. cbn [mbind run_bind]. assert (pipe_ok p1) as Hok1 by by eapply pipe_ok_reading.
  assert (is_Some (cl_conn p1)) as Hc1.
  { destruct Hs1 as [Hc _]. rewrite Hio in Hc. destruct (cl_conn p1); [by eexists|done]. }
  assert (exists e p2, need_run display r p1 = (e, p2) /\ pipe_ok p2 /\ is_Some (cl_conn p2)) as (res & p2 & -> & Hok2 & Hc2).
  { unfold need_run, cl_poll_timeout. destruct r as [u| |e]; [|by do 2 eexists..].
    destruct (cl_timeout p1) as [[[|n]|]|]; by do 2 eexists. }
  destruct res as [need_run|e]; [|destruct Hc2 as [io2 Hio2]; do 2 eexists; by rewrite Hio2].
  assert (exists r p3, match cl_parser p2 with Some _ => read_loop (read_fuel p2) p2 | None => Ret (None, p2) end = Ret (r, p3) /\
    pipe_ok p3 /\ is_Some (cl_conn p3) /\ (r = None -> cl_parser p3 = None) /\ r <> Some (Ready None))
    as (r3 & p3 & -> & Hok3 & Hc3 & Hp3 & Hr3).
  { destruct (cl_parser p2) eqn:Hp2; [|by do 2 eexists]. apply read_loop_ok; by eauto. }
  cbn [mbind run_bind]. destruct r3 as [r3|].
  { destruct Hc3 as [io3 Hio3]. do 2 eexists. rewrite Hio3. split_and!; [done..|congruence]. }
  specialize (Hp3 eq_refl). unfold poll_end. set (p4 := set_cl_decompress None p3).
  assert (pipe_ok p4) as Hok4 by exact Hok3. destruct (release_ok p4 Hok4 Hc3) as (Hrok & Hrn & Hrp).
  destruct (match cl_decompress p3 with Some d => (ps_feed_eof d).1 | None => Ok None end) as [[b|]|e].
  - do 2 eexists. split; [done|]. rewrite Hrn, Hrp. split_and!; [done..|by eexists].
  - destruct need_run; do 2 eexists; (split; [done|]).
    + destruct Hc3 as [io3 Hio3]. change (cl_conn p4) with (cl_conn p3). by rewrite Hio3.
    + rewrite Hrn, Hrp. split_and!; [done..|by eexists].
  - destruct Hc3 as [io3 Hio3]. do 2 eexists. split; [done|]. change (cl_conn p4) with (cl_conn p3). by rewrite Hio3.
Qed.

(** Polls of a body, and the response dropped behind them. *)
Fixpoint body_polls (n : nat) (p : Pipe) : run (list (poll (option bytes) PayloadError) * Pipe) :=
  match n with
  | O => Ret ([], p)
  | S n => '(r, p) ← poll_ p; '(rs, p) ← body_polls n p; Ret (r :: rs, p)
  end.

Lemma body_polls_ok n (p : Pipe) :
  pipe_ok p ->
  exists rs p', body_polls n p = Ret (rs, p') /\ pipe_ok p' /\
    (cl_conn p = None -> p' = p /\ rs = replicate n (Ready None)) /\
    (is_Some (cl_conn p) -> cl_conn p' = None -> cl_parser p' = None) /\
    (Ready None ∈ rs -> cl_conn p' = None).
Proof.
  revert p. induction n as [|n IH]; intros p Hok; cbn [body_polls].
  { eexists [], p. split_and!; try done; [intros [? ->]; done|set_solver]. }
  destruct (client_poll_ok_step p Hok) as (r & p1 & -> & Hok1 & Hr). cbn [mbind run_bind].
  destruct (IH p1 Hok1) as (rs & p' & -> & Hok' & Hn & Hs & He). cbn [mbind run_bind].
  eexists _, p'. split; [done|]. split; [done|].
  destruct (cl_conn p) as [io|] eqn:Hio; [destruct (cl_conn p1) as [io1|] eqn:Hio1|].
  - split_and!; [done|intros _; apply Hs; by eexists|]. intros [Hx|?]%elem_of_cons; [by subst|auto].
  - destruct (Hn eq_refl) as [-> ->], Hr as [? _]. by split_and!.
  - destruct Hr as [-> ->]. destruct (Hn Hio) as [-> ->]. split_and!; [done| |done]. by intros [? ?].
Qed.

(** C15. A connection is given up once: however a response is polled, no poll panics or hangs;
    as long as the end of the response has not been read the connection is kept, and
    closed if the response is dropped; it is given back to its pool at most once, only
    behind the end of the response, and then every later poll answers the end. *)
Theorem connection_settled (p : Pipe) (n m : nat) :
  pipe_ok p -> is_Some (cl_conn p) ->
  exists rs p1 rs2 p2, body_polls n p = Ret (rs, p1) /\ body_polls m p1 = Ret (rs2, p2) /\
    (exists conn, cl_calls (ClientPipeline_drop p1) = [Conn_close conn] \/
     cl_calls (ClientPipeline_drop p1) = [Conn_release conn] /\ cl_parser p1 = None /\
     p2 = p1 /\ rs2 = replicate m (Ready None)) /\
    (Ready None ∈ rs -> exists conn, cl_calls p1 = [Conn_release conn]).
Proof.
  intros Hok Hc.
  destruct (body_polls_ok n p Hok) as (rs & p1 & Hr1 & Hok1 & _ & Hs1 & He1).
  destruct (body_polls_ok m p1 Hok1) as (rs2 & p2 & Hr2 & _ & Hn2 & _ & _).
  exists rs, p1, rs2, p2. split_and!; [done..| |].
  - destruct Hok1 as (_ & _ & Hcalls). unfold ClientPipeline_drop. destruct (cl_conn p1) as [io|].
    + exists io. left. simpl. by rewrite Hcalls.
    + destruct Hcalls as [conn Hcalls]. exists conn. right. destruct (Hn2 eq_refl) as [-> ->]. by split_and!; auto.
  - intros Hin%He1. destruct Hok1 as (_ & _ & Hcalls). by rewrite Hin in Hcalls.
Qed.
End Facts.

(** ** Witness *)
#[export] Instance plain_stream : PayloadStream unit :=
  {| ps_new _ := tt; ps_feed_data b d := (Ok (Some b), d); ps_feed_eof d := (Ok None, d) |}.
Definition show_error (_ : Error) : string := "error".

Definition reading_pipeline : ClientPipeline unit unit :=
  mkCLP (IoB_Payload [Ready (Some (b#"data")); NotReady; Ready None]) (Some (mkIo [Ok ((b#"5") ++ CRLF ++ (b#"hello") ++ CRLF ++ (b#"0") ++ CRLF ++ CRLF)] [Ok 7; Ok 100; Ok 100] [] [] false))
    (set_cw_capacity 10 (HttpClientWriter_new (b#"PUT"))) (Some (mkHRP (Some Decoder_chunked))) (mkBM [] 0) false None None true Running (Some None) [] [].
Lemma connection_settled_witness :
  exists rs p1 rs2 p2, body_polls (CP := stored) (AL := exact_alloc) show_error 9 reading_pipeline = Ret (rs, p1) /\
    body_polls (CP := stored) (AL := exact_alloc) show_error 2 p1 = Ret (rs2, p2) /\
    (exists conn, cl_calls (ClientPipeline_drop p1) = [Conn_close conn] \/
     cl_calls (ClientPipeline_drop p1) = [Conn_release conn] /\ cl_parser p1 = None /\
     p2 = p1 /\ rs2 = replicate 2 (Ready None)) /\
    (Ready None ∈ rs -> exists conn, cl_calls p1 = [Conn_release conn]).
Proof.
  apply (connection_settled (CP := stored) (AL := exact_alloc) show_error reading_pipeline 9 2).
  - split; [by right|]. split; [|done]. intros parser [= <-] k [= <-]. done.
  - by eexists.
Defined.
