(* ===== verification/ClientExchange.v ===== *)
(** * A request goes out while its response comes in *)
From S2P Require Import Prelude StrLib Errors Http Response Decoder Transfer H1Reader PayloadType SharedBytes ServerHelpers ContentEncoder Pipeline H1Writer Connector ClientParser ClientWriter ClientServer ClientPipeline ClientPipelineFacts.
Open Scope Z_scope.

(** The chunks that a stream gives before its end, and that it comes to its end. *)
Fixpoint script_chunks (s : BodyStream) : list Binary :=
  match s with
  | Ready (Some b) :: s => Bin_Bytes b :: script_chunks s
  | NotReady :: s => script_chunks s
  | _ => []
  end.
Fixpoint script_ends (s : BodyStream) : bool :=
  match s with
  | Ready (Some _) :: s | NotReady :: s => script_ends s
  | Ready None :: _ => true
  | _ => false
  end.

(** ** What is encoded grows *)
Lemma te_encode_all_app t a b : te_encode_all t (a ++ b) = te_encode_all (te_encode_all t a) b.
Proof. unfold te_encode_all. apply foldl_app. Qed.

Lemma encode_all_grows t ms : te_buffer t `prefix_of` te_buffer (te_encode_all t ms).
Proof.
  destruct t as [k b]. replace b with (b ++ []) at 2 by apply app_nil_r. rewrite te_encode_all_prefix. by eexists.
Qed.
Lemma encode_eof_grows t : te_buffer t `prefix_of` te_buffer (te_encode_eof t).
Proof.
  destruct t as [k b]. replace b with (b ++ []) at 2 by apply app_nil_r. rewrite te_encode_eof_prefix. by eexists.
Qed.

Section Sending.
Context {H : Type} `{HM : HeaderMap H} `{HC : HeaderConv} `{RP : ResponseParsers} {Z' : Type} `{CP : Compressor Z'}
  `{AL : Allocator} {D : Type} `{PS : PayloadStream D}.
Context (display : Error -> string).
Notation Pipe := (ClientPipeline Z' D).
Notation poll_ := (ClientPipeline_poll display).

(** The bytes of a request: its head [base] and the chunks [all], in the framing [k]. *)
Context (base : bytes) (k : TransferEncodingKind) (all : list Binary).
Definition request_bytes : bytes := base ++ encoded k all.
Hypothesis Hend : te_is_eof (te_encode_eof (te_encode_all (mkTE k []) all)) = true.

(** A pipeline on its way: what is sent and buffered, and what its body still gives, make
    up the request. *)
Definition sending (p : Pipe) (io : Io) : Prop :=
  cl_conn p = Some io /\ accepting io /\ cl_drain p = None /\
  cw_upgrade (cl_writer p) = false /\ cw_disconnected (cl_writer p) = false /\
  match cl_body p with
  | IoB_Payload s =>
      script_ends s = true /\ cl_disconnected p = false /\ cl_write_state p <> RDone /\
      exists sent k' enc, all = sent ++ script_chunks s /\ te_encode_all (mkTE k []) sent = mkTE k' enc /\
        cw_encoder (cl_writer p) = CE_Identity k' /\ cw_out (cl_writer p) io = base ++ enc
  | IoB_Actor _ => False
  | IoB_Done => cl_disconnected p = true /\ cw_out (cl_writer p) io = request_bytes
  end.

Lemma sending_writable p io : sending p io -> writable p.
Proof.
  intros (_ & _ & _ & _ & _ & Hb). unfold writable. destruct (cl_body p); [|done|by left].
  destruct Hb as (_ & _ & _ & ? & ? & ? & _ & _ & -> & _). by right.
Qed.

Lemma sending_prefix p io : sending p io -> cw_out (cl_writer p) io `prefix_of` request_bytes.
Proof.
  intros (_ & _ & _ & _ & _ & Hb). destruct (cl_body p); [|done|by destruct Hb as [_ ->]].
  destruct Hb as (_ & _ & _ & sent & k' & enc & Hall & He & _ & ->). apply prefix_app. unfold encoded.
  rewrite Hall, te_encode_all_app, He. etrans; [|apply encode_eof_grows]. apply (encode_all_grows (mkTE k' enc)).
Qed.

Lemma encode_one k' enc m :
  te_encode_all (mkTE k' enc) [m] =
  mkTE (te_kind (te_encode (mkTE k' []) m).2) (enc ++ te_buffer (te_encode (mkTE k' []) m).2).
Proof.
  unfold te_encode_all. simpl. pose proof (te_encode_prefix k' enc [] m) as Hp. rewrite app_nil_r in Hp. rewrite Hp.
  by destruct (te_encode (mkTE k' []) m).
Qed.

Lemma encode_eof_split t :
  te_is_eof (te_encode_eof t) = te_is_eof (te_encode_eof (mkTE (te_kind t) [])) /\
  te_buffer (te_encode_eof t) = te_buffer t ++ te_buffer (te_encode_eof (mkTE (te_kind t) [])).
Proof.
  destruct t as [k' b]. pose proof (te_encode_eof_prefix k' b []) as Hp. rewrite app_nil_r in Hp. rewrite Hp. by split.
Qed.

Lemma sending_turn p io :
  sending p io ->
  exists t, client_turn p = Ret t /\
    match t with
    | WT_break done p' => sending p' io /\ (body_left p' <= body_left p)%nat /\
        (done = true -> cl_disconnected p' = true \/ (body_left p' < body_left p)%nat)
    | WT_fail _ _ => False
    | WT_result _ p' => sending p' io /\ cl_disconnected p' = false
    end.
Proof.
  intros (Hc & Ha & Hd & Hup & Hdc & Hb). unfold client_turn. destruct (cl_body p) as [s|ctx|] eqn:Hbody; [|done|].
  2: { destruct Hb as [Hdis Hout]. eexists. split; [done|]. split; [by split_and!|]. split; [unfold body_left; simpl; lia|by left]. }
  destruct Hb as (He & Hdis & Hst & sent & k' & enc & Hall & Henc & Hce & Hout).
  destruct s as [|[[b|]| |e] s]; cbn [stream_poll script_ends script_chunks] in *; [done| | | |done].
  - edestruct (client_write_identity (Bin_Bytes b) (cl_writer p)) as (r & w & Hw & Hup' & Hdc' & He' & Hb'); [done..|].
    cbn [cl_writer set_cl_body]. rewrite Hw. cbn [mbind run_bind]. eexists. split; [done|]. split; [|done].
    split_and!; try done. simpl. split_and!; try done.
    exists (sent ++ [Bin_Bytes b]). do 2 eexists. rewrite <-app_assoc, te_encode_all_app, Henc, encode_one.
    split_and!; [done|reflexivity|exact He'|]. unfold cw_out in *. rewrite Hb', app_assoc, Hout. by rewrite app_assoc.
  - destruct (client_write_eof_identity (cl_writer p) k' Hce) as (w & Hw & Hup' & Hdc' & He' & Hb' & _).
    cbn [cl_writer set_cl_body]. rewrite Hw. rewrite app_nil_r in Hall. subst sent.
    destruct (encode_eof_split (te_encode_all (mkTE k []) all)) as [Heof Hbuf]. rewrite Hend, Henc in Heof. cbn [te_kind] in Heof.
    rewrite <-Heof. eexists. split; [done|]. split; [|split; [unfold body_left; simpl; lia|by left]]. split_and!; try done; simpl; [congruence..|].
    split; [done|]. unfold cw_out, request_bytes, encoded in *. rewrite Hb', app_assoc, Hout, Hbuf, Henc. by rewrite app_assoc.
  - eexists. split; [done|]. split; [|unfold body_left; rewrite Hbody; simpl; split; [lia|intros _; right; lia]].
    split_and!; try done. split_and!; try done. by exists sent, k', enc.
Qed.

Lemma sending_state p io st :
  sending p io -> cl_disconnected p = false -> st <> RDone -> sending (set_cl_write_state st p) io.
Proof.
  intros (? & ? & ? & ? & ? & Hb) Hdis Hst. split_and!; try done. simpl. destruct (cl_body p); [|done..].
  destruct Hb as (? & ? & ? & ?). by split_and!.
Qed.

Lemma not_done r : r <> RDone -> resume r <> RDone /\ pause r <> RDone.
Proof. unfold resume, pause. by destruct (decide _). Qed.

Lemma sending_running p io : sending p io -> cl_disconnected p = false -> cl_write_state p <> RDone.
Proof. intros (? & ? & ? & ? & ? & Hb) Hdis. destruct (cl_body p); [by apply Hb|done|]. destruct Hb. congruence. Qed.

Lemma sending_turns fuel p io r p' :
  sending p io -> client_turns fuel p = Ret (r, p') ->
  sending p' io /\ (body_left p' <= body_left p)%nat /\ exists dn, r = Ok dn /\
    (dn = true -> cl_disconnected p' = true \/ (body_left p' < body_left p)%nat).
Proof.
  revert p. induction fuel as [|fuel IH]; intros p Hs; [done|]. cbn [client_turns].
  destruct (sending_turn p io Hs) as (t & Ht & Hspec).
  destruct (client_turn_ok p) as (t' & Ht' & Hleft); [by eapply sending_writable|by apply Hs|].
  rewrite Ht in Ht'. injection Ht' as <-. rewrite Ht. cbn [mbind run_bind].
  destruct t as [dn p1|e p1|[] p1]; [|done|..].
  - intros [= <- <-]. destruct Hspec as (? & ? & ?). split_and!; [done..|]. by eexists.
  - destruct Hspec as [Hs1 Hd1], Hleft as (_ & _ & _ & Hlt). intros Hr.
    apply IH in Hr as (Hs' & Hle & dn & -> & Hdn).
    2: { apply sending_state; [done..|]. apply not_done. by eapply sending_running. }
    split; [done|]. unfold body_left in *. simpl in *. split; [lia|]. exists dn. split; [done|].
    intros [?|?]%Hdn; [by left|right; lia].
  - intros [= <- <-]. destruct Hspec as [Hs1 Hd1], Hleft as (_ & _ & _ & Hlt). split; [|split; [unfold body_left in *; simpl; lia|by exists false]].
    apply sending_state; [done..|]. apply not_done. by eapply sending_running.
Qed.

(** ** Flushing *)

(** The connection takes at least a byte with each of its next writes, and there are
    writes for all bytes of the request. *)
Definition plentiful (io : Io) : Prop :=
  Forall (fun r => exists n, r = Ok n /\ 0 < n) (io_writes io) /\
  lenZ request_bytes <= lenZ (io_sent io) + lenZ (io_writes io).

Lemma write_all fuel (w : HttpClientWriter Z') io :
  (length (cw_buffer w) < fuel)%nat -> plentiful io -> cw_out w io `prefix_of` request_bytes ->
  exists w' io', write_to_stream fuel w io = Ret (Ok WS_Done, w', io') /\ cw_buffer w' = [] /\ plentiful io'.
Proof.
  revert w io. induction fuel as [|fuel IH]; intros w io Hf Hpl Hpre; [lia|]. cbn [write_to_stream].
  case_bool_decide as Hb; [by do 2 eexists|]. destruct Hpl as [Hw Hn].
  apply prefix_length in Hpre as Hlen. unfold cw_out in Hlen. rewrite length_app in Hlen.
  assert (0 < lenZ (cw_buffer w)) as Hpos by (destruct (cw_buffer w); [done|lenZ_lia]).
  unfold io_write. destruct (io_writes io) as [|r ws] eqn:Hws; [unfold lenZ in *; simpl in *; lia|].
  apply Forall_cons in Hw as [(n & -> & Hn0) Hw]. set (m := Z.max 0 (Z.min n (lenZ (cw_buffer w)))).
  assert (0 < m <= lenZ (cw_buffer w)) as Hm by lia. clearbody m. destruct m as [|m0|m0]; [lia| |lia].
  unfold split_to. cbn [bm_data]. rewrite (proj2 (Z.leb_le _ _)) by lia. cbn [mbind run_bind bm_data].
  apply IH.
  - simpl. unfold dropZ, lenZ in *. rewrite length_drop. lia.
  - split; [done|]. cbn [io_sent io_writes]. rewrite lenZ_app, lenZ_takeZ by lia. rewrite lenZ_cons in Hn. lia.
  - unfold cw_out in *. simpl. by rewrite <-app_assoc, takeZ_dropZ.
Qed.

(** One [poll_write]: the request stays whole; with writes enough it is over, or the body
    has answered one more poll. *)
Definition flushed (p : Pipe) (io : Io) : Prop :=
  plentiful io /\ (cl_write_state p = RDone -> cw_buffer (cl_writer p) = []).

Lemma poll_write_sending fuel p io r p' :
  sending p io -> poll_write_fuel fuel p = Ret (r, p') ->
  exists io', sending p' io' /\ (forall e, r <> PErr e) /\
    (r = Ready tt -> cl_write_state p' = RDone) /\
    (flushed p io -> flushed p' io' /\ (r = NotReady -> (body_left p' < body_left p)%nat)).
Proof.
  revert p io. induction fuel as [|fuel IH]; intros p io Hs; [done|]. cbn [poll_write_fuel].
  pose proof Hs as (Hc & _ & Hd & _). rewrite Hc. destruct (decide (cl_write_state p = RDone)) as [Hst|Hst].
  { intros [= <- <-]. exists io. by split_and!. }
  rewrite bool_decide_true by done. cbn [andb].
  destruct (if negb (bool_decide (cl_write_state p = Paused)) then client_turns (S (body_left p)) p else Ret (Ok false, p))
    as [[r1 p1]| |] eqn:Hm; [|done..]. cbn [mbind run_bind].
  assert (sending p1 io /\ (body_left p1 <= body_left p)%nat /\ exists dn, r1 = Ok dn /\
    (dn = true -> cl_disconnected p1 = true \/ (body_left p1 < body_left p)%nat)) as (Hs1 & Hle & dn & -> & Hdn).
  { destruct (negb _); [by eapply sending_turns|]. injection Hm as <- <-. split_and!; [done..|]. by exists false. }
  clear Hm. pose proof Hs1 as (Hc1 & Ha1 & Hd1 & Hup1 & Hdc1 & Hb1). rewrite Hc1. cbn [unwrap mbind run_bind].
  destruct (client_poll_ok (cl_writer p1) io Ha1) as (r1 & w & io1 & Hf & Hnerr & (_ & Hsu & Hsd & Hse & _ & _) & Ha2 & Hout).
  rewrite Hf. cbn [mbind run_bind]. set (p2 := set_cl_conn (Some io1) (set_cl_writer w p1)).
  assert (sending p2 io1) as Hs2.
  { split_and!; try done; simpl; [congruence..|]. rewrite Hout, Hse. exact Hb1. }
  assert (plentiful io -> plentiful io1 /\ cw_buffer w = [] /\ r1 = Ready tt) as Hall.
  { intros Hpl. destruct (write_all (S (length (cw_buffer (cl_writer p1)))) (cl_writer p1) io) as (w0 & io0 & Hw & Hb0 & Hp0);
      [lia|done|by apply sending_prefix|]. unfold client_poll_completed in Hf. rewrite Hw in Hf. by injection Hf as <- <- <-. }
  destruct r1 as [u| |e]; [|intros [= <- <-]|by destruct (Hnerr e)].
  2: { exists io1. split_and!; [done..|]. intros [Hpl _]. destruct (Hall Hpl) as (_ & _ & Hx). done. }
  set (p3 := set_cl_write_state (if cl_disconnected p1 then RDone else resume (cl_write_state p1)) p2).
  assert ((if cl_disconnected p2 then set_cl_write_state RDone p2 else set_cl_write_state (resume (cl_write_state p2)) p2) = p3) as ->.
  { change (cl_disconnected p2) with (cl_disconnected p1). unfold p3. by destruct (cl_disconnected p1). }
  change (cl_drain p3) with (cl_drain p1). rewrite Hd1.
  assert (sending p3 io1) as Hs3.
  { destruct (cl_disconnected p1) eqn:Hdis.
    - split_and!; [apply Hs2..|]. unfold p3. simpl. destruct (cl_body p1); [|done|].
      + destruct Hb1 as (_ & ? & _). congruence.
      + split; [exact Hdis|]. by rewrite Hout; destruct Hb1.
    - apply sending_state; [done..|]. apply not_done. by eapply sending_running. }
  change (cl_write_state p3) with (if cl_disconnected p1 then RDone else resume (cl_write_state p1)).
  destruct (negb dn || _) eqn:Hgo.
  - intros Hr. destruct (IH p3 io1 Hs3 Hr) as (io' & Hs' & Hne & Hrd & Hfl). exists io'. split_and!; [done..|].
    intros [Hpl _]. destruct (Hall Hpl) as (Hpl1 & Hb0 & _). destruct (Hfl (conj Hpl1 (fun _ => Hb0))) as [? Hnr].
    split; [done|]. intros Hx%Hnr. unfold body_left in *. simpl in *. lia.
  - intros [= <- <-]. apply orb_false_iff in Hgo as [->%negb_false_iff Hst3%bool_decide_eq_false].
    destruct (cl_disconnected p1) eqn:Hdis; [done|]. exists io1. split_and!; [done..|].
    intros [Hpl _]. destruct (Hall Hpl) as (Hpl1 & Hb0 & _). split; [by split|]. intros _.
    destruct (Hdn eq_refl) as [?|?]; [congruence|done].
Qed.

Lemma poll_write_sent p io :
  sending p io ->
  exists r p' io', poll_write p = Ret (r, p') /\ sending p' io' /\ reading_same p p' /\ (forall e, r <> PErr e) /\
    (r = Ready tt -> cl_write_state p' = RDone) /\
    (flushed p io -> flushed p' io' /\ (r = NotReady -> (body_left p' < body_left p)%nat)).
Proof.
  intros Hs. destruct (poll_write_fuel_ok (3 + body_left p) p) as (r & p' & Hr & _ & Hsame & _).
  - by eapply sending_writable.
  - unfold write_weight. destruct (decide _); [lia|]. destruct (_ && _); lia.
  - destruct (poll_write_sending _ _ _ _ _ Hs Hr) as (io' & ? & ? & ? & ?). by exists r, p', io'.
Qed.

(** ** One poll of the response *)

(** A response on its way: the [data] that is still to come, and the [rest] behind it; no
    timer fires and nothing is decompressed. *)
Definition answering (data rest : bytes) (p : Pipe) (io : Io) : Prop :=
  cl_timeout p = Some None /\ cl_decompress p = None /\ cl_calls p = [] /\
  match cl_parser p with
  | Some parser => receiving data rest parser (io_reads io) (cl_parser_buf p)
  | None => data = [] /\ bm_data (cl_parser_buf p) ++ pending (io_reads io) = rest
  end.

(** What is left: bytes and answers to read, and polls of the request's body. *)
Definition exchange_left (p : Pipe) (io : Io) : nat :=
  match cl_parser p with
  | Some _ => unread (io_reads io) (cl_parser_buf p) + length (io_reads io)
  | None => 0
  end + body_left p.

(** The connection is given back behind the whole request and the whole response. *)
Definition exchanged (rest : bytes) (p : Pipe) (io : Io) : Prop :=
  cl_conn p = None /\ cl_calls p = [Conn_release io] /\ cw_out (cl_writer p) io = request_bytes /\
  bm_data (cl_parser_buf p) ++ pending (io_reads io) = rest.

Definition poll_step (data rest : bytes) (p : Pipe) (io : Io) (r : poll (option bytes) PayloadError) (p' : Pipe) : Prop :=
  exists io',
  match r with
  | Ready (Some b) => exists data', data = b ++ data' /\ sending p' io' /\ answering data' rest p' io' /\
      (flushed p io -> flushed p' io' /\ (exchange_left p' io' < exchange_left p io)%nat)
  | NotReady => sending p' io' /\ answering data rest p' io' /\
      (flushed p io -> flushed p' io' /\ (exchange_left p' io' < exchange_left p io)%nat)
  | Ready None => data = [] /\ exchanged rest p' io' /\ (flushed p io -> cw_buffer (cl_writer p') = [])
  | PErr _ => False
  end.

Lemma sending_reads p io reads parser buf :
  sending p io -> sending (set_cl_conn (Some (set_io_reads reads io)) (set_cl_parser parser buf p)) (set_io_reads reads io).
Proof. intros (Hc & Ha & Hd & Hup & Hdc & Hb). by split_and!. Qed.

Lemma sending_over p io : sending p io -> cl_write_state p = RDone -> body_left p = 0%nat /\ cw_out (cl_writer p) io = request_bytes.
Proof.
  intros (_ & _ & _ & _ & _ & Hb) Hst. unfold body_left. destruct (cl_body p); [by destruct Hb as (_ & _ & ? & _)|done|]. by destruct Hb.
Qed.

(** Behind the end of the response. *)
Lemma poll_end_exchange need_run p io rest :
  sending p io -> answering [] rest p io -> cl_parser p = None -> (need_run = false -> cl_write_state p = RDone) ->
  exists r p', poll_end need_run p = (r, p') /\
    (need_run = true /\ r = NotReady /\ sending p' io /\ answering [] rest p' io /\ body_left p' = body_left p /\ cl_parser p' = None /\
       (flushed p io -> flushed p' io) \/
     need_run = false /\ r = Ready None /\ exchanged rest p' io /\ cw_buffer (cl_writer p') = cw_buffer (cl_writer p)).
Proof.
  intros Hs (Ht & Hd & Hca & Hp) Hparser Hst. unfold poll_end. rewrite Hd. rewrite Hparser in Hp.
  pose proof Hs as (Hc & _). destruct need_run.
  - do 2 eexists. split; [done|]. left. split_and!; try done. unfold answering. simpl. by rewrite Hparser.
  - do 2 eexists. split; [done|]. right. destruct (sending_over _ _ Hs (Hst eq_refl)) as [_ Hout].
    unfold release_conn. change (cl_conn (set_cl_decompress None p)) with (cl_conn p). rewrite Hc.
    split_and!; try done. split_and!; [done| |done|by destruct Hp]. simpl. by rewrite Hca.
Qed.

(** Polling the timer when the write would block changes nothing that matters. *)
Lemma need_run_keeps r data rest p io :
  sending p io -> answering data rest p io -> (forall e, r <> PErr e) -> (r = Ready tt -> cl_write_state p = RDone) ->
  let nr := match r with NotReady => true | _ => false end in
  exists p2, need_run display r p = (Ok nr, p2) /\ sending p2 io /\ answering data rest p2 io /\
    cl_parser p2 = cl_parser p /\ cl_parser_buf p2 = cl_parser_buf p /\ body_left p2 = body_left p /\
    (flushed p io -> flushed p2 io) /\ (nr = false -> cl_write_state p2 = RDone).
Proof.
  intros Hs Hans Hne Hst. unfold need_run, cl_poll_timeout.
  destruct r as [[]| |e]; [|exists p; by split_and!|by destruct (Hne e)].
  pose proof Hans as (Ht & _). rewrite Ht. simpl. exists (set_cl_timeout (Some None) p). specialize (Hst eq_refl).
  split_and!; try done. unfold answering in *. simpl. by destruct Hans as (_ & ?).
Qed.

Lemma poll_exchange data rest p io :
  sending p io -> answering data rest p io ->
  exists r p', poll_ p = Ret (r, p') /\ poll_step data rest p io r p'.
Proof.
  intros Hs Hans. unfold ClientPipeline_poll. pose proof Hs as (Hc & _). rewrite Hc.
  destruct (poll_write_sent p io Hs) as (r & p1 & io1 & -> & Hs1 & Hsame & Hne & Hst & Hfl). cbn [mbind run_bind].
  pose proof Hans as (Ht & Hd & Hca & Hp). destruct Hsame as (S1 & S2 & S3 & [S4 _] & S5 & S6).
  pose proof Hs1 as (Hc1 & _). rewrite Hc, Hc1 in S1. injection S1 as S1.
  assert (answering data rest p1 io1) as Hans1.
  { unfold answering. rewrite S2, S3, S4, S5, S6, S1. by split_and!. }
  set (nr := match r with NotReady => true | _ => false end).
  destruct (need_run_keeps r data rest p1 io1 Hs1 Hans1 Hne Hst) as (p2 & -> & Hs2 & Hans2 & P2 & B2 & L2 & F2 & St2).
  rewrite S2 in P2. rewrite S3 in B2. fold nr in St2 |- *.
  assert (flushed p io -> flushed p2 io1 /\ (body_left p2 <= body_left p)%nat /\ (nr = true -> (body_left p2 < body_left p)%nat)) as Hflush.
  { intros [Hf1 Hlt]%Hfl. split; [by apply F2|]. rewrite L2. unfold nr in *. destruct r as [[]| |e]; [|specialize (Hlt eq_refl); split; [lia|done]|by destruct (Hne e)].
    split; [|done]. rewrite <-L2. destruct (sending_over _ _ Hs2 (St2 eq_refl)) as [-> _]. lia. }
  rewrite P2. destruct (cl_parser p) as [parser|] eqn:Hparser.
  - destruct Hans2 as (Ht2 & Hd2 & Hca2 & Hp2). rewrite P2 in Hp2. pose proof Hs2 as (Hc2 & _).
    unfold read_fuel. cbn [read_loop]. rewrite P2, Hc2. cbn [unwrap mbind run_bind].
    destruct Hp2 as (Hal & k1 & k2 & Hk & Hwf & Hspec). unfold parse_payload. rewrite Hk.
    destruct (payload_turns_step (S (reads_left (io_reads io1))) k1 k2 (io_reads io1) (cl_parser_buf p2) data rest Hwf Hal ltac:(lia) Hspec)
      as (r2 & parser' & reads & buf & -> & Hr2). cbn [mbind run_bind].
    set (io3 := set_io_reads reads io1). set (p3 := set_cl_conn (Some io3) (set_cl_parser (Some parser') buf p2)).
    assert (sending p3 io3) as Hs3 by by apply sending_reads.
    assert (flushed p2 io1 -> flushed p3 io3) as F3 by done.
    rewrite S1, B2 in Hr2.
    destruct r2 as [[b|]| |e]; [| | |done].
    + destruct Hr2 as (data' & -> & Hrec & Hun & Hlen). change (cl_decompress p3) with (cl_decompress p2). rewrite Hd2.
      cbn [mbind run_bind]. do 2 eexists. split; [done|]. exists io3, data'. split_and!; [done..|].
      intros (Hf2 & Hle & _)%Hflush. split; [auto|]. unfold exchange_left. rewrite Hparser. unfold body_left in *. simpl in *. lia.
    + destruct Hr2 as [-> Hrest]. cbn [mbind run_bind]. set (p4 := set_cl_parser None (cl_parser_buf p3) p3).
      assert (answering [] rest p4 io3) as Hans4 by by split_and!.
      destruct (poll_end_exchange nr p4 io3 rest Hs3 Hans4 eq_refl St2) as (r' & p' & -> & Hend').
      do 2 eexists. split; [done|]. exists io3. destruct Hend' as [(Hnr & -> & Hs' & Ha' & Hb' & Hp' & Hf')|(Hnr & -> & Hex & Hbuf)].
      * split_and!; [done..|]. intros (Hf2 & _ & Hlt)%Hflush. split; [auto|]. unfold exchange_left. rewrite Hparser, Hp', Hb'.
        specialize (Hlt Hnr). unfold body_left in *. simpl in *. lia.
      * split_and!; [done..|]. intros ([_ Hf2] & _)%Hflush. rewrite Hbuf. apply Hf2. auto.
    + destruct Hr2 as (Hrec & Hlen & Hun). cbn [mbind run_bind]. do 2 eexists. split; [done|]. exists io3.
      split_and!; [done..|]. intros (Hf2 & Hle & _)%Hflush. split; [auto|].
      unfold exchange_left. rewrite Hparser. unfold body_left in *. simpl in *. lia.
  - cbn [mbind run_bind]. destruct Hp as [-> Hrest].
    destruct (poll_end_exchange nr p2 io1 rest Hs2 Hans2 P2 St2) as (r' & p' & -> & Hend').
    do 2 eexists. split; [done|]. exists io1. destruct Hend' as [(Hnr & -> & Hs' & Ha' & Hb' & Hp' & Hf')|(Hnr & -> & Hex & Hbuf)].
    + split_and!; [done..|]. intros (Hf2 & _ & Hlt)%Hflush. split; [auto|]. unfold exchange_left. rewrite Hparser, Hp', Hb'. simpl. auto.
    + split_and!; [done..|]. intros ([_ Hf2] & _)%Hflush. rewrite Hbuf. auto.
Qed.

(** ** All polls *)
Lemma polls_over n (p : Pipe) : cl_conn p = None -> body_polls display n p = Ret (replicate n (Ready None), p).
Proof.
  intros Hc. induction n as [|n IH]; [done|]. cbn [body_polls]. unfold ClientPipeline_poll. rewrite Hc. cbn [mbind run_bind].
  rewrite IH. done.
Qed.

Lemma chunks_over n : concat (chunks (replicate n (@Ready (option bytes) PayloadError None))) = [].
Proof. by induction n. Qed.

(** What a client gets in [n] polls of a response: no error, the data in order, its end
    only behind all of it, and then the connection has the whole request and goes back to
    its pool; if the connection takes all writes, the end comes within a bounded number
    of polls, and the request is sent. *)
Definition exchange (data rest : bytes) (p : Pipe) (io : Io) (n : nat) : Prop :=
  exists rs p', body_polls display n p = Ret (rs, p') /\ (forall e, PErr e ∉ rs) /\
    concat (chunks rs) `prefix_of` data /\
    (Ready None ∈ rs -> concat (chunks rs) = data /\ exists io', exchanged rest p' io' /\
       (flushed p io -> io_sent io' = request_bytes)) /\
    (flushed p io -> (exchange_left p io < n)%nat -> Ready None ∈ rs).

Lemma exchange_ok n data rest p io : sending p io -> answering data rest p io -> exchange data rest p io n.
Proof.
  revert data p io. induction n as [|n IH]; intros data p io Hs Ha; unfold exchange; cbn [body_polls].
  { exists [], p. split_and!; try done; [set_solver|apply prefix_nil|set_solver|lia]. }
  destruct (poll_exchange data rest p io Hs Ha) as (r & p1 & -> & io1 & Hr). cbn [mbind run_bind].
  destruct r as [[b|]| |e]; [| | |done].
  - destruct Hr as (data' & -> & Hs1 & Ha1 & Hl1). destruct (IH _ _ _ Hs1 Ha1) as (rs & p' & -> & He & Hp & Hend' & Hlive).
    cbn [mbind run_bind]. do 2 eexists. split; [done|]. rewrite chunks_cons. split_and!; [set_solver|by apply prefix_app| |].
    + intros [Hf|Hin]%elem_of_cons; [done|]. destruct (Hend' Hin) as [-> (io' & Hex & Hsent)]. split; [done|].
      exists io'. split; [done|]. intros [Hf1 _]%Hl1. auto.
    + intros [Hf1 Hlt]%Hl1 Hn. right. apply Hlive; [done|lia].
  - destruct Hr as (-> & Hex & Hbuf). pose proof Hex as (Hc & Hca & Hout & Hrest). rewrite (polls_over n) by done.
    cbn [mbind run_bind]. do 2 eexists. split; [done|].
    assert (concat (chunks (Ready None :: replicate n (@Ready (option bytes) PayloadError None))) = []) as Hnil by apply (chunks_over (S n)).
    split_and!; [by intros e [?|[? ?]%elem_of_replicate]%elem_of_cons|by rewrite Hnil| |by left].
    intros _. split; [done|]. exists io1. split; [done|]. intros Hf. unfold cw_out in Hout. by rewrite Hbuf, app_nil_r in Hout.
  - destruct Hr as (Hs1 & Ha1 & Hl1). destruct (IH _ _ _ Hs1 Ha1) as (rs & p' & -> & He & Hp & Hend' & Hlive).
    cbn [mbind run_bind]. do 2 eexists. split; [done|]. change (concat (chunks (NotReady :: rs))) with (concat (chunks rs)).
    split_and!; [set_solver|done| |].
    + intros [Hf|Hin]%elem_of_cons; [done|]. destruct (Hend' Hin) as [-> (io' & Hex & Hsent)]. split; [done|].
      exists io'. split; [done|]. intros [Hf1 _]%Hl1. auto.
    + intros [Hf1 Hlt]%Hl1 Hn. right. apply Hlive; [done|lia].
Qed.

(** ** A request that is not sent to its end *)

(** Nothing more is written. *)
Definition written_off (w : HttpClientWriter Z') (sent : bytes) (p : Pipe) : Prop :=
  cl_write_state p = RDone /\ cl_writer p = w /\
  match cl_conn p with
  | Some io => io_sent io = sent
  | None => exists io calls, cl_calls p = calls ++ [Conn_release io] /\ io_sent io = sent
  end.

Lemma read_loop_written w sent fuel (p : Pipe) r p' :
  written_off w sent p -> read_loop fuel p = Ret (r, p') -> written_off w sent p'.
Proof.
  revert p. induction fuel as [|fuel IH]; intros p Hw; [done|]. cbn [read_loop].
  destruct (cl_parser p) as [parser|]; [|done]. pose proof Hw as (Hst & Hwr & Hc). destruct (cl_conn p) as [io|]; [|done].
  cbn [unwrap mbind run_bind]. destruct (parse_payload parser (io_reads io) (cl_parser_buf p)) as [[[[r1 parser'] reads] buf]| |]; [|done..].
  cbn [mbind run_bind]. set (p1 := set_cl_conn _ _). assert (written_off w sent p1) as Hw1 by done.
  destruct r1 as [[b|]| |e]; [|by intros [= <- <-]..]. destruct (cl_decompress p1) as [d|]; [|by intros [= <- <-]].
  destruct (ps_feed_data b d) as [[[b'|]|e] d']; [by intros [= <- <-]..|].
  destruct (decide _); [by apply IH|by intros [= <- <-]].
Qed.

Lemma poll_written w sent (p : Pipe) r p' : written_off w sent p -> poll_ p = Ret (r, p') -> written_off w sent p'.
Proof.
  intros Hw. unfold ClientPipeline_poll. destruct (cl_conn p) as [io|] eqn:Hc; [|by intros [= <- <-]].
  unfold poll_write. cbn [poll_write_fuel Nat.add]. rewrite Hc. pose proof Hw as (Hst & _). rewrite decide_True by done.
  cbn [mbind run_bind].
  assert (exists e p1, need_run display (Ready tt) p = (e, p1) /\ written_off w sent p1) as (e & p1 & -> & Hw1).
  { unfold need_run, cl_poll_timeout. destruct (cl_timeout p) as [[[|n]|]|]; by do 2 eexists. }
  destruct e as [nr|e]; [|by intros [= <- <-]].
  destruct (match cl_parser p1 with Some _ => read_loop (read_fuel p1) p1 | None => Ret (None, p1) end) as [[r2 p2]| |] eqn:Hrd; [|done..].
  assert (written_off w sent p2) as Hw2.
  { destruct (cl_parser p1); [by eapply read_loop_written|by injection Hrd as <- <-]. }
  cbn [mbind run_bind]. destruct r2 as [r2|]; [by intros [= <- <-]|]. unfold poll_end.
  assert (forall q, written_off w sent q -> written_off w sent (release_conn q)) as Hrel.
  { intros q (H1 & H2 & H3). unfold release_conn. destruct (cl_conn q) as [ioq|] eqn:Hq; [|split_and!; try done; by rewrite Hq].
    split_and!; try done. simpl. by eexists _, _. }
  destruct (match cl_decompress p2 with Some d => (ps_feed_eof d).1 | None => Ok None end) as [[b|]|e].
  - intros [= <- <-]. by apply Hrel.
  - destruct nr; intros [= <- <-]; [done|by apply Hrel].
  - by intros [= <- <-].
Qed.

Lemma polls_written w sent n (p : Pipe) rs p' :
  written_off w sent p -> body_polls display n p = Ret (rs, p') -> written_off w sent p'.
Proof.
  revert p rs. induction n as [|n IH]; intros p rs Hw; cbn [body_polls]; [by intros [= <- <-]|].
  destruct (poll_ p) as [[r p1]| |] eqn:Hpoll; [|done..]. cbn [mbind run_bind].
  destruct (body_polls display n p1) as [[rs1 p3]| |] eqn:Hrec; [|done..]. cbn [mbind run_bind]. intros [= <- <-].
  eapply IH; [|done]. by eapply poll_written.
Qed.

(** The end of a request may never be sent: when the connection would block at the flush
    behind the end of the body, what is left, if it is no more than the capacity of the
    buffer, counts as written; no later poll sends it, however much the connection would
    take by then. *)
Theorem request_tail_lost (p : Pipe) (io : Io) (e : IoError) (s : BodyStream) (ws : list (result Z IoError)) (n : nat) :
  sending p io -> cl_body p = IoB_Payload (Ready None :: s) -> cl_write_state p = Running ->
  io_writes io = Err e :: ws -> io_kind e = WouldBlock ->
  lenZ request_bytes - lenZ (io_sent io) <= cw_buffer_capacity (cl_writer p) -> io_sent io <> request_bytes -> pipe_ok p ->
  exists p' rs p2, poll_write p = Ret (Ready tt, p') /\ cw_buffer (cl_writer p') <> [] /\
    body_polls display n p' = Ret (rs, p2) /\ written_off (cl_writer p') (io_sent io) p2.
Proof.
  intros Hs Hb Hst Hws He Hcap Hne Hok. pose proof Hs as (Hc & Ha & Hd & Hup & Hdc & Hbody). rewrite Hb in Hbody.
  destruct Hbody as (_ & Hdis & _ & sent & k' & enc & Hall & Henc & Hce & Hout). simpl in Hall. rewrite app_nil_r in Hall. subst sent.
  destruct (client_write_eof_identity (cl_writer p) k' Hce) as (w & Hw & _ & _ & _ & Hbuf & Hcapw).
  destruct (encode_eof_split (te_encode_all (mkTE k []) all)) as [Heof Hbf]. rewrite Hend, Henc in Heof. cbn [te_kind] in Heof.
  rewrite <-Heof in Hw. rewrite Henc in Hbf. cbn [te_kind te_buffer] in Hbf.
  assert (io_sent io ++ cw_buffer w = request_bytes) as Htotal.
  { unfold cw_out in Hout. unfold request_bytes, encoded. rewrite Hbuf, app_assoc, Hout, Henc, Hbf. by rewrite app_assoc. }
  assert (cw_buffer w <> []) as Hwb by (intros Hnil; apply Hne; rewrite <-Htotal, Hnil; by rewrite app_nil_r).
  set (io' := mkIo (io_reads io) ws (io_shutdowns io) (io_sent io) (io_closed io)).
  set (p' := set_cl_write_state RDone (set_cl_conn (Some io') (set_cl_writer w (set_cl_disconnected (set_cl_writer w (set_cl_body IoB_Done p)))))).
  assert (cw_buffer_capacity w <? lenZ (cw_buffer w) = false) as Hlt.
  { apply Z.ltb_ge. rewrite Hcapw. rewrite <-Htotal, lenZ_app in Hcap. lia. }
  assert (poll_write p = Ret (Ready tt, p')) as Hpw.
  { unfold poll_write, body_left. rewrite Hb. cbn [length Nat.add poll_write_fuel]. rewrite Hc, decide_False by congruence.
    rewrite Hd, Hst, bool_decide_true, bool_decide_false by done. cbn [andb negb].
    unfold body_left. rewrite Hb. cbn [length client_turns]. unfold client_turn. rewrite Hb. cbn [stream_poll cl_writer set_cl_body].
    rewrite Hw. cbn [mbind run_bind]. cbn [cl_conn set_cl_disconnected set_cl_writer set_cl_body]. rewrite Hc. cbn [unwrap mbind run_bind cl_writer].
    unfold client_poll_completed. cbn [write_to_stream]. rewrite bool_decide_false by done. unfold io_write. rewrite Hws, decide_True by done.
    cbn [set_cl_body set_cl_writer set_cl_disconnected cl_writer]. rewrite Hlt.
    cbn [mbind run_bind cl_disconnected set_cl_conn set_cl_writer set_cl_disconnected cl_drain set_cl_write_state set_cl_body]. rewrite Hd.
    cbn [negb orb]. fold io'. fold p'. done. }
  assert (pipe_ok p') as Hok'.
  { destruct Hok as (_ & Hp & Hca). rewrite Hc in Hca. split_and!; [by left|exact Hp|exact Hca]. }
  destruct (body_polls_ok display n p' Hok') as (rs & p2 & Hrun & _). exists p', rs, p2. split_and!; [done..|].
  change (cl_writer p') with w. eapply polls_written; [|exact Hrun]. by split_and!.
Qed.
End Sending.


Lemma framed_eof {H : Type} `{HM : HeaderMap H} (h : H) k ms :
  announces h k -> framed k ms -> te_is_eof (te_encode_eof (te_encode_all (mkTE k []) ms)) = true.
Proof.
  intros Ha Hf. destruct k as [eof|n|]; simpl in Ha, Hf; [| |done].
  - assert (forall t, (exists e, te_kind t = TE_Chunked e) -> exists e, te_kind (te_encode_all t ms) = TE_Chunked e) as Hk.
    { clear. induction ms as [|m ms IH]; intros t Ht; [done|]. unfold te_encode_all. simpl. apply IH.
      destruct Ht as [e He]. unfold te_encode. rewrite He. repeat case_match; simpl; eauto. }
    destruct (Hk (mkTE (TE_Chunked eof) [])) as [e He]; [by eexists|]. unfold te_encode_eof, te_is_eof. rewrite He.
    destruct e; [by rewrite He|done].
  - destruct Ha as [Hn _]. fold (TransferEncoding_length n []). rewrite te_encode_all_length by done.
    unfold te_is_eof. simpl. rewrite Z.min_l by done. by rewrite Z.sub_diag.
Qed.

Section Answered.
Context {H : Type} `{HM : HeaderMap H} `{HC : HeaderConv} {RP : ResponseParsers} {HP : HttpParsers} {Z' : Type} `{CP : Compressor Z'}
  `{AL : Allocator} {D : Type} `{PS : PayloadStream D}.
Context (display : Error -> string) (path_and_query : bytes -> option bytes) (date : bytes) (spare : bytes -> Z).
Context (streams : nat -> BodyStream) (actors : nat -> ActorContext) (send : Connect -> ConnectFut)
  (uri_of : bytes -> Uri) (new_timer : Z -> Timer).
Notation Pipe := (ClientPipeline Z' D).
Notation Request := (ClientRequest H).
Notation SendRequest := (SendRequest H Z' D).
Notation sr_poll := (SendRequest_poll path_and_query date spare streams actors display send uri_of new_timer).

(** Polls of a sent request until it is answered. *)
Fixpoint send_polls (n : nat) (s : SendRequest) : run (poll (ClientResponse H Z' D) SendRequestError * SendRequest) :=
  match n with
  | O => Ret (NotReady, s)
  | S n =>
      '(r, s) ← sr_poll s;
      match r with NotReady => send_polls n s | _ => Ret (r, s) end
  end.

(** The answers of a connection hold a response as a server writes it: a head and the
    [data] in the framing that it announces, in any pieces and with any delays. *)
Definition answers_with (reads : socket) (v : Version) (status : Z) (hs : list (bytes * bytes)) (data rest : bytes) : Prop :=
  Forall alive reads /\ http1 v /\ 100 <= status < 600 /\ status <> SWITCHING_PROTOCOLS /\
  forallb sendable hs = true /\ lenZ hs <= 96 /\
  exists reason (h : H) k msgs hd, forallb printable reason = true /\ 0 < lenZ hd <= 65536 /\
    (forall s, read_head (hd ++ s) = Some (status_line v status ++ reason, hs, s)) /\
    announces h k /\ framed k msgs /\ Forall (fun m => Binary_len m < 2 ^ 64) msgs /\
    (forall key, key = TRANSFER_ENCODING \/ key = CONTENT_LENGTH -> alist_lookup key hs = hm_get key h) /\
    data = framed_data k msgs /\ pending reads = hd ++ encoded k msgs ++ rest.

(** ** Waiting for the head *)
Section Waiting.
Context (base : bytes) (k : TransferEncodingKind) (all : list Binary).
Hypothesis Hend : te_is_eof (te_encode_eof (te_encode_all (mkTE k []) all)) = true.
Context (rh : ResponseHead) (code status : Z) (hdrs : H) (d : option Kind) (whole : bytes).
Hypothesis Hmodest : modest.
Hypothesis Hhead : httparse_response whole = Ok (Some rh).
Hypothesis Hlen : rh_len rh <= 65536.
Hypothesis Hcode : rh_code rh = Some code.
Hypothesis Hstatus : status_from_u16 code = Some status.
Hypothesis Hhdrs : response_headers (rh_headers rh) hm_empty = Some hdrs.
Hypothesis Hdec : response_decoder status hdrs = Ok d.

(** A pipeline that waits for the head. *)
Definition waiting (p : Pipe) (io : Io) : Prop :=
  sending base k all p io /\ whole = bm_data (cl_parser_buf p) ++ pending (io_reads io) /\
  Forall alive (io_reads io) /\ bm_spare (cl_parser_buf p) <= 65536 /\ is_Some (cl_parser p) /\
  cl_should_decompress p = false /\ cl_timeout p = Some None /\ cl_decompress p = None /\ cl_calls p = [].

(** The pipeline behind the head. *)
Definition head_done (p p' : Pipe) (io io' : Io) : Prop :=
  sending base k all p' io' /\ cl_timeout p' = Some None /\ cl_decompress p' = None /\ cl_calls p' = [] /\
  cl_parser p' = Some (mkHRP d) /\ Forall alive (io_reads io') /\ (length (io_reads io') <= length (io_reads io))%nat /\
  bm_data (cl_parser_buf p') ++ pending (io_reads io') = dropZ (rh_len rh) whole /\
  (flushed base k all p io -> flushed base k all p' io' /\ (body_left p' <= body_left p)%nat).

Lemma poll_write_waiting p io :
  waiting p io ->
  exists r p' io', poll_write p = Ret (r, p') /\ (forall e, r <> PErr e) /\ waiting p' io' /\ io_reads io' = io_reads io /\
    (flushed base k all p io -> flushed base k all p' io' /\ (body_left p' <= body_left p)%nat).
Proof.
  intros (Hs & Hw & Hal & Hsp & Hpa & Hsd & Ht & Hde & Hca).
  destruct (poll_write_sent base k all Hend p io Hs) as (r & p1 & io1 & -> & Hs1 & Hsame & Hne & Hrd & Hfl).
  destruct Hsame as (S1 & S2 & S3 & [S4 S4'] & S5 & S6). pose proof Hs1 as (Hc1 & _). pose proof Hs as (Hc & _).
  rewrite Hc, Hc1 in S1. injection S1 as S1. exists r, p1, io1. split_and!; [done..| |done|].
  - unfold waiting. rewrite S1, S2, S3, S4, S4', S5, S6. by split_and!.
  - intros [Hf' Hl]%Hfl. split; [done|]. destruct r as [[]| |e]; [|specialize (Hl eq_refl); lia|by destruct (Hne e)].
    destruct (sending_over _ _ _ _ _ Hs1 (Hrd eq_refl)) as [-> _]. lia.
Qed.

Lemma send_parse_waiting (s : SendRequest) p io :
  waiting p io ->
  exists r s' p' io', send_parse p s = Ret (r, s') /\
    (flushed base k all p io -> flushed base k all p' io') /\ body_left p' = body_left p /\
    ((r = Ready (mkCR (the_message rh status hdrs) (Some p')) /\ head_done p p' io io') \/
     (r = NotReady /\ sr_state s' = Send_Send p' /\ waiting p' io' /\ (length (io_reads io') < length (io_reads io))%nat)).
Proof.
  intros (Hs & Hw & Hal & Hsp & [parser Hpa] & Hsd & Ht & Hde & Hca). pose proof Hs as (Hc & _).
  unfold send_parse, cl_parse. rewrite Hc, Hpa. cbn [unwrap mbind run_bind].
  destruct (response_parse_arriving rh code status hdrs d whole Hmodest Hhead Hlen Hcode Hstatus Hhdrs Hdec parser _ _ Hw Hal Hsp)
    as ([[[r1 parser'] reads] buf] & -> & Hal' & Hl' & Hr). cbn [mbind run_bind].
  set (io2 := set_io_reads reads io). set (p2 := set_cl_conn (Some io2) (set_cl_parser (Some parser') buf p)).
  assert (sending base k all p2 io2) as Hs2 by by apply sending_reads.
  destruct Hr as [(-> & -> & Hd)|(-> & Hw' & Hsp' & Hl)].
  - change (cl_should_decompress p2) with (cl_should_decompress p). rewrite Hsd. cbn [mbind run_bind].
    exists (Ready (mkCR (the_message rh status hdrs) (Some p2))). eexists. exists p2, io2. split; [done|]. split; [done|]. split; [done|].
    left. split; [done|]. by split_and!.
  - cbn [mbind run_bind]. do 2 eexists. exists p2, io2. split; [done|]. split; [done|]. split; [done|]. right.
    split_and!; try done.
Qed.

(** One poll of a request that was sent: the response, or another wait. *)
Lemma send_step fuel (s : SendRequest) p io :
  sr_state s = Send_Send p -> waiting p io ->
  exists r s' p' io', send_loop path_and_query date spare streams actors display send uri_of new_timer (S fuel) s = Ret (r, s') /\
    (flushed base k all p io -> flushed base k all p' io' /\ (body_left p' <= body_left p)%nat) /\
    ((r = Ready (mkCR (the_message rh status hdrs) (Some p')) /\ head_done p p' io io') \/
     (r = NotReady /\ sr_state s' = Send_Send p' /\ waiting p' io' /\ (length (io_reads io') < length (io_reads io))%nat)).
Proof.
  intros Hst Hw. cbn [send_loop]. rewrite Hst.
  destruct (poll_write_waiting p io Hw) as (r & p1 & io1 & -> & Hne & Hw1 & Hrd & Hfl). cbn [mbind run_bind].
  destruct (send_parse_waiting (set_sr_state Send_None s) p1 io1 Hw1) as (r2 & s' & p2 & io2 & Hp & Hfl2 & Hb2 & Hr).
  exists r2, s', p2, io2. split; [destruct r as [u| |e]; [done..|by destruct (Hne e)]|].
  assert (flushed base k all p io -> flushed base k all p2 io2 /\ (body_left p2 <= body_left p)%nat) as Hf.
  { intros [Hf1 Hle]%Hfl. rewrite Hb2. by split; auto. }
  split; [done|]. rewrite <-Hrd. destruct Hr as [[-> (H1 & H2 & H3 & H4 & H5 & H6 & H7 & H8 & H9)]|Hr]; [left|by right].
  split; [done|]. split_and!; try done. by rewrite <-Hrd.
Qed.

Lemma send_polls_waiting n (s : SendRequest) p io :
  sr_state s = Send_Send p -> waiting p io -> (length (io_reads io) < n)%nat ->
  exists s' p' io', send_polls n s = Ret (Ready (mkCR (the_message rh status hdrs) (Some p')), s') /\ head_done p p' io io'.
Proof.
  revert s p io. induction n as [|n IH]; intros s p io Hst Hw Hn; [lia|]. cbn [send_polls]. unfold SendRequest_poll.
  destruct (send_step 3 s p io Hst Hw) as (r & s1 & p1 & io1 & -> & Hfl & Hr). cbn [mbind run_bind].
  destruct Hr as [[-> Hd]|(-> & Hst1 & Hw1 & Hl)]; [by do 3 eexists|].
  destruct (IH s1 p1 io1 Hst1 Hw1 ltac:(lia)) as (s' & p' & io' & -> & H1 & H2 & H3 & H4 & H5 & H6 & H7 & H8 & H9).
  do 3 eexists. split; [done|]. split_and!; try done; [lia|]. intros [Hf Hle]%Hfl. destruct (H9 Hf). split; [done|lia].
Qed.

(** ** From the connection to the head *)
Context (q q' : Request) (id : nat) (w1 : HttpClientWriter Z') (io : Io).
Hypothesis Hstart : client_start path_and_query date spare q (HttpClientWriter_new []) = Ret (Ok tt, q', w1).
Hypothesis Hbody : cq_body q' = Body_Streaming id.
Hypothesis Hplain : cq_response_decompress q' = false.
Hypothesis Hscript : script_ends (streams id) = true.
Hypothesis Hall : all = script_chunks (streams id).
Hypothesis Hw1 : cw_upgrade w1 = false /\ cw_disconnected w1 = false /\ cw_encoder w1 = CE_Identity k /\ cw_out w1 io = base.
Hypothesis Haccept : accepting io.
Hypothesis Htimer : new_timer 5 = None.
Hypothesis Hwhole : whole = pending (io_reads io).
Hypothesis Halive : Forall alive (io_reads io).

Definition connected (s : SendRequest) : Prop :=
  sr_state s = Send_Connection io /\ sr_req s = q /\ sr_timeout s = None.

Lemma loop_connected f (s : SendRequest) :
  connected s ->
  exists p s1, sr_state s1 = Send_Send p /\ waiting p io /\
    (plentiful base k all io -> flushed base k all p io) /\ body_left p = length (streams id) /\
    send_loop path_and_query date spare streams actors display send uri_of new_timer (S (S f)) s =
    send_loop path_and_query date spare streams actors display send uri_of new_timer (S f) s1.
Proof.
  intros (Hst & Hq & Ht). destruct Hw1 as (Hup & Hdc & He & Hout).
  set (p := mkCLP (IoB_Payload (streams id)) (Some io) w1 (Some HttpResponseParser_default) (mkBM [] 0) false None None
    false Running (Some None) [] [] : Pipe).
  exists p, (set_sr_state (Send_Send p) (set_sr_timeout None (set_sr_req (set_cq_body Body_Empty q') (set_sr_state Send_None s)))).
  split; [done|]. split; [|split; [by split|split; [done|]]].
  - split_and!; try done. split_and!; try done. simpl. split_and!; try done.
    exists [], k, []. split_and!; [done..|]. by rewrite app_nil_r.
  - remember (S f) as n eqn:Hn. cbn [send_loop]. rewrite Hst. unfold start_pipeline.
    cbn [sr_req set_sr_state sr_timeout]. rewrite Hq, Hstart. cbn [mbind run_bind cq_replace_body].
    rewrite Hbody, Ht. cbn [mbind run_bind default]. rewrite Htimer. change (cq_response_decompress (set_cq_body Body_Empty q')) with (cq_response_decompress q').
    by rewrite Hplain.
Qed.

Lemma polls_connected n f (s s0 : SendRequest) :
  sr_poll s = send_loop path_and_query date spare streams actors display send uri_of new_timer (S (S f)) s0 -> connected s0 ->
  (length (io_reads io) <= n)%nat ->
  exists s' p p' io', send_polls (S n) s = Ret (Ready (mkCR (the_message rh status hdrs) (Some p')), s') /\
    head_done p p' io io' /\ (plentiful base k all io -> flushed base k all p io) /\ body_left p = length (streams id).
Proof.
  intros Hpoll Hc Hn. destruct (loop_connected f s0 Hc) as (p & s1 & Hst1 & Hw & Hfl & Hleft & Heq).
  cbn [send_polls]. rewrite Hpoll, Heq.
  destruct (send_step f s1 p io Hst1 Hw) as (r & s2 & p2 & io2 & -> & Hf2 & Hr). cbn [mbind run_bind].
  destruct Hr as [[-> Hd]|(-> & Hst2 & Hw2 & Hl)].
  - exists s2, p, p2, io2. by split_and!.
  - destruct (send_polls_waiting n s2 p2 io2 Hst2 Hw2 ltac:(lia)) as (s' & p' & io' & Hrun & H1 & H2 & H3 & H4 & H5 & H6 & H7 & H8 & H9).
    exists s', p, p', io'. split; [exact Hrun|]. split; [|by split]. split_and!; try done; [lia|].
    intros [Hf Hle]%Hf2. destruct (H9 Hf). split; [done|lia].
Qed.

Lemma polls_connecting w n (s : SendRequest) :
  sr_state s = Send_Connect (mkConnFut (Some w) (Some (Ok io))) -> sr_req s = q -> sr_timeout s = None ->
  (length (io_reads io) <= n)%nat ->
  exists s' p p' io', send_polls (w + S n) s = Ret (Ready (mkCR (the_message rh status hdrs) (Some p')), s') /\
    head_done p p' io io' /\ (plentiful base k all io -> flushed base k all p io) /\ body_left p = length (streams id).
Proof.
  revert s. induction w as [|w IH]; intros s Hst Hq Ht Hn.
  - apply (polls_connected n 1 s (set_sr_state (Send_Connection io) (set_sr_state Send_None s))); [|by split_and!|done].
    unfold SendRequest_poll. cbn [send_loop]. by rewrite Hst.
  - cbn [send_polls Nat.add]. unfold SendRequest_poll. cbn [send_loop]. rewrite Hst. cbn [connect_poll cf_wait mbind run_bind].
    apply IH; done.
Qed.

Lemma polls_new w n :
  send (mkConnect (uri_of (cq_uri q)) 5 1) = mkConnFut (Some w) (Some (Ok io)) -> (length (io_reads io) <= n)%nat ->
  exists s' p p' io', send_polls (w + S n) (SendRequest_with_connector q) =
      Ret (Ready (mkCR (the_message rh status hdrs) (Some p')), s') /\
    head_done p p' io io' /\ (plentiful base k all io -> flushed base k all p io) /\ body_left p = length (streams id).
Proof.
  intros Hsend Hn. destruct w as [|w].
  - set (s := SendRequest_with_connector q). apply (polls_connected n 0 s (set_sr_state (Send_Connection io) s)); [|by split_and!|done].
    unfold SendRequest_poll. cbn [send_loop sr_state s SendRequest_with_connector sr_req set_sr_state sr_wait_timeout sr_conn_timeout].
    by rewrite Hsend.
  - cbn [send_polls Nat.add]. unfold SendRequest_poll.
    cbn [send_loop sr_state SendRequest_with_connector sr_req set_sr_state sr_wait_timeout sr_conn_timeout]. rewrite Hsend.
    cbn [connect_poll cf_wait mbind run_bind]. by apply polls_connecting.
Qed.
End Waiting.

(** C8. A request is sent and its response read, whichever comes first: a client asks its
    connector for a connection, writes the streamed body as it becomes available and as
    the connection takes it, and meanwhile reads.  However the response is cut and delayed,
    the client gets its status, version and headers after a bounded number of polls, and
    then the data in order and its end; the end is told only when the connection has been
    handed the whole request, and then the connection goes back to its pool with what
    follows the response unread; and if the connection takes what it is given, the end
    comes within a bounded number of polls and all of the request is sent. *)
Theorem request_answered (q : Request) (id w : nat) (io : Io) (v : Version) (status : Z)
    (hs : list (bytes * bytes)) (data rest : bytes) :
  http_crates (H := H) -> modest -> request_streamable q -> cq_body q = Body_Streaming id -> cq_response_decompress q = false ->
  script_ends (streams id) = true -> accepting io -> new_timer 5 = None ->
  send (mkConnect (uri_of (cq_uri q)) 5 1) = mkConnFut (Some w) (Some (Ok io)) ->
  answers_with (io_reads io) v status hs data rest ->
  exists q' w1 k, client_start path_and_query date spare q (HttpClientWriter_new []) = Ret (Ok tt, q', w1) /\
  same_request q q' /\ announces (cq_headers q') k /\
  let base := io_sent io ++ request_text path_and_query date q' in
  let body := script_chunks (streams id) in
  (framed k body ->
   exists resp s' p io',
     send_polls (w + S (length (io_reads io))) (SendRequest_with_connector q) = Ret (Ready resp, s') /\
     cm_status (cr_msg resp) = status /\ cm_version (cr_msg resp) = v /\
     (forall key, hm_get key (cm_headers (cr_msg resp)) = alist_lookup key hs) /\
     cr_pipeline resp = Some p /\
     (forall n, exchange display base k body data rest p io' n) /\
     (plentiful base k body io -> flushed base k body p io' /\
        (exchange_left p io' <= length (pending (io_reads io)) + length (io_reads io) + length (streams id))%nat)).
Proof.
  intros Hcr Hmod Hq Hb Hde Hscr Hacc Htimer Hsend (Hal & Hv & Hst & H101 & Hs & Hn & reason & h & k2 & msgs & hd & Hre & Hhd & Hread & Hann2 & Hf2 & Hm & Hkeys & -> & Hpend).
  destruct (client_start_streaming path_and_query date spare q (HttpClientWriter_new []) io Hq) as
    (q' & w1 & k & Hstart & Hsame & Hb' & Hann & Hup & Hdc & He & Hout); [by repeat split; eexists|].
  exists q', w1, k. split_and!; [done..|]. intros base body Hf.
  pose proof (framed_eof (cq_headers q') k body Hann Hf) as Hend.
  assert (cw_out w1 io = base) as Hout' by (rewrite Hout; unfold cw_out; simpl; by rewrite app_nil_r).
  set (whole := hd ++ encoded k2 msgs ++ rest) in *.
  destruct (response_headers_lookup hs hm_empty Hcr Hs) as (m & Hm1 & Hlook).
  assert (forall key, hm_get key m = alist_lookup key hs) as Hget by (intros key; by rewrite Hlook, hm_get_empty).
  assert (response_decoder status m = Ok (Some (kind_decoder k2))) as Hdec.
  { rewrite (response_decoder_announced status m h k2) by (try done; intros; rewrite Hget; auto). by destruct k2. }
  destruct (body_spec_encoded h k2 msgs Hann2 Hf2 Hm) as [Hwf [k3 Hspec]].
  pose proof (crates_response Hcr _ v status reason hs _ Hv Hst Hre Hs Hn (Hread (encoded k2 msgs ++ rest))) as Hp.
  fold whole in Hp. unfold whole in Hp at 2. rewrite lenZ_app, Z.add_simpl_r in Hp.
  assert (cq_response_decompress q' = false) as Hde' by (destruct Hsame as (_ & _ & _ & _ & _ & ->); done).
  destruct (polls_new base k body Hend _ status status m (Some (kind_decoder k2)) whole Hmod Hp ltac:(simpl; lia) eq_refl
    (crates_status Hcr _ Hst) Hm1 Hdec q q' id w1 io Hstart ltac:(congruence) Hde' Hscr eq_refl (conj Hup (conj Hdc (conj He Hout'))) Hacc Htimer
    (eq_sym Hpend) Hal w (length (io_reads io)) Hsend ltac:(lia))
    as (s' & p & p' & io' & Hrun & (Hs' & Ht' & Hd' & Hca' & Hpa' & Hal' & Hl' & Hdrop & Hfl') & Hfl & Hleft).
  cbn [rh_len] in Hdrop. unfold whole in Hdrop. rewrite dropZ_app_l, dropZ_all in Hdrop by lia. cbn [app] in Hdrop.
  eexists _, s', p', io'. split; [exact Hrun|]. cbn [cr_msg cr_pipeline].
  split; [done|]. split; [by destruct Hv as [-> | ->]|]. split; [exact Hget|]. split; [done|]. split.
  - intros n. apply exchange_ok; [done..|]. unfold answering. rewrite Hpa'. split_and!; try done.
    split; [done|]. exists (kind_decoder k2), k3. rewrite Hdrop. auto.
  - intros [Hf' Hle]%Hfl%Hfl'. split; [done|]. unfold exchange_left. rewrite Hpa'. unfold unread. rewrite Hdrop, Hpend.
    unfold whole. rewrite (length_app hd). lia.
Qed.

(** ** What goes wrong *)

(** No timeout ends the wait for a response: however often a request is polled whose
    response does not come, it stays unanswered, even with a timer that has fired. *)
Theorem response_wait_unbounded base k all (s : SendRequest) (p : Pipe) (io : Io) (parser : HttpResponseParser) (n : nat) :
  te_is_eof (te_encode_eof (te_encode_all (mkTE k []) all)) = true ->
  sr_state s = Send_Send p -> sending base k all p io -> cl_parser p = Some parser -> bm_data (cl_parser_buf p) = [] ->
  io_reads io = [] ->
  exists s' p', send_polls n s = Ret (NotReady, s') /\ sr_state s' = Send_Send p' /\ cl_timeout p' = cl_timeout p.
Proof.
  intros Hend. revert s p io. induction n as [|n IH]; intros s p io Hst Hs Hp Hb Hr; [by exists s, p|].
  cbn [send_polls]. unfold SendRequest_poll. remember 3%nat as f eqn:Hf. cbn [send_loop]. rewrite Hst.
  destruct (poll_write_sent base k all Hend p io Hs) as (r & p1 & io1 & -> & Hs1 & (S1 & S2 & S3 & _ & S5 & _) & Hne & _). cbn [mbind run_bind].
  pose proof Hs1 as (Hc1 & _). pose proof Hs as (Hc & _). rewrite Hc, Hc1 in S1. injection S1 as S1.
  assert (exists buf, bm_data buf = [] /\ forall s0, send_parse p1 s0 = Ret (NotReady,
    set_sr_state (Send_Send (set_cl_conn (Some (set_io_reads [] io1)) (set_cl_parser (Some parser) buf p1))) s0)) as (buf & Hbuf & Hparse).
  { unfold send_parse, cl_parse, response_parse, read_into. rewrite Hc1, S2, Hp, S3, Hb, S1, Hr. cbn [unwrap mbind run_bind].
    eexists. split; [|done]. destruct (reserved_spare (cl_parser_buf p)) as [_ ->]. done. }
  set (p2 := set_cl_conn _ _) in Hparse.
  destruct (IH (set_sr_state (Send_Send p2) (set_sr_state Send_None s)) p2 (set_io_reads [] io1)) as (s' & p' & Hrun & Hs' & Ht');
    [done|by apply sending_reads|done..|].
  exists s', p'. split; [|split; [done|by rewrite Ht']].
  destruct r as [u| |e]; [rewrite Hparse; exact Hrun..|by destruct (Hne e)].
Qed.
End Answered.

(** A decompressor that needs more before it gives anything parks the response: the poll
    answers [NotReady] behind a read that succeeded, whatever else is there to be read. *)
Lemma decompression_parks `{AL : Allocator} {Z' D : Type} `{PS : PayloadStream D} fuel (p : ClientPipeline Z' D) io parser
    parser' reads buf b d d' :
  cl_conn p = Some io -> cl_parser p = Some parser -> cl_decompress p = Some d ->
  parse_payload parser (io_reads io) (cl_parser_buf p) = Ret (Ready (Some b), parser', reads, buf) ->
  ps_feed_data b d = (Ok None, d') ->
  exists p', read_loop (S fuel) p = Ret (Some NotReady, p') /\ io_reads <$> cl_conn p' = Some reads.
Proof.
  intros Hc Hp Hd Hparse Hfeed. cbn [read_loop]. rewrite Hp, Hc. cbn [unwrap mbind run_bind]. rewrite Hparse. cbn [mbind run_bind].
  cbn [cl_decompress set_cl_conn set_cl_parser]. rewrite Hd, Hfeed. by eexists.
Qed.

(** A compressed response whose last bytes come out at its end gives the connection back
    although the request is still being written. *)
Lemma tail_releases_early {Z' D : Type} `{PS : PayloadStream D} (p : ClientPipeline Z' D) io d b d' :
  cl_conn p = Some io -> cl_decompress p = Some d -> ps_feed_eof d = (Ok (Some b), d') ->
  exists p', poll_end true p = (Ready (Some b), p') /\ cl_conn p' = None /\ cl_calls p' = cl_calls p ++ [Conn_release io].
Proof.
  intros Hc Hd He. unfold poll_end. rewrite Hd, He. eexists. split; [done|]. unfold release_conn.
  change (cl_conn (set_cl_decompress None p)) with (cl_conn p). by rewrite Hc.
Qed.

(** ** Witnesses *)
Definition answer_head : bytes := b#"HTTP/1.1 200 OK" ++ CRLF ++ b#"transfer-encoding: chunked" ++ CRLF ++ CRLF.
Definition answer_body : list Binary := [Bin_Bytes (b#"Hello, "); Bin_Bytes (b#"world!"); Bin_Bytes []].
Definition answer_bytes : bytes := answer_head ++ encoded (TE_Chunked false) answer_body ++ b#"HTTP/1.1".
Definition upload : BodyStream := [Ready (Some (b#"some ")); NotReady; Ready (Some (b#"data")); Ready None].
Definition a_connection : Io := mkIo (cut 20 answer_bytes) (replicate 400 (Ok 7)) [] [] false.
Definition up_request : ClientRequest hlist :=
  set_cq_body (Body_Streaming 0) (mkCQ (b#"http://localhost/up") (b#"POST") HTTP_11 [] Body_Empty false false None
    Enc_Identity false 32768).

Lemma answer_is_written :
  answers_with (H := hlist) (cut 20 answer_bytes) HTTP_11 200 [(TRANSFER_ENCODING, b#"chunked")] (b#"Hello, world!") (b#"HTTP/1.1").
Proof.
  split; [apply cut_alive; vm_compute; discriminate|]. split; [by right|]. split; [lia|]. split; [discriminate|].
  split; [reflexivity|]. split; [vm_compute; discriminate|].
  exists (b#"OK"), [(TRANSFER_ENCODING, b#"chunked")], (TE_Chunked false), answer_body, answer_head.
  split; [reflexivity|]. split; [vm_compute; split; [reflexivity|discriminate]|]. split.
  { intros s. unfold answer_head. rewrite <-!app_assoc.
    change (read_head ((b#"HTTP/1.1 200 OK") ++ CRLF ++ (b#"transfer-encoding: chunked" ++ CRLF ++ CRLF ++ s)) =
      Some (b#"HTTP/1.1 200 OK", [(TRANSFER_ENCODING, b#"chunked")], s)).
    unfold read_head. rewrite read_line_app by (repeat constructor; discriminate). cbn [mbind option_bind].
    pose proof (read_header_lines_app [(TRANSFER_ENCODING, b#"chunked")] s (length (b#"transfer-encoding: chunked" ++ CRLF ++ CRLF ++ s))) as Hr.
    change (concat (map header_line [(TRANSFER_ENCODING, b#"chunked")]) ++ CRLF ++ s) with (b#"transfer-encoding: chunked" ++ CRLF ++ CRLF ++ s) in Hr.
    rewrite Hr; [reflexivity| |].
    - apply (bool_decide_unpack _). vm_compute. exact I.
    - rewrite length_app. simpl. lia. }
  split; [by split|]. split; [exact I|]. split; [repeat constructor|]. split; [by intros key [-> | ->]|].
  split; [reflexivity|]. apply pending_cut.
Qed.

Definition connects_to (io : Io) (_ : Connect) : ConnectFut := mkConnFut (Some 1%nat) (Some (Ok io)).
Definition no_actors (_ : nat) : ActorContext := mkCtx [] false.
Definition no_uri (_ : bytes) : Uri := mkUri None None None.
Definition never (_ : Z) : Timer := None.

Lemma request_answered_witness :
  exists resp s' p q' k io',
    send_polls (H := hlist) (HC := plain_headers) (RP := line_responses) (CP := stored) (AL := exact_alloc)
      show_error up_target a_date no_spare (fun _ => upload) no_actors (connects_to a_connection) no_uri never 5
      (SendRequest_with_connector up_request) = Ret (Ready resp, s') /\
    cm_status (cr_msg resp) = 200 /\ cr_pipeline resp = Some p /\
    forall n, exchange (CP := stored) (AL := exact_alloc) show_error (request_text up_target a_date q') k (script_chunks upload)
      (b#"Hello, world!") (b#"HTTP/1.1") p io' n.
Proof.
  destruct (request_answered (H := hlist) (HC := plain_headers) (RP := line_responses) (HP := line_requests) (CP := stored)
    (AL := exact_alloc) (PS := plain_stream) show_error up_target a_date no_spare (fun _ => upload) no_actors
    (connects_to a_connection) no_uri never up_request 0 1 a_connection HTTP_11 200 [(TRANSFER_ENCODING, b#"chunked")]
    (b#"Hello, world!") (b#"HTTP/1.1")) as (q' & w1 & k & Hs & Hsame & Hann & Hok).
  - apply line_crates.
  - apply modest_exact.
  - split_and!; done.
  - reflexivity.
  - reflexivity.
  - reflexivity.
  - apply Forall_replicate. simpl. lia.
  - reflexivity.
  - reflexivity.
  - apply answer_is_written.
  - assert (run_post False (fun r => cq_headers r.1.2 = [(TRANSFER_ENCODING, b#"chunked")])
      (client_start (H := hlist) (CP := stored) (AL := exact_alloc) up_target a_date no_spare up_request
        (HttpClientWriter_new []))) as Hm by (vm_compute; reflexivity).
    rewrite Hs in Hm. cbn [run_post fst snd] in Hm. rewrite Hm in Hann.
    destruct k as [eof|n|]; [|exfalso; destruct Hann as (_ & Ha & _); vm_compute in Ha; discriminate Ha|exfalso; destruct Hann as [Ha _]; vm_compute in Ha; discriminate Ha].
    destruct Hok as (resp & s' & p & io' & Hrun & Hst & _ & _ & Hp & Hex & _); [exact I|].
    exists resp, s', p, q', (TE_Chunked eof), io'. split; [exact Hrun|]. split; [exact Hst|]. split; [exact Hp|exact Hex].
Defined.


(** An upload whose response does not come, with a timer that has fired. *)
Definition silent : Io := mkIo [] [Ok 100] [] [] false.
Definition idle_pipeline (body : BodyStream) (io : Io) (timer : Timer) : ClientPipeline unit unit :=
  mkCLP (IoB_Payload body) (Some io) (set_cw_capacity 10 (set_cw_encoder (CE_Identity (TE_Chunked false)) (HttpClientWriter_new (b#"PUT"))))
    (Some HttpResponseParser_default) (mkBM [] 0) false None None true Running (Some timer) [] [].
Definition silent_request : SendRequest hlist unit unit :=
  mkSR ClientRequest_default (Send_Send (idle_pipeline [Ready None] silent (Some 0%nat))) 1 5 None [].

Lemma idle_sending io : accepting io -> io_sent io = [] -> sending (b#"PUT") (TE_Chunked false) [] (idle_pipeline [Ready None] io (Some 0%nat)) io.
Proof.
  intros Ha Hs. split_and!; try done. simpl. split_and!; try done. exists [], (TE_Chunked false), [].
  split_and!; try done. unfold cw_out. by rewrite Hs.
Qed.

Lemma response_wait_unbounded_witness :
  exists s' p', send_polls (H := hlist) (HC := plain_headers) (RP := line_responses) (CP := stored) (AL := exact_alloc)
      show_error up_target a_date no_spare (fun _ => upload) no_actors (connects_to silent) no_uri never 1000 silent_request = Ret (NotReady, s') /\
    sr_state s' = Send_Send p' /\ cl_timeout p' = Some (Some 0%nat).
Proof.
  apply (response_wait_unbounded (H := hlist) (HC := plain_headers) (RP := line_responses) (CP := stored) (AL := exact_alloc)
    show_error up_target a_date no_spare (fun _ => upload) no_actors (connects_to silent) no_uri never (b#"PUT") (TE_Chunked false) []
    silent_request (idle_pipeline [Ready None] silent (Some 0%nat)) silent HttpResponseParser_default 1000); try reflexivity.
  apply idle_sending; [|reflexivity]. repeat constructor.
Defined.

(** A connection that is full for a moment. *)
Definition full_for_now : Io := mkIo [Ok answer_bytes] (Err would_block :: replicate 100 (Ok 100)) [] [] false.
Lemma request_tail_lost_witness :
  exists p' rs p2, poll_write (CP := stored) (idle_pipeline [Ready None] full_for_now (Some 0%nat)) = Ret (Ready tt, p') /\
    cw_buffer (cl_writer p') <> [] /\ body_polls (CP := stored) (AL := exact_alloc) show_error 1000 p' = Ret (rs, p2) /\
    written_off (cl_writer p') [] p2.
Proof.
  apply (request_tail_lost (CP := stored) (AL := exact_alloc) show_error (b#"PUT") (TE_Chunked false) [] eq_refl
    (idle_pipeline [Ready None] full_for_now (Some 0%nat)) full_for_now would_block [] (replicate 100 (Ok 100)) 1000); try reflexivity.
  - apply idle_sending; [|reflexivity]. constructor; [reflexivity|]. apply Forall_replicate. simpl. lia.
  - vm_compute. discriminate.
  - discriminate.
  - split; [by right|]. split; [|done]. intros parser [= <-] k Hk. discriminate Hk.
Defined.
