(* ===== verification/ClientBuilder.v ===== *)
(** * Building requests ([ClientRequestBuilder] of src/src/client/request.rs)

    Builder calls change the request until one of them fails; [body] takes the request out
    of the builder, with its default headers and cookies, and [send] starts it.  The url
    and http crates, the cookie jar and percent encoding are parameters. *)
From S2P Require Import Prelude StrLib Errors Http Response Router Transfer ContentEncoder H1Writer Pipeline ClientParser ClientWriter Connector ClientPipeline.
Open Scope Z_scope.

Definition HOST : bytes := b#"host".
Definition COOKIE : bytes := b#"cookie".
Definition HEAD_ : bytes := b#"HEAD".

(** [Url::parse] followed by [as_str], [Uri::try_from], and the parts of a [Uri]. *)
Class UrlCrate := {
  url_parse : bytes -> option bytes;
  uri_from : bytes -> option bytes;
  uri_parts_of : bytes -> Uri;
}.

(** [CookieJar] as requests use it: [delta] gives names and values of the changed cookies,
    at least one as soon as one was added; [percent_encode] with [USERINFO_ENCODE_SET]
    gives visible ASCII. *)
Class RequestCookies (J C : Type) := {
  rj_new : J;
  rj_add : C -> J -> J;
  rj_delta : J -> list (bytes * bytes);
  percent_encode : bytes -> bytes;
  rj_delta_added c j : rj_delta (rj_add c j) <> [];
  percent_encode_visible s : forallb value_byte (percent_encode s) = true;
}.

(** Where a request is sent: by the connector of the registry, by another one, or over a
    connection at hand. *)
Inductive ConnectionType_ : Type := Conn_Default | Conn_Connector (addr : nat) | Conn_Connection (conn : Io).

Section Building.
Context {H : Type} `{HM : HeaderMap H} `{HC : HeaderConv} `{UC : UrlCrate} {J C : Type} `{RC : RequestCookies J C}.
Notation Request := (ClientRequest H).

(** A request with its [conn], which only [send] looks at. *)
Record BuiltRequest : Type := mkBuilt { br_request : Request; br_conn : ConnectionType_ }.
Definition BuiltRequest_default : BuiltRequest := mkBuilt ClientRequest_default Conn_Default.

Record ClientRequestBuilder : Type := mkCB {
  cb_request : option BuiltRequest;
  cb_err : option HttpError;
  cb_cookies : option J;
  cb_default_headers : bool;
}.

Definition ClientRequest_build : ClientRequestBuilder := mkCB (Some BuiltRequest_default) None None true.

Definition set_cb_err (e : HttpError) (b : ClientRequestBuilder) : ClientRequestBuilder :=
  mkCB (cb_request b) (Some e) (cb_cookies b) (cb_default_headers b).

(** [parts]: the request, unless a call has failed. *)
Definition cb_parts (b : ClientRequestBuilder) : option BuiltRequest :=
  match cb_err b with Some _ => None | None => cb_request b end.
Definition with_request (f : Request -> Request) (b : ClientRequestBuilder) : ClientRequestBuilder :=
  match cb_parts b with
  | Some r => mkCB (Some (mkBuilt (f (br_request r)) (br_conn r))) (cb_err b) (cb_cookies b) (cb_default_headers b)
  | None => b
  end.
Definition with_conn (c : ConnectionType_) (b : ClientRequestBuilder) : ClientRequestBuilder :=
  match cb_parts b with
  | Some r => mkCB (Some (mkBuilt (br_request r) c)) (cb_err b) (cb_cookies b) (cb_default_headers b)
  | None => b
  end.

(** The fields that builder calls set. *)
Definition set_cq_uri v q := mkCQ (H := H) v (cq_method q) (cq_version q) (cq_headers q) (cq_body q) (cq_chunked q) (cq_upgrade q)
  (cq_timeout q) (cq_encoding q) (cq_response_decompress q) (cq_buffer_capacity q).
Definition set_cq_method v q := mkCQ (H := H) (cq_uri q) v (cq_version q) (cq_headers q) (cq_body q) (cq_chunked q) (cq_upgrade q)
  (cq_timeout q) (cq_encoding q) (cq_response_decompress q) (cq_buffer_capacity q).
Definition set_cq_version v q := mkCQ (H := H) (cq_uri q) (cq_method q) v (cq_headers q) (cq_body q) (cq_chunked q) (cq_upgrade q)
  (cq_timeout q) (cq_encoding q) (cq_response_decompress q) (cq_buffer_capacity q).
Definition set_cq_chunked v q := mkCQ (H := H) (cq_uri q) (cq_method q) (cq_version q) (cq_headers q) (cq_body q) v (cq_upgrade q)
  (cq_timeout q) (cq_encoding q) (cq_response_decompress q) (cq_buffer_capacity q).
Definition set_cq_upgrade v q := mkCQ (H := H) (cq_uri q) (cq_method q) (cq_version q) (cq_headers q) (cq_body q) (cq_chunked q) v
  (cq_timeout q) (cq_encoding q) (cq_response_decompress q) (cq_buffer_capacity q).
Definition set_cq_timeout v q := mkCQ (H := H) (cq_uri q) (cq_method q) (cq_version q) (cq_headers q) (cq_body q) (cq_chunked q)
  (cq_upgrade q) v (cq_encoding q) (cq_response_decompress q) (cq_buffer_capacity q).
Definition set_cq_encoding v q := mkCQ (H := H) (cq_uri q) (cq_method q) (cq_version q) (cq_headers q) (cq_body q) (cq_chunked q)
  (cq_upgrade q) (cq_timeout q) v (cq_response_decompress q) (cq_buffer_capacity q).
Definition set_cq_decompress v q := mkCQ (H := H) (cq_uri q) (cq_method q) (cq_version q) (cq_headers q) (cq_body q) (cq_chunked q)
  (cq_upgrade q) (cq_timeout q) (cq_encoding q) v (cq_buffer_capacity q).
Definition set_cq_capacity v q := mkCQ (H := H) (cq_uri q) (cq_method q) (cq_version q) (cq_headers q) (cq_body q) (cq_chunked q)
  (cq_upgrade q) (cq_timeout q) (cq_encoding q) (cq_response_decompress q) v.

Definition cb_method (method : bytes) := with_request (set_cq_method method).
Definition cb_version (v : Version) := with_request (set_cq_version v).
Definition cb_content_encoding (enc : ContentEncoding) := with_request (set_cq_encoding enc).
Definition cb_chunked := with_request (set_cq_chunked true).
Definition cb_upgrade := with_request (set_cq_upgrade true).
Definition cb_disable_decompress := with_request (set_cq_decompress false).
Definition cb_write_buffer_capacity (cap : Z) := with_request (set_cq_capacity cap).
Definition cb_timeout (timeout : Z) := with_request (set_cq_timeout (Some timeout)).
Definition cb_with_connector (addr : nat) := with_conn (Conn_Connector addr).
Definition cb_with_connection (conn : Io) := with_conn (Conn_Connection conn).
Definition cb_get_method (b : ClientRequestBuilder) : run bytes :=
  r ← unwrap (cb_parts b); Ret (cq_method (br_request r)).

(** [set]: a typed header, [name] with the value it renders to. *)
Definition cb_set (name : bytes) (value : option bytes) (b : ClientRequestBuilder) : ClientRequestBuilder :=
  match cb_parts b with
  | Some _ =>
      match value with
      | Some value => with_request (cq_insert name value) b
      | None => set_cb_err HE_HeaderValue b
      end
  | None => b
  end.

(** [header] and [set_header]: the value is put with [put]. *)
Definition put_header (put : bytes -> bytes -> H -> H) (key value : bytes) (b : ClientRequestBuilder) : ClientRequestBuilder :=
  match cb_parts b with
  | Some _ =>
      match hn_try_from key with
      | Some key =>
          match hv_try_from value with
          | Some value => with_request (fun q => set_cq_headers (put key value (cq_headers q)) q) b
          | None => set_cb_err HE_HeaderValue b
          end
      | None => set_cb_err HE_HeaderName b
      end
  | None => b
  end.
Definition cb_header := put_header hm_append.
Definition cb_set_header := put_header hm_insert.

Definition cb_content_type (value : bytes) (b : ClientRequestBuilder) : ClientRequestBuilder :=
  match cb_parts b with
  | Some _ =>
      match hv_try_from value with
      | Some value => with_request (cq_insert CONTENT_TYPE value) b
      | None => set_cb_err HE_HeaderValue b
      end
  | None => b
  end.
Definition cb_content_length (len : Z) := cb_header CONTENT_LENGTH (format_decimal len).

(** [_uri]: the Host header is set first. *)
Definition cb_uri_ (url : bytes) (b : ClientRequestBuilder) : ClientRequestBuilder :=
  match uri_from url with
  | Some uri =>
      let b := match uri_host (uri_parts_of uri) with Some host => cb_set_header HOST host b | None => b end in
      with_request (set_cq_uri uri) b
  | None => set_cb_err HE_Uri b
  end.
Definition cb_uri (uri : bytes) (b : ClientRequestBuilder) : ClientRequestBuilder :=
  match url_parse uri with
  | Some url => cb_uri_ url b
  | None => cb_uri_ uri b
  end.

Definition cb_cookie (c : C) (b : ClientRequestBuilder) : ClientRequestBuilder :=
  mkCB (cb_request b) (cb_err b) (Some (rj_add c (default rj_new (cb_cookies b)))) (cb_default_headers b).
Definition cb_no_default_headers (b : ClientRequestBuilder) : ClientRequestBuilder :=
  mkCB (cb_request b) (cb_err b) (cb_cookies b) false.
Definition cb_if_true (value : bool) (f : ClientRequestBuilder -> ClientRequestBuilder) (b : ClientRequestBuilder) :=
  if value then f b else b.
Definition cb_if_some {T} (value : option T) (f : T -> ClientRequestBuilder -> ClientRequestBuilder) (b : ClientRequestBuilder) :=
  match value with Some v => f v b | None => b end.

Definition ClientRequest_with (method uri : bytes) : ClientRequestBuilder := cb_uri uri (cb_method method ClientRequest_build).
Definition ClientRequest_get := ClientRequest_with GET.
Definition ClientRequest_head := ClientRequest_with HEAD_.
Definition ClientRequest_post := ClientRequest_with (b#"POST").
Definition ClientRequest_put := ClientRequest_with (b#"PUT").
Definition ClientRequest_delete := ClientRequest_with (b#"DELETE").

(** [From<&HttpRequest>]: the headers and the method. *)
Definition builder_from_request (method : bytes) (headers : H) : ClientRequestBuilder :=
  cb_method method (foldl (fun b kv => cb_header kv.1 kv.2 b) ClientRequest_build (hm_iter headers)).

(** ** Ending the builder *)

(** The loop over the cookies, and what [body] takes of it. *)
Definition cookie_text (cookies : list (bytes * bytes)) : bytes :=
  concat (map (fun '(name, value) => b#"; " ++ percent_encode name ++ b#"=" ++ percent_encode value) cookies).
Definition cookie_header (jar : J) : run bytes :=
  text ← slice_from 2 (cookie_text (rj_delta jar)); unwrap (hv_try_from text).

Definition accept_default (b : ClientRequestBuilder) : ClientRequestBuilder :=
  if cb_default_headers b then
    (* enable br only for https *)
    let https := match cb_parts b with
                 | Some r => match uri_scheme (uri_parts_of (cq_uri (br_request r))) with
                             | Some s => bool_decide (s = b#"https")
                             | None => true
                             end
                 | None => true
                 end in
    if https then cb_header ACCEPT_ENCODING (b#"br, gzip, deflate") b
    else cb_header ACCEPT_ENCODING (b#"gzip, deflate") b
  else b.

Definition cb_body (body : Body) (b : ClientRequestBuilder) : run (result BuiltRequest HttpError * ClientRequestBuilder) :=
  match cb_err b with
  | Some e => Ret (Err e, mkCB (cb_request b) None (cb_cookies b) (cb_default_headers b))
  | None =>
      let b := accept_default b in
      request ← unwrap (cb_request b);
      let b := mkCB None (cb_err b) (cb_cookies b) (cb_default_headers b) in
      (* set cookies *)
      q ← match cb_cookies b with
          | Some jar => v ← cookie_header jar; Ret (cq_insert COOKIE v (br_request request))
          | None => Ret (br_request request)
          end;
      Ret (Ok (mkBuilt (set_cq_body body q) (br_conn request)), b)
  end.

(** [json], with what [serde_json::to_string] answers. *)
Definition cb_json (body : option Body) (b : ClientRequestBuilder) : run (result BuiltRequest Error * ClientRequestBuilder) :=
  match body with
  | None => Ret (Err (Error_from JsonErr), b)
  | Some body =>
      let contains := match cb_parts b with
                      | Some r => hm_contains CONTENT_TYPE (cq_headers (br_request r))
                      | None => true
                      end in
      let b := if contains then b else cb_header CONTENT_TYPE (b#"application/json") b in
      '(r, b) ← cb_body body b;
      Ret (match r with Ok r => Ok r | Err e => Err (Error_from e) end, b)
  end.
Definition cb_streaming (stream : nat) := cb_body (Body_Streaming stream).
Definition cb_finish := cb_body Body_Empty.
Definition cb_take (b : ClientRequestBuilder) : ClientRequestBuilder * ClientRequestBuilder :=
  (b, mkCB None None None (cb_default_headers b)).

(** [send]: which connector is asked ([None]: the one of the registry), and the future. *)
Definition ClientRequest_send {Z' D : Type} (new_timer : Z -> Timer) (r : BuiltRequest) : option nat * SendRequest H Z' D :=
  let timeout := cq_timeout (br_request r) in
  let q := set_cq_timeout None (br_request r) in
  let '(addr, send) := match br_conn r with
                       | Conn_Default => (None, SendRequest_with_connector q)
                       | Conn_Connector addr => (Some addr, SendRequest_with_connector q)
                       | Conn_Connection conn => (None, SendRequest_with_connection q conn)
                       end in
  match timeout with
  | Some timeout => (addr, sr_set_timeout new_timer timeout send)
  | None => (addr, send)
  end.
End Building.
Arguments BuiltRequest : clear implicits.
Arguments ClientRequestBuilder : clear implicits.

(** ** Which request a sequence of builder calls gives *)

Section Built.
Context {H : Type} `{HM : HeaderMap H} `{HC : HeaderConv} `{UC : UrlCrate} {J C : Type} `{RC : RequestCookies J C}.
Notation Builder := (ClientRequestBuilder H J).

Inductive builder_call : Type :=
| Call_uri (u : bytes)
| Call_method (m : bytes)
| Call_version (v : Version)
| Call_encoding (e : ContentEncoding)
| Call_chunked
| Call_upgrade
| Call_disable_decompress
| Call_capacity (n : Z)
| Call_timeout (t : Z)
| Call_connector (addr : nat)
| Call_connection (io : Io)
| Call_set (name : bytes) (value : option bytes)
| Call_header (k v : bytes)
| Call_set_header (k v : bytes)
| Call_content_type (v : bytes)
| Call_content_length (n : N)
| Call_cookie (c : C)
| Call_no_default_headers.

Definition do_call (b : Builder) (c : builder_call) : Builder :=
  match c with
  | Call_uri u => cb_uri u b
  | Call_method m => cb_method m b
  | Call_version v => cb_version v b
  | Call_encoding e => cb_content_encoding e b
  | Call_chunked => cb_chunked b
  | Call_upgrade => cb_upgrade b
  | Call_disable_decompress => cb_disable_decompress b
  | Call_capacity n => cb_write_buffer_capacity n b
  | Call_timeout t => cb_timeout t b
  | Call_connector a => cb_with_connector a b
  | Call_connection io => cb_with_connection io b
  | Call_set name value => cb_set name value b
  | Call_header k v => cb_header k v b
  | Call_set_header k v => cb_set_header k v b
  | Call_content_type v => cb_content_type v b
  | Call_content_length n => cb_content_length (Z.of_N n) b
  | Call_cookie c => cb_cookie c b
  | Call_no_default_headers => cb_no_default_headers b
  end.

(** *** The reference: each field has the last value set, headers are edited in order *)

Definition call_target (u : bytes) : option bytes := uri_from (default u (url_parse u)).
Definition valid_header (k v : bytes) : bool := bool_decide (is_Some (hn_try_from k)) && forallb value_byte v.

(** Whether a call succeeds depends on its arguments only. *)
Definition call_ok (c : builder_call) : bool :=
  match c with
  | Call_uri u =>
      match call_target u with
      | Some uri => forallb value_byte (default [] (uri_host (uri_parts_of uri)))
      | None => false
      end
  | Call_set _ value => bool_decide (is_Some value)
  | Call_header k v | Call_set_header k v => valid_header k v
  | Call_content_type v => forallb value_byte v
  | _ => true
  end.

Definition edit_headers (h : H) (c : builder_call) : H :=
  match c with
  | Call_uri u =>
      match call_target u with
      | Some uri => match uri_host (uri_parts_of uri) with Some host => hm_insert HOST host h | None => h end
      | None => h
      end
  | Call_set name (Some v) => hm_insert name v h
  | Call_header k v => hm_append (default k (hn_try_from k)) v h
  | Call_set_header k v => hm_insert (default k (hn_try_from k)) v h
  | Call_content_type v => hm_insert CONTENT_TYPE v h
  | Call_content_length n => hm_append CONTENT_LENGTH (format_decimal (Z.of_N n)) h
  | _ => h
  end.

Definition last_set {A} (f : builder_call -> option A) (calls : list builder_call) (a : A) : A :=
  foldl (fun a c => default a (f c)) a calls.
Definition edited (calls : list builder_call) (q : ClientRequest H) : ClientRequest H :=
  mkCQ (last_set (fun c => match c with Call_uri u => call_target u | _ => None end) calls (cq_uri q))
    (last_set (fun c => match c with Call_method m => Some m | _ => None end) calls (cq_method q))
    (last_set (fun c => match c with Call_version v => Some v | _ => None end) calls (cq_version q))
    (foldl edit_headers (cq_headers q) calls)
    (cq_body q)
    (last_set (fun c => match c with Call_chunked => Some true | _ => None end) calls (cq_chunked q))
    (last_set (fun c => match c with Call_upgrade => Some true | _ => None end) calls (cq_upgrade q))
    (last_set (fun c => match c with Call_timeout t => Some (Some t) | _ => None end) calls (cq_timeout q))
    (last_set (fun c => match c with Call_encoding e => Some e | _ => None end) calls (cq_encoding q))
    (last_set (fun c => match c with Call_disable_decompress => Some false | _ => None end) calls (cq_response_decompress q))
    (last_set (fun c => match c with Call_capacity n => Some n | _ => None end) calls (cq_buffer_capacity q)).
Definition destination (calls : list builder_call) (c : ConnectionType_) : ConnectionType_ :=
  last_set (fun c => match c with Call_connector a => Some (Conn_Connector a) | Call_connection io => Some (Conn_Connection io) | _ => None end)
    calls c.
Definition cookies_of (calls : list builder_call) : list C :=
  omap (fun c => match c with Call_cookie c => Some c | _ => None end) calls.
Definition wants_defaults (calls : list builder_call) : bool :=
  forallb (fun c => match c with Call_no_default_headers => false | _ => true end) calls.

(** The Accept-Encoding header, unless the caller does without: brotli for https only. *)
Definition accepting (calls : list builder_call) (q : ClientRequest H) : ClientRequest H :=
  if wants_defaults calls then
    let plain := match uri_scheme (uri_parts_of (cq_uri q)) with Some s => negb (bool_decide (s = b#"https")) | None => false end in
    set_cq_headers (hm_append ACCEPT_ENCODING (if plain then b#"gzip, deflate" else b#"br, gzip, deflate") (cq_headers q)) q
  else q.
(** The Cookie header: the pairs separated by a semicolon and a space. *)
Fixpoint cookie_pairs (cookies : list (bytes * bytes)) : bytes :=
  match cookies with
  | [] => []
  | [(n, v)] => percent_encode n ++ b#"=" ++ percent_encode v
  | (n, v) :: cookies => percent_encode n ++ b#"=" ++ percent_encode v ++ b#"; " ++ cookie_pairs cookies
  end.
Definition with_cookies (calls : list builder_call) (q : ClientRequest H) : ClientRequest H :=
  match cookies_of calls with
  | [] => q
  | cs => cq_insert COOKIE (cookie_pairs (rj_delta (foldl (fun j c => rj_add c j) rj_new cs))) q
  end.
Definition requested (calls : list builder_call) (body : Body) : BuiltRequest H :=
  mkBuilt (set_cq_body body (with_cookies calls (accepting calls (edited calls ClientRequest_default))))
    (destination calls Conn_Default).

(** *** Proofs *)

Lemma last_set_cons {A} (f : builder_call -> option A) c calls a :
  last_set f (c :: calls) a = last_set f calls (default a (f c)).
Proof. done. Qed.

Hypothesis names : forall k, k ∈ [HOST; CONTENT_LENGTH; ACCEPT_ENCODING] -> hn_try_from k = Some k.

(** One call on a builder that has not failed. *)
Definition ready (q : ClientRequest H) (to : ConnectionType_) (b : Builder) : Prop :=
  cb_request b = Some (mkBuilt q to) /\ cb_err b = None.

Lemma ready_parts q to b : ready q to b -> cb_parts b = Some (mkBuilt q to).
Proof. by intros [Hq He]; unfold cb_parts; rewrite He. Qed.

Lemma with_request_ready f q to b : ready q to b -> ready (f q) to (with_request f b).
Proof. intros Hb. unfold with_request. rewrite (ready_parts _ _ _ Hb). by destruct Hb. Qed.

Lemma put_header_ready put k v q to b :
  ready q to b -> valid_header k v = true ->
  ready (set_cq_headers (put (default k (hn_try_from k)) v (cq_headers q)) q) to (put_header put k v b).
Proof.
  intros Hb [[k' Hk]%bool_decide_eq_true Hv]%andb_true_iff. unfold put_header.
  rewrite (ready_parts _ _ _ Hb), Hk, (hv_try_from_ok v Hv). simpl. by apply (with_request_ready (fun q => set_cq_headers (put k' v (cq_headers q)) q) _ _ _ Hb).
Qed.

Lemma put_header_fails put k v q to b :
  ready q to b -> valid_header k v = false -> is_Some (cb_err (put_header put k v b)).
Proof.
  intros Hb Hkv. unfold put_header. rewrite (ready_parts _ _ _ Hb). unfold valid_header in Hkv.
  destruct (hn_try_from k) as [k'|]; [|done]. rewrite bool_decide_true in Hkv by done. simpl in Hkv.
  by rewrite hv_try_from_bad.
Qed.

Lemma valid_known k v : k ∈ [HOST; CONTENT_LENGTH; ACCEPT_ENCODING] -> forallb value_byte v = true -> valid_header k v = true.
Proof. intros Hk Hv. unfold valid_header. by rewrite (names k Hk), Hv. Qed.


Lemma edit_ready c q to b b' :
  ready (set_cq_headers (edit_headers (cq_headers q) c) q) to b' ->
  edited [c] q = set_cq_headers (edit_headers (cq_headers q) c) q -> destination [c] to = to -> b = b' ->
  ready (edited [c] q) (destination [c] to) b.
Proof. by intros ? -> -> ->. Qed.

Lemma failed_parts (b : Builder) e : cb_err b = Some e -> cb_parts b = None.
Proof. intros He. unfold cb_parts. by rewrite He. Qed.

(** Setting the target also sets the Host header. *)
Lemma cb_uri_ready u q to b :
  ready q to b ->
  if call_ok (Call_uri u) then ready (edited [Call_uri u] q) (destination [Call_uri u] to) (cb_uri u b)
  else is_Some (cb_err (cb_uri u b)).
Proof.
  intros Hb. cbn [call_ok].
  assert (cb_uri u b = cb_uri_ (default u (url_parse u)) b) as -> by (unfold cb_uri; by destruct (url_parse u)).
  unfold cb_uri_. fold (call_target u). destruct (call_target u) as [uri|] eqn:Ht; [|by eexists].
  unfold edited, destination, last_set. cbn [foldl edit_headers]. rewrite Ht. cbn [default from_option id].
  destruct (uri_host (uri_parts_of uri)) as [host|]; cbn [default from_option id].
  - destruct (forallb value_byte host) eqn:Hv.
    + pose proof (put_header_ready hm_insert HOST host q to b Hb (valid_known HOST host ltac:(set_solver) Hv)) as Hr.
      rewrite (names HOST ltac:(set_solver)) in Hr. apply (with_request_ready (set_cq_uri uri) _ _ _ Hr).
    + assert (is_Some (cb_err (cb_set_header HOST host b))) as [e Herr].
      { eapply put_header_fails; [done|]. unfold valid_header. rewrite Hv. by destruct (bool_decide _). }
      exists e. unfold with_request. by rewrite (failed_parts _ e Herr).
  - apply (with_request_ready (set_cq_uri uri) _ _ _ Hb).
Qed.

(** What a call makes of the request: [edited] over one call. *)
Lemma do_call_ready c q to b :
  ready q to b ->
  if call_ok c then ready (edited [c] q) (destination [c] to) (do_call b c)
  else is_Some (cb_err (do_call b c)).
Proof.
  intros Hb. pose proof (ready_parts _ _ _ Hb) as Hp. pose proof Hb as [Hq He].
  destruct c; cbn [call_ok do_call];
    try (match goal with |- ready _ _ (_ _ ?b0) => idtac | |- ready _ _ (_ ?b0) => idtac end;
         split; unfold cb_method, cb_version, cb_content_encoding, cb_chunked, cb_upgrade, cb_disable_decompress,
           cb_write_buffer_capacity, cb_timeout, cb_with_connector, cb_with_connection, with_request, with_conn, cb_cookie, cb_no_default_headers;
         rewrite ?Hp; cbn; rewrite ?Hq; by destruct q).
  - by apply cb_uri_ready.
  - unfold cb_set. rewrite Hp. destruct value as [v|]; [|by eexists].
    apply (with_request_ready (cq_insert name v) _ _ _ Hb).
  - destruct (valid_header k v) eqn:Hv; [by apply (put_header_ready hm_append)|by eapply put_header_fails].
  - destruct (valid_header k v) eqn:Hv; [by apply (put_header_ready hm_insert)|by eapply put_header_fails].
  - unfold cb_content_type. rewrite Hp. destruct (forallb value_byte v) eqn:Hv.
    + rewrite hv_try_from_ok by done. apply (with_request_ready (cq_insert CONTENT_TYPE v) _ _ _ Hb).
    + rewrite hv_try_from_bad by done. by eexists.
  - pose proof (put_header_ready hm_append CONTENT_LENGTH (format_decimal (Z.of_N n)) q to b Hb) as Hr.
    rewrite (names CONTENT_LENGTH ltac:(set_solver)) in Hr. apply Hr, valid_known; [set_solver|]. apply decimal_header_value. lia.
Qed.

Lemma edited_cons c calls q : edited (c :: calls) q = edited calls (edited [c] q).
Proof. done. Qed.

(** A builder that has failed stays failed. *)
Lemma do_call_failed c b : is_Some (cb_err b) -> is_Some (cb_err (do_call b c)).
Proof.
  intros [e He]. pose proof (failed_parts b e He) as Hp.
  assert (forall put k v, put_header put k v b = b) as Hh by (intros; unfold put_header; by rewrite Hp).
  destruct c; cbn [do_call]; unfold cb_method, cb_version, cb_content_encoding, cb_chunked, cb_upgrade, cb_disable_decompress,
    cb_write_buffer_capacity, cb_timeout, cb_with_connector, cb_with_connection, cb_set, cb_content_type, with_request, with_conn,
    cb_content_length, cb_header, cb_set_header; rewrite ?Hh, ?Hp; try (by eexists); [].
  unfold cb_uri. assert (forall t, is_Some (cb_err (cb_uri_ t b))) as Hu; [|by destruct (url_parse u)].
  intros t. unfold cb_uri_. destruct (uri_from t) as [uri|]; [|by eexists].
  assert (forall host, cb_set_header HOST host b = b) as Hs by (intros; apply Hh).
  destruct (uri_host _); rewrite ?Hs; unfold with_request; rewrite Hp; by eexists.
Qed.

Lemma do_calls calls q to b :
  ready q to b ->
  if forallb call_ok calls then ready (edited calls q) (destination calls to) (foldl do_call b calls)
  else is_Some (cb_err (foldl do_call b calls)).
Proof.
  revert q to b. induction calls as [|c calls IH]; intros q to b Hb; [by destruct q|].
  pose proof (do_call_ready c q to b Hb) as Hc. simpl. destruct (call_ok c); simpl.
  - apply (IH _ _ _ Hc).
  - clear - Hc. revert Hc. generalize (do_call b c). induction calls as [|c' calls IH]; intros b0 Hb0; [done|].
    apply IH. by apply do_call_failed.
Qed.

(** Cookies and the wish for default headers are kept beside the request. *)
Definition add_cookies (jar : option J) (cs : list C) : option J :=
  match cs with [] => jar | _ => Some (foldl (fun j c => rj_add c j) (default rj_new jar) cs) end.

Lemma do_call_others c b :
  cb_cookies (do_call b c) = add_cookies (cb_cookies b) (cookies_of [c]) /\
  cb_default_headers (do_call b c) = cb_default_headers b && wants_defaults [c].
Proof.
  destruct c; cbn [do_call cookies_of wants_defaults omap list_omap forallb add_cookies foldl andb];
    rewrite ?andb_true_r, ?andb_false_r; try done;
    unfold cb_uri, cb_uri_, cb_method, cb_version, cb_content_encoding, cb_chunked, cb_upgrade, cb_disable_decompress,
      cb_write_buffer_capacity, cb_timeout, cb_with_connector, cb_with_connection, cb_set, cb_content_type, cb_content_length,
      cb_header, cb_set_header, put_header, with_request, with_conn, set_cb_err; by repeat case_match.
Qed.

Lemma add_cookies_app jar cs cs' : add_cookies (add_cookies jar cs) cs' = add_cookies jar (cs ++ cs').
Proof.
  destruct cs as [|c cs]; [done|]. destruct cs' as [|c' cs']; [by rewrite app_nil_r|].
  cbn [add_cookies app default from_option id]. by rewrite !app_comm_cons, foldl_app.
Qed.

Lemma do_calls_others calls b :
  cb_cookies (foldl do_call b calls) = add_cookies (cb_cookies b) (cookies_of calls) /\
  cb_default_headers (foldl do_call b calls) = cb_default_headers b && wants_defaults calls.
Proof.
  revert b. induction calls as [|c calls IH]; intros b; simpl foldl; [by rewrite andb_true_r|].
  destruct (IH (do_call b c)) as [-> ->], (do_call_others c b) as [-> ->].
  rewrite add_cookies_app. split.
  - do 2 f_equal. unfold cookies_of. by destruct c.
  - unfold wants_defaults. simpl. by rewrite andb_true_r, andb_assoc.
Qed.

(** The text of the Cookie header. *)
Lemma cookie_text_pairs cookies : cookies <> [] -> cookie_text cookies = b#"; " ++ cookie_pairs cookies.
Proof.
  induction cookies as [|[n v] cookies IH]; intros Hne; [done|]. unfold cookie_text in *. cbn [map concat].
  rewrite <-!app_assoc. f_equal. destruct cookies as [|c cookies]; [by rewrite !app_nil_r|].
  by rewrite IH.
Qed.

Lemma cookie_pairs_visible cookies : forallb value_byte (cookie_pairs cookies) = true.
Proof.
  induction cookies as [|[n v] cookies IH]; [done|]. destruct cookies as [|c cookies].
  - cbn [cookie_pairs]. by rewrite !forallb_app, !percent_encode_visible.
  - change (cookie_pairs ((n, v) :: c :: cookies)) with
      (percent_encode n ++ b#"=" ++ percent_encode v ++ b#"; " ++ cookie_pairs (c :: cookies)).
    by rewrite !forallb_app, !percent_encode_visible, IH.
Qed.

Lemma cookie_header_ok jar : rj_delta jar <> [] -> cookie_header jar = Ret (cookie_pairs (rj_delta jar)).
Proof.
  intros Hne. unfold cookie_header. rewrite (cookie_text_pairs _ Hne), slice_from_ok by (rewrite lenZ_app; change (lenZ (b#"; ")) with 2; pose proof (lenZ_nonneg (cookie_pairs (rj_delta jar))); lia).
  cbn [mbind run_bind]. change (dropZ 2 (b#"; " ++ ?s)) with s. by rewrite hv_try_from_ok by apply cookie_pairs_visible.
Qed.

Lemma accept_default_ready q to b :
  ready q to b ->
  ready (if cb_default_headers b then
           let plain := match uri_scheme (uri_parts_of (cq_uri q)) with Some s => negb (bool_decide (s = b#"https")) | None => false end in
           set_cq_headers (hm_append ACCEPT_ENCODING (if plain then b#"gzip, deflate" else b#"br, gzip, deflate") (cq_headers q)) q
         else q) to (accept_default b).
Proof.
  intros Hb. unfold accept_default. destruct (cb_default_headers b); [|done]. rewrite (ready_parts _ _ _ Hb). cbn [br_request].
  assert (forall v, forallb value_byte v = true ->
    ready (set_cq_headers (hm_append ACCEPT_ENCODING v (cq_headers q)) q) to (cb_header ACCEPT_ENCODING v b)) as Hv.
  { intros v Hv. pose proof (put_header_ready hm_append ACCEPT_ENCODING v q to b Hb (valid_known ACCEPT_ENCODING v ltac:(set_solver) Hv)) as Hr.
    by rewrite (names ACCEPT_ENCODING ltac:(set_solver)) in Hr. }
  destruct (uri_scheme _) as [s|]; [destruct (bool_decide _)|]; cbn [negb]; by apply Hv.
Qed.

Lemma body_built (calls : list builder_call) (body : Body) :
  exists r b, cb_body body (foldl do_call ClientRequest_build calls) = Ret (r, b) /\ cb_err b = None /\
    match r with
    | Ok q => forallb call_ok calls = true /\ q = requested calls body /\ cb_request b = None
    | Err _ => forallb call_ok calls = false
    end.
Proof.
  pose proof (do_calls calls ClientRequest_default Conn_Default ClientRequest_build (conj eq_refl eq_refl)) as Hc.
  destruct (do_calls_others calls ClientRequest_build) as [Hj Hd]. unfold cb_body. destruct (forallb call_ok calls) eqn:Hok.
  - pose proof (accept_default_ready _ _ _ Hc) as [Hq He]. destruct Hc as [_ ->].
    assert (cb_cookies (accept_default (foldl do_call ClientRequest_build calls)) = cb_cookies (foldl do_call ClientRequest_build calls)) as Ha.
    { unfold accept_default, cb_header, put_header, with_request, set_cb_err. by repeat case_match. }
    rewrite Hd in Hq. rewrite Hq. cbn [unwrap mbind run_bind cb_cookies cb_err br_request br_conn]. rewrite Ha, Hj.
    destruct (cookies_of calls) as [|c cs] eqn:Hcs; cbn [add_cookies cb_cookies ClientRequest_build default from_option].
    + do 2 eexists. split; [done|]. split; [done|]. split_and!; [done| |done]. unfold requested, with_cookies. by rewrite Hcs.
    + rewrite cookie_header_ok.
      * do 2 eexists. split; [done|]. split; [done|]. split_and!; [done| |done]. unfold requested, with_cookies. by rewrite Hcs.
      * clear. cbn [foldl]. revert c. induction cs as [|c' cs IH] using rev_ind; intros c; [apply rj_delta_added|].
        rewrite foldl_app. apply rj_delta_added.
  - destruct Hc as [e ->]. by do 2 eexists.
Qed.

(** C40. Whatever calls are made on a new builder, [body] does not panic.  It fails exactly when
    a call failed, which its arguments decide; otherwise each field of the request has the
    value set last, the headers are those of the calls in order followed by Accept-Encoding
    (brotli for https only), and the cookies make one Cookie header.  The request is taken: the
    builder holds none afterwards. *)
Theorem request_built (calls : list builder_call) (body : Body) :
  exists r b, cb_body body (foldl do_call ClientRequest_build calls) = Ret (r, b) /\ cb_err b = None /\
    match r with
    | Ok q => forallb call_ok calls = true /\ q = requested calls body /\ cb_request b = None
    | Err _ => forallb call_ok calls = false
    end.
Proof. apply body_built. Qed.
End Built.

(** ** A concrete url crate and cookie jar *)

#[export] Instance slash_urls : UrlCrate :=
  {| url_parse u := if starts_with (b#"http") u then Some u else None;
     uri_from u := if forallb (fun b => (33 <=? b) && (b <=? 126)) u then Some u else None;
     uri_parts_of u := match split_on 47 u with
                       | s :: [] :: h :: _ => mkUri (Some (removelast s)) (Some h) None
                       | _ => mkUri None None None
                       end |}.

Definition escape (b : Z) : bytes := if token_byte b then [b] else [37; digit_char (b / 16 mod 16); digit_char (b mod 16)].
Lemma escape_visible b : forallb value_byte (escape b) = true.
Proof.
  unfold escape. destruct (token_byte b) eqn:Hb; [unfold token_byte in Hb; unfold value_byte; cbn; lia|].
  cbn. unfold digit_char, value_byte. pose proof (Z.mod_pos_bound b 16). pose proof (Z.mod_pos_bound (b / 16) 16).
  repeat case_match; lia.
Qed.

#[export] Instance listed_cookies : RequestCookies (list (bytes * bytes)) (bytes * bytes).
Proof.
  refine {| rj_new := []; rj_add c j := filter (fun d => d.1 <> c.1) j ++ [c]; rj_delta j := j;
            percent_encode s := concat (map escape s) |}.
  - intros c j. by destruct (filter _ j).
  - induction s as [|b s IH]; [done|]. cbn [map concat]. by rewrite forallb_app, escape_visible, IH.
Defined.

Definition some_calls : list builder_call :=
  [Call_method (b#"POST"); Call_uri (b#"http://h.org/x"); Call_cookie (b#"id", b#"a b"); Call_header (b#"X-Test") (b#"1");
   Call_cookie (b#"k", b#"v"); Call_timeout 7; Call_content_length 12; Call_header (b#"x-test") (b#"2")].

Lemma request_built_witness :
  exists b, cb_body (HC := ascii_conv) Body_Empty (foldl (do_call (HC := ascii_conv)) (ClientRequest_build (H := hlist)) some_calls) =
    Ret (Ok (mkBuilt (mkCQ (b#"http://h.org/x") (b#"POST") HTTP_11
      [(b#"host", b#"h.org"); (b#"x-test", b#"1"); (b#"content-length", b#"12"); (b#"x-test", b#"2");
       (b#"accept-encoding", b#"gzip, deflate"); (b#"cookie", b#"id=a%20b; k=v")]
      Body_Empty false false (Some 7) Enc_Auto true 32768) Conn_Default), b).
Proof.
  destruct (request_built (H := hlist) (HC := ascii_conv) (J := list (bytes * bytes))) with (calls := some_calls) (body := Body_Empty)
    as (r & b & Hr & _ & Hq).
  - intros k Hk. apply list_elem_of_In in Hk. destruct Hk as [<-|[<-|[<-|[]]]]; reflexivity.
  - exists b. rewrite Hr. destruct r as [q|e]; [|vm_compute in Hq; discriminate Hq]. destruct Hq as (_ & -> & _). reflexivity.
Defined.
