(* ===== verification/Contexts.v ===== *)
(** * Contexts of actors that write a response (src/src/context.rs, src/src/ws/context.rs)

    An actor writes to its context; the context hands the frames over when it is polled.
    The executor of the actor ([ContextImpl] of the actix crate) is known by what a poll
    of it comes to: the calls that the actor makes on its context, and whether it fails.
    [HttpContext] and [WebsocketContext] differ in the calls they offer. *)
From S2P Require Import Prelude Words StrLib Errors Http Response PayloadHelper WsMask WsProto WsFrame Pipeline.
Open Scope Z_scope.

(** [ContextImpl]: the calls of a poll depend on whether the context is still connected;
    the state that a poll leaves has the marks ([modify]) of its calls. *)
Class ContextImpl (I call : Type) := {
  ci_alive : I -> bool;
  ci_stop : I -> I;
  ci_modify : I -> I;
  ci_poll : bool -> I -> list call * bool * I;
}.

Definition ErrorInternalServerError : Error := mkError 500.

Section Contexts.
Context {I call : Type} `{CI : ContextImpl I call}.

(** [HttpContext] and [WebsocketContext]; the request is only handed back to the actor. *)
Record Ctx : Type := mkActorCtx {
  cx_inner : I;
  cx_stream : option (list ActorFrame);
  cx_disconnected : bool;
}.

(** [from_request] and [actor]: [inner] has its actor. *)
Definition ctx_new (inner : I) : Ctx := mkActorCtx inner None false.

Definition add_frame (frame : ActorFrame) (c : Ctx) : Ctx :=
  mkActorCtx (ci_modify (cx_inner c)) (Some (default [] (cx_stream c) ++ [frame])) (cx_disconnected c).
Definition ctx_write (data : Binary) (c : Ctx) : Ctx :=
  if negb (cx_disconnected c) then add_frame (Frame_Chunk (Some data)) c else c.
Definition ctx_write_eof (c : Ctx) : Ctx := add_frame (Frame_Chunk None) c.
(** [drain], with the sender of its channel. *)
Definition ctx_drain (tx : nat) (c : Ctx) : Ctx :=
  add_frame (Frame_Drain tx) (mkActorCtx (ci_modify (cx_inner c)) (cx_stream c) (cx_disconnected c)).
Definition ctx_connected (c : Ctx) : bool := negb (cx_disconnected c).

Definition ctx_disconnect (c : Ctx) : Ctx := mkActorCtx (ci_stop (cx_inner c)) (cx_stream c) true.

(** [poll], where [do_call] makes a call on the context. *)
Definition take_frames (c : Ctx) : poll (option (list ActorFrame)) Error * Ctx :=
  match cx_stream c with
  | Some data => (Ready (Some data), mkActorCtx (cx_inner c) None (cx_disconnected c))
  | None => if ci_alive (cx_inner c) then (NotReady, c) else (Ready None, c)
  end.
Definition context_poll (do_call : call -> Ctx -> Ctx) (c : Ctx) : poll (option (list ActorFrame)) Error * Ctx :=
  if ci_alive (cx_inner c) then
    let '(calls, ok, inner) := ci_poll (cx_disconnected c) (cx_inner c) in
    let c := foldl (fun c x => do_call x c) c calls in
    let c := mkActorCtx inner (cx_stream c) (cx_disconnected c) in
    if ok : bool then take_frames c else (PErr ErrorInternalServerError, c)
  else take_frames c.
End Contexts.
Arguments Ctx : clear implicits.

(** ** The calls of [HttpContext] *)
Inductive http_call : Type := HC_write (data : Binary) | HC_write_eof | HC_drain (tx : nat).
Definition do_http_call {I} `{ContextImpl I http_call} (x : http_call) (c : Ctx I) : Ctx I :=
  match x with
  | HC_write data => ctx_write data c
  | HC_write_eof => ctx_write_eof c
  | HC_drain tx => ctx_drain tx c
  end.
Definition HttpContext_poll {I} `{ContextImpl I http_call} : Ctx I -> _ := context_poll (call := http_call) do_http_call.

(** ** The calls of [WebsocketContext] and of the client's [ClientWriter] *)
Inductive ws_call : Type :=
| Ws_text (text : bytes)
| Ws_binary (data : Binary)
| Ws_ping (message : bytes)
| Ws_pong (message : bytes)
| Ws_close (code : CloseCode) (reason : bytes).

Section WebsocketContext.
Context `{ByteOrder} (big : bool) (uninit addr : Z) (slack : bytes).

(** The frame of a call, masked by the client; [slack] is what the buffer of a masked frame
    holds behind the payload. *)
Definition ws_frame (x : ws_call) (genmask : option Z) : bytes :=
  match x with
  | Ws_text text => message big uninit addr slack text Op_Text true genmask
  | Ws_binary data => message big uninit addr slack (Binary_as_ref data) Op_Binary true genmask
  | Ws_ping s => message big uninit addr slack s Op_Ping true genmask
  | Ws_pong s => message big uninit addr slack s Op_Pong true genmask
  | Ws_close code reason => close big uninit addr slack code reason genmask
  end.

Inductive wsctx_call : Type := WC_send (x : ws_call) | WC_drain (tx : nat).
Definition do_ws_call {I} `{ContextImpl I wsctx_call} (x : wsctx_call) (c : Ctx I) : Ctx I :=
  match x with
  | WC_send x => ctx_write (Bin_Bytes (ws_frame x None)) c
  | WC_drain tx => ctx_drain tx c
  end.
Definition WebsocketContext_poll {I} `{ContextImpl I wsctx_call} : Ctx I -> _ := context_poll (call := wsctx_call) do_ws_call.
End WebsocketContext.

(** ** Frames come out once, in order *)
Section Frames.
Context {I call : Type} `{CI : ContextImpl I call} (do_call : call -> Ctx I -> Ctx I).

(** What a call adds to the frames of a context that is [disconnected] or not. *)
Context (frames_of : bool -> call -> list ActorFrame).
Hypothesis do_call_frames : forall x c,
  default [] (cx_stream (do_call x c)) = default [] (cx_stream c) ++ frames_of (cx_disconnected c) x /\
  cx_disconnected (do_call x c) = cx_disconnected c /\
  (cx_stream (do_call x c) = None -> cx_stream c = None) /\
  (cx_stream c <> Some [] -> cx_stream (do_call x c) <> Some []).

(** What happens to a context: a poll, a call from outside of a poll, the connection ends. *)
Inductive ctx_event : Type := Ev_poll | Ev_call (x : call) | Ev_disconnected.

(** The answers to the polls, and the calls made with the state of the connection. *)
Definition polled_calls (c : Ctx I) : list (bool * call) :=
  if ci_alive (cx_inner c) then map (pair (cx_disconnected c)) (ci_poll (cx_disconnected c) (cx_inner c)).1.1 else [].
Fixpoint ctx_run (es : list ctx_event) (c : Ctx I)
  : list (poll (option (list ActorFrame)) Error) * list (bool * call) * Ctx I :=
  match es with
  | [] => ([], [], c)
  | Ev_poll :: es =>
      let '(r, c') := context_poll do_call c in
      let '(rs, xs, c'') := ctx_run es c' in (r :: rs, polled_calls c ++ xs, c'')
  | Ev_call x :: es => let '(rs, xs, c') := ctx_run es (do_call x c) in (rs, (cx_disconnected c, x) :: xs, c')
  | Ev_disconnected :: es => ctx_run es (ctx_disconnect c)
  end.

Definition answered_frames (rs : list (poll (option (list ActorFrame)) Error)) : list ActorFrame :=
  concat (map (fun r => match r with Ready (Some fs) => fs | _ => [] end) rs).
Definition made_frames (xs : list (bool * call)) : list ActorFrame := concat (map (fun x => frames_of x.1 x.2) xs).

Lemma fold_calls xs (c : Ctx I) :
  let c' := foldl (fun c x => do_call x c) c xs in
  default [] (cx_stream c') = default [] (cx_stream c) ++ made_frames (map (pair (cx_disconnected c)) xs) /\
  cx_disconnected c' = cx_disconnected c /\ (cx_stream c' = None -> cx_stream c = None) /\
  (cx_stream c <> Some [] -> cx_stream c' <> Some []).
Proof.
  revert c. induction xs as [|x xs IH]; intros c; simpl; [by rewrite app_nil_r|].
  destruct (do_call_frames x c) as (Hs & Hd & Hn & He), (IH (do_call x c)) as (Hs' & Hd' & Hn' & He'). split_and!.
  - rewrite Hs', Hs, Hd. unfold made_frames. simpl. by rewrite app_assoc.
  - by rewrite Hd'.
  - auto.
  - auto.
Qed.

(** An answer takes all the frames there are. *)
Lemma take_frames_spec (c : Ctx I) r c' :
  take_frames c = (r, c') -> cx_stream c <> Some [] ->
  answered_frames [r] ++ default [] (cx_stream c') = default [] (cx_stream c) /\ cx_disconnected c' = cx_disconnected c /\
  cx_stream c' <> Some [] /\ r <> Ready (Some []) /\ (r = Ready None -> cx_stream c = None /\ ci_alive (cx_inner c') = false).
Proof.
  unfold take_frames, answered_frames. intros Hr Hne. destruct (cx_stream c) as [data|] eqn:Hs.
  - simplify_eq. simpl. rewrite !app_nil_r. split_and!; congruence.
  - destruct (ci_alive (cx_inner c)) eqn:Ha; simplify_eq; simpl; rewrite Hs; by split_and!.
Qed.

Lemma context_poll_spec (c : Ctx I) r c' :
  context_poll do_call c = (r, c') -> cx_stream c <> Some [] ->
  answered_frames [r] ++ default [] (cx_stream c') = default [] (cx_stream c) ++ made_frames (polled_calls c) /\
  cx_disconnected c' = cx_disconnected c /\
  cx_stream c' <> Some [] /\ r <> Ready (Some []) /\ (r = Ready None -> cx_stream c' = None /\ ci_alive (cx_inner c') = false).
Proof.
  unfold context_poll, polled_calls. intros Hr Hne. destruct (ci_alive (cx_inner c)) eqn:Ha.
  - destruct (ci_poll (cx_disconnected c) (cx_inner c)) as [[calls ok] inner]. simpl.
    destruct (fold_calls calls c) as (Hs & Hd & Hn & He). destruct ok.
    + destruct (take_frames_spec _ _ _ Hr (He Hne)) as (Ht & Hd' & Hne' & Hr' & Hend). simpl in *. rewrite Ht, Hs, Hd', Hd.
      split_and!; try done. intros ->. destruct (Hend eq_refl) as [Hnone ?]. split; [|done].
      unfold take_frames in Hr. simpl in Hr. rewrite Hnone in Hr. destruct (ci_alive inner); by simplify_eq.
    + simplify_eq. simpl. rewrite Hs, Hd. split_and!; try done. auto.
  - destruct (take_frames_spec _ _ _ Hr Hne) as (-> & Hd' & Hne' & Hr' & Hend). rewrite app_nil_r. split_and!; try done.
    intros ->. destruct (Hend eq_refl) as [Hnone ?]. split; [|done].
    unfold take_frames in Hr. rewrite Hnone, Ha in Hr. by simplify_eq.
Qed.

Lemma ctx_run_frames es (c : Ctx I) rs xs c' :
  cx_stream c <> Some [] -> ctx_run es c = (rs, xs, c') ->
  answered_frames rs ++ default [] (cx_stream c') = default [] (cx_stream c) ++ made_frames xs /\
  cx_stream c' <> Some [] /\ Ready (Some []) ∉ rs.
Proof.
  revert c rs xs. induction es as [|[|x|] es IH]; intros c rs xs Hne Hrun; simpl in Hrun.
  - simplify_eq. simpl. rewrite app_nil_r. split_and!; [done..|set_solver].
  - destruct (context_poll do_call c) as [r c1] eqn:Hp. destruct (ctx_run es c1) as [[rs1 xs1] c2] eqn:Hr. simplify_eq.
    destruct (context_poll_spec _ _ _ Hp Hne) as (Hf & _ & Hne1 & Hr1 & _). destruct (IH _ _ _ Hne1 Hr) as (IHf & ? & ?).
    split_and!; [|done|by intros [?|?]%elem_of_cons; eauto].
    unfold answered_frames, made_frames in *. simpl in *. rewrite map_app, concat_app, app_assoc, <-Hf, app_nil_r, <-!app_assoc.
    by rewrite IHf.
  - destruct (ctx_run es (do_call x c)) as [[rs1 xs1] c2] eqn:Hr. simplify_eq.
    destruct (do_call_frames x c) as (Hs & _ & _ & He). destruct (IH _ _ _ (He Hne) Hr) as (IHf & ? & ?).
    split_and!; [|done..]. rewrite IHf, Hs. unfold made_frames. simpl. by rewrite app_assoc.
  - by apply (IH (ctx_disconnect c)).
Qed.
End Frames.

(** ** [HttpContext] *)
Definition http_frames (disconnected : bool) (x : http_call) : list ActorFrame :=
  match x with
  | HC_write data => if disconnected then [] else [Frame_Chunk (Some data)]
  | HC_write_eof => [Frame_Chunk None]
  | HC_drain tx => [Frame_Drain tx]
  end.

Lemma do_http_call_frames {I} `{ContextImpl I http_call} x (c : Ctx I) :
  default [] (cx_stream (do_http_call x c)) = default [] (cx_stream c) ++ http_frames (cx_disconnected c) x /\
  cx_disconnected (do_http_call x c) = cx_disconnected c /\
  (cx_stream (do_http_call x c) = None -> cx_stream c = None) /\
  (cx_stream c <> Some [] -> cx_stream (do_http_call x c) <> Some []).
Proof.
  assert (forall l (f : ActorFrame), Some (l ++ [f]) <> Some []) as Hne by (intros [|? ?] f; discriminate).
  destruct x as [data| |tx]; unfold do_http_call, ctx_write, ctx_write_eof, ctx_drain, add_frame; simpl; [|by split_and!..].
  destruct (cx_disconnected c) eqn:Hd; simpl; [rewrite app_nil_r|]; by split_and!.
Qed.

(** What an actor writes comes out once and in order, over any polls, also what it writes
    between them; nothing that is written while the connection is open is lost, and no poll
    answers an empty list, which would end the turn of a pipeline. *)
Theorem http_context_frames {I} `{CI : ContextImpl I http_call} (es : list ctx_event) (inner : I) rs log c :
  ctx_run do_http_call es (ctx_new inner) = (rs, log, c) ->
  answered_frames rs ++ default [] (cx_stream c) = made_frames http_frames log /\ Ready (Some []) ∉ rs.
Proof.
  intros Hrun. by destruct (ctx_run_frames do_http_call http_frames do_http_call_frames es (ctx_new inner) rs log c) as (Hf & _ & Hn).
Qed.
