(* ===== verification/WsClient.v ===== *)
(** * The WebSocket client (src/src/ws/client.rs)

    [Client] builds the request of a handshake; [ClientHandshake] sends it and verifies the
    response; the reader and the writer then share the payload of the response and the
    channel that is the body of the request.  Random keys and masks are arguments. *)
From S2P Require Import Prelude Words StrLib Errors Http Response Router Transfer ContentEncoder PayloadHelper WsMask WsProto WsFrame WsStream Pipeline H1Writer Connector ClientParser ClientWriter ClientPipeline ClientBuilder Contexts.
Open Scope Z_scope.

Inductive ClientError : Type :=
| WCE_InvalidUrl
| WCE_InvalidResponseStatus (status : Z)
| WCE_InvalidUpgradeHeader
| WCE_InvalidConnectionHeader (v : bytes)
| WCE_MissingConnectionHeader
| WCE_MissingWebSocketAcceptHeader
| WCE_InvalidChallengeResponse (expected received : bytes)
| WCE_Http (e : HttpError)
| WCE_Url
| WCE_ResponseParseError (e : HttpResponseParserError)
| WCE_SendRequest (e : SendRequestError)
| WCE_Protocol (e : ProtocolError)
| WCE_Io (e : IoError)
| WCE_Disconnected.

Definition SEC_WEBSOCKET_PROTOCOL : bytes := b#"sec-websocket-protocol".
Definition ORIGIN_ : bytes := b#"origin".

(** ** Asking for a session *)
Section Asking.
Context {H : Type} `{HM : HeaderMap H} `{HC : HeaderConv} `{UC : UrlCrate} {J C : Type} `{RC : RequestCookies J C} {Z' D : Type}.
Context (sha1 base64 : bytes -> bytes) (new_timer : Z -> Timer).

Record Client : Type := mkWsClient {
  wc_request : ClientRequestBuilder H J;
  wc_err : option ClientError;
  wc_http_err : option HttpError;
  wc_origin : option bytes;
  wc_protocols : option bytes;
  wc_conn : nat;
  wc_max_size : Z;
}.

(** [with_connector]; [new] passes the connector of the registry. *)
Definition Client_with_connector (uri : bytes) (conn : nat) : Client :=
  mkWsClient (cb_uri uri ClientRequest_build) None None None None conn 65536.
Definition set_wc_request r (c : Client) := mkWsClient r (wc_err c) (wc_http_err c) (wc_origin c) (wc_protocols c) (wc_conn c) (wc_max_size c).

Definition wc_set_protocols (protos : list bytes) (c : Client) : Client :=
  let protos := foldl (fun acc s => acc ++ s ++ b#",") [] protos in
  (* pop *)
  mkWsClient (wc_request c) (wc_err c) (wc_http_err c) (wc_origin c) (Some (removelast protos)) (wc_conn c) (wc_max_size c).
Definition wc_cookie (cookie : C) (c : Client) : Client := set_wc_request (cb_cookie cookie (wc_request c)) c.
Definition wc_set_origin (origin : bytes) (c : Client) : Client :=
  match hv_try_from origin with
  | Some value => mkWsClient (wc_request c) (wc_err c) (wc_http_err c) (Some value) (wc_protocols c) (wc_conn c) (wc_max_size c)
  | None => mkWsClient (wc_request c) (wc_err c) (Some HE_HeaderValue) (wc_origin c) (wc_protocols c) (wc_conn c) (wc_max_size c)
  end.
Definition wc_max_frame_size (size : Z) (c : Client) : Client :=
  mkWsClient (wc_request c) (wc_err c) (wc_http_err c) (wc_origin c) (wc_protocols c) (wc_conn c) size.
Definition wc_write_buffer_capacity (cap : Z) (c : Client) : Client := set_wc_request (cb_write_buffer_capacity cap (wc_request c)) c.
Definition wc_header (key value : bytes) (c : Client) : Client := set_wc_request (cb_header key value (wc_request c)) c.
Definition wc_timeout (timeout : Z) (c : Client) : Client := set_wc_request (cb_timeout timeout (wc_request c)) c.

(** [ClientHandshake]; [hk_tx] is the sender of the channel that is the request's body. *)
Record ClientHandshake : Type := mkHandshake {
  hk_request : option (SendRequest H Z' D);
  hk_tx : option (list bytes);
  hk_key : bytes;
  hk_error : option ClientError;
  hk_max_size : Z;
}.

Definition ClientHandshake_error (err : ClientError) : ClientHandshake := mkHandshake None None [] (Some err) 0.

(** [new], with the random bytes of the key and the receiver of the channel. *)
Definition ClientHandshake_new (sec_key : bytes) (rx : nat) (request : BuiltRequest H) (max_size : Z) : run ClientHandshake :=
  let key := base64 sec_key in
  value ← unwrap (hv_try_from key);
  let q := set_cq_body (Body_Streaming rx) (cq_insert SEC_WEBSOCKET_KEY value (br_request request)) in
  Ret (mkHandshake (Some (ClientRequest_send new_timer (mkBuilt q (br_conn request))).2) (Some []) key None max_size).

Definition hk_set_timeout (timeout : Z) (h : ClientHandshake) : ClientHandshake :=
  mkHandshake (sr_set_timeout new_timer timeout <$> hk_request h) (hk_tx h) (hk_key h) (hk_error h) (hk_max_size h).
Definition hk_conn_timeout (timeout : Z) (h : ClientHandshake) : ClientHandshake :=
  mkHandshake (sr_set_conn_timeout timeout <$> hk_request h) (hk_tx h) (hk_key h) (hk_error h) (hk_max_size h).

Definition ws_schemes : list bytes := [b#"http"; b#"https"; b#"ws"; b#"wss"].

(** The headers that [connect] sets. *)
Definition upgrade_request_headers (c : Client) : ClientRequestBuilder H J :=
  let b := match wc_origin c with Some origin => cb_set_header ORIGIN_ origin (wc_request c) | None => wc_request c end in
  let b := cb_upgrade b in
  let b := cb_set_header UPGRADE (b#"websocket") b in
  let b := cb_set_header CONNECTION (b#"upgrade") b in
  let b := cb_set_header SEC_WEBSOCKET_VERSION (b#"13") b in
  let b := cb_with_connector (wc_conn c) b in
  match wc_protocols c with Some protocols => cb_set_header SEC_WEBSOCKET_PROTOCOL protocols b | None => b end.

Definition Client_connect (sec_key : bytes) (rx : nat) (c : Client) : run (ClientHandshake * Client) :=
  match wc_err c, wc_http_err c with
  | Some e, _ => Ret (ClientHandshake_error e, mkWsClient (wc_request c) None (wc_http_err c) (wc_origin c) (wc_protocols c) (wc_conn c) (wc_max_size c))
  | None, Some e => Ret (ClientHandshake_error (WCE_Http e), mkWsClient (wc_request c) None None (wc_origin c) (wc_protocols c) (wc_conn c) (wc_max_size c))
  | None, None =>
      '(r, b) ← cb_finish (upgrade_request_headers c);
      let c := mkWsClient b None None None None (wc_conn c) (wc_max_size c) in
      match r with
      | Err err => Ret (ClientHandshake_error (WCE_Http err), c)
      | Ok request =>
          let uri := uri_parts_of (cq_uri (br_request request)) in
          match uri_host uri, uri_scheme uri with
          | None, _ | Some _, None => Ret (ClientHandshake_error WCE_InvalidUrl, c)
          | Some _, Some scheme =>
              if bool_decide (scheme ∈ ws_schemes) then
                (* start handshake *)
                h ← ClientHandshake_new sec_key rx request (wc_max_size c); Ret (h, c)
              else Ret (ClientHandshake_error WCE_InvalidUrl, c)
          end
      end
  end.

(** ** Verifying the response *)

Definition has_websocket_upgrade (h : H) : bool :=
  match hm_get UPGRADE h with
  | Some hdr => match hv_to_str hdr with
                | Some s => contains (to_lowercase s) (b#"websocket")
                | None => false
                end
  | None => false
  end.
Definition verify_connection (h : H) : result unit ClientError :=
  match hm_get CONNECTION h with
  | Some conn =>
      match hv_to_str conn with
      | Some s => if contains (to_lowercase s) (b#"upgrade") then Ok tt else Err (WCE_InvalidConnectionHeader conn)
      | None => Err (WCE_InvalidConnectionHeader conn)
      end
  | None => Err WCE_MissingConnectionHeader
  end.
Definition verify_accept (key : bytes) (h : H) : result unit ClientError :=
  match hm_get SEC_WEBSOCKET_ACCEPT h with
  | Some accept =>
      let encoded := base64 (sha1 (key ++ WS_GUID)) in
      if bool_decide (accept = encoded) then Ok tt else Err (WCE_InvalidChallengeResponse encoded accept)
  | None => Err WCE_MissingWebSocketAcceptHeader
  end.
Definition verify_response (key : bytes) (msg : ClientMessage H) : result unit ClientError :=
  if negb (cm_status msg =? 101) then Err (WCE_InvalidResponseStatus (cm_status msg)) else
  if negb (has_websocket_upgrade (cm_headers msg)) then Err WCE_InvalidUpgradeHeader else
  match verify_connection (cm_headers msg) with
  | Err e => Err e
  | Ok _ => verify_accept key (cm_headers msg)
  end.

(** ** The session *)

(** [WsInner], which the reader and the writer share: the chunks sent through the channel and
    the payload of the response. *)
Context {S : Type} `{Stream S}.
Record WsInner : Type := mkInner { in_tx : list bytes; in_rx : PayloadHelper S; in_closed : bool }.
Record WsSession : Type := mkSession { ss_inner : WsInner; ss_max_size : Z }.

(** [poll] of the handshake, on what polling the [SendRequest] answers; [as_stream] is the
    stream of a response. *)
Definition ClientHandshake_poll (send_poll : SendRequest H Z' D -> run (poll (ClientResponse H Z' D) SendRequestError * SendRequest H Z' D))
    (as_stream : ClientResponse H Z' D -> S) (h : ClientHandshake) : run (poll WsSession ClientError * ClientHandshake) :=
  match hk_error h with
  | Some err => Ret (PErr err, mkHandshake (hk_request h) (hk_tx h) (hk_key h) None (hk_max_size h))
  | None =>
      request ← unwrap (hk_request h);
      '(r, request) ← send_poll request;
      match r with
      | NotReady => Ret (NotReady, mkHandshake (Some request) (hk_tx h) (hk_key h) None (hk_max_size h))
      | PErr e => Ret (PErr (WCE_SendRequest e), mkHandshake (Some request) (hk_tx h) (hk_key h) None (hk_max_size h))
      | Ready resp =>
          let h := mkHandshake None (hk_tx h) (hk_key h) None (hk_max_size h) in
          match verify_response (hk_key h) (cr_msg resp) with
          | Err e => Ret (PErr e, h)
          | Ok _ =>
              tx ← unwrap (hk_tx h);
              Ret (Ready (mkSession (mkInner tx (PayloadHelper_new (as_stream resp)) false) (hk_max_size h)),
                   mkHandshake None None (hk_key h) None (hk_max_size h))
          end
      end
  end.
End Asking.
Arguments Client : clear implicits.
Arguments ClientHandshake : clear implicits.
Arguments WsInner : clear implicits.
Arguments WsSession : clear implicits.

Section Session.
Context `{ByteOrder} (big : bool) (uninit addr : Z) {S : Type} `{Stream S}.

Definition set_in_closed (i : WsInner S) : WsInner S := mkInner (in_tx i) (in_rx i) true.

(** [ClientReader]'s [poll]. *)
Definition client_reader_poll (s : WsSession S) : run (poll (option Message) ProtocolError * WsSession S) :=
  let inner := ss_inner s in
  if in_closed inner then Ret (Ready None, s) else
  '(r, rx) ← parse big uninit addr (in_rx inner) false (ss_max_size s);
  let s := mkSession (mkInner (in_tx inner) rx (in_closed inner)) (ss_max_size s) in
  let closed := mkSession (set_in_closed (ss_inner s)) (ss_max_size s) in
  match r with
  | Ready (Some frame) =>
      let '(_, opcode, payload) := Frame_unpack frame in
      match opcode with
      (* continuation is not supported *)
      | Op_Continue => Ret (PErr WsE_NoContinuation, closed)
      | Op_Bad => Ret (PErr WsE_BadOpCode, closed)
      | Op_Close =>
          code ← bo_read_uint payload 2;
          Ret (Ready (Some (Msg_Close (CloseCode_from_u16 (code mod 2 ^ 16)))), closed)
      | Op_Ping => Ret (Ready (Some (Msg_Ping (from_utf8_lossy payload))), s)
      | Op_Pong => Ret (Ready (Some (Msg_Pong (from_utf8_lossy payload))), s)
      | Op_Binary => Ret (Ready (Some (Msg_Binary (Bin_Bytes payload))), s)
      | Op_Text =>
          match from_utf8 payload with
          | Some text => Ret (Ready (Some (Msg_Text text)), s)
          | None => Ret (PErr WsE_BadEncoding, closed)
          end
      end
  | Ready None => Ret (Ready None, s)
  | NotReady => Ret (NotReady, s)
  | PErr e => Ret (PErr e, closed)
  end.

(** [ClientWriter]: a frame goes into the channel unless the session is closed. *)
Definition client_writer_write (data : bytes) (s : WsSession S) : WsSession S :=
  let inner := ss_inner s in
  if negb (in_closed inner)
  then mkSession (mkInner (in_tx inner ++ [data]) (in_rx inner) (in_closed inner)) (ss_max_size s)
  else s.

(** Its calls, with what the buffer holds behind the payload and the random mask. *)
Definition client_writer_call (slack : bytes) (x : ws_call) (mask : Z) (s : WsSession S) : WsSession S :=
  client_writer_write (ws_frame big uninit addr slack x (Some mask)) s.
End Session.

(** ** What is sent is what is read *)

(** The message of a call, its frame's operation code and payload. *)
Definition call_message (x : ws_call) : Message :=
  match x with
  | Ws_text text => Msg_Text text
  | Ws_binary data => Msg_Binary (Bin_Bytes (Binary_as_ref data))
  | Ws_ping s => Msg_Ping s
  | Ws_pong s => Msg_Pong s
  | Ws_close code _ => Msg_Close code
  end.
Definition call_reason (x : ws_call) : bytes := match x with Ws_close _ reason => reason | _ => [] end.
Definition call_payload (x : ws_call) : bytes := (message_frame (call_message x)).2 ++ call_reason x.
Definition is_text (x : ws_call) : bool := match x with Ws_text _ | Ws_binary _ => true | _ => false end.

(** What an application may send to a peer that takes frames of [max]: valid text, close
    codes in their normal form (an empty one is fatal, see [ws_close_without_code_panics]),
    control frames of up to 125 bytes. *)
Definition call_sendable (max : Z) (x : ws_call) : Prop :=
  message_ok (call_message x) /\ call_message x <> Msg_Close Cc_Empty /\ is_bytes (call_payload x) /\ is_u64 (lenZ (call_payload x)) /\
  lenZ (call_payload x) <= max /\ (is_text x = false -> lenZ (call_payload x) <= 125).
Definition is_closing (x : ws_call) : bool := is_close (call_message x).

(** Nothing is sent behind a close message. *)
Fixpoint closes_last (xs : list ws_call) : Prop :=
  match xs with
  | [] => True
  | x :: xs => (is_closing x = true -> xs = []) /\ closes_last xs
  end.

Section Heard.
Context `{ByteOrder} (big : bool) (uninit addr : Z) (slack : bytes) {S : Type} `{Stream S}.
Hypothesis slack_bytes : is_bytes slack.

Lemma sendable_frame max x gm :
  call_sendable max x -> ws_frame big uninit addr slack x gm =
  message big uninit addr slack (call_payload x) (message_frame (call_message x)).1 true gm.
Proof.
  intros (_ & He & _). unfold call_payload. destruct x as [t|d|t|t|c reason]; simpl; rewrite ?app_nil_r; try done.
  unfold close. by destruct c.
Qed.

(** One frame, for a reader on either side. *)
Context {W : Type} (rp : W -> run (poll (option Message) ProtocolError * W)) (rx_of : W -> PayloadHelper S)
  (closed_of : W -> bool) (max_of : W -> Z) (server : bool).
Hypothesis rp_frame : forall w f rx m reason,
  closed_of w = false -> parse big uninit addr (rx_of w) server (max_of w) = Ret (Ready (Some f), rx) ->
  fr_finished f = true -> message_ok m -> fr_opcode f = (message_frame m).1 ->
  fr_payload f = (message_frame m).2 ++ reason -> (is_close m = false -> reason = []) ->
  exists w', rp w = Ret (Ready (Some m), w') /\ rx_of w' = rx /\ closed_of w' = is_close m /\ max_of w' = max_of w.

Fixpoint reads (n : nat) (w : W) : run (list (poll (option Message) ProtocolError) * W) :=
  match n with
  | O => Ret ([], w)
  | Datatypes.S n => '(r, w) ← rp w; '(rs, w) ← reads n w; Ret (r :: rs, w)
  end.

Definition frames_text (xs : list (ws_call * option Z)) : bytes :=
  concat (map (fun x => ws_frame big uninit addr slack x.1 x.2) xs).

Lemma frame_heard w x gm rest :
  call_sendable (max_of w) x -> is_masked gm = server -> (forall m, gm = Some m -> is_u32 m) ->
  closed_of w = false -> ph_wf (rx_of w) -> PayloadHelper.pending (rx_of w) = ws_frame big uninit addr slack x gm ++ rest ->
  exists w', rp w = Ret (Ready (Some (call_message x)), w') /\ ph_wf (rx_of w') /\ PayloadHelper.pending (rx_of w') = rest /\
    closed_of w' = is_closing x /\ max_of w' = max_of w.
Proof.
  intros Hx Hgm Hmask Hc Hwf Hp. rewrite (sendable_frame _ _ _ Hx) in Hp. destruct Hx as (Hm & _ & Hb & Hu & Hmax & Hctl).
  assert ((message_frame (call_message x)).1 <> Op_Bad) as Hbad by by destruct x.
  rewrite message_frame_bytes in Hp by done.
  destruct (parse_frame big uninit addr (call_payload x) rest _ true gm (max_of w) (rx_of w) Hbad Hb Hu Hmax)
    as (rx & Hparse & Hwf' & Hrest); [|done..|].
  { destruct x; simpl; try (intros [?|[?|?]]; discriminate); auto. }
  rewrite Hgm in Hparse.
  destruct (rp_frame w _ rx (call_message x) (call_reason x) Hc Hparse) as (w' & Hr & <- & Hc' & Hm'); [done..|by destruct x|].
  by exists w'.
Qed.

Lemma calls_heard xs w rest :
  Forall (fun x => call_sendable (max_of w) x.1 /\ is_masked x.2 = server /\ forall m, x.2 = Some m -> is_u32 m) xs ->
  closes_last (map fst xs) -> closed_of w = false -> ph_wf (rx_of w) -> PayloadHelper.pending (rx_of w) = frames_text xs ++ rest ->
  exists w', reads (length xs) w = Ret (map (fun x => Ready (Some (call_message x.1))) xs, w') /\
    PayloadHelper.pending (rx_of w') = rest /\ ph_wf (rx_of w') /\ closed_of w' = existsb (fun x => is_closing x.1) xs.
Proof.
  revert w. induction xs as [|[x gm] xs IH]; intros w Hall Hlast Hc Hwf Hp; [by exists w|].
  apply Forall_cons in Hall as [(Hx & Hgm & Hmask) Hall]. destruct Hlast as [Hl Hlast]. simpl in Hx, Hgm, Hmask, Hl.
  unfold frames_text in Hp. cbn [map concat fst snd] in Hp. rewrite <-app_assoc in Hp.
  destruct (frame_heard w x gm _ Hx Hgm Hmask Hc Hwf Hp) as (w1 & Hr & Hwf1 & Hp1 & Hc1 & Hmax1).
  cbn [length reads map existsb]. rewrite Hr. cbn [mbind run_bind fst].
  destruct (is_closing x) eqn:Hcl; cbn [orb].
  - assert (xs = []) as -> by (specialize (Hl eq_refl); by destruct xs). exists w1. by split_and!.
  - destruct (IH w1) as (w' & -> & Hp' & Hwf' & Hc'); [by rewrite Hmax1|done..|].
    exists w'. by split_and!.
Qed.
End Heard.

Section Conversation.
Context `{ByteOrder} (big : bool) (uninit addr : Z) (slack : bytes) {S : Type} `{Stream S}.

Lemma ws_poll_hears w f rx m reason :
  ws_closed w = false -> parse big uninit addr (ws_rx w) true (ws_max_size w) = Ret (Ready (Some f), rx) ->
  fr_finished f = true -> message_ok m -> fr_opcode f = (message_frame m).1 ->
  fr_payload f = (message_frame m).2 ++ reason -> (is_close m = false -> reason = []) ->
  exists w', ws_poll big uninit addr w = Ret (Ready (Some m), w') /\ ws_rx w' = rx /\ ws_closed w' = is_close m /\
    ws_max_size w' = ws_max_size w.
Proof.
  intros Hc Hp Hf Hm Hop Hpl Hr. eexists. split; [eapply ws_poll_frame; eauto|]. done.
Qed.

Lemma client_poll_hears (s : WsSession S) f rx m reason :
  in_closed (ss_inner s) = false -> parse big uninit addr (in_rx (ss_inner s)) false (ss_max_size s) = Ret (Ready (Some f), rx) ->
  fr_finished f = true -> message_ok m -> fr_opcode f = (message_frame m).1 ->
  fr_payload f = (message_frame m).2 ++ reason -> (is_close m = false -> reason = []) ->
  exists s', client_reader_poll big uninit addr s = Ret (Ready (Some m), s') /\ in_rx (ss_inner s') = rx /\
    in_closed (ss_inner s') = is_close m /\ ss_max_size s' = ss_max_size s.
Proof.
  intros Hc Hp Hf Hm Hop Hpl Hr. unfold client_reader_poll. rewrite Hc, Hp. cbn [mbind run_bind]. destruct f as [fin op payload].
  cbn [Frame_unpack fr_finished fr_opcode fr_payload ss_inner in_tx in_rx in_closed ss_max_size] in *. subst.
  destruct m as [t|b|t|t|c]; cbn [message_frame fst snd is_close] in *; try rewrite (Hr eq_refl), app_nil_r.
  - rewrite Hm. by eexists.
  - rewrite <-Hm. by eexists.
  - rewrite (from_utf8_lossy_valid _ _ Hm). by eexists.
  - rewrite (from_utf8_lossy_valid _ _ Hm). by eexists.
  - destruct Hm as [Hu Hcc]. rewrite read_close_code by done. cbn [mbind run_bind].
    rewrite Z.mod_small by (unfold is_u16 in Hu; lia). rewrite Hcc. by eexists.
Qed.

(** What a writer's calls put into the channel. *)
Lemma client_writer_sends (xs : list (ws_call * Z)) (s : WsSession S) :
  in_closed (ss_inner s) = false ->
  let s' := foldl (fun s x => client_writer_call big uninit addr slack x.1 x.2 s) s xs in
  in_tx (ss_inner s') = in_tx (ss_inner s) ++ map (fun x => ws_frame big uninit addr slack x.1 (Some x.2)) xs.
Proof.
  revert s. induction xs as [|x xs IH]; intros s Hc; simpl; [by rewrite app_nil_r|].
  assert (client_writer_call big uninit addr slack x.1 x.2 s =
    mkSession (mkInner (in_tx (ss_inner s) ++ [ws_frame big uninit addr slack x.1 (Some x.2)]) (in_rx (ss_inner s)) (in_closed (ss_inner s)))
      (ss_max_size s)) as -> by (unfold client_writer_call, client_writer_write; by rewrite Hc).
  rewrite IH by done. simpl. by rewrite <-app_assoc.
Qed.

(** What an actor's calls put into its context. *)
Definition wsctx_frames (disconnected : bool) (x : wsctx_call) : list ActorFrame :=
  match x with
  | WC_send x => if disconnected then [] else [Frame_Chunk (Some (Bin_Bytes (ws_frame big uninit addr slack x None)))]
  | WC_drain tx => [Frame_Drain tx]
  end.

Lemma do_ws_call_frames {I} `{ContextImpl I wsctx_call} x (c : Ctx I) :
  default [] (cx_stream (do_ws_call big uninit addr slack x c)) = default [] (cx_stream c) ++ wsctx_frames (cx_disconnected c) x /\
  cx_disconnected (do_ws_call big uninit addr slack x c) = cx_disconnected c /\
  (cx_stream (do_ws_call big uninit addr slack x c) = None -> cx_stream c = None) /\
  (cx_stream c <> Some [] -> cx_stream (do_ws_call big uninit addr slack x c) <> Some []).
Proof.
  destruct x as [x|tx]; unfold do_ws_call, ctx_write, ctx_drain, add_frame; simpl.
  - destruct (cx_disconnected c) eqn:Hd; simpl; [rewrite app_nil_r; by split_and!|]. split_and!; try done. intros _ Hn. injection Hn as Hn. by apply app_eq_nil in Hn as [_ ?].
  - split_and!; try done. intros _ Hn. injection Hn as Hn. by apply app_eq_nil in Hn as [_ ?].
Qed.

(** The sends of a log that a connection took, and the bytes of frames. *)
Definition sends (log : list (bool * wsctx_call)) : list ws_call :=
  omap (fun x => match x with (false, WC_send x) => Some x | _ => None end) log.
Definition chunk_bytes (fs : list ActorFrame) : bytes :=
  concat (omap (fun f => match f with Frame_Chunk (Some b) => Some (Binary_as_ref b) | _ => None end) fs).

Lemma sends_bytes log :
  chunk_bytes (made_frames wsctx_frames log) = frames_text big uninit addr slack (map (fun x => (x, None)) (sends log)).
Proof.
  unfold chunk_bytes, made_frames, frames_text, sends. induction log as [|[[|] [x|tx]] log IH]; [done| | | |]; try exact IH.
  cbn [map concat fst snd wsctx_frames app omap list_omap]. by rewrite IH.
Qed.

Lemma closes_last_sends (xs : list ws_call) : closes_last xs -> closes_last (map fst (map (fun x => (x, @None Z)) xs)).
Proof. by rewrite map_map, map_id. Qed.
End Conversation.

(** C11. A WebSocket session carries messages both ways.  What a client writes, each frame
    with a mask of its own, goes into the channel of its request in order; a server whose
    payload holds it, cut in any way, polls exactly these messages, and is closed by a close
    message.  What a server's actor sends while it is connected, in polls and between them,
    comes out of its context, and a client whose payload holds those frames polls exactly
    the messages sent. *)
Theorem ws_conversation `{ByteOrder} {S I : Type} `{Stream S} `{CI : ContextImpl I wsctx_call} (big : bool) (uninit addr : Z) (slack : bytes) :
  is_bytes slack ->
  (forall (xs : list (ws_call * Z)) (s : WsSession S), in_closed (ss_inner s) = false ->
   exists sent, in_tx (ss_inner (foldl (fun s x => client_writer_call big uninit addr slack x.1 x.2 s) s xs)) = in_tx (ss_inner s) ++ sent /\
   forall (w : WsStream S) rest,
     Forall (fun x => call_sendable (ws_max_size w) x.1 /\ is_u32 x.2) xs -> closes_last (map fst xs) ->
     ws_closed w = false -> ph_wf (ws_rx w) -> PayloadHelper.pending (ws_rx w) = concat sent ++ rest ->
     exists w', reads (ws_poll big uninit addr) (length xs) w = Ret (map (fun x => Ready (Some (call_message x.1))) xs, w') /\
       PayloadHelper.pending (ws_rx w') = rest /\ ws_closed w' = existsb (fun x => is_closing x.1) xs) /\
  (forall (es : list ctx_event) (inner : I) rs log c,
   ctx_run (do_ws_call big uninit addr slack) es (ctx_new inner) = (rs, log, c) -> cx_stream c = None ->
   forall (s : WsSession S) rest,
     Forall (call_sendable (ss_max_size s)) (sends log) -> closes_last (sends log) ->
     in_closed (ss_inner s) = false -> ph_wf (in_rx (ss_inner s)) ->
     PayloadHelper.pending (in_rx (ss_inner s)) = chunk_bytes (answered_frames rs) ++ rest ->
     exists s', reads (client_reader_poll big uninit addr) (length (sends log)) s = Ret (map (fun x => Ready (Some (call_message x))) (sends log), s') /\
       PayloadHelper.pending (in_rx (ss_inner s')) = rest /\ in_closed (ss_inner s') = existsb is_closing (sends log)).
Proof.
  intros Hslack. split.
  - intros xs s Hc. exists (map (fun x => ws_frame big uninit addr slack x.1 (Some x.2)) xs). split; [by apply client_writer_sends|].
    intros w rest Hall Hlast Hcl Hwf Hp.
    destruct (calls_heard big uninit addr slack Hslack (ws_poll big uninit addr) ws_rx ws_closed ws_max_size true (ws_poll_hears big uninit addr)
      (map (fun x => (x.1, Some x.2)) xs) w rest) as (w' & Hr & Hp' & _ & Hc').
    + apply Forall_map. eapply Forall_impl; [exact Hall|]. intros [x m] [Hx Hm]. split_and!; [done..|]. by intros ? [=<-].
    + by rewrite map_map.
    + done.
    + done.
    + rewrite Hp. unfold frames_text. by rewrite map_map.
    + exists w'. rewrite length_map, map_map in Hr. split_and!; [done..|]. rewrite Hc'. clear. induction xs as [|x xs IH]; [done|]. simpl. by rewrite IH.
  - intros es inner rs log c Hrun Hnone s rest Hall Hlast Hcl Hwf Hp.
    destruct (ctx_run_frames (do_ws_call big uninit addr slack) (wsctx_frames big uninit addr slack) (do_ws_call_frames big uninit addr slack)
      es (ctx_new inner) rs log c) as (Hf & _); [done..|]. rewrite Hnone in Hf. simpl in Hf. rewrite app_nil_r in Hf.
    rewrite Hf, sends_bytes in Hp.
    destruct (calls_heard big uninit addr slack Hslack (client_reader_poll big uninit addr) (fun s => in_rx (ss_inner s))
      (fun s => in_closed (ss_inner s)) ss_max_size false (client_poll_hears big uninit addr)
      (map (fun x => (x, None)) (sends log)) s rest) as (s' & Hr & Hp' & _ & Hc').
    + apply Forall_map. eapply Forall_impl; [exact Hall|]. by intros x Hx.
    + by apply closes_last_sends.
    + done.
    + done.
    + done.
    + exists s'. rewrite length_map, map_map in Hr. split_and!; [done..|]. rewrite Hc'. clear. induction (sends log) as [|x xs IH]; [done|]. simpl. by rewrite IH.
Qed.

(** ** Both sides agree on the handshake *)
Section Agreed.
Context {H : Type} `{HM : HeaderMap H} `{HC : HeaderConv} `{UC : UrlCrate} {J C : Type} `{RC : RequestCookies J C} {Z' D : Type}.
Context (sha1 base64 : bytes -> bytes) (new_timer : Z -> Timer).

Inductive wc_call : Type :=
| Wc_protocols (protos : list bytes)
| Wc_cookie (c : C)
| Wc_origin (v : bytes)
| Wc_max_frame_size (n : Z)
| Wc_capacity (n : Z)
| Wc_header (k v : bytes)
| Wc_timeout (t : Z).
Definition do_wc_call (c : Client H J) (x : wc_call) : Client H J :=
  match x with
  | Wc_protocols protos => wc_set_protocols protos c
  | Wc_cookie k => wc_cookie k c
  | Wc_origin v => wc_set_origin v c
  | Wc_max_frame_size n => wc_max_frame_size n c
  | Wc_capacity n => wc_write_buffer_capacity n c
  | Wc_header k v => wc_header k v c
  | Wc_timeout t => wc_timeout t c
  end.

(** The builder calls behind a client, and those of [connect]. *)
Definition builder_calls (x : wc_call) : list (builder_call (C := C)) :=
  match x with
  | Wc_cookie k => [Call_cookie k]
  | Wc_capacity n => [Call_capacity n]
  | Wc_header k v => [Call_header k v]
  | Wc_timeout t => [Call_timeout t]
  | _ => []
  end.
Definition asked (uri : bytes) (calls : list wc_call) : list (builder_call (C := C)) := Call_uri uri :: concat (map builder_calls calls).
Definition connect_calls (c : Client H J) : list (builder_call (C := C)) :=
  match wc_origin c with Some origin => [Call_set_header ORIGIN_ origin] | None => [] end ++
  [Call_upgrade; Call_set_header UPGRADE (b#"websocket"); Call_set_header CONNECTION (b#"upgrade");
   Call_set_header SEC_WEBSOCKET_VERSION (b#"13"); Call_connector (wc_conn c)] ++
  match wc_protocols c with Some p => [Call_set_header SEC_WEBSOCKET_PROTOCOL p] | None => [] end.

Lemma asked_request uri conn calls :
  wc_request (foldl do_wc_call (Client_with_connector uri conn) calls) = foldl do_call ClientRequest_build (asked uri calls) /\
  wc_err (foldl do_wc_call (Client_with_connector uri conn) calls) = None.
Proof.
  induction calls as [|x calls [IHr IHe]] using rev_ind; [done|]. rewrite foldl_app. simpl.
  unfold asked in *. rewrite map_app, concat_app. simpl. rewrite app_nil_r, foldl_app. cbn [foldl] in IHr.
  destruct x; simpl; rewrite ?IHr, ?IHe; try done. unfold wc_set_origin.
  by destruct (hv_try_from v); simpl; rewrite ?IHr, ?IHe.
Qed.

Lemma connect_request (c : Client H J) : upgrade_request_headers c = foldl do_call (wc_request c) (connect_calls c).
Proof. unfold upgrade_request_headers, connect_calls. by destruct (wc_origin c), (wc_protocols c). Qed.

Hypothesis names : forall k, k ∈ [HOST; CONTENT_LENGTH; ACCEPT_ENCODING; UPGRADE; CONNECTION; SEC_WEBSOCKET_VERSION; ORIGIN_;
  SEC_WEBSOCKET_PROTOCOL; TRANSFER_ENCODING; SEC_WEBSOCKET_ACCEPT] -> hn_try_from k = Some k.

Lemma connect_headers (c : Client H J) (h : H) :
  let h' := foldl edit_headers h (connect_calls c) in
  hm_get UPGRADE h' = Some (b#"websocket") /\ hm_get CONNECTION h' = Some (b#"upgrade") /\ hm_get SEC_WEBSOCKET_VERSION h' = Some (b#"13").
Proof.
  unfold connect_calls. rewrite !foldl_app.
  generalize (foldl edit_headers h (match wc_origin c with Some origin => [Call_set_header (C := C) ORIGIN_ origin] | None => [] end)). intros h0.
  destruct (wc_protocols c); cbn [foldl edit_headers];
    rewrite ?(names UPGRADE), ?(names CONNECTION), ?(names SEC_WEBSOCKET_VERSION), ?(names SEC_WEBSOCKET_PROTOCOL) by set_solver;
    cbn [default from_option id]; rewrite !hm_get_insert; split_and!; repeat (case_decide; [try done; discriminate|]); done.
Qed.

(** Headers other than these three are not touched behind the calls. *)
Lemma requested_header (calls : list (builder_call (C := C))) body k :
  k <> ACCEPT_ENCODING -> k <> COOKIE ->
  hm_get k (cq_headers (br_request (requested (H := H) calls body))) = hm_get k (foldl edit_headers hm_empty calls).
Proof.
  intros Ha Hc. unfold requested, with_cookies, accepting. cbn [br_request cq_headers set_cq_body].
  destruct (cookies_of calls), (wants_defaults calls); cbn [cq_headers cq_insert set_cq_headers edited];
    rewrite ?hm_get_insert, ?hm_get_append; repeat (case_decide; [congruence|]); done.
Qed.

Lemma connect_no_method (c : Client H J) uri calls body :
  cq_method (br_request (requested (H := H) (asked uri calls ++ connect_calls c) body)) = GET.
Proof.
  assert (forall bs m, (forall m', Call_method m' ∉ bs) ->
    last_set (C := C) (fun c => match c with Call_method m => Some m | _ => None end) bs m = m) as Hl.
  { intros bs. induction bs as [|b bs IH]; intros m Hn; [done|]. rewrite last_set_cons, IH by (intros m'; specialize (Hn m'); set_solver).
    destruct b; try done. specialize (Hn m0). set_solver. }
  assert (cq_method (br_request (requested (H := H) (asked uri calls ++ connect_calls c) body)) =
    last_set (fun c => match c with Call_method m => Some m | _ => None end) (asked uri calls ++ connect_calls c) GET) as ->.
  { unfold requested, with_cookies, accepting. by destruct (cookies_of _), (wants_defaults _). }
  apply Hl. intros m [[?|Hin]%elem_of_cons|Hin]%elem_of_app; [done| |].
  - apply list_elem_of_In, in_concat in Hin as (l & Hl1 & Hl2). apply in_map_iff in Hl1 as (x & <- & _). by destruct x; simpl in Hl2; naive_solver.
  - apply list_elem_of_In in Hin. unfold connect_calls in Hin. destruct (wc_origin c), (wc_protocols c); simpl in Hin; naive_solver.
Qed.

Hypothesis base64_value : forall x, forallb value_byte (base64 x) = true.
Notation connect := (Client_connect (Z' := Z') (D := D) base64 new_timer).

(** The request that a successful [connect] sends. *)
Lemma connect_asks uri conn calls sec_key rx :
  exists h c', connect sec_key rx (foldl do_wc_call (Client_with_connector uri conn) calls) = Ret (h, c') /\
    (hk_request h = None /\ is_Some (hk_error h) \/
     exists s, hk_request h = Some s /\ hk_error h = None /\ hk_key h = base64 sec_key /\ hk_tx h = Some [] /\
       cq_method (sr_req s) = GET /\ cq_body (sr_req s) = Body_Streaming rx /\
       hm_get UPGRADE (cq_headers (sr_req s)) = Some (b#"websocket") /\ hm_get CONNECTION (cq_headers (sr_req s)) = Some (b#"upgrade") /\
       hm_get SEC_WEBSOCKET_VERSION (cq_headers (sr_req s)) = Some (b#"13") /\
       hm_get SEC_WEBSOCKET_KEY (cq_headers (sr_req s)) = Some (base64 sec_key)).
Proof.
  set (c := foldl do_wc_call _ calls). destruct (asked_request uri conn calls) as [Hreq Herr]. fold c in Hreq, Herr.
  unfold Client_connect. rewrite Herr. destruct (wc_http_err c) as [e|]; [do 2 eexists; split; [done|left; by split]|].
  rewrite connect_request, Hreq, <-foldl_app. unfold cb_finish.
  destruct (body_built (H := H) ltac:(intros k Hk; apply names; set_solver) (asked uri calls ++ connect_calls c) Body_Empty) as (r & b & -> & _ & Hr).
  cbn [mbind run_bind]. destruct r as [request|e]; [|do 2 eexists; split; [done|left; by split]].
  destruct Hr as (_ & -> & _).
  destruct (uri_host _) as [host|]; [|do 2 eexists; split; [done|left; by split]].
  destruct (uri_scheme _) as [scheme|]; [|do 2 eexists; split; [done|left; by split]].
  destruct (bool_decide (scheme ∈ ws_schemes)); [|do 2 eexists; split; [done|left; by split]].
  unfold ClientHandshake_new. rewrite hv_try_from_ok by done. cbn [mbind run_bind unwrap].
  do 2 eexists. split; [done|]. right. cbn [hk_request hk_error hk_key hk_tx]. eexists. split; [done|].
  set (q := set_cq_body _ _).
  assert (forall to, sr_req (ClientRequest_send (Z' := Z') (D := D) new_timer (mkBuilt q to)).2 = set_cq_timeout None q) as ->.
  { intros to. unfold ClientRequest_send. cbn [br_request br_conn]. by destruct to, (cq_timeout q). }
  split_and!; try done; cbn [cq_headers set_cq_timeout set_cq_body q cq_insert set_cq_headers cq_method].
  - apply connect_no_method.
  - rewrite hm_get_insert, decide_False by discriminate. rewrite requested_header, foldl_app by discriminate. apply connect_headers.
  - rewrite hm_get_insert, decide_False by discriminate. rewrite requested_header, foldl_app by discriminate. apply connect_headers.
  - rewrite hm_get_insert, decide_False by discriminate. rewrite requested_header, foldl_app by discriminate. apply connect_headers.
  - by rewrite hm_get_insert, decide_True.
Qed.

(** What a client takes for an accepted handshake. *)
Definition handshake_response_ok (key : bytes) (msg : ClientMessage H) : Prop :=
  cm_status msg = 101 /\
  (exists v, hm_get UPGRADE (cm_headers msg) = Some v /\ is_Some (hv_to_str v) /\ contains (to_lowercase v) (b#"websocket") = true) /\
  (exists v, hm_get CONNECTION (cm_headers msg) = Some v /\ is_Some (hv_to_str v) /\ contains (to_lowercase v) (b#"upgrade") = true) /\
  hm_get SEC_WEBSOCKET_ACCEPT (cm_headers msg) = Some (base64 (sha1 (key ++ WS_GUID))).

Lemma verify_response_ok key (msg : ClientMessage H) : verify_response sha1 base64 key msg = Ok tt <-> handshake_response_ok key msg.
Proof.
  unfold verify_response, handshake_response_ok, has_websocket_upgrade, verify_connection, verify_accept.
  assert (forall v s, hv_to_str v = Some s -> s = v) as Hid by apply hv_to_str_id. split.
  - intros Hv. repeat (case_match; try done); simplify_eq.
    repeat match goal with Hs : hv_to_str ?v = Some ?s |- _ => assert (s = v) as -> by eauto; revert Hs end. intros.
    rewrite ?negb_false_iff, ?bool_decide_eq_true, ?Z.eqb_eq in *. subst. split_and!; try done; eexists; split_and!; done.
  - intros (-> & (u & -> & [su Hu] & Hcu) & (v & -> & [sv Hv] & Hcv) & ->). cbn [Z.eqb Pos.eqb negb].
    rewrite Hu, (Hid _ _ Hu), Hcu. cbn [negb]. rewrite Hv, (Hid _ _ Hv), Hcv. by rewrite bool_decide_true.
Qed.

(** C24. Client and server agree on the opening handshake.  Whatever is set on a client,
    [connect] neither panics nor keeps waiting: it gives an error, or sends a request whose
    headers, as they arrive, the server's [start] accepts; and the response that the
    server then builds, with the connection header that its writer adds, is one the client
    takes.  The client takes exactly the responses with status 101 that name the websocket
    upgrade and carry the digest of its key. *)
Theorem handshake_agreed {J2 C2 : Type} `{CJ : CookieJar J2 C2} (uri : bytes) (conn : nat) (calls : list wc_call) (sec_key : bytes) (rx : nat) :
  (forall v, forallb value_byte v = true -> visible_ascii v = true -> hv_to_str v = Some v) ->
  (forall key msg, verify_response sha1 base64 key msg = Ok tt <-> handshake_response_ok key msg) /\
  exists h c', connect sec_key rx (foldl do_wc_call (Client_with_connector uri conn) calls) = Ret (h, c') /\
    (hk_request h = None -> is_Some (hk_error h)) /\
    forall s, hk_request h = Some s ->
    forall (req : HttpInnerMessage H) tl ctx, response_pool_reachable (J := J2) tl ->
    msg_method req = cq_method (sr_req s) ->
    (forall k, k ∈ [UPGRADE; CONNECTION; SEC_WEBSOCKET_VERSION; SEC_WEBSOCKET_KEY] ->
      hm_get k (msg_headers req) = hm_get k (cq_headers (sr_req s))) ->
    exists r tl', ws_start (J := J2) sha1 base64 req ctx tl = Ret (Ok r, tl') /\
      forall version keepalive (msg : ClientMessage H),
        cm_status msg = r_status r ->
        (forall k, k ∈ [UPGRADE; CONNECTION; SEC_WEBSOCKET_ACCEPT] ->
          hm_get k (cm_headers msg) = hm_get k (r_headers (set_connection version (resp_upgrade r) keepalive r))) ->
        verify_response sha1 base64 (hk_key h) msg = Ok tt.
Proof.
  intros Hstr. split; [apply verify_response_ok|].
  destruct (connect_asks uri conn calls sec_key rx) as (h & c' & Hconn & Hh). exists h, c'. split; [done|].
  split; [by destruct Hh as [[_ ?]|(s & -> & _)]|].
  intros s Hs req tl ctx Htl Hmethod Hheaders. destruct Hh as [[Hn _]|(s' & Hs' & _ & Hkey & _ & Hget & _ & Hu & Hc & Hv & Hk)]; [congruence|].
  rewrite Hs in Hs'. injection Hs' as <-.
  assert (handshake_request_ok req (base64 sec_key)) as Hok.
  { split; [congruence|]. split_and!; [exists (b#"websocket")|exists (b#"upgrade")|exists (b#"13")|]; rewrite Hheaders by set_solver.
    - split_and!; [done|rewrite Hstr by done; by eexists|done].
    - split_and!; [done|rewrite Hstr by done; by eexists|done].
    - split; [done|]. constructor.
    - done. }
  destruct (handshake_accepts (C := C2) sha1 base64 req tl (Body_Actor ctx) Htl base64_value) as [[_ Hacc] Hresp].
  { intros k Hin. apply names. apply list_elem_of_In in Hin. apply list_elem_of_In. simpl in *. tauto. }
  destruct (Hacc (ex_intro _ _ Hok)) as (b & tl' & Hhs).
  destruct (Hresp b tl' _ Hhs Hok) as (r & b' & tl'' & Hb & Hst & Hup & Hru & _ & Hra).
  exists r, tl''. split; [unfold ws_start; rewrite Hhs; by rewrite Hb|]. intros version ka msg Hms Hmh.
  assert (forall k, k ∈ [UPGRADE; CONNECTION; SEC_WEBSOCKET_ACCEPT] ->
    hm_get k (cm_headers msg) = if decide (CONNECTION = k) then Some (b#"upgrade") else hm_get k (r_headers r)) as Hmsg.
  { intros k Hin. rewrite Hmh by done. unfold set_connection. rewrite Hup. cbn [insert_header r_headers]. by rewrite <-hm_get_insert. }
  apply verify_response_ok. split; [congruence|]. rewrite !Hmsg by (repeat constructor).
  rewrite (decide_False (P := CONNECTION = UPGRADE)), (decide_True (P := CONNECTION = CONNECTION)), (decide_False (P := CONNECTION = SEC_WEBSOCKET_ACCEPT)) by done.
  split_and!.
  - exists (b#"websocket"). split_and!; [done|rewrite Hstr by done; by eexists|done].
  - exists (b#"upgrade"). split_and!; [done|rewrite Hstr by done; by eexists|done].
  - by rewrite Hra, Hkey.
Qed.
End Agreed.

(** ** What goes wrong *)

(** A client connects once: a second [connect] panics, although it takes [&mut self]. *)
Lemma connect_reused {H : Type} `{HM : HeaderMap H} `{HC : HeaderConv} `{UC : UrlCrate} {J C : Type} `{RC : RequestCookies J C} {Z' D : Type}
    base64 new_timer sec_key rx (c : Client H J) :
  wc_err c = None -> wc_http_err c = None -> cb_request (wc_request c) = None -> cb_err (wc_request c) = None ->
  Client_connect (Z' := Z') (D := D) base64 new_timer sec_key rx c = Panic.
Proof.
  intros He Hh Hq Hb. unfold Client_connect. rewrite He, Hh.
  assert (cb_parts (wc_request c) = None) as Hp by (unfold cb_parts; by rewrite Hb).
  assert (forall k v, cb_set_header k v (wc_request c) = wc_request c) as Hs by (intros; unfold cb_set_header, put_header; by rewrite Hp).
  assert (upgrade_request_headers c = wc_request c) as ->.
  { unfold upgrade_request_headers, cb_upgrade, cb_with_connector, with_request, with_conn.
    destruct (wc_origin c), (wc_protocols c); rewrite ?Hs, ?Hp, ?Hs, ?Hp; done. }
  unfold cb_finish, cb_body. rewrite Hb.
  assert (accept_default (wc_request c) = wc_request c) as ->; [|by rewrite Hq].
  unfold accept_default, cb_header, put_header. rewrite Hp. by destruct (cb_default_headers _).
Qed.

(** The client gives the first fragment of a message as if it were the whole. *)
Lemma client_takes_fragments `{ByteOrder} big uninit addr {S} `{Stream S} (s : WsSession S) payload rx text :
  in_closed (ss_inner s) = false ->
  parse big uninit addr (in_rx (ss_inner s)) false (ss_max_size s) = Ret (Ready (Some (mkFrame false Op_Text payload)), rx) ->
  from_utf8 payload = Some text ->
  exists s', client_reader_poll big uninit addr s = Ret (Ready (Some (Msg_Text text)), s').
Proof. intros Hc Hp Ht. unfold client_reader_poll. rewrite Hc, Hp. cbn. rewrite Ht. by eexists. Qed.

(** ** Witnesses *)

Definition chat_calls : list wc_call := [Wc_protocols [b#"chat"; b#"log"]; Wc_cookie (b#"id", b#"7"); Wc_timeout 3].

(** A request as it arrives. *)
Definition arrived (q : ClientRequest (list (bytes * bytes))) : HttpInnerMessage (list (bytes * bytes)) :=
  {| msg_version := cq_version q; msg_method := cq_method q; msg_uri := cq_uri q; msg_headers := cq_headers q;
     msg_extensions := []; msg_params := []; msg_cookies := None; msg_query := [];
     msg_query_loaded := false; msg_addr := None; msg_payload := None; msg_info := None; msg_resource := Notset |}.

Lemma handshake_agreed_witness :
  exists h c' s r tl', Client_connect (H := list (bytes * bytes)) (HC := ascii_conv) (Z' := unit) (D := unit) toy_base64 (fun _ => None) [1; 2] 0
      (foldl (do_wc_call (HC := ascii_conv)) (Client_with_connector (HC := ascii_conv) (b#"ws://h.org/chat") 0) chat_calls) = Ret (h, c') /\
    hk_request h = Some s /\ alist_lookup SEC_WEBSOCKET_PROTOCOL (cq_headers (sr_req s)) = Some (b#"chat,log") /\
    @ws_start _ _ ascii_conv (list bytes) bytes _ toy_sha1 toy_base64 (arrived (sr_req s)) 4 used_pool = Ret (Ok r, tl').
Proof.
  destruct (handshake_agreed (H := list (bytes * bytes)) (HC := ascii_conv) (Z' := unit) (D := unit) toy_sha1 toy_base64 (fun _ => None))
    with (J2 := list bytes) (C2 := bytes) (CJ := list_jar) (uri := b#"ws://h.org/chat") (conn := 0%nat) (calls := chat_calls) (sec_key := [1; 2]) (rx := 0%nat)
    as (_ & h & c' & Hconn & _ & Hs).
  - intros k Hk. apply list_elem_of_In in Hk. simpl in Hk. destruct Hk as [<-|[<-|[<-|[<-|[<-|[<-|[<-|[<-|[<-|[<-|[]]]]]]]]]]]; reflexivity.
  - apply toy_base64_ok.
  - intros v _ Hv. simpl. by rewrite Hv.
  - exists h, c'. destruct (hk_request h) as [s|] eqn:Hh; [|vm_compute in Hconn; injection Hconn as <- _; discriminate Hh].
    destruct (Hs s eq_refl (arrived (sr_req s)) used_pool 4%nat) as (r & tl' & Hok & _); [apply used_pool_reachable|done|done|].
    exists s, r, tl'. split; [exact Hconn|split; [reflexivity|split; [|exact Hok]]].
    vm_compute in Hconn. injection Hconn as <- _. injection Hh as <-. reflexivity.
Defined.

(** An actor that greets, then stops. *)
#[export] Instance greeter : ContextImpl bool wsctx_call :=
  {| ci_alive b := b; ci_stop _ := false; ci_modify b := b;
     ci_poll _ _ := ([WC_send (Ws_text (b#"hello")); WC_send (Ws_close Cc_Normal (b#"bye"))], true, false) |}.

Definition chat : list (ws_call * Z) := [(Ws_text (b#"hi"), 5); (Ws_ping [], 70000); (Ws_close Cc_Away [], 9)].
Definition chat_bytes : bytes := @frames_text be_byteorder false 9 3 [] (map (fun x => (x.1, Some x.2)) chat).

Lemma ws_conversation_witness :
  (exists w', reads (@ws_poll be_byteorder false 9 3 script _) 3
      (WsStream_new [Ready (Some (take 4 chat_bytes)); Ready (Some (drop 4 chat_bytes ++ [1]))]) =
    Ret ([Ready (Some (Msg_Text (b#"hi"))); Ready (Some (Msg_Ping [])); Ready (Some (Msg_Close Cc_Away))], w')) /\
  (exists rs log c s', ctx_run (@do_ws_call be_byteorder false 9 3 [] bool greeter) [Ev_poll; Ev_call (WC_drain 0); Ev_poll] (ctx_new true) = (rs, log, c) /\
    reads (@client_reader_poll be_byteorder false 9 3 script _) 2
      (mkSession (mkInner [] (PayloadHelper_new [Ready (Some (chunk_bytes (answered_frames rs)))]) false) 100) =
    Ret ([Ready (Some (Msg_Text (b#"hello"))); Ready (Some (Msg_Close Cc_Normal))], s')).
Proof.
  assert (forall max x, 40 <= max -> x ∈ [Ws_text (b#"hi"); Ws_ping []; Ws_close Cc_Away []; Ws_text (b#"hello"); Ws_close Cc_Normal (b#"bye")] ->
    call_sendable max x) as Hsend.
  { intros max x Hmax Hx. apply list_elem_of_In in Hx. simpl in Hx.
    destruct Hx as [<-|[<-|[<-|[<-|[<-|[]]]]]]; refine (conj _ (conj _ (conj _ (conj _ (conj _ _))))); try done;
      first [by vm_compute|by (split; vm_compute; [split; [discriminate|reflexivity]|reflexivity])|by (vm_compute; split; [discriminate|reflexivity])
            |by (repeat constructor; vm_compute; discriminate)|(etrans; [|exact Hmax]; vm_compute; discriminate)|(intros _; vm_compute; discriminate)]. }
  destruct (@ws_conversation be_byteorder script bool _ greeter false 9 3 []) as [Hc Hs]; [constructor|]. split.
  - destruct (Hc chat (mkSession (mkInner [] (PayloadHelper_new []) false) 100) eq_refl) as (sent & Hsent & Hread).
    assert (concat sent = chat_bytes) as Hbytes by (vm_compute in Hsent; subst sent; vm_compute; reflexivity).
    edestruct Hread as (w' & Hr & _); [| | | | |exists w'; exact Hr].
    + apply Forall_forall. intros x Hx. apply list_elem_of_In in Hx. simpl in Hx.
      destruct Hx as [<-|[<-|[<-|[]]]]; (split; [apply Hsend; [discriminate|repeat constructor]|vm_compute; split; [discriminate|reflexivity]]).
    + repeat split; done.
    + done.
    + done.
    + rewrite Hbytes. vm_compute. reflexivity.
  - destruct (ctx_run _ _ _) as [[rs log] c] eqn:Hrun. exists rs, log, c.
    assert (cx_stream c = None /\ sends log = [Ws_text (b#"hello"); Ws_close Cc_Normal (b#"bye")]) as [Hnone Hlog]
      by (vm_compute in Hrun; injection Hrun as _ <- <-; by split).
    destruct (Hs _ _ _ _ _ Hrun Hnone (mkSession (mkInner [] (PayloadHelper_new [Ready (Some (chunk_bytes (answered_frames rs)))]) false) 100) [])
      as (s' & Hr & _); rewrite ?Hlog.
    + apply Forall_forall. intros x Hx. apply Hsend; [discriminate|]. do 3 apply list_elem_of_further. exact Hx.
    + repeat split; done.
    + done.
    + done.
    + rewrite app_nil_r. unfold PayloadHelper.pending, deliverable, content. simpl. by rewrite ?app_nil_r.
    + exists s'. split; [done|]. by rewrite Hlog in Hr.
Defined.
