(* ===== verification/Session.v ===== *)
(** * Cookies and cookie sessions (cookies of src/src/httprequest.rs and
      src/src/client/response.rs, src/src/middleware/session.rs)

    A session is a map kept by the client in one signed or encrypted cookie.  The cookie
    crate (texts of cookies, jars with keys) and serde_json are parameters. *)
From S2P Require Import Prelude StrLib Errors Http Response.
Open Scope Z_scope.

Definition COOKIE_ : bytes := b#"cookie".

(** What the code sets of a [Cookie]; parsed cookies have a name and a value. *)
Record Cookie : Type := mkCookie {
  ck_name : bytes;
  ck_value : bytes;
  ck_path : bytes;
  ck_domain : option bytes;
  ck_secure : bool;
  ck_http_only : bool;
  ck_max_age : option Z;
}.

(** A name and a value that are read as they are written: nothing is escaped, cut or
    trimmed. *)
Definition plain_pair (name value : bytes) : Prop :=
  name <> [] /\ 61 ∉ name /\ 37 ∉ name ++ value /\ 59 ∉ name ++ value /\ trim name = name /\ trim value = value /\
  trim (name ++ b#"=" ++ value) = name ++ b#"=" ++ value.

(** [Cookie::to_string] and [Cookie::parse_encoded]: the text begins with name and value as
    they are, and reading decodes percent escapes. *)
Class CookieText := {
  cookie_to_string : Cookie -> bytes;
  parse_encoded : bytes -> option (bytes * bytes);
  to_string_pair c : exists attrs, cookie_to_string c = ck_name c ++ b#"=" ++ ck_value c ++ attrs /\ (attrs = [] \/ exists s, attrs = 59 :: s);
  parse_plain name value : plain_pair name value -> parse_encoded (name ++ b#"=" ++ value) = Some (name, value);
}.

Inductive CookieParseError : Type := CkE_Utf8 | CkE_Parse.

Section Cookies.
Context {H : Type} `{HM : HeaderMap H} `{CT : CookieText}.

(** The cookies of one header of a request. *)
Fixpoint parse_cookies (strs : list bytes) : result (list (bytes * bytes)) CookieParseError :=
  match strs with
  | [] => Ok []
  | s :: strs =>
      let s := trim s in
      match s with
      | [] => parse_cookies strs
      | _ =>
          match parse_encoded s with
          | Some c => match parse_cookies strs with Ok cs => Ok (c :: cs) | Err e => Err e end
          | None => Err CkE_Parse
          end
      end
  end.
Fixpoint header_cookies (hdrs : list bytes) : result (list (bytes * bytes)) CookieParseError :=
  match hdrs with
  | [] => Ok []
  | hdr :: hdrs =>
      match from_utf8 hdr with
      | Some s =>
          match parse_cookies (split_on 59 s) with
          | Ok cs => match header_cookies hdrs with Ok cs' => Ok (cs ++ cs') | Err e => Err e end
          | Err e => Err e
          end
      | None => Err CkE_Utf8
      end
  end.

(** [HttpRequest::cookies]: parsed once and kept, unless there is an error. *)
Definition req_cookies (kept : option (list (bytes * bytes))) (headers : H)
  : result (list (bytes * bytes)) CookieParseError * option (list (bytes * bytes)) :=
  match kept with
  | Some cs => (Ok cs, kept)
  | None =>
      match header_cookies (get_all COOKIE_ headers) with
      | Ok cs => (Ok cs, Some cs)
      | Err e => (Err e, None)
      end
  end.

(** [ClientResponse::cookies]: one cookie for each header. *)
Fixpoint set_cookies (hdrs : list bytes) : result (list (bytes * bytes)) CookieParseError :=
  match hdrs with
  | [] => Ok []
  | val :: hdrs =>
      match from_utf8 val with
      | Some s =>
          match parse_encoded s with
          | Some c => match set_cookies hdrs with Ok cs => Ok (c :: cs) | Err e => Err e end
          | None => Err CkE_Parse
          end
      | None => Err CkE_Utf8
      end
  end.
Definition resp_cookies (kept : option (list (bytes * bytes))) (headers : H)
  : result (list (bytes * bytes)) CookieParseError * option (list (bytes * bytes)) :=
  match kept with
  | Some cs => (Ok cs, kept)
  | None =>
      match set_cookies (get_all SET_COOKIE headers) with
      | Ok cs => (Ok cs, Some cs)
      | Err e => (Err e, None)
      end
  end.

(** [cookie]: the first one of a name. *)
Definition find_cookie (name : bytes) (cs : result (list (bytes * bytes)) CookieParseError) : option (bytes * bytes) :=
  match cs with
  | Ok cs => find (fun c => bool_decide (c.1 = name)) cs
  | Err _ => None
  end.
Definition req_cookie (name : bytes) kept (headers : H) := find_cookie name (req_cookies kept headers).1.
Definition resp_cookie (name : bytes) kept (headers : H) := find_cookie name (resp_cookies kept headers).1.
End Cookies.

(** ** Sessions *)

Inductive CookieSecurity : Type := Signed | Private.
Inductive CookieSessionError : Type := CSE_Overflow | CSE_Serialize.
#[export] Instance ResponseError_session : ResponseError CookieSessionError := fun _ => 500.

(** Keys, and the signed and private jars: [seal] is what a jar makes of a value ([nonce] is
    its randomness), [unseal] what a jar with that one cookie answers. *)
Class SessionJars (Key : Type) := {
  from_master : bytes -> Key;
  seal : CookieSecurity -> Key -> bytes -> bytes -> bytes -> bytes;
  unseal : CookieSecurity -> Key -> bytes -> bytes -> option bytes;
  unseal_seal sec key name nonce v : unseal sec key name (seal sec key name nonce v) = Some v;
}.

Definition SessionState : Type := gmap bytes bytes.

(** [serde_json] on states. *)
Class StateJson := {
  state_to_json : SessionState -> option bytes;
  state_from_json : bytes -> option SessionState;
  state_json m s : state_to_json m = Some s -> state_from_json s = Some m;
}.

Section Sessions.
Context {H : Type} `{HM : HeaderMap H} `{HC : HeaderConv} `{CT : CookieText} {Key : Type} `{SJ : SessionJars Key} `{JS : StateJson}.
Notation Resp := (InnerHttpResponse H).

Record CookieSessionInner : Type := mkSessionInner {
  cs_key : Key;
  cs_security : CookieSecurity;
  cs_name : bytes;
  cs_path : bytes;
  cs_domain : option bytes;
  cs_secure : bool;
  cs_max_age : option Z;
}.

(** [new]; [Key::from_master] panics for less than 32 bytes. *)
Definition CookieSessionInner_new (key : bytes) (security : CookieSecurity) : run CookieSessionInner :=
  if lenZ key <? 32 then Panic
  else Ret (mkSessionInner (from_master key) security (b#"actix-session") (b#"/") None true None).
Definition CookieSessionBackend_signed (key : bytes) := CookieSessionInner_new key Signed.
Definition CookieSessionBackend_private (key : bytes) := CookieSessionInner_new key Private.
Definition sb_path v (i : CookieSessionInner) := mkSessionInner (cs_key i) (cs_security i) (cs_name i) v (cs_domain i) (cs_secure i) (cs_max_age i).
Definition sb_name v (i : CookieSessionInner) := mkSessionInner (cs_key i) (cs_security i) v (cs_path i) (cs_domain i) (cs_secure i) (cs_max_age i).
Definition sb_domain v (i : CookieSessionInner) := mkSessionInner (cs_key i) (cs_security i) (cs_name i) (cs_path i) (Some v) (cs_secure i) (cs_max_age i).
Definition sb_secure v (i : CookieSessionInner) := mkSessionInner (cs_key i) (cs_security i) (cs_name i) (cs_path i) (cs_domain i) v (cs_max_age i).
Definition sb_max_age v (i : CookieSessionInner) := mkSessionInner (cs_key i) (cs_security i) (cs_name i) (cs_path i) (cs_domain i) (cs_secure i) (Some v).

(** The cookie that goes out. *)
Definition session_cookie (i : CookieSessionInner) (nonce value : bytes) : Cookie :=
  mkCookie (cs_name i) (seal (cs_security i) (cs_key i) (cs_name i) nonce value) (cs_path i) (cs_domain i) (cs_secure i) true (cs_max_age i).

Definition set_cookie (nonce : bytes) (i : CookieSessionInner) (resp : Resp) (state : SessionState) : result unit Error * Resp :=
  match state_to_json state with
  | None => (Err (Error_from CSE_Serialize), resp)
  | Some value =>
      if 4064 <? lenZ value then (Err (Error_from CSE_Overflow), resp)
      else
        (* the one cookie of the jar's delta *)
        match hv_try_from (cookie_to_string (session_cookie i nonce value)) with
        | Some val => (Ok tt, set_r_headers (hm_append SET_COOKIE val (r_headers resp)) resp)
        | None => (Err (mkError 400), resp)
        end
  end.

(** [load]: the first cookie of the name that verifies and holds a state. *)
Fixpoint load_loop (i : CookieSessionInner) (cookies : list (bytes * bytes)) : SessionState :=
  match cookies with
  | [] => ∅
  | (name, value) :: cookies =>
      if bool_decide (name = cs_name i) then
        match unseal (cs_security i) (cs_key i) (cs_name i) value with
        | Some v => match state_from_json v with Some val => val | None => load_loop i cookies end
        | None => load_loop i cookies
        end
      else load_loop i cookies
  end.
Definition load (i : CookieSessionInner) kept (headers : H) : SessionState :=
  match (req_cookies kept headers).1 with
  | Ok cookies => load_loop i cookies
  | Err _ => ∅
  end.

Record CookieSession : Type := mkSession { se_changed : bool; se_state : SessionState; se_inner : CookieSessionInner }.
Definition se_get (key : bytes) (s : CookieSession) : option bytes := se_state s !! key.
Definition se_set (key value : bytes) (s : CookieSession) : CookieSession := mkSession true (<[key:=value]> (se_state s)) (se_inner s).
Definition se_remove (key : bytes) (s : CookieSession) : CookieSession := mkSession true (delete key (se_state s)) (se_inner s).
Definition se_clear (s : CookieSession) : CookieSession := mkSession true ∅ (se_inner s).
(** [write] drops the error of [set_cookie]. *)
Definition se_write (nonce : bytes) (s : CookieSession) (resp : Resp) : Resp :=
  if se_changed s then (set_cookie nonce (se_inner s) resp (se_state s)).2 else resp.

(** [from_request] of the backend, whose future is ready. *)
Definition session_from_request (i : CookieSessionInner) kept (headers : H) : CookieSession := mkSession false (load i kept headers) i.

(** *** The middleware, and the session of a request: a dummy if there is none *)

(** [SessionStorage]: [start] puts the session into the extensions of the request,
    [response] takes it out. *)
Definition storage_start (i : CookieSessionInner) kept (headers : H) (slot : option CookieSession) : option CookieSession :=
  Some (session_from_request i kept headers).
Definition storage_response (nonce : bytes) (slot : option CookieSession) (resp : Resp) : Resp * option CookieSession :=
  match slot with
  | Some s => (se_write nonce s resp, None)
  | None => (resp, None)
  end.

(** [Session]: values pass through JSON. *)
Definition Session_get {T} (from_str : bytes -> option T) (key : bytes) (slot : option CookieSession) : result (option T) JsonError :=
  match slot ≫= se_get key with
  | Some s => match from_str s with Some v => Ok (Some v) | None => Err JsonErr end
  | None => Ok None
  end.
Definition Session_set {T} (to_string : T -> option bytes) (key : bytes) (value : T) (slot : option CookieSession)
  : result unit JsonError * option CookieSession :=
  match to_string value with
  | Some v => (Ok tt, se_set key v <$> slot)
  | None => (Err JsonErr, slot)
  end.
Definition Session_remove (key : bytes) (slot : option CookieSession) : option CookieSession := se_remove key <$> slot.
Definition Session_clear (slot : option CookieSession) : option CookieSession := se_clear <$> slot.

(** ** A session comes back *)

Inductive session_call : Type := Ses_set (key value : bytes) | Ses_remove (key : bytes) | Ses_clear.
Definition do_session_call (s : CookieSession) (x : session_call) : CookieSession :=
  match x with
  | Ses_set key value => se_set key value s
  | Ses_remove key => se_remove key s
  | Ses_clear => se_clear s
  end.
Definition state_after (m : SessionState) (x : session_call) : SessionState :=
  match x with
  | Ses_set key value => <[key:=value]> m
  | Ses_remove key => delete key m
  | Ses_clear => ∅
  end.

Lemma session_calls calls s :
  foldl do_session_call s calls =
  mkSession (match calls with [] => se_changed s | _ => true end) (foldl state_after (se_state s) calls) (se_inner s).
Proof.
  revert s. induction calls as [|x calls IH]; intros s; simpl; [by destruct s|]. rewrite IH. by destruct x, calls.
Qed.

(** What a user agent keeps of a Set-Cookie header, and the header it sends: the pairs it
    holds, separated by a semicolon and a space. *)
Definition agent_keeps (set_cookie : bytes) : bytes := trim (hd [] (split_on 59 set_cookie)).
Definition agent_sends (items : list bytes) : bytes :=
  match items with [] => [] | x :: xs => join 59 (x :: map (cons 32) xs) end.

Lemma split_on_prefix sep (w s : bytes) : sep ∉ w -> s = [] \/ (exists s', s = sep :: s') -> hd [] (split_on sep (w ++ s)) = w.
Proof.
  intros Hw Hs. induction w as [|b w IH]; simpl.
  - destruct Hs as [->|[s' ->]]; [done|]. simpl. by rewrite Z.eqb_refl.
  - apply not_elem_of_cons in Hw as [Hb Hw]. rewrite (proj2 (Z.eqb_neq b sep)) by done. specialize (IH Hw).
    pose proof (split_on_nonempty sep (w ++ s)). destruct (split_on sep (w ++ s)); [done|]. simpl in *. by rewrite IH.
Qed.

Lemma agent_keeps_pair c :
  plain_pair (ck_name c) (ck_value c) -> agent_keeps (cookie_to_string c) = ck_name c ++ b#"=" ++ ck_value c.
Proof.
  intros (_ & _ & _ & Hsemi & _ & _ & Htrim). unfold agent_keeps. destruct (to_string_pair c) as (attrs & -> & Hattrs).
  rewrite !app_assoc, <-(app_assoc (ck_name c)), split_on_prefix; [done| |done].
  intros [?|[?|?]%elem_of_app]%elem_of_app; [set_solver| |set_solver]. by apply list_elem_of_singleton in H0.
Qed.

(** Cookies of one header, each its own item. *)
Definition holds (item : bytes) (c : bytes * bytes) : Prop :=
  item <> [] /\ 59 ∉ item /\ trim item = item /\ parse_encoded item = Some c.

Lemma plain_holds name value : plain_pair name value -> holds (name ++ b#"=" ++ value) (name, value).
Proof.
  intros Hp. pose proof (parse_plain _ _ Hp). destruct Hp as (Hn & _ & _ & Hsemi & _ & _ & Ht).
  split_and!; [by destruct name| |done|done]. intros [?|[Hx|?]%elem_of_app]%elem_of_app.
  - apply Hsemi, elem_of_app. by left.
  - by apply list_elem_of_singleton in Hx.
  - apply Hsemi, elem_of_app. by right.
Qed.

Lemma parse_items items cookies : Forall2 holds items cookies -> parse_cookies items = Ok cookies.
Proof.
  induction 1 as [|item c items cookies (Hne & _ & Ht & Hp) _ IH]; [done|]. simpl. rewrite Ht. destruct item; [done|].
  by rewrite Hp, IH.
Qed.

Lemma parse_spaced items : parse_cookies (map (cons 32) items) = parse_cookies items.
Proof. induction items as [|item items IH]; [done|]. simpl. change (trim (32 :: item)) with (trim item). by rewrite IH. Qed.

Lemma agent_sends_split items : items <> [] -> Forall (fun i : bytes => 59 ∉ i) items ->
  parse_cookies (split_on 59 (agent_sends items)) = parse_cookies items.
Proof.
  intros Hne Hall. destruct items as [|x xs]; [done|]. unfold agent_sends. apply Forall_cons in Hall as [Hx Hxs].
  rewrite split_on_join; [|done|constructor; [done|]].
  - simpl. by rewrite parse_spaced.
  - apply Forall_map. eapply Forall_impl; [exact Hxs|]. intros i Hi [?|?]%elem_of_cons; done.
Qed.

Lemma load_loop_skip i cs1 cs2 :
  Forall (fun c : bytes * bytes => c.1 <> cs_name i) cs1 -> load_loop i (cs1 ++ cs2) = load_loop i cs2.
Proof.
  induction 1 as [|[n v] cs1 Hn _ IH]; [done|]. simpl in *. by rewrite bool_decide_false.
Qed.

(** Cookies that do not verify are ignored. *)
Lemma load_unverified i cs :
  Forall (fun c : bytes * bytes => c.1 = cs_name i -> unseal (cs_security i) (cs_key i) (cs_name i) c.2 = None) cs -> load_loop i cs = ∅.
Proof.
  induction 1 as [|[n v] cs Hn _ IH]; [done|]. simpl in *. case_bool_decide as Hname; [|done]. by rewrite Hn.
Qed.

(** A session of more than 4064 bytes (not 4000, as documented) is dropped, and the response
    is sent without an error. *)
Lemma session_dropped (s : CookieSession) nonce (resp : Resp) json :
  state_to_json (se_state s) = Some json -> 4064 < lenZ json -> se_write nonce s resp = resp.
Proof.
  intros Hj Hl. unfold se_write. destruct (se_changed s); [|done]. unfold set_cookie. by rewrite Hj, (proj2 (Z.ltb_lt _ _)).
Qed.

(** C26. Sessions persist.  A handler sees in its session what the request brought and what
    it has changed since; a session that was not changed writes nothing.  A changed one of
    at most 4000 bytes, the documented size, is written as one cookie, and if the text of
    that cookie can be read as it is written, a later request that carries what the user
    agent keeps of it, with other cookies before and behind, loads exactly the state that
    was written. *)
Theorem session_persists (i : CookieSessionInner) kept (h : H) (calls : list session_call) (nonce : bytes) (resp : Resp) :
  let s := foldl do_session_call (session_from_request i kept h) calls in
  let m := foldl state_after (load i kept h) calls in
  (forall key, se_get key s = m !! key) /\
  (calls = [] -> se_write nonce s resp = resp) /\
  forall json, calls <> [] -> state_to_json m = Some json -> lenZ json <= 4000 ->
    let cookie := session_cookie i nonce json in
    (forallb value_byte (cookie_to_string cookie) = true ->
     se_write nonce s resp = set_r_headers (hm_append SET_COOKIE (cookie_to_string cookie) (r_headers resp)) resp /\
     (plain_pair (ck_name cookie) (ck_value cookie) ->
      forall items1 items2 cookies1 cookies2 (h' : H),
        Forall2 holds items1 cookies1 -> Forall2 holds items2 cookies2 -> Forall (fun c => c.1 <> cs_name i) cookies1 ->
        let hdr := agent_sends (items1 ++ agent_keeps (cookie_to_string cookie) :: items2) in
        get_all COOKIE_ h' = [hdr] -> from_utf8 hdr = Some hdr -> load i None h' = m)).
Proof.
  cbn zeta. rewrite session_calls. cbn [se_changed se_state se_inner session_from_request]. split; [done|]. split; [by intros ->|].
  intros json Hne Hjson Hl. cbn zeta. unfold se_write. cbn [se_changed se_state se_inner]. destruct calls as [|x calls]; [done|]. unfold set_cookie.
  rewrite Hjson. intros Hv. rewrite (proj2 (Z.ltb_ge _ _)), hv_try_from_ok by (done || lia). split; [done|].
  intros Hplain items1 items2 cs1 cs2 h' H1 H2 Hother Hget Hutf.
  set (c := session_cookie i nonce json) in *.
  assert (holds (agent_keeps (cookie_to_string c)) (ck_name c, ck_value c)) as Hc.
  { rewrite agent_keeps_pair by done. by apply plain_holds. }
  unfold load, req_cookies. rewrite Hget. cbn [header_cookies]. rewrite Hutf.
  assert (Forall2 holds (items1 ++ agent_keeps (cookie_to_string c) :: items2) (cs1 ++ (ck_name c, ck_value c) :: cs2)) as Hall
    by (apply Forall2_app; [done|by constructor]).
  rewrite agent_sends_split; [|by destruct items1|eapply Forall2_Forall_l; [exact Hall|]; apply Forall_forall; intros ? _ ? (_ & ? & _); done].
  rewrite (parse_items _ _ Hall), app_nil_r. cbn [fst]. rewrite load_loop_skip by done.
  cbn [load_loop]. change (ck_name c) with (cs_name i). rewrite bool_decide_true by done.
  cbn [c session_cookie ck_value]. by rewrite unseal_seal, (state_json _ _ Hjson).
Qed.
End Sessions.
Arguments CookieSession : clear implicits.
Arguments CookieSessionInner : clear implicits.

(** ** Concrete crates *)

Definition hex_digit (b : Z) : option Z :=
  if (48 <=? b) && (b <=? 57) then Some (b - 48) else if (65 <=? b) && (b <=? 70) then Some (b - 55) else None.
Fixpoint percent_decode (s : bytes) : bytes :=
  match s with
  | 37 :: ((a :: b :: s) as rest) =>
      match hex_digit a, hex_digit b with
      | Some x, Some y => (16 * x + y) :: percent_decode s
      | _, _ => 37 :: percent_decode rest
      end
  | b :: s => b :: percent_decode s
  | [] => []
  end.
Lemma percent_decode_plain s : 37 ∉ s -> percent_decode s = s.
Proof.
  intros Hs. induction s as [|b s IH]; [done|]. apply not_elem_of_cons in Hs as [Hb Hs]. specialize (IH Hs).
  assert (percent_decode (b :: s) = b :: percent_decode s) as ->; [|by rewrite IH].
  simpl. repeat (case_match; try done).
Qed.

(** [parse]: cut at the first semicolon and at the first equals sign, both parts trimmed. *)
Fixpoint split_eq (s : bytes) : option (bytes * bytes) :=
  match s with
  | [] => None
  | b :: s => if b =? 61 then Some ([], s) else match split_eq s with Some (n, v) => Some (b :: n, v) | None => None end
  end.
Lemma split_eq_app n v : 61 ∉ n -> split_eq (n ++ 61 :: v) = Some (n, v).
Proof.
  intros Hn. induction n as [|b n IH]; [done|]. apply not_elem_of_cons in Hn as [Hb Hn]. simpl.
  rewrite (proj2 (Z.eqb_neq b 61)) by done. by rewrite IH.
Qed.

#[export] Instance simple_cookies : CookieText.
Proof.
  refine {| cookie_to_string c := ck_name c ++ b#"=" ++ ck_value c ++ b#"; HttpOnly; Path=" ++ ck_path c;
            parse_encoded s := match split_eq (hd [] (split_on 59 s)) with
                               | Some ([], _) | None => None
                               | Some (n, v) => Some (percent_decode (trim n), percent_decode (trim v))
                               end |}.
  - intros c. eexists. split; [done|]. right. by eexists.
  - intros name value (Hne & Heq & Hpct & Hsemi & Hn & Hv & _).
    assert (hd [] (split_on 59 (name ++ b#"=" ++ value)) = name ++ b#"=" ++ value) as ->.
    { rewrite <-(app_nil_r (name ++ b#"=" ++ value)) at 1. apply split_on_prefix; [|by left].
      intros [?|[Hx|?]%elem_of_app]%elem_of_app; [set_solver| |set_solver]. by apply list_elem_of_singleton in Hx. }
    change (b#"=" ++ value) with (61 :: value). rewrite split_eq_app by done. destruct name; [done|].
    rewrite Hn, Hv, !percent_decode_plain by set_solver. done.
Defined.

(** A letter computed from the value stands for its signature. *)
Definition toy_mac (v : bytes) : Z := 65 + foldl Z.add 0 v mod 26.
#[export] Instance toy_jars : SessionJars unit.
Proof.
  refine {| from_master _ := tt; seal _ _ _ _ v := toy_mac v :: v;
            unseal _ _ _ s := match s with c :: v => if decide (c = toy_mac v) then Some v else None | [] => None end |}.
  intros sec key name nonce v. by rewrite decide_True.
Defined.

(** States of one entry whose texts need no escapes. *)
Definition quoted (k v : bytes) : list bytes := [b#"{"; k; b#":"; v; b#"}"].
#[export] Instance single_json : StateJson.
Proof.
  refine {| state_to_json m := match map_to_list m with
                               | [(k, v)] => if decide (34 ∉ k /\ 34 ∉ v) then Some (join 34 (quoted k v)) else None
                               | _ => None
                               end;
            state_from_json s := match split_on 34 s with
                                 | [_; k; _; v; _] => Some {[k := v]}
                                 | _ => None
                                 end |}.
  intros m s Hs. destruct (map_to_list m) as [|[k v] [|? ?]] eqn:Hm; [done| |done].
  destruct (decide _) as [[Hk Hv]|]; [|done]. assert (s = join 34 (quoted k v)) as -> by congruence.
  rewrite split_on_join; [|done|repeat (constructor; [done || set_solver|]); constructor]. cbn [quoted]. f_equal.
  unfold SessionState in *. assert (m = list_to_map [(k, v)]) as -> by (by rewrite <-Hm, list_to_map_to_list). done.
Defined.

(** ** Witness *)

Definition a_session : CookieSessionInner unit := mkSessionInner tt Signed (b#"actix-session") (b#"/") None true None.
Definition empty_response : InnerHttpResponse (list (bytes * bytes)) := InnerHttpResponse_new 200 Body_Empty.

Lemma session_persists_witness :
  let s := foldl do_session_call (session_from_request a_session None [(b#"cookie", b#"x=1")]) [Ses_set (b#"n") (b#"3"); Ses_remove (b#"k")] in
  exists text, r_headers (se_write (HC := ascii_conv) [] s empty_response) = [(SET_COOKIE, text)] /\
    load a_session None [(b#"cookie", b#"x=1; " ++ agent_keeps text ++ b#"; y=2")] = {[b#"n" := b#"3"]}.
Proof.
  destruct (session_persists (HC := ascii_conv) a_session None [(b#"cookie", b#"x=1")] [Ses_set (b#"n") (b#"3"); Ses_remove (b#"k")] [] empty_response)
    as (_ & _ & Hs).
  destruct (Hs (join 34 (quoted (b#"n") (b#"3")))) as [Hw Hload];
    [done|vm_compute; reflexivity|vm_compute; discriminate|vm_compute; reflexivity|].
  eexists. split; [rewrite Hw; reflexivity|].
  assert (plain_pair (cs_name a_session) (seal Signed tt [] [] (join 34 (quoted (b#"n") (b#"3"))))) as Hplain
    by (split_and!; refine (bool_decide_unpack _ _); vm_compute; exact I).
  rewrite (Hload Hplain [b#"x=1"] [b#"y=2"] [(b#"x", b#"1")] [(b#"y", b#"2")]).
  - reflexivity.
  - constructor; [|constructor]. apply (plain_holds (b#"x") (b#"1")). split_and!; refine (bool_decide_unpack _ _); vm_compute; exact I.
  - constructor; [|constructor]. apply (plain_holds (b#"y") (b#"2")). split_and!; refine (bool_decide_unpack _ _); vm_compute; exact I.
  - constructor; [discriminate|constructor].
  - reflexivity.
  - vm_compute. reflexivity.
Defined.


(** ** What goes wrong *)

(** What a user agent sends back after a session with one entry was written. *)
Definition written_back (value : bytes) : option (InnerHttpResponse (list (bytes * bytes)) * SessionState) :=
  let resp := se_write (HC := ascii_conv) [] (se_set (b#"n") value (session_from_request a_session None [])) empty_response in
  match r_headers resp with
  | [(_, text)] => Some (resp, load a_session None [(b#"cookie", agent_keeps text)])
  | _ => None
  end.

(** The cookie is written as it is but read with its escapes decoded: a signed session that
    contains a semicolon or something like a percent escape is lost, without an error. *)
Lemma session_text_lost :
  (exists resp, written_back (b#"ab") = Some (resp, {[b#"n" := b#"ab"]})) /\
  (exists resp, written_back (b#"a;b") = Some (resp, ∅)) /\
  (exists resp, written_back (b#"100%25") = Some (resp, ∅)).
Proof. split_and!; eexists; reflexivity. Qed.

(** Outside of [SessionStorage] every change is dropped without an error. *)
Lemma dummy_session_drops {T} (to_string : T -> option bytes) (from_str : bytes -> option T) (key : bytes) (value : T) s :
  to_string value = Some s ->
  Session_set to_string key value (None : option (CookieSession unit)) = (Ok tt, None) /\
  Session_get from_str key (None : option (CookieSession unit)) = Ok None.
Proof. intros Hs. unfold Session_set. by rewrite Hs. Qed.
