(* ===== verification/Logging.v ===== *)
(** * Where a request comes from, and the access log (src/src/info.rs,
      src/src/middleware/logger.rs)

    Clocks, the calendar, process number, environment and the text of floating point
    numbers are parameters. *)
From S2P Require Import Prelude StrLib Errors Http Response.
Open Scope Z_scope.

Definition FORWARDED : bytes := b#"forwarded".
Definition X_FORWARDED_FOR : bytes := b#"x-forwarded-for".
Definition X_FORWARDED_HOST : bytes := b#"x-forwarded-host".
Definition X_FORWARDED_PROTO : bytes := b#"x-forwarded-proto".
Definition HOST_ : bytes := b#"host".

(** ** [ConnectionInfo] *)

(** What the request has besides its headers: the parts of its uri, the settings of its
    router (whether it is secure, and its host), the address of the peer as a text. *)
Record Origin : Type := mkOrigin {
  or_scheme : option bytes;
  or_authority : option bytes;
  or_settings : option (bool * bytes);
  or_peer : option bytes;
}.
Record ConnectionInfo : Type := mkCInfo { ci_scheme : bytes; ci_host : bytes; ci_remote_ : option bytes; ci_peer : option bytes }.

Section Info.
Context {H : Type} `{HM : HeaderMap H}.

(** [splitn(2, '=')]: the part in front of the first sign, and the one behind it. *)
Fixpoint split_pair (s : bytes) : bytes * option bytes :=
  match s with
  | [] => ([], None)
  | b :: s => if b =? 61 then ([], Some s) else let '(n, v) := split_pair s in (b :: n, v)
  end.

(** [remote], [scheme] and [host] while the Forwarded headers are read. *)
Record Forwarded : Type := mkFwd { fw_remote : option bytes; fw_scheme : option bytes; fw_host : option bytes }.
Definition forwarded_item (fw : Forwarded) (el : bytes) : Forwarded :=
  let '(name, val) := split_pair (trim el) in
  match val with
  | Some val =>
      let name := to_lowercase name in
      if bool_decide (name = b#"for") then
        match fw_remote fw with None => mkFwd (Some (trim val)) (fw_scheme fw) (fw_host fw) | Some _ => fw end
      else if bool_decide (name = b#"proto") then
        match fw_scheme fw with None => mkFwd (fw_remote fw) (Some (trim val)) (fw_host fw) | Some _ => fw end
      else if bool_decide (name = b#"host") then
        match fw_host fw with None => mkFwd (fw_remote fw) (fw_scheme fw) (Some (trim val)) | Some _ => fw end
      else fw
  | None => fw
  end.
Definition forwarded_items (val : bytes) : list bytes := concat (map (split_on 44) (split_on 59 val)).
Definition forwarded_header (fw : Forwarded) (hdr : bytes) : Forwarded :=
  match hv_to_str hdr with
  | Some val => foldl (fun fw pair => foldl forwarded_item fw (split_on 44 pair)) fw (split_on 59 val)
  | None => fw
  end.

(** The first item of a header of proxies. *)
Definition first_item (name : bytes) (h : H) : option bytes :=
  match hm_get name h with
  | Some v => match hv_to_str v with Some v => Some (trim (hd [] (split_on 44 v))) | None => None end
  | None => None
  end.

Definition ConnectionInfo_new (h : H) (o : Origin) : ConnectionInfo :=
  (* load forwarded header *)
  let fw := foldl forwarded_header (mkFwd None None None) (get_all FORWARDED h) in
  let scheme := match fw_scheme fw with
                | Some s => Some s
                | None =>
                    match first_item X_FORWARDED_PROTO h with
                    | Some s => Some s
                    | None =>
                        match or_scheme o with
                        | Some s => Some s
                        | None => match or_settings o with Some (true, _) => Some (b#"https") | _ => None end
                        end
                    end
                end in
  let host := match fw_host fw with
              | Some s => Some s
              | None =>
                  match first_item X_FORWARDED_HOST h with
                  | Some s => Some s
                  | None =>
                      match hm_get HOST_ h ≫= hv_to_str with
                      | Some s => Some s
                      | None =>
                          match or_authority o with
                          | Some s => Some s
                          | None => match or_settings o with Some (_, host) => Some host | None => None end
                          end
                      end
                  end
              end in
  (* remote addr *)
  let '(remote, peer) := match fw_remote fw with
                         | Some r => (Some r, None)
                         | None =>
                             match first_item X_FORWARDED_FOR h with
                             | Some r => (Some r, None)
                             | None => (None, or_peer o)
                             end
                         end in
  mkCInfo (default (b#"http") scheme) (default (b#"localhost") host) remote peer.

(** [remote]: of the proxies, or else of the socket. *)
Definition ci_remote (i : ConnectionInfo) : option bytes :=
  match ci_remote_ i with Some r => Some r | None => ci_peer i end.

(** *** The reference: the first of all the values there are *)
(** The value of an item, if it has that name. *)
Definition named (name el : bytes) : option bytes :=
  let '(n, v) := split_pair (trim el) in
  match v with Some v => if bool_decide (to_lowercase n = name) then Some (trim v) else None | None => None end.
Definition all_forwarded (h : H) : list bytes :=
  concat (map (fun hdr => match hv_to_str hdr with Some v => forwarded_items v | None => [] end) (get_all FORWARDED h)).
Definition forwarded_values (name : bytes) (h : H) : list bytes := omap (named name) (all_forwarded h).
Definition listed {A} (o : option A) : list A := match o with Some a => [a] | None => [] end.

(** Items keep the first value of a name. *)
Lemma forwarded_item_first fw el :
  fw_remote (forwarded_item fw el) = match fw_remote fw with Some r => Some r | None => named (b#"for") el end /\
  fw_scheme (forwarded_item fw el) = match fw_scheme fw with Some r => Some r | None => named (b#"proto") el end /\
  fw_host (forwarded_item fw el) = match fw_host fw with Some r => Some r | None => named (b#"host") el end.
Proof.
  assert (b#"for" <> b#"proto" /\ b#"for" <> b#"host" /\ b#"proto" <> b#"host") as (? & ? & ?) by by vm_compute.
  unfold forwarded_item, named. destruct (split_pair (trim el)) as [n [v|]]; [|by destruct fw as [[] [] []]].
  repeat case_bool_decide; destruct fw as [[] [] []]; simpl; split_and!; congruence.
Qed.

Lemma forwarded_items_first els fw :
  let fw' := foldl forwarded_item fw els in
  fw_remote fw' = match fw_remote fw with Some r => Some r | None => hd_error (omap (named (b#"for")) els) end /\
  fw_scheme fw' = match fw_scheme fw with Some r => Some r | None => hd_error (omap (named (b#"proto")) els) end /\
  fw_host fw' = match fw_host fw with Some r => Some r | None => hd_error (omap (named (b#"host")) els) end.
Proof.
  revert fw. induction els as [|el els IH]; intros fw; cbn [foldl omap list_omap]; [by destruct fw as [[] [] []]|].
  destruct (IH (forwarded_item fw el)) as (-> & -> & ->), (forwarded_item_first fw el) as (-> & -> & ->).
  split_and!; [destruct (fw_remote fw), (named (b#"for") el)|destruct (fw_scheme fw), (named (b#"proto") el)|destruct (fw_host fw), (named (b#"host") el)]; done.
Qed.

Lemma foldl_concat {A B} (f : A -> B -> A) ls a : foldl (fun a l => foldl f a l) a ls = foldl f a (concat ls).
Proof. revert a. induction ls as [|l ls IH]; intros a; [done|]. simpl. by rewrite IH, foldl_app. Qed.

Lemma forwarded_fold hdrs fw :
  foldl forwarded_header fw hdrs =
  foldl forwarded_item fw (concat (map (fun hdr => match hv_to_str hdr with Some v => forwarded_items v | None => [] end) hdrs)).
Proof.
  revert fw. induction hdrs as [|hdr hdrs IH]; intros fw; [done|]. simpl. rewrite IH, foldl_app. f_equal.
  unfold forwarded_header, forwarded_items. destruct (hv_to_str hdr) as [v|]; [|done].
  rewrite <-foldl_concat. generalize (split_on 59 v). intros l. revert fw. induction l as [|x l IHl]; intros fw; [done|]. simpl. apply IHl.
Qed.

(** The information on a connection is the first there is: what the proxies say in Forwarded
    headers (names in any case, the first one of a name), then the first item of the
    X-Forwarded header, then what the request itself says, then the settings of the
    server. *)
Theorem connection_info_precedence (h : H) (o : Origin) :
  let i := ConnectionInfo_new h o in
  ci_scheme i = hd (b#"http") (forwarded_values (b#"proto") h ++ listed (first_item X_FORWARDED_PROTO h) ++ listed (or_scheme o) ++
    match or_settings o with Some (true, _) => [b#"https"] | _ => [] end) /\
  ci_host i = hd (b#"localhost") (forwarded_values (b#"host") h ++ listed (first_item X_FORWARDED_HOST h) ++
    listed (hm_get HOST_ h ≫= hv_to_str) ++ listed (or_authority o) ++ listed (snd <$> or_settings o)) /\
  ci_remote i = hd_error (forwarded_values (b#"for") h ++ listed (first_item X_FORWARDED_FOR h) ++ listed (or_peer o)).
Proof.
  cbn zeta. unfold ConnectionInfo_new. rewrite forwarded_fold. fold (all_forwarded h).
  destruct (forwarded_items_first (all_forwarded h) (mkFwd None None None)) as (Hr & Hs & Hh). cbn [fw_remote fw_scheme fw_host] in Hr, Hs, Hh.
  rewrite Hr, Hs, Hh. unfold forwarded_values, ci_remote. split_and!.
  - destruct (omap (named (b#"proto")) _), (first_item X_FORWARDED_PROTO h), (or_scheme o), (or_settings o) as [[[] ?]|]; simpl; by repeat case_match.
  - destruct (omap (named (b#"host")) _), (first_item X_FORWARDED_HOST h), (hm_get HOST_ h ≫= hv_to_str), (or_authority o),
      (or_settings o) as [[? ?]|]; simpl; by repeat case_match.
  - destruct (omap (named (b#"for")) _), (first_item X_FORWARDED_FOR h), (or_peer o); done.
Qed.
End Info.

(** ** The access log *)

Inductive FormatText : Type :=
| FT_Str (s : bytes)
| FT_Pid
| FT_Percent
| FT_RequestLine
| FT_RequestTime
| FT_ResponseStatus
| FT_ResponseSize
| FT_Time
| FT_TimeMillis
| FT_RemoteAddr
| FT_RequestHeader (name : bytes)
| FT_ResponseHeader (name : bytes)
| FT_EnvironHeader (name : bytes).

(** The regular expression of [Format::new] behind a percent sign: a braced name and one of
    [i], [o], [e], or else at most one of the letters. *)
Definition name_char (b : Z) : bool :=
  ((65 <=? b) && (b <=? 90)) || ((97 <=? b) && (b <=? 122)) || ((48 <=? b) && (b <=? 57)) || (b =? 45) || (b =? 95).
Fixpoint span_name (s : bytes) : bytes * bytes :=
  match s with
  | b :: s' => if name_char b then let '(n, r) := span_name s' in (b :: n, r) else ([], s)
  | [] => ([], [])
  end.
Definition header_unit (name : bytes) (kind : Z) : option FormatText :=
  if kind =? 105 then Some (FT_RequestHeader name)
  else if kind =? 111 then Some (FT_ResponseHeader name)
  else if kind =? 101 then Some (FT_EnvironHeader name)
  else None.
Definition match_header (s : bytes) : option (FormatText * bytes) :=
  match s with
  | 123 :: s =>
      match span_name s with
      | ((_ :: _) as name, 125 :: kind :: rest) => match header_unit name kind with Some u => Some (u, rest) | None => None end
      | _ => None
      end
  | _ => None
  end.
Definition letter_unit (b : Z) : option FormatText :=
  if b =? 97 then Some FT_RemoteAddr
  else if b =? 116 then Some FT_RequestTime
  else if b =? 80 then Some FT_Pid
  else if b =? 114 then Some FT_RequestLine
  else if b =? 115 then Some FT_ResponseStatus
  else if b =? 98 then Some FT_ResponseSize
  else if b =? 84 then Some FT_Time
  else if b =? 68 then Some FT_TimeMillis
  else None.
(** The unit of a match, and what is behind it.  An empty group 1 is no ["%"]: it gives the
    empty text. *)
Definition match_unit (s : bytes) : FormatText * bytes :=
  match match_header s with
  | Some m => m
  | None =>
      match s with
      | b :: rest => match letter_unit b with Some u => (u, rest) | None => (FT_Str [], s) end
      | [] => (FT_Str [], [])
      end
  end.

(** [Format::new]: [text] is what is behind the last match. *)
Definition flush_text (text : bytes) : list FormatText := match text with [] => [] | _ => [FT_Str text] end.
Fixpoint format_loop (fuel : nat) (text s : bytes) : list FormatText :=
  match fuel with
  | O => []
  | S fuel =>
      match s with
      | [] => flush_text text
      | 37 :: s => let '(u, rest) := match_unit s in flush_text text ++ u :: format_loop fuel [] rest
      | b :: s => format_loop fuel (text ++ [b]) s
      end
  end.
Definition Format_new (s : bytes) : list FormatText := format_loop (S (length s)) [] s.
Definition Format_default : list FormatText :=
  Format_new (b#"%a %t " ++ [34] ++ b#"%r" ++ [34] ++ b#" %s %b " ++ [34] ++ b#"%{Referer}i" ++ [34; 32; 34] ++ b#"%{User-Agent}i" ++ [34] ++ b#" %T").

Section Log.
Context {H : Type} `{HM : HeaderMap H}.
Context (pid : Z) (env : bytes -> option bytes) (strftime : Z -> bytes) (fixed6 : Z -> Z -> bytes).

(** A request as the log reads it. *)
Record Logged : Type := mkLogged { lg_method : bytes; lg_path : bytes; lg_query : bytes; lg_version : bytes; lg_headers : H; lg_origin : Origin }.

Definition header_text (name : bytes) (h : H) : bytes :=
  match hm_get name h with
  | Some val => match hv_to_str val with Some s => s | None => b#"-" end
  | None => b#"-"
  end.

(** [render]: times are nanoseconds; [fixed6 n d] is the text of [n / d] with six digits. *)
Definition FormatText_render (u : FormatText) (req : Logged) (resp : InnerHttpResponse H) (now entry_time : Z) : bytes :=
  match u with
  | FT_Str s => s
  | FT_Percent => b#"%"
  | FT_RequestLine =>
      match lg_query req with
      | [] => lg_method req ++ b#" " ++ lg_path req ++ b#" " ++ lg_version req
      | _ => lg_method req ++ b#" " ++ lg_path req ++ b#"?" ++ lg_query req ++ b#" " ++ lg_version req
      end
  | FT_ResponseStatus => format_decimal (r_status resp)
  | FT_ResponseSize => format_decimal (r_response_size resp)
  | FT_Pid => format_decimal pid
  | FT_Time => fixed6 (now - entry_time) 1000000000
  | FT_TimeMillis => fixed6 (now - entry_time) 1000000
  | FT_RemoteAddr => default (b#"-") (ci_remote (ConnectionInfo_new (lg_headers req) (lg_origin req)))
  | FT_RequestTime => strftime entry_time
  | FT_RequestHeader name => header_text name (lg_headers req)
  | FT_ResponseHeader name => header_text name (r_headers resp)
  | FT_EnvironHeader name => default (b#"-") (env name)
  end.

(** [start] puts the time into the extensions of the request, [finish] logs. *)
Definition logger_start (now : Z) (slot : option Z) : option Z := Some now.
Definition logger_log (format : list FormatText) (slot : option Z) (req : Logged) (resp : InnerHttpResponse H) (now : Z) : run bytes :=
  entry_time ← unwrap slot;
  Ret (concat (map (fun u => FormatText_render u req resp now entry_time) format)).
End Log.

(** *** Formats are read as they are written *)

(** The pieces of a format: text without percent signs, the letters, headers, and percent
    signs that are neither. *)
Inductive piece : Type := P_text (s : bytes) | P_letter (b : Z) | P_header (name : bytes) (kind : Z) | P_lone.
Definition piece_text (p : piece) : bytes :=
  match p with
  | P_text s => s
  | P_letter b => [37; b]
  | P_header name kind => [37; 123] ++ name ++ [125; kind]
  | P_lone => [37]
  end.
Definition piece_unit (p : piece) : FormatText :=
  match p with
  | P_text s => FT_Str s
  | P_letter b => default (FT_Str []) (letter_unit b)
  | P_header name kind => default (FT_Str []) (header_unit name kind)
  | P_lone => FT_Str []
  end.
Definition written (ps : list piece) : bytes := concat (map piece_text ps).

(** Pieces are the longest: no text behind a text, and nothing behind a lone sign that
    would make it more. *)
Fixpoint separate (ps : list piece) : Prop :=
  match ps with
  | [] => True
  | p :: ps =>
      match p with
      | P_text s => s <> [] /\ 37 ∉ s /\ match ps with P_text _ :: _ => False | _ => True end
      | P_letter b => is_Some (letter_unit b)
      | P_header name kind => name <> [] /\ forallb name_char name = true /\ is_Some (header_unit name kind)
      | P_lone => match_unit (written ps) = (FT_Str [], written ps)
      end /\ separate ps
  end.

Lemma span_name_ok name rest : forallb name_char name = true -> span_name (name ++ 125 :: rest) = (name, 125 :: rest).
Proof.
  induction name as [|b name IH]; intros Hn; [done|]. simpl in *. apply andb_true_iff in Hn as [-> Hn]. by rewrite IH.
Qed.

Lemma match_unit_piece p ps :
  separate (p :: ps) -> (forall s, p <> P_text s) ->
  exists s, written (p :: ps) = 37 :: s /\ match_unit s = (piece_unit p, written ps) /\ (length (written ps) <= length s)%nat.
Proof.
  intros [Hp _] Ht. destruct p as [s|b|name kind|]; [by destruct (Ht s)|..]; unfold written; cbn [map concat piece_text app]; eexists; (split; [done|]).
  - destruct Hp as [u Hu]. unfold match_unit, piece_unit. rewrite Hu. split; [|simpl; lia].
    assert (b <> 123) as Hb by (intros ->; discriminate Hu).
    assert (match_header (b :: concat (map piece_text ps)) = None) as ->; [|done].
    unfold match_header. repeat (case_match; try done).
  - destruct Hp as (Hne & Hn & u & Hu). rewrite <-app_assoc. cbn [app]. unfold match_unit, match_header.
    rewrite span_name_ok by done. destruct name as [|b name]; [done|]. unfold piece_unit. rewrite Hu. split; [done|].
    simpl. rewrite length_app. simpl. lia.
  - unfold written in Hp. by rewrite Hp.
Qed.

Lemma format_loop_text fuel text s rest :
  37 ∉ s -> (length (s ++ rest) < fuel)%nat ->
  exists fuel', (length rest < fuel')%nat /\ format_loop fuel text (s ++ rest) = format_loop fuel' (text ++ s) rest.
Proof.
  revert fuel text. induction s as [|b s IH]; intros fuel text Hs Hf; [exists fuel; by rewrite app_nil_r|].
  apply not_elem_of_cons in Hs as [Hb Hs]. destruct fuel as [|fuel]; [simpl in Hf; lia|].
  destruct (IH fuel (text ++ [b]) Hs) as (fuel' & Hl & He); [simpl in Hf; lia|]. exists fuel'. split; [done|].
  rewrite <-app_assoc in He. simpl in He. rewrite <-He. simpl. repeat (case_match; try done).
Qed.

Lemma format_loop_pieces ps fuel text :
  separate ps -> (length (written ps) < fuel)%nat ->
  match ps with P_text _ :: _ => text = [] | _ => True end ->
  format_loop fuel text (written ps) = flush_text text ++ map piece_unit ps.
Proof.
  revert fuel text. induction ps as [|p ps IH]; intros fuel text Hs Hf Htext.
  { destruct fuel; [simpl in Hf; lia|]. simpl. by rewrite app_nil_r. }
  destruct p as [s| | |]; [|shelve..].
  - subst text. destruct Hs as [(Hne & Hpct & Hnext) Hs]. change (written (P_text s :: ps)) with (s ++ written ps) in *.
    destruct (format_loop_text fuel [] s (written ps) Hpct Hf) as (fuel' & Hl & ->). simpl. rewrite IH by (by destruct ps as [|[] ?]).
    by destruct s.
  Unshelve.
  all: destruct (match_unit_piece _ _ Hs) as (s & Hw & Hm & Hl); [done|]; destruct Hs as [_ Hs];
    rewrite Hw in *; destruct fuel as [|fuel]; [simpl in Hf; lia|]; cbn [format_loop]; rewrite Hm;
    rewrite IH; [done|done|simpl in Hf; lia|by destruct ps as [|[] ?]].
Qed.

(** A format is read as it is written: pieces of text, letters and headers become their
    units in order, and the line is the texts of these units one after the other; a lone
    percent sign, and so each half of a double one, becomes the empty text. *)
Theorem log_line {H : Type} `{HM : HeaderMap H} pid env strftime fixed6 (ps : list piece) (req : Logged) (resp : InnerHttpResponse H) now0 now :
  separate ps ->
  Format_new (written ps) = map piece_unit ps /\
  logger_log pid env strftime fixed6 (Format_new (written ps)) (logger_start now0 None) req resp now =
    Ret (concat (map (fun p => FormatText_render pid env strftime fixed6 (piece_unit p) req resp now now0) ps)).
Proof.
  intros Hs. assert (Format_new (written ps) = map piece_unit ps) as Hf.
  { unfold Format_new. rewrite format_loop_pieces; [done|done|lia|by destruct ps as [|[] ?]]. }
  split; [done|]. rewrite Hf. unfold logger_log, logger_start. cbn [unwrap mbind run_bind]. by rewrite map_map.
Qed.

(** No format logs a percent sign, although "%%" is documented to. *)
Lemma percent_never_logged s : FT_Percent ∉ Format_new s.
Proof.
  unfold Format_new. generalize (S (length s)) (@nil Z). intros fuel. revert s. induction fuel as [|fuel IH]; intros s text; [set_solver|].
  assert (FT_Percent ∉ flush_text text) as Ht by (destruct text; set_solver).
  destruct s as [|b s]; [done|]. cbn [format_loop]. destruct (decide (b = 37)) as [->|Hb].
  - assert (forall r, match_unit s <> (FT_Percent, r)) as Hm.
    { intros r. unfold match_unit, match_header, header_unit, letter_unit. repeat case_match; simplify_eq; done. }
    destruct (match_unit s) as [u rest]. intros [?|[<-|?]%elem_of_cons]%elem_of_app; [done|by destruct (Hm rest)|by destruct (IH rest [])].
  - repeat (case_match; try apply IH). done.
Qed.

Lemma log_line_witness :
  exists line, logger_log (H := list (bytes * bytes)) 1 (fun _ => None) (fun _ => b#"now") (fun n d => format_decimal (n / d))
    (Format_new (b#"a %s %{Host}i %% %D")) (logger_start 0 None)
    (mkLogged GET (b#"/") [] (b#"HTTP/1.1") [(b#"Host", b#"h.org")] (mkOrigin None None None None))
    (InnerHttpResponse_new 200 Body_Empty) 5000000 = Ret line /\ line = b#"a 200 h.org  5".
Proof.
  destruct (log_line (H := list (bytes * bytes)) 1 (fun _ => None) (fun _ => b#"now") (fun n d => format_decimal (n / d))
    [P_text (b#"a "); P_letter 115; P_text (b#" "); P_header (b#"Host") 105; P_text (b#" "); P_lone; P_lone; P_text (b#" "); P_letter 68]
    (mkLogged GET (b#"/") [] (b#"HTTP/1.1") [(b#"Host", b#"h.org")] (mkOrigin None None None None)) (InnerHttpResponse_new 200 Body_Empty) 0 5000000)
    as [_ Hl].
  - repeat split; try (by eexists); try done; try (intros Hx; apply list_elem_of_In in Hx; simpl in Hx; intuition discriminate).
  - eexists. split; [exact Hl|]. vm_compute. reflexivity.
Defined.
